(* ===== verification/_CoqProject ===== *)
-Q . S2P
Prelude.v
Text.v
Bytes.v
Ranges.v
RangesFacts.v
Bitmap.v
AggregateFacts.v
NtfsRuns.v
NtfsBitmap.v
NtfsRecord.v
Device.v
Addresses.v
NtfsVolume.v
NtfsTxn.v
NtfsTxnFacts.v
NtfsPlan.v
NtfsCompact.v
NtfsFiles.v
NtfsSafety.v
NtfsRefine.v
ReaderFacts.v
NtfsMap.v
NtfsMapFacts.v
Devices.v
Swap.v
SummaryMaps.v
Xfs.v
XfsFacts.v
Ext4.v
Ext4Facts.v
Apple.v
AppleTxn.v
AppleFacts.v
AppleMove.v
HfsMaps.v
HfsFacts.v
Exfat.v
ExfatFacts.v
ExfatMap.v
ExfatMapFacts.v
NativeGeometry.v
Kernel.v
NativeCompact.v
NativeXfs.v
NativeRun.v
Btrfs.v
BtrfsKernel.v
NativeBtrfs.v
BtrfsFacts.v
BtrfsSample.v
BtrfsKernelFacts.v
NativeBtrfsFacts.v
BtrfsSim.v
NativeFacts.v
NativeXfsFacts.v
NativeRunFacts.v
NativeSim.v
Dispatch.v
Journal.v
Helper.v
