(* ===== verification/Prelude.v ===== *)
(** * Linux Defragger: a verification library

    Linux Defragger shows how the space of a file system is used and moves
    files on it.  A GTK window starts worker programs through a privileged
    helper; a worker is found through a registry of file-system plugins; map
    backends read a volume and count it into cells; engines move streams under
    a recovery journal.  This library models the Python code under [src/gui/]
    as Rocq functions and proves what makes it correct.

    ** Foundations

    - [Prelude]: Python integers, byte strings, exceptions ([result]), slices,
      dictionaries, the error monad, tactics and hints.
    - [Text]: decoding, splitting and formatting of text.
    - [Bytes]: [struct] fields and [Reader.read] of [backends/io.py].
    - [Device]: a worker as a function from the contents of the device to the
      effects it issues ([prog]); [crash] is power loss: writes in front of an
      [fsync] are complete, of the others any bytes may be missing.
    - [Addresses]: the bytes at a list of addresses, what a trace writes where.
    - [ReaderFacts]: which exceptions a reading computation can raise.

    ** Maps

    - [Ranges], [RangesFacts], [Bitmap], [AggregateFacts]: [backends/ranges.py].
      Every counter the linear-time loops produce equals counting the units of
      the cell one at a time.
    - [Swap]: [backends/swap.py].  [Xfs], [XfsFacts]: [backends/xfs.py].
      [Ext4], [Ext4Facts]: [backends/ext4.py].  The maps count exactly, the
      walks over corrupt trees end, and one bad inode does not lose the map.
    - [NtfsMap], [ExfatMap], [HfsMaps]: [backends/ntfs.py], [exfat.py],
      [hfs.py] and [hfsplus.py].  These parse what the engines parse too, with
      code of their own; [NtfsMapFacts], [ExfatMapFacts] and [HfsFacts] prove
      that a map counts the blocks its engine takes for used and for free.
    - [Btrfs]: [backends/btrfs.py] on an image: the chunk mapping, the tree
      reader, the extent items and the file extents of all trees; [BtrfsKernel]
      the same map read through the tree-search ioctl of the mounted volume.
      [BtrfsFacts] proves the mapping exact on every mirror, the walk with its
      stack and its cache equal to a recursion, and the counts of the map;
      [BtrfsKernelFacts] that the paging of the ioctl (whose documented
      behaviour is the class [TreeSearchLaws]) delivers every item once and
      that both maps agree; [BtrfsSample] and [BtrfsSim] hold a small volume
      and a simulated kernel that satisfies the laws.
    - [SummaryMaps]: [minix.py], [ufs.py], [zfs.py], [apfs.py] and
      [fat_common.py] of [backends/]: what they do not decode stays unknown.

    ** Engines

    - [NtfsRuns], [NtfsBitmap], [NtfsRecord], [NtfsVolume], [NtfsTxn],
      [NtfsPlan], [NtfsCompact]: [ntfs_engine.py], from the run-list bytes to
      the loops of [compact] and [defragment].  [NtfsTxnFacts] proves one move
      correct and crash-safe; [NtfsFiles] defines the abstract contents of a
      volume (the files with their bytes); [NtfsSafety] and [NtfsRefine] prove
      that a whole run keeps them, also through any number of power failures
      and recoveries.
    - [Exfat], [ExfatFacts]: [exfat_engine.py]: chains, directory entry sets,
      first fit, growth layout.
    - [Apple]: [apple_engine.py], whole: fork maps, leaf records, the volume,
      the forks of all files, the journalled move, recovery, the loop.
      [AppleTxn] proves the protocol of four patch lists and a copy crash-safe;
      [AppleFacts] that the patches say exactly what changes; [AppleMove]
      that the engine's move and recovery follow the protocol.
    - [NativeGeometry], [NativeCompact], [NativeXfs], [NativeRun]:
      [native_compact_engine.py], which moves the files of a mounted ext4 or
      XFS volume through the kernel.  [Kernel] holds the system calls: they
      are a record of functions, and the class [KernelLaws] states what the
      engine relies on (only an exchange or a write of the engine's own changes
      a file, an exchange swaps contents and places).  [NativeFacts] proves
      that a pass moves blocks down only and ends, [NativeXfsFacts] the
      exchange of whole files, [NativeRunFacts] that no file changes and that
      ext4 gets its size back; [NativeSim] is an executable kernel that
      satisfies all the laws.
    - [NativeBtrfs], [NativeBtrfsFacts]: the Btrfs part of the same engine and
      its command: the chunk layout, the balance, the cycles that shrink the
      file system and grow it back.  Whatever fails, the volume has its size
      again at the end as long as growing works ([BtrfsLaws]).

    ** Around the engines

    - [Devices]: [core/devices.py], the mount check.
    - [Dispatch]: [backends/contracts.py], [backends/registry.py],
      [core/operations.py], [core/paths.py], [operation_engine.py],
      [allocation_mapper.py]: from a request to a worker's command line.
    - [Journal]: [core/journal.py]: the journal file is replaced atomically;
      [Device] takes that for granted.
    - [Helper]: [privileged_helper.py] as interleaved steps of its threads.

    ** Conventions

    A Python function that may raise returns a [result]; a loop over a list is
    [foldM] or [pforeach]; state the code keeps in objects is a record that the
    operations pass on.  What the environment answers (the kernel's tables,
    [realpath], the stop flag, the chunk sizes of [os.pread]) is a parameter.

    A loop that is not structural takes fuel and raises [OutOfFuel] when it is
    used up.  The fuel is given by the code's own bound: the attribute walk
    has one unit per byte of the record, tree walks one per block they may
    visit (each is visited once), the leaf chain of HFS+ one per node,
    [compact_loop] one per move, where the measure of
    [NtfsCompact.compact_terminates] shows how many are enough.

    ** What is not modelled

    The GTK window ([linux_defragger_gui.py]), the test-data tool, printed
    text, timing, the encoding of ioctl numbers and argument parsing are left
    out: they are input and output.  [affs_engine.py] and the map backend of
    AFFS are left out because nearly all they do is calls of the vendored
    amitools package. *)

From Stdlib Require Export ZArith Lia Sorting.Sorted.
From stdpp Require Export base list gmap strings numbers option sorting.

#[global] Open Scope Z_scope.

(** ** Python values

    Python integers are unbounded: they are [Z].  [bytes] and [bytearray] are
    lists of [Z]; [wf_bytes] says every element is an octet. *)

Abbreviation bytes := (list Z).

Definition is_byte (b : Z) : Prop := 0 <= b < 256.

Definition wf_bytes (data : bytes) : Prop := Forall is_byte data.

(** ** Exceptions

    A statement that may raise returns a [result].  An exception carries its
    class and the fixed text of its message. *)

Inductive exn_class :=
  | BackendError | NtfsCompactError | EngineError | CompactError
  | SourceNotMovable | IndexError | StructError | ValueError | OverflowError
  | KeyError | OSError | FileNotFoundError | RuntimeError | InterruptedError
  | TypeError | ZeroDivisionError | SubprocessError | OutOfFuel.

#[global] Instance exn_class_eq_dec : EqDecision exn_class.
Proof. solve_decision. Defined.

Record exn := Exn { exn_kind : exn_class; exn_msg : string }.

#[global] Instance exn_eq_dec : EqDecision exn.
Proof. solve_decision. Defined.

Inductive result (A : Type) :=
  | Ok (a : A)
  | Raise (e : exn).
Arguments Ok {A} a.
Arguments Raise {A} e.

#[global] Instance result_ret : MRet result := fun A a => Ok a.
#[global] Instance result_bind : MBind result := fun A B f m =>
  match m with Ok a => f a | Raise e => Raise e end.
#[global] Instance result_fmap : FMap result := fun A B f m =>
  match m with Ok a => Ok (f a) | Raise e => Raise e end.
#[global] Instance result_eq_dec `{EqDecision A} : EqDecision (result A).
Proof. solve_decision. Defined.

(** [raise C "text"] is Python's [raise C("text")]. *)
Definition raise {A} (c : exn_class) (msg : string) : result A := Raise (Exn c msg).

Declare Scope py_scope.
Delimit Scope py_scope with py.
#[global] Open Scope py_scope.

(** [check b # e ; k] is the guard [if b: raise e] in front of [k]. *)
Notation "'check' b '#' c msg ; k" :=
  (if b then raise c msg else k)
  (at level 60, b at level 99, c at level 0, msg at level 0, k at level 200,
   right associativity, only parsing) : py_scope.

Fixpoint mapM_result {A B} (f : A -> result B) (l : list A) : result (list B) :=
  match l with
  | [] => Ok []
  | x :: l' => y ← f x; ys ← mapM_result f l'; Ok (y :: ys)
  end.

Fixpoint foldM {A B} (f : B -> A -> result B) (acc : B) (l : list A) : result B :=
  match l with
  | [] => Ok acc
  | x :: l' => acc' ← f acc x; foldM f acc' l'
  end.

Definition is_ok {A} (r : result A) : bool :=
  match r with Ok _ => true | Raise _ => false end.

(** ** Sequences *)

Definition py_len {A} (l : list A) : Z := Z.of_nat (length l).

(** Indexing with Python's negative indices. *)
Definition py_get {A} (l : list A) (i : Z) : result A :=
  let j := if i <? 0 then i + py_len l else i in
  if (j <? 0) then raise IndexError "index out of range" else
  match l !! Z.to_nat j with
  | Some x => Ok x
  | None => raise IndexError "index out of range"
  end.

Definition py_set {A} (l : list A) (i : Z) (v : A) : result (list A) :=
  let j := if i <? 0 then i + py_len l else i in
  if (j <? 0) || (py_len l <=? j) then raise IndexError "assignment index out of range"
  else Ok (<[Z.to_nat j := v]> l).

(** A slice bound is shifted by the length when negative and clamped. *)
Definition py_bound {A} (l : list A) (i : Z) : nat :=
  Z.to_nat (Z.max 0 (Z.min (py_len l) (if i <? 0 then i + py_len l else i))).

Definition py_slice {A} (l : list A) (a b : Z) : list A :=
  take (py_bound l b - py_bound l a)%nat (drop (py_bound l a) l).

(** [l[a:b] = data]: the slice is replaced, so the length may change. *)
Definition py_set_slice {A} (l : list A) (a b : Z) (data : list A) : list A :=
  take (py_bound l a) l ++ data ++ drop (Nat.max (py_bound l a) (py_bound l b)) l.

Definition py_range (a b : Z) : list Z := seqZ a (b - a).

Definition py_zeros (n : Z) : bytes := replicate (Z.to_nat n) 0.

Definition zsum (l : list Z) : Z := foldr Z.add 0 l.

(** ** Stable insertion sort: the order Python's [sorted] gives *)

Section sort.
Context {A : Type} (leb : A -> A -> bool).

Fixpoint sort_insert (x : A) (l : list A) : list A :=
  match l with
  | [] => [x]
  | y :: l' => if leb x y then x :: l else y :: sort_insert x l'
  end.

Definition py_sorted (l : list A) : list A := foldr sort_insert [] l.

Lemma sort_insert_perm x l : sort_insert x l ≡ₚ x :: l.
Proof.
  induction l as [|y l IH]; simpl; [done|].
  destruct (leb x y); [done|]. rewrite IH. apply Permutation_swap.
Qed.

Lemma py_sorted_perm l : py_sorted l ≡ₚ l.
Proof.
  induction l as [|x l IH]; simpl; [done|].
  by rewrite sort_insert_perm, IH.
Qed.

Hypothesis leb_total : forall x y, leb x y = true \/ leb y x = true.
Hypothesis leb_trans : forall x y z, leb x y = true -> leb y z = true -> leb x z = true.

Lemma sort_insert_sorted x l :
  StronglySorted (fun a b => leb a b = true) l ->
  StronglySorted (fun a b => leb a b = true) (sort_insert x l).
Proof.
  induction 1 as [|y l Hs IH Hy]; simpl; [by repeat constructor|].
  destruct (leb x y) eqn:E.
  - constructor; [by constructor|]. constructor; [done|].
    eapply Forall_impl; [exact Hy|]. eauto.
  - constructor; [done|]. rewrite sort_insert_perm. constructor; [|done].
    destruct (leb_total x y); congruence.
Qed.

Lemma py_sorted_sorted l : StronglySorted (fun a b => leb a b = true) (py_sorted l).
Proof. induction l; simpl; [constructor|]. by apply sort_insert_sorted. Qed.
End sort.

(** ** Dictionaries

    A Python [dict] keeps its keys in insertion order; assigning to a present
    key keeps its place. *)

Section dict.
Context {K V : Type} `{EqDecision K}.

Fixpoint dict_get (k : K) (d : list (K * V)) : option V :=
  match d with
  | [] => None
  | (k', v) :: d' => if decide (k = k') then Some v else dict_get k d'
  end.

Fixpoint dict_set (k : K) (v : V) (d : list (K * V)) : list (K * V) :=
  match d with
  | [] => [(k, v)]
  | (k', v') :: d' => if decide (k = k') then (k', v) :: d' else (k', v') :: dict_set k v d'
  end.

Lemma dict_get_set k k' v d : dict_get k (dict_set k' v d) = if decide (k = k') then Some v else dict_get k d.
Proof.
  induction d as [|[k0 v0] d IH]; simpl; [done|]. destruct (decide (k' = k0)) as [->|]; simpl; [by destruct (decide (k = k0))|].
  destruct (decide (k = k0)) as [->|]; [by rewrite decide_False by congruence|done].
Qed.

Lemma dict_set_keys k v d : k ∈ map fst d -> map fst (dict_set k v d) = map fst d.
Proof.
  induction d as [|[k0 v0] d IH]; simpl; [by intros ?%elem_of_nil|]. intros Hk.
  destruct (decide (k = k0)); simpl; [done|]. f_equal. apply IH. set_solver.
Qed.

Lemma dict_set_NoDup k v d : NoDup (map fst d) -> NoDup (map fst (dict_set k v d)).
Proof.
  induction d as [|[k0 v0] d IH]; simpl; intros Hnd; [apply NoDup_singleton|]. apply NoDup_cons in Hnd as [Hno Hnd].
  destruct (decide (k = k0)); simpl; [by apply NoDup_cons|]. apply NoDup_cons. split; [|by apply IH].
  intros Hin. apply Hno. clear IH Hnd Hno. induction d as [|[k1 v1] d IH]; simpl in *; [set_solver|].
  destruct (decide (k = k1)); simpl in *; set_solver.
Qed.

Lemma elem_of_dict_set k v d x : x ∈ dict_set k v d -> x = (k, v) \/ x ∈ d.
Proof.
  induction d as [|[k0 v0] d IH]; simpl; [by intros ->%list_elem_of_singleton; left|].
  destruct (decide (k = k0)) as [->|]; rewrite !elem_of_cons; [tauto|]. intros [?|?]; [tauto|]. destruct (IH H); tauto.
Qed.

Lemma dict_get_elem k v d : dict_get k d = Some v -> (k, v) ∈ d.
Proof.
  induction d as [|[k0 v0] d IH]; simpl; [done|]. rewrite elem_of_cons.
  destruct (decide (k = k0)) as [->|]; [intros [= ->]; by left|]. right. by apply IH.
Qed.

Lemma elem_dict_get k v d : NoDup (map fst d) -> (k, v) ∈ d -> dict_get k d = Some v.
Proof.
  induction d as [|[k0 v0] d IH]; simpl; [by intros _ ?%elem_of_nil|]. intros [Hno Hnd]%NoDup_cons [[= -> ->]|Hin]%elem_of_cons.
  - by rewrite decide_True by done.
  - rewrite decide_False; [by apply IH|]. intros ->. apply Hno. apply list_elem_of_fmap. by exists (k0, v).
Qed.
End dict.

(** [max(items, key=...)] keeps the first of equal items. *)
Definition py_max {A} (gtb : A -> A -> bool) (l : list A) : option A :=
  match l with
  | [] => None
  | x :: l' => Some (fold_left (fun best y => if gtb y best then y else best) l' x)
  end.

(** ** Automation *)

(** Turn boolean comparisons in the context into propositions. *)
Ltac bool_to_prop :=
  repeat match goal with
  | H : (_ && _) = true |- _ => apply andb_prop in H as [? ?]
  | H : (_ || _) = false |- _ => apply orb_false_elim in H as [? ?]
  | H : (_ || _) = true |- _ => apply orb_prop in H
  | H : (_ && _) = false |- _ => apply andb_false_iff in H
  | H : negb _ = true |- _ => apply negb_true_iff in H
  | H : negb _ = false |- _ => apply negb_false_iff in H
  | H : (_ <? _) = true |- _ => apply Z.ltb_lt in H
  | H : (_ <? _) = false |- _ => apply Z.ltb_ge in H
  | H : (_ <=? _) = true |- _ => apply Z.leb_le in H
  | H : (_ <=? _) = false |- _ => apply Z.leb_gt in H
  | H : (_ =? _) = true |- _ => apply Z.eqb_eq in H
  | H : (_ =? _) = false |- _ => apply Z.eqb_neq in H
  end.

(** Split on every boolean integer test of the goal, then clean up. *)
Ltac ztests :=
  repeat match goal with
  | |- context [?a <? ?b] => destruct (Z.ltb_spec a b)
  | |- context [?a <=? ?b] => destruct (Z.leb_spec a b)
  | |- context [?a =? ?b] => destruct (Z.eqb_spec a b)
  end.

(** Take a computation in the result monad apart, one bind at a time. *)
Ltac inv_ok :=
  repeat match goal with
  | H : Ok _ = Ok _ |- _ => injection H as H; try subst
  | H : raise _ _ = Ok _ |- _ => discriminate H
  | H : Raise _ = Ok _ |- _ => discriminate H
  | H : mret _ = Ok _ |- _ => injection H as H; try subst
  | H : mbind _ ?m = Ok _ |- _ =>
      let E := fresh "E" in destruct m eqn:E; simpl in H; [|discriminate H]
  | H : (if ?b then raise _ _ else _) = Ok _ |- _ =>
      let E := fresh "E" in destruct b eqn:E; [discriminate H|]
  end.

Create HintDb defrag discriminated.

(** ** Generic lemmas: results *)

Lemma bind_ok {A B} (m : result A) (f : A -> result B) b :
  m ≫= f = Ok b <-> exists a, m = Ok a /\ f a = Ok b.
Proof.
  destruct m; simpl; split; [eauto|intros (?&[= ->]&?); done|done|by intros (?&?&?)].
Qed.

Lemma mapM_result_length {A B} (f : A -> result B) l k :
  mapM_result f l = Ok k -> length k = length l.
Proof. revert k. induction l; intros k H; simpl in H; inv_ok; simpl; naive_solver. Qed.

Lemma mapM_result_Forall2 {A B} (f : A -> result B) l k :
  mapM_result f l = Ok k -> Forall2 (fun x y => f x = Ok y) l k.
Proof. revert k. induction l; intros k H; simpl in H; inv_ok; constructor; eauto. Qed.

Lemma mapM_result_pure {A B} (f : A -> B) l :
  mapM_result (fun x => Ok (f x)) l = Ok (f <$> l).
Proof. induction l as [|x l IH]; [done|]. simpl. by rewrite IH. Qed.

Lemma mapM_result_ext {A B} (f g : A -> result B) l :
  (forall x, x ∈ l -> f x = g x) -> mapM_result f l = mapM_result g l.
Proof.
  induction l as [|x l IH]; intros H; [done|]. simpl.
  rewrite (H x), IH by (intros; set_solver). done.
Qed.

Lemma foldM_app {A B} (f : B -> A -> result B) acc l k :
  foldM f acc (l ++ k) = (acc' ← foldM f acc l; foldM f acc' k).
Proof. revert acc. induction l as [|x l IH]; intros acc; simpl; [done|]. destruct (f acc x); simpl; auto. Qed.

(** An invariant of the accumulator survives a fold. *)
Lemma foldM_inv {A B} (P : B -> Prop) (f : B -> A -> result B) l acc acc' :
  P acc -> (forall a b b', a ∈ l -> P b -> f b a = Ok b' -> P b') ->
  foldM f acc l = Ok acc' -> P acc'.
Proof.
  revert acc. induction l as [|x l IH]; intros acc H Hf E; simpl in E; inv_ok; [done|].
  eapply (IH a); [eapply Hf; eauto; set_solver| |done].
  intros; eapply Hf; eauto; set_solver.
Qed.

(** ** Generic lemmas: lists and sums *)

Lemma py_len_nonneg {A} (l : list A) : 0 <= py_len l.
Proof. unfold py_len. lia. Qed.

Lemma py_len_app {A} (l k : list A) : py_len (l ++ k) = py_len l + py_len k.
Proof. unfold py_len. rewrite length_app. lia. Qed.

Lemma py_len_cons {A} (x : A) l : py_len (x :: l) = 1 + py_len l.
Proof. unfold py_len. simpl. lia. Qed.

Lemma zsum_app l k : zsum (l ++ k) = zsum l + zsum k.
Proof. induction l; simpl; lia. Qed.

Lemma zsum_map_ext {A} (f g : A -> Z) (l : list A) :
  (forall x, x ∈ l -> f x = g x) -> zsum (map f l) = zsum (map g l).
Proof.
  induction l as [|x l IH]; intros H; [done|]. simpl.
  rewrite (H x), IH by (intros; set_solver). done.
Qed.

Lemma zsum_map_add {A} (f g : A -> Z) (l : list A) :
  zsum (map (fun x => f x + g x) l) = zsum (map f l) + zsum (map g l).
Proof. induction l; simpl; lia. Qed.

Lemma zsum_map_const {A} (c : Z) (l : list A) : zsum (map (fun _ => c) l) = c * py_len l.
Proof. unfold py_len. induction l; simpl; lia. Qed.

Lemma zsum_nonneg l : Forall (fun x => 0 <= x) l -> 0 <= zsum l.
Proof. induction 1; simpl; lia. Qed.

Lemma seqZ_split a b c : a <= b <= c -> seqZ a (c - a) = seqZ a (b - a) ++ seqZ b (c - b).
Proof.
  intros H. replace (c - a) with ((b - a) + (c - b)) by lia.
  rewrite seqZ_app by lia. by replace (a + (b - a)) with b by lia.
Qed.

Lemma py_range_split a b c : a <= b <= c -> py_range a c = py_range a b ++ py_range b c.
Proof. apply seqZ_split. Qed.

Lemma py_range_nil a b : b <= a -> py_range a b = [].
Proof. intros. unfold py_range. apply seqZ_nil. lia. Qed.

Lemma py_range_cons a b : a < b -> py_range a b = a :: py_range (a + 1) b.
Proof.
  intros. unfold py_range. rewrite seqZ_cons by lia.
  f_equal. f_equal; lia.
Qed.

Lemma py_range_snoc a b : a < b -> py_range a b = py_range a (b - 1) ++ [b - 1].
Proof.
  intros. rewrite (py_range_split a (b - 1) b) by lia. f_equal.
  rewrite py_range_cons by lia. by rewrite py_range_nil by lia.
Qed.

Lemma elem_of_py_range x a b : x ∈ py_range a b <-> a <= x < b.
Proof. unfold py_range. rewrite elem_of_seqZ. lia. Qed.

Lemma py_len_range a b : py_len (py_range a b) = Z.max 0 (b - a).
Proof. unfold py_len, py_range. rewrite length_seqZ. lia. Qed.

(** ** Counting the integers of an interval that satisfy a predicate

    The reference against which the byte-wise and range-wise counters of the
    program are proved. *)

Definition count_where (p : Z -> bool) (a b : Z) : Z :=
  zsum (map (fun x => Z.b2z (p x)) (py_range a b)).

Lemma count_where_nil p a b : b <= a -> count_where p a b = 0.
Proof. intros. unfold count_where. by rewrite py_range_nil. Qed.

Lemma count_where_split p a b c :
  a <= b <= c -> count_where p a c = count_where p a b + count_where p b c.
Proof.
  intros. unfold count_where.
  by rewrite (py_range_split a b c), map_app, zsum_app by lia.
Qed.

Lemma count_where_ext p q a b :
  (forall x, a <= x < b -> p x = q x) -> count_where p a b = count_where q a b.
Proof.
  intros H. apply zsum_map_ext. intros x Hx. rewrite H; [done|].
  by apply elem_of_py_range in Hx.
Qed.

Lemma count_where_all p a b :
  (forall x, a <= x < b -> p x = true) -> count_where p a b = Z.max 0 (b - a).
Proof.
  intros H. rewrite (count_where_ext p (fun _ => true)) by done.
  unfold count_where. rewrite zsum_map_const, py_len_range. simpl. lia.
Qed.

Lemma count_where_none p a b :
  (forall x, a <= x < b -> p x = false) -> count_where p a b = 0.
Proof.
  intros H. rewrite (count_where_ext p (fun _ => false)) by done.
  unfold count_where. rewrite zsum_map_const. simpl. lia.
Qed.

Lemma count_where_bounds p a b : 0 <= count_where p a b <= Z.max 0 (b - a).
Proof.
  unfold count_where. rewrite <- py_len_range.
  induction (py_range a b) as [|x l IH]; [by split|].
  rewrite py_len_cons. cbn [map zsum foldr]. fold zsum.
  unfold zsum in IH. destruct (p x); simpl Z.b2z; lia.
Qed.

Lemma count_where_negb p a b :
  a <= b -> count_where (fun x => negb (p x)) a b = (b - a) - count_where p a b.
Proof.
  intros. assert (count_where p a b + count_where (fun x => negb (p x)) a b
                  = count_where (fun _ => true) a b) as E.
  { unfold count_where. rewrite <- zsum_map_add. apply zsum_map_ext.
    intros x _. by destruct (p x). }
  rewrite (count_where_all (fun _ => true)) in E by done. lia.
Qed.

Lemma count_where_one p a : count_where p a (a + 1) = Z.b2z (p a).
Proof.
  unfold count_where. rewrite py_range_cons, py_range_nil by lia. simpl. lia.
Qed.

Lemma count_where_shift p a b k :
  count_where p (a + k) (b + k) = count_where (fun x => p (k + x)) a b.
Proof.
  unfold count_where, py_range. replace (b + k - (a + k)) with (b - a) by lia.
  rewrite (Z.add_comm a k), <- fmap_add_seqZ. f_equal.
  apply (map_map (Z.add k) (fun x => Z.b2z (p x))).
Qed.

Lemma count_where_interval lo hi a b :
  count_where (fun x => (lo <=? x) && (x <? hi)) a b = Z.max 0 (Z.min b hi - Z.max a lo).
Proof.
  destruct (Z.le_gt_cases (Z.min b hi) (Z.max a lo)).
  { rewrite count_where_none; [lia|]. intros x Hx. ztests; simpl; try done; lia. }
  rewrite (count_where_split _ a (Z.max a lo) b) by lia.
  rewrite (count_where_split _ (Z.max a lo) (Z.min b hi) b) by lia.
  rewrite (count_where_none _ a), (count_where_none _ (Z.min b hi)), count_where_all.
  - lia.
  - intros x Hx. ztests; simpl; try done; lia.
  - intros x Hx. ztests; simpl; try done; lia.
  - intros x Hx. ztests; simpl; try done; lia.
Qed.

Lemma StronglySorted_reverse {A} (R : A -> A -> Prop) l :
  StronglySorted R l -> StronglySorted (flip R) (reverse l).
Proof.
  induction 1 as [|x l Hl IH Hx]; [constructor|].
  rewrite reverse_cons. apply StronglySorted_app_2; [|done|repeat constructor].
  intros a b Ha Hb. apply list_elem_of_singleton in Hb as ->.
  rewrite elem_of_reverse in Ha. rewrite Forall_forall in Hx. by apply Hx.
Qed.

Lemma StronglySorted_impl {A} (R S : A -> A -> Prop) l :
  (forall a b, R a b -> S a b) -> StronglySorted R l -> StronglySorted S l.
Proof.
  intros HRS. induction 1 as [|x l Hl IH Hx]; constructor; [done|].
  eapply Forall_impl; [exact Hx|]. auto.
Qed.

Lemma filter_all {A} (P : A -> Prop) `{forall x, Decision (P x)} l : Forall P l -> base.filter P l = l.
Proof. induction 1; [done|]. rewrite filter_cons_True by done. by f_equal. Qed.

Lemma zip_app_same {A B} (a1 a2 : list A) (b1 b2 : list B) :
  length a1 = length b1 -> zip (a1 ++ a2) (b1 ++ b2) = zip a1 b1 ++ zip a2 b2.
Proof. revert b1. induction a1; intros [|? b1] H; simpl in *; try lia; [done|]. f_equal. apply IHa1. lia. Qed.
