(* ===== verification/Text.v ===== *)
(** * Text

    Python strings are lists of code points.  This file models what the
    program uses of them: UTF-16 and UTF-8 decoding, integer literals, case
    folding against ASCII text and the order on strings. *)

From S2P Require Import Prelude.

Abbreviation text := (list Z).

(** [bytes.decode("utf-16le", errors="replace")] *)
Fixpoint utf16le_decode (data : bytes) : text :=
  match data with
  | [] => []
  | [_] => [65533]
  | b0 :: b1 :: rest =>
      let u := b0 + 256 * b1 in
      if (55296 <=? u) && (u <? 56320) then
        match rest with
        | b2 :: b3 :: rest' =>
            let v := b2 + 256 * b3 in
            if (56320 <=? v) && (v <? 57344) then (65536 + (u - 55296) * 1024 + (v - 56320)) :: utf16le_decode rest'
            else 65533 :: utf16le_decode rest
        | _ => [65533]
        end
      else if (56320 <=? u) && (u <? 57344) then 65533 :: utf16le_decode rest
      else u :: utf16le_decode rest
  end.

(** [bytes.decode("utf-16-be", errors="replace")] *)
Fixpoint swap_pairs (data : bytes) : bytes :=
  match data with
  | b0 :: b1 :: rest => b1 :: b0 :: swap_pairs rest
  | _ => data
  end.

Definition utf16be_decode (data : bytes) : text := utf16le_decode (swap_pairs data).

(** [str.casefold] for comparisons with ASCII text: the characters whose
    folding consists of ASCII characters; all others fold to text that
    contains a non-ASCII character, here themselves. *)
Definition casefold_char (c : Z) : text :=
  if (65 <=? c) && (c <=? 90) then [c + 32]
  else if c =? 223 then [115; 115]
  else if c =? 383 then [115]
  else if c =? 7838 then [115; 115]
  else if c =? 8490 then [107]
  else if c =? 64256 then [102; 102]
  else if c =? 64257 then [102; 105]
  else if c =? 64258 then [102; 108]
  else if c =? 64259 then [102; 102; 105]
  else if c =? 64260 then [102; 102; 108]
  else if (c =? 64261) || (c =? 64262) then [115; 116]
  else [c].

Definition casefold (s : text) : text := concat (map casefold_char s).

Definition of_string (s : string) : text :=
  map (fun c => Z.of_N (Ascii.N_of_ascii c)) (String.list_ascii_of_string s).

Lemma text_inj a b : of_string a = of_string b -> a = b.
Proof.
  revert b. induction a as [|c a IH]; intros [|c' b] H; cbn in H; [done|done|done|]. injection H as Hc H. f_equal; [|by apply IH].
  apply N2Z.inj in Hc. rewrite <- (Ascii.ascii_N_embedding c), <- (Ascii.ascii_N_embedding c'). by rewrite Hc.
Qed.

(** [s < t] on strings *)
Fixpoint text_ltb (s t : text) : bool :=
  match s, t with
  | [], [] => false
  | [], _ :: _ => true
  | _ :: _, [] => false
  | a :: s', b :: t' => if a <? b then true else if b <? a then false else text_ltb s' t'
  end.

(** [bytes.decode("utf-8", errors="replace")]: a maximal invalid prefix of a
    sequence becomes one U+FFFD. *)
Definition within (lo hi b : Z) : bool := (lo <=? b) && (b <=? hi).

Fixpoint utf8_decode (data : bytes) : text :=
  match data with
  | [] => []
  | b0 :: r0 =>
      if b0 <? 128 then b0 :: utf8_decode r0
      else if within 194 223 b0 then
        match r0 with
        | b1 :: r1 => if within 128 191 b1 then ((b0 - 192) * 64 + (b1 - 128)) :: utf8_decode r1 else 65533 :: utf8_decode r0
        | [] => [65533]
        end
      else if within 224 239 b0 then
        match r0 with
        | b1 :: r1 =>
            if within (if b0 =? 224 then 160 else 128) (if b0 =? 237 then 159 else 191) b1 then
              match r1 with
              | b2 :: r2 =>
                  if within 128 191 b2 then ((b0 - 224) * 4096 + (b1 - 128) * 64 + (b2 - 128)) :: utf8_decode r2
                  else 65533 :: utf8_decode r1
              | [] => [65533]
              end
            else 65533 :: utf8_decode r0
        | [] => [65533]
        end
      else if within 240 244 b0 then
        match r0 with
        | b1 :: r1 =>
            if within (if b0 =? 240 then 144 else 128) (if b0 =? 244 then 143 else 191) b1 then
              match r1 with
              | b2 :: r2 =>
                  if within 128 191 b2 then
                    match r2 with
                    | b3 :: r3 =>
                        if within 128 191 b3
                        then ((b0 - 240) * 262144 + (b1 - 128) * 4096 + (b2 - 128) * 64 + (b3 - 128)) :: utf8_decode r3
                        else 65533 :: utf8_decode r2
                    | [] => [65533]
                    end
                  else 65533 :: utf8_decode r1
              | [] => [65533]
              end
            else 65533 :: utf8_decode r0
        | [] => [65533]
        end
      else 65533 :: utf8_decode r0
  end.

(** [int(s)] of text without white space, over the ASCII digits: an optional
    sign, then digits with single underscores between them.  [None] is
    [ValueError]. *)
Definition is_digit (c : Z) : bool := within 48 57 c.

Fixpoint digits_value (after_digit : bool) (acc : Z) (s : text) : option Z :=
  match s with
  | [] => if after_digit then Some acc else None
  | c :: s' =>
      if is_digit c then digits_value true (10 * acc + (c - 48)) s'
      else if (c =? 95) && after_digit then digits_value false acc s'
      else None
  end.

Definition py_int (s : text) : option Z :=
  match s with
  | c :: s' => if c =? 45 then Z.opp <$> digits_value false 0 s' else if c =? 43 then digits_value false 0 s' else digits_value false 0 s
  | [] => None
  end.
