(* ===== verification/Bytes.v ===== *)
(** * Byte strings, [struct] and the positional reader

    Python's [int.from_bytes], [int.to_bytes], [struct.unpack_from] and
    [struct.pack_into] on byte lists, and [Reader.read] of
    [src/gui/backends/io.py]: the loop that repeats [os.pread] until the
    requested span is complete, whatever chunk sizes the kernel returns. *)

From S2P Require Import Prelude.

(** ** Integers from bytes *)

(** [int.from_bytes(data, "little")] *)
Fixpoint le_int (data : bytes) : Z :=
  match data with
  | [] => 0
  | b :: data' => b + 256 * le_int data'
  end.

(** [int.from_bytes(data, "big")] *)
Definition be_int (data : bytes) : Z := le_int (rev data).

(** [int.from_bytes(data, "little", signed=True)] *)
Definition le_sint (data : bytes) : Z :=
  let v := le_int data in
  if (0 <? py_len data) && (2 ^ (8 * py_len data - 1) <=? v)
  then v - 2 ^ (8 * py_len data) else v.

(** The [n] low-order bytes of [v], least significant first. *)
Fixpoint le_digits (n : nat) (v : Z) : bytes :=
  match n with
  | O => []
  | S n' => v mod 256 :: le_digits n' (v / 256)
  end.

(** [struct.unpack_from] of one unsigned field of [n] bytes. *)
Definition unpack_from (decode : bytes -> Z) (n : Z) (data : bytes) (offset : Z) : result Z :=
  let o := if offset <? 0 then offset + py_len data else offset in
  if (o <? 0) || (py_len data <? o + n)
  then raise StructError "unpack_from requires a larger buffer"
  else Ok (decode (py_slice data o (o + n))).

Definition u16le : bytes -> Z -> result Z := unpack_from le_int 2.
Definition u32le : bytes -> Z -> result Z := unpack_from le_int 4.
Definition u64le : bytes -> Z -> result Z := unpack_from le_int 8.
Definition u16be : bytes -> Z -> result Z := unpack_from be_int 2.
Definition u32be : bytes -> Z -> result Z := unpack_from be_int 4.
Definition u64be : bytes -> Z -> result Z := unpack_from be_int 8.

(** [struct.pack_into] of one unsigned little-endian field of [n] bytes. *)
Definition pack_into (n : nat) (data : bytes) (offset v : Z) : result bytes :=
  let o := if offset <? 0 then offset + py_len data else offset in
  if (o <? 0) || (py_len data <? o + Z.of_nat n) || (v <? 0) || (256 ^ Z.of_nat n <=? v)
  then raise StructError "pack_into"
  else Ok (py_set_slice data o (o + Z.of_nat n) (le_digits n v)).

(** ** The positional reader of [backends/io.py] *)

(** What a device holds in [off, off+len), in one piece: the contract the
    reading loop below implements. *)
Definition dev_read (dev : bytes) (offset length : Z) : result bytes :=
  if (offset <? 0) || (length <? 0) then raise BackendError "negative read"
  else if length =? 0 then Ok []
  else if offset + length <=? py_len dev then Ok (py_slice dev offset (offset + length))
  else raise BackendError "short read".

Section Reader.
(** [grant call remaining position] is the number of bytes the kernel
    returns for the [call]-th [os.pread]: any positive amount up to what
    was asked for and what the device still holds. *)
Context (dev : bytes) (grant : nat -> Z -> Z -> Z).

Definition grant_ok : Prop := forall call remaining position,
  0 < remaining -> 0 <= position ->
  (position < py_len dev ->
     0 < grant call remaining position
       <= Z.min remaining (py_len dev - position)) /\
  (py_len dev <= position -> grant call remaining position = 0).

Definition pread (call : nat) (remaining position : Z) : bytes :=
  py_slice dev position (position + grant call remaining position).

(** The [while remaining] loop, with [chunks] the bytes joined so far. *)
Fixpoint read_loop (fuel call : nat) (chunks : bytes) (remaining position : Z)
    : result bytes :=
  if remaining =? 0 then Ok chunks else
  match fuel with
  | O => raise OutOfFuel "read"
  | S fuel' =>
      let chunk := pread call remaining position in
      match chunk with
      | [] => raise BackendError "short read"
      | _ => read_loop fuel' (S call) (chunks ++ chunk)
               (remaining - py_len chunk) (position + py_len chunk)
      end
  end.

(** [Reader.read]; each iteration receives at least one byte, so [length]
    iterations and the final empty read are enough. *)
Definition Reader_read (offset length : Z) : result bytes :=
  if (offset <? 0) || (length <? 0) then raise BackendError "negative read"
  else if length =? 0 then Ok []
  else read_loop (S (Z.to_nat length)) 0 [] length offset.
End Reader.

(** An open [Reader]: the device, and the size the kernel reported, which is 0
    when it is unknown. *)
Record reader := mkReader { reader_dev : bytes; reader_size : Z }.

Definition reader_read (r : reader) (offset length : Z) : result bytes := dev_read (reader_dev r) offset length.

(** ** Lemmas: slices *)

Lemma py_slice_nonneg {A} (l : list A) a b :
  0 <= a -> 0 <= b ->
  py_slice l a b = take (Z.to_nat b - Z.to_nat a) (drop (Z.to_nat a) l).
Proof.
  intros Ha Hb. unfold py_slice, py_bound, py_len.
  rewrite (proj2 (Z.ltb_ge a 0)), (proj2 (Z.ltb_ge b 0)) by lia.
  destruct (decide (Z.to_nat a <= length l)%nat) as [H|H].
  - replace (Z.to_nat (Z.max 0 (Z.min (Z.of_nat (length l)) a))) with (Z.to_nat a) by lia.
    destruct (decide (Z.to_nat b <= length l)%nat).
    + by replace (Z.to_nat (Z.max 0 (Z.min (Z.of_nat (length l)) b))) with (Z.to_nat b) by lia.
    + rewrite !take_ge; try done; rewrite length_drop; lia.
  - rewrite !drop_ge by lia. by rewrite !take_nil.
Qed.

Lemma length_py_slice {A} (l : list A) a b :
  0 <= a <= b -> b <= py_len l -> length (py_slice l a b) = Z.to_nat (b - a).
Proof.
  intros. rewrite py_slice_nonneg by lia.
  unfold py_len in *. rewrite length_take, length_drop. lia.
Qed.

Lemma py_len_slice {A} (l : list A) a b :
  0 <= a <= b -> b <= py_len l -> py_len (py_slice l a b) = b - a.
Proof. intros. unfold py_len. rewrite length_py_slice; lia. Qed.

Lemma py_slice_app {A} (l : list A) a b c :
  0 <= a <= b -> b <= c -> py_slice l a b ++ py_slice l b c = py_slice l a c.
Proof.
  intros. rewrite !py_slice_nonneg by lia.
  replace (Z.to_nat b) with (Z.to_nat a + (Z.to_nat b - Z.to_nat a))%nat at 3 by lia.
  rewrite <- drop_drop.
  replace (Z.to_nat c - Z.to_nat a)%nat
    with ((Z.to_nat b - Z.to_nat a) + (Z.to_nat c - Z.to_nat b))%nat by lia.
  by rewrite take_take_drop.
Qed.

Lemma py_slice_nil {A} (l : list A) a : 0 <= a -> py_slice l a a = [].
Proof. intros. rewrite py_slice_nonneg by lia. by rewrite Nat.sub_diag. Qed.

Lemma lookup_py_slice {A} (l : list A) a b (i : nat) :
  0 <= a -> (i < Z.to_nat (b - a))%nat -> py_slice l a b !! i = l !! (Z.to_nat a + i)%nat.
Proof.
  intros. rewrite py_slice_nonneg by lia.
  rewrite lookup_take_lt by lia. by rewrite lookup_drop.
Qed.

(** ** The reader meets its contract *)

Section Reader_facts.
Context (dev : bytes) (grant : nat -> Z -> Z -> Z).
Hypothesis Hgrant : grant_ok dev grant.

Lemma pread_span call remaining position :
  0 < remaining -> 0 <= position < py_len dev ->
  exists k, 0 < k <= Z.min remaining (py_len dev - position) /\
    pread dev grant call remaining position = py_slice dev position (position + k) /\
    py_len (pread dev grant call remaining position) = k.
Proof.
  intros Hr Hp. destruct (Hgrant call remaining position) as [H _]; [lia..|].
  specialize (H ltac:(lia)). exists (grant call remaining position).
  split; [lia|]. split; [done|]. unfold pread. rewrite py_len_slice; lia.
Qed.

Lemma pread_end call remaining position :
  0 < remaining -> py_len dev <= position -> pread dev grant call remaining position = [].
Proof.
  intros. pose proof (py_len_nonneg dev).
  destruct (Hgrant call remaining position) as [_ Hz]; [lia..|].
  unfold pread. rewrite Hz by lia. rewrite Z.add_0_r. apply py_slice_nil. lia.
Qed.

Lemma read_loop_spec fuel : forall call chunks remaining position,
  0 <= remaining -> 0 <= position -> (Z.to_nat remaining < fuel)%nat ->
  read_loop dev grant fuel call chunks remaining position =
    if (remaining =? 0) || (position + remaining <=? py_len dev)
    then Ok (chunks ++ py_slice dev position (position + remaining))
    else raise BackendError "short read".
Proof.
  induction fuel as [|fuel IH]; intros call chunks remaining position Hr Hp Hf; [lia|].
  simpl. destruct (Z.eqb_spec remaining 0) as [->|Hne]; simpl.
  { rewrite Z.add_0_r, py_slice_nil by lia. by rewrite app_nil_r. }
  destruct (decide (position < py_len dev)) as [Hlt|Hge].
  2:{ rewrite pread_end by lia. rewrite (proj2 (Z.leb_gt _ _)) by lia. done. }
  destruct (pread_span call remaining position) as (k & Hk & Heq & Hlen); [lia..|].
  destruct (pread dev grant call remaining position) as [|c cs] eqn:Ep.
  { unfold py_len in Hlen. simpl in Hlen. lia. }
  rewrite IH by lia. rewrite Hlen, Heq.
  replace (position + k + (remaining - k)) with (position + remaining) by lia.
  rewrite <- app_assoc, py_slice_app by lia.
  destruct (Z.eqb_spec (remaining - k) 0); simpl; [|done].
  by rewrite (proj2 (Z.leb_le _ _)) by lia.
Qed.
End Reader_facts.

(** Whatever positive chunk sizes the kernel returns, [Reader.read]
    terminates and returns exactly the requested span of the device, or
    raises: "negative read" for a negative offset or length, "short read"
    exactly when the span runs past the end of the device. *)
Theorem Reader_read_exact (dev : bytes) (grant : nat -> Z -> Z -> Z) (offset length : Z)
    (Hgrant : grant_ok dev grant) :
  Reader_read dev grant offset length = dev_read dev offset length.
Proof.
  unfold Reader_read, dev_read.
  destruct ((offset <? 0) || (length <? 0)) eqn:E1; [done|]. bool_to_prop.
  destruct (Z.eqb_spec length 0) as [->|Hne]; [done|].
  rewrite read_loop_spec by (done || lia).
  by rewrite (proj2 (Z.eqb_neq _ _)) by lia.
Qed.

(** A kernel that returns two bytes at a time. *)
Definition two_at_a_time (dev : bytes) (call : nat) (remaining position : Z) : Z :=
  Z.max 0 (Z.min 2 (Z.min remaining (py_len dev - position))).

Lemma Reader_read_exact_witness :
  Reader_read [10; 11; 12; 13; 14; 15] (two_at_a_time [10; 11; 12; 13; 14; 15]) 1 5
    = Ok [11; 12; 13; 14; 15].
Proof.
  rewrite (Reader_read_exact [10; 11; 12; 13; 14; 15]).
  - reflexivity.
  - intros call remaining position Hr Hp. unfold two_at_a_time, py_len. simpl length. lia.
Defined.

(** ** Lemmas: byte strings as integers *)

Lemma le_int_bounds data : wf_bytes data -> 0 <= le_int data < 256 ^ py_len data.
Proof.
  induction 1 as [|b data Hb _ IH]; [by split|].
  rewrite py_len_cons, Z.pow_add_r, Z.pow_1_r by (pose proof (py_len_nonneg data); lia).
  cbn [le_int]. red in Hb. lia.
Qed.

Lemma length_le_digits n v : length (le_digits n v) = n.
Proof. revert v. induction n; intros; simpl; auto. Qed.

Lemma py_len_le_digits n v : py_len (le_digits n v) = Z.of_nat n.
Proof. unfold py_len. by rewrite length_le_digits. Qed.

Lemma wf_le_digits n v : wf_bytes (le_digits n v).
Proof.
  revert v. induction n as [|n IH]; intros; constructor; [|apply IH].
  red. apply Z.mod_pos_bound. lia.
Qed.

Lemma le_int_digits n v : le_int (le_digits n v) = v mod 256 ^ Z.of_nat n.
Proof.
  revert v. induction n as [|n IH]; intros v; simpl le_digits; simpl le_int.
  { change (256 ^ Z.of_nat 0) with 1. by rewrite Z.mod_1_r. }
  rewrite IH, Nat2Z.inj_succ, Z.pow_succ_r by lia.
  rewrite Z.rem_mul_r by lia. lia.
Qed.

Lemma le_digits_int data : wf_bytes data -> le_digits (length data) (le_int data) = data.
Proof.
  induction 1 as [|b data Hb _ IH]; [done|]. simpl. red in Hb.
  replace (b + 256 * le_int data) with (b + le_int data * 256) by lia. f_equal.
  - rewrite Z.mod_add by lia. apply Z.mod_small. lia.
  - rewrite Z.div_add, (Z.div_small b) by lia. by rewrite Z.add_0_l.
Qed.

Lemma le_int_inj a b :
  wf_bytes a -> wf_bytes b -> length a = length b -> le_int a = le_int b -> a = b.
Proof.
  intros Ha Hb Hl He. rewrite <- (le_digits_int a), <- (le_digits_int b) by done.
  by rewrite Hl, He.
Qed.

Lemma le_int_app a b : le_int (a ++ b) = le_int a + 256 ^ py_len a * le_int b.
Proof.
  induction a as [|x a IH].
  { change (256 ^ py_len []) with 1. simpl. lia. }
  rewrite py_len_cons, Z.pow_add_r by (pose proof (py_len_nonneg a); lia).
  simpl. rewrite IH. change (256 ^ 1) with 256. lia.
Qed.

Lemma wf_bytes_app a b : wf_bytes (a ++ b) <-> wf_bytes a /\ wf_bytes b.
Proof. apply Forall_app. Qed.

Lemma wf_bytes_slice data a b : wf_bytes data -> wf_bytes (py_slice data a b).
Proof. intros. apply Forall_take, Forall_drop. done. Qed.

Lemma wf_py_zeros n : wf_bytes (py_zeros n).
Proof. apply Forall_replicate. red. lia. Qed.

Lemma wf_py_set_slice data a b new :
  wf_bytes data -> wf_bytes new -> wf_bytes (py_set_slice data a b new).
Proof. intros. unfold py_set_slice. repeat apply Forall_app_2; auto using Forall_take, Forall_drop. Qed.

#[export] Hint Resolve wf_bytes_slice wf_py_zeros wf_py_set_slice wf_le_digits : defrag.

(** ** Lemmas: slice assignment *)

Lemma py_bound_in {A} (l : list A) i : 0 <= i <= py_len l -> py_bound l i = Z.to_nat i.
Proof. intros. unfold py_bound. rewrite (proj2 (Z.ltb_ge i 0)) by lia. lia. Qed.

Lemma py_set_slice_in {A} (l : list A) a b data :
  0 <= a <= b -> b <= py_len l ->
  py_set_slice l a b data = take (Z.to_nat a) l ++ data ++ drop (Z.to_nat b) l.
Proof.
  intros. unfold py_set_slice. rewrite !py_bound_in by lia.
  by rewrite Nat.max_r by lia.
Qed.

Lemma py_len_set_slice {A} (l : list A) a b data :
  0 <= a <= b -> b <= py_len l ->
  py_len (py_set_slice l a b data) = py_len l - (b - a) + py_len data.
Proof.
  intros. rewrite py_set_slice_in by lia.
  unfold py_len in *. rewrite !length_app, length_take, length_drop. lia.
Qed.

Lemma py_slice_set_same {A} (l : list A) a b data :
  0 <= a -> b = a + py_len data -> b <= py_len l ->
  py_slice (py_set_slice l a b data) a b = data.
Proof.
  intros Ha -> Hb. pose proof (py_len_nonneg data). rewrite py_set_slice_in by lia.
  rewrite py_slice_nonneg by lia. unfold py_len in *.
  rewrite drop_app_length' by (rewrite length_take; lia).
  rewrite take_app_length'; [done|lia].
Qed.

Lemma py_slice_set_before {A} (l : list A) a b data c d :
  0 <= c <= d -> d <= a -> a <= b -> b <= py_len l ->
  py_slice (py_set_slice l a b data) c d = py_slice l c d.
Proof.
  intros. rewrite py_set_slice_in, !py_slice_nonneg by lia. unfold py_len in *.
  rewrite drop_app_le by (rewrite length_take; lia).
  rewrite take_app_le by (rewrite length_drop, length_take; lia).
  rewrite !take_drop_commute, take_take. do 2 f_equal. lia.
Qed.

Lemma py_slice_set_after {A} (l : list A) a b data c d :
  0 <= a <= b -> b = a + py_len data -> b <= c <= d -> b <= py_len l ->
  py_slice (py_set_slice l a b data) c d = py_slice l c d.
Proof.
  intros Ha Hd Hc Hl. pose proof (py_len_nonneg data). rewrite py_set_slice_in by lia.
  rewrite !py_slice_nonneg by lia. f_equal. unfold py_len in *.
  rewrite app_assoc.
  rewrite drop_app_ge by (rewrite length_app, length_take; lia).
  rewrite drop_drop. f_equal. rewrite length_app, length_take. lia.
Qed.

(** ** Pointwise view of slices *)

(** Element [i] of a sequence, by integer position. *)
Definition nthZ {A} (l : list A) (i : Z) : option A := l !! Z.to_nat i.

Lemma nthZ_set_slice {A} (l : list A) a b data i :
  0 <= a <= b -> b <= py_len l -> py_len data = b - a -> 0 <= i ->
  nthZ (py_set_slice l a b data) i =
    if (a <=? i) && (i <? b) then nthZ data (i - a) else nthZ l i.
Proof.
  intros Hab Hb Hd Hi. unfold nthZ. rewrite py_set_slice_in by lia. unfold py_len in *.
  destruct (Z.leb_spec a i); simpl.
  2:{ rewrite lookup_app_l by (rewrite length_take; lia). by rewrite lookup_take_lt by lia. }
  rewrite lookup_app_r by (rewrite length_take; lia). rewrite length_take.
  destruct (Z.ltb_spec i b).
  - rewrite lookup_app_l by lia. f_equal. lia.
  - rewrite lookup_app_r by lia. rewrite lookup_drop. f_equal. lia.
Qed.

Lemma nthZ_slice {A} (l : list A) a b i :
  0 <= a -> 0 <= i < b - a -> nthZ (py_slice l a b) i = nthZ l (a + i).
Proof. intros. unfold nthZ. rewrite lookup_py_slice by lia. f_equal. lia. Qed.

Lemma nthZ_ext {A} (l k : list A) :
  py_len l = py_len k -> (forall i, 0 <= i < py_len l -> nthZ l i = nthZ k i) -> l = k.
Proof.
  intros Hl H. apply list_eq_same_length with (length l); [unfold py_len in *; lia|done|].
  intros i x y Hi Hx Hy. specialize (H (Z.of_nat i)). unfold nthZ, py_len in H. rewrite Nat2Z.id in H.
  rewrite Hx, Hy in H. specialize (H ltac:(lia)). congruence.
Qed.

Lemma nthZ_app_l {A} (l k : list A) i : 0 <= i < py_len l -> nthZ (l ++ k) i = nthZ l i.
Proof. intros. unfold nthZ, py_len in *. by rewrite lookup_app_l by lia. Qed.

Lemma nthZ_app_r {A} (l k : list A) i : py_len l <= i -> nthZ (l ++ k) i = nthZ k (i - py_len l).
Proof. intros. unfold nthZ, py_len in *. rewrite lookup_app_r by lia. f_equal. lia. Qed.

(** A slice only depends on the elements it names. *)
Lemma py_slice_ext {A} (l k : list A) a a' n :
  0 <= a -> 0 <= a' -> 0 <= n -> a + n <= py_len l -> a' + n <= py_len k ->
  (forall i, 0 <= i < n -> nthZ l (a + i) = nthZ k (a' + i)) ->
  py_slice l a (a + n) = py_slice k a' (a' + n).
Proof.
  intros. apply nthZ_ext; [rewrite !py_len_slice by lia; lia|].
  intros i Hi. rewrite py_len_slice in Hi by lia. rewrite !nthZ_slice by lia. auto with lia.
Qed.

Lemma unpack_from_ext decode n l k a a' :
  0 <= n -> 0 <= a -> 0 <= a' -> a + n <= py_len l -> a' + n <= py_len k ->
  (forall i, 0 <= i < n -> nthZ l (a + i) = nthZ k (a' + i)) ->
  unpack_from decode n l a = unpack_from decode n k a'.
Proof.
  intros. unfold unpack_from. rewrite (proj2 (Z.ltb_ge a 0)), (proj2 (Z.ltb_ge a' 0)) by lia. cbv zeta.
  rewrite (proj2 (Z.ltb_ge a 0)), (proj2 (Z.ltb_ge a' 0)) by lia.
  rewrite (proj2 (Z.ltb_ge (py_len l) _)), (proj2 (Z.ltb_ge (py_len k) _)) by lia. simpl. do 2 f_equal.
  by apply py_slice_ext.
Qed.

Lemma unpack_from_ok decode n l a :
  0 <= a -> 0 <= n -> a + n <= py_len l -> unpack_from decode n l a = Ok (decode (py_slice l a (a + n))).
Proof.
  intros. unfold unpack_from. rewrite (proj2 (Z.ltb_ge a 0)) by lia. cbv zeta.
  by rewrite (proj2 (Z.ltb_ge a 0)), (proj2 (Z.ltb_ge (py_len l) _)) by lia.
Qed.

Lemma unpack_from_inv decode n l a v :
  unpack_from decode n l a = Ok v -> 0 <= a -> a + n <= py_len l /\ v = decode (py_slice l a (a + n)).
Proof.
  intros H Ha. unfold unpack_from in H. rewrite (proj2 (Z.ltb_ge a 0)) in H by lia. cbv zeta in H.
  destruct (_ || _) eqn:E; [done|]. bool_to_prop. injection H as <-. auto with lia.
Qed.

Lemma py_len_zeros n : 0 <= n -> py_len (py_zeros n) = n.
Proof. intros. unfold py_len, py_zeros. rewrite length_replicate. lia. Qed.

Lemma pack_into_ok n data o v :
  0 <= o -> o + Z.of_nat n <= py_len data -> 0 <= v < 256 ^ Z.of_nat n ->
  pack_into n data o v = Ok (py_set_slice data o (o + Z.of_nat n) (le_digits n v)).
Proof.
  intros. unfold pack_into. rewrite (proj2 (Z.ltb_ge o 0)) by lia. cbv zeta.
  by rewrite (proj2 (Z.ltb_ge o 0)), (proj2 (Z.ltb_ge (py_len data) _)), (proj2 (Z.ltb_ge v 0)), (proj2 (Z.leb_gt _ v)) by lia.
Qed.

(** ** Lemmas: reading back what was packed *)

Lemma u16le_same l k a :
  0 <= a -> py_len l = py_len k -> (forall i, a <= i < a + 2 -> nthZ l i = nthZ k i) -> u16le l a = u16le k a.
Proof.
  intros Ha Hl H. destruct (Z.le_gt_cases (a + 2) (py_len l)).
  - apply unpack_from_ext; try lia. intros. apply H. lia.
  - unfold u16le, unpack_from. rewrite (proj2 (Z.ltb_ge a 0)) by lia. cbv zeta.
    rewrite (proj2 (Z.ltb_lt (py_len l) _)), (proj2 (Z.ltb_lt (py_len k) _)) by lia. by rewrite !orb_true_r.
Qed.

Lemma u16_nonneg record pos v : wf_bytes record -> 0 <= pos -> u16le record pos = Ok v -> 0 <= v.
Proof.
  intros Hw Hp H. apply unpack_from_inv in H as [_ ->]; [|done].
  apply (le_int_bounds _ (wf_bytes_slice record pos (pos + 2) Hw)).
Qed.

Lemma py_get_nonneg record pos v : wf_bytes record -> 0 <= pos -> py_get record pos = Ok v -> 0 <= v.
Proof.
  intros Hw Hp H. unfold py_get in H. rewrite (proj2 (Z.ltb_ge pos 0)) in H by lia. cbv zeta in H.
  rewrite (proj2 (Z.ltb_ge pos 0)) in H by lia. destruct (record !! Z.to_nat pos) as [x|] eqn:E; [|done].
  injection H as <-. assert (is_byte x) as [? _]; [|done]. eapply Forall_lookup_1; [exact Hw|exact E].
Qed.

Lemma pack_into_inv n data o v d :
  pack_into n data o v = Ok d -> 0 <= o ->
  o + Z.of_nat n <= py_len data /\ 0 <= v < 256 ^ Z.of_nat n /\ d = py_set_slice data o (o + Z.of_nat n) (le_digits n v).
Proof.
  intros H Ho. unfold pack_into in H. rewrite (proj2 (Z.ltb_ge o 0)) in H by lia. cbv zeta in H.
  destruct (_ || _) eqn:E in H; [done|]. bool_to_prop. injection H as <-. auto with lia.
Qed.

Lemma u32le_set record o v :
  0 <= o -> o + 4 <= py_len record -> 0 <= v < 256 ^ 4 ->
  u32le (py_set_slice record o (o + 4) (le_digits 4 v)) o = Ok v.
Proof.
  intros Ho Hl Hv. assert (py_len (le_digits 4 v) = 4) as Hd by apply py_len_le_digits.
  unfold u32le. rewrite unpack_from_ok by (rewrite ?py_len_set_slice; lia).
  rewrite py_slice_set_same by lia. rewrite le_int_digits. by rewrite Z.mod_small.
Qed.

Lemma u16le_set record o v :
  0 <= o -> o + 2 <= py_len record -> 0 <= v < 256 ^ 2 ->
  u16le (py_set_slice record o (o + 2) (le_digits 2 v)) o = Ok v.
Proof.
  intros Ho Hl Hv. assert (py_len (le_digits 2 v) = 2) as Hd by apply py_len_le_digits.
  unfold u16le. rewrite unpack_from_ok by (rewrite ?py_len_set_slice; lia).
  rewrite py_slice_set_same by lia. rewrite le_int_digits. by rewrite Z.mod_small.
Qed.

Lemma u32le_same l k a :
  0 <= a -> a + 4 <= py_len l -> py_len l = py_len k -> (forall i, a <= i < a + 4 -> nthZ l i = nthZ k i) ->
  u32le l a = u32le k a.
Proof. intros. apply unpack_from_ext; try lia. intros. auto with lia. Qed.

(** ** More on slices *)

Lemma py_slice_mid {A} (pre mid post : list A) a b :
  a = py_len pre -> b = a + py_len mid -> py_slice (pre ++ mid ++ post) a b = mid.
Proof.
  intros -> ->. pose proof (py_len_nonneg pre). pose proof (py_len_nonneg mid).
  rewrite py_slice_nonneg by lia. unfold py_len in *.
  rewrite drop_app_length' by lia. rewrite take_app_length'; [done|lia].
Qed.

Lemma NoDup_py_slice {A} (l : list A) a b : NoDup l -> NoDup (py_slice l a b).
Proof.
  intros H. unfold py_slice. set (n := py_bound l a). set (m := (py_bound l b - n)%nat).
  rewrite <- (take_drop n l) in H. apply NoDup_app in H as (_ & _ & H).
  rewrite <- (take_drop m (drop n l)) in H. by apply NoDup_app in H as (H & _ & _).
Qed.

Lemma py_slice_app_r {A} (l k : list A) a b :
  py_len l <= a -> a <= b -> py_slice (l ++ k) a b = py_slice k (a - py_len l) (b - py_len l).
Proof.
  intros. pose proof (py_len_nonneg l). rewrite !py_slice_nonneg by lia. unfold py_len in *.
  rewrite drop_app_ge by lia. f_equal; [lia|]. f_equal. lia.
Qed.

Lemma py_slice_app_l {A} (l k : list A) a b :
  0 <= a <= b -> b <= py_len l -> py_slice (l ++ k) a b = py_slice l a b.
Proof.
  intros. rewrite !py_slice_nonneg by lia. unfold py_len in *. rewrite drop_app_le by lia.
  rewrite take_app_le; [done|]. rewrite length_drop. lia.
Qed.

Lemma py_slice_range a b i j : 0 <= i <= j -> a + j <= b -> py_slice (py_range a b) i j = py_range (a + i) (a + j).
Proof.
  intros. assert (py_len (py_range a b) = b - a) as Hl by (rewrite py_len_range; lia).
  rewrite (py_range_split a (a + i) b), (py_range_split (a + i) (a + j) b) by lia.
  apply py_slice_mid; rewrite py_len_range; lia.
Qed.

Lemma Forall_py_slice {A} (P : A -> Prop) l a b : Forall P l -> Forall P (py_slice l a b).
Proof. intros. unfold py_slice. by apply Forall_take, Forall_drop. Qed.

Lemma elem_of_py_slice {A} (l : list A) a b x : x ∈ py_slice l a b -> x ∈ l.
Proof.
  unfold py_slice. intros H. rewrite <- (take_drop (py_bound l a) l), elem_of_app. right.
  rewrite <- (take_drop (py_bound l b - py_bound l a) (drop (py_bound l a) l)), elem_of_app. by left.
Qed.

Lemma py_slice_trunc {A} (l : list A) a b : 0 <= a -> py_len l <= b -> py_slice l a b = py_slice l a (py_len l).
Proof. intros Ha Hb. pose proof (py_len_nonneg l). rewrite !py_slice_nonneg by lia. unfold py_len in *. rewrite !take_ge; [done|rewrite length_drop; lia|rewrite length_drop; lia]. Qed.

Lemma py_slice_past {A} (l : list A) a b : 0 <= a -> 0 <= b -> py_len l <= a -> py_slice l a b = [].
Proof. intros Ha Hb Hl. rewrite py_slice_nonneg by lia. unfold py_len in *. rewrite drop_ge by lia. by rewrite take_nil. Qed.

Lemma py_slice_whole {A} (l : list A) n : n = py_len l -> py_slice l 0 n = l.
Proof. intros ->. pose proof (py_len_nonneg l). rewrite py_slice_nonneg by lia. unfold py_len. rewrite Nat.sub_0_r, drop_0. apply take_ge. lia. Qed.

Lemma sublist_py_slice {A} (l : list A) a b : sublist (py_slice l a b) l.
Proof. unfold py_slice. etrans; [apply sublist_take|apply sublist_drop]. Qed.

(** Big-endian fields: [struct.pack]. *)
Definition be_digits (n : nat) (v : Z) : bytes := rev (le_digits n v).

Lemma py_len_be_digits n v : py_len (be_digits n v) = Z.of_nat n.
Proof. unfold be_digits, py_len. rewrite length_rev. revert v. induction n as [|n IH]; intros v; [done|]. cbn [le_digits length]. rewrite Nat2Z.inj_succ, IH. lia. Qed.

Lemma be_int_digits n v : 0 <= v < 256 ^ Z.of_nat n -> be_int (be_digits n v) = v.
Proof. intros H. unfold be_int, be_digits. rewrite rev_involutive, le_int_digits. by apply Z.mod_small. Qed.

(** Images built from fields, for the examples. *)
Definition field (offset width v : Z) : Z * bytes := (offset, be_digits (Z.to_nat width) v).
Definition lefield (offset width v : Z) : Z * bytes := (offset, le_digits (Z.to_nat width) v).
Definition place (image : bytes) (f : Z * bytes) : bytes := py_set_slice image f.1 (f.1 + py_len f.2) f.2.
Definition image_of (size : Z) (fields : list (Z * bytes)) : bytes := fold_left place fields (py_zeros size).
