(* ===== verification/Ranges.v ===== *)
(** * Range, bitmap and map-cell aggregation ([src/gui/backends/ranges.py])

    Half-open unit ranges are pairs [(start, end)].  A Python list grown at
    its end whose last element is rewritten ([merged[-1] = ...]) is kept
    reversed while a loop runs, so that its last element is the head. *)

From S2P Require Import Prelude Bytes.

Abbreviation range := (Z * Z)%type.
Abbreviation state_range := (Z * Z * Z)%type.

#[local] Set Warnings "-register-all".

(** Values of the [details] dictionary of a map. *)
Inductive json :=
  | JBool (b : bool)
  | JInt (z : Z)
  | JStr (s : string)
  | JText (t : list Z)
  | JNone
  | JRatio (n d : Z)
  | JList (l : list json)
  | JObj (l : list (string * json)).

Abbreviation details := (list (string * json)).

(** ** Merging and complementing *)

(** Python compares tuples lexicographically. *)
Definition range_leb (a b : range) : bool :=
  (a.1 <? b.1) || ((a.1 =? b.1) && (a.2 <=? b.2)).

(** Extend the last merged range or append a new one. *)
Definition merge_push (merged : list range) (r : range) : list range :=
  match merged with
  | (s, e) :: rest => if r.1 <=? e then (s, Z.max e r.2) :: rest else r :: merged
  | [] => [r]
  end.

Definition merge_ranges (ranges : list range) : list range :=
  reverse (fold_left
    (fun merged r => if (r.1 <? 0) || (r.2 <=? r.1) then merged else merge_push merged r)
    (py_sorted range_leb ranges) []).

Fixpoint complement_loop (total_units cursor : Z) (gaps : list range) (occupied : list range)
    : Z * list range :=
  match occupied with
  | [] => (cursor, gaps)
  | (s, e) :: rest =>
      let start := Z.min total_units (Z.max 0 s) in
      let end_ := Z.min total_units (Z.max 0 e) in
      let gaps := if cursor <? start then gaps ++ [(cursor, start)] else gaps in
      let cursor := Z.max cursor end_ in
      if total_units <=? cursor then (cursor, gaps)
      else complement_loop total_units cursor gaps rest
  end.

Definition complement_ranges (total_units : Z) (occupied : list range) : result (list range) :=
  check total_units <? 0 # BackendError "negative allocation-unit count";
  let '(cursor, gaps) := complement_loop total_units 0 [] (merge_ranges occupied) in
  Ok (if cursor <? total_units then gaps ++ [(cursor, total_units)] else gaps).

(** ** Map cells *)

Record cell := Cell {
  c_start : Z; c_end : Z;
  c_free : Z; c_used : Z; c_unknown : Z; c_bad : Z;
  c_fragmented : Z; c_directory : Z
}.

(** The cell fields that [overlay_ranges] may overwrite. *)
Inductive overlay_field := FFragmented | FDirectory | FBad.

Definition set_field (f : overlay_field) (v : Z) (c : cell) : cell :=
  match f with
  | FFragmented => Cell (c_start c) (c_end c) (c_free c) (c_used c) (c_unknown c) (c_bad c) v (c_directory c)
  | FDirectory => Cell (c_start c) (c_end c) (c_free c) (c_used c) (c_unknown c) (c_bad c) (c_fragmented c) v
  | FBad => Cell (c_start c) (c_end c) (c_free c) (c_used c) (c_unknown c) v (c_fragmented c) (c_directory c)
  end.

(** [while range_index < len(merged) and merged[range_index][1] <= start]:
    the ranges from [range_index] on. *)
Fixpoint skip_before {A} (end_of : A -> Z) (start : Z) (rs : list A) : list A :=
  match rs with
  | r :: rest => if end_of r <=? start then skip_before end_of start rest else rs
  | [] => []
  end.

(** The inner [while check < len(merged)] loop. *)
Fixpoint overlap_scan (start end_exclusive overlap : Z) (rs : list range) : Z :=
  match rs with
  | (s, e) :: rest =>
      if s <? end_exclusive then
        let overlap := overlap + Z.max 0 (Z.min end_exclusive e - Z.max start s) in
        if end_exclusive <? e then overlap
        else overlap_scan start end_exclusive overlap rest
      else overlap
  | [] => overlap
  end.

Fixpoint overlay_cells (field : overlay_field) (merged : list range) (cells : list cell)
    : list cell :=
  match cells with
  | [] => []
  | c :: cells' =>
      let end_exclusive := c_end c + 1 in
      let merged := skip_before snd (c_start c) merged in
      let overlap := overlap_scan (c_start c) end_exclusive 0 merged in
      set_field field (Z.min (c_used c) overlap) c :: overlay_cells field merged cells'
  end.

(** Returns the updated cells and the merged total. *)
Definition overlay_ranges (cells : list cell) (ranges : list range) (field : overlay_field)
    : list cell * Z :=
  let merged := merge_ranges ranges in
  (overlay_cells field merged cells, zsum (map (fun r => r.2 - r.1) merged)).

Record map_result := MapResult {
  mr_schema : Z; mr_backend : string; mr_filesystem : string; mr_accuracy : string;
  mr_unit_size : Z; mr_total_units : Z; mr_cell_count : Z;
  mr_total_bytes : Z; mr_free_bytes : Z; mr_used_bytes : Z; mr_unknown_bytes : Z;
  mr_cells : list cell; mr_details : details
}.

(** The keys a backend adds to the map for the files it scanned; the share of
    fragmented files is kept as the exact ratio of the float computed from it. *)
Record file_counts := FileCounts {
  fc_regular_files : Z; fc_directories : Z; fc_fragmented_files : Z; fc_fragmented_directories : Z;
  fc_fragmentation_percent : Z * Z
}.

Record files_map := FilesMap { fm_map : map_result; fm_files : option file_counts }.

(** [result["cells"]] and [result["details"]] replaced. *)
Definition with_cells (m : map_result) (cells : list cell) (dets : details) : map_result :=
  MapResult (mr_schema m) (mr_backend m) (mr_filesystem m) (mr_accuracy m) (mr_unit_size m) (mr_total_units m) (mr_cell_count m)
    (mr_total_bytes m) (mr_free_bytes m) (mr_used_bytes m) (mr_unknown_bytes m) cells dets.

Definition new_map_result (filesystem accuracy : string) (unit_size total_units : Z)
    (cells : list cell) (free_total used_total unknown_total bad_total : Z)
    (dets : details) : map_result :=
  MapResult 1 "read-only-domain" filesystem accuracy unit_size total_units (py_len cells)
    (total_units * unit_size) (free_total * unit_size) (used_total * unit_size)
    ((unknown_total + bad_total) * unit_size) cells dets.

Definition cell_bounds (total_units cell_count : Z) : list range :=
  map (fun index =>
         let start := (index * total_units) / cell_count in
         let end_exclusive := ((index + 1) * total_units) / cell_count in
         (start, Z.max (start + 1) end_exclusive))
      (py_range 0 cell_count).

Definition clamp_cells (cell_count total_units : Z) : Z :=
  Z.max 1 (Z.min cell_count (Z.max 1 total_units)).

(** ** Four counters: free, used, unknown, bad *)

Record counts := Counts { n0 : Z; n1 : Z; n2 : Z; n3 : Z }.

Definition no_counts : counts := Counts 0 0 0 0.

(** [counts[state] += amount] for a state of 0..3. *)
Definition bump (state amount : Z) (c : counts) : counts :=
  if state =? 0 then Counts (n0 c + amount) (n1 c) (n2 c) (n3 c)
  else if state =? 1 then Counts (n0 c) (n1 c + amount) (n2 c) (n3 c)
  else if state =? 2 then Counts (n0 c) (n1 c) (n2 c + amount) (n3 c)
  else Counts (n0 c) (n1 c) (n2 c) (n3 c + amount).

Definition add_counts (a b : counts) : counts :=
  Counts (n0 a + n0 b) (n1 a + n1 b) (n2 a + n2 b) (n3 a + n3 b).

Definition counts_cell (b : range) (c : counts) : cell :=
  Cell b.1 (b.2 - 1) (n0 c) (n1 c) (n2 c) (n3 c) 0 0.

(** ** Aggregating a sequential state stream *)

(** [n] rounds of [while consumed < end_exclusive]; an exhausted stream
    yields the unknown state, and so does a state outside 0..3. *)
Fixpoint consume_states (n : nat) (values : list Z) (c : counts) : list Z * counts :=
  match n with
  | O => (values, c)
  | S n' =>
      let '(state, values) := match values with [] => (2, []) | v :: vs => (v, vs) end in
      let state := if (0 <=? state) && (state <=? 3) then state else 2 in
      consume_states n' values (bump state 1 c)
  end.

Fixpoint states_cells (values : list Z) (consumed : Z) (bounds : list range) (totals : counts)
    : list cell * counts :=
  match bounds with
  | [] => ([], totals)
  | b :: bounds' =>
      let '(values, c) := consume_states (Z.to_nat (b.2 - consumed)) values no_counts in
      let '(cells, totals) := states_cells values (Z.max consumed b.2) bounds' (add_counts totals c) in
      (counts_cell b c :: cells, totals)
  end.

Definition aggregate_states (states : list Z) (total_units cell_count unit_size : Z)
    (filesystem accuracy : string) (dets : details) : map_result :=
  let cell_count := clamp_cells cell_count total_units in
  let '(cells, totals) := states_cells states 0 (cell_bounds total_units cell_count) no_counts in
  new_map_result filesystem accuracy unit_size total_units cells
    (n0 totals) (n1 totals) (n2 totals) (n3 totals) dets.

(** ** Aggregating state ranges *)

Definition state_range_leb (a b : state_range) : bool :=
  let '(s1, e1, t1) := a in let '(s2, e2, t2) := b in
  (s1 <? s2) || ((s1 =? s2) && ((e1 <? e2) || ((e1 =? e2) && (t1 <=? t2)))).

Definition normalise_step (total_units : Z) (normalised : list state_range) (r : state_range)
    : result (list state_range) :=
  let '(s, e, state) := r in
  let start := Z.max 0 (Z.min total_units s) in
  let end_ := Z.max 0 (Z.min total_units e) in
  if end_ <=? start then Ok normalised else
  check negb (bool_decide (state ∈ [0; 1; 2; 3])) # BackendError "invalid allocation state";
  match normalised with
  | (ps, pe, pstate) :: rest =>
      check start <? pe # BackendError "overlapping allocation-state ranges";
      if (start =? pe) && (state =? pstate) then Ok ((ps, end_, state) :: rest)
      else Ok ((start, end_, state) :: normalised)
  | [] => Ok [(start, end_, state)]
  end.

Definition normalise_state_ranges (ranges : list state_range) (total_units : Z)
    : result (list state_range) :=
  reverse <$> foldM (normalise_step total_units) [] (py_sorted state_range_leb ranges).

Fixpoint cell_scan (start end_exclusive cursor : Z) (c : counts) (rs : list state_range)
    : counts * Z :=
  match rs with
  | (range_start, range_end, state) :: rest =>
      if range_start <? end_exclusive then
        let overlap_start := Z.max start range_start in
        let overlap_end := Z.min end_exclusive range_end in
        let c := if cursor <? overlap_start then bump 2 (overlap_start - cursor) c else c in
        let '(c, cursor) :=
          if overlap_start <? overlap_end
          then (bump state (overlap_end - overlap_start) c, Z.max cursor overlap_end)
          else (c, cursor) in
        if end_exclusive <? range_end then (c, cursor)
        else cell_scan start end_exclusive cursor c rest
      else (c, cursor)
  | [] => (c, cursor)
  end.

Fixpoint ranges_cells (ordered : list state_range) (bounds : list range) (totals : counts)
    : list cell * counts :=
  match bounds with
  | [] => ([], totals)
  | b :: bounds' =>
      let ordered := skip_before (fun r : state_range => r.1.2) b.1 ordered in
      let '(c, cursor) := cell_scan b.1 b.2 b.1 no_counts ordered in
      let c := if cursor <? b.2 then bump 2 (b.2 - cursor) c else c in
      let '(cells, totals) := ranges_cells ordered bounds' (add_counts totals c) in
      (counts_cell b c :: cells, totals)
  end.

Definition aggregate_ranges (total_units cell_count unit_size : Z) (filesystem : string)
    (ranges : list state_range) (accuracy : string) (dets : details) : result map_result :=
  let cell_count := clamp_cells cell_count total_units in
  ordered ← normalise_state_ranges ranges total_units;
  let '(cells, totals) := ranges_cells ordered (cell_bounds total_units cell_count) no_counts in
  Ok (new_map_result filesystem accuracy unit_size total_units cells
        (n0 totals) (n1 totals) (n2 totals) (n3 totals) dets).

(** ** Aggregating an allocation bitmap *)

(** [int.bit_count]: the set bits of the absolute value. *)
Fixpoint pos_bit_count (p : positive) : Z :=
  match p with
  | xH => 1
  | xO p' => pos_bit_count p'
  | xI p' => 1 + pos_bit_count p'
  end.

Definition bit_count (v : Z) : Z :=
  match v with Z0 => 0 | Zpos p | Zneg p => pos_bit_count p end.

Definition count_set_bits (bitmap : bytes) (start_bit end_bit : Z) : result Z :=
  if end_bit <=? start_bit then Ok 0 else
  let first_byte := Z.shiftr start_bit 3 in
  let last_byte := Z.shiftr (end_bit - 1) 3 in
  if first_byte =? last_byte then
    let mask := Z.shiftl (Z.shiftl 1 (end_bit - start_bit) - 1) (Z.land start_bit 7) in
    b ← py_get bitmap first_byte;
    Ok (bit_count (Z.land b mask))
  else
    '(count, first_byte) ←
      (if Z.land start_bit 7 =? 0 then Ok (0, first_byte) else
       let mask := Z.shiftl 255 (Z.land start_bit 7) in
       b ← py_get bitmap first_byte;
       Ok (bit_count (Z.land b mask), first_byte + 1));
    let full_end := Z.shiftr end_bit 3 in
    let count :=
      if first_byte <? full_end
      then count + bit_count (le_int (py_slice bitmap first_byte full_end)) else count in
    if Z.land end_bit 7 =? 0 then Ok count else
    let mask := Z.shiftl 1 (Z.land end_bit 7) - 1 in
    b ← py_get bitmap last_byte;
    Ok (count + bit_count (Z.land b mask)).

Definition bitmap_cell (bitmap : bytes) (reserved_prefix : Z) (b : range) : result cell :=
  let '(start, end_exclusive) := b in
  let unknown := Z.max 0 (Z.min end_exclusive reserved_prefix - start) in
  let data_start := Z.max start reserved_prefix in
  let data_count := Z.max 0 (end_exclusive - data_start) in
  used ← (if data_count =? 0 then Ok 0
          else count_set_bits bitmap (data_start - reserved_prefix) (end_exclusive - reserved_prefix));
  Ok (Cell start (end_exclusive - 1) (data_count - used) used unknown 0 0 0).

Definition aggregate_bitmap (bitmap : bytes) (total_units cell_count unit_size : Z)
    (filesystem : string) (reserved_prefix : Z) (dets : details) : result map_result :=
  check py_len bitmap * 8 <? total_units - reserved_prefix
    # BackendError "allocation bitmap is shorter than the filesystem";
  let cell_count := clamp_cells cell_count total_units in
  cells ← mapM_result (bitmap_cell bitmap reserved_prefix) (cell_bounds total_units cell_count);
  Ok (new_map_result filesystem "exact" unit_size total_units cells
        (zsum (map c_free cells)) (zsum (map c_used cells)) (zsum (map c_unknown cells)) 0 dets).
