(* ===== verification/RangesFacts.v ===== *)
(** * Correctness of the range and cell aggregation

    [covers rs x] is the abstract reading of a list of ranges: the unit [x]
    lies in one of them.  Merging and complementing are characterised by it,
    and every per-cell counter of the linear-time loops is shown equal to
    counting the units of the cell one by one. *)

From S2P Require Import Prelude Bytes Ranges.

Definition covers (rs : list range) (x : Z) : Prop := Exists (fun r => r.1 <= x < r.2) rs.

Definition covered (rs : list range) (x : Z) : bool :=
  existsb (fun r => (r.1 <=? x) && (x <? r.2)) rs.

(** Two lists of ranges denote the same set of units. *)
Definition same_cover : relation (list range) := fun a b => forall x, covers a x <-> covers b x.

#[export] Instance same_cover_equiv : Equivalence same_cover.
Proof.
  split; [intros a x; done|intros a b H x; symmetry; apply H|].
  intros a b c H K x. by rewrite (H x).
Qed.

#[export] Instance covers_proper : Proper (same_cover ==> eq ==> iff) covers.
Proof. intros a b H x y ->. apply H. Qed.

#[export] Instance covers_perm : subrelation (≡ₚ@{range}) same_cover.
Proof. intros a b H x. unfold covers. by rewrite H. Qed.

#[export] Instance app_same_cover : Proper (same_cover ==> same_cover ==> same_cover) app.
Proof. intros a b H c d K x. unfold covers in *. rewrite !Exists_app. by rewrite (H x), (K x). Qed.

#[export] Instance cons_same_cover r : Proper (same_cover ==> same_cover) (cons r).
Proof. intros a b H x. unfold covers. rewrite !Exists_cons. by rewrite (H x). Qed.

(** Ranges in ascending order with a gap between neighbours. *)
Definition separated (rs : list range) : Prop :=
  Forall (fun r => r.1 < r.2) rs /\ StronglySorted (fun a b => a.2 < b.1) rs.

(** The ranges that [merge_ranges] keeps. *)
Definition kept (r : range) : bool := (0 <=? r.1) && (r.1 <? r.2).

Lemma covers_cons r rs x : covers (r :: rs) x <-> r.1 <= x < r.2 \/ covers rs x.
Proof. apply Exists_cons. Qed.

Lemma covers_nil x : ~ covers [] x.
Proof. intros H; inversion H. Qed.

Lemma covers_app a b x : covers (a ++ b) x <-> covers a x \/ covers b x.
Proof. apply Exists_app. Qed.

Lemma covered_spec rs x : covered rs x = true <-> covers rs x.
Proof.
  unfold covered, covers. rewrite existsb_exists, Exists_exists.
  split; intros (r & Hr & Hx); exists r; rewrite list_elem_of_In in *; split; auto.
  - bool_to_prop. lia.
  - apply andb_true_intro. split; [apply Z.leb_le|apply Z.ltb_lt]; lia.
Qed.

Lemma range_leb_total a b : range_leb a b = true \/ range_leb b a = true.
Proof. unfold range_leb. destruct a, b; simpl. ztests; simpl; auto; lia. Qed.

Lemma range_leb_trans a b c :
  range_leb a b = true -> range_leb b c = true -> range_leb a c = true.
Proof. unfold range_leb. destruct a, b, c; simpl. ztests; simpl; auto; try lia; done. Qed.

Lemma range_leb_start a b : range_leb a b = true -> a.1 <= b.1.
Proof. unfold range_leb. destruct a, b; simpl. ztests; simpl; try done; lia. Qed.

(** ** merge_push over a list sorted by start *)

(** The reversed accumulator: descending, separated, and not above the
    starts still to come. *)
Definition merge_inv (acc rest : list range) : Prop :=
  Forall (fun r => r.1 < r.2) acc /\ StronglySorted (fun a b => b.2 < a.1) acc /\
  Forall (fun r => match acc with [] => True | a :: _ => a.1 <= r.1 end) rest.

Lemma merge_push_inv acc r rest :
  merge_inv acc (r :: rest) -> r.1 < r.2 -> Forall (fun r' => r.1 <= r'.1) rest ->
  merge_inv (merge_push acc r) rest /\
  (forall x, covers (merge_push acc r) x <-> covers acc x \/ r.1 <= x < r.2).
Proof.
  intros (Hp & Hs & Hr) Hlt Hrest. inversion_clear Hr as [|? ? Hle Hr'].
  destruct acc as [|[s e] acc]; simpl.
  { split; [repeat split; auto; repeat constructor; auto|].
    intros x. rewrite covers_cons. pose proof (covers_nil x); tauto. }
  inversion_clear Hp as [|? ? Hse Hp']. inversion_clear Hs as [|? ? Hs' He]. simpl in *.
  destruct (Z.leb_spec r.1 e).
  - split; [repeat split|].
    + constructor; [simpl; lia|done].
    + constructor; [done|]. simpl. done.
    + eapply Forall_impl; [exact Hr'|]. simpl. lia.
    + intros x. rewrite !covers_cons. simpl. intuition lia.
  - split; [repeat split|].
    + constructor; [done|]. by constructor.
    + constructor; [by constructor|]. constructor; simpl; [lia|].
      eapply Forall_impl; [exact He|]. simpl. lia.
    + done.
    + intros x. rewrite !covers_cons. simpl. tauto.
Qed.

Lemma merge_fold_spec (skip : range -> bool) l acc :
  (forall r, skip r = false -> r.1 < r.2) ->
  StronglySorted (fun a b => a.1 <= b.1) l -> merge_inv acc l ->
  let out := fold_left (fun m r => if skip r then m else merge_push m r) l acc in
  merge_inv out [] /\
  (forall x, covers out x <-> covers acc x \/ covers (base.filter (fun r => skip r = false) l) x).
Proof.
  intros Hskip Hl. revert acc. induction Hl as [|r l Hl IH Hr]; intros acc Hinv; simpl.
  { split; [done|]. intros x. rewrite filter_nil. pose proof (covers_nil x); tauto. }
  destruct (skip r) eqn:E.
  - rewrite filter_cons_False by congruence. apply IH.
    destruct Hinv as (?&?&HF). inversion HF. done.
  - destruct (merge_push_inv acc r l) as [Hi Hc]; auto.
    destruct (IH _ Hi) as [Ho Hx]. split; [done|]. intros x.
    rewrite Hx, Hc, filter_cons_True, covers_cons by done. tauto.
Qed.

Lemma merge_inv_separated acc : merge_inv acc [] -> separated (reverse acc).
Proof.
  intros (Hp & Hs & _). split.
  - rewrite Forall_reverse. done.
  - apply StronglySorted_reverse in Hs. done.
Qed.

Lemma covers_reverse rs x : covers (reverse rs) x <-> covers rs x.
Proof. unfold covers. by rewrite (reverse_Permutation rs). Qed.

(** Sorting by [range_leb] and merging with any filter that drops empty ranges. *)
Lemma merge_sorted_spec (skip : range -> bool) l :
  (forall r, skip r = false -> r.1 < r.2) ->
  let out := reverse (fold_left (fun m r => if skip r then m else merge_push m r)
                        (py_sorted range_leb l) []) in
  separated out /\ same_cover out (base.filter (fun r => skip r = false) l).
Proof.
  intros Hskip out. subst out.
  destruct (merge_fold_spec skip (py_sorted range_leb l) []) as [Hi Hc]; [done| | |].
  - eapply StronglySorted_impl; [|apply (py_sorted_sorted range_leb)];
      eauto using range_leb_start, range_leb_total, range_leb_trans.
  - repeat split; [constructor|constructor|]. by apply Forall_true.
  - split; [by apply merge_inv_separated|]. intros x.
    rewrite covers_reverse, Hc. rewrite (py_sorted_perm range_leb l).
    pose proof (covers_nil x); tauto.
Qed.

Lemma merge_ranges_facts (ranges : list range) :
  separated (merge_ranges ranges) /\
  (forall x, covers (merge_ranges ranges) x <->
     exists s e, (s, e) ∈ ranges /\ 0 <= s <= x /\ x < e).
Proof.
  destruct (merge_sorted_spec (fun r => (r.1 <? 0) || (r.2 <=? r.1)) ranges) as [Hs Hc].
  { intros r Hr. bool_to_prop. lia. }
  split; [done|]. intros x. unfold merge_ranges. rewrite (Hc x).
  unfold covers. rewrite Exists_exists. split.
  - intros ([s e] & [Hk Hin]%list_elem_of_filter & Hx). simpl in *. bool_to_prop.
    exists s, e. auto with lia.
  - intros (s & e & Hin & Hx). exists (s, e). split; [|simpl; lia].
    apply list_elem_of_filter. split; [|done]. simpl. ztests; simpl; auto; lia.
Qed.

(** [merge_ranges] returns non-empty ranges in ascending order with a
    gap between any two neighbours, and they cover exactly the units covered
    by the input ranges that are non-empty and start at or above zero. *)
Theorem merge_ranges_spec (ranges : list range) :
  separated (merge_ranges ranges) /\
  (forall x, covers (merge_ranges ranges) x <->
     exists s e, (s, e) ∈ ranges /\ 0 <= s <= x /\ x < e).
Proof. exact (merge_ranges_facts ranges). Qed.

(** ** Complement *)

Lemma separated_cons r rs :
  separated (r :: rs) <-> r.1 < r.2 /\ Forall (fun r' => r.2 < r'.1) rs /\ separated rs.
Proof.
  unfold separated. rewrite Forall_cons, StronglySorted_cons. tauto.
Qed.

Lemma separated_snoc gaps r :
  separated gaps -> r.1 < r.2 -> Forall (fun g => g.2 < r.1) gaps -> separated (gaps ++ [r]).
Proof.
  intros [Hp Hs] Hr Hg. split.
  - apply Forall_app_2; [done|by repeat constructor].
  - apply StronglySorted_app_2; [|done|repeat constructor].
    intros a b Ha Hb. apply list_elem_of_singleton in Hb as ->.
    rewrite Forall_forall in Hg. by apply Hg.
Qed.

(** What the loop has established when it stands at [cursor]. *)
Definition gaps_upto (occ : list range) (cursor : Z) (gaps : list range) : Prop :=
  separated gaps /\ Forall (fun g => g.2 <= cursor) gaps /\
  (forall x, covers gaps x <-> 0 <= x < cursor /\ ~ covers occ x).

Lemma gaps_upto_extend occ cursor to gaps :
  gaps_upto occ cursor gaps -> 0 <= cursor < to ->
  Forall (fun g => g.2 < cursor) gaps ->
  (forall x, cursor <= x < to -> ~ covers occ x) ->
  gaps_upto occ to (gaps ++ [(cursor, to)]).
Proof.
  intros (Hs & Hb & Hc) Hlt Hstrict Hfree. split; [|split].
  - apply separated_snoc; simpl; auto; lia.
  - apply Forall_app_2; [|repeat constructor; simpl; lia].
    eapply Forall_impl; [exact Hb|]. simpl. lia.
  - intros x. rewrite covers_app, Hc, covers_cons. simpl.
    pose proof (covers_nil x). split.
    + intros [[? ?]|[?|?]]; [split; [lia|done]| |done]. split; [lia|]. by apply Hfree.
    + intros [? ?]. destruct (decide (x < cursor)); [left; split; [lia|done]|].
      right. left. lia.
Qed.

Lemma gaps_upto_skip occ cursor to gaps :
  gaps_upto occ cursor gaps -> cursor <= to ->
  (forall x, cursor <= x < to -> covers occ x) -> gaps_upto occ to gaps.
Proof.
  intros (Hs & Hb & Hc) Hle Hocc. split; [done|split].
  - eapply Forall_impl; [exact Hb|]. simpl. lia.
  - intros x. rewrite Hc. split; intros [Hx Hn]; (split; [|done]); [lia|].
    destruct (decide (x < cursor)); [lia|]. exfalso. apply Hn, Hocc. lia.
Qed.

(** [occ = seen ++ rest]; the cursor has passed everything in [seen]. *)
Lemma complement_loop_spec occ total rest : forall cursor gaps,
  separated rest -> Forall (fun r => 0 <= r.1) rest ->
  0 <= cursor < total -> gaps_upto occ cursor gaps ->
  (gaps = [] \/ Forall (fun g => g.2 < cursor) gaps) ->
  Forall (fun r => cursor <= r.1) rest ->
  (forall x, cursor <= x -> covers occ x <-> covers rest x) ->
  exists cursor' gaps',
    complement_loop total cursor gaps rest = (cursor', gaps') /\
    0 <= cursor' /\ gaps_upto occ (Z.min total cursor') gaps' /\
    (cursor' < total -> Forall (fun g => g.2 < cursor') gaps' /\
                        forall x, cursor' <= x -> ~ covers occ x).
Proof.
  induction rest as [|[s e] rest IH]; intros cursor gaps Hsep Hpos Hcur Hg Hstrict Hord Hocc; simpl.
  { exists cursor, gaps. rewrite Z.min_r by lia. split; [done|]. split; [lia|]. split; [done|].
    intros _. split; [destruct Hstrict as [->|?]; auto|].
    intros x Hx. rewrite Hocc by done. apply covers_nil. }
  apply separated_cons in Hsep as (Hse & Hafter & Hsep). simpl in *.
  inversion_clear Hpos as [|? ? Hs0 Hpos']. inversion_clear Hord as [|? ? Hcs Hord']. simpl in *.
  assert (Hg1 : gaps_upto occ (Z.min total s)
     (if cursor <? Z.min total (Z.max 0 s) then gaps ++ [(cursor, Z.min total (Z.max 0 s))] else gaps) /\
     Forall (fun g => g.2 <= Z.min total s)
     (if cursor <? Z.min total (Z.max 0 s) then gaps ++ [(cursor, Z.min total (Z.max 0 s))] else gaps)).
  { rewrite (Z.max_r 0 s) by lia. destruct (Z.ltb_spec cursor (Z.min total s)).
    - split; [|apply Forall_app_2; [|by repeat constructor]; simpl].
      + apply gaps_upto_extend; auto; [lia| |].
        * destruct Hstrict as [->|?]; auto.
        * intros x Hx. rewrite Hocc by lia. rewrite covers_cons. simpl.
          intros [?|Hc]; [lia|]. unfold covers in Hc. rewrite Exists_exists in Hc.
          destruct Hc as (r & Hr & ?). rewrite Forall_forall in Hafter.
          specialize (Hafter r Hr). lia.
      + destruct Hg as (_ & Hb & _). eapply Forall_impl; [exact Hb|]. simpl. lia.
    - assert (Z.min total s = cursor) as -> by lia. split; [done|]. apply Hg. }
  destruct Hg1 as [Hg1 Hb1]. revert Hg1 Hb1.
  set (g1 := if cursor <? _ then _ else _). intros Hg1 Hb1.
  assert (Hcov : forall x, s <= x < e -> covers occ x).
  { intros x Hx. rewrite Hocc by lia. rewrite covers_cons. simpl. lia. }
  rewrite (Z.max_r 0 e) by lia.
  destruct (Z.leb_spec total (Z.max cursor (Z.min total e))).
  { exists (Z.max cursor (Z.min total e)), g1. split; [done|]. split; [lia|].
    rewrite Z.min_l by lia. split; [|lia].
    eapply gaps_upto_skip; [exact Hg1|lia|]. intros x Hx. apply Hcov. lia. }
  apply IH; auto.
  - lia.
  - rewrite Z.min_r, Z.max_r by lia. eapply gaps_upto_skip; [exact Hg1|lia|].
    intros x Hx. apply Hcov. lia.
  - right. eapply Forall_impl; [exact Hb1|]. simpl. lia.
  - eapply Forall_impl; [exact Hafter|]. simpl. lia.
  - intros x Hx. rewrite Hocc, covers_cons by lia. simpl. split; [|tauto].
    intros [?|?]; [lia|done].
Qed.

Lemma complement_facts (total_units : Z) (occupied : list range) :
  0 <= total_units ->
  exists gaps, complement_ranges total_units occupied = Ok gaps /\ separated gaps /\
    (forall x, covers gaps x <-> 0 <= x < total_units /\ ~ covers (merge_ranges occupied) x).
Proof.
  intros Ht. unfold complement_ranges. rewrite (proj2 (Z.ltb_ge _ _)) by lia.
  destruct (merge_ranges_facts occupied) as [Hsep Hcov].
  assert (Hpos : Forall (fun r => 0 <= r.1) (merge_ranges occupied)).
  { apply Forall_forall. intros [s e] Hr. simpl. destruct (proj1 (Hcov s)) as (s' & e' & _ & ?); [|lia].
    apply Exists_exists. exists (s, e). split; [done|]. destruct Hsep as [Hp _].
    rewrite Forall_forall in Hp. specialize (Hp _ Hr). simpl in *. lia. }
  revert Hsep Hpos. generalize (merge_ranges occupied) as occ. clear Hcov. intros occ Hsep Hpos.
  assert (Hg0 : gaps_upto occ 0 []).
  { split; [by repeat constructor|]. split; [constructor|]. intros x. pose proof (covers_nil x). split; [done|lia]. }
  destruct (decide (total_units = 0)) as [->|Hne].
  { destruct (complement_loop 0 0 [] occ) as [c g] eqn:E.
    assert (c = 0 /\ g = []) as [-> ->].
    { destruct occ as [|[s e] occ]; simpl in E; [by injection E as <- <-|].
      rewrite (proj2 (Z.ltb_ge _ _)) in E by lia.
      rewrite (proj2 (Z.leb_le _ _)) in E by lia. injection E as <- <-. split; [lia|done]. }
    simpl. exists []. split; [done|]. split; [by repeat constructor|]. apply Hg0. }
  destruct (complement_loop_spec occ total_units occ 0 []) as (c & g & E & Hc0 & Hg & Hfin);
    auto; [lia|]. rewrite E. destruct (Z.ltb_spec c total_units).
  - destruct (Hfin ltac:(lia)) as [Hst Hno]. rewrite Z.min_r in Hg by lia.
    exists (g ++ [(c, total_units)]). split; [done|].
    destruct (gaps_upto_extend occ c total_units g) as (? & _ & ?);
      [done|lia|done|intros; apply Hno; lia|done].
  - rewrite Z.min_l in Hg by lia. exists g. split; [done|].
    destruct Hg as (? & _ & ?). done.
Qed.

(** [complement_ranges] succeeds for a non-negative unit count and
    returns, in ascending order, ranges that cover exactly the units of
    [0, total_units) that no (merged) occupied range covers, so occupied and
    complement together partition the volume. *)
Theorem complement_ranges_spec (total_units : Z) (occupied : list range) :
  0 <= total_units ->
  exists gaps, complement_ranges total_units occupied = Ok gaps /\ separated gaps /\
    (forall x, covers gaps x <-> 0 <= x < total_units /\ ~ covers (merge_ranges occupied) x).
Proof. exact (complement_facts total_units occupied). Qed.

Lemma complement_ranges_spec_witness :
  0 <= 20 /\ exists gaps, complement_ranges 20 [(5, 7); (1, 3); (6, 10)] = Ok gaps /\
    separated gaps /\
    (forall x, covers gaps x <-> 0 <= x < 20 /\ ~ covers (merge_ranges [(5, 7); (1, 3); (6, 10)]) x).
Proof. split; [lia|]. apply (complement_ranges_spec 20 [(5, 7); (1, 3); (6, 10)]). lia. Defined.

(** ** Map cells cover the volume without gap or overlap *)

Fixpoint chained (a b : Z) (bounds : list range) : Prop :=
  match bounds with
  | [] => a = b
  | (s, e) :: rest => s = a /\ s < e /\ chained e b rest
  end.

Lemma chained_le a b bounds : chained a b bounds -> a <= b.
Proof.
  revert a. induction bounds as [|[s e] bounds IH]; simpl; intros a; [lia|].
  intros (-> & ? & H). apply IH in H. lia.
Qed.

Lemma cell_step total count index :
  1 <= count <= total -> (index * total) / count + 1 <= ((index + 1) * total) / count.
Proof.
  intros. rewrite <- (Z.div_add (index * total) 1 count) by lia.
  apply Z.div_le_mono; lia.
Qed.

Lemma cell_bounds_chained total count :
  1 <= count <= total -> chained 0 total (cell_bounds total count).
Proof.
  intros H. unfold cell_bounds.
  assert (forall n index, 0 <= index -> count - index = Z.of_nat n ->
    chained ((index * total) / count) total
      (map (fun index => ((index * total) / count,
              Z.max ((index * total) / count + 1) (((index + 1) * total) / count)))
           (py_range index count))) as Hgen.
  { induction n as [|n IH]; intros index Hi Hn.
    - rewrite py_range_nil by lia. simpl.
      replace index with count by lia. rewrite Z.mul_comm. apply Z.div_mul. lia.
    - rewrite py_range_cons by lia. simpl.
      pose proof (cell_step total count index H).
      rewrite Z.max_r by lia. repeat split; [lia|]. apply IH; lia. }
  specialize (Hgen (Z.to_nat count) 0 ltac:(lia) ltac:(lia)).
  rewrite Z.mul_0_l, Z.div_0_l in Hgen by lia. exact Hgen.
Qed.

Lemma clamp_cells_range cell_count total :
  1 <= total -> 1 <= clamp_cells cell_count total <= total.
Proof. unfold clamp_cells. lia. Qed.

Lemma chained_sorted a b bounds :
  chained a b bounds -> Forall (fun r => a <= r.1) bounds /\ StronglySorted (fun x y => x.2 <= y.1) bounds.
Proof.
  revert a. induction bounds as [|[s e] bounds IH]; simpl; intros a; [by repeat constructor|].
  intros (-> & ? & H). destruct (IH _ H) as [Hf Hs]. split.
  - constructor; [simpl; lia|]. eapply Forall_impl; [exact Hf|]. simpl. lia.
  - constructor; [done|]. eapply Forall_impl; [exact Hf|]. simpl. lia.
Qed.

(** ** Overlay *)

Lemma covered_after_skip rs start x :
  start <= x -> covered (skip_before snd start rs) x = covered rs x.
Proof.
  intros Hx. induction rs as [|[s e] rs IH]; [done|]. simpl.
  destruct (Z.leb_spec e start); [|done]. rewrite IH.
  rewrite (proj2 (Z.ltb_ge x e)) by lia. by rewrite andb_false_r.
Qed.

Lemma skip_before_separated start rs :
  separated rs ->
  separated (skip_before snd start rs) /\ Forall (fun r => start < r.2) (skip_before snd start rs).
Proof.
  intros Hs. induction rs as [|[s e] rs IH]; simpl; [by repeat constructor|].
  pose proof (proj1 (separated_cons _ _) Hs) as (Hse & Hafter & Hrest). simpl in *.
  destruct (Z.leb_spec e start); [auto|]. split; [done|]. constructor; [done|].
  destruct Hrest as [Hp _]. rewrite Forall_forall in Hafter, Hp |- *.
  intros r Hr. specialize (Hafter r Hr). specialize (Hp r Hr). simpl in *. lia.
Qed.

Lemma covered_below rs x : Forall (fun r : range => x < r.1) rs -> covered rs x = false.
Proof.
  induction 1 as [|[s e] rs Hr _ IH]; [done|]. simpl in *. rewrite IH.
  by rewrite (proj2 (Z.leb_gt s x)) by lia.
Qed.

Lemma covered_cons r rs x :
  covered (r :: rs) x = ((r.1 <=? x) && (x <? r.2)) || covered rs x.
Proof. done. Qed.

(** The scan adds, to what it has counted, the covered units of the cell. *)
Lemma overlap_scan_spec start end_ rs : forall overlap,
  start <= end_ -> separated rs ->
  overlap_scan start end_ overlap rs = overlap + count_where (covered rs) start end_.
Proof.
  induction rs as [|[s e] rs IH]; intros overlap Hle Hsep; simpl.
  { rewrite count_where_none by done. lia. }
  apply separated_cons in Hsep as (Hse & Hafter & Hsep). simpl in *.
  assert (Hlow : forall x, x <= e -> covered rs x = false).
  { intros x Hx. apply covered_below. eapply Forall_impl; [exact Hafter|]. simpl. lia. }
  assert (Hboth : count_where (covered ((s, e) :: rs)) start end_ =
     Z.max 0 (Z.min end_ e - Z.max start s) + count_where (covered rs) start end_).
  { rewrite <- (count_where_interval s e start end_). unfold count_where.
    rewrite <- zsum_map_add. apply zsum_map_ext. intros x Hx. rewrite covered_cons. simpl.
    destruct (Z.leb_spec s x); simpl; [|done]. destruct (Z.ltb_spec x e); simpl; [|done].
    by rewrite Hlow by lia. }
  destruct (Z.ltb_spec s end_).
  - destruct (Z.ltb_spec end_ e).
    + rewrite Hboth, (count_where_none (covered rs)); [lia|]. intros x Hx. apply Hlow. lia.
    + rewrite IH, Hboth by done. lia.
  - rewrite count_where_none; [lia|]. intros x Hx. apply covered_below.
    constructor; [simpl; lia|]. eapply Forall_impl; [exact Hafter|]. simpl. lia.
Qed.

(** What a cell should show for a set of ranges. *)
Definition overlay_ref (field : overlay_field) (rs : list range) (c : cell) : cell :=
  set_field field (Z.min (c_used c) (count_where (covered rs) (c_start c) (c_end c + 1))) c.

Lemma overlay_cells_spec field cells : forall merged,
  separated merged -> Forall (fun c => c_start c <= c_end c + 1) cells ->
  StronglySorted (fun a b => c_start a <= c_start b) cells ->
  overlay_cells field merged cells = map (overlay_ref field merged) cells.
Proof.
  induction cells as [|c cells IH]; intros merged Hsep Hok Hsort; [done|]. simpl.
  inversion_clear Hok as [|? ? Hc Hok']. inversion_clear Hsort as [|? ? Hsort' Hle].
  destruct (skip_before_separated (c_start c) merged Hsep) as [Hsk _].
  rewrite overlap_scan_spec by done. f_equal.
  - unfold overlay_ref. do 2 f_equal. rewrite Z.add_0_l. apply count_where_ext.
    intros x Hx. apply covered_after_skip. lia.
  - rewrite IH by done. apply map_ext_in. intros c' Hin.
    rewrite <- list_elem_of_In in Hin. rewrite Forall_forall in Hle. specialize (Hle _ Hin).
    unfold overlay_ref. do 2 f_equal. apply count_where_ext.
    intros x Hx. apply covered_after_skip. lia.
Qed.


