(* ===== verification/Bitmap.v ===== *)
(** * Allocation bitmaps as sets of units

    [bit_at bitmap i] is the abstract reading of a least-significant-bit-first
    allocation bitmap.  The byte-wise routines of the program are related to
    it through [Z.testbit]. *)

From S2P Require Import Prelude Bytes Ranges.

Definition bit_at (bitmap : bytes) (i : Z) : bool :=
  match bitmap !! Z.to_nat (i / 8) with
  | Some b => Z.testbit b (i mod 8)
  | None => false
  end.

(** ** Arithmetic of bit addresses *)

Lemma shiftr3 i : Z.shiftr i 3 = i / 8.
Proof. by rewrite Z.shiftr_div_pow2. Qed.

Lemma land7 i : Z.land i 7 = i mod 8.
Proof. change 7 with (Z.ones 3). by rewrite Z.land_ones. Qed.

Lemma div8_bounds i : 8 * (i / 8) <= i < 8 * (i / 8) + 8.
Proof. pose proof (Z.div_mod i 8). pose proof (Z.mod_pos_bound i 8). lia. Qed.

Lemma byte_testbit_high b n : is_byte b -> 8 <= n -> Z.testbit b n = false.
Proof.
  intros [H0 H1] Hn. destruct (decide (b = 0)) as [->|]; [apply Z.testbit_0_l|].
  apply Z.bits_above_log2; [lia|]. apply Z.log2_lt_pow2; [lia|].
  apply Z.lt_le_trans with (2 ^ 8); [lia|]. by apply Z.pow_le_mono_r.
Qed.

(** Equality of octets is equality of their eight bits. *)
Lemma byte_ext a b :
  is_byte a -> is_byte b -> (forall n, 0 <= n < 8 -> Z.testbit a n = Z.testbit b n) -> a = b.
Proof.
  intros Ha Hb H. apply Z.bits_inj'. intros n Hn.
  destruct (decide (n < 8)); [apply H; lia|]. by rewrite !byte_testbit_high by (done || lia).
Qed.

Lemma lookup_byte (bitmap : bytes) i :
  wf_bytes bitmap -> 0 <= i < py_len bitmap -> exists b, bitmap !! Z.to_nat i = Some b /\ is_byte b.
Proof.
  intros Hw Hi. unfold py_len in Hi.
  destruct (lookup_lt_is_Some_2 bitmap (Z.to_nat i)) as [b Hb]; [lia|].
  exists b. split; [done|]. eapply Forall_lookup_1; eauto.
Qed.

Lemma py_get_in {A} (l : list A) i x :
  0 <= i -> l !! Z.to_nat i = Some x -> py_get l i = Ok x.
Proof.
  intros Hi Hl. unfold py_get. rewrite (proj2 (Z.ltb_ge i 0)) by lia.
  rewrite (proj2 (Z.ltb_ge i 0)) by lia. by rewrite Hl.
Qed.

Lemma py_get_byte (bitmap : bytes) i :
  wf_bytes bitmap -> 0 <= i < py_len bitmap ->
  exists b, py_get bitmap i = Ok b /\ bitmap !! Z.to_nat i = Some b /\ is_byte b.
Proof.
  intros Hw Hi. destruct (lookup_byte bitmap i Hw Hi) as (b & Hb & Hbb).
  exists b. split; [|done]. by apply py_get_in; [lia|].
Qed.

Lemma bit_at_byte bitmap q b r :
  bitmap !! Z.to_nat q = Some b -> 0 <= r < 8 -> bit_at bitmap (8 * q + r) = Z.testbit b r.
Proof.
  intros Hb Hr. unfold bit_at.
  replace ((8 * q + r) / 8) with q by (apply Z.div_unique with r; lia).
  replace ((8 * q + r) mod 8) with r by (apply Z.mod_unique with q; lia).
  by rewrite Hb.
Qed.

Lemma bit_at_out bitmap i : 8 * py_len bitmap <= i -> bit_at bitmap i = false.
Proof.
  intros Hi. unfold bit_at, py_len in *. pose proof (div8_bounds i).
  by rewrite (lookup_ge_None_2 bitmap) by lia.
Qed.

(** ** The integer of a byte string has the bits of the string *)

Lemma testbit_split b v i :
  is_byte b -> 0 <= i ->
  Z.testbit (b + 256 * v) i = if i <? 8 then Z.testbit b i else Z.testbit v (i - 8).
Proof.
  intros [H0 H1] Hi. destruct (Z.ltb_spec i 8).
  - rewrite <- (Z.mod_pow2_bits_low (b + 256 * v) 8 i) by lia. f_equal.
    rewrite Z.mul_comm. change 256 with (2 ^ 8). rewrite Z.mod_add by lia. by rewrite Z.mod_small by lia.
  - replace i with ((i - 8) + 8) at 1 by lia.
    rewrite <- Z.div_pow2_bits by lia. f_equal.
    rewrite Z.mul_comm. change 256 with (2 ^ 8). rewrite Z.div_add by lia. by rewrite Z.div_small by lia.
Qed.

Lemma bit_at_cons b bitmap i :
  0 <= i -> bit_at (b :: bitmap) i = if i <? 8 then Z.testbit b i else bit_at bitmap (i - 8).
Proof.
  intros Hi. unfold bit_at. pose proof (div8_bounds i). destruct (Z.ltb_spec i 8).
  - replace (i / 8) with 0 by lia. simpl. by rewrite Z.mod_small by lia.
  - replace (i - 8) with (i + (-1) * 8) by lia. rewrite Z.div_add, Z.mod_add by lia.
    replace (Z.to_nat (i / 8)) with (S (Z.to_nat (i / 8 + -1))) by lia. done.
Qed.

Lemma testbit_le_int data i : wf_bytes data -> 0 <= i -> Z.testbit (le_int data) i = bit_at data i.
Proof.
  intros Hw. revert i. induction Hw as [|b data Hb _ IH]; intros i Hi.
  { simpl. rewrite Z.testbit_0_l. unfold bit_at. by rewrite lookup_nil. }
  simpl le_int. rewrite testbit_split, bit_at_cons by done.
  destruct (Z.ltb_spec i 8); [done|]. apply IH. lia.
Qed.

Lemma bit_at_slice bitmap a b i :
  0 <= a -> 0 <= i < 8 * (b - a) -> bit_at (py_slice bitmap a b) i = bit_at bitmap (8 * a + i).
Proof.
  intros Ha Hi. unfold bit_at. pose proof (div8_bounds i).
  replace ((8 * a + i) / 8) with (a + i / 8) by (rewrite Z.mul_comm, Z.div_add_l; lia).
  replace ((8 * a + i) mod 8) with (i mod 8)
    by (rewrite Z.add_comm, Z.mul_comm, Z.mod_add; lia).
  rewrite lookup_py_slice by lia. by rewrite <- Z2Nat.inj_add by lia.
Qed.

(** ** Counting set bits *)

Lemma bit_count_spec n : forall v,
  0 <= v < 2 ^ Z.of_nat n -> bit_count v = count_where (Z.testbit v) 0 (Z.of_nat n).
Proof.
  induction n as [|n IH]; intros v Hv.
  { assert (v = 0) as -> by (change (2 ^ Z.of_nat 0) with 1 in Hv; lia). by rewrite count_where_nil. }
  rewrite Nat2Z.inj_succ, Z.pow_succ_r in Hv by lia.
  rewrite (count_where_split _ 0 1) by lia. change 1 with (0 + 1) at 1 2.
  rewrite count_where_one, Nat2Z.inj_succ. change (Z.succ (Z.of_nat n)) with (Z.of_nat n + 1).
  rewrite count_where_shift.
  assert (Hhalf : count_where (fun x => Z.testbit v (1 + x)) 0 (Z.of_nat n) = bit_count (v / 2)).
  { rewrite IH by (split; [apply Z.div_pos|apply Z.div_lt_upper_bound]; lia).
    apply count_where_ext. intros x Hx. rewrite Z.add_comm. change 2 with (2 ^ 1).
    by rewrite Z.div_pow2_bits by lia. }
  rewrite Hhalf. destruct v as [|p|p]; [done| |lia].
  destruct p as [p|p|]; simpl bit_count.
  - replace (Z.pos p~1 / 2) with (Z.pos p); [done|]. apply Z.div_unique with 1; lia.
  - replace (Z.pos p~0 / 2) with (Z.pos p); [done|]. apply Z.div_unique with 0; lia.
  - done.
Qed.

Lemma bit_count_byte_mask b mask lo hi :
  is_byte b -> 0 <= lo -> hi <= 8 ->
  (forall i, 0 <= i < 8 -> Z.testbit mask i = (lo <=? i) && (i <? hi)) ->
  bit_count (Z.land b mask) = count_where (Z.testbit b) lo hi.
Proof.
  intros Hb Hlo Hhi Hm. destruct (decide (lo <= hi)).
  2:{ rewrite (count_where_nil _ lo hi) by lia.
      replace (Z.land b mask) with 0; [done|]. symmetry. apply Z.bits_inj'. intros i Hi.
      rewrite Z.land_spec, Z.testbit_0_l. destruct (decide (i < 8)).
      - rewrite Hm by lia. ztests; simpl; rewrite ?andb_false_r; try done; lia.
      - by rewrite byte_testbit_high by (done || lia). }
  assert (0 <= Z.land b mask < 2 ^ Z.of_nat 8) as Hr.
  { destruct Hb. split; [apply Z.land_nonneg; by left|].
    destruct (decide (Z.land b mask = 0)) as [->|]; [lia|].
    assert (0 <= Z.land b mask) by (apply Z.land_nonneg; by left).
    apply Z.log2_lt_pow2; [lia|].
    destruct (Z.lt_ge_cases (Z.log2 (Z.land b mask)) 8); [done|exfalso].
    pose proof (Z.bit_log2 (Z.land b mask) ltac:(lia)) as Hbit.
    rewrite Z.land_spec, byte_testbit_high in Hbit by (done || lia). done. }
  rewrite (bit_count_spec 8) by exact Hr. change (Z.of_nat 8) with 8.
  rewrite (count_where_split _ 0 lo 8), (count_where_split _ lo hi 8) by lia.
  rewrite (count_where_none _ 0), (count_where_none _ hi), (count_where_ext _ (Z.testbit b) lo).
  - lia.
  - intros i Hi. rewrite Z.land_spec, Hm by lia. ztests; simpl; rewrite ?andb_true_r; try done; lia.
  - intros i Hi. rewrite Z.land_spec, Hm by lia. ztests; simpl; rewrite ?andb_false_r; try done; lia.
  - intros i Hi. rewrite Z.land_spec, Hm by lia. ztests; simpl; rewrite ?andb_false_r; try done; lia.
Qed.

(** Bits [lo, hi) of one byte are bits [8q+lo, 8q+hi) of the bitmap. *)
Lemma count_byte_bits bitmap q b lo hi :
  bitmap !! Z.to_nat q = Some b -> 0 <= lo -> hi <= 8 ->
  count_where (Z.testbit b) lo hi = count_where (bit_at bitmap) (8 * q + lo) (8 * q + hi).
Proof.
  intros Hb Hlo Hhi. rewrite !(Z.add_comm (8 * q)), count_where_shift.
  apply count_where_ext. intros i Hi. symmetry. apply bit_at_byte; [done|lia].
Qed.

Lemma count_full_bytes bitmap a b :
  wf_bytes bitmap -> 0 <= a <= b -> b <= py_len bitmap ->
  bit_count (le_int (py_slice bitmap a b)) = count_where (bit_at bitmap) (8 * a) (8 * b).
Proof.
  intros Hw Ha Hb. pose proof (wf_bytes_slice bitmap a b Hw) as Hws.
  rewrite (bit_count_spec (Z.to_nat (8 * (b - a)))).
  2:{ pose proof (le_int_bounds _ Hws) as Hl. rewrite py_len_slice in Hl by lia.
      change 256 with (2 ^ 8) in Hl. rewrite <- Z.pow_mul_r in Hl by lia.
      by rewrite Z2Nat.id by lia. }
  rewrite Z2Nat.id by lia.
  replace (8 * a) with (0 + 8 * a) by lia. replace (8 * b) with (8 * (b - a) + 8 * a) by lia.
  rewrite count_where_shift. apply count_where_ext. intros i Hi.
  rewrite testbit_le_int by (done || lia). apply bit_at_slice; lia.
Qed.

Lemma testbit_ones_shift n k i :
  0 <= n -> 0 <= k -> 0 <= i ->
  Z.testbit (Z.shiftl (Z.shiftl 1 n - 1) k) i = (k <=? i) && (i <? k + n).
Proof.
  intros Hn Hk Hi. rewrite Z.shiftl_spec by lia. rewrite Z.shiftl_1_l. change (2 ^ n - 1) with (Z.pred (2 ^ n)). rewrite <- Z.ones_equiv.
  destruct (Z.leb_spec k i); simpl.
  - destruct (Z.ltb_spec i (k + n)); [apply Z.ones_spec_low|apply Z.ones_spec_high]; lia.
  - apply Z.testbit_neg_r. lia.
Qed.

(** The three-part counter of [count_set_bits] counts bit by bit. *)
Lemma count_set_bits_spec bitmap start_bit end_bit :
  wf_bytes bitmap -> 0 <= start_bit -> end_bit <= 8 * py_len bitmap ->
  count_set_bits bitmap start_bit end_bit = Ok (count_where (bit_at bitmap) start_bit end_bit).
Proof.
  intros Hw Hs He. unfold count_set_bits. rewrite !shiftr3, !land7.
  destruct (Z.leb_spec end_bit start_bit); [by rewrite count_where_nil|].
  pose proof (div8_bounds start_bit). pose proof (div8_bounds (end_bit - 1)).
  pose proof (div8_bounds end_bit). pose proof (Z.div_mod start_bit 8).
  pose proof (Z.div_mod end_bit 8). pose proof (Z.mod_pos_bound start_bit 8).
  pose proof (Z.mod_pos_bound end_bit 8).
  destruct (Z.eqb_spec (start_bit / 8) ((end_bit - 1) / 8)) as [Heq|Hne].
  { destruct (py_get_byte bitmap (start_bit / 8)) as (b & -> & Hb & Hbb); [done|lia|]. simpl.
    rewrite (bit_count_byte_mask b _ (start_bit mod 8) (start_bit mod 8 + (end_bit - start_bit)));
      [|done|lia|lia|intros i Hi; apply testbit_ones_shift; lia].
    rewrite (count_byte_bits bitmap _ b _ _ Hb) by lia. do 2 f_equal; lia. }
  (* the partial first byte *)
  assert (Hhead : exists c0 q0, 
    (if start_bit mod 8 =? 0 then Ok (0, start_bit / 8) else
      b ← py_get bitmap (start_bit / 8);
      Ok (bit_count (Z.land b (Z.shiftl 255 (start_bit mod 8))), start_bit / 8 + 1)) = Ok (c0, q0) /\
    start_bit <= 8 * q0 <= end_bit /\ c0 = count_where (bit_at bitmap) start_bit (8 * q0)).
  { destruct (Z.eqb_spec (start_bit mod 8) 0) as [Hz|Hnz].
    - eexists _, _. split; [done|]. split; [lia|]. by rewrite count_where_nil by lia.
    - destruct (py_get_byte bitmap (start_bit / 8)) as (b & -> & Hb & Hbb); [done|lia|].
      eexists _, _. split; [done|]. split; [lia|].
      rewrite (bit_count_byte_mask b _ (start_bit mod 8) 8); [|done|lia|lia|].
      + rewrite (count_byte_bits bitmap _ b _ _ Hb) by lia. f_equal; lia.
      + intros i Hi. change 255 with (Z.shiftl 1 8 - 1). rewrite testbit_ones_shift by lia.
        ztests; simpl; try done; lia. }
  destruct Hhead as (c0 & q0 & -> & Hq0 & ->). simpl.
  (* the whole bytes *)
  assert (Hmid : (if q0 <? end_bit / 8
      then count_where (bit_at bitmap) start_bit (8 * q0) + bit_count (le_int (py_slice bitmap q0 (end_bit / 8)))
      else count_where (bit_at bitmap) start_bit (8 * q0))
    = count_where (bit_at bitmap) start_bit (8 * (end_bit / 8))).
  { destruct (Z.ltb_spec q0 (end_bit / 8)).
    - rewrite count_full_bytes by (done || lia). rewrite <- count_where_split by lia. done.
    - f_equal. lia. }
  rewrite Hmid.
  destruct (Z.eqb_spec (end_bit mod 8) 0) as [Hz|Hnz]; [do 2 f_equal; lia|].
  destruct (py_get_byte bitmap ((end_bit - 1) / 8)) as (b & -> & Hb & Hbb); [done|lia|]. simpl.
  rewrite (bit_count_byte_mask b _ 0 (end_bit mod 8)); [|done|lia|lia|].
  - rewrite (count_byte_bits bitmap _ b _ _ Hb) by lia.
    replace (8 * ((end_bit - 1) / 8) + 0) with (8 * (end_bit / 8)) by lia.
    replace (8 * ((end_bit - 1) / 8) + end_bit mod 8) with end_bit by lia.
    by rewrite <- count_where_split by lia.
  - intros i Hi. rewrite <- (Z.shiftl_0_r (Z.shiftl 1 _ - 1)), testbit_ones_shift by lia.
    ztests; simpl; try done; lia.
Qed.

(** ** Lemmas: changing bits *)

Lemma land_mask v k : 0 <= k -> negb (Z.land v (Z.shiftl 1 k) =? 0) = Z.testbit v k.
Proof.
  intros Hk. rewrite Z.shiftl_1_l. destruct (Z.testbit v k) eqn:E.
  - apply negb_true_iff, Z.eqb_neq. intros H. apply (f_equal (fun x => Z.testbit x k)) in H.
    by rewrite Z.land_spec, E, Z.pow2_bits_true, Z.testbit_0_l in H by lia.
  - apply negb_false_iff, Z.eqb_eq, Z.bits_inj'. intros i Hi. rewrite Z.land_spec, Z.testbit_0_l.
    destruct (decide (i = k)) as [->|]; [by rewrite E|]. by rewrite Z.pow2_bits_false, andb_false_r by lia.
Qed.

Lemma py_set_in {A} (l : list A) i v : 0 <= i < py_len l -> py_set l i v = Ok (<[Z.to_nat i := v]> l).
Proof.
  intros. unfold py_set. rewrite (proj2 (Z.ltb_ge i 0)) by lia. cbv zeta.
  by rewrite (proj2 (Z.ltb_ge i 0)), (proj2 (Z.leb_gt _ i)) by lia.
Qed.

Lemma py_len_insert {A} (l : list A) i v : py_len (<[i := v]> l) = py_len l.
Proof. unfold py_len. by rewrite length_insert. Qed.

Lemma byte_of_bits v : 0 <= v -> (forall n, 8 <= n -> Z.testbit v n = false) -> is_byte v.
Proof.
  intros H0 Hb. split; [done|]. destruct (Z.lt_ge_cases v 256) as [|Hge]; [done|].
  pose proof (Z.bit_log2 v ltac:(lia)) as Ht. rewrite Hb in Ht; [done|].
  apply (Z.log2_le_mono 256) in Hge. done.
Qed.

(** The octet [_set_bit] stores. *)
Definition byte_set (v k : Z) (value : bool) : Z :=
  if value then Z.lor v (Z.shiftl 1 k) else Z.land v (Z.land (Z.lnot (Z.shiftl 1 k)) 255).

Lemma byte_set_bits v k value n :
  is_byte v -> 0 <= k < 8 -> 0 <= n -> Z.testbit (byte_set v k value) n = if n =? k then value else Z.testbit v n.
Proof.
  intros Hv Hk Hn. unfold byte_set. rewrite Z.shiftl_1_l. destruct value.
  - rewrite Z.lor_spec. destruct (Z.eqb_spec n k) as [->|].
    + by rewrite Z.pow2_bits_true, orb_true_r by lia.
    + by rewrite Z.pow2_bits_false, orb_false_r by lia.
  - rewrite !Z.land_spec, Z.lnot_spec by lia. destruct (Z.eqb_spec n k) as [->|].
    + by rewrite Z.pow2_bits_true, andb_false_r by lia.
    + rewrite Z.pow2_bits_false by lia. simpl. destruct (decide (n < 8)).
      * change 255 with (Z.ones 8). by rewrite Z.ones_spec_low, andb_true_r by lia.
      * by rewrite byte_testbit_high by (done || lia).
Qed.

Lemma is_byte_byte_set v k value : is_byte v -> 0 <= k < 8 -> is_byte (byte_set v k value).
Proof.
  intros Hv Hk. apply byte_of_bits.
  - unfold byte_set. destruct value; [apply Z.lor_nonneg|apply Z.land_nonneg; left; apply Hv].
    split; [apply Hv|]. rewrite Z.shiftl_1_l. lia.
  - intros n Hn. rewrite byte_set_bits by (done || lia). rewrite (proj2 (Z.eqb_neq n k)) by lia.
    by apply byte_testbit_high.
Qed.

(** [sets b b' p value]: [b'] is [b] with the clusters of [p] set to [value]. *)
Definition sets (bitmap bitmap' : bytes) (p : Z -> bool) (value : bool) : Prop :=
  wf_bytes bitmap' /\ py_len bitmap' = py_len bitmap /\
  forall i, 0 <= i -> bit_at bitmap' i = if p i then value else bit_at bitmap i.

Lemma sets_trans a b c p q r value :
  sets a b p value -> sets b c q value -> (forall i, 0 <= i -> r i = p i || q i) -> sets a c r value.
Proof.
  intros (W1 & L1 & B1) (W2 & L2 & B2) Hr. split; [done|]. split; [lia|].
  intros i Hi. rewrite B2, B1, Hr by done. by destruct (p i), (q i).
Qed.

Lemma sets_ext a b p q value : sets a b p value -> (forall i, 0 <= i -> q i = p i) -> sets a b q value.
Proof. intros (W & L & B) Hq. split; [done|]. split; [done|]. intros i Hi. by rewrite B, Hq by done. Qed.

Lemma sets_none a p value : wf_bytes a -> (forall i, 0 <= i -> p i = false) -> sets a a p value.
Proof. intros W Hp. split; [done|]. split; [done|]. intros i Hi. by rewrite Hp. Qed.

Definition between (a b i : Z) : bool := (a <=? i) && (i <? b).

Lemma between_spec a b i : between a b i = true <-> a <= i < b.
Proof. unfold between. rewrite andb_true_iff, Z.leb_le, Z.ltb_lt. done. Qed.
