(* ===== verification/AggregateFacts.v ===== *)
(** * Correctness of the map aggregators

    Every counter that [aggregate_ranges], [aggregate_states] and
    [aggregate_bitmap] produce is proved equal to visiting the units of the
    cell one by one ([counts_of]). *)

From S2P Require Import Prelude Bytes Ranges RangesFacts Bitmap.

(** ** Counting a state function *)

Definition counts_of (f : Z -> Z) (a b : Z) : counts :=
  Counts (count_where (fun x => f x =? 0) a b) (count_where (fun x => f x =? 1) a b)
         (count_where (fun x => f x =? 2) a b) (count_where (fun x => f x =? 3) a b).

Lemma add_counts_assoc a b c : add_counts a (add_counts b c) = add_counts (add_counts a b) c.
Proof. unfold add_counts. simpl. f_equal; lia. Qed.

Lemma add_no_counts c : add_counts c no_counts = c.
Proof. destruct c. unfold add_counts. simpl. f_equal; lia. Qed.

Lemma no_counts_add c : add_counts no_counts c = c.
Proof. destruct c. unfold add_counts. simpl. f_equal; lia. Qed.

Lemma bump_add state n c : bump state n c = add_counts c (bump state n no_counts).
Proof. unfold bump. ztests; unfold add_counts; simpl; f_equal; lia. Qed.

Lemma counts_of_nil f a b : b <= a -> counts_of f a b = no_counts.
Proof. intros. unfold counts_of. by rewrite !count_where_nil. Qed.

Lemma counts_of_split f a b c :
  a <= b <= c -> counts_of f a c = add_counts (counts_of f a b) (counts_of f b c).
Proof. intros. unfold counts_of, add_counts. simpl. f_equal; by apply count_where_split. Qed.

Lemma counts_of_ext f g a b :
  (forall x, a <= x < b -> f x = g x) -> counts_of f a b = counts_of g a b.
Proof.
  intros H. unfold counts_of. f_equal; apply count_where_ext; intros x Hx; by rewrite H.
Qed.

Lemma counts_of_const f t a b :
  0 <= t <= 3 -> a <= b -> (forall x, a <= x < b -> f x = t) ->
  counts_of f a b = bump t (b - a) no_counts.
Proof.
  intros Ht Hab Hf. rewrite (counts_of_ext f (fun _ => t)) by done.
  assert (forall k, count_where (fun _ => t =? k) a b = if t =? k then b - a else 0) as E.
  { intros k. destruct (t =? k); [rewrite count_where_all by done; lia|by apply count_where_none]. }
  unfold counts_of. rewrite !E. unfold bump, no_counts. simpl. ztests; f_equal; lia.
Qed.

Lemma counts_total f a b :
  a <= b -> (forall x, a <= x < b -> 0 <= f x <= 3) ->
  n0 (counts_of f a b) + n1 (counts_of f a b) + n2 (counts_of f a b) + n3 (counts_of f a b) = b - a.
Proof.
  intros Hab Hf. simpl. unfold count_where. rewrite <- !zsum_map_add.
  rewrite (zsum_map_ext _ (fun _ => 1)).
  - rewrite zsum_map_const, py_len_range. lia.
  - intros x Hx%elem_of_py_range. specialize (Hf x Hx). ztests; simpl; lia.
Qed.

(** ** State ranges *)

(** The state of a unit: that of the first range containing it, else unknown. *)
Fixpoint state_at (rs : list state_range) (x : Z) : Z :=
  match rs with
  | [] => 2
  | (s, e, t) :: rest => if (s <=? x) && (x <? e) then t else state_at rest x
  end.

Definition ordered_ok (rs : list state_range) : Prop :=
  Forall (fun r : state_range => r.1.1 < r.1.2 /\ 0 <= r.2 <= 3) rs /\
  StronglySorted (fun a b : state_range => a.1.2 <= b.1.1) rs.

Lemma ordered_ok_cons s e t rs :
  ordered_ok ((s, e, t) :: rs) <->
  s < e /\ 0 <= t <= 3 /\ Forall (fun r : state_range => e <= r.1.1) rs /\ ordered_ok rs.
Proof. unfold ordered_ok. rewrite Forall_cons, StronglySorted_cons. simpl. tauto. Qed.

Lemma state_at_below rs x :
  Forall (fun r : state_range => x < r.1.1) rs -> state_at rs x = 2.
Proof.
  induction 1 as [|[[s e] t] rs Hr _ IH]; [done|]. simpl in *.
  by rewrite (proj2 (Z.leb_gt s x)) by lia.
Qed.

Lemma state_at_range rs x : ordered_ok rs -> 0 <= state_at rs x <= 3.
Proof.
  intros [Hf _]. induction Hf as [|[[s e] t] rs Hr _ IH]; simpl in *; [lia|].
  destruct (_ && _); lia.
Qed.

Abbreviation skip_states := (skip_before (fun r : state_range => r.1.2)).

Lemma state_at_skip rs start x : start <= x -> state_at (skip_states start rs) x = state_at rs x.
Proof.
  intros Hx. induction rs as [|[[s e] t] rs IH]; [done|]. simpl.
  destruct (Z.leb_spec e start); [|done]. rewrite IH.
  rewrite (proj2 (Z.ltb_ge x e)) by lia. by rewrite andb_false_r.
Qed.

Lemma skip_states_ok start rs :
  ordered_ok rs ->
  ordered_ok (skip_states start rs) /\ Forall (fun r => start < r.1.2) (skip_states start rs).
Proof.
  induction rs as [|[[s e] t] rs IH]; intros Hok; simpl; [by repeat constructor|].
  pose proof (proj1 (ordered_ok_cons _ _ _ _) Hok) as (Hse & Ht & Hafter & Hrest).
  destruct (Z.leb_spec e start); [auto|]. split; [done|]. constructor; [done|].
  destruct Hrest as [Hp _]. rewrite Forall_forall in Hafter, Hp |- *.
  intros r Hr. specialize (Hafter r Hr). destruct (Hp r Hr). simpl in *. lia.
Qed.

(** The rest of a cell after its last range is unknown. *)
Definition finish_cell (end_ : Z) (p : counts * Z) : counts :=
  if p.2 <? end_ then bump 2 (end_ - p.2) p.1 else p.1.

Lemma finish_cell_add end_ c cursor :
  cursor <= end_ -> finish_cell end_ (c, cursor) = add_counts c (bump 2 (end_ - cursor) no_counts).
Proof.
  intros. unfold finish_cell. simpl. destruct (Z.ltb_spec cursor end_).
  - apply bump_add.
  - replace (end_ - cursor) with 0 by lia. symmetry. apply add_no_counts.
Qed.

Lemma cell_scan_spec start end_ rs : forall cursor c,
  start <= cursor <= end_ -> start < end_ -> ordered_ok rs ->
  Forall (fun r : state_range => start < r.1.2 /\ cursor <= Z.max start r.1.1) rs ->
  finish_cell end_ (cell_scan start end_ cursor c rs)
  = add_counts c (counts_of (state_at rs) cursor end_).
Proof.
  induction rs as [|[[s e] t] rs IH]; intros cursor c Hc Hse Hok Hrs; simpl.
  { rewrite finish_cell_add by lia. f_equal. symmetry. by apply counts_of_const; [lia..|]. }
  apply ordered_ok_cons in Hok as (Hlt & Ht & Hafter & Hok').
  apply Forall_cons in Hrs as [[Hend Hcur] Hrs']. simpl in *.
  assert (Hgap : forall x, x < e -> state_at rs x = 2).
  { intros x Hx. apply state_at_below. eapply Forall_impl; [exact Hafter|]. simpl. lia. }
  destruct (Z.ltb_spec s end_).
  2:{ rewrite finish_cell_add by lia. f_equal. symmetry. apply counts_of_const; [lia..|].
      intros x Hx. rewrite (proj2 (Z.leb_gt s x)) by lia. simpl. apply Hgap. lia. }
  set (os := Z.max start s) in *. set (oe := Z.min end_ e).
  rewrite (proj2 (Z.ltb_lt os oe)) by lia.
  rewrite (counts_of_split _ cursor os end_) by lia.
  rewrite (counts_of_const _ 2 cursor os), (counts_of_split _ os oe end_) by
    (lia || (intros x Hx; rewrite (proj2 (Z.leb_gt s x)) by lia; simpl; apply Hgap; lia)).
  rewrite (counts_of_const _ t os oe) by
    (lia || (intros x Hx; rewrite (proj2 (Z.leb_le s x)), (proj2 (Z.ltb_lt x e)) by lia; done)).
  assert (Hfirst : (if cursor <? os then bump 2 (os - cursor) c else c)
                   = add_counts c (bump 2 (os - cursor) no_counts)).
  { destruct (Z.ltb_spec cursor os); [apply bump_add|].
    replace (os - cursor) with 0 by lia. symmetry. apply add_no_counts. }
  rewrite Hfirst, (bump_add t). rewrite !add_counts_assoc.
  rewrite (Z.max_r cursor oe) by lia.
  destruct (Z.ltb_spec end_ e).
  - rewrite finish_cell_add by lia. rewrite (counts_of_nil _ oe) by lia.
    by replace (end_ - oe) with 0 by lia.
  - rewrite IH; [|lia|lia|done|].
    + f_equal. apply counts_of_ext. intros x Hx.
      rewrite (proj2 (Z.ltb_ge x e)) by lia. by rewrite andb_false_r.
    + rewrite Forall_forall in Hafter, Hrs' |- *. intros r Hr.
      specialize (Hafter r Hr). destruct (Hrs' r Hr). simpl in *. lia.
Qed.

Lemma ranges_cells_spec bounds : forall ordered a b totals,
  ordered_ok ordered -> chained a b bounds ->
  ranges_cells ordered bounds totals =
    (map (fun bd => counts_cell bd (counts_of (state_at ordered) bd.1 bd.2)) bounds,
     add_counts totals (counts_of (state_at ordered) a b)).
Proof.
  induction bounds as [|[s e] bounds IH]; intros ordered a b totals Hok Hch; simpl in *.
  { subst. rewrite counts_of_nil by lia. by rewrite add_no_counts. }
  destruct Hch as (-> & Hlt & Hch). pose proof (chained_le _ _ _ Hch).
  destruct (skip_states_ok a ordered Hok) as [Hsk Hend].
  pose proof (cell_scan_spec a e (skip_states a ordered) a no_counts) as Hscan.
  destruct (cell_scan a e a no_counts (skip_states a ordered)) as [c cursor].
  unfold finish_cell in Hscan. simpl in Hscan. rewrite Hscan; [|lia|lia|done|].
  2:{ eapply Forall_impl; [exact Hend|]. simpl. lia. }
  rewrite no_counts_add. rewrite (IH _ e b) by done.
  assert (Hext : forall lo hi, a <= lo ->
    counts_of (state_at (skip_states a ordered)) lo hi = counts_of (state_at ordered) lo hi).
  { intros lo hi Hlo. apply counts_of_ext. intros x Hx. apply state_at_skip. lia. }
  rewrite !Hext by lia. rewrite <- add_counts_assoc, <- counts_of_split by lia.
  do 2 f_equal. apply map_ext_in. intros bd Hin. f_equal. apply Hext.
  apply chained_sorted in Hch as [Hf _]. rewrite Forall_forall in Hf.
  rewrite <- list_elem_of_In in Hin. specialize (Hf _ Hin). lia.
Qed.

(** ** Normalisation keeps the state of every unit of the volume *)

Definition has_state (rs : list state_range) (x t : Z) : Prop :=
  Exists (fun r : state_range => r.1.1 <= x < r.1.2 /\ r.2 = t) rs.

(** The reversed accumulator of the normalisation loop. *)
Definition normal_inv (total : Z) (acc seen : list state_range) : Prop :=
  ordered_ok (reverse acc) /\ Forall (fun r : state_range => 0 <= r.1.1 /\ r.1.2 <= total) acc /\
  (forall x t, 0 <= x < total -> has_state acc x t <-> has_state seen x t).

Lemma has_state_app a b x t : has_state (a ++ b) x t <-> has_state a x t \/ has_state b x t.
Proof. apply Exists_app. Qed.

Lemma has_state_cons s e t' rs x t :
  has_state ((s, e, t') :: rs) x t <-> (s <= x < e /\ t' = t) \/ has_state rs x t.
Proof. apply Exists_cons. Qed.

Lemma has_state_nil x t : ~ has_state [] x t.
Proof. intros H. inversion H. Qed.

Lemma ordered_ok_snoc rs s e t :
  ordered_ok rs -> s < e -> 0 <= t <= 3 -> Forall (fun r : state_range => r.1.2 <= s) rs ->
  ordered_ok (rs ++ [(s, e, t)]).
Proof.
  intros [Hf Hs] Hse Ht Hle. split.
  - apply Forall_app_2; [done|by apply Forall_singleton].
  - apply StronglySorted_app_2; [|done|repeat constructor].
    intros a b Ha Hb. apply list_elem_of_singleton in Hb as ->. simpl.
    rewrite Forall_forall in Hle. by apply Hle.
Qed.

Lemma ordered_ok_app_l a b : ordered_ok (a ++ b) -> ordered_ok a.
Proof.
  intros [Hf Hs]. split; [by apply Forall_app in Hf as [? _]|].
  by apply StronglySorted_app_1_l in Hs.
Qed.

(** Every earlier range ends where the last one starts, or below. *)
Lemma ordered_ok_last rs s e t :
  ordered_ok (rs ++ [(s, e, t)]) -> s < e /\ Forall (fun r : state_range => r.1.2 <= s) rs.
Proof.
  intros [Hf Hs]. split.
  - apply Forall_app in Hf as [_ Hf]. rewrite Forall_singleton in Hf. by destruct Hf.
  - apply Forall_forall. intros r Hr.
    apply (StronglySorted_app_1_elem_of _ _ _ r (s, e, t) Hs Hr). by apply list_elem_of_singleton.
Qed.

Lemma normalise_step_inv total acc seen r acc' :
  normal_inv total acc seen -> normalise_step total acc r = Ok acc' ->
  normal_inv total acc' (seen ++ [r]).
Proof.
  destruct r as [[s e] t]. unfold normalise_step. intros (Hok & Hb & Hx) E.
  set (start := Z.max 0 (Z.min total s)) in *. set (end_ := Z.max 0 (Z.min total e)) in *.
  assert (Hin : forall x, 0 <= x < total -> start <= x < end_ <-> s <= x < e) by lia.
  destruct (Z.leb_spec end_ start).
  { inv_ok. split; [done|]. split; [done|]. intros x t' Hxt.
    rewrite has_state_app, has_state_cons, Hx by done. rewrite <- (Hin x) by done.
    pose proof (has_state_nil x t'). intuition lia. }
  destruct (negb _) eqn:Est in E; [discriminate E|].
  apply negb_false_iff, bool_decide_eq_true in Est.
  assert (0 <= t <= 3) by (set_unfold; lia).
  assert (Hnew : forall x t', 0 <= x < total ->
    has_state seen x t' \/ (start <= x < end_ /\ t = t') <-> has_state (seen ++ [(s, e, t)]) x t').
  { intros x t' Hxt. rewrite has_state_app, has_state_cons, Hin by done.
    pose proof (has_state_nil x t'). tauto. }
  destruct acc as [|[[ps pe] pt] rest].
  { inv_ok. split; [|split].
    - apply (ordered_ok_snoc []); [by repeat constructor|lia|done|constructor].
    - apply Forall_singleton. simpl. lia.
    - intros x t' Hxt. rewrite <- Hnew, has_state_cons, <- Hx by done. tauto. }
  destruct (start <? pe) eqn:Eov in E; [discriminate E|]. bool_to_prop.
  rewrite reverse_cons in Hok. pose proof (ordered_ok_last _ _ _ _ Hok) as [Hpse Hlast].
  apply Forall_cons in Hb as [[Hb0 Hb1] Hb]. simpl in Hb0, Hb1.
  destruct ((start =? pe) && (t =? pt)) eqn:Ejoin; inv_ok; bool_to_prop; subst.
  - split; [|split].
    + rewrite reverse_cons. apply ordered_ok_snoc; [by apply ordered_ok_app_l in Hok|lia|done|done].
    + constructor; [simpl; lia|done].
    + intros x t' Hxt. rewrite <- Hnew, <- Hx, !has_state_cons by done. intuition lia.
  - split; [|split].
    + rewrite reverse_cons, reverse_cons. apply ordered_ok_snoc; [done|lia|done|].
      apply Forall_app_2; [|by apply Forall_singleton].
      eapply Forall_impl; [exact Hlast|]. simpl. lia.
    + constructor; [simpl; lia|]. by constructor.
    + intros x t' Hxt. rewrite <- Hnew, <- Hx, !has_state_cons by done. tauto.
Qed.

Lemma normalise_fold_inv total l : forall acc seen acc',
  normal_inv total acc seen -> foldM (normalise_step total) acc l = Ok acc' ->
  normal_inv total acc' (seen ++ l).
Proof.
  induction l as [|r l IH]; intros acc seen acc' Hinv E; simpl in E; inv_ok.
  { by rewrite app_nil_r. }
  rewrite (app_assoc seen [r] l : seen ++ r :: l = _). eapply IH; [|done].
  by eapply normalise_step_inv.
Qed.

Lemma ordered_state_at rs x t : ordered_ok rs -> has_state rs x t -> state_at rs x = t.
Proof.
  induction rs as [|[[s e] t'] rs IH]; intros Hok Hh; [by apply has_state_nil in Hh|].
  apply ordered_ok_cons in Hok as (Hse & _ & Hafter & Hok'). apply has_state_cons in Hh. simpl.
  destruct ((s <=? x) && (x <? e)) eqn:E; bool_to_prop.
  - destruct Hh as [[_ ->]|Hh]; [done|]. exfalso. apply Exists_exists in Hh as (r & Hr & Hx & _).
    rewrite Forall_forall in Hafter. specialize (Hafter r Hr). simpl in *. lia.
  - destruct Hh as [[? _]|Hh]; [|auto]. rewrite Z.leb_gt, Z.ltb_ge in E. lia.
Qed.

Lemma state_at_cases rs x : has_state rs x (state_at rs x) \/ (state_at rs x = 2 /\ forall t, ~ has_state rs x t).
Proof.
  induction rs as [|[[s e] t'] rs IH]; simpl; [right; split; [done|]; intros t; apply has_state_nil|].
  destruct ((s <=? x) && (x <? e)) eqn:E; bool_to_prop.
  - left. apply has_state_cons. left. lia.
  - rewrite Z.leb_gt, Z.ltb_ge in E. destruct IH as [?|[? Hn]]; [left; apply has_state_cons; by right|].
    right. split; [done|]. intros t [[? _]|?]%has_state_cons; [lia|by eapply Hn].
Qed.

Lemma normalise_spec ranges total ordered :
  normalise_state_ranges ranges total = Ok ordered ->
  ordered_ok ordered /\ forall x, 0 <= x < total -> state_at ordered x = state_at ranges x.
Proof.
  unfold normalise_state_ranges. intros E.
  destruct (foldM _ [] _) as [acc|] eqn:Ef; simpl in E; inv_ok.
  apply (normalise_fold_inv _ _ _ []) in Ef as (Hok & _ & Hst).
  2:{ split; [by repeat constructor|]. split; [constructor|]. intros x t _. done. }
  split; [done|]. intros x Hx. simpl in Hst.
  assert (Hsame : forall t, has_state (reverse acc) x t <-> has_state ranges x t).
  { intros t. unfold has_state. rewrite (reverse_Permutation acc).
    change (has_state acc x t <-> has_state ranges x t). rewrite Hst by done.
    unfold has_state. by rewrite (py_sorted_perm state_range_leb ranges). }
  destruct (state_at_cases ranges x) as [Hh|[-> Hn]].
  - apply Hsame in Hh. by apply ordered_state_at.
  - destruct (state_at_cases (reverse acc) x) as [Hh|[? _]]; [|done].
    apply Hsame, Hn in Hh. done.
Qed.

(** The cells of a chain lie in it. *)
Lemma chained_elem a b bounds bd : chained a b bounds -> bd ∈ bounds -> a <= bd.1 /\ bd.2 <= b.
Proof.
  revert a. induction bounds as [|[s e] bs IH]; intros a Hch Hin; [by apply elem_of_nil in Hin|]. simpl in Hch.
  destruct Hch as (-> & ? & Hch). pose proof (chained_le _ _ _ Hch). apply elem_of_cons in Hin as [->|Hin]; [simpl; lia|]. specialize (IH _ Hch Hin). lia.
Qed.

Lemma chained_nonempty a b bounds bd : chained a b bounds -> bd ∈ bounds -> bd.1 < bd.2.
Proof. revert a. induction bounds as [|[s e] bounds IH]; intros a H Hb; [by apply elem_of_nil in Hb|]. destruct H as (-> & Hlt & H). apply elem_of_cons in Hb as [->|Hb]; [done|]. by eapply IH. Qed.

Lemma aggregate_ranges_facts (total_units cell_count unit_size : Z) (filesystem : string)
    (ranges : list state_range) (accuracy : string) (dets : details) (r : map_result)
    (Htotal : 1 <= total_units)
    (Hok : aggregate_ranges total_units cell_count unit_size filesystem ranges accuracy dets = Ok r) :
  exists bounds, chained 0 total_units bounds /\
    py_len bounds = clamp_cells cell_count total_units /\
    mr_cells r = map (fun b => counts_cell b (counts_of (state_at ranges) b.1 b.2)) bounds /\
    mr_free_bytes r + mr_used_bytes r + mr_unknown_bytes r = mr_total_bytes r.
Proof.
  unfold aggregate_ranges in Hok. inv_ok.
  destruct (normalise_spec _ _ _ E) as [Hord Hst].
  pose proof (clamp_cells_range cell_count total_units Htotal) as Hclamp.
  set (bounds := cell_bounds total_units (clamp_cells cell_count total_units)) in *.
  assert (Hch : chained 0 total_units bounds) by by apply cell_bounds_chained.
  rewrite (ranges_cells_spec _ _ 0 total_units), no_counts_add in Hok by done. inv_ok.
  exists bounds. split; [done|]. split.
  { unfold bounds, cell_bounds, py_len. rewrite length_map.
    pose proof (py_len_range 0 (clamp_cells cell_count total_units)). unfold py_len in *. lia. }
  split.
  - simpl. apply map_ext_in. intros b Hin. f_equal. apply counts_of_ext. intros x Hx.
    apply Hst. rewrite <- list_elem_of_In in Hin. destruct (chained_elem _ _ _ _ Hch Hin). lia.
  - simpl. rewrite <- !Z.mul_add_distr_r. f_equal.
    pose proof (counts_total (state_at a) 0 total_units ltac:(lia)) as Ht. simpl in Ht.
    rewrite Z.add_assoc, Z.sub_0_r in *. apply Ht. intros x _. by apply state_at_range.
Qed.

(** Disjoint ranges in any order are accepted. *)
Lemma state_range_leb_spec s1 e1 t1 s2 e2 t2 :
  state_range_leb (s1, e1, t1) (s2, e2, t2) = true <-> s1 < s2 \/ (s1 = s2 /\ (e1 < e2 \/ (e1 = e2 /\ t1 <= t2))).
Proof. unfold state_range_leb. by rewrite !orb_true_iff, !andb_true_iff, !orb_true_iff, !andb_true_iff, !Z.ltb_lt, !Z.eqb_eq, Z.leb_le. Qed.

Lemma state_range_leb_total a b : state_range_leb a b = true \/ state_range_leb b a = true.
Proof. destruct a as [[s1 e1] t1], b as [[s2 e2] t2]. rewrite !state_range_leb_spec. lia. Qed.

Lemma state_range_leb_trans a b c : state_range_leb a b = true -> state_range_leb b c = true -> state_range_leb a c = true.
Proof. destruct a as [[s1 e1] t1], b as [[s2 e2] t2], c as [[s3 e3] t3]. rewrite !state_range_leb_spec. lia. Qed.

#[global] Instance state_range_leb_antisym : AntiSymm (=) (fun a b => state_range_leb a b = true).
Proof. intros [[s1 e1] t1] [[s2 e2] t2]. rewrite !state_range_leb_spec. intros. repeat f_equal; lia. Qed.

Lemma ordered_sorted rs : ordered_ok rs -> py_sorted state_range_leb rs = rs.
Proof.
  intros [Hf Hs]. apply (StronglySorted_unique (fun a b => state_range_leb a b = true)); [apply py_sorted_sorted; [apply state_range_leb_total|apply state_range_leb_trans]| |apply py_sorted_perm].
  induction Hs as [|[[s e] t] rs Hs IH Hall]; constructor; apply Forall_cons in Hf as [[Hse _] Hf]; [by apply IH|].
  simpl in Hse. rewrite Forall_forall in Hf, Hall |- *. intros [[s' e'] t'] Hin. specialize (Hall _ Hin). simpl in Hall. unfold state_range_leb.
  by rewrite (proj2 (Z.ltb_lt s s')) by lia.
Qed.

(** The last normalised range ends below what is still to come. *)
Definition room_for (total : Z) (acc rs : list state_range) : Prop :=
  match acc with (_, pe, _) :: _ => pe <= Z.max 0 total /\ Forall (fun r : state_range => pe <= Z.max 0 r.1.1) rs | [] => True end.

Lemma normalise_step_accepts total acc s e t rs :
  ordered_ok ((s, e, t) :: rs) -> room_for total acc ((s, e, t) :: rs) ->
  exists acc', normalise_step total acc (s, e, t) = Ok acc' /\ room_for total acc' rs.
Proof.
  intros Hok Hacc. apply ordered_ok_cons in Hok as (Hse & Ht & Hall & Hok). unfold normalise_step.
  assert (Forall (fun r : state_range => Z.max 0 (Z.min total e) <= Z.max 0 r.1.1) rs) as Hnext by (eapply Forall_impl; [exact Hall|]; cbn; lia).
  destruct (Z.leb_spec (Z.max 0 (Z.min total e)) (Z.max 0 (Z.min total s))) as [Hle|Hlt].
  { eexists. split; [done|]. destruct acc as [|[[ps pe] pt] acc]; [done|]. destruct Hacc as [? Hacc]. split; [done|]. by apply Forall_cons in Hacc as [_ ?]. }
  rewrite (bool_decide_true (t ∈ [0; 1; 2; 3])) by (rewrite !elem_of_cons; lia). cbn [negb].
  destruct acc as [|[[ps pe] pt] acc]; [eexists; split; [done|]; split; [lia|done]|].
  destruct Hacc as [Hpe Hacc]. apply Forall_cons in Hacc as [Hs _]. cbn in Hs. rewrite (proj2 (Z.ltb_ge _ pe)) by lia.
  destruct (_ && _); (eexists; split; [done|]; split; [lia|done]).
Qed.

Lemma normalise_fold_accepts total rs : forall acc, ordered_ok rs -> room_for total acc rs -> exists acc', foldM (normalise_step total) acc rs = Ok acc'.
Proof.
  induction rs as [|[[s e] t] rs IH]; intros acc Hok Hacc; [by eexists|]. cbn [foldM].
  destruct (normalise_step_accepts total acc s e t rs Hok Hacc) as (acc1 & -> & Hroom). cbn [mbind result_bind]. apply IH; [|done]. apply ordered_ok_cons in Hok. tauto.
Qed.

Lemma aggregate_ranges_accepts total_units cell_count unit_size filesystem ranges accuracy dets :
  ordered_ok ranges -> exists r, aggregate_ranges total_units cell_count unit_size filesystem ranges accuracy dets = Ok r.
Proof.
  intros Hok. unfold aggregate_ranges, normalise_state_ranges. rewrite ordered_sorted by done.
  destruct (normalise_fold_accepts total_units ranges [] Hok I) as (acc & ->). cbn [fmap result_fmap mbind result_bind].
  destruct (ranges_cells _ _ _). by eexists.
Qed.

(** C38. When [aggregate_ranges] accepts its ranges, every cell of the map
    holds, for each of the four states, exactly the number of its units in
    that state (units of no range are unknown), the cells tile the volume,
    and the byte totals add up to the size of the volume. *)
Theorem aggregate_ranges_exact (total_units cell_count unit_size : Z) (filesystem : string)
    (ranges : list state_range) (accuracy : string) (dets : details) (r : map_result)
    (Htotal : 1 <= total_units)
    (Hok : aggregate_ranges total_units cell_count unit_size filesystem ranges accuracy dets = Ok r) :
  exists bounds, chained 0 total_units bounds /\
    py_len bounds = clamp_cells cell_count total_units /\
    mr_cells r = map (fun b => counts_cell b (counts_of (state_at ranges) b.1 b.2)) bounds /\
    mr_free_bytes r + mr_used_bytes r + mr_unknown_bytes r = mr_total_bytes r.
Proof. by apply (aggregate_ranges_facts total_units cell_count unit_size filesystem ranges accuracy dets r). Qed.

Lemma aggregate_ranges_exact_witness :
  exists r, aggregate_ranges 10 3 512 "swap" [(0, 1, 2); (1, 6, 0); (6, 7, 3)] "summary" [] = Ok r /\
    exists bounds, chained 0 10 bounds /\ py_len bounds = clamp_cells 3 10 /\
      mr_cells r = map (fun b => counts_cell b (counts_of (state_at [(0, 1, 2); (1, 6, 0); (6, 7, 3)]) b.1 b.2)) bounds /\
      mr_free_bytes r + mr_used_bytes r + mr_unknown_bytes r = mr_total_bytes r.
Proof.
  eexists. split; [vm_compute; reflexivity|].
  eapply (aggregate_ranges_exact 10 3 512 "swap" _ "summary" []); [lia|vm_compute; reflexivity].
Defined.

(** ** Ranges that tile an interval with the values of a state function *)

Fixpoint tiles (f : Z -> Z) (a b : Z) (rs : list state_range) : Prop :=
  match rs with
  | [] => a = b
  | (s, e, t) :: rest => s = a /\ s < e /\ 0 <= t <= 3 /\ (forall x, s <= x < e -> f x = t) /\ tiles f e b rest
  end.

Lemma tiles_le f a b rs : tiles f a b rs -> a <= b.
Proof. revert a. induction rs as [|[[s e] t] rs IH]; intros a; cbn; [lia|]. intros (-> & ? & _ & _ & H). apply IH in H. lia. Qed.

Lemma tiles_app f a b c rs rs' : tiles f a b rs -> tiles f b c rs' -> tiles f a c (rs ++ rs').
Proof. revert a. induction rs as [|[[s e] t] rs IH]; intros a; cbn; [by intros ->|]. intros (-> & ? & ? & ? & H) H'. eauto 10. Qed.

Lemma tiles_one f a b t : a < b -> 0 <= t <= 3 -> (forall x, a <= x < b -> f x = t) -> tiles f a b [(a, b, t)].
Proof. by cbn. Qed.

Lemma tiles_state f a b rs x : tiles f a b rs -> a <= x < b -> state_at rs x = f x.
Proof.
  revert a. induction rs as [|[[s e] t] rs IH]; intros a; cbn; [lia|]. intros (-> & Hse & _ & Hf & H) Hx.
  destruct ((a <=? x) && (x <? e)) eqn:E; bool_to_prop; [by rewrite Hf|]. rewrite (IH e H); [done|]. lia.
Qed.

Lemma tiles_ordered f a b rs : tiles f a b rs -> ordered_ok rs /\ Forall (fun r : state_range => a <= r.1.1) rs.
Proof.
  revert a. induction rs as [|[[s e] t] rs IH]; intros a; cbn; [intros _; split; [by repeat constructor|constructor]|].
  intros (-> & ? & ? & _ & H). destruct (IH e H) as [Hok Hf]. split.
  - apply ordered_ok_cons. done.
  - constructor; [cbn; lia|]. eapply Forall_impl; [exact Hf|]. cbn. lia.
Qed.

(** A map of a tiling is accepted, and its cells count the state function. *)
Lemma aggregate_tiles f total_units cell_count unit_size filesystem ranges accuracy dets :
  1 <= total_units -> tiles f 0 total_units ranges ->
  exists r bounds, aggregate_ranges total_units cell_count unit_size filesystem ranges accuracy dets = Ok r /\
    chained 0 total_units bounds /\ py_len bounds = clamp_cells cell_count total_units /\
    mr_cells r = map (fun b => counts_cell b (counts_of f b.1 b.2)) bounds /\
    mr_free_bytes r + mr_used_bytes r + mr_unknown_bytes r = mr_total_bytes r /\ mr_total_bytes r = total_units * unit_size /\
    mr_details r = dets.
Proof.
  intros Ht H. destruct (tiles_ordered _ _ _ _ H) as [Hok _].
  destruct (aggregate_ranges_accepts total_units cell_count unit_size filesystem ranges accuracy dets Hok) as (r & Hr).
  destruct (aggregate_ranges_facts _ _ _ _ _ _ _ _ Ht Hr) as (bounds & Hch & Hlen & Hcells & Hsum). exists r, bounds.
  assert (mr_total_bytes r = total_units * unit_size /\ mr_details r = dets) as [Hb Hd].
  { unfold aggregate_ranges in Hr. inv_ok. destruct (ranges_cells _ _ _). injection Hr as <-. done. }
  split; [done|]. split; [done|]. split; [done|]. split; [|done]. rewrite Hcells. apply map_ext_in. intros b Hb' %list_elem_of_In. f_equal.
  apply counts_of_ext. intros x Hx. apply (tiles_state f 0 total_units); [done|]. destruct (chained_elem _ _ _ _ Hch Hb'). lia.
Qed.

(** ** Free ranges and their complement *)

(** The byte totals count the states of all units. *)
Lemma aggregate_totals total_units cell_count unit_size filesystem ranges accuracy dets r :
  1 <= total_units -> aggregate_ranges total_units cell_count unit_size filesystem ranges accuracy dets = Ok r ->
  let c := counts_of (state_at ranges) 0 total_units in
  mr_free_bytes r = n0 c * unit_size /\ mr_used_bytes r = n1 c * unit_size /\ mr_unknown_bytes r = (n2 c + n3 c) * unit_size /\ mr_details r = dets.
Proof.
  intros Ht H. unfold aggregate_ranges in H. inv_ok. destruct (normalise_spec _ _ _ E) as [Hord Hst].
  pose proof (clamp_cells_range cell_count total_units Ht) as Hc. pose proof (cell_bounds_chained total_units _ Hc) as Hch.
  rewrite (ranges_cells_spec _ _ 0 total_units), no_counts_add in H by done. injection H as <-.
  rewrite (counts_of_ext (state_at ranges) (state_at a) 0 total_units) by (intros x Hx; symmetry; by apply Hst). done.
Qed.

Section symmetric.
Context {A : Type} (R : A -> A -> Prop) (Hsym : forall x y, R x y -> R y x).

(** Pairwise relations do not depend on the order of the list. *)
Lemma pairwise_perm l k : l ≡ₚ k -> StronglySorted R l -> StronglySorted R k.
Proof.
  induction 1 as [|x l k P IH|x y l|l m k P IH Q IH2]; intros Hs; [done|..|by apply IH2, IH].
  - apply StronglySorted_inv in Hs as [Hs Hx]. constructor; [by apply IH|]. by rewrite <- P.
  - apply StronglySorted_inv in Hs as [Hs Hy]. apply StronglySorted_inv in Hs as [Hs Hx]. apply Forall_cons in Hy as [Hyx Hy].
    constructor; [by constructor|]. constructor; [by apply Hsym|done].
Qed.
End symmetric.

(** Two ranges without a common unit. *)
Definition apart (a b : state_range) : Prop := a.1.2 <= b.1.1 \/ b.1.2 <= a.1.1.

Lemma apart_accepted ranges :
  Forall (fun r : state_range => r.1.1 < r.1.2 /\ 0 <= r.2 <= 3) ranges -> StronglySorted apart ranges ->
  ordered_ok (py_sorted state_range_leb ranges).
Proof.
  intros Hf Hp. split; [by rewrite py_sorted_perm|].
  assert (StronglySorted apart (py_sorted state_range_leb ranges)) as Ha.
  { eapply (pairwise_perm apart); [unfold apart; lia|symmetry; apply py_sorted_perm|done]. }
  assert (Forall (fun r : state_range => r.1.1 < r.1.2 /\ 0 <= r.2 <= 3) (py_sorted state_range_leb ranges)) as Hf' by by rewrite py_sorted_perm.
  pose proof (py_sorted_sorted state_range_leb state_range_leb_total state_range_leb_trans ranges) as Hs.
  induction Hs as [|[[s e] t] l Hs IH Hl]; constructor; apply StronglySorted_inv in Ha as [Ha Hx]; apply Forall_cons in Hf' as [[Hse _] Hf']; [by apply IH|].
  rewrite Forall_forall in Hl, Hx, Hf' |- *. intros [[s' e'] t'] Hin. specialize (Hl _ Hin). specialize (Hx _ Hin). destruct (Hf' _ Hin) as [Hse' _].
  apply state_range_leb_spec in Hl. unfold apart in Hx. cbn in *. lia.
Qed.

Lemma aggregate_apart total_units cell_count unit_size filesystem ranges accuracy dets :
  Forall (fun r : state_range => r.1.1 < r.1.2 /\ 0 <= r.2 <= 3) ranges -> StronglySorted apart ranges ->
  exists r, aggregate_ranges total_units cell_count unit_size filesystem ranges accuracy dets = Ok r.
Proof.
  intros Hf Hp. unfold aggregate_ranges, normalise_state_ranges.
  destruct (normalise_fold_accepts total_units _ [] (apart_accepted ranges Hf Hp) I) as (acc & ->). cbn [fmap result_fmap mbind result_bind].
  destruct (ranges_cells _ _ _). by eexists.
Qed.

Lemma separated_apart t rs : separated rs -> StronglySorted apart (map (fun x : range => (x.1, x.2, t)) rs).
Proof.
  intros [_ Hs]. induction Hs as [|r rs Hs IH Hr]; cbn [map]; constructor; [done|]. apply Forall_map. eapply Forall_impl; [exact Hr|].
  intros x Hx. unfold apart. cbn in *. lia.
Qed.

Lemma state_at_const t rs rest x : state_at (map (fun r : range => (r.1, r.2, t)) rs ++ rest) x = if covered rs x then t else state_at rest x.
Proof.
  induction rs as [|[s e] rs IH]; [done|]. cbn [map app state_at fst snd]. unfold covered in *. cbn [existsb fst snd].
  destruct ((s <=? x) && (x <? e)); [done|]. by rewrite IH.
Qed.

Definition free_or_used (free : list range) (x : Z) : Z := if covered free x then 0 else 1.

(** Free and used ranges that partition the volume: their map is accepted and
    exact. *)
Lemma aggregate_split total_units cell_count unit_size filesystem free used accuracy dets :
  1 <= total_units -> separated free -> separated used -> Forall (fun r : range => 0 <= r.1 /\ r.2 <= total_units) free ->
  (forall x, covers used x <-> 0 <= x < total_units /\ ~ covers free x) ->
  exists r bounds,
    aggregate_ranges total_units cell_count unit_size filesystem
      (map (fun x : range => (x.1, x.2, 0)) free ++ map (fun x : range => (x.1, x.2, 1)) used) accuracy dets = Ok r /\
    chained 0 total_units bounds /\ py_len bounds = clamp_cells cell_count total_units /\
    mr_cells r = map (fun b => counts_cell b (counts_of (free_or_used free) b.1 b.2)) bounds /\
    mr_free_bytes r = count_where (covered free) 0 total_units * unit_size /\
    mr_free_bytes r + mr_used_bytes r = total_units * unit_size /\ mr_unknown_bytes r = 0 /\ mr_details r = dets.
Proof.
  intros Ht Hsep Hsu Hin Hcov.
  set (ranges := map (fun x : range => (x.1, x.2, 0)) free ++ map (fun x : range => (x.1, x.2, 1)) used).
  assert (forall x, 0 <= x < total_units -> state_at ranges x = free_or_used free x) as Hst.
  { intros x Hx. unfold ranges, free_or_used. rewrite state_at_const. destruct (covered free x) eqn:E; [done|].
    rewrite <- (app_nil_r (map _ used)), state_at_const. assert (covered used x = true) as ->; [|done].
    apply covered_spec, Hcov. split; [done|]. rewrite <- covered_spec. by rewrite E. }
  destruct (aggregate_apart total_units cell_count unit_size filesystem ranges accuracy dets) as (r & Hr).
  { destruct Hsep as [Hp _], Hsu as [Hq _]. apply Forall_app_2; apply Forall_map; [eapply Forall_impl; [exact Hp|]|eapply Forall_impl; [exact Hq|]]; intros x Hx; cbn in *; lia. }
  { apply StronglySorted_app_2; [|by apply separated_apart|by apply separated_apart].
    intros a b (x & -> & Hx)%list_elem_of_fmap (y & -> & Hy)%list_elem_of_fmap. unfold apart. cbn.
    destruct (Z.le_gt_cases x.2 y.1) as [|H1]; [by left|]. destruct (Z.le_gt_cases y.2 x.1) as [|H2]; [by right|]. exfalso.
    destruct Hsep as [Hp _], Hsu as [Hq _]. rewrite Forall_forall in Hp, Hq. specialize (Hp x Hx). specialize (Hq y Hy). cbn in Hp, Hq.
    assert (covers used (Z.max x.1 y.1)) as Hcu by (apply Exists_exists; exists y; split; [done|lia]).
    apply Hcov in Hcu as [_ Hcu]. apply Hcu, Exists_exists. exists x. split; [done|]. lia. }
  destruct (aggregate_ranges_facts _ _ _ _ _ _ _ _ Ht Hr) as (bounds & Hch & Hlen & Hcells & _).
  destruct (aggregate_totals _ _ _ _ _ _ _ _ Ht Hr) as (Hf & Hu & Hun & Hd).
  rewrite (counts_of_ext _ _ 0 total_units Hst) in Hf, Hu, Hun. exists r, bounds. split; [done|]. split; [done|]. split; [done|].
  assert (forall p q, (forall x, p x = q x) -> count_where p 0 total_units = count_where q 0 total_units) as Hext by (intros p q H; apply count_where_ext; intros x _; apply H).
  cbn [counts_of n0 n1 n2 n3] in Hf, Hu, Hun. unfold free_or_used in Hf, Hu, Hun.
  rewrite (Hext _ (covered free)) in Hf by (intros x; by destruct (covered free x)).
  rewrite (Hext _ (fun x => negb (covered free x))), count_where_negb in Hu by (lia || (intros x; by destruct (covered free x))).
  rewrite !count_where_none in Hun by (intros x _; by destruct (covered free x)). split.
  - rewrite Hcells. apply map_ext_in. intros b Hb%list_elem_of_In. f_equal. apply counts_of_ext. intros x Hx. apply Hst. destruct (chained_elem _ _ _ _ Hch Hb). lia.
  - split; [done|]. split; [rewrite Hf, Hu; lia|]. split; [lia|done].
Qed.

(** Merging ranges of the volume covers the same units. *)
Lemma merge_covers rs x : Forall (fun r : range => 0 <= r.1) rs -> covers (merge_ranges rs) x <-> covers rs x.
Proof.
  intros Hin. destruct (merge_ranges_facts rs) as [_ ->]. unfold covers. rewrite Exists_exists. rewrite Forall_forall in Hin. split.
  - intros (s & e & Hi & ?). exists (s, e). split; [done|]. cbn. lia.
  - intros ([s e] & Hi & Hx). exists s, e. split; [done|]. specialize (Hin _ Hi). cbn in *. lia.
Qed.

(** Free ranges and their complement. *)
Lemma aggregate_partition total_units cell_count unit_size filesystem free accuracy dets :
  1 <= total_units -> separated free -> Forall (fun r : range => 0 <= r.1 /\ r.2 <= total_units) free ->
  exists used r bounds, complement_ranges total_units free = Ok used /\
    aggregate_ranges total_units cell_count unit_size filesystem
      (map (fun x : range => (x.1, x.2, 0)) free ++ map (fun x : range => (x.1, x.2, 1)) used) accuracy dets = Ok r /\
    chained 0 total_units bounds /\ py_len bounds = clamp_cells cell_count total_units /\
    mr_cells r = map (fun b => counts_cell b (counts_of (free_or_used free) b.1 b.2)) bounds /\
    mr_free_bytes r = count_where (covered free) 0 total_units * unit_size /\
    mr_free_bytes r + mr_used_bytes r = total_units * unit_size /\ mr_unknown_bytes r = 0 /\ mr_details r = dets.
Proof.
  intros Ht Hsep Hin. destruct (complement_facts total_units free ltac:(lia)) as (used & Hc & Hsu & Hcov).
  destruct (aggregate_split total_units cell_count unit_size filesystem free used accuracy dets) as (r & bounds & H); [done..| |by exists used, r, bounds].
  intros x. rewrite Hcov, merge_covers; [done|]. eapply Forall_impl; [exact Hin|]. by intros ? [? _].
Qed.

(** Used ranges and their complement. *)
Lemma aggregate_used total_units cell_count unit_size filesystem used accuracy dets :
  1 <= total_units -> separated used -> Forall (fun r : range => 0 <= r.1 /\ r.2 <= total_units) used ->
  exists free r bounds, complement_ranges total_units used = Ok free /\
    (forall x, covers free x <-> 0 <= x < total_units /\ ~ covers used x) /\
    aggregate_ranges total_units cell_count unit_size filesystem
      (map (fun x : range => (x.1, x.2, 0)) free ++ map (fun x : range => (x.1, x.2, 1)) used) accuracy dets = Ok r /\
    chained 0 total_units bounds /\ py_len bounds = clamp_cells cell_count total_units /\
    mr_cells r = map (fun b => counts_cell b (counts_of (free_or_used free) b.1 b.2)) bounds /\
    mr_free_bytes r = count_where (covered free) 0 total_units * unit_size /\
    mr_free_bytes r + mr_used_bytes r = total_units * unit_size /\ mr_unknown_bytes r = 0 /\ mr_details r = dets.
Proof.
  intros Ht Hsep Hin. destruct (complement_facts total_units used ltac:(lia)) as (free & Hc & Hsf & Hcov).
  assert (forall x, covers free x <-> 0 <= x < total_units /\ ~ covers used x) as Hcov'.
  { intros x. rewrite Hcov, merge_covers; [done|]. eapply Forall_impl; [exact Hin|]. by intros ? [? _]. }
  destruct (aggregate_split total_units cell_count unit_size filesystem free used accuracy dets) as (r & bounds & H); [done|done|done| | |by exists free, r, bounds].
  - destruct Hsf as [Hne _]. rewrite Forall_forall in Hne |- *. intros f Hf. specialize (Hne f Hf). cbn in Hne.
    assert (covers free f.1 /\ covers free (f.2 - 1)) as [H1 H2] by (split; apply Exists_exists; exists f; (split; [done|lia])). apply Hcov' in H1, H2. lia.
  - intros x. rewrite Hcov'. split; [intros Hx; split; [|tauto]|intros [Hx Hno]; destruct (covered used x) eqn:E; [by apply covered_spec|exfalso; apply Hno; split; [done|by rewrite <- covered_spec, E]]].
    apply Exists_exists in Hx as (u & Hu & Hx). rewrite Forall_forall in Hin. specialize (Hin u Hu). cbn in Hin. lia.
Qed.

(** ** Bitmaps *)

(** The state of a unit according to the bitmap: the reserved prefix is
    unknown, then a set bit is used and a clear bit is free. *)
Definition bitmap_state (bitmap : bytes) (reserved_prefix x : Z) : Z :=
  if x <? reserved_prefix then 2 else if bit_at bitmap (x - reserved_prefix) then 1 else 0.

Lemma bitmap_cell_spec bitmap reserved s e :
  wf_bytes bitmap -> 0 <= reserved -> 0 <= s < e -> e - reserved <= 8 * py_len bitmap ->
  bitmap_cell bitmap reserved (s, e) = Ok (counts_cell (s, e) (counts_of (bitmap_state bitmap reserved) s e)).
Proof.
  intros Hw Hr Hse Hlen. unfold bitmap_cell. set (d := Z.max s reserved).
  assert (Hpre : counts_of (bitmap_state bitmap reserved) s (Z.min e d)
                 = bump 2 (Z.min e d - s) no_counts).
  { apply counts_of_const; [lia..|]. intros x Hx. unfold bitmap_state.
    by rewrite (proj2 (Z.ltb_lt x reserved)) by lia. }
  destruct (Z.eqb_spec (Z.max 0 (e - d)) 0) as [Hz|Hnz].
  { simpl. rewrite (Z.min_l e d) in Hpre by lia. rewrite Hpre. unfold counts_cell. simpl. do 2 f_equal; lia. }
  rewrite Z.min_r in Hpre by lia.
  rewrite count_set_bits_spec by (done || lia). simpl.
  rewrite (counts_of_split _ s d e), Hpre by lia.
  assert (Hused : count_where (bit_at bitmap) (d - reserved) (e - reserved)
                  = count_where (fun x => bit_at bitmap (x - reserved)) d e).
  { replace d with ((d - reserved) + reserved) at 2 by lia.
    replace e with ((e - reserved) + reserved) at 2 by lia.
    rewrite count_where_shift. apply count_where_ext. intros x _. f_equal. lia. }
  assert (Hbits : counts_of (bitmap_state bitmap reserved) d e =
    Counts ((e - d) - count_where (fun x => bit_at bitmap (x - reserved)) d e)
           (count_where (fun x => bit_at bitmap (x - reserved)) d e) 0 0).
  { unfold counts_of. rewrite <- count_where_negb by lia.
    f_equal; [apply count_where_ext|apply count_where_ext|apply count_where_none|apply count_where_none];
      intros x Hx; unfold bitmap_state; rewrite (proj2 (Z.ltb_ge x reserved)) by lia;
      by destruct (bit_at _ _). }
  rewrite Hbits, Hused. unfold counts_cell, add_counts. simpl. do 2 f_equal; lia.
Qed.

Lemma bitmap_cells_spec bitmap reserved bounds : forall a b,
  wf_bytes bitmap -> 0 <= reserved -> 0 <= a -> b - reserved <= 8 * py_len bitmap -> chained a b bounds ->
  mapM_result (bitmap_cell bitmap reserved) bounds =
    Ok (map (fun bd => counts_cell bd (counts_of (bitmap_state bitmap reserved) bd.1 bd.2)) bounds).
Proof.
  induction bounds as [|[s e] bounds IH]; intros a b Hw Hr Ha Hb Hch; [done|]. simpl in Hch.
  destruct Hch as (-> & Hlt & Hch). pose proof (chained_le _ _ _ Hch).
  cbn [mapM_result map fst snd]. rewrite bitmap_cell_spec by (done || lia).
  by rewrite (IH e b) by (done || lia).
Qed.

(** Summing a counter over the cells of a chain counts the whole span. *)
Lemma chained_counts (get : counts -> Z) f bounds : forall a b,
  get no_counts = 0 -> (forall x y, get (add_counts x y) = get x + get y) -> chained a b bounds ->
  zsum (map (fun bd => get (counts_of f bd.1 bd.2)) bounds) = get (counts_of f a b).
Proof.
  induction bounds as [|[s e] bounds IH]; intros a b H0 Hadd Hch; simpl in *.
  { subst. by rewrite counts_of_nil by lia. }
  destruct Hch as (-> & Hlt & Hch). pose proof (chained_le _ _ _ Hch).
  rewrite (IH e b) by done. by rewrite (counts_of_split f a e b), Hadd by lia.
Qed.

Lemma aggregate_bitmap_facts (bitmap : bytes) (total_units cell_count unit_size : Z)
    (filesystem : string) (reserved_prefix : Z) (dets : details)
    (Hbytes : wf_bytes bitmap) (Htotal : 1 <= total_units) (Hres : 0 <= reserved_prefix)
    (Hlen : total_units - reserved_prefix <= 8 * py_len bitmap) :
  exists r bounds,
    aggregate_bitmap bitmap total_units cell_count unit_size filesystem reserved_prefix dets = Ok r /\
    chained 0 total_units bounds /\
    mr_cells r = map (fun b => counts_cell b (counts_of (bitmap_state bitmap reserved_prefix) b.1 b.2)) bounds /\
    mr_used_bytes r = unit_size * count_where (fun x => bitmap_state bitmap reserved_prefix x =? 1) 0 total_units /\
    mr_free_bytes r + mr_used_bytes r + mr_unknown_bytes r = mr_total_bytes r.
Proof.
  unfold aggregate_bitmap. rewrite (proj2 (Z.ltb_ge _ _)) by lia.
  pose proof (clamp_cells_range cell_count total_units Htotal) as Hclamp.
  set (bounds := cell_bounds total_units (clamp_cells cell_count total_units)).
  assert (Hch : chained 0 total_units bounds) by by apply cell_bounds_chained.
  rewrite (bitmap_cells_spec bitmap reserved_prefix bounds 0 total_units) by (done || lia).
  eexists _, bounds. split; [done|]. split; [done|]. split; [done|].
  unfold new_map_result. simpl. rewrite !map_map. simpl.
  set (f := bitmap_state bitmap reserved_prefix).
  pose proof (chained_counts n0 f bounds 0 total_units eq_refl (fun _ _ => eq_refl) Hch) as H0.
  pose proof (chained_counts n1 f bounds 0 total_units eq_refl (fun _ _ => eq_refl) Hch) as H1.
  pose proof (chained_counts n2 f bounds 0 total_units eq_refl (fun _ _ => eq_refl) Hch) as H2.
  simpl in H0, H1, H2. rewrite H0, H1, H2. split; [lia|].
  rewrite Z.add_0_r, <- !Z.mul_add_distr_r. f_equal.
  pose proof (counts_total f 0 total_units ltac:(lia)) as Ht. simpl in Ht.
  assert (count_where (fun x => f x =? 3) 0 total_units = 0) as H3.
  { apply count_where_none. intros x _. unfold f, bitmap_state. destruct (x <? _); [done|]. by destruct (bit_at _ _). }
  rewrite H3 in Ht. rewrite Z.add_0_r, Z.sub_0_r in Ht. apply Ht.
  intros x _. unfold f, bitmap_state. destruct (x <? _); [lia|]. destruct (bit_at _ _); lia.
Qed.

(** For a bitmap long enough for the volume, [aggregate_bitmap]
    succeeds, its cells tile the volume, every cell holds exactly the free,
    used and unknown units the bitmap shows for it one by one, and the byte
    totals add up to the size of the volume. *)
Theorem aggregate_bitmap_exact (bitmap : bytes) (total_units cell_count unit_size : Z)
    (filesystem : string) (reserved_prefix : Z) (dets : details)
    (Hbytes : wf_bytes bitmap) (Htotal : 1 <= total_units) (Hres : 0 <= reserved_prefix)
    (Hlen : total_units - reserved_prefix <= 8 * py_len bitmap) :
  exists r bounds,
    aggregate_bitmap bitmap total_units cell_count unit_size filesystem reserved_prefix dets = Ok r /\
    chained 0 total_units bounds /\
    mr_cells r = map (fun b => counts_cell b (counts_of (bitmap_state bitmap reserved_prefix) b.1 b.2)) bounds /\
    mr_used_bytes r = unit_size * count_where (fun x => bitmap_state bitmap reserved_prefix x =? 1) 0 total_units /\
    mr_free_bytes r + mr_used_bytes r + mr_unknown_bytes r = mr_total_bytes r.
Proof. by apply aggregate_bitmap_facts. Qed.

Lemma aggregate_bitmap_exact_witness :
  exists r bounds, aggregate_bitmap [240; 15] 14 4 4096 "exfat" 0 [] = Ok r /\ chained 0 14 bounds /\
    mr_cells r = map (fun b => counts_cell b (counts_of (bitmap_state [240; 15] 0) b.1 b.2)) bounds /\
    mr_used_bytes r = 4096 * count_where (fun x => bitmap_state [240; 15] 0 x =? 1) 0 14 /\
    mr_free_bytes r + mr_used_bytes r + mr_unknown_bytes r = mr_total_bytes r.
Proof.
  apply (aggregate_bitmap_exact [240; 15] 14 4 4096 "exfat" 0 []).
  - repeat constructor; simpl; lia.
  - lia.
  - lia.
  - unfold py_len. simpl. lia.
Defined.

(** ** Counts of a map *)

(** A cell holds the units of a range, with so many used and free ones. *)
Definition counted (used free : Z -> bool) (b : range) (c : cell) : Prop :=
  c_start c = b.1 /\ c_end c = b.2 - 1 /\ c_used c = count_where used b.1 b.2 /\ c_free c = count_where free b.1 b.2.

(** Cells that differ in what is laid over them only. *)
Definition same_counts (c c' : cell) : Prop := c_start c' = c_start c /\ c_end c' = c_end c /\ c_free c' = c_free c /\ c_used c' = c_used c.

Lemma same_counts_refl l : Forall2 same_counts l l.
Proof. apply Forall_Forall2_diag, Forall_forall. done. Qed.

Lemma same_counts_trans l k m : Forall2 same_counts l k -> Forall2 same_counts k m -> Forall2 same_counts l m.
Proof.
  intros H1. revert m. induction H1 as [|x y l k (? & ? & ? & ?) _ IH]; intros m Hk; inversion Hk as [|y' z k' m' (? & ? & ? & ?) Hm]; subst; constructor; [|by apply IH].
  unfold same_counts. repeat split; congruence.
Qed.

Lemma overlay_cells_same f l : forall merged, Forall2 same_counts l (overlay_cells f merged l).
Proof. induction l as [|c l IH]; intros merged; cbn [overlay_cells]; constructor; [by destruct f|apply IH]. Qed.

Lemma map_cells_same g l : (forall c, same_counts c (g c)) -> Forall2 same_counts l (map g l).
Proof. intros Hg. apply Forall2_fmap_r, Forall_Forall2_diag, Forall_forall. auto. Qed.

(** What a map made from a bitmap counts, whatever is laid over it. *)
Lemma bitmap_map_counts bitmap n cell_count unit_size filesystem dets base cells used free :
  wf_bytes bitmap -> 1 <= n -> aggregate_bitmap bitmap n cell_count unit_size filesystem 0 dets = Ok base -> Forall2 same_counts (mr_cells base) cells ->
  (forall x, 0 <= x < n -> used x = bit_at bitmap x /\ free x = negb (bit_at bitmap x)) ->
  exists bounds, chained 0 n bounds /\ Forall2 (counted used free) bounds cells.
Proof.
  intros Hw Hn Hagg Hsame Hbits. assert (n <= 8 * py_len bitmap) as Hl.
  { unfold aggregate_bitmap in Hagg. destruct (Z.ltb_spec (py_len bitmap * 8) (n - 0)); [done|lia]. }
  destruct (aggregate_bitmap_facts bitmap n cell_count unit_size filesystem 0 dets) as (r & bounds & Hr & Hch & Hcells & _); [done|lia..|].
  rewrite Hagg in Hr. injection Hr as <-. exists bounds. split; [done|]. rewrite Hcells in Hsame. apply (Forall2_fmap_l (fun b => counts_cell b _)) in Hsame.
  apply Forall2_same_length_lookup. split; [exact (Forall2_length _ _ _ Hsame)|]. intros i b c Hb Hc. eapply Forall2_lookup_lr in Hsame as (S1 & S2 & S3 & S4); [|exact Hb|exact Hc].
  pose proof (chained_elem _ _ _ b Hch (list_elem_of_lookup_2 _ _ _ Hb)) as Hin. unfold counted. rewrite S1, S2, S3, S4. cbn. repeat split; apply count_where_ext; intros x Hx;
    destruct (Hbits x ltac:(lia)) as [Hu Hf]; rewrite ?Hu, ?Hf; unfold bitmap_state; rewrite (proj2 (Z.ltb_ge x 0)) by lia; rewrite Z.sub_0_r; by destruct (bit_at bitmap x).
Qed.

(** ** State streams *)

(** State number [x] of a stream: unknown when missing or out of range. *)
Definition stream_state (states : list Z) (x : Z) : Z :=
  match states !! Z.to_nat x with
  | Some s => if (0 <=? s) && (s <=? 3) then s else 2
  | None => 2
  end.

Lemma stream_state_drop states k x :
  0 <= k -> 0 <= x -> stream_state (drop (Z.to_nat k) states) x = stream_state states (k + x).
Proof. intros. unfold stream_state. rewrite lookup_drop. by rewrite Z2Nat.inj_add by lia. Qed.

Lemma counts_of_shift f a b k :
  counts_of f (a + k) (b + k) = counts_of (fun x => f (k + x)) a b.
Proof. unfold counts_of. by rewrite !count_where_shift. Qed.

Lemma consume_states_spec n : forall values c,
  consume_states n values c =
    (drop n values, add_counts c (counts_of (stream_state values) 0 (Z.of_nat n))).
Proof.
  induction n as [|n IH]; intros values c; simpl consume_states.
  { rewrite counts_of_nil by lia. by rewrite add_no_counts. }
  rewrite (counts_of_split _ 0 1 (Z.of_nat (S n))) by lia.
  assert (Hone : forall t, 0 <= t <= 3 -> stream_state values 0 = t ->
            counts_of (stream_state values) 0 1 = bump t 1 no_counts).
  { intros t Ht Hst. rewrite (counts_of_const _ t) by (done || (intros x Hx; by replace x with 0 by lia)). done. }
  assert (Hrest : counts_of (stream_state values) 1 (Z.of_nat (S n))
                  = counts_of (stream_state (drop 1 values)) 0 (Z.of_nat n)).
  { replace (Z.of_nat (S n)) with (Z.of_nat n + 1) by lia.
    replace (counts_of (stream_state values) 1 (Z.of_nat n + 1))
      with (counts_of (stream_state values) (0 + 1) (Z.of_nat n + 1)) by done.
    rewrite counts_of_shift. apply counts_of_ext. intros x Hx.
    change (drop 1 values) with (drop (Z.to_nat 1) values). by rewrite stream_state_drop by lia. }
  destruct values as [|v vs]; rewrite IH, bump_add, <- add_counts_assoc, Hrest.
  - rewrite (Hone 2) by (done || lia). by rewrite drop_nil.
  - simpl drop. set (t := if (0 <=? v) && (v <=? 3) then v else 2).
    rewrite (Hone t); [done| |done].
    unfold t. destruct ((0 <=? v) && (v <=? 3)) eqn:E; bool_to_prop; lia.
Qed.

Lemma states_cells_spec states bounds : forall a b totals,
  0 <= a -> chained a b bounds ->
  states_cells (drop (Z.to_nat a) states) a bounds totals =
    (map (fun bd => counts_cell bd (counts_of (stream_state states) bd.1 bd.2)) bounds,
     add_counts totals (counts_of (stream_state states) a b)).
Proof.
  induction bounds as [|[s e] bounds IH]; intros a b totals Ha Hch; simpl in *.
  { subst. rewrite counts_of_nil by lia. by rewrite add_no_counts. }
  destruct Hch as (-> & Hlt & Hch). pose proof (chained_le _ _ _ Hch).
  rewrite consume_states_spec, no_counts_add, drop_drop, <- Z2Nat.inj_add by lia.
  replace (a + (e - a)) with e by lia. rewrite Z.max_r by lia. rewrite (IH e b) by (done || lia).
  assert (Hcell : counts_of (stream_state (drop (Z.to_nat a) states)) 0 (Z.of_nat (Z.to_nat (e - a)))
                  = counts_of (stream_state states) a e).
  { rewrite Z2Nat.id by lia. replace (counts_of (stream_state states) a e)
      with (counts_of (stream_state states) (0 + a) ((e - a) + a)) by (f_equal; lia).
    rewrite counts_of_shift. apply counts_of_ext. intros x Hx. by rewrite stream_state_drop by lia. }
  rewrite Hcell. by rewrite <- add_counts_assoc, <- counts_of_split by lia.
Qed.

(** [aggregate_states] consumes the stream once and gives every cell the
    exact number of its units in each state, counting missing trailing states
    and values outside 0..3 as unknown and ignoring surplus states. *)
Theorem aggregate_states_exact (states : list Z) (total_units cell_count unit_size : Z)
    (filesystem accuracy : string) (dets : details) (Htotal : 1 <= total_units) :
  exists bounds, chained 0 total_units bounds /\
    let r := aggregate_states states total_units cell_count unit_size filesystem accuracy dets in
    mr_cells r = map (fun b => counts_cell b (counts_of (stream_state states) b.1 b.2)) bounds /\
    mr_free_bytes r = count_where (fun x => stream_state states x =? 0) 0 total_units * unit_size.
Proof.
  pose proof (clamp_cells_range cell_count total_units Htotal) as Hclamp.
  set (bounds := cell_bounds total_units (clamp_cells cell_count total_units)).
  assert (Hch : chained 0 total_units bounds) by by apply cell_bounds_chained.
  exists bounds. split; [done|]. unfold aggregate_states. fold bounds.
  pose proof (states_cells_spec states bounds 0 total_units no_counts ltac:(lia) Hch) as Hs.
  change (drop (Z.to_nat 0) states) with states in Hs. rewrite Hs, no_counts_add. done.
Qed.

Lemma aggregate_states_exact_witness :
  exists bounds, chained 0 7 bounds /\
    let r := aggregate_states [0; 1; 1; 9; 3] 7 3 512 "x" "exact" [] in
    mr_cells r = map (fun b => counts_cell b (counts_of (stream_state [0; 1; 1; 9; 3]) b.1 b.2)) bounds /\
    mr_free_bytes r = count_where (fun x => stream_state [0; 1; 1; 9; 3] x =? 0) 0 7 * 512.
Proof. apply (aggregate_states_exact [0; 1; 1; 9; 3] 7 3 512 "x" "exact" []). lia. Defined.
