(* ===== verification/NtfsRuns.v ===== *)
(** * NTFS run lists

    Models the run-list layer of [src/gui/ntfs_engine.py]: the [Run] record,
    the variable-width integers of the mapping-pairs array, its encoder and
    decoder, [_coalesce_runs], and the generators that cut a stream or a move
    into physical pieces.  The theorems state the encode/decode round trip,
    that decoding terminates on every byte string, that coalescing is a
    canonical form of the cluster mapping, and that the live-map slices
    describe exactly the cluster-by-cluster move. *)

From S2P Require Import Prelude Bytes Bitmap.

(** [Run(lcn, length)]; [None] is a sparse run. *)
Record Run := mkRun { lcn : option Z; length_of : Z }.

#[global] Instance Run_eq_dec : EqDecision Run.
Proof. solve_decision. Defined.

(** [sum(run.length for run in runs)] *)
Definition runs_length (runs : list Run) : Z := zsum (map length_of runs).

(** ** Mapping-pair integers *)

(** [int.to_bytes(size, "little", signed=True)] *)
Definition to_bytes_signed (size : nat) (value : Z) : result bytes :=
  if (value <? - 2 ^ (8 * Z.of_nat size - 1)) || (2 ^ (8 * Z.of_nat size - 1) <=? value)
  then raise OverflowError "int too big to convert"
  else Ok (le_digits size (value mod 2 ^ (8 * Z.of_nat size))).

(** The [for size in range(1, 9)] loop of [_signed_min_bytes]. *)
Fixpoint signed_min_from (sizes : list nat) (value : Z) : result bytes :=
  match sizes with
  | [] => raise NtfsCompactError "NTFS runlist delta exceeds 64-bit encoding"
  | size :: rest =>
      match to_bytes_signed size value with
      | Ok encoded => if le_sint encoded =? value then Ok encoded else signed_min_from rest value
      | Raise _ => signed_min_from rest value
      end
  end.

Definition _signed_min_bytes (value : Z) : result bytes := signed_min_from (seq 1 8) value.

(** [value.bit_length()] of a positive integer *)
Definition bit_length (value : Z) : Z := if value =? 0 then 0 else Z.log2 (Z.abs value) + 1.

Definition _unsigned_min_bytes (value : Z) : result bytes :=
  check value <=? 0 # NtfsCompactError "NTFS run length must be positive";
  let size := Z.max 1 ((bit_length value + 7) / 8) in
  let encoded := le_digits (Z.to_nat size) value in
  top ← py_get encoded (-1);
  let encoded := if negb (Z.land top 128 =? 0) then encoded ++ [0] else encoded in
  check 8 <? py_len encoded # NtfsCompactError "NTFS run length exceeds signed 64-bit encoding";
  Ok encoded.

(** ** The mapping-pairs array *)

(** The [while pos < len(data)] loop of [_decode_runlist]; every iteration
    advances [pos], so [length data] iterations are enough. *)
Fixpoint decode_loop (fuel : nat) (data : bytes) (pos previous_lcn : Z) (acc : list Run)
    : result (list Run) :=
  if pos <? py_len data then
    match fuel with
    | O => raise OutOfFuel "_decode_runlist"
    | S fuel' =>
        header ← py_get data pos;
        let pos := pos + 1 in
        if header =? 0 then Ok acc else
        let length_size := Z.land header 15 in
        let offset_size := Z.shiftr header 4 in
        check (length_size =? 0) || (8 <? length_size) || (8 <? offset_size)
              || (py_len data <? pos + length_size + offset_size)
          # NtfsCompactError "invalid NTFS mapping-pairs array";
        let len := le_sint (py_slice data pos (pos + length_size)) in
        let pos := pos + length_size in
        check len <=? 0 # NtfsCompactError "invalid non-positive NTFS run length";
        if offset_size =? 0 then
          decode_loop fuel' data pos previous_lcn (acc ++ [mkRun None len])
        else
          let delta := le_sint (py_slice data pos (pos + offset_size)) in
          let pos := pos + offset_size in
          let previous_lcn := previous_lcn + delta in
          check previous_lcn <? 0 # NtfsCompactError "invalid negative NTFS logical cluster number";
          decode_loop fuel' data pos previous_lcn (acc ++ [mkRun (Some previous_lcn) len])
    end
  else raise NtfsCompactError "unterminated NTFS mapping-pairs array".

Definition _decode_runlist (data : bytes) : result (list Run) :=
  decode_loop (length data) data 0 0 [].

(** The body of the [for run in runs] loop of [_encode_runlist]. *)
Definition encode_run (state : Z * bytes) (run : Run) : result (Z * bytes) :=
  let '(previous_lcn, output) := state in
  length_bytes ← _unsigned_min_bytes (length_of run);
  '(offset_bytes, previous_lcn) ←
    match lcn run with
    | None => Ok ([], previous_lcn)
    | Some l => ob ← _signed_min_bytes (l - previous_lcn); Ok (ob, l)
    end;
  Ok (previous_lcn,
      output ++ [Z.lor (Z.shiftl (py_len offset_bytes) 4) (py_len length_bytes)]
             ++ length_bytes ++ offset_bytes).

Definition _encode_runlist (runs : list Run) : result bytes :=
  '(_, output) ← foldM encode_run (0, []) runs;
  Ok (output ++ [0]).

(** ** Coalescing *)

(** One iteration of [_coalesce_runs]; [merged] is kept newest first. *)
Definition coalesce_push (merged : list Run) (run : Run) : list Run :=
  if length_of run <=? 0 then merged else
  match merged with
  | previous :: older =>
      match lcn previous, lcn run with
      | Some p, Some l =>
          if p + length_of previous =? l
          then mkRun (Some p) (length_of previous + length_of run) :: older
          else run :: merged
      | None, None => mkRun None (length_of previous + length_of run) :: older
      | _, _ => run :: merged
      end
  | [] => [run]
  end.

Definition _coalesce_runs (runs : list Run) : list Run :=
  rev (fold_left coalesce_push runs []).

Definition is_physical (run : Run) : bool :=
  match lcn run with Some _ => true | None => false end.

Definition _physical_fragment_count (runs : list Run) : Z :=
  py_len (filter is_physical (_coalesce_runs runs)).

(** ** Physical pieces of a stream *)

(** What a generator yields before it returns or raises. *)
Record generated (A : Type) := Generated { yielded : list A; raised : option exn }.
Arguments Generated {A} yielded raised.
Arguments yielded {A} g.
Arguments raised {A} g.

Definition gen_cons {A} (x : A) (g : generated A) : generated A :=
  Generated (x :: yielded g) (raised g).

(** The [for run in runs] loop of [_stream_segments]. *)
Fixpoint segments_loop (runs : list Run) (cluster_size cursor remaining wanted : Z)
    : generated (Z * Z) :=
  match runs with
  | [] => Generated []
      (if remaining =? 0 then None
       else Some (Exn NtfsCompactError "NTFS stream runlist is shorter than requested range"))
  | run :: rest =>
      let run_bytes := length_of run * cluster_size in
      if cursor + run_bytes <=? wanted
      then segments_loop rest cluster_size (cursor + run_bytes) remaining wanted
      else
        let within := Z.max 0 (wanted - cursor) in
        let take := Z.min remaining (run_bytes - within) in
        match lcn run with
        | None => Generated [] (Some (Exn NtfsCompactError "sparse run encountered in a metadata stream"))
        | Some l =>
            gen_cons (l * cluster_size + within, take)
              (if remaining - take =? 0 then Generated [] None
               else segments_loop rest cluster_size (cursor + run_bytes) (remaining - take) (wanted + take))
        end
  end.

Definition _stream_segments (runs : list Run) (cluster_size logical_offset len : Z)
    : generated (Z * Z) :=
  if (logical_offset <? 0) || (len <? 0)
  then Generated [] (Some (Exn NtfsCompactError "negative NTFS stream range"))
  else segments_loop runs cluster_size 0 len logical_offset.

(** ** Live-map slices of a move *)

Definition nonzero_length (run : Run) : bool := negb (length_of run =? 0).

(** The two-cursor loop of [_iter_physical_move_slices]; the remaining runs
    stand for the two indices. *)
Fixpoint slices_loop (fuel : nat) (sources destinations : list Run) (source_offset destination_offset : Z)
    : generated (Z * Z * Z) :=
  match sources, destinations with
  | source :: srest, destination :: drest =>
      match fuel with
      | O => Generated [] (Some (Exn OutOfFuel "_iter_physical_move_slices"))
      | S fuel' =>
          match lcn source, lcn destination with
          | Some sl, Some dl =>
              let take := Z.min (length_of source - source_offset) (length_of destination - destination_offset) in
              if take <=? 0
              then Generated [] (Some (Exn NtfsCompactError "invalid zero-length NTFS live-map slice"))
              else
                let source_offset' := source_offset + take in
                let destination_offset' := destination_offset + take in
                let '(sources', so) := if source_offset' =? length_of source then (srest, 0) else (sources, source_offset') in
                let '(destinations', d_o) := if destination_offset' =? length_of destination then (drest, 0)
                                             else (destinations, destination_offset') in
                gen_cons (sl + source_offset, dl + destination_offset, take)
                  (slices_loop fuel' sources' destinations' so d_o)
          | _, _ => Generated [] (Some (Exn NtfsCompactError "live map cannot describe sparse NTFS move runs"))
          end
      end
  | [], [] => Generated [] None
  | _, _ => Generated [] (Some (Exn NtfsCompactError "NTFS live-map source and destination lengths disagree"))
  end.

Definition _iter_physical_move_slices (source_runs destination_runs : list Run) : generated (Z * Z * Z) :=
  let sources := filter nonzero_length source_runs in
  let destinations := filter nonzero_length destination_runs in
  slices_loop (length sources + length destinations) sources destinations 0 0.

(** ** Lemmas: signed little-endian integers *)

Lemma pow256 n : 0 <= n -> 256 ^ n = 2 ^ (8 * n).
Proof. intros. change 256 with (2 ^ 8). by rewrite <- Z.pow_mul_r by lia. Qed.

Lemma pow2_half n : 0 < n -> 2 ^ (8 * n) = 2 * 2 ^ (8 * n - 1).
Proof. intros. rewrite <- Z.pow_succ_r by lia. f_equal. lia. Qed.

Lemma le_sint_digits size v :
  (0 < size)%nat -> - 2 ^ (8 * Z.of_nat size - 1) <= v < 2 ^ (8 * Z.of_nat size - 1) ->
  le_sint (le_digits size (v mod 2 ^ (8 * Z.of_nat size))) = v.
Proof.
  intros Hs Hv. unfold le_sint. rewrite le_int_digits, py_len_le_digits, pow256 by lia.
  rewrite Z.mod_mod by lia. rewrite (proj2 (Z.ltb_lt 0 _)) by lia.
  pose proof (pow2_half (Z.of_nat size) ltac:(lia)) as Hp. simpl andb.
  destruct (decide (0 <= v)).
  - rewrite (Z.mod_small v) by lia. by rewrite (proj2 (Z.leb_gt _ _)) by lia.
  - rewrite <- (Z.mod_unique v (2 ^ (8 * Z.of_nat size)) (-1) (v + 2 ^ (8 * Z.of_nat size))) by lia.
    rewrite (proj2 (Z.leb_le _ _)) by lia. lia.
Qed.

(** An integer field as the mapping-pairs array stores it. *)
Definition field_of (e : bytes) (v : Z) : Prop :=
  wf_bytes e /\ 1 <= py_len e <= 8 /\ le_sint e = v.

Lemma signed_min_from_sound sizes v e :
  signed_min_from sizes v = Ok e -> Forall (fun s => (1 <= s <= 8)%nat) sizes -> field_of e v.
Proof.
  induction sizes as [|s sizes IH]; intros H Hs; [done|]. apply Forall_cons in Hs as [Hs Hrest].
  simpl in H. unfold to_bytes_signed in H.
  destruct (_ || _) eqn:E; [by apply IH|]. simpl in H. bool_to_prop.
  destruct (Z.eqb_spec (le_sint (le_digits s (v mod 2 ^ (8 * Z.of_nat s)))) v) as [Heq|]; [|by apply IH].
  injection H as <-. split; [apply wf_le_digits|]. split; [|done]. rewrite py_len_le_digits. lia.
Qed.

Lemma signed_min_from_complete sizes v s :
  s ∈ sizes -> (0 < s)%nat -> - 2 ^ (8 * Z.of_nat s - 1) <= v < 2 ^ (8 * Z.of_nat s - 1) ->
  is_ok (signed_min_from sizes v) = true.
Proof.
  induction sizes as [|t sizes IH]; intros Hin Hs Hv; [set_solver|].
  simpl. destruct (to_bytes_signed t v) as [e|] eqn:E.
  - destruct (le_sint e =? v) eqn:E2; [done|]. apply elem_of_cons in Hin as [<-|Hin]; [|by apply IH].
    unfold to_bytes_signed in E. destruct (_ || _); [done|]. injection E as <-.
    rewrite le_sint_digits, Z.eqb_refl in E2 by done. done.
  - apply elem_of_cons in Hin as [<-|Hin]; [|by apply IH].
    unfold to_bytes_signed in E. destruct (_ || _) eqn:E2; [|done]. bool_to_prop. lia.
Qed.

Lemma signed_min_bytes_sound v e : _signed_min_bytes v = Ok e -> field_of e v.
Proof. intros H. eapply signed_min_from_sound; [exact H|]. repeat constructor; lia. Qed.

Lemma signed_min_bytes_complete v : - 2 ^ 63 <= v < 2 ^ 63 -> is_ok (_signed_min_bytes v) = true.
Proof. intros Hv. eapply (signed_min_from_complete _ v 8%nat); [|lia|exact Hv]. apply elem_of_seq. lia. Qed.

Lemma le_digits_snoc n v : le_digits (S n) v = le_digits n v ++ [(v / 256 ^ Z.of_nat n) mod 256].
Proof.
  revert v. induction n as [|n IH]; intros v; [by rewrite Z.div_1_r|].
  change (le_digits (S (S n)) v) with (v mod 256 :: le_digits (S n) (v / 256)). rewrite IH.
  simpl le_digits at 2. rewrite <- app_comm_cons. do 3 f_equal.
  rewrite Z.div_div by lia. do 2 f_equal. rewrite Nat2Z.inj_succ, Z.pow_succ_r by lia. done.
Qed.

Lemma py_get_last {A} (l : list A) x : py_get (l ++ [x]) (-1) = Ok x.
Proof.
  unfold py_get. rewrite py_len_app. change (-1 <? 0) with true. cbv iota.
  change (py_len [x]) with 1. pose proof (py_len_nonneg l).
  rewrite (proj2 (Z.ltb_ge _ 0)) by lia.
  replace (Z.to_nat (-1 + (py_len l + 1))) with (length l) by (unfold py_len; lia).
  by rewrite list_lookup_middle.
Qed.

(** The top bit of an octet. *)
Lemma land128 b : is_byte b -> (Z.land b 128 =? 0) = (b <? 128).
Proof.
  intros [H0 H1]. assert (forall n, (n < 256)%nat -> (Z.land (Z.of_nat n) 128 =? 0) = (Z.of_nat n <? 128)) as H.
  { intros n Hn. do 256 (destruct n as [|n]; [reflexivity|]). lia. }
  specialize (H (Z.to_nat b) ltac:(lia)). by rewrite Z2Nat.id in H by lia.
Qed.

Lemma le_sint_nonneg e : wf_bytes e -> 0 < py_len e -> le_int e < 2 ^ (8 * py_len e - 1) -> le_sint e = le_int e.
Proof. intros Hw Hl Hv. unfold le_sint. rewrite (proj2 (Z.leb_gt _ _)) by lia. by rewrite andb_false_r. Qed.

Lemma byte_width v : 0 < v -> exists m : nat,
  Z.to_nat (Z.max 1 ((bit_length v + 7) / 8)) = S m /\ v < 256 ^ Z.of_nat (S m) /\ 256 ^ Z.of_nat m <= v.
Proof.
  intros Hv. unfold bit_length. rewrite (proj2 (Z.eqb_neq v 0)) by lia. rewrite Z.abs_eq by lia.
  pose proof (Z.log2_nonneg v). pose proof (Z.log2_spec v Hv) as [Hlo Hhi].
  set (q := (Z.log2 v + 1 + 7) / 8).
  assert (8 * q <= Z.log2 v + 8 < 8 * q + 8) as Hq.
  { unfold q. pose proof (Z.div_mod (Z.log2 v + 1 + 7) 8). pose proof (Z.mod_pos_bound (Z.log2 v + 1 + 7) 8). lia. }
  exists (Z.to_nat (q - 1)). split; [lia|].
  rewrite Nat2Z.inj_succ, Z2Nat.id by lia. rewrite !pow256 by lia. split.
  - eapply Z.lt_le_trans; [exact Hhi|]. apply Z.pow_le_mono_r; lia.
  - etransitivity; [|exact Hlo]. apply Z.pow_le_mono_r; lia.
Qed.

Lemma unsigned_min_bytes_sound v e : _unsigned_min_bytes v = Ok e -> field_of e v /\ 0 < v.
Proof.
  unfold _unsigned_min_bytes. destruct (Z.leb_spec v 0) as [|Hv]; [done|].
  destruct (byte_width v Hv) as (m & -> & Hhi & Hlo). rewrite le_digits_snoc, py_get_last. simpl mbind.
  set (top := (v / 256 ^ Z.of_nat m) mod 256). intros H.
  assert (Htop : is_byte top) by (apply Z.mod_pos_bound; lia).
  assert (Htopv : top = v / 256 ^ Z.of_nat m).
  { apply Z.mod_small. rewrite Nat2Z.inj_succ, Z.pow_succ_r in Hhi by lia. split; [apply Z.div_pos; lia|].
    apply Z.div_lt_upper_bound; lia. }
  rewrite land128 in H by done. unfold top in H. rewrite <- le_digits_snoc in H. fold top in H.
  pose proof (wf_le_digits (S m) v) as Hw0. pose proof (py_len_le_digits (S m) v) as Hl0.
  assert (Hint : le_int (le_digits (S m) v) = v) by (rewrite le_int_digits; apply Z.mod_small; lia).
  set (d := le_digits (S m) v) in *. clearbody d.
  destruct (Z.ltb_spec top 128) as [Hlt|Hge]; simpl negb in H; cbv iota in H.
  - destruct (Z.ltb_spec 8 (py_len d)); [done|]. injection H as <-. split; [|lia].
    split; [exact Hw0|]. split; [lia|]. rewrite le_sint_nonneg; [done|exact Hw0|lia|]. rewrite Hint, Hl0.
    replace (2 ^ (8 * Z.of_nat (S m) - 1)) with (2 ^ 7 * 256 ^ Z.of_nat m)
      by (rewrite pow256, <- Z.pow_add_r by lia; f_equal; lia).
    change (2 ^ 7) with 128. pose proof (Z.div_mod v (256 ^ Z.of_nat m)).
    pose proof (Z.mod_pos_bound v (256 ^ Z.of_nat m)). nia.
  - destruct (Z.ltb_spec 8 (py_len (d ++ [0]))) as [|Hl]; [done|]. injection H as <-. split; [|lia].
    assert (wf_bytes (d ++ [0])) as Hw.
    { apply wf_bytes_app. split; [exact Hw0|]. apply Forall_singleton. red. lia. }
    assert (py_len (d ++ [0]) = Z.of_nat (S m) + 1) as Hl1 by (rewrite py_len_app, Hl0; done).
    assert (le_int (d ++ [0]) = v) as Hi1 by (rewrite le_int_app, Hint; cbn [le_int]; lia).
    split; [exact Hw|]. split; [lia|]. rewrite le_sint_nonneg; [done|exact Hw|lia|].
    + rewrite Hi1, Hl1. eapply Z.lt_le_trans with (256 ^ Z.of_nat (S m)); [lia|]. rewrite pow256 by lia.
      apply Z.pow_le_mono_r; lia.
Qed.

Lemma unsigned_min_bytes_complete v : 0 < v < 2 ^ 63 -> is_ok (_unsigned_min_bytes v) = true.
Proof.
  intros Hv. unfold _unsigned_min_bytes. rewrite (proj2 (Z.leb_gt v 0)) by lia.
  destruct (byte_width v ltac:(lia)) as (m & -> & Hhi & Hlo). rewrite le_digits_snoc, py_get_last. simpl mbind.
  set (top := (v / 256 ^ Z.of_nat m) mod 256).
  assert (Hm : Z.of_nat m < 8).
  { rewrite pow256 in Hlo by lia.
    destruct (Z.lt_ge_cases (Z.of_nat m) 8) as [|Hge]; [done|].
    assert (2 ^ 63 <= 2 ^ (8 * Z.of_nat m)) by (apply Z.pow_le_mono_r; lia). lia. }
  rewrite land128 by (apply Z.mod_pos_bound; lia).
  destruct (Z.ltb_spec top 128) as [Hlt|Hge]; simpl negb; cbv iota.
  - rewrite py_len_app, py_len_le_digits. change (py_len [top]) with 1. by rewrite (proj2 (Z.ltb_ge _ _)) by lia.
  - rewrite !py_len_app, py_len_le_digits. change (py_len [top]) with 1. change (py_len [0]) with 1.
    rewrite (proj2 (Z.ltb_ge _ _)); [done|].
    assert (Z.of_nat m <> 7); [|lia]. intros Heq. unfold top in Hge. rewrite Heq in Hge.
    assert (v / 256 ^ 7 < 128) by (apply Z.div_lt_upper_bound; lia).
    rewrite Z.mod_small in Hge; [lia|]. split; [apply Z.div_pos; lia|lia].
Qed.

(** ** Lemmas: the mapping-pairs array *)

Lemma run_header o l :
  0 <= o <= 8 -> 1 <= l <= 8 ->
  let h := Z.lor (Z.shiftl o 4) l in
  is_byte h /\ (h =? 0) = false /\ Z.land h 15 = l /\ Z.shiftr h 4 = o.
Proof.
  intros Ho Hl.
  assert (Hall : forallb (fun a => forallb (fun b =>
      let h := Z.lor (Z.shiftl a 4) b in
      (0 <=? h) && (h <? 256) && negb (h =? 0) && (Z.land h 15 =? b) && (Z.shiftr h 4 =? a))
    (py_range 1 9)) (py_range 0 9) = true) by reflexivity.
  rewrite forallb_forall in Hall.
  assert (In o (py_range 0 9)) as Hio by (apply list_elem_of_In, elem_of_py_range; lia).
  assert (In l (py_range 1 9)) as Hil by (apply list_elem_of_In, elem_of_py_range; lia).
  specialize (Hall o Hio). rewrite forallb_forall in Hall. specialize (Hall l Hil). cbv zeta in Hall |- *.
  bool_to_prop. unfold is_byte. repeat split; auto. by apply Z.eqb_neq.
Qed.

Lemma py_get_app {A} (pre : list A) x post : py_get (pre ++ x :: post) (py_len pre) = Ok x.
Proof.
  unfold py_get. pose proof (py_len_nonneg pre).
  rewrite (proj2 (Z.ltb_ge (py_len pre) 0)) by lia. cbv zeta.
  rewrite (proj2 (Z.ltb_ge (py_len pre) 0)) by lia. unfold py_len. by rewrite Nat2Z.id, list_lookup_middle.
Qed.

(** The run lists the mapping-pairs array can describe. *)
Definition lcn_ok (run : Run) : Prop := match lcn run with Some l => 0 <= l | None => True end.

Definition encodable (run : Run) : Prop :=
  0 < length_of run < 2 ^ 63 /\ match lcn run with Some l => 0 <= l < 2 ^ 63 | None => True end.

#[global] Instance lcn_ok_dec run : Decision (lcn_ok run).
Proof. unfold lcn_ok. destruct (lcn run); apply _. Defined.
#[global] Instance encodable_dec run : Decision (encodable run).
Proof. unfold encodable. destruct (lcn run); apply _. Defined.

(** One encoded run at the cursor is decoded to that run. *)
Lemma encode_run_decode prev out run prev' out' :
  encode_run (prev, out) run = Ok (prev', out') -> 0 <= prev -> lcn_ok run ->
  exists piece, out' = out ++ piece /\ wf_bytes piece /\ 0 <= prev' /\ 0 < length_of run /\ 2 <= py_len piece /\
    forall fuel pre post acc,
      (1 <= fuel)%nat ->
      decode_loop fuel (pre ++ piece ++ post) (py_len pre) prev acc
      = decode_loop (fuel - 1) (pre ++ piece ++ post) (py_len (pre ++ piece)) prev' (acc ++ [run]).
Proof.
  intros H Hprev Hlcn. unfold encode_run in H. inv_ok.
  destruct (unsigned_min_bytes_sound _ _ E) as [[Hwl [Hll Hsl]] Hpos]. rename a into lb. clear E.
  assert (exists ob, a0 = (ob, prev') /\ wf_bytes ob /\ 0 <= py_len ob <= 8 /\ 0 <= prev' /\
    match lcn run with None => ob = [] /\ prev' = prev
    | Some l => prev' = l /\ le_sint ob = l - prev /\ 1 <= py_len ob end) as (ob & -> & Hwo & Hlo & Hp' & Hcase).
  { destruct a0 as [ob p]. injection H as -> _. unfold lcn_ok in Hlcn. exists ob.
    destruct (lcn run) as [l|]; simpl in E0.
    - destruct (_signed_min_bytes (l - prev)) as [ob'|] eqn:E; [|done]. injection E0 as -> ->.
      destruct (signed_min_bytes_sound _ _ E) as (? & ? & ?). repeat split; auto; lia.
    - injection E0 as <- <-. repeat split; auto; try constructor; unfold py_len; simpl; lia. }
  clear E0. simpl in H. injection H as <-.
  destruct (run_header (py_len ob) (py_len lb) Hlo Hll) as (Hb & Hnz & Hland & Hshr).
  set (h := Z.lor (Z.shiftl (py_len ob) 4) (py_len lb)) in *. clearbody h.
  exists ([h] ++ lb ++ ob). split; [done|]. split; [apply Forall_app_2; [by apply Forall_singleton|by apply Forall_app_2]|].
  split; [done|]. split; [done|].
  assert (py_len ([h] ++ lb ++ ob) = 1 + py_len lb + py_len ob) as Hlp by (rewrite !py_len_app; unfold py_len; simpl; lia).
  split; [lia|]. intros fuel pre post acc Hfuel. pose proof (py_len_nonneg pre). pose proof (py_len_nonneg post).
  destruct fuel as [|fuel]; [lia|]. cbn [decode_loop].
  rewrite (py_len_app pre ([h] ++ lb ++ ob)), (py_len_app pre (([h] ++ lb ++ ob) ++ post)).
  rewrite (py_len_app ([h] ++ lb ++ ob) post), Hlp. rewrite (proj2 (Z.ltb_lt _ _)) by lia.
  replace (py_get (pre ++ ([h] ++ lb ++ ob) ++ post) (py_len pre)) with (Ok h)
    by (rewrite <- py_get_app with (pre := pre) (post := (lb ++ ob) ++ post); done).
  cbn [mbind result_bind]. rewrite Hnz, Hland, Hshr.
  rewrite (proj2 (Z.eqb_neq (py_len lb) 0)), (proj2 (Z.ltb_ge 8 (py_len lb))), (proj2 (Z.ltb_ge 8 (py_len ob))) by lia.
  rewrite (proj2 (Z.ltb_ge _ (py_len pre + 1 + _ + _))) by lia. cbn [orb].
  assert (py_slice (pre ++ ([h] ++ lb ++ ob) ++ post) (py_len pre + 1) (py_len pre + 1 + py_len lb) = lb) as ->.
  { replace (pre ++ ([h] ++ lb ++ ob) ++ post) with ((pre ++ [h]) ++ lb ++ (ob ++ post))
      by (by rewrite <- !app_assoc). apply py_slice_mid; [|done]. rewrite py_len_app. done. }
  assert (py_slice (pre ++ ([h] ++ lb ++ ob) ++ post) (py_len pre + 1 + py_len lb)
            (py_len pre + 1 + py_len lb + py_len ob) = ob) as ->.
  { replace (pre ++ ([h] ++ lb ++ ob) ++ post) with ((pre ++ [h] ++ lb) ++ ob ++ post)
      by (by rewrite <- !app_assoc). apply py_slice_mid; [|done]. rewrite !py_len_app. unfold py_len; simpl; lia. }
  rewrite Hsl, (proj2 (Z.leb_gt _ 0)) by done. replace (S fuel - 1)%nat with fuel by lia.
  destruct run as [[l|] n]; simpl in *.
  - destruct Hcase as (-> & Hd & Ho). rewrite (proj2 (Z.eqb_neq _ 0)) by lia.
    rewrite Hd. replace (prev + (l - prev)) with l by lia. rewrite (proj2 (Z.ltb_ge l 0)) by lia.
    f_equal; lia.
  - destruct Hcase as (-> & ->). change (py_len []) with 0 in *. simpl. f_equal; lia.
Qed.

Lemma encode_runs_decode runs : forall prev out prev' out',
  foldM encode_run (prev, out) runs = Ok (prev', out') -> 0 <= prev -> Forall lcn_ok runs ->
  exists body, out' = out ++ body /\ wf_bytes body /\ Forall (fun r => 0 < length_of r) runs /\
    2 * py_len runs <= py_len body /\
    forall fuel pre post acc,
      (length runs <= fuel)%nat ->
      decode_loop fuel (pre ++ body ++ post) (py_len pre) prev acc
      = decode_loop (fuel - length runs) (pre ++ body ++ post) (py_len (pre ++ body)) prev' (acc ++ runs).
Proof.
  induction runs as [|run runs IH]; intros prev out prev' out' H Hprev Hlcn.
  { simpl in H. injection H as <- <-. exists []. rewrite !app_nil_r. repeat split; [constructor|constructor|done|].
    intros. rewrite !app_nil_r. simpl. by rewrite Nat.sub_0_r. }
  apply Forall_cons in Hlcn as [Hrun Hruns]. cbn [foldM] in H.
  destruct (encode_run (prev, out) run) as [[p1 o1]|] eqn:E; [|done]. simpl in H.
  destruct (encode_run_decode _ _ _ _ _ E Hprev Hrun) as (piece & -> & Hwp & Hp1 & Hpos & Hlp & Hdec).
  destruct (IH _ _ _ _ H Hp1 Hruns) as (body & -> & Hwb & Hposs & Hlb & Hdecs).
  exists (piece ++ body). split; [by rewrite app_assoc|]. split; [by apply Forall_app_2|]. split; [by constructor|].
  split; [rewrite py_len_app, py_len_cons; lia|].
  intros fuel pre post acc Hf. simpl length in Hf.
  replace (pre ++ (piece ++ body) ++ post) with (pre ++ piece ++ (body ++ post)) by (by rewrite <- !app_assoc).
  rewrite Hdec by lia.
  replace (pre ++ piece ++ body ++ post) with ((pre ++ piece) ++ body ++ post) by (by rewrite <- !app_assoc).
  rewrite Hdecs by lia. rewrite <- !app_assoc. f_equal. simpl length. lia.
Qed.

(** What [_encode_runlist] returns is decoded to the same run list, whatever
    bytes follow it. *)
Lemma encode_runlist_decode runs data :
  _encode_runlist runs = Ok data -> Forall lcn_ok runs ->
  wf_bytes data /\ Forall (fun r => 0 < length_of r) runs /\
  forall padding, _decode_runlist (data ++ padding) = Ok runs.
Proof.
  intros H Hl. unfold _encode_runlist in H.
  destruct (foldM encode_run (0, []) runs) as [[p out]|] eqn:E; [|done]. simpl in H. injection H as <-.
  destruct (encode_runs_decode runs 0 [] p out E ltac:(lia) Hl) as (body & -> & Hw & Hpos & Hlen & Hdec).
  split; [apply Forall_app_2; [done|]; apply Forall_singleton; red; lia|]. split; [done|].
  intros padding. unfold _decode_runlist. simpl ([] ++ body).
  pose proof (py_len_nonneg runs). pose proof (py_len_nonneg padding).
  specialize (Hdec (length ((body ++ [0]) ++ padding)) [] ([0] ++ padding) []). simpl in Hdec.
  rewrite <- app_assoc in *. change (py_len []) with 0 in Hdec. change ([0] ++ padding) with (0 :: padding) in *.
  rewrite Hdec by (rewrite length_app; unfold py_len in *; simpl; lia).
  destruct (_ - length runs)%nat as [|f] eqn:Ef.
  { rewrite length_app in Ef. simpl in Ef. unfold py_len in *. lia. }
  cbn [decode_loop]. rewrite py_len_app, py_len_cons, (proj2 (Z.ltb_lt _ _)) by lia.
  by rewrite py_get_app.
Qed.

Lemma encode_run_complete prev out run :
  encodable run -> 0 <= prev < 2 ^ 63 ->
  exists prev' out', encode_run (prev, out) run = Ok (prev', out') /\ 0 <= prev' < 2 ^ 63.
Proof.
  intros [Hlen Hl] Hp. unfold encode_run.
  pose proof (unsigned_min_bytes_complete _ Hlen) as H1. destruct (_unsigned_min_bytes _) as [lb|]; [|done]. simpl.
  destruct (lcn run) as [l|]; simpl; [|eauto].
  pose proof (signed_min_bytes_complete (l - prev) ltac:(lia)) as H2. destruct (_signed_min_bytes _); [|done]. simpl. eauto.
Qed.

Lemma encode_runlist_complete runs : Forall encodable runs -> exists data, _encode_runlist runs = Ok data.
Proof.
  intros H. assert (forall prev out, 0 <= prev < 2 ^ 63 -> exists st, foldM encode_run (prev, out) runs = Ok st) as Hf.
  { induction H as [|run runs Hr _ IH]; intros prev out Hp; cbn [foldM]; [eauto|].
    destruct (encode_run_complete prev out run Hr Hp) as (p' & o' & -> & Hp'). simpl. by apply IH. }
  destruct (Hf 0 [] ltac:(lia)) as [[p o] E]. unfold _encode_runlist. rewrite E. simpl. eauto.
Qed.

(** C33. Every run list with positive 63-bit lengths and 63-bit cluster
    numbers (sparse runs included) has an encoding, the encoding is a byte
    string, and decoding it, followed by any padding, returns the same runs. *)
Theorem runlist_roundtrip (runs : list Run) (Hruns : Forall encodable runs) :
  exists data, _encode_runlist runs = Ok data /\ wf_bytes data /\
    forall padding, _decode_runlist (data ++ padding) = Ok runs.
Proof.
  destruct (encode_runlist_complete runs Hruns) as [data E]. exists data. split; [done|].
  destruct (encode_runlist_decode runs data E) as (Hw & _ & Hd); [|done].
  eapply Forall_impl; [exact Hruns|]. intros [[l|] n] [_ Hl]; [|done]. unfold lcn_ok. simpl in *. lia.
Qed.

Lemma runlist_roundtrip_witness :
  exists data, _encode_runlist [mkRun (Some 5000) 200; mkRun None 16; mkRun (Some 300) 70000] = Ok data /\
    wf_bytes data /\
    forall padding, _decode_runlist (data ++ padding) = Ok [mkRun (Some 5000) 200; mkRun None 16; mkRun (Some 300) 70000].
Proof. apply runlist_roundtrip. apply (bool_decide_unpack _). vm_compute. exact I. Defined.

(** ** Decoding *)

Lemma decode_loop_sound fuel data (Hw : wf_bytes data) : forall pos prev acc,
  0 <= pos -> py_len data - pos <= Z.of_nat fuel ->
  Forall (fun r => 0 < length_of r /\ lcn_ok r) acc ->
  match decode_loop fuel data pos prev acc with
  | Ok runs => Forall (fun r => 0 < length_of r /\ lcn_ok r) runs
  | Raise e => exn_kind e = NtfsCompactError
  end.
Proof.
  induction fuel as [|fuel IH]; intros pos prev acc Hp Hf Hacc; cbn [decode_loop];
    destruct (Z.ltb_spec pos (py_len data)) as [Hlt|]; try done; [lia|].
  destruct (py_get_byte data pos Hw) as (h & -> & _ & [Hh0 _]); [lia|].
  cbn [mbind result_bind]. destruct (h =? 0); [done|].
  destruct (_ || _) eqn:Echk; [done|]. bool_to_prop. set (ls := Z.land h 15) in *. set (os := Z.shiftr h 4) in *.
  destruct (Z.leb_spec (le_sint (py_slice data (pos + 1) (pos + 1 + ls))) 0); [done|].
  assert (0 <= ls) by (apply Z.land_nonneg; lia).
  assert (forall r, 0 < length_of r /\ lcn_ok r -> Forall (fun r => 0 < length_of r /\ lcn_ok r) (acc ++ [r])) as Hsnoc.
  { intros r Hr. apply Forall_app_2; [done|]. by apply Forall_singleton. }
  destruct (Z.eqb_spec os 0).
  - apply IH; [lia|lia|]. apply Hsnoc. split; [simpl; lia|done].
  - destruct (Z.ltb_spec (prev + le_sint (py_slice data (pos + 1 + ls) (pos + 1 + ls + os))) 0); [done|].
    assert (0 <= os) by (unfold os; apply Z.shiftr_nonneg; lia).
    apply IH; [lia|lia|]. apply Hsnoc. split; [simpl; lia|]. unfold lcn_ok. simpl. lia.
Qed.

(** Decoding terminates on every byte string: it either raises the
    engine's own error or returns runs of positive length at non-negative
    cluster numbers. *)
Theorem decode_runlist_total (data : bytes) (Hdata : wf_bytes data) :
  match _decode_runlist data with
  | Ok runs => Forall (fun r => 0 < length_of r /\ lcn_ok r) runs
  | Raise e => exn_kind e = NtfsCompactError
  end.
Proof. apply decode_loop_sound; [done|lia|unfold py_len; lia|constructor]. Qed.

Lemma decode_runlist_total_witness :
  match _decode_runlist [33; 24; 52; 86; 17; 5; 251; 0] with
  | Ok runs => Forall (fun r => 0 < length_of r /\ lcn_ok r) runs
  | Raise e => exn_kind e = NtfsCompactError
  end.
Proof. apply (decode_runlist_total [33; 24; 52; 86; 17; 5; 251; 0]). repeat constructor; lia. Defined.

(** ** Coalescing is a canonical form *)

(** The cluster mapping of a run list: entry [v] is where virtual cluster
    [v] of the stream lives, [None] for a hole. *)
Definition expand_run (r : Run) : list (option Z) :=
  match lcn r with
  | Some l => map Some (py_range l (l + length_of r))
  | None => replicate (Z.to_nat (length_of r)) None
  end.

Definition expand (runs : list Run) : list (option Z) := concat (map expand_run runs).

Lemma expand_app a b : expand (a ++ b) = expand a ++ expand b.
Proof. unfold expand. by rewrite map_app, concat_app. Qed.

Lemma expand_run_empty r : length_of r <= 0 -> expand_run r = [].
Proof.
  intros. unfold expand_run. destruct (lcn r); [by rewrite py_range_nil by lia|].
  by rewrite Z2Nat.nonpos by lia.
Qed.

(** Two runs that continue each other expand like their union. *)
Lemma expand_run_join o n m :
  0 <= n -> 0 <= m ->
  expand_run (mkRun o (n + m)) = expand_run (mkRun o n) ++ expand_run (mkRun (fmap (fun l => l + n) o) m).
Proof.
  intros. unfold expand_run. destruct o as [l|]; simpl.
  - rewrite (py_range_split l (l + n)) by lia. rewrite map_app. do 3 f_equal. lia.
  - by rewrite Z2Nat.inj_add, replicate_add by lia.
Qed.

Definition unit_run (o : option Z) : Run := mkRun o 1.

Lemma coalesce_push_empty acc r : length_of r <= 0 -> coalesce_push acc r = acc.
Proof. intros. unfold coalesce_push. by rewrite (proj2 (Z.leb_le _ _)) by lia. Qed.

Lemma coalesce_push_join acc o n :
  0 < n ->
  coalesce_push acc (mkRun o (n + 1)) = coalesce_push (coalesce_push acc (mkRun o n)) (mkRun (fmap (fun l => l + n) o) 1).
Proof.
  intros. unfold coalesce_push. simpl length_of.
  rewrite (proj2 (Z.leb_gt (n + 1) 0)), (proj2 (Z.leb_gt n 0)) by lia. change (1 <=? 0) with false. cbv iota.
  destruct o as [l|], acc as [|[[p|] k] acc]; simpl; rewrite ?Z.eqb_refl, ?Z.add_assoc; try done.
  destruct (Z.eqb_spec (p + k) l) as [<-|]; simpl; rewrite ?Z.add_assoc, Z.eqb_refl; done.
Qed.

Lemma coalesce_units_run (n : nat) o acc :
  fold_left coalesce_push (map unit_run (expand_run (mkRun o (Z.of_nat n)))) acc
  = coalesce_push acc (mkRun o (Z.of_nat n)).
Proof.
  induction n as [|n IH]; [by rewrite expand_run_empty, coalesce_push_empty by done|].
  replace (Z.of_nat (S n)) with (Z.of_nat n + 1) by lia.
  rewrite expand_run_join, map_app, fold_left_app, IH by lia.
  assert (forall p, map unit_run (expand_run (mkRun p 1)) = [mkRun p 1]) as Hone.
  { intros [l|]; [|done]. unfold expand_run. simpl lcn. cbn [length_of].
    rewrite py_range_cons, py_range_nil by lia. done. }
  rewrite Hone. simpl fold_left. destruct n as [|n].
  - change (Z.of_nat 0) with 0. rewrite (coalesce_push_empty acc (mkRun o 0)) by (simpl; lia). f_equal. destruct o as [l|]; simpl; [by rewrite Z.add_0_r|done].
  - by rewrite coalesce_push_join by lia.
Qed.

(** Coalescing a list is coalescing its clusters one by one. *)
Lemma coalesce_units runs acc :
  fold_left coalesce_push runs acc = fold_left coalesce_push (map unit_run (expand runs)) acc.
Proof.
  revert acc. induction runs as [|[o n] runs IH]; intros acc; [done|].
  unfold expand. simpl. rewrite map_app, fold_left_app. fold (expand runs). rewrite <- IH. f_equal.
  destruct (Z.le_gt_cases n 0); [by rewrite expand_run_empty, coalesce_push_empty|].
  rewrite <- (Z2Nat.id n) by lia. by rewrite coalesce_units_run.
Qed.

Lemma coalesce_push_expand acc r :
  Forall (fun q => 0 < length_of q) acc ->
  Forall (fun q => 0 < length_of q) (coalesce_push acc r) /\
  expand (rev (coalesce_push acc r)) = expand (rev acc) ++ expand_run r.
Proof.
  intros Hacc. destruct (Z.le_gt_cases (length_of r) 0) as [Hle|Hgt].
  { rewrite coalesce_push_empty, expand_run_empty by done. by rewrite app_nil_r. }
  assert (forall q, expand [q] = expand_run q) as Hone by (intros; unfold expand; simpl; by rewrite app_nil_r).
  assert (expand (rev (r :: acc)) = expand (rev acc) ++ expand_run r) as Happ
    by (simpl; by rewrite expand_app, Hone).
  unfold coalesce_push. rewrite (proj2 (Z.leb_gt _ _)) by lia.
  destruct acc as [|[o k] acc]; [split; [by constructor|exact Happ]|].
  apply Forall_cons in Hacc as [Hk Hacc]. simpl in Hk.
  assert (Hjoin : forall o', o' = fmap (fun l => l + k) o -> lcn r = o' ->
    expand (rev (mkRun o (k + length_of r) :: acc)) = expand (rev (mkRun o k :: acc)) ++ expand_run r).
  { intros o' -> Hr. simpl. rewrite !expand_app, !Hone, expand_run_join by lia.
    destruct r as [ro rn]. simpl in Hr. subst ro. by rewrite app_assoc. }
  destruct o as [p|], (lcn r) as [l|] eqn:El; simpl lcn; simpl length_of; cbv iota.
  2,3: by split; [repeat constructor|exact Happ].
  - destruct (Z.eqb_spec (p + k) l) as [<-|].
    + split; [constructor; [simpl; lia|done]|]. by apply (Hjoin (Some (p + k))).
    + by split; [repeat constructor|exact Happ].
  - split; [constructor; [simpl; lia|done]|]. by apply (Hjoin None).
Qed.

Lemma coalesce_fold_expand runs : forall acc,
  Forall (fun q => 0 < length_of q) acc ->
  Forall (fun q => 0 < length_of q) (fold_left coalesce_push runs acc) /\
  expand (rev (fold_left coalesce_push runs acc)) = expand (rev acc) ++ expand runs.
Proof.
  induction runs as [|r runs IH]; intros acc Hacc; simpl; [by rewrite app_nil_r|].
  destruct (coalesce_push_expand acc r Hacc) as [Hp He]. destruct (IH _ Hp) as [Hp' He'].
  split; [done|]. rewrite He', He, <- app_assoc. done.
Qed.

Lemma coalesce_expand runs : expand (_coalesce_runs runs) = expand runs.
Proof. apply (coalesce_fold_expand runs []). constructor. Qed.

Lemma coalesce_positive runs : Forall (fun q => 0 < length_of q) (_coalesce_runs runs).
Proof. unfold _coalesce_runs. apply Forall_rev. apply (coalesce_fold_expand runs []). constructor. Qed.

Lemma coalesce_lcn_ok runs : Forall lcn_ok runs -> Forall lcn_ok (_coalesce_runs runs).
Proof.
  intros H. unfold _coalesce_runs. apply Forall_rev.
  assert (forall acc, Forall lcn_ok acc -> Forall lcn_ok (fold_left coalesce_push runs acc)) as Hf; [|apply Hf; constructor].
  induction H as [|r runs Hr _ IH]; intros acc Hacc; [done|]. simpl. apply IH. unfold coalesce_push.
  destruct (length_of r <=? 0); [done|]. destruct acc as [|[[p|] k] acc]; [by constructor|..];
    apply Forall_cons in Hacc as [Hp Hacc]; simpl; destruct (lcn r) as [l|] eqn:El; try by repeat constructor.
  destruct (p + k =? l); by repeat constructor.
Qed.

Lemma coalesce_ext a b : expand a = expand b -> _coalesce_runs a = _coalesce_runs b.
Proof. intros H. unfold _coalesce_runs. by rewrite (coalesce_units a), (coalesce_units b), H. Qed.

Lemma coalesce_push_length acc r : (length (coalesce_push acc r) <= S (length acc))%nat.
Proof.
  unfold coalesce_push. destruct (_ <=? 0); [lia|]. destruct acc as [|[[p|] k] acc]; simpl; [lia|..];
    destruct (lcn r); simpl; try lia. destruct (_ =? _); simpl; lia.
Qed.

Lemma coalesce_length runs : (length (_coalesce_runs runs) <= length runs)%nat.
Proof.
  unfold _coalesce_runs. rewrite length_rev.
  assert (forall acc, (length (fold_left coalesce_push runs acc) <= length acc + length runs)%nat) as H; [|apply (H [])].
  induction runs as [|r runs IH]; intros acc; simpl; [lia|].
  etransitivity; [apply IH|]. pose proof (coalesce_push_length acc r). lia.
Qed.

Lemma length_expand runs :
  Forall (fun r => 0 <= length_of r) runs -> py_len (expand runs) = runs_length runs.
Proof.
  induction 1 as [|[o n] runs Hn _ IH]; [done|]. unfold expand, runs_length in *. simpl in *.
  rewrite py_len_app, IH. f_equal. unfold py_len, expand_run. simpl. destruct o; simpl.
  - rewrite length_map. unfold py_range. rewrite length_seqZ. lia.
  - rewrite length_replicate. lia.
Qed.

Lemma coalesce_runs_length runs :
  Forall (fun r => 0 <= length_of r) runs -> runs_length (_coalesce_runs runs) = runs_length runs.
Proof.
  intros H. rewrite <- !length_expand, coalesce_expand; [done|done|].
  eapply Forall_impl; [apply coalesce_positive|]. simpl. lia.
Qed.

(** [_coalesce_runs] keeps the cluster mapping of the stream, and is a
    canonical form of it: two run lists coalesce to the same list exactly
    when they map every virtual cluster alike.  No run list with the same
    mapping is shorter, so [_physical_fragment_count] depends on the mapping
    alone and counts as few extents as possible. *)
Theorem coalesce_canonical (runs runs' : list Run) :
  expand (_coalesce_runs runs) = expand runs /\
  (_coalesce_runs runs = _coalesce_runs runs' <-> expand runs = expand runs') /\
  (expand runs = expand runs' ->
     (length (_coalesce_runs runs) <= length runs')%nat /\
     _physical_fragment_count runs = _physical_fragment_count runs').
Proof.
  split; [apply coalesce_expand|]. split.
  - split; [|apply coalesce_ext]. intros H. by rewrite <- (coalesce_expand runs), H, coalesce_expand.
  - intros H. apply coalesce_ext in H. split; [rewrite H; apply coalesce_length|].
    unfold _physical_fragment_count. by rewrite H.
Qed.

(** ** Live-map slices describe the move cluster by cluster *)

Definition physical_run (r : Run) : Prop := is_physical r = true /\ 0 <= length_of r.

(** What is left of a run list when [off] clusters of its head are used up. *)
Definition rest_of (runs : list Run) (off : Z) : list (option Z) :=
  match runs with
  | [] => []
  | r :: rest => expand_run (mkRun (fmap (fun l => l + off) (lcn r)) (length_of r - off)) ++ expand rest
  end.

Definition slice_pairs (s : Z * Z * Z) : list (option Z * option Z) :=
  let '(src, dst, n) := s in
  zip (expand_run (mkRun (Some src) n)) (expand_run (mkRun (Some dst) n)).

Definition off_ok (runs : list Run) (off : Z) : Prop :=
  match runs with [] => True | r :: _ => 0 <= off < length_of r end.

Lemma length_expand_run r : 0 <= length_of r -> py_len (expand_run r) = length_of r.
Proof.
  intros. pose proof (length_expand [r]) as H1. unfold expand, runs_length in H1. simpl in H1.
  rewrite app_nil_r, Z.add_0_r in H1. apply H1. by apply Forall_singleton.
Qed.

(** Advancing a cursor by [take] clusters consumes [take] clusters. *)
Lemma rest_advance r rest off take :
  0 < take -> 0 <= off -> off + take <= length_of r -> Forall (fun q => 0 < length_of q) rest ->
  let '(runs', off') := if off + take =? length_of r then (rest, 0) else (r :: rest, off + take) in
  rest_of (r :: rest) off = expand_run (mkRun (fmap (fun l => l + off) (lcn r)) take) ++ rest_of runs' off' /\
  off_ok runs' off' /\ (length runs' <= length (r :: rest))%nat /\
  (off + take = length_of r -> length runs' = length rest).
Proof.
  intros Ht Ho Hle Hrest. unfold rest_of at 1.
  replace (length_of r - off) with (take + (length_of r - off - take)) by lia.
  rewrite expand_run_join, <- app_assoc by lia.
  destruct (Z.eqb_spec (off + take) (length_of r)) as [Heq|Hne].
  - split; [|repeat split; simpl; try lia].
    + f_equal. rewrite expand_run_empty by (simpl; lia). simpl. unfold rest_of.
      destruct rest as [|[o n] rest]; [done|]. unfold expand. simpl. f_equal. f_equal. rewrite Z.sub_0_r. f_equal.
      destruct o as [l|]; simpl; [by rewrite Z.add_0_r|done].
    + destruct rest as [|q rest]; [done|]. apply Forall_cons in Hrest as [? _]. simpl. lia.
  - split; [|repeat split; simpl; try lia]. f_equal. unfold rest_of. f_equal. f_equal. f_equal; [|lia].
    destruct (lcn r) as [l|]; simpl; [f_equal; lia|done].
Qed.

Lemma rest_of_nonempty runs off : runs <> [] -> off_ok runs off -> 0 < py_len (rest_of runs off).
Proof.
  destruct runs as [|[o n] rest]; [done|]. simpl. intros _ Hoff. rewrite py_len_app.
  pose proof (py_len_nonneg (expand rest)). rewrite length_expand_run by (simpl; lia). simpl. lia.
Qed.

Lemma slices_loop_spec fuel : forall srcs dsts so d_o,
  (length srcs + length dsts <= fuel)%nat ->
  Forall (fun r => is_physical r = true /\ 0 < length_of r) srcs ->
  Forall (fun r => is_physical r = true /\ 0 < length_of r) dsts ->
  off_ok srcs so -> off_ok dsts d_o ->
  let g := slices_loop fuel srcs dsts so d_o in
  concat (map slice_pairs (yielded g)) = zip (rest_of srcs so) (rest_of dsts d_o) /\
  (raised g = None <-> py_len (rest_of srcs so) = py_len (rest_of dsts d_o)).
Proof.
  induction fuel as [|fuel IH]; intros [|s srest] [|d drest] so d_o Hf Hs Hd Hso Hdo; simpl in Hf; try lia; try done.
  { cbn -[rest_of]. pose proof (rest_of_nonempty (d :: drest) d_o ltac:(done) Hdo).
    change (py_len (rest_of [] so)) with 0. split; [done|]. split; [done|lia]. }
  { cbn -[rest_of]. pose proof (rest_of_nonempty (s :: srest) so ltac:(done) Hso).
    change (rest_of [] d_o) with (@nil (option Z)). change (py_len (@nil (option Z))) with 0.
    split; [by rewrite zip_with_nil_r|]. split; [done|lia]. }
  apply Forall_cons in Hs as [[Hps Hls] Hs]. apply Forall_cons in Hd as [[Hpd Hld] Hd]. simpl in Hso, Hdo.
  unfold is_physical in Hps, Hpd.
  destruct (lcn s) as [sl|] eqn:Els; [|done]. destruct (lcn d) as [dl|] eqn:Eld; [|done].
  cbn [slices_loop]. rewrite Els, Eld. cbv zeta.
  set (take := Z.min (length_of s - so) (length_of d - d_o)).
  rewrite (proj2 (Z.leb_gt take 0)) by lia.
  pose proof (rest_advance s srest so take ltac:(lia) ltac:(lia) ltac:(lia) ltac:(eapply Forall_impl; [exact Hs|]; naive_solver)) as As.
  pose proof (rest_advance d drest d_o take ltac:(lia) ltac:(lia) ltac:(lia) ltac:(eapply Forall_impl; [exact Hd|]; naive_solver)) as Ad.
  rewrite Els in As. rewrite Eld in Ad. simpl fmap in As, Ad.
  assert (Forall (fun r => is_physical r = true /\ 0 < length_of r) (s :: srest)) as Hs' by (constructor; [unfold is_physical; by rewrite Els|done]).
  assert (Forall (fun r => is_physical r = true /\ 0 < length_of r) (d :: drest)) as Hd' by (constructor; [unfold is_physical; by rewrite Eld|done]).
  assert (so + take = length_of s \/ d_o + take = length_of d) as Hone by lia.
  destruct (if so + take =? length_of s then (srest, 0) else (s :: srest, so + take)) as [srcs' so'] eqn:E1.
  destruct (if d_o + take =? length_of d then (drest, 0) else (d :: drest, d_o + take)) as [dsts' do'] eqn:E2.
  destruct As as (Hrs & Hoks & Hls1 & Hls2), Ad as (Hrd & Hokd & Hld1 & Hld2).
  assert (Forall (fun r => is_physical r = true /\ 0 < length_of r) srcs') by (destruct (_ =? _) in E1; by injection E1 as <- <-).
  assert (Forall (fun r => is_physical r = true /\ 0 < length_of r) dsts') by (destruct (_ =? _) in E2; by injection E2 as <- <-).
  destruct (IH srcs' dsts' so' do') as [IHz IHr]; try done.
  { simpl in Hls1, Hld1. destruct Hone as [H1|H1]; [apply Hls2 in H1|apply Hld2 in H1]; lia. }
  cbn [gen_cons yielded raised map concat]. rewrite IHz, IHr, Hrs, Hrd, !py_len_app.
  rewrite !length_expand_run by (simpl; lia). cbn [length_of]. split; [|lia].
  rewrite zip_app_same; [done|]. unfold expand_run. simpl. rewrite !length_map. unfold py_range. rewrite !length_seqZ. lia.
Qed.

Lemma rest_of_zero runs : rest_of runs 0 = expand runs.
Proof.
  destruct runs as [|[o n] runs]; [done|]. unfold expand. simpl. f_equal. f_equal. rewrite Z.sub_0_r. f_equal.
  destruct o as [l|]; simpl; [by rewrite Z.add_0_r|done].
Qed.

Lemma expand_nonzero runs : Forall physical_run runs -> expand (filter nonzero_length runs) = expand runs.
Proof.
  induction 1 as [|r runs [_ Hr] _ IH]; [done|]. rewrite filter_cons. unfold expand in *. simpl.
  destruct (decide (nonzero_length r)) as [|Hn]; simpl; [by rewrite IH|].
  rewrite expand_run_empty; [done|]. unfold nonzero_length in Hn. destruct (Z.eqb_spec (length_of r) 0); [lia|done].
Qed.

Lemma filter_physical runs :
  Forall physical_run runs ->
  Forall (fun r => is_physical r = true /\ 0 < length_of r) (filter nonzero_length runs).
Proof.
  intros H. apply Forall_forall. intros r Hr. apply list_elem_of_filter in Hr as [Hn Hr].
  rewrite Forall_forall in H. destruct (H r Hr) as [? ?]. split; [done|].
  unfold nonzero_length in Hn. destruct (Z.eqb_spec (length_of r) 0); [done|lia].
Qed.

Lemma off_ok_zero runs : Forall (fun r => is_physical r = true /\ 0 < length_of r) runs -> off_ok runs 0.
Proof. destruct 1 as [|r l [_ Hr] _]; [done|]. simpl. lia. Qed.

(** For physical source and destination runs, the live-map slices pair
    the clusters exactly as the copy does, first with first, and the generator
    raises exactly when the two sides have different lengths. *)
Theorem move_slices_exact (source_runs destination_runs : list Run)
    (Hsrc : Forall physical_run source_runs) (Hdst : Forall physical_run destination_runs) :
  let g := _iter_physical_move_slices source_runs destination_runs in
  concat (map slice_pairs (yielded g)) = zip (expand source_runs) (expand destination_runs) /\
  (raised g = None <-> runs_length source_runs = runs_length destination_runs).
Proof.
  unfold _iter_physical_move_slices. cbv zeta.
  pose proof (filter_physical _ Hsrc) as Hs. pose proof (filter_physical _ Hdst) as Hd.
  destruct (slices_loop_spec _ _ _ 0 0 (le_n _) Hs Hd) as [H1 H2]; [by apply off_ok_zero..|].
  rewrite !rest_of_zero, !expand_nonzero in H1, H2 by done.
  assert (forall runs, Forall physical_run runs -> py_len (expand runs) = runs_length runs) as Hl.
  { intros runs Hr. apply length_expand. eapply Forall_impl; [exact Hr|]. by intros ? []. }
  by rewrite !Hl in H2 by done.
Qed.

Lemma move_slices_exact_witness :
  let g := _iter_physical_move_slices [mkRun (Some 50) 3; mkRun (Some 90) 4] [mkRun (Some 7) 7] in
  concat (map slice_pairs (yielded g)) = zip (expand [mkRun (Some 50) 3; mkRun (Some 90) 4]) (expand [mkRun (Some 7) 7]) /\
  (raised g = None <-> runs_length [mkRun (Some 50) 3; mkRun (Some 90) 4] = runs_length [mkRun (Some 7) 7]).
Proof. apply move_slices_exact; repeat constructor; simpl; lia. Defined.
