(* ===== verification/NtfsBitmap.v ===== *)
(** * The NTFS cluster bitmap

    Models the [$Bitmap] helpers of [src/gui/ntfs_engine.py]: single bits,
    [_set_range] with its byte-wide fast path, the snapshots taken for the
    recovery journal, the searches for free and used space with their
    whole-byte fast paths, and the allocation counters.  Every routine is
    characterised through [bit_at]: the theorems say that the fast paths
    compute what a cluster-by-cluster scan would. *)

From S2P Require Import Prelude Bytes Ranges RangesFacts Bitmap NtfsRuns.

(** ** Single bits and ranges *)

Definition _bit (bitmap : bytes) (cluster : Z) : result bool :=
  value ← py_get bitmap (Z.shiftr cluster 3);
  Ok (negb (Z.land value (Z.shiftl 1 (Z.land cluster 7)) =? 0)).

Definition _set_bit (bitmap : bytes) (cluster : Z) (value : bool) : result bytes :=
  let mask := Z.shiftl 1 (Z.land cluster 7) in
  let index := Z.shiftr cluster 3 in
  old ← py_get bitmap index;
  if value then py_set bitmap index (Z.lor old mask)
  else py_set bitmap index (Z.land old (Z.land (Z.lnot mask) 255)).

(** [while start < end and cond(start): _set_bit(...); start += 1] *)
Fixpoint set_bits_while (fuel : nat) (cond : Z -> bool) (bitmap : bytes) (start stop : Z) (value : bool)
    : result (bytes * Z) :=
  if (start <? stop) && cond start then
    match fuel with
    | O => raise OutOfFuel "_set_range"
    | S fuel' => bitmap' ← _set_bit bitmap start value; set_bits_while fuel' cond bitmap' (start + 1) stop value
    end
  else Ok (bitmap, start).

Definition _set_range (bitmap : bytes) (start len : Z) (value : bool) : result bytes :=
  if len <=? 0 then Ok bitmap else
  let stop := start + len in
  '(bitmap, start) ← set_bits_while (Z.to_nat len) (fun s => negb (Z.land s 7 =? 0)) bitmap start stop value;
  let byte_end := Z.shiftr stop 3 in
  let byte_start := Z.shiftr start 3 in
  let '(bitmap, start) :=
    if byte_start <? byte_end
    then (py_set_slice bitmap byte_start byte_end
            (replicate (Z.to_nat (byte_end - byte_start)) (if value then 255 else 0)), Z.shiftl byte_end 3)
    else (bitmap, start) in
  '(bitmap, _) ← set_bits_while (Z.to_nat len) (fun _ => true) bitmap start stop value;
  Ok bitmap.

(** [for run in runs: _set_range(bitmap, int(run.lcn), run.length, value)];
    [int(None)] raises. *)
Definition set_run (value : bool) (bitmap : bytes) (run : Run) : result bytes :=
  match lcn run with
  | Some l => _set_range bitmap l (length_of run) value
  | None => raise ValueError "int() argument must not be None"
  end.

Definition set_runs (bitmap : bytes) (runs : list Run) (value : bool) : result bytes :=
  foldM (set_run value) bitmap runs.

(** ** Journal snapshots of the touched bytes *)

Definition run_byte_range (run : Run) : list range :=
  match lcn run with
  | Some l => if length_of run <=? 0 then []
              else [(Z.shiftr l 3, Z.shiftr (l + length_of run - 1) 3 + 1)]
  | None => []
  end.

Definition patch_ranges (runs : list Run) : list range :=
  reverse (fold_left merge_push (py_sorted range_leb (concat (map run_byte_range runs))) []).

(** [_bitmap_patches_for_runs], on the bitmap of the layout *)
Definition _bitmap_patches_for_runs (bitmap : bytes) (runs : list Run) : list (Z * bytes) :=
  map (fun r => (r.1, py_slice bitmap r.1 r.2)) (patch_ranges runs).

Definition _current_bitmap_patches (bitmap : bytes) (snapshots : list (Z * bytes)) : list (Z * bytes) :=
  map (fun p => (p.1, py_slice bitmap p.1 (p.1 + py_len p.2))) snapshots.

(** ** Searching for used and free clusters *)

Definition scan_limit (bitmap : bytes) (before : Z) : Z := Z.max 0 (Z.min before (py_len bitmap * 8)).

(** The cluster-wise part of [_highest_used_before]: [inl] is a return. *)
Fixpoint highest_bits (fuel : nat) (bitmap : bytes) (cluster : Z) : result (Z + Z) :=
  if (0 <=? cluster) && negb (Z.land cluster 7 =? 7) then
    match fuel with
    | O => raise OutOfFuel "_highest_used_before"
    | S fuel' => b ← _bit bitmap cluster;
        if (b : bool) then Ok (inl (cluster + 1)) else highest_bits fuel' bitmap (cluster - 1)
    end
  else Ok (inr cluster).

(** The byte-wise part. *)
Fixpoint highest_bytes (fuel : nat) (bitmap : bytes) (byte_index : Z) : result Z :=
  if 0 <=? byte_index then
    match fuel with
    | O => raise OutOfFuel "_highest_used_before"
    | S fuel' => value ← py_get bitmap byte_index;
        if negb (value =? 0) then Ok (Z.shiftl byte_index 3 + bit_length value)
        else highest_bytes fuel' bitmap (byte_index - 1)
    end
  else Ok 0.

Definition _highest_used_before (bitmap : bytes) (before : Z) : result Z :=
  let limit := scan_limit bitmap before in
  if limit =? 0 then Ok 0 else
  r ← highest_bits 8 bitmap (limit - 1);
  match r with
  | inl h => Ok h
  | inr cluster => highest_bytes (length bitmap) bitmap (Z.shiftr cluster 3)
  end.

Definition _highest_used (bitmap : bytes) (total_clusters : Z) : result Z :=
  _highest_used_before bitmap total_clusters.

(** The [while cluster < limit] loop of [_free_runs_before]; every iteration
    advances [cluster]. *)
Definition close_run (acc : list Run) (start : option Z) (cluster : Z) : list Run :=
  match start with Some s => acc ++ [mkRun (Some s) (cluster - s)] | None => acc end.

Definition open_run (start : option Z) (cluster : Z) : option Z :=
  match start with Some s => Some s | None => Some cluster end.

Fixpoint free_runs_loop (fuel : nat) (bitmap : bytes) (limit : Z) (acc : list Run) (start : option Z) (cluster : Z)
    : result (list Run) :=
  if cluster <? limit then
    match fuel with
    | O => raise OutOfFuel "_free_runs_before"
    | S fuel' =>
        fast ← (if (cluster mod 8 =? 0) && (cluster + 8 <=? limit) then
                  value ← py_get bitmap (Z.shiftr cluster 3);
                  Ok (if value =? 0 then Some false else if value =? 255 then Some true else None)
                else Ok None);
        match fast with
        | Some false => free_runs_loop fuel' bitmap limit acc (open_run start cluster) (cluster + 8)
        | Some true => free_runs_loop fuel' bitmap limit (close_run acc start cluster) None (cluster + 8)
        | None =>
            b ← _bit bitmap cluster;
            if (b : bool)
            then free_runs_loop fuel' bitmap limit (close_run acc start cluster) None (cluster + 1)
            else free_runs_loop fuel' bitmap limit acc (open_run start cluster) (cluster + 1)
        end
    end
  else Ok (close_run acc start limit).

Definition _free_runs_before (bitmap : bytes) (before : Z) : result (list Run) :=
  let limit := scan_limit bitmap before in
  free_runs_loop (Z.to_nat limit) bitmap limit [] None 0.

Definition _find_free_run (bitmap : bytes) (len before : Z) : result (option Z) :=
  if len <=? 0 then Ok None else
  runs ← _free_runs_before bitmap before;
  Ok (match List.find (fun run => len <=? length_of run) runs with
      | Some run => lcn run
      | None => None
      end).

(** The two loops of [_next_free_run]: advance while the clusters are
    [used] (first loop) or free (second loop). *)
Fixpoint skip_while (fuel : nat) (bitmap : bytes) (limit : Z) (used : bool) (cluster : Z) : result Z :=
  if cluster <? limit then
    match fuel with
    | O => raise OutOfFuel "_next_free_run"
    | S fuel' =>
        fast ← (if (cluster mod 8 =? 0) && (cluster + 8 <=? limit) then
                  value ← py_get bitmap (Z.shiftr cluster 3);
                  Ok (if value =? (if used then 255 else 0) then Some true
                      else if value =? (if used then 0 else 255) then Some false else None)
                else Ok None);
        match fast with
        | Some true => skip_while fuel' bitmap limit used (cluster + 8)
        | Some false => Ok cluster
        | None =>
            b ← _bit bitmap cluster;
            if eqb b used then skip_while fuel' bitmap limit used (cluster + 1) else Ok cluster
        end
    end
  else Ok cluster.

Definition _next_free_run (bitmap : bytes) (start before : Z) : result (option Run) :=
  let limit := scan_limit bitmap before in
  let cluster := Z.max 0 start in
  cluster ← skip_while (Z.to_nat limit) bitmap limit true cluster;
  if limit <=? cluster then Ok None else
  stop ← skip_while (Z.to_nat limit) bitmap limit false cluster;
  Ok (Some (mkRun (Some cluster) (stop - cluster))).

(** The [while (run := ...)] loop of [_free_gap_stats]. *)
Fixpoint gap_loop (fuel : nat) (bitmap : bytes) (before : Z) (count clusters : Z) (first : option Z) (cursor : Z)
    : result (Z * Z * option Z) :=
  r ← _next_free_run bitmap cursor before;
  match r with
  | None => Ok (count, clusters, first)
  | Some run =>
      match fuel with
      | O => raise OutOfFuel "_free_gap_stats"
      | S fuel' =>
          gap_loop fuel' bitmap before (count + 1) (clusters + length_of run)
            (match first with None => lcn run | Some _ => first end)
            (default 0 (lcn run) + length_of run)
      end
  end.

Definition _free_gap_stats (bitmap : bytes) (before start : Z) : result (Z * Z * option Z) :=
  gap_loop (Z.to_nat (scan_limit bitmap before)) bitmap before 0 0 None (Z.max 0 start).

Definition clip_run (lower upper : Z) (run : Run) : list Run :=
  match lcn run with
  | None => []
  | Some l =>
      let start := Z.max lower l in
      let stop := Z.min upper (l + length_of run) in
      if start <? stop then [mkRun (Some start) (stop - start)] else []
  end.

Definition _defrag_destination_pool (bitmap : bytes) (total_clusters : Z) : result (list Run) :=
  let upper := Z.max 1 (total_clusters - 1) in
  runs ← _free_runs_before bitmap upper;
  Ok (concat (map (clip_run 1 upper) runs)).

Definition _allocated_cluster_count (bitmap : bytes) (total_clusters : Z) : result Z :=
  let full_bytes := total_clusters / 8 in
  let remaining := total_clusters mod 8 in
  let total := zsum (map bit_count (py_slice bitmap 0 full_bytes)) in
  if negb (remaining =? 0) && (full_bytes <? py_len bitmap) then
    value ← py_get bitmap full_bytes;
    Ok (total + bit_count (Z.land value (Z.shiftl 1 remaining - 1)))
  else Ok total.

(** ** Lemmas: single bits *)

(** [wf_bitmap b n]: an octet string with room for [n] clusters. *)
Definition wf_bitmap (bitmap : bytes) (n : Z) : Prop := wf_bytes bitmap /\ n <= 8 * py_len bitmap.

Lemma bit_spec bitmap cluster :
  wf_bytes bitmap -> 0 <= cluster < 8 * py_len bitmap -> _bit bitmap cluster = Ok (bit_at bitmap cluster).
Proof.
  intros Hw Hc. unfold _bit. rewrite shiftr3, land7. pose proof (div8_bounds cluster).
  destruct (py_get_byte bitmap (cluster / 8) Hw ltac:(lia)) as (v & -> & Hv & _). simpl.
  rewrite land_mask by (apply Z.mod_pos_bound; lia). unfold bit_at. by rewrite Hv.
Qed.

Lemma set_bit_spec bitmap cluster value :
  wf_bytes bitmap -> 0 <= cluster < 8 * py_len bitmap ->
  exists bitmap', _set_bit bitmap cluster value = Ok bitmap' /\ sets bitmap bitmap' (fun i => i =? cluster) value.
Proof.
  intros Hw Hc. unfold _set_bit. rewrite shiftr3, land7. pose proof (div8_bounds cluster).
  pose proof (Z.mod_pos_bound cluster 8 ltac:(lia)). pose proof (Z.div_mod cluster 8 ltac:(lia)).
  destruct (py_get_byte bitmap (cluster / 8) Hw ltac:(lia)) as (v & -> & Hv & Hbv). simpl mbind.
  exists (<[Z.to_nat (cluster / 8) := byte_set v (cluster mod 8) value]> bitmap). split.
  { unfold byte_set. destruct value; by rewrite py_set_in by lia. }
  split; [|split; [apply py_len_insert|]].
  { apply Forall_insert; [done|]. apply is_byte_byte_set; [done|lia]. }
  intros i Hi. unfold bit_at. pose proof (div8_bounds i). pose proof (Z.mod_pos_bound i 8 ltac:(lia)).
  pose proof (Z.div_mod i 8 ltac:(lia)). destruct (decide (i / 8 = cluster / 8)) as [He|Hne].
  - rewrite He, list_lookup_insert_eq, Hv by (apply lookup_lt_Some in Hv; lia).
    rewrite byte_set_bits by (done || lia).
    destruct (Z.eqb_spec (i mod 8) (cluster mod 8)), (Z.eqb_spec i cluster); congruence || lia || done.
  - rewrite list_lookup_insert_ne by lia. destruct (Z.eqb_spec i cluster) as [->|]; [lia|done].
Qed.

Ltac between_cases := unfold between; intros; ztests; simpl; try done; lia.

Lemma set_bits_while_spec fuel cond value : forall bitmap start stop,
  wf_bitmap bitmap stop -> 0 <= start -> (Z.to_nat (stop - start) <= fuel)%nat ->
  exists bitmap' start', set_bits_while fuel cond bitmap start stop value = Ok (bitmap', start') /\
    start <= start' <= Z.max start stop /\ sets bitmap bitmap' (between start start') value /\
    (start' < stop -> cond start' = false) /\
    (forall x, start <= x < start' -> cond x = true).
Proof.
  induction fuel as [|fuel IH]; intros bitmap start stop [Hw Hl] Hs Hf; cbn [set_bits_while];
    (destruct ((start <? stop) && cond start) eqn:E; [bool_to_prop|]).
  1: lia.
  1,3: exists bitmap, start; split; [done|]; split; [lia|]; split; [apply sets_none; [done|between_cases]|];
       split; [intros; apply andb_false_iff in E as [E|E]; [bool_to_prop; lia|done]|lia].
  destruct (set_bit_spec bitmap start value Hw ltac:(lia)) as (b1 & -> & Hb1). simpl mbind.
  pose proof Hb1 as (W1 & L1 & _).
  destruct (IH b1 (start + 1) stop) as (b2 & s2 & -> & Hs2 & Hset & Hstop & Hall); [split; [done|lia]|lia|lia|].
  exists b2, s2. split; [done|]. split; [lia|]. split; [|split; [done|]].
  - eapply sets_trans; [exact Hb1|exact Hset|]. between_cases.
  - intros x Hx. destruct (decide (x = start)) as [->|]; [done|]. apply Hall. lia.
Qed.

Lemma byte_fill_spec bitmap bs be (value : bool) :
  wf_bytes bitmap -> 0 <= bs <= be -> be <= py_len bitmap ->
  sets bitmap (py_set_slice bitmap bs be (replicate (Z.to_nat (be - bs)) (if value then 255 else 0)))
    (between (8 * bs) (8 * be)) value.
Proof.
  intros Hw Hb Hl. set (fill := replicate _ _).
  assert (py_len fill = be - bs) as Hfl by (unfold py_len, fill; rewrite length_replicate; lia).
  split; [|split].
  - apply wf_py_set_slice; [done|]. apply Forall_replicate. destruct value; red; lia.
  - rewrite py_len_set_slice by lia. lia.
  - intros i Hi. unfold bit_at. rewrite py_set_slice_in by lia. pose proof (div8_bounds i).
    pose proof (Z.mod_pos_bound i 8 ltac:(lia)). unfold py_len in *.
    destruct (decide (i / 8 < bs)).
    { rewrite lookup_app_l by (rewrite length_take; lia). rewrite lookup_take_lt by lia.
      replace (between (8 * bs) (8 * be) i) with false by (unfold between; ztests; simpl; try done; lia). done. }
    rewrite lookup_app_r by (rewrite length_take; lia). rewrite length_take.
    destruct (decide (i / 8 < be)).
    + rewrite lookup_app_l by lia. unfold fill. rewrite lookup_replicate_2 by lia.
      replace (between (8 * bs) (8 * be) i) with true by (unfold between; ztests; simpl; try done; lia).
      destruct value; [|apply Z.testbit_0_l]. change 255 with (Z.ones 8). apply Z.ones_spec_low. lia.
    + rewrite lookup_app_r by lia. rewrite lookup_drop.
      replace (between (8 * bs) (8 * be) i) with false by (unfold between; ztests; simpl; try done; lia).
      by replace (Z.to_nat be + _)%nat with (Z.to_nat (i / 8)) by lia.
Qed.

Lemma set_range_facts bitmap start len value :
  wf_bitmap bitmap (start + len) -> 0 <= start ->
  exists bitmap', _set_range bitmap start len value = Ok bitmap' /\
    sets bitmap bitmap' (between start (start + len)) value.
Proof.
  intros [Hw Hl] Hs. unfold _set_range. destruct (Z.leb_spec len 0).
  { exists bitmap. split; [done|]. apply sets_none; [done|]. between_cases. }
  rewrite !shiftr3.
  destruct (set_bits_while_spec (Z.to_nat len) (fun s => negb (Z.land s 7 =? 0)) value bitmap start (start + len))
    as (b1 & s1 & -> & Hs1 & Hset1 & Hstop1 & _); [by split|lia|lia|].
  cbn [mbind result_bind]. rewrite shiftr3. pose proof Hset1 as (W1 & L1 & _).
  pose proof (div8_bounds s1). pose proof (div8_bounds (start + len)).
  assert (s1 < start + len -> s1 = 8 * (s1 / 8)) as Hal.
  { intros Hlt. apply Hstop1 in Hlt. rewrite land7 in Hlt. pose proof (Z.div_mod s1 8 ltac:(lia)).
    apply negb_false_iff, Z.eqb_eq in Hlt. lia. }
  set (stop := start + len) in *.
  assert (exists b2 s2, (if s1 / 8 <? stop / 8 then
       (py_set_slice b1 (s1 / 8) (stop / 8) (replicate (Z.to_nat (stop / 8 - s1 / 8)) (if value then 255 else 0)),
        Z.shiftl (stop / 8) 3) else (b1, s1)) = (b2, s2) /\ s1 <= s2 <= stop /\ sets b1 b2 (between s1 s2) value)
    as (b2 & s2 & -> & Hs2 & Hset2).
  { destruct (Z.ltb_spec (s1 / 8) (stop / 8)).
    - eexists _, _. split; [done|]. rewrite Z.shiftl_mul_pow2 by lia. change (2 ^ 3) with 8. split; [lia|].
      eapply sets_ext; [apply byte_fill_spec; [done|lia|lia]|]. intros i _.
      rewrite <- Hal by lia. by rewrite (Z.mul_comm 8).
    - eexists _, _. split; [done|]. split; [lia|]. apply sets_none; [done|]. between_cases. }
  pose proof Hset2 as (W2 & L2 & _).
  destruct (set_bits_while_spec (Z.to_nat len) (fun _ => true) value b2 s2 stop)
    as (b3 & s3 & -> & Hs3 & Hset3 & Hstop3 & _); [split; [done|lia]|lia|lia|].
  cbn [mbind result_bind]. exists b3. split; [done|].
  assert (s3 = stop) as -> by (destruct (decide (s3 < stop)) as [Hlt|]; [by apply Hstop3 in Hlt|lia]).
  assert (sets bitmap b2 (between start s2) value) as H12.
  { eapply sets_trans with (p := between start s1) (q := between s1 s2); [done|done|]. between_cases. }
  eapply sets_trans; [exact H12|exact Hset3|]. between_cases.
Qed.

(** [_set_range], with its byte-wide fast path, succeeds on every range
    inside the bitmap, sets exactly the clusters of the range, and leaves
    every other cluster and the length of the bitmap unchanged. *)
Theorem set_range_exact (bitmap : bytes) (start len : Z) (value : bool)
    (Hbytes : wf_bytes bitmap) (Hstart : 0 <= start) (Hlen : 0 <= len)
    (Hroom : start + len <= 8 * py_len bitmap) :
  exists bitmap', _set_range bitmap start len value = Ok bitmap' /\
    wf_bytes bitmap' /\ py_len bitmap' = py_len bitmap /\
    forall i, 0 <= i -> bit_at bitmap' i = if (start <=? i) && (i <? start + len) then value else bit_at bitmap i.
Proof. apply set_range_facts; [by split|done]. Qed.

Lemma set_range_exact_witness :
  exists bitmap', _set_range [170; 170; 0; 255] 3 19 true = Ok bitmap' /\
    wf_bytes bitmap' /\ py_len bitmap' = py_len [170; 170; 0; 255] /\
    forall i, 0 <= i -> bit_at bitmap' i
      = if (3 <=? i) && (i <? 3 + 19) then true else bit_at [170; 170; 0; 255] i.
Proof.
  apply (set_range_exact [170; 170; 0; 255] 3 19 true);
    [repeat constructor; lia|lia|lia|unfold py_len; simpl; lia].
Defined.

(** ** Setting whole run lists *)

(** The clusters of a run list. *)
Definition in_run (r : Run) (x : Z) : bool :=
  match lcn r with Some l => between l (l + length_of r) x | None => false end.

Definition in_runs (runs : list Run) (x : Z) : bool := existsb (fun r => in_run r x) runs.

Definition runs_fit (bitmap : bytes) (runs : list Run) : Prop :=
  Forall (fun r => match lcn r with
                   | Some l => 0 <= l /\ 0 <= length_of r /\ l + length_of r <= 8 * py_len bitmap
                   | None => False end) runs.

Lemma set_runs_spec value runs : forall bitmap,
  wf_bytes bitmap -> runs_fit bitmap runs ->
  exists bitmap', set_runs bitmap runs value = Ok bitmap' /\ sets bitmap bitmap' (in_runs runs) value.
Proof.
  induction runs as [|r runs IH]; intros bitmap Hw Hfit.
  { exists bitmap. split; [done|]. by apply sets_none. }
  apply Forall_cons in Hfit as [Hr Hfit]. unfold set_runs. cbn [foldM].
  destruct (lcn r) as [l|] eqn:El; [|done]. destruct Hr as (H0 & Hlen & Hl).
  destruct (set_range_facts bitmap l (length_of r) value) as (b1 & Hb1 & Hs1); [by split|done|].
  assert (set_run value bitmap r = Ok b1) as -> by (unfold set_run; by rewrite El).
  pose proof Hs1 as (W1 & L1 & _). cbn [mbind result_bind].
  destruct (IH b1 W1) as (b2 & Hb2 & Hs2); [unfold runs_fit; by rewrite L1|].
  exists b2. split; [exact Hb2|]. eapply sets_trans; [exact Hs1|exact Hs2|].
  intros i _. unfold in_runs. simpl. unfold in_run at 1. by rewrite El.
Qed.

(** ** Lemmas: the whole-byte fast path *)

Lemma fast_byte bitmap cluster limit :
  wf_bytes bitmap -> 0 <= cluster -> limit <= 8 * py_len bitmap ->
  (cluster mod 8 =? 0) && (cluster + 8 <=? limit) = true ->
  exists v, py_get bitmap (Z.shiftr cluster 3) = Ok v /\
    (v = 0 -> forall x, cluster <= x < cluster + 8 -> bit_at bitmap x = false) /\
    (v = 255 -> forall x, cluster <= x < cluster + 8 -> bit_at bitmap x = true).
Proof.
  intros Hw Hc Hl H. bool_to_prop. rewrite shiftr3. pose proof (Z.div_mod cluster 8 ltac:(lia)).
  destruct (py_get_byte bitmap (cluster / 8) Hw ltac:(lia)) as (v & -> & Hv & _). exists v. split; [done|].
  assert (forall x, cluster <= x < cluster + 8 -> bit_at bitmap x = Z.testbit v (x - cluster)) as Hx.
  { intros x Hx. replace x with (8 * (cluster / 8) + (x - cluster)) at 1 by lia. apply bit_at_byte; [done|lia]. }
  split; intros -> x Hr; rewrite Hx by done; [apply Z.testbit_0_l|].
  change 255 with (Z.ones 8). apply Z.ones_spec_low. lia.
Qed.

Lemma skip_while_spec bitmap limit used fuel : forall cluster,
  wf_bitmap bitmap limit -> 0 <= cluster -> (Z.to_nat (limit - cluster) <= fuel)%nat ->
  exists c, skip_while fuel bitmap limit used cluster = Ok c /\ cluster <= c <= Z.max cluster limit /\
    (forall x, cluster <= x < c -> bit_at bitmap x = used) /\
    (c < limit -> bit_at bitmap c = negb used).
Proof.
  induction fuel as [|fuel IH]; intros cluster [Hw Hl] Hc Hf; cbn [skip_while];
    (destruct (Z.ltb_spec cluster limit); [|exists cluster; split; [done|]; repeat split; lia]); [lia|].
  assert (Hstay : bit_at bitmap cluster = negb used ->
    exists c, Ok cluster = Ok c /\ cluster <= c <= Z.max cluster limit /\
      (forall x, cluster <= x < c -> bit_at bitmap x = used) /\ (c < limit -> bit_at bitmap c = negb used))
    by (intros; exists cluster; split; [done|]; repeat split; (lia || done)).
  assert (Hgo : forall n, 0 < n -> cluster + n <= limit -> (forall x, cluster <= x < cluster + n -> bit_at bitmap x = used) ->
    exists c, skip_while fuel bitmap limit used (cluster + n) = Ok c /\ cluster <= c <= Z.max cluster limit /\
      (forall x, cluster <= x < c -> bit_at bitmap x = used) /\ (c < limit -> bit_at bitmap c = negb used)).
  { intros n Hn Hle Hall. destruct (IH (cluster + n)) as (c & -> & Hr & Hall' & Hend); [by split|lia|lia|].
    exists c. split; [done|]. split; [lia|]. split; [|done]. intros x Hx.
    destruct (decide (x < cluster + n)); [apply Hall; lia|apply Hall'; lia]. }
  assert (Hslow : exists c, (b ← _bit bitmap cluster;
        if eqb b used then skip_while fuel bitmap limit used (cluster + 1) else Ok cluster) = Ok c /\
      cluster <= c <= Z.max cluster limit /\
      (forall x, cluster <= x < c -> bit_at bitmap x = used) /\ (c < limit -> bit_at bitmap c = negb used)).
  { rewrite bit_spec by (done || lia). cbn [mbind result_bind].
    destruct (eqb (bit_at bitmap cluster) used) eqn:Eb.
    - apply eqb_prop in Eb. apply Hgo; [lia|lia|]. intros x Hx. by replace x with cluster by lia.
    - apply Hstay. by destruct (bit_at bitmap cluster), used. }
  destruct ((cluster mod 8 =? 0) && (cluster + 8 <=? limit)) eqn:Ef; [|exact Hslow].
  destruct (fast_byte bitmap cluster limit Hw Hc Hl Ef) as (v & -> & H0 & H255). cbn [mbind result_bind].
  bool_to_prop. destruct (Z.eqb_spec v (if used then 255 else 0)) as [Hv|].
  { apply Hgo; [lia|done|]. destruct used; [by apply H255|by apply H0]. }
  destruct (Z.eqb_spec v (if used then 0 else 255)) as [Hv|]; [|exact Hslow].
  apply Hstay. destruct used; [apply H0|apply H255]; (done || lia).
Qed.

Lemma scan_limit_room bitmap before : wf_bytes bitmap -> wf_bitmap bitmap (scan_limit bitmap before).
Proof. intros. split; [done|]. unfold scan_limit. pose proof (py_len_nonneg bitmap). lia. Qed.

(** [_next_free_run] returns the first maximal free extent at or above [start]. *)
Definition first_free_run (bitmap : bytes) (start limit : Z) (r : option Run) : Prop :=
  match r with
  | None => forall x, start <= x < limit -> bit_at bitmap x = true
  | Some run => exists s n, run = mkRun (Some s) n /\ 0 < n /\ start <= s /\ s + n <= limit /\
      (forall x, start <= x < s -> bit_at bitmap x = true) /\
      (forall x, s <= x < s + n -> bit_at bitmap x = false) /\
      (s + n < limit -> bit_at bitmap (s + n) = true)
  end.

Lemma next_free_run_spec bitmap start before :
  wf_bytes bitmap ->
  exists r, _next_free_run bitmap start before = Ok r /\
    first_free_run bitmap (Z.max 0 start) (scan_limit bitmap before) r.
Proof.
  intros Hw. unfold _next_free_run. pose proof (scan_limit_room bitmap before Hw) as Hroom.
  set (limit := scan_limit bitmap before) in *. assert (0 <= limit) by (unfold limit, scan_limit; lia).
  destruct (skip_while_spec bitmap limit true (Z.to_nat limit) (Z.max 0 start)) as (c & -> & Hc & Hall & Hend); [done|lia|lia|].
  cbn [mbind result_bind]. destruct (Z.leb_spec limit c).
  { exists None. split; [done|]. intros x Hx. apply Hall. lia. }
  destruct (skip_while_spec bitmap limit false (Z.to_nat limit) c) as (d & -> & Hd & Hall2 & Hend2); [done|lia|lia|].
  cbn [mbind result_bind]. eexists. split; [done|]. exists c, (d - c).
  assert (c < d).
  { destruct (decide (d = c)) as [->|]; [|lia]. specialize (Hend ltac:(lia)). specialize (Hend2 ltac:(lia)). simpl in Hend, Hend2. congruence. }
  split; [done|]. split; [lia|]. split; [lia|]. split; [lia|]. split; [exact Hall|].
  replace (c + (d - c)) with d by lia. split; [exact Hall2|]. intros Hlt. by apply Hend2.
Qed.

(** ** Lemmas: the list of free runs *)

Definition run_range (r : Run) : range := (default 0 (lcn r), default 0 (lcn r) + length_of r).

Lemma separated_app a b :
  separated a -> separated b -> (forall x y, x ∈ a -> y ∈ b -> x.2 < y.1) -> separated (a ++ b).
Proof.
  intros [Pa Sa] [Pb Sb] H. split; [by apply Forall_app_2|]. by apply StronglySorted_app_2.
Qed.

Lemma separated_one (r : range) : r.1 < r.2 -> separated [r].
Proof. intros. split; [by apply Forall_singleton|]. repeat constructor. Qed.

(** The state of the scan: [acc] holds the closed free runs below the open
    one, the open one starts at [start]. *)
Definition free_inv (bitmap : bytes) (acc : list Run) (start : option Z) (cluster : Z) : Prop :=
  Forall (fun r => is_physical r = true) acc /\ separated (map run_range acc) /\
  (forall x, covers (map run_range acc) x <-> 0 <= x < default cluster start /\ bit_at bitmap x = false) /\
  match start with
  | None => 0 <= cluster /\ Forall (fun r => r.2 < cluster) (map run_range acc)
  | Some s => 0 <= s < cluster /\ Forall (fun r => r.2 < s) (map run_range acc) /\
              forall x, s <= x < cluster -> bit_at bitmap x = false
  end.

Lemma free_inv_close bitmap acc start cluster :
  free_inv bitmap acc start cluster ->
  Forall (fun r => is_physical r = true) (close_run acc start cluster) /\
  separated (map run_range (close_run acc start cluster)) /\
  Forall (fun r => r.2 <= cluster) (map run_range (close_run acc start cluster)) /\
  (forall x, covers (map run_range (close_run acc start cluster)) x <-> 0 <= x < cluster /\ bit_at bitmap x = false).
Proof.
  intros (Hp & Hs & Hc & Hst). destruct start as [s|]; simpl in *.
  2:{ split; [done|]. split; [done|]. split; [|done]. eapply Forall_impl; [apply Hst|]. simpl. lia. }
  destruct Hst as (Hr & Hb & Hfree). rewrite map_app. simpl map.
  assert (run_range (mkRun (Some s) (cluster - s)) = (s, cluster)) as Hrr
    by (unfold run_range; simpl; f_equal; lia). rewrite Hrr.
  split; [by apply Forall_app_2; [|apply Forall_singleton]|]. split; [|split].
  - apply separated_app; [done|apply separated_one; simpl; lia|].
    intros x y Hx Hy. apply list_elem_of_singleton in Hy as ->. rewrite Forall_forall in Hb. by apply Hb.
  - apply Forall_app_2; [|apply Forall_singleton; simpl; lia]. eapply Forall_impl; [exact Hb|]. simpl. lia.
  - intros x. rewrite covers_app, Hc, covers_cons. simpl. pose proof (covers_nil x).
    split; [intros [?|[?|?]]; [intuition lia|split; [lia|apply Hfree; lia]|done]|].
    intros [Hx Hbit]. destruct (decide (x < s)); [left|right; left]; (split; [lia|done]) || lia.
Qed.

Lemma free_inv_used bitmap acc start cluster n :
  free_inv bitmap acc start cluster -> 0 < n ->
  (forall x, cluster <= x < cluster + n -> bit_at bitmap x = true) ->
  free_inv bitmap (close_run acc start cluster) None (cluster + n).
Proof.
  intros Hinv Hn Hused. assert (0 <= cluster) as H0 by (destruct Hinv as (_ & _ & _ & H); destruct start; simpl in H; lia).
  destruct (free_inv_close _ _ _ _ Hinv) as (Hp & Hs & Hle & Hc).
  split; [done|]. split; [done|]. split; simpl.
  - intros x. rewrite Hc. split; [intros [? ?]; split; [lia|done]|]. intros [Hx Hb]. split; [|done].
    destruct (decide (x < cluster)); [lia|]. rewrite Hused in Hb by lia. done.
  - split; [lia|]. eapply Forall_impl; [exact Hle|]. simpl. lia.
Qed.

Lemma free_inv_free bitmap acc start cluster n :
  free_inv bitmap acc start cluster -> 0 < n ->
  (forall x, cluster <= x < cluster + n -> bit_at bitmap x = false) ->
  free_inv bitmap acc (open_run start cluster) (cluster + n).
Proof.
  intros (Hp & Hs & Hc & Hst) Hn Hfree. destruct start as [s|]; simpl in *.
  - destruct Hst as (Hr & Hb & Hf). repeat (split; [done|]). split; [lia|]. split; [done|].
    intros x Hx. destruct (decide (x < cluster)); [apply Hf|apply Hfree]; lia.
  - destruct Hst as [H0 Hb]. repeat (split; [done|]). split; [lia|]. split; [done|]. done.
Qed.

Lemma free_runs_loop_spec bitmap limit fuel : forall acc start cluster,
  wf_bitmap bitmap limit -> free_inv bitmap acc start cluster -> cluster <= limit ->
  (Z.to_nat (limit - cluster) <= fuel)%nat ->
  exists runs, free_runs_loop fuel bitmap limit acc start cluster = Ok runs /\
    Forall (fun r => is_physical r = true) runs /\ separated (map run_range runs) /\
    (forall x, covers (map run_range runs) x <-> 0 <= x < limit /\ bit_at bitmap x = false).
Proof.
  induction fuel as [|fuel IH]; intros acc start cluster [Hw Hl] Hinv Hle Hf; cbn [free_runs_loop];
    (destruct (Z.ltb_spec cluster limit) as [Hlt|]; [|assert (cluster = limit) as -> by lia;
       eexists; split; [done|]; destruct (free_inv_close _ _ _ _ Hinv) as (? & ? & _ & ?); done]); [lia|].
  assert (0 <= cluster) as H0 by (destruct Hinv as (_ & _ & _ & H); destruct start; simpl in H; lia).
  assert (Hslow : exists runs, (b ← _bit bitmap cluster;
      if (b : bool) then free_runs_loop fuel bitmap limit (close_run acc start cluster) None (cluster + 1)
      else free_runs_loop fuel bitmap limit acc (open_run start cluster) (cluster + 1)) = Ok runs /\
    Forall (fun r => is_physical r = true) runs /\ separated (map run_range runs) /\
    (forall x, covers (map run_range runs) x <-> 0 <= x < limit /\ bit_at bitmap x = false)).
  { rewrite bit_spec by (done || lia). cbn [mbind result_bind].
    destruct (bit_at bitmap cluster) eqn:Eb; (apply IH; [by split| |lia|lia]);
      [apply free_inv_used|apply free_inv_free]; try done; try lia; intros x Hx; by replace x with cluster by lia. }
  destruct ((cluster mod 8 =? 0) && (cluster + 8 <=? limit)) eqn:Ef; [|exact Hslow].
  destruct (fast_byte bitmap cluster limit Hw H0 Hl Ef) as (v & -> & Hv0 & Hv255). cbn [mbind result_bind].
  bool_to_prop. destruct (Z.eqb_spec v 0) as [Hv|].
  { apply IH; [by split| |lia|lia]. apply free_inv_free; [done|lia|by apply Hv0]. }
  destruct (Z.eqb_spec v 255) as [Hv|]; [|exact Hslow].
  apply IH; [by split| |lia|lia]. apply free_inv_used; [done|lia|by apply Hv255].
Qed.

Lemma free_runs_facts bitmap before :
  wf_bytes bitmap ->
  exists runs, _free_runs_before bitmap before = Ok runs /\
    Forall (fun r => is_physical r = true) runs /\ separated (map run_range runs) /\
    (forall x, covers (map run_range runs) x <-> 0 <= x < scan_limit bitmap before /\ bit_at bitmap x = false).
Proof.
  intros Hw. apply free_runs_loop_spec; [by apply scan_limit_room| |unfold scan_limit; lia|lia].
  split; [constructor|]. split; [split; constructor|]. split; [|split; [lia|constructor]].
  intros x. simpl. pose proof (covers_nil x). split; [done|lia].
Qed.

(** [_free_runs_before] terminates and lists the maximal free extents
    below the limit: ascending, separated by allocated clusters, and together
    covering exactly the free clusters the bitmap shows. *)
Theorem free_runs_before_exact (bitmap : bytes) (before : Z) (Hbytes : wf_bytes bitmap) :
  exists runs, _free_runs_before bitmap before = Ok runs /\ separated (map run_range runs) /\
    forall x, covers (map run_range runs) x <->
      0 <= x < Z.min before (8 * py_len bitmap) /\ bit_at bitmap x = false.
Proof.
  destruct (free_runs_facts bitmap before Hbytes) as (runs & Hr & _ & Hs & Hc).
  exists runs. split; [done|]. split; [done|]. intros x. rewrite Hc. unfold scan_limit. pose proof (py_len_nonneg bitmap). intuition lia.
Qed.

Lemma free_runs_before_exact_witness :
  exists runs, _free_runs_before [15; 0; 255; 129] 30 = Ok runs /\ separated (map run_range runs) /\
    forall x, covers (map run_range runs) x <->
      0 <= x < Z.min 30 (8 * py_len [15; 0; 255; 129]) /\ bit_at [15; 0; 255; 129] x = false.
Proof. apply free_runs_before_exact. repeat constructor; lia. Defined.

(** ** First fit *)

Lemma find_split {A} (f : A -> bool) l x :
  List.find f l = Some x -> exists l1 l2, l = l1 ++ x :: l2 /\ Forall (fun y => f y = false) l1 /\ f x = true.
Proof.
  induction l as [|y l IH]; simpl; [done|]. destruct (f y) eqn:E.
  - intros [= ->]. exists [], l. done.
  - intros H. destruct (IH H) as (l1 & l2 & -> & Hl & Hx). exists (y :: l1), l2. split; [done|]. split; [by constructor|done].
Qed.

(** An interval covered by separated ranges lies inside one of them. *)
Lemma interval_in_one rs a b :
  separated rs -> a < b -> (forall x, a <= x < b -> covers rs x) ->
  exists r, r ∈ rs /\ r.1 <= a /\ b <= r.2.
Proof.
  intros [Hp Hs] Hab Hc. destruct (proj1 (Exists_exists _ _) (Hc a ltac:(lia))) as (r & Hr & Ha).
  exists r. split; [done|]. split; [lia|]. destruct (Z.le_gt_cases b r.2) as [|Hlt]; [done|exfalso].
  destruct (proj1 (Exists_exists _ _) (Hc r.2 ltac:(lia))) as (q & Hq & Hqx).
  apply list_elem_of_split in Hr as (l1 & l2 & ->). apply StronglySorted_app in Hs as (Hx & _ & Hs).
  apply StronglySorted_inv in Hs as [_ Hafter]. rewrite Forall_forall in Hafter.
  rewrite elem_of_app, elem_of_cons in Hq. destruct Hq as [Hq|[->|Hq]].
  - specialize (Hx q r Hq ltac:(set_solver)). lia.
  - lia.
  - specialize (Hafter q Hq). lia.
Qed.

Definition all_free (bitmap : bytes) (a b : Z) : Prop := forall x, a <= x < b -> bit_at bitmap x = false.

Lemma find_free_run_facts bitmap len before :
  wf_bytes bitmap -> 0 < len ->
  exists r, _find_free_run bitmap len before = Ok r /\
  match r with
  | Some s => 0 <= s /\ s + len <= scan_limit bitmap before /\ all_free bitmap s (s + len) /\
              forall s', 0 <= s' < s -> ~ all_free bitmap s' (s' + len)
  | None => forall s', 0 <= s' -> s' + len <= scan_limit bitmap before -> ~ all_free bitmap s' (s' + len)
  end.
Proof.
  intros Hw Hlen. unfold _find_free_run. rewrite (proj2 (Z.leb_gt len 0)) by done.
  destruct (free_runs_facts bitmap before Hw) as (runs & -> & Hp & Hs & Hc). cbn [mbind result_bind].
  set (limit := scan_limit bitmap before) in *.
  assert (Hin : forall s', 0 <= s' -> s' + len <= limit -> all_free bitmap s' (s' + len) ->
            exists r, r ∈ runs /\ (run_range r).1 <= s' /\ len <= length_of r).
  { intros s' H0 Hl Hf. destruct (interval_in_one (map run_range runs) s' (s' + len)) as (q & Hq & Hq1 & Hq2); [done|lia| |].
    - intros x Hx. apply Hc. split; [lia|by apply Hf].
    - apply list_elem_of_fmap in Hq as (r & -> & Hr). exists r. split; [done|]. unfold run_range in *. simpl in *. lia. }
  destruct (List.find _ runs) as [run|] eqn:Ef; eexists; (split; [done|]).
  - destruct (find_split _ _ _ Ef) as (l1 & l2 & -> & Hl1 & Hrun). apply Z.leb_le in Hrun.
    assert (exists s, lcn run = Some s) as [s Hsl].
    { apply Forall_app in Hp as [_ Hp]. apply Forall_cons in Hp as [Hp _]. unfold is_physical in Hp. destruct (lcn run); [eauto|done]. }
    assert (run_range run = (s, s + length_of run)) as Hrr by (unfold run_range; by rewrite Hsl).
    rewrite Hsl. rewrite map_app in Hs, Hc. simpl in Hs, Hc. rewrite Hrr in Hs, Hc.
    assert (Hcov : forall x, s <= x < s + length_of run -> 0 <= x < limit /\ bit_at bitmap x = false).
    { intros x Hx. apply Hc. rewrite covers_app, covers_cons. right. by left. }
    pose proof (Hcov s ltac:(lia)). pose proof (Hcov (s + length_of run - 1) ltac:(lia)).
    split; [lia|]. split; [lia|]. split; [intros x Hx; apply Hcov; lia|].
    intros s' Hs' Hf. destruct (Hin s') as (r & Hr & Hr1 & Hr2); [lia|lia|done|].
    rewrite elem_of_app, elem_of_cons in Hr. destruct Hr as [Hr|[->|Hr]].
    + rewrite Forall_forall in Hl1. specialize (Hl1 r Hr). bool_to_prop. lia.
    + rewrite Hrr in Hr1. simpl in Hr1. lia.
    + destruct Hs as [_ Hs]. apply StronglySorted_app_1_r in Hs. apply StronglySorted_inv in Hs as [_ Hafter].
      rewrite Forall_forall in Hafter. specialize (Hafter (run_range r)). simpl in Hafter.
      assert (s + length_of run < (run_range r).1) by (apply Hafter, list_elem_of_fmap; eauto). lia.
  - intros s' H0 Hl Hf. destruct (Hin s' H0 Hl Hf) as (r & Hr & _ & Hlr).
    apply find_none with (x := r) in Ef; [|by apply list_elem_of_In]. bool_to_prop. lia.
Qed.

(** [_find_free_run] is first fit: it returns the lowest cluster where
    [len] consecutive clusters below the limit are free, and [None] only when
    no such place exists. *)
Theorem find_free_run_first_fit (bitmap : bytes) (len before : Z)
    (Hbytes : wf_bytes bitmap) (Hlen : 0 < len) :
  exists r, _find_free_run bitmap len before = Ok r /\
  match r with
  | Some s => 0 <= s /\ s + len <= scan_limit bitmap before /\ all_free bitmap s (s + len) /\
              forall s', 0 <= s' < s -> ~ all_free bitmap s' (s' + len)
  | None => forall s', 0 <= s' -> s' + len <= scan_limit bitmap before -> ~ all_free bitmap s' (s' + len)
  end.
Proof. by apply find_free_run_facts. Qed.

Lemma find_free_run_first_fit_witness :
  exists r, _find_free_run [199; 1; 254] 4 24 = Ok r /\
  match r with
  | Some s => 0 <= s /\ s + 4 <= scan_limit [199; 1; 254] 24 /\ all_free [199; 1; 254] s (s + 4) /\
              forall s', 0 <= s' < s -> ~ all_free [199; 1; 254] s' (s' + 4)
  | None => forall s', 0 <= s' -> s' + 4 <= scan_limit [199; 1; 254] 24 -> ~ all_free [199; 1; 254] s' (s' + 4)
  end.
Proof. apply find_free_run_first_fit; [repeat constructor; lia|lia]. Defined.

(** [_next_free_run] terminates and returns the first maximal free extent
    at or above [start], or [None] when every cluster up to the limit is in use. *)
Theorem next_free_run_exact (bitmap : bytes) (start before : Z) (Hbytes : wf_bytes bitmap) :
  exists r, _next_free_run bitmap start before = Ok r /\
    first_free_run bitmap (Z.max 0 start) (scan_limit bitmap before) r.
Proof. by apply next_free_run_spec. Qed.

Lemma next_free_run_exact_witness :
  exists r, _next_free_run [255; 3; 0; 240] 1 32 = Ok r /\
    first_free_run [255; 3; 0; 240] (Z.max 0 1) (scan_limit [255; 3; 0; 240] 32) r.
Proof. apply next_free_run_exact. repeat constructor; lia. Defined.

(** ** Gap statistics *)

Definition is_free (bitmap : bytes) (x : Z) : bool := negb (bit_at bitmap x).

(** [x] begins a maximal free extent of the clusters from [start] on. *)
Definition gap_start (bitmap : bytes) (start x : Z) : bool :=
  is_free bitmap x && ((x =? start) || bit_at bitmap (x - 1)).

(** The lowest free cluster in [a, b). *)
Definition first_free (bitmap : bytes) (a b : Z) : option Z :=
  List.find (is_free bitmap) (py_range a b).

Lemma first_free_at bitmap a s b :
  a <= s < b -> (forall x, a <= x < s -> bit_at bitmap x = true) -> bit_at bitmap s = false ->
  first_free bitmap a b = Some s.
Proof.
  intros Hs Hall Hf. unfold first_free. rewrite (py_range_split a s b) by lia.
  assert (Hnone : forall l, (forall x, x ∈ l -> bit_at bitmap x = true) ->
    forall k, List.find (is_free bitmap) (l ++ k) = List.find (is_free bitmap) k).
  { induction l as [|y l IH]; intros Hl k; [done|]. simpl. unfold is_free at 1. rewrite Hl by set_solver. simpl. apply IH. set_solver. }
  rewrite Hnone by (intros x Hx%elem_of_py_range; by apply Hall).
  rewrite py_range_cons by lia. simpl. unfold is_free at 1. by rewrite Hf.
Qed.

Lemma first_free_none bitmap a b : (forall x, a <= x < b -> bit_at bitmap x = true) -> first_free bitmap a b = None.
Proof.
  intros H. unfold first_free. destruct (List.find _ _) eqn:E; [|done].
  apply find_some in E as [Hin Hf]. apply list_elem_of_In, elem_of_py_range in Hin.
  unfold is_free in Hf. by rewrite H in Hf.
Qed.

Lemma gap_step bitmap c s n limit :
  c <= s -> 0 < n -> s + n <= limit ->
  (forall x, c <= x < s -> bit_at bitmap x = true) -> all_free bitmap s (s + n) ->
  (s + n < limit -> bit_at bitmap (s + n) = true) ->
  count_where (gap_start bitmap c) c limit = 1 + count_where (gap_start bitmap (s + n)) (s + n) limit /\
  count_where (is_free bitmap) c limit = n + count_where (is_free bitmap) (s + n) limit.
Proof.
  intros Hcs Hn Hl Hused Hfree Hend. split.
  - rewrite (count_where_split _ c s), (count_where_split _ s (s + 1)), (count_where_split _ (s + 1) (s + n)) by lia.
    rewrite count_where_one, (count_where_none _ c s), (count_where_none _ (s + 1)).
    + replace (gap_start bitmap c s) with true.
      2:{ unfold gap_start, is_free. rewrite Hfree by lia. simpl. destruct (Z.eqb_spec s c); [done|].
          by rewrite (Hused (s - 1)) by lia. }
      rewrite (count_where_ext _ (gap_start bitmap (s + n))); [simpl; lia|].
      intros x Hx. unfold gap_start, is_free. rewrite (proj2 (Z.eqb_neq x c)) by lia.
      destruct (Z.eqb_spec x (s + n)) as [->|]; [|done]. by rewrite Hend by lia.
    + intros x Hx. unfold gap_start. rewrite (proj2 (Z.eqb_neq x c)) by lia.
      rewrite (Hfree (x - 1)) by lia. by rewrite andb_false_r.
    + intros x Hx. unfold gap_start, is_free. by rewrite Hused by lia.
  - rewrite (count_where_split _ c s), (count_where_split _ s (s + n)) by lia.
    rewrite (count_where_none _ c s), (count_where_all _ s); [lia|..]; intros x Hx; unfold is_free;
      [by rewrite Hfree by lia|by rewrite Hused by lia].
Qed.

Lemma gap_loop_spec bitmap before fuel : forall count clusters first cursor,
  wf_bytes bitmap -> 0 <= cursor -> (Z.to_nat (scan_limit bitmap before - cursor) <= fuel)%nat ->
  gap_loop fuel bitmap before count clusters first cursor =
    Ok (count + count_where (gap_start bitmap cursor) cursor (scan_limit bitmap before),
        clusters + count_where (is_free bitmap) cursor (scan_limit bitmap before),
        match first with Some f => Some f | None => first_free bitmap cursor (scan_limit bitmap before) end).
Proof.
  set (limit := scan_limit bitmap before).
  induction fuel as [|fuel IH]; intros count clusters first cursor Hw Hc Hf; cbn [gap_loop];
    destruct (next_free_run_spec bitmap cursor before Hw) as (r & -> & Hr); fold limit in Hr;
    rewrite Z.max_r in Hr by lia; cbn [mbind result_bind]; destruct r as [run|].
  2,4: rewrite count_where_none, (count_where_none (is_free _)), first_free_none, !Z.add_0_r;
       [by destruct first|done|intros x Hx; unfold is_free; by rewrite Hr by lia|
        intros x Hx; unfold gap_start, is_free; by rewrite Hr by lia].
  - destruct Hr as (s & n & -> & Hn & Hs & Hl & _). lia.
  - destruct Hr as (s & n & -> & Hn & Hs & Hl & Hused & Hfree & Hend). simpl lcn. cbn [length_of]. change (default 0 (Some s)) with s.
    destruct (gap_step bitmap cursor s n limit) as [-> ->]; [done..|].
    rewrite IH by (done || lia). rewrite (first_free_at bitmap cursor s) by (done || lia || apply Hfree; lia).
    f_equal. f_equal; [f_equal; lia|by destruct first].
Qed.

(** [_free_gap_stats] terminates and returns, for the clusters from
    [start] to the limit, the number of maximal free extents, the number of
    free clusters and the lowest free cluster. *)
Theorem free_gap_stats_exact (bitmap : bytes) (before start : Z) (Hbytes : wf_bytes bitmap) (Hstart : 0 <= start) :
  let limit := scan_limit bitmap before in
  _free_gap_stats bitmap before start =
    Ok (count_where (gap_start bitmap start) start limit,
        count_where (is_free bitmap) start limit,
        first_free bitmap start limit).
Proof.
  cbv zeta. unfold _free_gap_stats. rewrite Z.max_r by lia. rewrite gap_loop_spec by (done || lia). done.
Qed.

Lemma free_gap_stats_exact_witness :
  _free_gap_stats [15; 255; 60; 1] 30 1 = Ok (4, 13, Some 4).
Proof.
  rewrite (free_gap_stats_exact [15; 255; 60; 1] 30 1); [reflexivity|repeat constructor; lia|lia].
Defined.

(** ** The highest used cluster *)

(** [h] is one past the highest used cluster below [limit]. *)
Definition high_water (bitmap : bytes) (limit h : Z) : Prop :=
  0 <= h <= Z.max 0 limit /\ (0 < h -> bit_at bitmap (h - 1) = true) /\ all_free bitmap h limit.

Lemma highest_bits_spec bitmap fuel : forall cluster,
  wf_bytes bitmap -> -1 <= cluster < 8 * py_len bitmap -> ((cluster + 1) mod 8 <= Z.of_nat fuel) ->
  exists r, highest_bits fuel bitmap cluster = Ok r /\
    match r with
    | inl h => 0 < h <= cluster + 1 /\ bit_at bitmap (h - 1) = true /\ all_free bitmap h (cluster + 1)
    | inr c => -1 <= c <= cluster /\ (c + 1) mod 8 = 0 /\ all_free bitmap (c + 1) (cluster + 1)
    end.
Proof.
  induction fuel as [|fuel IH]; intros cluster Hw Hc Hf; cbn [highest_bits]; rewrite land7;
    pose proof (Z.mod_pos_bound (cluster + 1) 8 ltac:(lia)); pose proof (Z.mod_pos_bound cluster 8 ltac:(lia));
    pose proof (Z.div_mod cluster 8 ltac:(lia)); pose proof (Z.div_mod (cluster + 1) 8 ltac:(lia));
    (destruct (Z.leb_spec 0 cluster); simpl andb;
     [|eexists; split; [done|]; replace cluster with (-1) by lia; repeat split; (lia || done || (intros x Hx; lia))]);
    (destruct (Z.eqb_spec (cluster mod 8) 7); simpl negb; cbv iota;
     [eexists; split; [done|]; repeat split; try lia; intros x Hx; lia|]).
  - exfalso. lia.
  - rewrite bit_spec by (done || lia). cbn [mbind result_bind]. destruct (bit_at bitmap cluster) eqn:Eb.
    { eexists. split; [done|]. simpl. replace (cluster + 1 - 1) with cluster by lia. repeat split; try lia; [done|intros x Hx; lia]. }
    destruct (IH (cluster - 1)) as (r & -> & Hr); [done|lia| |].
    { replace (cluster - 1 + 1) with cluster by lia. lia. }
    exists r. split; [done|]. replace (cluster - 1 + 1) with cluster in Hr by lia.
    assert (forall a, all_free bitmap a cluster -> all_free bitmap a (cluster + 1)) as Hext.
    { intros a Ha x Hx. destruct (decide (x = cluster)) as [->|]; [done|apply Ha; lia]. }
    destruct r; destruct Hr as (? & ? & ?); (split; [lia|]); (split; [done|]); by apply Hext.
Qed.

Lemma highest_bytes_spec bitmap fuel : forall q,
  wf_bytes bitmap -> -1 <= q < py_len bitmap -> q < Z.of_nat fuel ->
  exists h, highest_bytes fuel bitmap q = Ok h /\ high_water bitmap (8 * (q + 1)) h.
Proof.
  induction fuel as [|fuel IH]; intros q Hw Hq Hf; cbn [highest_bytes];
    (destruct (Z.leb_spec 0 q); [|exists 0; split; [done|]; repeat split; (lia || intros x Hx; lia)]); [lia|].
  destruct (py_get_byte bitmap q Hw ltac:(lia)) as (v & -> & Hv & Hb). cbn [mbind result_bind].
  assert (forall x, 8 * q <= x < 8 * q + 8 -> bit_at bitmap x = Z.testbit v (x - 8 * q)) as Hx.
  { intros x Hx. replace x with (8 * q + (x - 8 * q)) at 1 by lia. apply bit_at_byte; [done|lia]. }
  destruct (Z.eqb_spec v 0) as [->|Hnz]; simpl negb; cbv iota.
  - destruct (IH (q - 1)) as (h & -> & Hh & Hbit & Hfree); [done|lia|lia|]. exists h. split; [done|].
    split; [lia|]. split; [done|]. intros x Hxr. destruct (decide (x < 8 * (q - 1 + 1))); [apply Hfree; lia|].
    rewrite Hx by lia. apply Z.testbit_0_l.
  - eexists. split; [done|]. red in Hb. rewrite Z.shiftl_mul_pow2 by lia. change (2 ^ 3) with 8.
    unfold bit_length. rewrite (proj2 (Z.eqb_neq v 0)), Z.abs_eq by lia.
    pose proof (Z.log2_nonneg v). assert (Z.log2 v < 8) by (apply Z.log2_lt_pow2; lia).
    split; [lia|]. split.
    + intros _. rewrite Hx by lia. replace (_ - 8 * q) with (Z.log2 v) by lia. apply Z.bit_log2. lia.
    + intros x Hxr. rewrite Hx by lia. apply Z.bits_above_log2; lia.
Qed.

Lemma highest_used_before_facts (bitmap : bytes) (before : Z) (Hbytes : wf_bytes bitmap) :
  exists h, _highest_used_before bitmap before = Ok h /\ high_water bitmap (scan_limit bitmap before) h.
Proof.
  unfold _highest_used_before. pose proof (scan_limit_room bitmap before Hbytes) as [_ Hroom].
  set (limit := scan_limit bitmap before) in *. assert (0 <= limit) by (unfold limit, scan_limit; lia).
  destruct (Z.eqb_spec limit 0) as [->|]; [exists 0; split; [done|]; repeat split; (lia || intros x Hx; lia)|].
  destruct (highest_bits_spec bitmap 8 (limit - 1)) as (r & -> & Hr); [done|lia| |].
  { pose proof (Z.mod_pos_bound (limit - 1 + 1) 8 ltac:(lia)). lia. }
  replace (limit - 1 + 1) with limit in Hr by lia. cbn [mbind result_bind]. destruct r as [h|c].
  - exists h. destruct Hr as (? & ? & ?). split; [done|]. split; [lia|]. by split.
  - destruct Hr as (Hc & Hmod & Hfree). rewrite shiftr3. pose proof (div8_bounds c).
    pose proof (Z.div_mod (c + 1) 8 ltac:(lia)).
    destruct (highest_bytes_spec bitmap (length bitmap) (c / 8)) as (h & -> & Hh & Hbit & Hf2);
      [done|lia|unfold py_len in *; lia|].
    exists h. split; [done|]. split; [lia|]. split; [done|]. intros x Hx.
    destruct (decide (x < c + 1)); [apply Hf2|apply Hfree]; lia.
Qed.

(** [_highest_used_before] terminates and returns one past the highest
    allocated cluster below the limit, 0 when there is none. *)
Theorem highest_used_before_exact (bitmap : bytes) (before : Z) (Hbytes : wf_bytes bitmap) :
  exists h, _highest_used_before bitmap before = Ok h /\ high_water bitmap (scan_limit bitmap before) h.
Proof. by apply highest_used_before_facts. Qed.

Lemma highest_used_before_exact_witness :
  exists h, _highest_used_before [255; 16; 0; 96] 29 = Ok h /\ high_water [255; 16; 0; 96] (scan_limit [255; 16; 0; 96] 29) h.
Proof. apply highest_used_before_exact. repeat constructor; lia. Defined.

(** ** Journal snapshots *)

Lemma run_byte_range_spec run q :
  covers (run_byte_range run) q <-> exists x, in_run run x = true /\ x / 8 = q.
Proof.
  unfold run_byte_range, in_run. destruct (lcn run) as [l|].
  2:{ pose proof (covers_nil q). split; [done|]. by intros (x & ? & ?). }
  destruct (Z.leb_spec (length_of run) 0).
  { pose proof (covers_nil q). split; [done|]. intros (x & Hx & _). apply between_spec in Hx. lia. }
  rewrite !shiftr3, covers_cons. simpl. pose proof (covers_nil q) as Hn.
  pose proof (div8_bounds l). pose proof (div8_bounds (l + length_of run - 1)). split.
  - intros [Hq|]; [|done]. exists (Z.max l (8 * q)). rewrite between_spec. split; [lia|].
    symmetry. apply Z.div_unique with (Z.max l (8 * q) - 8 * q); lia.
  - intros (x & Hx & <-). apply between_spec in Hx. left. pose proof (div8_bounds x). lia.
Qed.

Lemma run_byte_ranges_nonempty runs : Forall (fun r => r.1 < r.2) (concat (map run_byte_range runs)).
Proof.
  induction runs as [|run runs IH]; [constructor|]. simpl. apply Forall_app_2; [|done].
  unfold run_byte_range. destruct (lcn run) as [l|]; [|constructor]. destruct (Z.leb_spec (length_of run) 0); [constructor|].
  apply Forall_singleton. simpl. rewrite !shiftr3.
  pose proof (div8_bounds l). pose proof (div8_bounds (l + length_of run - 1)). lia.
Qed.

Lemma covers_concat rss q : covers (concat rss) q <-> exists rs, rs ∈ rss /\ covers rs q.
Proof.
  induction rss as [|rs rss IH]; simpl.
  - pose proof (covers_nil q). split; [done|]. intros (? & ?%elem_of_nil & ?). done.
  - rewrite covers_app, IH. setoid_rewrite elem_of_cons. naive_solver.
Qed.

Lemma merge_push_no_skip l acc :
  Forall (fun r => r.1 < r.2) l ->
  fold_left merge_push l acc = fold_left (fun m r => if r.2 <=? r.1 then m else merge_push m r) l acc.
Proof.
  intros H. revert acc. induction H as [|r l Hr _ IH]; intros acc; [done|]. simpl.
  rewrite (proj2 (Z.leb_gt _ _)) by lia. apply IH.
Qed.

(** The snapshots name exactly the bytes that hold clusters of the runs. *)
Lemma patch_ranges_spec runs :
  separated (patch_ranges runs) /\
  forall q, covers (patch_ranges runs) q <-> exists x, in_runs runs x = true /\ x / 8 = q.
Proof.
  unfold patch_ranges. set (l := concat (map run_byte_range runs)).
  pose proof (run_byte_ranges_nonempty runs) as Hne. fold l in Hne.
  rewrite merge_push_no_skip by (by rewrite (py_sorted_perm range_leb l)).
  destruct (merge_sorted_spec (fun r => r.2 <=? r.1) l) as [Hs Hc]; [intros r Hr; bool_to_prop; lia|].
  split; [exact Hs|]. intros q. rewrite (Hc q).
  assert (base.filter (fun r : range => (r.2 <=? r.1) = false) l = l) as ->.
  { apply filter_all. eapply Forall_impl; [exact Hne|]. intros r Hr. by apply Z.leb_gt. }
  unfold l. rewrite covers_concat. unfold in_runs. split.
  - intros (rs & Hrs & Hq). apply list_elem_of_fmap in Hrs as (run & -> & Hrun).
    apply run_byte_range_spec in Hq as (x & Hx & Hd). exists x. split; [|done].
    apply existsb_exists. exists run. rewrite list_elem_of_In in Hrun. done.
  - intros (x & Hx & Hd). apply existsb_exists in Hx as (run & Hrun & Hx). exists (run_byte_range run).
    split; [apply list_elem_of_fmap; exists run; by rewrite list_elem_of_In|].
    apply run_byte_range_spec. eauto.
Qed.

(** ** Allocated clusters *)

Lemma zsum_bit_count data : wf_bytes data -> zsum (map bit_count data) = count_where (bit_at data) 0 (8 * py_len data).
Proof.
  induction 1 as [|b data Hb _ IH]; [by rewrite count_where_nil|].
  rewrite py_len_cons. pose proof (py_len_nonneg data). cbn [map zsum foldr]. fold (zsum (map bit_count data)). rewrite IH.
  rewrite (count_where_split (bit_at (b :: data)) 0 8) by lia. f_equal.
  - destruct Hb. rewrite (bit_count_spec 8) by (simpl; lia). apply count_where_ext. intros i Hi.
    rewrite bit_at_cons by lia. by rewrite (proj2 (Z.ltb_lt i 8)) by lia.
  - replace 8 with (0 + 8) at 2 by lia. replace (8 * (1 + py_len data)) with (8 * py_len data + 8) by lia.
    rewrite count_where_shift. apply count_where_ext. intros i Hi. rewrite bit_at_cons by lia.
    rewrite (proj2 (Z.ltb_ge _ 8)) by lia. f_equal. lia.
Qed.

(** [_allocated_cluster_count] is the number of clusters below the volume
    end that the bitmap marks as used, also when the bitmap is longer or
    shorter than the volume. *)
Theorem allocated_cluster_count_exact (bitmap : bytes) (total_clusters : Z)
    (Hbytes : wf_bytes bitmap) (Htotal : 0 <= total_clusters) :
  _allocated_cluster_count bitmap total_clusters = Ok (count_where (bit_at bitmap) 0 total_clusters).
Proof.
  unfold _allocated_cluster_count. set (q := total_clusters / 8). set (k := total_clusters mod 8).
  pose proof (Z.div_mod total_clusters 8 ltac:(lia)) as Hd. pose proof (Z.mod_pos_bound total_clusters 8 ltac:(lia)) as Hk.
  fold q k in Hd, Hk. pose proof (py_len_nonneg bitmap).
  assert (zsum (map bit_count (py_slice bitmap 0 q)) = count_where (bit_at bitmap) 0 (8 * q)) as ->.
  { rewrite zsum_bit_count by auto with defrag. destruct (decide (q <= py_len bitmap)).
    - rewrite py_len_slice by lia. rewrite Z.sub_0_r. apply count_where_ext. intros i Hi. by rewrite bit_at_slice by lia.
    - rewrite py_slice_nonneg by lia. unfold py_len in *. rewrite take_ge by (rewrite length_drop; lia). rewrite drop_0.
      rewrite (count_where_split _ 0 (8 * Z.of_nat (length bitmap)) (8 * q)) by lia.
      rewrite (count_where_none _ (8 * Z.of_nat (length bitmap))); [lia|].
      intros i Hi. apply bit_at_out. unfold py_len. lia. }
  destruct (Z.eqb_spec k 0); simpl negb; simpl andb.
  { do 2 f_equal. lia. }
  destruct (Z.ltb_spec q (py_len bitmap)).
  - destruct (py_get_byte bitmap q Hbytes ltac:(lia)) as (v & -> & Hv & Hb). cbn [mbind result_bind]. f_equal.
    rewrite (count_where_split _ 0 (8 * q) total_clusters) by lia. f_equal.
    rewrite (bit_count_byte_mask v _ 0 k); [|done|lia|lia|].
    + rewrite (count_byte_bits bitmap q v 0 k Hv) by lia. f_equal; lia.
    + intros i Hi. rewrite <- (Z.shiftl_0_r (Z.shiftl 1 k - 1)), testbit_ones_shift by lia. f_equal.
  - f_equal. rewrite (count_where_split _ 0 (8 * q) total_clusters) by lia.
    rewrite (count_where_none _ (8 * q)); [lia|]. intros i Hi. apply bit_at_out. lia.
Qed.

Lemma allocated_cluster_count_exact_witness : _allocated_cluster_count [255; 16; 7; 96] 19 = Ok 12.
Proof. rewrite (allocated_cluster_count_exact [255; 16; 7; 96] 19); [reflexivity|repeat constructor; lia|lia]. Defined.

(** ** The Defragment destination pool *)

Lemma clip_run_spec lower upper r :
  is_physical r = true ->
  Forall (fun c => is_physical c = true /\ (run_range r).1 <= (run_range c).1 < (run_range c).2 /\ (run_range c).2 <= (run_range r).2)
    (clip_run lower upper r) /\
  (forall x, covers (map run_range (clip_run lower upper r)) x <->
     (run_range r).1 <= x < (run_range r).2 /\ lower <= x < upper) /\
  separated (map run_range (clip_run lower upper r)).
Proof.
  unfold clip_run, is_physical, run_range. destruct r as [[l|] n]; simpl; [|done]. intros _.
  destruct (Z.ltb_spec (Z.max lower l) (Z.min upper (l + n))); simpl.
  - split; [apply Forall_singleton; simpl; lia|]. split; [|apply separated_one; simpl; lia].
    intros x. rewrite covers_cons. simpl. pose proof (covers_nil x). intuition lia.
  - split; [constructor|]. split; [|split; constructor]. intros x. pose proof (covers_nil x). intuition lia.
Qed.

Lemma clip_runs_spec lower upper runs :
  Forall (fun r => is_physical r = true) runs -> separated (map run_range runs) ->
  let pool := concat (map (clip_run lower upper) runs) in
  separated (map run_range pool) /\
  (forall x, covers (map run_range pool) x <-> covers (map run_range runs) x /\ lower <= x < upper) /\
  Forall (fun c => exists r, r ∈ runs /\ (run_range r).1 <= (run_range c).1) pool.
Proof.
  intros Hp. induction Hp as [|r runs Hr _ IH]; intros Hs; simpl.
  { split; [split; constructor|]. split; [|constructor]. intros x. pose proof (covers_nil x). tauto. }
  destruct Hs as [Hpos Hss]. simpl in Hpos, Hss. apply Forall_cons in Hpos as [Hpr Hpos].
  apply StronglySorted_inv in Hss as [Hss Hafter].
  destruct IH as (IHs & IHc & IHb); [by split|]. destruct (clip_run_spec lower upper r Hr) as (Hb & Hc & Hsep).
  rewrite map_app. split; [|split].
  - apply separated_app; [done|done|]. intros x y Hx Hy.
    apply list_elem_of_fmap in Hx as (c & -> & Hcin). apply list_elem_of_fmap in Hy as (d & -> & Hdin).
    rewrite Forall_forall in Hb. destruct (Hb c Hcin) as (_ & _ & ?).
    rewrite Forall_forall in IHb. destruct (IHb d Hdin) as (r' & Hr' & ?).
    rewrite Forall_forall in Hafter.
    assert ((run_range r).2 < (run_range r').1) by (apply Hafter, list_elem_of_fmap; eauto). lia.
  - intros x. rewrite covers_app, IHc, Hc, covers_cons. tauto.
  - apply Forall_app_2.
    + eapply Forall_impl; [exact Hb|]. intros c (_ & H & _). exists r. split; [set_solver|apply H].
    + eapply Forall_impl; [exact IHb|]. intros c (r' & ? & ?). exists r'. split; [set_solver|done].
Qed.

(** [_defrag_destination_pool] offers exactly the free clusters strictly
    between the first and the last cluster of the volume, as separated
    extents: the boot sector and its backup are never a destination. *)
Theorem defrag_destination_pool_exact (bitmap : bytes) (total_clusters : Z)
    (Hbytes : wf_bytes bitmap) (Htotal : 2 <= total_clusters <= 8 * py_len bitmap) :
  exists pool, _defrag_destination_pool bitmap total_clusters = Ok pool /\ separated (map run_range pool) /\
    forall x, covers (map run_range pool) x <-> 1 <= x < total_clusters - 1 /\ bit_at bitmap x = false.
Proof.
  unfold _defrag_destination_pool. rewrite Z.max_r by lia.
  destruct (free_runs_facts bitmap (total_clusters - 1) Hbytes) as (runs & -> & Hp & Hs & Hc). cbn [mbind result_bind].
  eexists. split; [done|]. destruct (clip_runs_spec 1 (total_clusters - 1) runs Hp Hs) as (Hs' & Hc' & _).
  split; [exact Hs'|]. intros x. rewrite Hc', Hc. unfold scan_limit. split; [tauto|]. intros [? ?]. repeat split; (done || lia).
Qed.

Lemma defrag_destination_pool_exact_witness :
  exists pool, _defrag_destination_pool [254; 3] 16 = Ok pool /\ separated (map run_range pool) /\
    forall x, covers (map run_range pool) x <-> 1 <= x < 16 - 1 /\ bit_at [254; 3] x = false.
Proof. apply defrag_destination_pool_exact; [repeat constructor; lia|unfold py_len; simpl; lia]. Defined.
