(* ===== verification/NtfsRecord.v ===== *)
(** * MFT records

    Models the record layer of [src/gui/ntfs_engine.py]: update-sequence
    fix-ups, the attribute walk, the choice of the one movable stream of a
    record, the mapping-pairs capacity, and the rewrite of a record with a new
    run list.  The theorems state that preparing and applying fix-ups are
    inverse on the record body, that the attribute walk terminates on every
    record, and that a rewritten record re-parses to the same attributes with
    only the moved stream's run list (and the offsets behind it) changed. *)

From S2P Require Import Prelude Bytes Bitmap NtfsRuns.

(** ** Constants *)

Definition FIRST_USER_RECORD : Z := 24.
Definition ATTR_ATTRIBUTE_LIST : Z := 32.
Definition ATTR_FILE_NAME : Z := 48.
Definition ATTR_VOLUME_INFORMATION : Z := 112.
Definition ATTR_DATA : Z := 128.
Definition ATTR_INDEX_ALLOCATION : Z := 160.
Definition RECORD_IN_USE : Z := 1.
Definition RECORD_DIRECTORY : Z := 2.
Definition ATTR_COMPRESSED : Z := 1.
Definition ATTR_ENCRYPTED : Z := 16384.
Definition ATTR_SPARSE : Z := 32768.
Definition FILE_REFERENCE_MASK : Z := Z.shiftl 1 48 - 1.

Definition flag_set (flags mask : Z) : bool := negb (Z.land flags mask =? 0).

(** ** Records *)

Record Attribute := mkAttribute {
  offset : Z;
  alength : Z;
  atype : Z;
  name : bytes;
  flags : Z;
  nonresident : bool;
  lowest_vcn : Z;
  highest_vcn : Z;
  run_offset : Z;
  runs : list Run;
  data_size : Z;
  allocated_size : Z;
  initialized_size : Z
}.

#[global] Instance Attribute_eq_dec : EqDecision Attribute.
Proof. solve_decision. Defined.

Record Candidate := mkCandidate {
  record_number : Z;
  record_offset : Z;
  record_raw : bytes;
  record_fixed : bytes;
  attribute : Attribute
}.

(** [candidate.clusters] *)
Definition physical_clusters (rs : list Run) : Z :=
  zsum (map length_of (filter is_physical rs)).

Definition Candidate_clusters (c : Candidate) : Z := physical_clusters (runs (attribute c)).

(** [max((run.lcn + run.length ...), default=0)] *)
Definition highest_lcn_of (rs : list Run) : Z :=
  match filter is_physical rs with
  | [] => 0
  | r :: rest => fold_left Z.max (map (fun q => default 0 (lcn q) + length_of q) rest) (default 0 (lcn r) + length_of r)
  end.

Definition lowest_lcn_of (rs : list Run) : Z :=
  match filter is_physical rs with
  | [] => 0
  | r :: rest => fold_left Z.min (map (fun q => default 0 (lcn q)) rest) (default 0 (lcn r))
  end.

(** ** Update-sequence fix-ups *)

Definition usa_header (record : bytes) (sector_size : Z) : result (Z * Z) :=
  usa_off ← u16le record 4;
  usa_count ← u16le record 6;
  let expected_count := py_len record / sector_size + 1 in
  check negb (usa_count =? expected_count) || (py_len record <? usa_off + usa_count * 2)
    # NtfsCompactError "invalid NTFS update-sequence array";
  Ok (usa_off, usa_count).

Definition apply_one (usa_off sector_size : Z) (usn : bytes) (record : bytes) (index : Z) : result bytes :=
  let stop := index * sector_size in
  check negb (bool_decide (py_slice record (stop - 2) stop = usn))
    # NtfsCompactError "NTFS MFT update-sequence mismatch";
  Ok (py_set_slice record (stop - 2) stop
        (py_slice record (usa_off + index * 2) (usa_off + index * 2 + 2))).

Definition _apply_fixups (raw : bytes) (sector_size : Z) : result bytes :=
  '(usa_off, usa_count) ← usa_header raw sector_size;
  let usn := py_slice raw usa_off (usa_off + 2) in
  foldM (apply_one usa_off sector_size usn) raw (py_range 1 usa_count).

Definition prepare_one (usa_off sector_size : Z) (usn : bytes) (record : bytes) (index : Z) : bytes :=
  let stop := index * sector_size in
  let record := py_set_slice record (usa_off + index * 2) (usa_off + index * 2 + 2)
                  (py_slice record (stop - 2) stop) in
  py_set_slice record (stop - 2) stop usn.

Definition next_usn (old : Z) : Z :=
  let new := Z.land (old + 1) 65535 in
  if new =? 0 then 1 else new.

Definition _prepare_fixups (fixed : bytes) (sector_size : Z) : result bytes :=
  '(usa_off, usa_count) ← usa_header fixed sector_size;
  old ← u16le fixed usa_off;
  let usn := le_digits 2 (next_usn old) in
  let record := py_set_slice fixed usa_off (usa_off + 2) usn in
  Ok (fold_left (prepare_one usa_off sector_size usn) (py_range 1 usa_count) record).

(** ** The attribute walk *)

(** One iteration of [_attributes]: [None] is the end marker. *)
Definition parse_attribute (record : bytes) (in_use pos : Z) : result (option Attribute) :=
  at_ ← u32le record pos;
  if at_ =? 4294967295 then Ok None else
  len ← u32le record (pos + 4);
  check (len <? 24) || (in_use <? pos + len) # NtfsCompactError "invalid NTFS attribute record";
  nr ← py_get record (pos + 8);
  name_len ← py_get record (pos + 9);
  name_off ← u16le record (pos + 10);
  fl ← u16le record (pos + 12);
  nm ← (if negb (name_len =? 0) then
          let name_end := name_off + name_len * 2 in
          check (name_off <? 16) || (len <? name_end) # NtfsCompactError "invalid NTFS attribute name";
          Ok (py_slice record (pos + name_off) (pos + name_end))
        else Ok []);
  if negb (nr =? 0) then
    check len <? 64 # NtfsCompactError "truncated NTFS non-resident attribute";
    lowest ← u64le record (pos + 16);
    highest ← u64le record (pos + 24);
    ro ← u16le record (pos + 32);
    check (ro <? 64) || (len <=? ro) # NtfsCompactError "invalid NTFS mapping-pairs offset";
    rs ← _decode_runlist (py_slice record (pos + ro) (pos + len));
    let expected := highest - lowest + 1 in
    check negb (runs_length rs =? expected)
      # NtfsCompactError "NTFS runlist length does not match its VCN range";
    alloc ← u64le record (pos + 40);
    dsize ← u64le record (pos + 48);
    init ← u64le record (pos + 56);
    Ok (Some (mkAttribute pos len at_ nm fl true lowest highest ro rs dsize alloc init))
  else Ok (Some (mkAttribute pos len at_ nm fl false 0 0 0 [] 0 0 0)).

Fixpoint attributes_loop (fuel : nat) (record : bytes) (in_use pos : Z) : generated Attribute :=
  if pos + 16 <=? in_use then
    match fuel with
    | O => Generated [] (Some (Exn OutOfFuel "_attributes"))
    | S fuel' =>
        match parse_attribute record in_use pos with
        | Raise e => Generated [] (Some e)
        | Ok None => Generated [] None
        | Ok (Some attr) => gen_cons attr (attributes_loop fuel' record in_use (pos + alength attr))
        end
    end
  else Generated [] None.

(** The generator; an attribute occupies at least 24 bytes, so [length record]
    iterations are enough. *)
Definition _attributes (record : bytes) : generated Attribute :=
  match u16le record 20, u32le record 24 with
  | Ok pos, Ok used => attributes_loop (length record) record (Z.min (py_len record) used) pos
  | Raise e, _ => Generated [] (Some e)
  | _, Raise e => Generated [] (Some e)
  end.

(** [list(_attributes(record))] *)
Definition list_of {A} (g : generated A) : result (list A) :=
  match raised g with Some e => Raise e | None => Ok (yielded g) end.

(** [for x in gen: if p(x): ...; break]: an error behind the hit is not seen. *)
Definition first_of {A} (p : A -> bool) (g : generated A) : result (option A) :=
  match List.find p (yielded g) with
  | Some x => Ok (Some x)
  | None => match raised g with Some e => Raise e | None => Ok None end
  end.

Definition _resident_value (record : bytes) (attr : Attribute) : result bytes :=
  check nonresident attr # NtfsCompactError "attribute is not resident";
  value_len ← u32le record (offset attr + 16);
  value_off ← u16le record (offset attr + 20);
  check (value_off <? 24) || (alength attr <? value_off + value_len)
    # NtfsCompactError "invalid resident NTFS attribute value";
  Ok (py_slice record (offset attr + value_off) (offset attr + value_off + value_len)).

(** ** The movable stream of a record *)

Definition is_data (attr : Attribute) : bool :=
  (atype attr =? ATTR_DATA) && bool_decide (name attr = []) && nonresident attr.

Definition is_index (attr : Attribute) : bool :=
  (atype attr =? ATTR_INDEX_ALLOCATION) && nonresident attr.

Definition is_list (attr : Attribute) : bool := atype attr =? ATTR_ATTRIBUTE_LIST.

Definition _select_movable_attribute (number : Z) (fixed : bytes) (attrs : list Attribute)
    : result (option Attribute) :=
  fl ← u16le fixed 22;
  if (number <? FIRST_USER_RECORD) || negb (flag_set fl RECORD_IN_USE) then Ok None else
  base ← u64le fixed 32;
  if flag_set base FILE_REFERENCE_MASK then Ok None else
  if existsb is_list attrs then Ok None else
  let candidates := if flag_set fl RECORD_DIRECTORY then List.filter is_index attrs else List.filter is_data attrs in
  match candidates with
  | [attr] =>
      if negb (lowest_vcn attr =? 0)
         || flag_set (flags attr) (Z.lor (Z.lor ATTR_COMPRESSED ATTR_ENCRYPTED) ATTR_SPARSE) then Ok None
      else if existsb (fun r => negb (is_physical r)) (runs attr) then Ok None
      else if bool_decide (runs attr = []) || (data_size attr =? 0) then Ok None
      else Ok (Some attr)
  | _ => Ok None
  end.

(** ** Mapping-pairs capacity *)

Definition _mapping_capacity_from_record (fixed : bytes) (attr : Attribute) : result Z :=
  in_use ← u32le fixed 24;
  alloc ← u32le fixed 28;
  let allocated := Z.min (py_len fixed) alloc in
  if (allocated <? in_use) || (in_use <? offset attr + alength attr) then Ok 0 else
  let expandable := Z.max 0 (allocated - in_use) / 8 * 8 in
  Ok (alength attr - run_offset attr + expandable).

Definition _maximum_mapping_capacity (candidate : Candidate) : result Z :=
  let attr := attribute candidate in
  in_use ← u32le (record_fixed candidate) 24;
  alloc ← u32le (record_fixed candidate) 28;
  let allocated := Z.min (py_len (record_fixed candidate)) alloc in
  check (allocated <? in_use) || (in_use <? offset attr + alength attr)
    # NtfsCompactError "invalid MFT record free-space accounting";
  let expandable := Z.max 0 (allocated - in_use) / 8 * 8 in
  Ok (alength attr - run_offset attr + expandable).

(** ** Rewriting a record *)

Definition align8 (n : Z) : Z := Z.land (n + 7) (Z.lnot 7).

(** The body of the rewritten record, before the fix-ups. *)
Definition rewrite_body (candidate : Candidate) (new_runs : list Run) : result bytes :=
  let fixed := record_fixed candidate in
  let attr := attribute candidate in
  let normalized := _coalesce_runs new_runs in
  let expected := highest_vcn attr - lowest_vcn attr + 1 in
  check negb (runs_length normalized =? expected)
    # NtfsCompactError "replacement NTFS runlist changes the attribute VCN length";
  encoded ← _encode_runlist normalized;
  let required_length := align8 (run_offset attr + py_len encoded) in
  let growth := Z.max 0 (required_length - alength attr) in
  in_use ← u32le fixed 24;
  alloc ← u32le fixed 28;
  let allocated := Z.min (py_len fixed) alloc in
  check (allocated <? in_use) || (in_use <? offset attr + alength attr)
    # NtfsCompactError "invalid MFT record free-space accounting";
  check allocated <? in_use + growth
    # NtfsCompactError "replacement NTFS mapping pairs do not fit the existing MFT record";
  fixed ← (if negb (growth =? 0) then
             let old_end := offset attr + alength attr in
             let fixed := py_set_slice fixed (old_end + growth) (in_use + growth) (py_slice fixed old_end in_use) in
             let fixed := py_set_slice fixed old_end (old_end + growth) (py_zeros growth) in
             fixed ← pack_into 4 fixed (offset attr + 4) (alength attr + growth);
             pack_into 4 fixed 24 (in_use + growth)
           else Ok fixed);
  let capacity := alength attr + growth - run_offset attr in
  let start := offset attr + run_offset attr in
  Ok (py_set_slice fixed start (start + capacity) (encoded ++ py_zeros (capacity - py_len encoded))).

Definition _updated_record_runs (candidate : Candidate) (new_runs : list Run) (sector_size : Z) : result bytes :=
  body ← rewrite_body candidate new_runs;
  _prepare_fixups body sector_size.

Definition _updated_record (candidate : Candidate) (destination sector_size : Z) : result bytes :=
  _updated_record_runs candidate [mkRun (Some destination) (Candidate_clusters candidate)] sector_size.

(** ** Lemmas: fix-ups *)

(** The update-sequence array lies behind the fixed header fields and before
    the first sector tail, and its length fits the record. *)
Definition usa_placed (record : bytes) (ss off count : Z) : Prop :=
  u16le record 4 = Ok off /\ u16le record 6 = Ok count /\ count = py_len record / ss + 1 /\
  8 <= off /\ 0 < ss <= py_len record /\ off + 2 * count <= ss - 2.

(** [i] is in the tail of one of the sectors [1..k], or in the array entries
    [1..k]. *)
Definition in_tail (ss k i : Z) : Prop := exists j, 1 <= j <= k /\ j * ss - 2 <= i < j * ss.
Definition in_usa (off k i : Z) : Prop := off + 2 <= i < off + 2 + 2 * k.

Lemma usa_bounds record ss off count :
  usa_placed record ss off count ->
  2 <= count /\ (count - 1) * ss <= py_len record /\ usa_header record ss = Ok (off, count).
Proof.
  intros (H4 & H6 & Hc & Ho & Hl & Hu).
  assert (1 <= py_len record / ss) by (apply Z.div_le_lower_bound; lia).
  split; [lia|]. split.
  { replace (count - 1) with (py_len record / ss) by lia. rewrite Z.mul_comm. apply Z.mul_div_le. lia. }
  unfold usa_header. rewrite H4, H6. cbn [mbind result_bind].
  rewrite <- Hc, Z.eqb_refl. rewrite (proj2 (Z.ltb_ge _ _)) by lia. done.
Qed.

Lemma tail_position ss off count j :
  0 < ss -> off + 2 * count <= ss - 2 -> 1 <= j -> off + 2 * count <= j * ss - 2.
Proof. nia. Qed.

Lemma in_tail_dec ss k i : 2 < ss -> in_tail ss k i \/ ~ in_tail ss k i.
Proof.
  intros Hs. set (q := (i + 2) / ss). pose proof (Z.div_mod (i + 2) ss ltac:(lia)) as Hd.
  pose proof (Z.mod_pos_bound (i + 2) ss ltac:(lia)) as Hm. fold q in Hd.
  destruct (decide ((1 <= q <= k) /\ (i + 2) mod ss < 2)) as [H|H].
  - left. exists q. lia.
  - right. intros (j & Hj & Hr). apply H. assert (q = j) as -> by (unfold q; symmetry; apply Z.div_unique with (i + 2 - j * ss); lia). lia.
Qed.

Section prepare.
Context (ss off count : Z) (usn fixed start : bytes).
Hypothesis Husn : py_len usn = 2.
Hypothesis Hss : 0 < ss.
Hypothesis Hoff : 8 <= off.
Hypothesis Hplace : off + 2 * count <= ss - 2.
Hypothesis Hlen : (count - 1) * ss <= py_len fixed.
Hypothesis Hstart_len : py_len start = py_len fixed.
Hypothesis Hstart : forall i, off + 2 <= i -> nthZ start i = nthZ fixed i.

(** The record after the entries [1..k] are prepared. *)
Definition prepared (k : Z) (P : bytes) : Prop :=
  py_len P = py_len fixed /\
  (forall j b, 1 <= j <= k -> 0 <= b < 2 -> nthZ P (j * ss - 2 + b) = nthZ usn b) /\
  (forall j b, 1 <= j <= k -> 0 <= b < 2 -> nthZ P (off + 2 * j + b) = nthZ fixed (j * ss - 2 + b)) /\
  (forall i, 0 <= i -> ~ in_usa off k i -> ~ in_tail ss k i -> nthZ P i = nthZ start i).

Lemma prepare_step k P :
  0 <= k -> k + 1 < count -> prepared k P -> prepared (k + 1) (prepare_one off ss usn P (k + 1)).
Proof.
  intros Hk Hkc (Hl & HT & HU & HO). pose proof (tail_position ss off count (k + 1) Hss Hplace ltac:(lia)) as Htp.
  assert ((k + 1) * ss <= py_len fixed) as Hend by nia.
  set (t := (k + 1) * ss - 2) in *. set (u := off + (k + 1) * 2).
  assert (Hnth : forall i, 0 <= i -> nthZ (prepare_one off ss usn P (k + 1)) i =
    if (t <=? i) && (i <? t + 2) then nthZ usn (i - t)
    else if (u <=? i) && (i <? u + 2) then nthZ P (t + (i - u)) else nthZ P i).
  { intros i Hi. unfold prepare_one. cbv zeta. fold t. fold u. replace ((k + 1) * ss) with (t + 2) by lia.
    assert (py_len (py_slice P t (t + 2)) = 2) as Hsl by (rewrite py_len_slice; lia).
    rewrite nthZ_set_slice; [|lia|rewrite py_len_set_slice; lia|lia|lia].
    destruct ((t <=? i) && (i <? t + 2)) eqn:E1; [done|].
    rewrite nthZ_set_slice by lia. destruct ((u <=? i) && (i <? u + 2)) eqn:E2; [|done].
    bool_to_prop. rewrite nthZ_slice by lia. done. }
  assert (Htails : forall j, 1 <= j <= k -> j * ss <= t + 2 - ss) by (intros; unfold t; nia).
  split; [|split; [|split]].
  - unfold prepare_one. cbv zeta. fold t. fold u. replace ((k + 1) * ss) with (t + 2) by lia.
    assert (py_len (py_slice P t (t + 2)) = 2) as Hsl by (rewrite py_len_slice; lia).
    rewrite !py_len_set_slice; rewrite ?py_len_set_slice; lia.
  - intros j b Hj Hb. assert (0 <= j * ss - 2 + b) by (pose proof (tail_position ss off count j Hss Hplace ltac:(lia)); lia).
    rewrite Hnth by done. destruct (decide (j = k + 1)) as [->|].
    + fold t. rewrite (proj2 (Z.leb_le _ _)), (proj2 (Z.ltb_lt _ _)) by lia. simpl. f_equal. lia.
    + specialize (Htails j ltac:(lia)). pose proof (tail_position ss off count j Hss Hplace ltac:(lia)).
      rewrite (proj2 (Z.leb_gt t _)) by lia. simpl. rewrite (proj2 (Z.ltb_ge _ (u + 2))), andb_false_r by lia.
      apply HT; lia.
  - intros j b Hj Hb. rewrite Hnth by lia. rewrite (proj2 (Z.leb_gt t _)) by lia. simpl.
    destruct (decide (j = k + 1)) as [->|].
    + rewrite (proj2 (Z.leb_le u _)), (proj2 (Z.ltb_lt _ (u + 2))) by lia. simpl.
      replace (t + (off + 2 * (k + 1) + b - u)) with (t + b) by lia. fold t.
      rewrite HO; [apply Hstart; lia|lia|unfold in_usa; lia|].
      intros (j' & Hj' & Hr). specialize (Htails j' ltac:(lia)). lia.
    + rewrite (proj2 (Z.leb_gt u _)) by lia. simpl. apply HU; lia.
  - intros i Hi Hu Ht. rewrite Hnth by done.
    destruct ((t <=? i) && (i <? t + 2)) eqn:E1.
    { bool_to_prop. exfalso. apply Ht. exists (k + 1). lia. }
    destruct ((u <=? i) && (i <? u + 2)) eqn:E2.
    { bool_to_prop. exfalso. apply Hu. unfold in_usa. lia. }
    apply HO; [done|unfold in_usa in *; lia|]. intros (j & Hj & Hr). apply Ht. exists j. lia.
Qed.

Lemma prepare_loop (n : nat) :
  Z.of_nat n < count ->
  prepared (Z.of_nat n) (fold_left (prepare_one off ss usn) (py_range 1 (Z.of_nat n + 1)) start).
Proof.
  induction n as [|n IH]; intros Hn.
  { rewrite py_range_nil by lia. simpl. split; [done|]. split; [intros; lia|]. split; [intros; lia|done]. }
  rewrite Nat2Z.inj_succ in *. rewrite py_range_snoc by lia.
  rewrite fold_left_app. simpl. replace (Z.succ (Z.of_nat n) + 1 - 1) with (Z.of_nat n + 1) by lia.
  replace (Z.succ (Z.of_nat n)) with (Z.of_nat n + 1) by lia.
  apply prepare_step; [lia|lia|]. apply IH. lia.
Qed.
End prepare.

Section apply.
Context (ss off count : Z) (raw : bytes).
Hypothesis Hss : 0 < ss.
Hypothesis Hoff : 8 <= off.
Hypothesis Hplace : off + 2 * count <= ss - 2.
Hypothesis Hlen : (count - 1) * ss <= py_len raw.

(** The record after the tails [1..k] are restored. *)
Definition applied (k : Z) (A : bytes) : Prop :=
  py_len A = py_len raw /\
  (forall j b, 1 <= j <= k -> 0 <= b < 2 -> nthZ A (j * ss - 2 + b) = nthZ raw (off + 2 * j + b)) /\
  (forall i, 0 <= i -> ~ in_tail ss k i -> nthZ A i = nthZ raw i).

Lemma apply_step usn k A :
  0 <= k -> k + 1 < count -> applied k A ->
  py_slice raw ((k + 1) * ss - 2) ((k + 1) * ss) = usn ->
  exists A', apply_one off ss usn A (k + 1) = Ok A' /\ applied (k + 1) A'.
Proof.
  intros Hk Hkc (Hl & HT & HO) Husn. pose proof (tail_position ss off count (k + 1) Hss Hplace ltac:(lia)) as Htp.
  assert ((k + 1) * ss <= py_len raw) as Hend by nia.
  set (t := (k + 1) * ss - 2) in *. replace ((k + 1) * ss) with (t + 2) in * by lia.
  assert (Htails : forall j, 1 <= j <= k -> j * ss <= t + 2 - ss) by (intros; nia).
  assert (Hout : forall i, t <= i < t + 2 -> ~ in_tail ss k i).
  { intros i Hi (j & Hj & Hr). specialize (Htails j Hj). lia. }
  assert (Huse : forall i, 0 <= i < off + 2 * count -> ~ in_tail ss k i).
  { intros i Hi (j & Hj & Hr). pose proof (tail_position ss off count j Hss Hplace ltac:(lia)). lia. }
  unfold apply_one. replace ((k + 1) * ss) with (t + 2) by lia. cbv zeta. replace (t + 2 - 2) with t by lia.
  rewrite bool_decide_eq_true_2; simpl negb; cbv iota.
  2:{ rewrite <- Husn. apply py_slice_ext; try lia. intros i Hi. apply HO; [lia|]. apply Hout. lia. }
  eexists. split; [done|].
  set (u := off + (k + 1) * 2). assert (py_len (py_slice A u (u + 2)) = 2) as Hsl by (rewrite py_len_slice; lia).
  assert (Hnth : forall i, 0 <= i -> nthZ (py_set_slice A t (t + 2) (py_slice A u (u + 2))) i =
    if (t <=? i) && (i <? t + 2) then nthZ raw (u + (i - t)) else nthZ A i).
  { intros i Hi. rewrite nthZ_set_slice by lia. destruct ((t <=? i) && (i <? t + 2)) eqn:E; [|done].
    bool_to_prop. rewrite nthZ_slice by lia. apply HO; [lia|]. apply Huse. lia. }
  split; [rewrite py_len_set_slice; lia|]. split.
  - intros j b Hj Hb. pose proof (tail_position ss off count j Hss Hplace ltac:(lia)). rewrite Hnth by lia.
    destruct (decide (j = k + 1)) as [->|].
    + replace ((k + 1) * ss) with (t + 2) by lia.
      rewrite (proj2 (Z.leb_le _ _)), (proj2 (Z.ltb_lt _ _)) by lia. simpl. f_equal. unfold u. lia.
    + specialize (Htails j ltac:(lia)). rewrite (proj2 (Z.leb_gt t _)) by lia. simpl. apply HT; lia.
  - intros i Hi Ht. rewrite Hnth by done. destruct ((t <=? i) && (i <? t + 2)) eqn:E.
    { bool_to_prop. exfalso. apply Ht. exists (k + 1). lia. }
    apply HO; [done|]. intros (j & Hj & Hr). apply Ht. exists j. lia.
Qed.

Lemma apply_loop usn (n : nat) :
  Z.of_nat n < count ->
  (forall j, 1 <= j < count -> py_slice raw (j * ss - 2) (j * ss) = usn) ->
  exists A, foldM (apply_one off ss usn) raw (py_range 1 (Z.of_nat n + 1)) = Ok A /\ applied (Z.of_nat n) A.
Proof.
  intros Hn Hall. induction n as [|n IH].
  { rewrite py_range_nil by lia. simpl. eexists. split; [done|]. split; [done|]. split; [intros; lia|done]. }
  destruct IH as (A & HA & Hap); [lia|]. rewrite Nat2Z.inj_succ in *. rewrite py_range_snoc by lia.
  rewrite foldM_app. replace (Z.succ (Z.of_nat n) + 1 - 1) with (Z.of_nat n + 1) by lia.
  rewrite HA. cbn [mbind result_bind foldM]. replace (Z.succ (Z.of_nat n)) with (Z.of_nat n + 1) by lia.
  destruct (apply_step usn (Z.of_nat n) A) as (A' & -> & HA'); [lia|lia|done|apply Hall; lia|]. eauto.
Qed.
End apply.

Lemma next_usn_range old : 0 <= old < 65536 -> 1 <= next_usn old < 65536 /\ next_usn old <> old.
Proof.
  intros H. unfold next_usn. change 65535 with (Z.ones 16). rewrite Z.land_ones by lia.
  change (2 ^ 16) with 65536. destruct (decide (old = 65535)) as [->|]; [done|].
  rewrite Z.mod_small by lia. rewrite (proj2 (Z.eqb_neq _ 0)) by lia. lia.
Qed.

(** Preparing and applying the fix-ups restores every byte outside the
    update-sequence array, and advances the sequence number. *)
Lemma fixups_facts fixed ss off count :
  wf_bytes fixed -> usa_placed fixed ss off count ->
  exists raw fixed', _prepare_fixups fixed ss = Ok raw /\ py_len raw = py_len fixed /\
    _apply_fixups raw ss = Ok fixed' /\ py_len fixed' = py_len fixed /\
    (forall i, 0 <= i -> ~ (off <= i < off + 2 * count) -> nthZ fixed' i = nthZ fixed i) /\
    (exists old, u16le fixed off = Ok old /\ u16le raw off = Ok (next_usn old) /\ next_usn old <> old).
Proof.
  intros Hw Hp. destruct (usa_bounds _ _ _ _ Hp) as (Hc & Hl & Hh).
  destruct Hp as (H4 & H6 & Hce & Ho & Hss & Hplace).
  assert (off + 2 <= py_len fixed) as Hin by lia.
  set (old := le_int (py_slice fixed off (off + 2))).
  assert (u16le fixed off = Ok old) as Hold by (apply unpack_from_ok; lia).
  assert (0 <= old < 65536) as Hor.
  { pose proof (le_int_bounds _ (wf_bytes_slice fixed off (off + 2) Hw)) as Hb. rewrite py_len_slice in Hb by lia.
    by replace (off + 2 - off) with 2 in Hb by lia. }
  destruct (next_usn_range old Hor) as [Hur Hne].
  set (usn := le_digits 2 (next_usn old)). assert (py_len usn = 2) as Hul by done.
  set (start := py_set_slice fixed off (off + 2) usn).
  assert (py_len start = py_len fixed) as Hsl by (unfold start; rewrite py_len_set_slice; lia).
  assert (Hsn : forall i, 0 <= i -> nthZ start i = if (off <=? i) && (i <? off + 2) then nthZ usn (i - off) else nthZ fixed i)
    by (intros; apply nthZ_set_slice; lia).
  assert (Hstart : forall i, off + 2 <= i -> nthZ start i = nthZ fixed i).
  { intros i Hi. rewrite Hsn by lia. by rewrite (proj2 (Z.ltb_ge i _)), andb_false_r by lia. }
  pose proof (prepare_loop ss off count usn fixed start Hul ltac:(lia) Ho Hplace Hl Hsl Hstart (Z.to_nat (count - 1)) ltac:(lia)) as HP.
  rewrite Z2Nat.id in HP by lia. replace (count - 1 + 1) with count in HP by lia.
  set (raw := fold_left (prepare_one off ss usn) (py_range 1 count) start) in *.
  destruct HP as (HPl & HPT & HPU & HPO).
  exists raw. assert (Hnt : forall i, 0 <= i < off + 2 * count -> ~ in_tail ss (count - 1) i).
  { intros i Hi (j & Hj & Hr). pose proof (tail_position ss off count j ltac:(lia) Hplace ltac:(lia)). lia. }
  assert (Hhead : forall i, 0 <= i < off + 2 -> nthZ raw i = nthZ start i).
  { intros i Hi. apply HPO; [lia|unfold in_usa; lia|]. apply Hnt. lia. }
  assert (usa_header raw ss = Ok (off, count)) as Hhr.
  { unfold usa_header in *. rewrite HPl. rewrite (u16le_same raw fixed 4), (u16le_same raw fixed 6); try lia; [exact Hh|..];
      intros i Hi; rewrite Hhead, Hsn by lia; by rewrite (proj2 (Z.leb_gt off i)) by lia. }
  assert (py_slice raw off (off + 2) = usn) as Husn.
  { apply nthZ_ext; [rewrite py_len_slice by lia; lia|]. rewrite py_len_slice by lia. intros i Hi.
    rewrite nthZ_slice, Hhead, Hsn by lia.
    rewrite (proj2 (Z.leb_le off _)), (proj2 (Z.ltb_lt _ (off + 2))) by lia. simpl. f_equal. lia. }
  destruct (apply_loop ss off count raw ltac:(lia) Ho Hplace ltac:(lia) usn (Z.to_nat (count - 1))) as (A & HA & HAl & HAT & HAO).
  { lia. }
  { intros j Hj. pose proof (tail_position ss off count j ltac:(lia) Hplace ltac:(lia)).
    assert (j * ss <= py_len raw) by (rewrite HPl; nia).
    apply nthZ_ext; [rewrite py_len_slice by lia; lia|]. rewrite py_len_slice by lia. intros i Hi.
    rewrite nthZ_slice by lia. apply HPT; lia. }
  rewrite Z2Nat.id in * by lia. replace (count - 1 + 1) with count in HA by lia.
  exists A. split; [unfold _prepare_fixups; rewrite Hh; cbn [mbind result_bind]; by rewrite Hold|]. split; [done|].
  split; [unfold _apply_fixups; rewrite Hhr; cbn [mbind result_bind]; by rewrite Husn|]. split; [lia|]. split.
  - intros i Hi Hout. destruct (decide (i < off + 2 * count)) as [|Hge].
    { rewrite HAO, Hhead, Hsn by (try apply Hnt; lia). by rewrite (proj2 (Z.leb_gt off i)) by lia. }
    destruct (in_tail_dec ss (count - 1) i ltac:(lia)) as [(j & Hj & Hr)|Hno].
    + replace i with (j * ss - 2 + (i - (j * ss - 2))) by lia. rewrite HAT, HPU by lia. done.
    + rewrite HAO, HPO; [apply Hstart; lia|lia|unfold in_usa; lia|done|lia|done].
  - exists old. split; [done|]. split; [|done]. unfold u16le. rewrite unpack_from_ok by lia. rewrite Husn.
    f_equal. unfold usn. rewrite le_int_digits. apply Z.mod_small. change (256 ^ Z.of_nat 2) with 65536. lia.
Qed.

(** For a record whose update-sequence array is where NTFS puts it,
    [_prepare_fixups] succeeds, [_apply_fixups] accepts its output, and
    every byte outside the array comes back unchanged.  The sequence number
    written is never the previous one, so the prepared image always differs
    from the image it replaces. *)
Theorem fixups_roundtrip (fixed : bytes) (ss off count : Z)
    (Hbytes : wf_bytes fixed) (Husa : usa_placed fixed ss off count) :
  exists raw fixed', _prepare_fixups fixed ss = Ok raw /\ py_len raw = py_len fixed /\
    _apply_fixups raw ss = Ok fixed' /\ py_len fixed' = py_len fixed /\
    (forall i, 0 <= i -> ~ (off <= i < off + 2 * count) -> nthZ fixed' i = nthZ fixed i) /\
    (exists old, u16le fixed off = Ok old /\ u16le raw off = Ok (next_usn old) /\ next_usn old <> old).
Proof. by apply fixups_facts. Qed.

(** A record of two 32-byte sectors with the array at offset 8. *)
Definition sample_record : bytes :=
  [70; 73; 76; 69; 8; 0; 3; 0; 255; 255; 0; 0; 0; 0] ++ map (fun i => i mod 256) (py_range 100 150).

Lemma fixups_roundtrip_witness :
  exists raw fixed', _prepare_fixups sample_record 32 = Ok raw /\ py_len raw = py_len sample_record /\
    _apply_fixups raw 32 = Ok fixed' /\ py_len fixed' = py_len sample_record /\
    (forall i, 0 <= i -> ~ (8 <= i < 8 + 2 * 3) -> nthZ fixed' i = nthZ sample_record i) /\
    (exists old, u16le sample_record 8 = Ok old /\ u16le raw 8 = Ok (next_usn old) /\ next_usn old <> old).
Proof.
  apply (fixups_roundtrip sample_record 32 8 3).
  - repeat constructor; vm_compute; congruence.
  - split; [reflexivity|]. split; [reflexivity|]. split; [reflexivity|]. unfold py_len. simpl length. lia.
Defined.

(** ** Lemmas: the attribute walk is local *)

Lemma py_get_same (l k : bytes) a a' :
  0 <= a < py_len l -> 0 <= a' < py_len k -> nthZ l a = nthZ k a' -> py_get l a = py_get k a'.
Proof.
  intros Ha Ha' H. unfold py_get. rewrite (proj2 (Z.ltb_ge a 0)), (proj2 (Z.ltb_ge a' 0)) by lia. cbv zeta.
  rewrite (proj2 (Z.ltb_ge a 0)), (proj2 (Z.ltb_ge a' 0)) by lia. unfold nthZ in H. by rewrite H.
Qed.

Definition shift_attribute (d : Z) (a : Attribute) : Attribute :=
  mkAttribute (offset a + d) (alength a) (atype a) (name a) (flags a) (nonresident a) (lowest_vcn a)
    (highest_vcn a) (run_offset a) (runs a) (data_size a) (allocated_size a) (initialized_size a).

(** The attribute with a new length and run list. *)
Definition with_runs (a : Attribute) (len : Z) (rs : list Run) : Attribute :=
  mkAttribute (offset a) len (atype a) (name a) (flags a) (nonresident a) (lowest_vcn a)
    (highest_vcn a) (run_offset a) rs (data_size a) (allocated_size a) (initialized_size a).

(** The name of a non-resident attribute does not reach into its run list. *)
Definition name_clear (record : bytes) (a : Attribute) : Prop :=
  name a = [] \/ exists noff, u16le record (offset a + 10) = Ok noff /\ noff + py_len (name a) <= run_offset a.

(** What a successful parse tells about the attribute. *)
Lemma parse_attribute_facts record in_use pos a :
  wf_bytes record -> 0 <= pos -> in_use <= py_len record -> parse_attribute record in_use pos = Ok (Some a) ->
  offset a = pos /\ 24 <= alength a /\ pos + alength a <= in_use /\
  (nonresident a = true -> 64 <= run_offset a < alength a /\ Forall (fun r => 0 < length_of r /\ lcn_ok r) (runs a) /\
     runs_length (runs a) = highest_vcn a - lowest_vcn a + 1).
Proof.
  intros Hw Hp Hu H. unfold parse_attribute in H. inv_ok.
  destruct (a0 =? 4294967295); [done|]. inv_ok. bool_to_prop.
  destruct (negb (a2 =? 0)); inv_ok;
    cbn [offset alength nonresident run_offset runs highest_vcn lowest_vcn]; [|repeat split; try lia; done].
  bool_to_prop. split; [done|]. split; [lia|]. split; [lia|]. intros _. split; [lia|]. split; [|done].
  match goal with E : _decode_runlist ?d = Ok _ |- _ =>
    pose proof (decode_loop_sound (length d) d (wf_bytes_slice _ _ _ Hw) 0 0 []) as Hd;
    unfold _decode_runlist in E; rewrite E in Hd end.
  apply Hd; [lia|unfold py_len; lia|constructor].
Qed.

Section parse_local.
Context (record record' : bytes) (in_use in_use' pos pos' : Z).
Hypothesis Hw : wf_bytes record.
Hypothesis Hpos : 0 <= pos.
Hypothesis Hpos' : 0 <= pos'.
Hypothesis Huse : in_use <= py_len record.
Hypothesis Huse' : in_use' <= py_len record'.

(** The two records agree on bytes [a, b) of the attribute. *)
Definition agree (a b : Z) : Prop := forall i, a <= i < b -> nthZ record (pos + i) = nthZ record' (pos' + i).

Lemma read_same decode n k :
  0 <= k -> 0 <= n -> pos + k + n <= py_len record -> pos' + k + n <= py_len record' -> agree k (k + n) ->
  unpack_from decode n record' (pos' + k) = unpack_from decode n record (pos + k).
Proof.
  intros. symmetry. apply unpack_from_ext; try lia. intros i Hi. rewrite <- !Z.add_assoc. auto with lia.
Qed.

Lemma get_same k :
  0 <= k -> pos + k < py_len record -> pos' + k < py_len record' -> agree k (k + 1) ->
  py_get record' (pos' + k) = py_get record (pos + k).
Proof. intros ? ? ? Ha. symmetry. apply py_get_same; [lia|lia|apply Ha; lia]. Qed.

Lemma slice_same k m :
  0 <= k <= m -> pos + m <= py_len record -> pos' + m <= py_len record' -> agree k m ->
  py_slice record' (pos' + k) (pos' + m) = py_slice record (pos + k) (pos + m).
Proof.
  intros Hk H1 H2 Ha. symmetry.
  replace (pos + m) with (pos + k + (m - k)) by lia. replace (pos' + m) with (pos' + k + (m - k)) by lia.
  apply py_slice_ext; try lia. intros i Hi. rewrite <- !Z.add_assoc. apply Ha. lia.
Qed.

(** The header bytes of an attribute, with a new length and new mapping
    pairs behind them, parse to the attribute with that length and run list. *)
Lemma parse_rewritten a hdr len' rs' :
  parse_attribute record in_use pos = Ok (Some a) ->
  24 <= hdr <= alength a -> (nonresident a = true -> 64 <= hdr) ->
  agree 0 4 -> agree 8 hdr ->
  (name a = [] \/ exists noff, u16le record (pos + 10) = Ok noff /\ noff + py_len (name a) <= hdr) ->
  u32le record' (pos' + 4) = Ok len' -> alength a <= len' -> pos' + len' <= in_use' ->
  (if nonresident a
   then _decode_runlist (py_slice record' (pos' + run_offset a) (pos' + len')) = Ok rs' /\
        runs_length rs' = runs_length (runs a)
   else rs' = []) ->
  parse_attribute record' in_use' pos' = Ok (Some (shift_attribute (pos' - pos) (with_runs a len' rs'))).
Proof.
  intros H Hhdr H64 Hag4 Hag8 Hname Hlen' Hle Hfit Hruns.
  destruct (parse_attribute_facts _ _ _ _ Hw Hpos Huse H) as (_ & Hl24 & Hend & _).
  unfold parse_attribute in H |- *. rewrite Hlen'.
  assert (Hread : forall decode n k v, 0 <= n -> (k = 0 /\ n = 4) \/ (8 <= k /\ k + n <= hdr) ->
    unpack_from decode n record (pos + k) = Ok v -> unpack_from decode n record' (pos' + k) = Ok v).
  { intros decode n k v Hn Hk <-. apply read_same; try lia.
    destruct Hk as [[-> ->]|Hk]; [exact Hag4|]. intros i Hi. apply Hag8. lia. }
  assert (Hget : forall k v, 8 <= k < hdr -> py_get record (pos + k) = Ok v -> py_get record' (pos' + k) = Ok v).
  { intros k v Hk <-. apply get_same; try lia. intros i Hi. apply Hag8. lia. }
  destruct (u32le record pos) as [at_|] eqn:E0; [|done]. cbn [mbind result_bind] in H.
  assert (u32le record' pos' = Ok at_) as ->.
  { replace pos' with (pos' + 0) by lia. apply Hread; [lia|by left|]. by rewrite Z.add_0_r. }
  cbn [mbind result_bind]. destruct (at_ =? 4294967295); [done|].
  destruct (u32le record (pos + 4)) as [len|] eqn:E1; [|done]. cbn [mbind result_bind] in H.
  destruct ((len <? 24) || (in_use <? pos + len)) eqn:C1; [done|].
  destruct (py_get record (pos + 8)) as [nr|] eqn:E2; [|done]. cbn [mbind result_bind] in H.
  destruct (py_get record (pos + 9)) as [nl|] eqn:E3; [|done]. cbn [mbind result_bind] in H.
  destruct (u16le record (pos + 10)) as [no|] eqn:E4; [|done]. cbn [mbind result_bind] in H.
  destruct (u16le record (pos + 12)) as [fl|] eqn:E5; [|done]. cbn [mbind result_bind] in H.
  rewrite (Hget 8 nr), (Hget 9 nl) by (done || lia). cbn [mbind result_bind].
  assert (u16le record' (pos' + 10) = Ok no) as -> by (apply Hread; [lia|lia|done]).
  assert (u16le record' (pos' + 12) = Ok fl) as -> by (apply Hread; [lia|lia|done]). cbn [mbind result_bind].
  pose proof (py_get_nonneg record (pos + 9) nl Hw ltac:(lia) E3) as Hnl. pose proof (u16_nonneg record (pos + 10) no Hw ltac:(lia) E4) as Hno.
  match type of H with mbind _ ?m = _ => destruct m as [nm|] eqn:E6; [|done] end. cbn [mbind result_bind] in H.
  assert (alength a = len /\ name a = nm) as [Hal Hnm].
  { destruct (negb (nr =? 0)); inv_ok; cbn [alength name]; done. }
  rewrite Hal in *. rewrite Hnm in *. bool_to_prop. rewrite (proj2 (Z.ltb_ge len' 24)), (proj2 (Z.ltb_ge in_use' _)) by lia. cbn [orb].
  assert ((if negb (nl =? 0) then
        check (no <? 16) || (len' <? no + nl * 2) # NtfsCompactError "invalid NTFS attribute name";
        Ok (py_slice record' (pos' + no) (pos' + (no + nl * 2)))
      else Ok []) = Ok nm) as ->.
  { destruct (Z.eqb_spec nl 0); simpl negb in *; cbv iota in *; [done|].
    destruct ((no <? 16) || (len <? no + nl * 2)) eqn:C2; [done|]. bool_to_prop.
    rewrite (proj2 (Z.ltb_ge no 16)), (proj2 (Z.ltb_ge len' _)) by lia. cbn [orb]. injection E6 as E6.
    assert (py_len nm = nl * 2) as Hnlen by (rewrite <- E6, py_len_slice; lia).
    destruct Hname as [Hnil|(noff & [= <-] & Hnb)]; [rewrite Hnil in Hnlen; change (py_len []) with 0 in Hnlen; lia|].
    rewrite <- E6. f_equal. apply slice_same; try lia. intros i Hi. apply Hag8. lia. }
  cbn [mbind result_bind]. destruct (negb (nr =? 0)) eqn:Enr.
  - destruct (len <? 64) eqn:C3; [done|].
    destruct (u64le record (pos + 16)) as [lo|] eqn:E7; [|done]. cbn [mbind result_bind] in H.
    destruct (u64le record (pos + 24)) as [hi|] eqn:E8; [|done]. cbn [mbind result_bind] in H.
    destruct (u16le record (pos + 32)) as [ro|] eqn:E9; [|done]. cbn [mbind result_bind] in H.
    destruct ((ro <? 64) || (len <=? ro)) eqn:C4; [done|].
    destruct (_decode_runlist (py_slice record _ _)) as [rs|] eqn:E10; [|done]. cbn [mbind result_bind] in H.
    destruct (negb (runs_length rs =? hi - lo + 1)) eqn:C5; [done|].
    destruct (u64le record (pos + 40)) as [al|] eqn:E11; [|done]. cbn [mbind result_bind] in H.
    destruct (u64le record (pos + 48)) as [ds|] eqn:E12; [|done]. cbn [mbind result_bind] in H.
    destruct (u64le record (pos + 56)) as [ini|] eqn:E13; [|done]. cbn [mbind result_bind] in H.
    injection H as <-. cbn [nonresident run_offset runs] in Hruns, H64. specialize (H64 eq_refl). destruct Hruns as [Hdec Hrl]. bool_to_prop.
    rewrite (proj2 (Z.ltb_ge len' 64)) by lia.
    assert (u64le record' (pos' + 16) = Ok lo) as -> by (apply Hread; [lia|lia|done]). cbn [mbind result_bind].
    assert (u64le record' (pos' + 24) = Ok hi) as -> by (apply Hread; [lia|lia|done]). cbn [mbind result_bind].
    assert (u16le record' (pos' + 32) = Ok ro) as -> by (apply Hread; [lia|lia|done]). cbn [mbind result_bind].
    rewrite (proj2 (Z.ltb_ge ro 64)), (proj2 (Z.leb_gt len' ro)) by lia. cbn [orb].
    rewrite Hdec. cbn [mbind result_bind]. rewrite Hrl, C5, Z.eqb_refl. cbn [negb].
    assert (u64le record' (pos' + 40) = Ok al) as -> by (apply Hread; [lia|lia|done]). cbn [mbind result_bind].
    assert (u64le record' (pos' + 48) = Ok ds) as -> by (apply Hread; [lia|lia|done]). cbn [mbind result_bind].
    assert (u64le record' (pos' + 56) = Ok ini) as -> by (apply Hread; [lia|lia|done]). cbn [mbind result_bind].
    unfold shift_attribute, with_runs. cbn. do 3 f_equal. lia.
  - injection H as <-. cbn [nonresident] in Hruns. subst rs'. unfold shift_attribute, with_runs. cbn. do 3 f_equal. lia.
Qed.
End parse_local.

(** An attribute whose bytes are found elsewhere parses to itself there. *)
Lemma parse_moved record record' in_use in_use' pos pos' a :
  wf_bytes record -> 0 <= pos -> 0 <= pos' -> in_use <= py_len record -> in_use' <= py_len record' ->
  parse_attribute record in_use pos = Ok (Some a) -> pos' + alength a <= in_use' ->
  agree record record' pos pos' 0 (alength a) ->
  parse_attribute record' in_use' pos' = Ok (Some (shift_attribute (pos' - pos) a)).
Proof.
  intros Hw Hp Hp' Hu Hu' H Hfit Hag.
  destruct (parse_attribute_facts _ _ _ _ Hw Hp Hu H) as (_ & Hlen & Hend & Hnr).
  assert (Hfull : exists at_ no nl, u32le record pos = Ok at_ /\ u32le record (pos + 4) = Ok (alength a) /\
     u16le record (pos + 10) = Ok no /\ py_get record (pos + 9) = Ok nl /\
     (name a = [] \/ no + py_len (name a) <= alength a) /\
     (if nonresident a then _decode_runlist (py_slice record (pos + run_offset a) (pos + alength a)) = Ok (runs a)
      else runs a = [])).
  { unfold parse_attribute in H. inv_ok. destruct (a0 =? 4294967295); [done|]. inv_ok.
    pose proof (py_get_nonneg record (pos + 9) a3 Hw ltac:(lia) E3). bool_to_prop.
    eexists a0, a4, a3. split; [done|]. split; [destruct (negb (a2 =? 0)); inv_ok; done|].
    split; [done|]. split; [done|]. split.
    - assert (name a = a6 /\ alength a = a1) as [-> ->] by (destruct (negb (a2 =? 0)); inv_ok; done).
      destruct (negb (a3 =? 0)); inv_ok; [|by left]. right. bool_to_prop.
      rewrite py_len_slice; lia.
    - destruct (negb (a2 =? 0)); inv_ok; done. }
  destruct Hfull as (at_ & no & nl & E0 & E1 & E2 & E3 & Hname & Hruns).
  assert (Hw' : with_runs a (alength a) (runs a) = a) by (by destruct a).
  rewrite <- Hw' at 1. eapply (parse_rewritten record record' in_use in_use' pos pos') with (hdr := alength a); try done; try lia.
  - intros Hn. specialize (Hnr Hn). lia.
  - intros i Hi. apply Hag. lia.
  - intros i Hi. apply Hag. lia.
  - destruct Hname as [?|?]; [by left|]. right. eauto.
  - rewrite <- E1. apply read_same; try lia. intros i Hi. apply Hag. lia.
  - destruct (nonresident a); [|done]. split; [|done]. rewrite <- Hruns. f_equal. specialize (Hnr eq_refl).
    apply slice_same; try lia. intros i Hi. apply Hag. lia.
Qed.

Lemma end_marker_moved record record' in_use in_use' pos pos' :
  0 <= pos -> 0 <= pos' -> pos + 4 <= py_len record -> pos' + 4 <= py_len record' ->
  agree record record' pos pos' 0 4 ->
  parse_attribute record in_use pos = Ok None -> parse_attribute record' in_use' pos' = Ok None.
Proof.
  intros ? ? ? ? Hag H. unfold parse_attribute in H |- *. inv_ok.
  assert (u32le record' pos' = Ok a) as ->.
  { rewrite <- E. symmetry. apply unpack_from_ext; try lia. intros i Hi. apply Hag. lia. }
  cbn [mbind result_bind]. destruct (a =? 4294967295); [done|]. inv_ok.
  destruct (negb (a1 =? 0)); inv_ok; discriminate.
Qed.

(** One step of a walk that does not raise. *)
Lemma attributes_loop_inv fuel record in_use pos attrs :
  attributes_loop fuel record in_use pos = Generated attrs None ->
  (attrs = [] /\ (in_use < pos + 16 \/ pos + 16 <= in_use /\ (0 < fuel)%nat /\ parse_attribute record in_use pos = Ok None)) \/
  (exists f a rest, fuel = S f /\ attrs = a :: rest /\ pos + 16 <= in_use /\
     parse_attribute record in_use pos = Ok (Some a) /\
     attributes_loop f record in_use (pos + alength a) = Generated rest None).
Proof.
  intros H. destruct fuel as [|f]; cbn [attributes_loop] in H; destruct (Z.leb_spec (pos + 16) in_use).
  - done.
  - injection H as <-. left. split; [done|]. left. lia.
  - destruct (parse_attribute record in_use pos) as [[a|]|] eqn:E; [|injection H as <-|done].
    + right. destruct (attributes_loop f record in_use (pos + alength a)) as [rest r] eqn:El.
      unfold gen_cons in H. cbn in H. injection H as <- ->. exists f, a, rest. done.
    + left. split; [done|]. right. split; [done|]. split; [lia|done].
  - injection H as <-. left. split; [done|]. left. lia.
Qed.

(** A walk over bytes found elsewhere yields the shifted attributes. *)
Lemma walk_moved fuel : forall record record' in_use pos d attrs,
  wf_bytes record -> 0 <= pos -> 0 <= pos + d -> in_use <= py_len record -> in_use + d <= py_len record' ->
  (forall i, pos <= i < in_use -> nthZ record i = nthZ record' (i + d)) ->
  attributes_loop fuel record in_use pos = Generated attrs None ->
  attributes_loop fuel record' (in_use + d) (pos + d) = Generated (map (shift_attribute d) attrs) None.
Proof.
  induction fuel as [|f IH]; intros record record' in_use pos d attrs Hw Hp Hp' Hu Hu' Hag H;
    (destruct (attributes_loop_inv _ _ _ _ _ H) as [[-> [Hlt|(Hle & Hf & Hend)]]|(f' & a & rest & Hf & -> & Hle & Hpa & Hrest)]; [|try lia|try done]).
  1,2: cbn [attributes_loop]; by rewrite (proj2 (Z.leb_gt _ _)) by lia.
  - cbn [attributes_loop]. rewrite (proj2 (Z.leb_le _ _)) by lia.
    rewrite (end_marker_moved record record' in_use (in_use + d) pos (pos + d)); try done; try lia.
    intros i Hi. rewrite Hag by lia. f_equal. lia.
  - injection Hf as <-. destruct (parse_attribute_facts _ _ _ _ Hw Hp Hu Hpa) as (Ho & Hlen & Hend & _).
    cbn [attributes_loop]. rewrite (proj2 (Z.leb_le _ _)) by lia.
    rewrite (parse_moved record record' in_use (in_use + d) pos (pos + d) a); try done; try lia.
    2:{ intros i Hi. rewrite Hag by lia. f_equal. lia. }
    replace (pos + d - pos) with d by lia. cbn [alength shift_attribute].
    replace (pos + d + alength a) with (pos + alength a + d) by lia.
    rewrite (IH record record' in_use (pos + alength a) d rest); try done; try lia.
    intros i Hi. apply Hag. lia.
Qed.

Lemma walk_offsets fuel : forall record in_use pos attrs,
  wf_bytes record -> 0 <= pos -> in_use <= py_len record ->
  attributes_loop fuel record in_use pos = Generated attrs None ->
  Forall (fun a => pos <= offset a /\ offset a + alength a <= in_use) attrs.
Proof.
  induction fuel as [|f IH]; intros record in_use pos attrs Hw Hp Hu H;
    (destruct (attributes_loop_inv _ _ _ _ _ H) as [[-> _]|(f' & a & rest & Hf & -> & Hle & Hpa & Hrest)]; [constructor|try done]).
  injection Hf as <-. destruct (parse_attribute_facts _ _ _ _ Hw Hp Hu Hpa) as (Ho & Hlen & Hend & _).
  constructor; [lia|]. eapply Forall_impl; [eapply (IH record in_use (pos + alength a)); [done|lia|done|exact Hrest]|].
  simpl. lia.
Qed.

(** ** Lemmas: the rewritten body *)

Lemma align8_spec n : n <= align8 n < n + 8 /\ align8 n mod 8 = 0.
Proof.
  unfold align8. assert (Z.land (n + 7) (Z.lnot 7) = (n + 7) / 8 * 8) as ->.
  { rewrite <- Z.ldiff_land. change 7 with (Z.ones 3) at 2. rewrite Z.ldiff_ones_r by lia.
    rewrite Z.shiftr_div_pow2, Z.shiftl_mul_pow2 by lia. done. }
  split; [|apply Z.mod_mul; lia].
  pose proof (Z.div_mod (n + 7) 8 ltac:(lia)). pose proof (Z.mod_pos_bound (n + 7) 8 ltac:(lia)). lia.
Qed.

(** How the body of a rewritten record relates to the original. *)
Record rewritten (fixed body : bytes) (a : Attribute) (in_use growth : Z) (encoded : bytes) : Prop := {
  rw_len : py_len body = py_len fixed;
  rw_wf : wf_bytes body;
  rw_growth : 0 <= growth;
  rw_room : in_use + growth <= py_len fixed;
  rw_in_use : u32le body 24 = Ok (in_use + growth);
  rw_before : forall i, 0 <= i < offset a -> ~ 24 <= i < 28 -> nthZ body i = nthZ fixed i;
  rw_header : forall i, offset a <= i < offset a + run_offset a -> ~ offset a + 4 <= i < offset a + 8 ->
              nthZ body i = nthZ fixed i;
  rw_length : u32le body (offset a + 4) = Ok (alength a + growth);
  rw_runs : exists pad, py_slice body (offset a + run_offset a) (offset a + (alength a + growth)) = encoded ++ pad;
  rw_after : forall i, offset a + alength a <= i < in_use -> nthZ body (i + growth) = nthZ fixed i
}.

Arguments rw_len {fixed body a in_use growth encoded} r.
Arguments rw_wf {fixed body a in_use growth encoded} r.
Arguments rw_growth {fixed body a in_use growth encoded} r.
Arguments rw_room {fixed body a in_use growth encoded} r.
Arguments rw_in_use {fixed body a in_use growth encoded} r.
Arguments rw_before {fixed body a in_use growth encoded} r.
Arguments rw_header {fixed body a in_use growth encoded} r.
Arguments rw_length {fixed body a in_use growth encoded} r.
Arguments rw_runs {fixed body a in_use growth encoded} r.
Arguments rw_after {fixed body a in_use growth encoded} r.

(** The optional growth step: shift the tail, clear the gap, store the two lengths. *)
Definition grown (fixed mid : bytes) (a : Attribute) (in_use growth : Z) : Prop :=
  py_len mid = py_len fixed /\ wf_bytes mid /\
  u32le mid 24 = Ok (in_use + growth) /\ u32le mid (offset a + 4) = Ok (alength a + growth) /\
  (forall i, 0 <= i < offset a + alength a -> ~ 24 <= i < 28 -> ~ offset a + 4 <= i < offset a + 8 ->
     nthZ mid i = nthZ fixed i) /\
  (forall i, offset a + alength a <= i < in_use -> nthZ mid (i + growth) = nthZ fixed i).

Lemma growth_step fixed a in_use growth mid :
  wf_bytes fixed -> 28 <= offset a -> 64 <= alength a -> offset a + alength a <= in_use -> 0 < growth ->
  in_use + growth <= py_len fixed ->
  (let old_end := offset a + alength a in
   let fixed := py_set_slice fixed (old_end + growth) (in_use + growth) (py_slice fixed old_end in_use) in
   let fixed := py_set_slice fixed old_end (old_end + growth) (py_zeros growth) in
   fixed ← pack_into 4 fixed (offset a + 4) (alength a + growth);
   pack_into 4 fixed 24 (in_use + growth)) = Ok mid ->
  grown fixed mid a in_use growth.
Proof.
  intros Hw Ho Hal Hu Hg Hroom H. cbv zeta in H. set (e := offset a + alength a) in *.
  set (m1 := py_set_slice fixed (e + growth) (in_use + growth) (py_slice fixed e in_use)) in *.
  assert (py_len (py_slice fixed e in_use) = in_use - e) as Hsl by (rewrite py_len_slice; lia).
  assert (py_len m1 = py_len fixed) as L1 by (unfold m1; rewrite py_len_set_slice; lia).
  set (m2 := py_set_slice m1 e (e + growth) (py_zeros growth)) in *.
  pose proof (py_len_zeros growth ltac:(lia)) as Hz.
  assert (py_len m2 = py_len fixed) as L2 by (unfold m2; rewrite py_len_set_slice; lia).
  apply bind_ok in H as (m3 & H3 & H4).
  apply pack_into_inv in H3 as (B3 & V3 & ->); [|lia]. set (m3 := py_set_slice m2 _ _ _) in *. change (Z.of_nat 4) with 4 in *.
  assert (py_len (le_digits 4 (alength a + growth)) = 4) as Hd3 by apply py_len_le_digits.
  assert (py_len (le_digits 4 (in_use + growth)) = 4) as Hd4 by apply py_len_le_digits.
  assert (py_len m3 = py_len fixed) as L3 by (unfold m3; rewrite py_len_set_slice; lia).
  apply pack_into_inv in H4 as (B4 & V4 & ->); [|lia]. change (Z.of_nat 4) with 4 in *.
  assert (Hn : forall i, 0 <= i -> ~ 24 <= i < 28 -> ~ offset a + 4 <= i < offset a + 8 ->
    nthZ (py_set_slice m3 24 (24 + 4) (le_digits 4 (in_use + growth))) i
    = if (e <=? i) && (i <? e + growth) then nthZ (py_zeros growth) (i - e)
      else if (e + growth <=? i) && (i <? in_use + growth) then nthZ fixed (i - growth) else nthZ fixed i).
  { intros i Hi H24 Hlen. rewrite nthZ_set_slice by lia.
    replace ((24 <=? i) && (i <? 24 + 4)) with false by (ztests; simpl; try done; lia).
    unfold m3. rewrite nthZ_set_slice by lia.
    replace ((offset a + 4 <=? i) && (i <? offset a + 4 + 4)) with false by (ztests; simpl; try done; lia).
    unfold m2. rewrite nthZ_set_slice by lia. destruct ((e <=? i) && (i <? e + growth)); [done|].
    unfold m1. rewrite nthZ_set_slice by lia. destruct ((e + growth <=? i) && (i <? in_use + growth)) eqn:E; [|done].
    bool_to_prop. rewrite nthZ_slice by lia. f_equal. lia. }
  split; [rewrite py_len_set_slice; lia|]. split; [unfold m3, m2, m1; auto 10 with defrag|].
  split; [apply u32le_set; lia|]. split.
  { rewrite (u32le_same _ m3); [apply u32le_set; lia|lia|rewrite py_len_set_slice; lia|rewrite py_len_set_slice; lia|].
    intros i Hi. rewrite nthZ_set_slice by lia. by replace ((24 <=? i) && (i <? 24 + 4)) with false by (ztests; simpl; try done; lia). }
  split; intros i Hi; intros; rewrite Hn by lia.
  - replace ((e <=? i) && (i <? e + growth)) with false by (ztests; simpl; try done; lia).
    by replace ((e + growth <=? i) && (i <? in_use + growth)) with false by (ztests; simpl; try done; lia).
  - replace ((e <=? i + growth) && (i + growth <? e + growth)) with false by (ztests; simpl; try done; lia).
    rewrite (proj2 (Z.leb_le _ _)), (proj2 (Z.ltb_lt _ _)) by lia. simpl. f_equal. lia.
Qed.

Lemma rewrite_body_facts c new_runs body :
  wf_bytes (record_fixed c) -> 28 <= offset (attribute c) -> 64 <= run_offset (attribute c) < alength (attribute c) ->
  u32le (record_fixed c) (offset (attribute c) + 4) = Ok (alength (attribute c)) ->
  Forall lcn_ok new_runs -> rewrite_body c new_runs = Ok body ->
  exists in_use growth encoded,
    u32le (record_fixed c) 24 = Ok in_use /\ offset (attribute c) + alength (attribute c) <= in_use /\
    _encode_runlist (_coalesce_runs new_runs) = Ok encoded /\
    runs_length (_coalesce_runs new_runs) = highest_vcn (attribute c) - lowest_vcn (attribute c) + 1 /\
    rewritten (record_fixed c) body (attribute c) in_use growth encoded.
Proof.
  intros Hw Ho Hro Hal Hlcn H. set (a := attribute c) in *. set (fixed := record_fixed c) in *.
  unfold rewrite_body in H. fold a fixed in H. cbv zeta in H.
  destruct (negb (runs_length _ =? _)) eqn:C1; [done|].
  destruct (_encode_runlist _) as [encoded|] eqn:E1; [|done]. cbn [mbind result_bind] in H.
  destruct (u32le fixed 24) as [in_use|] eqn:E2; [|done]. cbn [mbind result_bind] in H.
  destruct (u32le fixed 28) as [alloc|] eqn:E3; [|done]. cbn [mbind result_bind] in H.
  set (growth := Z.max 0 (align8 (run_offset a + py_len encoded) - alength a)) in *.
  destruct (_ || _) eqn:C2; [done|]. destruct (_ <? _) eqn:C3 in H; [done|]. bool_to_prop.
  exists in_use, growth, encoded. do 4 (split; [done|]).
  assert (wf_bytes encoded) as Hwe by (apply (encode_runlist_decode _ _ E1), coalesce_lcn_ok, Hlcn).
  pose proof (align8_spec (run_offset a + py_len encoded)) as [Halign _]. pose proof (py_len_nonneg encoded).
  apply bind_ok in H as (mid & Em & H). injection H as <-.
  assert (grown fixed mid a in_use growth) as Hmid.
  { destruct (Z.eqb_spec growth 0) as [Hz|]; simpl negb in Em; cbv iota in Em.
    - injection Em as <-. rewrite Hz. unfold grown. rewrite !Z.add_0_r. repeat split; auto. intros i _. by rewrite Z.add_0_r.
    - apply growth_step; (done || lia). }
  destruct Hmid as (Lm & Wm & U24 & Ulen & Hbefore & Hafter).
  set (s := offset a + run_offset a). set (cap := alength a + growth - run_offset a).
  set (data := encoded ++ py_zeros (cap - py_len encoded)).
  assert (py_len data = cap) as Ld by (unfold data; rewrite py_len_app, py_len_zeros; lia).
  assert (Hn : forall i, 0 <= i -> i < s \/ s + cap <= i -> nthZ (py_set_slice mid s (s + cap) data) i = nthZ mid i).
  { intros i Hi Hout. rewrite nthZ_set_slice by lia. by replace ((s <=? i) && (i <? s + cap)) with false by (ztests; simpl; try done; lia). }
  constructor; try lia.
  - rewrite py_len_set_slice; lia.
  - apply wf_py_set_slice; [done|]. apply Forall_app_2; [done|]. apply wf_py_zeros.
  - rewrite (u32le_same _ mid), U24; [done|lia|rewrite py_len_set_slice; lia|rewrite py_len_set_slice; lia|].
    intros i Hi. apply Hn; lia.
  - intros i Hi Hne. rewrite Hn by lia. apply Hbefore; lia.
  - intros i Hi Hne. rewrite Hn by lia. apply Hbefore; lia.
  - rewrite (u32le_same _ mid), Ulen; [done|lia|rewrite py_len_set_slice; lia|rewrite py_len_set_slice; lia|].
    intros i Hi. apply Hn; lia.
  - exists (py_zeros (cap - py_len encoded)). replace (offset a + (alength a + growth)) with (s + cap) by lia.
    apply (py_slice_set_same mid s (s + cap) data); lia.
  - intros i Hi. rewrite Hn by lia. by apply Hafter.
Qed.

(** ** Re-parsing a rewritten record *)

Lemma shift_zero a : shift_attribute 0 a = a.
Proof. destruct a. unfold shift_attribute. simpl. by rewrite Z.add_0_r. Qed.

Lemma map_shift_zero l : map (shift_attribute 0) l = l.
Proof. induction l as [|a l IH]; [done|]. simpl. by rewrite shift_zero, IH. Qed.

Lemma walk_rewritten fixed body a after in_use growth encoded rs' before : forall fuel pos,
  wf_bytes fixed -> 28 <= pos -> in_use <= py_len fixed ->
  attributes_loop fuel fixed in_use pos = Generated (before ++ a :: after) None ->
  nonresident a = true -> name_clear fixed a ->
  rewritten fixed body a in_use growth encoded ->
  (forall pad, _decode_runlist (encoded ++ pad) = Ok rs') -> runs_length rs' = runs_length (runs a) ->
  attributes_loop fuel body (in_use + growth) pos =
    Generated (before ++ with_runs a (alength a + growth) rs' :: map (shift_attribute growth) after) None.
Proof.
  induction before as [|b before IH]; intros fuel pos Hw Hp Hu H Hnr Hname Hrw Hdec Hrl;
    destruct (attributes_loop_inv _ _ _ _ _ H) as [[? _]|(f & x & rest & -> & [= -> <-] & Hle & Hpa & Hrest)]; try done;
    destruct (parse_attribute_facts fixed in_use pos x Hw ltac:(lia) Hu Hpa) as (Hoff & Hlen & Hend & Hfacts);
    pose proof (rw_len Hrw) as Hbl; pose proof (rw_growth Hrw) as Hg; pose proof (rw_room Hrw) as Hroom.
  - specialize (Hfacts Hnr) as (Hro & _ & _). destruct (rw_runs Hrw) as [pad Hpad].
    cbn [attributes_loop]. rewrite (proj2 (Z.leb_le _ _)) by lia.
    rewrite (parse_rewritten fixed body in_use (in_use + growth) pos pos Hw ltac:(lia) ltac:(lia) Hu ltac:(lia)
               x (run_offset x) (alength x + growth) rs'); try done; try lia.
    + replace (pos - pos) with 0 by lia. rewrite shift_zero. cbn [alength with_runs].
      replace (pos + (alength x + growth)) with (pos + alength x + growth) by lia.
      rewrite (walk_moved f fixed body in_use (pos + alength x) growth after); try done; try lia.
      intros i Hi. symmetry. apply (rw_after Hrw). lia.
    + intros i Hi. symmetry. apply (rw_header Hrw); lia.
    + intros i Hi. symmetry. apply (rw_header Hrw); lia.
    + destruct Hname as [?|(noff & Hno & Hb)]; [by left|right]. rewrite Hoff in Hno. eauto.
    + rewrite <- Hoff. apply (rw_length Hrw).
    + rewrite Hnr. split; [|done]. rewrite <- Hoff at 1 2. rewrite Hpad. apply Hdec.
  - pose proof (walk_offsets f fixed in_use (pos + alength x) (before ++ a :: after) Hw ltac:(lia) Hu Hrest) as Hoffs.
    assert (pos + alength x <= offset a) as Ha by (rewrite Forall_forall in Hoffs; apply Hoffs; set_solver).
    cbn [attributes_loop]. rewrite (proj2 (Z.leb_le _ _)) by lia.
    rewrite (parse_moved fixed body in_use (in_use + growth) pos pos x); try done; try lia.
    2:{ intros i Hi. symmetry. apply (rw_before Hrw); lia. }
    replace (pos - pos) with 0 by lia. rewrite shift_zero. simpl app.
    rewrite (IH f (pos + alength x)); try done. lia.
Qed.

Lemma parse_unique_length record in_use pos a :
  parse_attribute record in_use pos = Ok (Some a) -> u32le record (pos + 4) = Ok (alength a).
Proof.
  intros H. unfold parse_attribute in H. inv_ok. destruct (a0 =? 4294967295); [done|]. inv_ok.
  destruct (negb (a2 =? 0)); inv_ok; done.
Qed.

Lemma walk_member fuel : forall record in_use pos before a after,
  attributes_loop fuel record in_use pos = Generated (before ++ a :: after) None ->
  wf_bytes record -> 0 <= pos -> in_use <= py_len record ->
  parse_attribute record in_use (offset a) = Ok (Some a) /\ pos <= offset a.
Proof.
  induction fuel as [|f IH]; intros record in_use pos before a after H Hw Hp Hu;
    destruct (attributes_loop_inv _ _ _ _ _ H) as [[? _]|(f' & x & rest & Hf & Hx & Hle & Hpa & Hrest)]; try done;
    try (by destruct before).
  injection Hf as <-. destruct (parse_attribute_facts _ _ _ _ Hw Hp Hu Hpa) as (Hoff & Hlen & Hend & _).
  destruct before as [|b before]; injection Hx as -> <-.
  - rewrite Hoff. split; [done|lia].
  - destruct (IH record in_use (pos + alength x) before a after Hrest Hw ltac:(lia) Hu). split; [done|lia].
Qed.

(** What the rewritten record holds once its fix-ups are applied: the walk, and
    the bytes that did not change their place or moved with the growth. *)
Lemma updated_record_facts c new_runs ss off count first raw before after :
  wf_bytes (record_fixed c) -> usa_placed (record_fixed c) ss off count ->
  u16le (record_fixed c) 20 = Ok first -> 28 <= off /\ off + 2 * count <= first ->
  list_of (_attributes (record_fixed c)) = Ok (before ++ attribute c :: after) ->
  nonresident (attribute c) = true -> name_clear (record_fixed c) (attribute c) ->
  Forall lcn_ok new_runs -> _updated_record_runs c new_runs ss = Ok raw ->
  exists fixed' growth in_use, _apply_fixups raw ss = Ok fixed' /\ 0 <= growth /\
    list_of (_attributes fixed') =
      Ok (before ++ with_runs (attribute c) (alength (attribute c) + growth) (_coalesce_runs new_runs)
            :: map (shift_attribute growth) after) /\
    py_len raw = py_len (record_fixed c) /\ py_len fixed' = py_len (record_fixed c) /\
    runs_length (_coalesce_runs new_runs) = runs_length (runs (attribute c)) /\
    first <= offset (attribute c) /\ u32le (record_fixed c) 24 = Ok in_use /\ in_use + growth <= py_len (record_fixed c) /\
    (forall i, 0 <= i < offset (attribute c) + run_offset (attribute c) -> ~ 24 <= i < 28 -> ~ off <= i < off + 2 * count ->
       ~ offset (attribute c) + 4 <= i < offset (attribute c) + 8 -> nthZ fixed' i = nthZ (record_fixed c) i) /\
    (forall i, offset (attribute c) + alength (attribute c) <= i < in_use -> nthZ fixed' (i + growth) = nthZ (record_fixed c) i).
Proof.
  intros Hbytes Husa Hfirst Harea Hattrs Hnr Hname Hlcn Hupd.
  set (a := attribute c) in *. set (fixed := record_fixed c) in *.
  unfold _attributes in Hattrs. rewrite Hfirst in Hattrs.
  destruct (u32le fixed 24) as [used|] eqn:E24; [|done].
  destruct (attributes_loop (length fixed) fixed (Z.min (py_len fixed) used) first) as [attrs r] eqn:El.
  unfold list_of in Hattrs. cbn in Hattrs. destruct r; [done|]. injection Hattrs as ->.
  destruct (usa_bounds _ _ _ _ Husa) as (Hc2 & _ & _).
  destruct (walk_member (length fixed) fixed (Z.min (py_len fixed) used) first before a after El Hbytes ltac:(lia) ltac:(lia)) as [Hpa Hfo].
  destruct (parse_attribute_facts fixed (Z.min (py_len fixed) used) (offset a) a Hbytes ltac:(lia) ltac:(lia) Hpa) as (_ & Hlen & Hend & Hfacts).
  specialize (Hfacts Hnr) as (Hro & _ & Hvcn).
  unfold _updated_record_runs in Hupd. apply bind_ok in Hupd as (body & Hbody & Hprep).
  destruct (rewrite_body_facts c new_runs body Hbytes ltac:(fold a; lia) Hro (parse_unique_length _ _ _ _ Hpa) Hlcn Hbody)
    as (in_use & growth & encoded & Hin & Hfit & Henc & Hrl & Hrw). fold a fixed in Hin, Hfit, Hrl, Hrw.
  assert (used = in_use) as -> by congruence.
  pose proof (rw_room Hrw) as Hroom. pose proof (rw_growth Hrw) as Hg.
  pose proof (rw_len Hrw) as Hbl. rewrite Z.min_r in El by lia.
  destruct (encode_runlist_decode _ _ Henc (coalesce_lcn_ok _ Hlcn)) as (_ & _ & Hdec).
  pose proof (walk_rewritten fixed body a after in_use growth encoded (_coalesce_runs new_runs) before
                (length fixed) first Hbytes ltac:(lia) ltac:(lia) El Hnr Hname Hrw Hdec ltac:(lia)) as Hwalk.
  assert (usa_placed body ss off count) as Husa'.
  { destruct Husa as (H4 & H6 & Hce & H8 & Hss & Hpl). unfold usa_placed. rewrite Hbl.
    rewrite (u16le_same body fixed 4), (u16le_same body fixed 6); try done; try lia;
      intros i Hi; apply (rw_before Hrw); lia. }
  destruct (fixups_facts body ss off count (rw_wf Hrw) Husa')
    as (raw' & fixed' & Hp' & Hrawlen & Happ & Hfl & Hsame & _).
  assert (raw' = raw) as -> by congruence. exists fixed', growth, in_use. split; [done|]. split; [done|].
  split; [|split; [lia|split; [lia|split; [lia|split; [done|split; [done|split; [lia|split]]]]]]].
  2:{ intros i Hi H1 H2 H3. rewrite Hsame by lia. destruct (Z.lt_ge_cases i (offset a)); [apply (rw_before Hrw); lia|apply (rw_header Hrw); lia]. }
  2:{ intros i Hi. rewrite Hsame by lia. by apply (rw_after Hrw). }
  unfold _attributes.
  assert (u16le fixed' 20 = Ok first) as ->.
  { rewrite (u16le_same fixed' fixed 20), Hfirst; try done; try lia.
    intros i Hi. rewrite Hsame by lia. apply (rw_before Hrw); lia. }
  assert (u32le fixed' 24 = Ok (in_use + growth)) as ->.
  { rewrite (u32le_same fixed' body 24); [apply (rw_in_use Hrw)|lia|lia|lia|]. intros i Hi. apply Hsame; lia. }
  rewrite Z.min_r by lia. replace (length fixed') with (length fixed) by (unfold py_len in *; lia).
  pose proof (walk_moved (length fixed) body fixed' (in_use + growth) first 0 _ (rw_wf Hrw) ltac:(lia) ltac:(lia)
                ltac:(lia) ltac:(lia) ltac:(intros i Hi; rewrite Z.add_0_r; symmetry; apply Hsame; lia) Hwalk) as Hfinal.
  rewrite !Z.add_0_r in Hfinal. rewrite Hfinal. unfold list_of. cbn [raised yielded]. by rewrite map_shift_zero.
Qed.


(** A 256-byte user record of two 128-byte sectors: a resident attribute at
    56, an unnamed [$DATA] stream of two runs at 80, the end marker at 152. *)
Definition poke (record : bytes) (field : Z * bytes) : bytes :=
  py_set_slice record field.1 (field.1 + py_len field.2) field.2.

Definition sample_mft_record : bytes :=
  fold_left poke
    [(0, [70; 73; 76; 69]); (4, [48; 0]); (6, [3; 0]); (20, [56; 0]); (22, [1; 0]); (24, [160; 0; 0; 0]); (28, [0; 1; 0; 0]);
     (48, [7; 0]);
     (56, [16; 0; 0; 0; 24; 0; 0; 0]);
     (80, [128; 0; 0; 0; 72; 0; 0; 0; 1; 0; 64; 0; 0; 0]); (104, [5]); (112, [64]); (120, [0; 96]); (128, [0; 96]); (136, [0; 96]);
     (144, [17; 4; 100; 17; 2; 206; 0]);
     (152, [255; 255; 255; 255])]
    (py_zeros 256).

Definition sample_data : Attribute :=
  mkAttribute 80 72 128 [] 0 true 0 5 64 [mkRun (Some 100) 4; mkRun (Some 50) 2] 24576 24576 24576.

Definition sample_candidate : Candidate := mkCandidate 30 0 [] sample_mft_record sample_data.

Definition sample_new_runs : list Run :=
  [mkRun (Some 10) 1; mkRun (Some 20000) 1; mkRun (Some 7) 1; mkRun (Some 30000) 3].

Lemma sample_record_wf : wf_bytes sample_mft_record.
Proof.
  apply Forall_forall. intros b Hb. assert (forallb (fun b => (0 <=? b) && (b <? 256)) sample_mft_record = true) as H by reflexivity.
  rewrite forallb_forall in H. specialize (H b). rewrite <- list_elem_of_In in H. specialize (H Hb). bool_to_prop. by split.
Qed.


(** ** The capacity check is sufficient *)

(** When the planner's capacity check accepts a replacement mapping of the
    right length, rewriting an 8-byte aligned attribute cannot fail: the
    growth fits the record and the new image is produced. *)
Theorem mapping_capacity_sufficient (c : Candidate) (new_runs : list Run) (ss off count capacity : Z) (encoded : bytes)
    (Hbytes : wf_bytes (record_fixed c)) (Hsize : py_len (record_fixed c) <= 2 ^ 31)
    (Husa : usa_placed (record_fixed c) ss off count)
    (Hoff : 28 <= offset (attribute c)) (Hro : 64 <= run_offset (attribute c) < alength (attribute c))
    (Halen : u32le (record_fixed c) (offset (attribute c) + 4) = Ok (alength (attribute c)))
    (Haligned : alength (attribute c) mod 8 = 0) (Hlcn : Forall lcn_ok new_runs)
    (Hcap : _maximum_mapping_capacity c = Ok capacity)
    (Henc : _encode_runlist (_coalesce_runs new_runs) = Ok encoded) (Hfits : py_len encoded <= capacity)
    (Hvcn : runs_length (_coalesce_runs new_runs) = highest_vcn (attribute c) - lowest_vcn (attribute c) + 1) :
  exists raw, _updated_record_runs c new_runs ss = Ok raw /\ py_len raw = py_len (record_fixed c).
Proof.
  set (a := attribute c) in *. set (fixed := record_fixed c) in *.
  unfold _maximum_mapping_capacity in Hcap. fold a fixed in Hcap.
  destruct (u32le fixed 24) as [in_use|] eqn:E24; [|done]. cbn [mbind result_bind] in Hcap.
  destruct (u32le fixed 28) as [alloc|] eqn:E28; [|done]. cbn [mbind result_bind] in Hcap. cbv zeta in Hcap.
  destruct (_ || _) eqn:C1 in Hcap; [done|]. injection Hcap as <-. bool_to_prop.
  set (x := Z.max 0 (Z.min (py_len fixed) alloc - in_use) / 8) in *.
  assert (8 * x <= Z.min (py_len fixed) alloc - in_use) as Hx.
  { unfold x. rewrite Z.max_r by lia. apply Z.mul_div_le. lia. }
  pose proof (align8_spec (run_offset a + py_len encoded)) as [Hal Hmod].
  set (growth := Z.max 0 (align8 (run_offset a + py_len encoded) - alength a)).
  assert (growth <= 8 * x) as Hgx.
  { pose proof (Z.div_mod (alength a) 8 ltac:(lia)). pose proof (Z.div_mod (align8 (run_offset a + py_len encoded)) 8 ltac:(lia)).
    rewrite Haligned in *. rewrite Hmod in *. assert (0 <= x) by (apply Z.div_pos; lia). lia. }
  assert (exists body, rewrite_body c new_runs = Ok body) as [body Hbody].
  { unfold rewrite_body. fold a fixed. cbv zeta. rewrite Hvcn, Z.eqb_refl. cbn [negb]. rewrite Henc. cbn [mbind result_bind].
    rewrite E24. cbn [mbind result_bind]. rewrite E28. cbn [mbind result_bind]. fold growth.
    rewrite (proj2 (Z.ltb_ge (Z.min _ _) in_use)), (proj2 (Z.ltb_ge in_use _)), (proj2 (Z.ltb_ge (Z.min _ _) (in_use + growth))) by lia.
    cbn [orb]. destruct (negb (growth =? 0)) eqn:Eg; cbn [mbind result_bind]; [|eauto].
    assert (py_len (py_slice fixed (offset a + alength a) in_use) = in_use - (offset a + alength a)) as Hsl by (rewrite py_len_slice; lia).
    pose proof (py_len_zeros growth ltac:(lia)) as Hz.
    set (m2 := py_set_slice _ _ _ (py_zeros growth)).
    assert (py_len m2 = py_len fixed) as L2 by (unfold m2; rewrite !py_len_set_slice; rewrite ?py_len_set_slice; lia).
    rewrite pack_into_ok by (change (Z.of_nat 4) with 4; lia). cbn [mbind result_bind].
    assert (py_len (le_digits 4 (alength a + growth)) = 4) as Hd by apply py_len_le_digits.
    rewrite pack_into_ok; [eauto|lia|change (Z.of_nat 4) with 4; rewrite py_len_set_slice; lia|change (Z.of_nat 4) with 4; lia]. }
  destruct (rewrite_body_facts c new_runs body Hbytes Hoff Hro Halen Hlcn Hbody) as (iu & g & e & Hiu & _ & _ & _ & Hrw).
  fold a fixed in Hrw. assert (usa_placed body ss off count) as Husa'.
  { destruct Husa as (H4 & H6 & Hce & H8 & Hss & Hpl). unfold usa_placed. rewrite (rw_len Hrw).
    rewrite (u16le_same body fixed 4), (u16le_same body fixed 6); try done; try lia; try apply (rw_len Hrw);
      intros i Hi; apply (rw_before Hrw); lia. }
  destruct (fixups_facts body ss off count (rw_wf Hrw) Husa') as (raw & fixed' & Hp & Hrl & _).
  exists raw. unfold _updated_record_runs. rewrite Hbody. cbn [mbind result_bind]. split; [done|]. by rewrite Hrl, (rw_len Hrw).
Qed.

Lemma mapping_capacity_sufficient_witness :
  exists raw, _updated_record_runs sample_candidate sample_new_runs 128 = Ok raw /\
    py_len raw = py_len (record_fixed sample_candidate).
Proof.
  destruct (_encode_runlist (_coalesce_runs sample_new_runs)) as [encoded|] eqn:E; [|vm_compute in E; discriminate E].
  apply (mapping_capacity_sufficient sample_candidate sample_new_runs 128 48 3 104 encoded).
  - exact sample_record_wf.
  - vm_compute. discriminate.
  - split; [reflexivity|]. split; [reflexivity|]. split; [reflexivity|].
    change (py_len (record_fixed sample_candidate)) with 256. lia.
  - vm_compute. discriminate.
  - simpl. lia.
  - reflexivity.
  - reflexivity.
  - apply (bool_decide_unpack _). vm_compute. exact I.
  - reflexivity.
  - exact E.
  - vm_compute in E. injection E as <-. vm_compute. discriminate.
  - reflexivity.
Defined.
