(* ===== verification/Device.v ===== *)
(** * Block devices, write traces and crashes

    The engines of Linux Defragger open the target once and then only issue
    [os.pread], [os.pwrite] and [os.fsync], and replace or remove an external
    journal file.  A program that does so is modelled as a function from the
    current contents of the device to the list of effects it issues and its
    result; the contents a later statement sees are the effects replayed.

    [crash d t d'] is the power-loss semantics: after the effects [t] were
    issued on a device that durably held [d], the device may hold [d'] when
    every write followed by an [fsync] is complete and each byte of the other
    writes may or may not have reached the device, in any order.  The journal
    file is replaced atomically ([core/journal.py], modelled in [Journal]). *)

From S2P Require Import Prelude Bytes.

Section effects.
Context {J : Type}.

Inductive effect :=
  | EWrite (off : Z) (data : bytes)
  | EFsync
  | EJournal (j : option J).

Definition apply_effect (d : bytes) (e : effect) : bytes :=
  match e with
  | EWrite off data => py_set_slice d off (off + py_len data) data
  | _ => d
  end.

Definition replay (d : bytes) (t : list effect) : bytes := fold_left apply_effect t d.

(** The journal file after the effects. *)
Definition journal_step (j : option J) (e : effect) : option J :=
  match e with EJournal j' => j' | _ => j end.

Definition journal_after (j : option J) (t : list effect) : option J := fold_left journal_step t j.

(** ** Programs *)

Definition prog (A : Type) : Type := bytes -> list effect * result A.

Definition pret {A} (a : A) : prog A := fun _ => ([], Ok a).

Definition lift {A} (r : result A) : prog A := fun _ => ([], r).

Definition pbind {A B} (m : prog A) (k : A -> prog B) : prog B := fun d =>
  match m d with
  | (t, Ok a) => let '(t', r) := k a (replay d t) in (t ++ t', r)
  | (t, Raise e) => (t, Raise e)
  end.

(** [os.pread(fd, length, offset)]: short at the end of the device. *)
Definition os_pread (length offset : Z) : prog bytes := fun d =>
  ([], if offset <? 0 then raise OSError "Invalid argument" else Ok (py_slice d offset (offset + length))).

(** A device has a fixed size: what fits is written, the rest is an error. *)
Definition os_pwrite (data : bytes) (offset : Z) : prog unit := fun d =>
  if offset <? 0 then ([], raise OSError "Invalid argument")
  else if offset + py_len data <=? py_len d then ([EWrite offset data], Ok tt)
  else ([EWrite offset (py_slice data 0 (Z.max 0 (py_len d - offset)))], raise OSError "No space left on device").

Definition os_fsync : prog unit := fun _ => ([EFsync], Ok tt).

Definition put_journal (j : option J) : prog unit := fun _ => ([EJournal j], Ok tt).

Fixpoint pforeach {A S} (body : S -> A -> prog S) (s : S) (l : list A) : prog S :=
  match l with
  | [] => pret s
  | x :: l' => pbind (body s x) (fun s' => pforeach body s' l')
  end.

(** ** Crashes *)

(** The write [e] puts the byte [v] at address [a]. *)
Definition puts (e : effect) (a v : Z) : Prop :=
  match e with
  | EWrite off data => off <= a < off + py_len data /\ nthZ data (a - off) = Some v
  | _ => False
  end.

Definition is_fsync (e : effect) : Prop := match e with EFsync => True | _ => False end.

(** [synced ++ pending] is the trace cut behind its last [fsync]. *)
Definition crash (d : bytes) (t : list effect) (d' : bytes) : Prop :=
  py_len d' = py_len d /\
  exists synced pending, t = synced ++ pending /\
    (synced = [] \/ exists s, synced = s ++ [EFsync]) /\ Forall (fun e => ~ is_fsync e) pending /\
    forall a v, 0 <= a -> nthZ d' a = Some v ->
      nthZ (replay d synced) a = Some v \/ exists e, e ∈ pending /\ puts e a v.
End effects.
Arguments effect : clear implicits.
Arguments prog : clear implicits.

Notation "'let*' x ':=' m 'in' k" := (pbind m (fun x => k))
  (at level 200, x pattern, m at level 100, k at level 200, right associativity) : py_scope.
Notation "m ';;*' k" := (pbind m (fun _ => k)) (at level 100, right associativity) : py_scope.
Notation "'pcheck' b '#' c msg ; k" :=
  (if b then lift (raise c msg) else k)
  (at level 60, b at level 99, c at level 0, msg at level 0, k at level 200,
   right associativity, only parsing) : py_scope.

(** ** Lemmas: replaying *)

Section replay_lemmas.
Context {J : Type}.
Implicit Types (t : list (effect J)) (e : effect J).

Lemma replay_app d t1 t2 : replay d (t1 ++ t2) = replay (replay d t1) t2.
Proof. apply fold_left_app. Qed.

Lemma journal_after_app (j : option J) t1 t2 : journal_after j (t1 ++ t2) = journal_after (journal_after j t1) t2.
Proof. apply fold_left_app. Qed.

(** Writes stay inside a device of [n] bytes. *)
Definition inside (n : Z) (e : effect J) : Prop :=
  match e with EWrite off data => 0 <= off /\ off + py_len data <= n | _ => True end.

Lemma apply_effect_len d e : inside (py_len d) e -> py_len (apply_effect d e) = py_len d.
Proof.
  destruct e as [off data| |]; [|done..]. intros [H0 H1]. simpl. pose proof (py_len_nonneg data).
  rewrite py_len_set_slice; lia.
Qed.

Lemma replay_len d t : Forall (inside (py_len d)) t -> py_len (replay d t) = py_len d.
Proof.
  revert d. induction t as [|e t IH]; intros d H; [done|]. apply Forall_cons in H as [He Ht]. simpl.
  pose proof (apply_effect_len d e He) as Hl. rewrite IH; rewrite Hl; done.
Qed.

(** What one effect does to the byte at [a]. *)
Lemma apply_effect_nth d e a :
  inside (py_len d) e -> 0 <= a ->
  nthZ (apply_effect d e) a = match e with
    | EWrite off data => if (off <=? a) && (a <? off + py_len data) then nthZ data (a - off) else nthZ d a
    | _ => nthZ d a end.
Proof.
  intros Hin Ha. destruct e as [off data| |]; [|done..]. destruct Hin. simpl. pose proof (py_len_nonneg data).
  apply nthZ_set_slice; lia.
Qed.

(** Every byte of the replayed device is the old byte or was put by a write. *)
Lemma replay_cases d t a v :
  Forall (inside (py_len d)) t -> 0 <= a -> nthZ (replay d t) a = Some v ->
  nthZ d a = Some v \/ exists e, e ∈ t /\ puts e a v.
Proof.
  revert d. induction t as [|e t IH]; intros d Hin Ha Hv; [by left|]. apply Forall_cons in Hin as [He Ht].
  simpl in Hv. pose proof (apply_effect_len d e He) as Hl.
  destruct (IH (apply_effect d e)) as [H|(e' & He' & Hp)]; [by rewrite Hl|done|done| |right; exists e'; set_solver].
  rewrite apply_effect_nth in H by done. destruct e as [off data| |]; [|by left..].
  destruct ((off <=? a) && (a <? off + py_len data)) eqn:E; [|by left]. bool_to_prop.
  right. exists (EWrite off data). split; [set_solver|]. simpl. auto with lia.
Qed.

(** An address no write touches keeps its byte. *)
Lemma replay_untouched d t a :
  Forall (inside (py_len d)) t -> 0 <= a -> (forall e v, e ∈ t -> ~ puts e a v) -> nthZ (replay d t) a = nthZ d a.
Proof.
  revert d. induction t as [|e t IH]; intros d Hin Ha Hno; [done|]. apply Forall_cons in Hin as [He Ht]. simpl.
  pose proof (apply_effect_len d e He) as Hl.
  rewrite IH by (rewrite ?Hl; set_solver). rewrite apply_effect_nth by done. destruct e as [off data| |]; [|done..].
  destruct ((off <=? a) && (a <? off + py_len data)) eqn:E; [|done]. bool_to_prop. exfalso.
  destruct (nthZ data (a - off)) as [v|] eqn:Ev.
  - apply (Hno (EWrite off data) v); [set_solver|]. simpl. auto with lia.
  - unfold nthZ in Ev. apply lookup_ge_None in Ev. unfold py_len in *. lia.
Qed.

(** ** Pointwise invariants survive crashes *)

Definition holds (P : Z -> Z -> Prop) (d : bytes) : Prop := forall a v, 0 <= a -> nthZ d a = Some v -> P a v.

Definition safe (P : Z -> Z -> Prop) (e : effect J) : Prop := forall a v, puts e a v -> P a v.

Lemma holds_replay P d t : Forall (inside (py_len d)) t -> holds P d -> Forall (safe P) t -> holds P (replay d t).
Proof.
  intros Hin Hd Ht a v Ha Hv. destruct (replay_cases d t a v Hin Ha Hv) as [H|(e & He & Hp)]; [by apply Hd|].
  rewrite Forall_forall in Ht. by apply (Ht e).
Qed.

Lemma holds_crash P d t d' :
  Forall (inside (py_len d)) t -> holds P d -> Forall (safe P) t -> crash d t d' -> holds P d'.
Proof.
  intros Hin Hd Ht (_ & s & p & -> & _ & _ & Hc) a v Ha Hv.
  apply Forall_app in Hin as [Hin _]. apply Forall_app in Ht as [Hs Hp].
  destruct (Hc a v Ha Hv) as [H|(e & He & Hput)].
  - by apply (holds_replay P d s).
  - rewrite Forall_forall in Hp. by apply (Hp e).
Qed.

(** A crash behind an [fsync] is a crash of what follows it. *)
Lemma crash_after_fsync d t1 t2 d' :
  Forall (inside (py_len d)) t1 ->
  crash d (t1 ++ EFsync :: t2) d' -> crash (replay d t1) t2 d'.
Proof.
  intros Hin (Hl & s & p & Heq & Hs & Hp & Hc). split; [by rewrite replay_len|].
  assert (exists s2, s = t1 ++ EFsync :: s2 /\ t2 = s2 ++ p) as (s2 & -> & ->).
  { apply app_eq_app in Heq as (k & [[-> ->]|[-> Hk]]).
    - apply Forall_app in Hp as [_ Hp]. apply Forall_cons in Hp as [Hp _]. by destruct (Hp I).
    - destruct k as [|x k]; simpl in Hk; [subst p; apply Forall_cons in Hp as [Hp _]; by destruct (Hp I)|].
      injection Hk as <- ->. eauto. }
  exists s2, p. split; [done|]. split; [|split; [done|]].
  - destruct Hs as [?|(s & Hs)]; [by destruct t1|]. destruct (decide (s2 = [])) as [->|Hne]; [by left|right].
    destruct (exists_last Hne) as (s' & x & ->). exists s'. f_equal.
    rewrite app_comm_cons, app_assoc in Hs. apply app_inj_tail in Hs as [_ ->]. done.
  - intros a v Ha Hv. rewrite <- (replay_app d t1 s2). specialize (Hc a v Ha Hv). by rewrite replay_app in *.
Qed.

Lemma crash_nil d d' : crash d (@nil (effect J)) d' -> d' = d.
Proof.
  intros (Hl & s & p & Heq & _ & _ & Hc). symmetry in Heq. apply app_eq_nil in Heq as [-> ->].
  apply nthZ_ext; [done|]. intros a Ha. destruct (nthZ d' a) as [v|] eqn:Ev.
  - destruct (Hc a v ltac:(lia) Ev) as [H|(e & He & _)]; [simpl in H; congruence|]. set_solver.
  - unfold nthZ in Ev. apply lookup_ge_None in Ev. unfold py_len in *. lia.
Qed.

(** The power may fail behind the last write as well. *)
Lemma last_fsync t : exists s p, t = s ++ p /\ (s = [] \/ exists s', s = s' ++ [EFsync]) /\ Forall (fun e => ~ is_fsync e) p.
Proof.
  induction t as [|e t (s & p & -> & Hs & Hp)] using rev_ind; [exists [], []; split; [done|]; split; [by left|constructor]|]. destruct e as [off data| |j].
  - exists s, (p ++ [EWrite off data]). split; [by rewrite app_assoc|]. split; [done|]. apply Forall_app_2; [done|]. apply Forall_singleton. by intros [].
  - exists ((s ++ p) ++ [EFsync]), []. split; [by rewrite app_nil_r|]. split; [by right; eexists|constructor].
  - exists s, (p ++ [EJournal j]). split; [by rewrite app_assoc|]. split; [done|]. apply Forall_app_2; [done|]. apply Forall_singleton. by intros [].
Qed.

Lemma crash_replay d t : Forall (inside (py_len d)) t -> crash d t (replay d t).
Proof.
  intros Hi. split; [by apply replay_len|]. destruct (last_fsync t) as (s & p & -> & Hs & Hp). exists s, p. split; [done|]. split; [done|]. split; [done|].
  apply Forall_app in Hi as [His Hip]. intros a v Ha Hv. rewrite replay_app in Hv. apply replay_cases in Hv; [done| |done]. by rewrite replay_len.
Qed.

(** Without writes a crash loses nothing. *)
Definition quiet (e : effect J) : Prop := match e with EWrite _ _ => False | _ => True end.

Lemma quiet_replay d t : Forall quiet t -> replay d t = d.
Proof. induction 1 as [|e t He _ IH]; [done|]. by destruct e. Qed.

Lemma crash_quiet d t d' : Forall quiet t -> crash d t d' -> d' = d.
Proof.
  intros Hq (Hl & s & p & -> & _ & _ & Hc). apply Forall_app in Hq as [Hs Hp]. apply crash_nil. split; [done|].
  exists [], []. split; [done|]. split; [by left|]. split; [done|]. intros a v Ha Hv. left.
  destruct (Hc a v Ha Hv) as [H|(e & He & Hput)]; [by rewrite quiet_replay in H|].
  rewrite Forall_forall in Hp. specialize (Hp e He). by destruct e.
Qed.

(** A prefix of a trace stops before its last effect or is all of it. *)
Lemma prefix_snoc (p s t : list (effect J)) x : p ++ s = t ++ [x] -> (exists s', t = p ++ s') \/ p = t ++ [x].
Proof.
  intros H. destruct s as [|y s _] using rev_ind; [right; by rewrite app_nil_r in H|].
  rewrite app_assoc in H. apply app_inj_tail in H as [<- _]. left. eauto.
Qed.

Lemma prefix_app (p s t1 t2 : list (effect J)) :
  p ++ s = t1 ++ t2 -> (exists s', t1 = p ++ s') \/ (exists q, p = t1 ++ q /\ t2 = q ++ s).
Proof. intros H. apply app_eq_app in H as (k & [[-> ->]|[-> ->]]); [right|left]; eauto. Qed.

Lemma Forall_prefix (P : effect J -> Prop) p s t : t = p ++ s -> Forall P t -> Forall P p.
Proof. intros ->. intros H. by apply Forall_app in H as [H _]. Qed.
End replay_lemmas.

(** ** Lemmas: running programs *)

Section run_lemmas.
Context {J : Type}.

Lemma pbind_run {A B} (m : prog J A) (k : A -> prog J B) d t a t' r :
  m d = (t, Ok a) -> k a (replay d t) = (t', r) -> pbind m k d = (t ++ t', r).
Proof. intros Hm Hk. unfold pbind. by rewrite Hm, Hk. Qed.

Lemma pbind_inv {A B} (m : prog J A) (k : A -> prog J B) d t b :
  pbind m k d = (t, Ok b) ->
  exists t1 a t2, m d = (t1, Ok a) /\ k a (replay d t1) = (t2, Ok b) /\ t = t1 ++ t2.
Proof.
  unfold pbind. destruct (m d) as [t1 [a|e]]; [|done]. destruct (k a (replay d t1)) as [t2 r] eqn:E.
  intros [= <- ->]. eauto 10.
Qed.

Lemma lift_inv {A} (r : result A) d (t : list (effect J)) a : lift r d = (t, Ok a) -> t = [] /\ r = Ok a.
Proof. unfold lift. by intros [= <- ->]. Qed.

Lemma pret_inv {A} (x : A) d (t : list (effect J)) a : pret x d = (t, Ok a) -> t = [] /\ x = a.
Proof. unfold pret. by intros [= <- ->]. Qed.

(** An invariant of a loop that only reads. *)
Lemma pforeach_reads {A S} (P : S -> Prop) (body : S -> A -> prog J S) l d : forall s t s',
  (forall s x t s', x ∈ l -> P s -> body s x d = (t, Ok s') -> t = [] /\ P s') ->
  P s -> pforeach body s l d = (t, Ok s') -> t = [] /\ P s'.
Proof.
  induction l as [|x l IH]; intros s t s' Hb Hs H; cbn [pforeach] in H; [by apply pret_inv in H as [-> <-]|].
  apply pbind_inv in H as (t1 & s1 & t2 & H1 & H2 & ->). apply Hb in H1 as [-> Hs1]; [|set_solver|done].
  apply IH in H2 as [-> ?]; [done| |done]. intros. eapply Hb; eauto. set_solver.
Qed.

Lemma read_run {A B} (m : prog J A) (k : A -> prog J B) d a res : m d = ([], Ok a) -> k a d = res -> pbind m k d = res.
Proof. intros Hm <-. unfold pbind. rewrite Hm. cbn [replay fold_left]. by destruct (k a d). Qed.

Lemma raise_run {A B} (m : prog J A) (k : A -> prog J B) d t e : m d = (t, Raise e) -> pbind m k d = (t, Raise e).
Proof. intros Hm. unfold pbind. by rewrite Hm. Qed.

Lemma pure_run {A B} (r : result A) (k : A -> prog J B) d a res : r = Ok a -> k a d = res -> pbind (lift r) k d = res.
Proof. intros ->. by apply read_run. Qed.

(** Programs that only read. *)
Definition reads {A} (m : prog J A) : Prop := forall d, (m d).1 = [].

Lemma reads_lift {A} (r : result A) : reads (lift r).
Proof. done. Qed.

Lemma reads_pret {A} (a : A) : reads (pret a).
Proof. done. Qed.

Lemma reads_pbind {A B} (m : prog J A) (k : A -> prog J B) : reads m -> (forall a, reads (k a)) -> reads (pbind m k).
Proof.
  intros Hm Hk d. unfold pbind. specialize (Hm d). destruct (m d) as [t [a|e]]; cbn in Hm; subst t; [|done].
  specialize (Hk a d). cbn [replay fold_left]. by destruct (k a d) as [t r].
Qed.

Lemma reads_pforeach {A S} (body : S -> A -> prog J S) l : (forall s x, reads (body s x)) -> forall s, reads (pforeach body s l).
Proof. intros Hb. induction l as [|x l IH]; intros s; [apply reads_pret|]. by apply reads_pbind. Qed.

Lemma os_pwrite_run data off d :
  0 <= off -> off + py_len data <= py_len d -> os_pwrite (J:=J) data off d = ([EWrite off data], Ok tt).
Proof. intros. unfold os_pwrite. by rewrite (proj2 (Z.ltb_ge off 0)), (proj2 (Z.leb_le _ _)) by lia. Qed.
End run_lemmas.

(** Take the first statement of a run apart. *)
Ltac prog_step H :=
  let t1 := fresh "t" in let a := fresh "a" in let t2 := fresh "t" in let H1 := fresh "R" in
  apply pbind_inv in H as (t1 & a & t2 & H1 & H & ->).

(** Step over a pure computation, naming its result. *)
Ltac pure_step H x R :=
  let t1 := fresh "t" in let t2 := fresh "t" in
  apply pbind_inv in H as (t1 & x & t2 & R & H & ->); apply lift_inv in R as [-> R]; simpl replay in H.
