(* ===== verification/Addresses.v ===== *)
(** * Addresses of a device and what traces write there

    The bytes of a device at a list of addresses ([peek], [gather]) and the
    address and value pairs a trace of effects writes ([pairs], [writes]): the
    vocabulary the engines' proofs share. *)

From S2P Require Import Prelude Bytes Device.

Definition segment_addrs (segs : list (Z * Z)) : list Z := concat (map (fun s => py_range s.1 (s.1 + s.2)) segs).

Definition peek (d : bytes) (a : Z) : Z := default 0 (nthZ d a).

(** The bytes of a device at a list of addresses. *)
Definition gather (d : bytes) (addrs : list Z) : bytes := map (peek d) addrs.

Definition on_device (n : Z) (addrs : list Z) : Prop := Forall (fun a => 0 <= a < n) addrs.

Lemma nthZ_peek d a : 0 <= a < py_len d -> nthZ d a = Some (peek d a).
Proof.
  intros Ha. unfold peek, nthZ, py_len in *. destruct (lookup_lt_is_Some_2 d (Z.to_nat a)) as [v Hv]; [lia|].
  by rewrite Hv.
Qed.

Lemma gather_range d a n : 0 <= a -> 0 <= n -> a + n <= py_len d -> py_slice d a (a + n) = gather d (py_range a (a + n)).
Proof.
  intros. unfold gather. apply nthZ_ext.
  { rewrite py_len_slice by lia. unfold py_len at 1. rewrite length_map. fold (py_len (py_range a (a + n))). rewrite py_len_range. lia. }
  rewrite py_len_slice by lia. intros i Hi. rewrite nthZ_slice by lia. rewrite nthZ_peek by lia.
  unfold nthZ at 1. rewrite list_lookup_fmap. unfold py_range. rewrite lookup_seqZ_lt by lia. simpl. do 2 f_equal. lia.
Qed.

Lemma py_len_gather d addrs : py_len (gather d addrs) = py_len addrs.
Proof. unfold py_len, gather. by rewrite length_map. Qed.

Lemma gather_app d a b : gather d (a ++ b) = gather d a ++ gather d b.
Proof. apply map_app. Qed.

Lemma wf_gather d addrs : wf_bytes d -> wf_bytes (gather d addrs).
Proof.
  intros Hw. apply Forall_forall. intros v Hv. apply list_elem_of_fmap in Hv as (a & -> & _). unfold peek, nthZ.
  destruct (d !! Z.to_nat a) as [x|] eqn:E; simpl; [by eapply Forall_lookup_1|]. red. lia.
Qed.

Lemma gather_ext d d' addrs : (forall a, a ∈ addrs -> peek d a = peek d' a) -> gather d addrs = gather d' addrs.
Proof. intros H. unfold gather. apply map_ext_in. intros a Ha. apply H. by apply list_elem_of_In. Qed.

Lemma on_device_segment n p k segs :
  on_device n (segment_addrs ((p, k) :: segs)) -> 0 < k -> 0 <= p /\ p + k <= n.
Proof.
  intros Hon Hk. unfold on_device, segment_addrs in Hon. simpl in Hon. apply Forall_app in Hon as [Hon _].
  rewrite Forall_forall in Hon. pose proof (Hon p) as H1. pose proof (Hon (p + k - 1)) as H2.
  rewrite elem_of_py_range in H1, H2. lia.
Qed.

Lemma py_len_segments segs :
  Forall (fun s => 0 <= s.2 /\ 0 <= s.1) segs -> py_len (segment_addrs segs) = zsum (map snd segs).
Proof.
  induction 1 as [|[p k] segs [Hk _] _ IH]; [done|]. unfold segment_addrs in *. cbn [map concat fst snd].
  rewrite py_len_app, IH, py_len_range. simpl in *. lia.
Qed.

(** ** What a trace writes where *)

Section traces.
Context {J : Type}.
Implicit Types (t : list (effect J)) (e : effect J).

Definition effect_pairs (e : effect J) : list (Z * Z) :=
  match e with EWrite off data => zip (py_range off (off + py_len data)) data | _ => [] end.

Definition pairs (t : list (effect J)) : list (Z * Z) := concat (map effect_pairs t).

Lemma pairs_app t1 t2 : pairs (t1 ++ t2) = pairs t1 ++ pairs t2.
Proof. unfold pairs. by rewrite map_app, concat_app. Qed.

Lemma elem_of_zip_range off (data : bytes) a v :
  (a, v) ∈ zip (py_range off (off + py_len data)) data <-> off <= a < off + py_len data /\ nthZ data (a - off) = Some v.
Proof.
  rewrite list_elem_of_lookup. unfold nthZ, py_len. split.
  - intros (i & Hi). apply lookup_zip_with_Some in Hi as (x & y & [= <- <-] & Hx & Hy).
    unfold py_range in Hx. apply lookup_seqZ in Hx as [-> Hlt]. split; [lia|].
    by replace (Z.to_nat (off + Z.of_nat i - off)) with i by lia.
  - intros (Ha & Hv). exists (Z.to_nat (a - off)). apply lookup_zip_with_Some. exists a, v. split; [done|]. split; [|done].
    unfold py_range. rewrite lookup_seqZ_lt by lia. f_equal. lia.
Qed.

Lemma puts_pairs t a v : (exists e, e ∈ t /\ puts e a v) <-> (a, v) ∈ pairs t.
Proof.
  induction t as [|e t IH].
  - split; [intros (e & He & _); set_solver|intros H; by apply elem_of_nil in H].
  - unfold pairs in *. cbn [map concat]. rewrite elem_of_app, <- IH.
    assert ((a, v) ∈ effect_pairs e <-> puts e a v) as ->.
    { destruct e as [off data| |]; [apply elem_of_zip_range|..]; (split; [intros H; by apply elem_of_nil in H|done]). }
    setoid_rewrite elem_of_cons. naive_solver.
Qed.

Lemma peek_untouched d t a :
  Forall (inside (py_len d)) t -> 0 <= a -> (forall v, (a, v) ∉ pairs t) -> peek (replay d t) a = peek d a.
Proof.
  intros Hin Ha Hno. unfold peek. rewrite replay_untouched; [done|done|done|].
  intros e v He Hp. apply (Hno v). apply puts_pairs. eauto.
Qed.

(** Reading back what a trace without repeated addresses wrote. *)
Lemma peek_written d t a v :
  Forall (inside (py_len d)) t -> NoDup (map fst (pairs t)) -> (a, v) ∈ pairs t -> 0 <= a -> peek (replay d t) a = v.
Proof.
  revert d. induction t as [|e t IH]; intros d Hin Hnd Hp Ha; [by apply elem_of_nil in Hp|].
  apply Forall_cons in Hin as [He Ht]. pose proof (apply_effect_len d e He) as Hl. simpl.
  change (e :: t) with ([e] ++ t) in Hnd, Hp. rewrite pairs_app in Hnd, Hp. rewrite map_app in Hnd.
  apply NoDup_app in Hnd as (_ & Hdis & Hnd). apply elem_of_app in Hp as [Hp|Hp]; [|apply IH; by rewrite ?Hl].
  unfold pairs in Hp. simpl in Hp. rewrite app_nil_r in Hp.
  rewrite peek_untouched; [|by rewrite Hl|done|].
  - destruct e as [off data| |]; [|by apply elem_of_nil in Hp..]. apply elem_of_zip_range in Hp as [Hr Hv].
    unfold peek. rewrite apply_effect_nth by done. by rewrite (proj2 (Z.leb_le _ _)), (proj2 (Z.ltb_lt _ _)), Hv by lia.
  - intros u Hu. apply (Hdis a); [|by apply list_elem_of_fmap; exists (a, u)].
    apply list_elem_of_fmap. exists (a, v). split; [done|]. unfold pairs. simpl. by rewrite app_nil_r.
Qed.

(** [writes t addrs data]: the trace [t] is nothing but writes of [data] to
    the addresses, in order. *)
Definition writes (n : Z) (t : list (effect J)) (addrs : list Z) (data : bytes) : Prop :=
  pairs t = zip addrs data /\ Forall (inside n) t /\ Forall (fun e => exists off ch, e = EWrite off ch) t.

Lemma writes_app n t1 t2 a1 a2 d1 d2 :
  writes n t1 a1 d1 -> writes n t2 a2 d2 -> length a1 = length d1 -> writes n (t1 ++ t2) (a1 ++ a2) (d1 ++ d2).
Proof.
  intros (P1 & I1 & W1) (P2 & I2 & W2) Hl. split; [|split; by apply Forall_app_2].
  rewrite pairs_app, P1, P2. symmetry. by apply zip_app_same.
Qed.

Lemma writes_gather d t addrs data :
  writes (py_len d) t addrs data -> NoDup addrs -> length addrs = length data -> on_device (py_len d) addrs ->
  gather (replay d t) addrs = data.
Proof.
  intros (Hp & Hin & _) Hnd Hl Hon. unfold gather. apply list_eq_same_length with (length data); [done|by rewrite length_map|].
  intros i x y Hi Hx Hy. rewrite list_lookup_fmap in Hx. destruct (addrs !! i) as [a|] eqn:Ea; [|done].
  injection Hx as <-. assert (0 <= a) by (eapply Forall_lookup_1 in Hon; [|exact Ea]; simpl in Hon; lia).
  apply peek_written; [done| | |done].
  - rewrite Hp. change (map fst (zip addrs data)) with (zip addrs data).*1. by rewrite fst_zip by lia.
  - rewrite Hp. apply list_elem_of_lookup. exists i. apply lookup_zip_with_Some. eauto.
Qed.

Lemma writes_elsewhere d t addrs data a :
  writes (py_len d) t addrs data -> 0 <= a -> a ∉ addrs -> peek (replay d t) a = peek d a.
Proof.
  intros (Hp & Hin & _) Ha Hno. apply peek_untouched; [done|done|]. intros v Hv. rewrite Hp in Hv. apply Hno.
  apply list_elem_of_lookup in Hv as [i Hi]. apply lookup_zip_with_Some in Hi as (x & y & [= <- <-] & Hx & _).
  apply list_elem_of_lookup. eauto.
Qed.

Lemma safe_pairs (P : Z -> Z -> Prop) t : (forall a v, (a, v) ∈ pairs t -> P a v) -> Forall (safe P) t.
Proof. intros H. apply Forall_forall. intros e He a v Hp. apply H, puts_pairs. eauto. Qed.

Lemma writes_safe (P : Z -> Z -> Prop) n t addrs data :
  writes n t addrs data -> (forall a v, a ∈ addrs -> P a v) -> Forall (safe P) t.
Proof.
  intros (Hp & _ & _) Hfree. apply safe_pairs. intros a v Hv. apply Hfree. rewrite Hp in Hv.
  apply list_elem_of_lookup in Hv as [i Hi]. apply lookup_zip_with_Some in Hi as (x & y & [= <- <-] & Hx & _).
  apply list_elem_of_lookup. eauto.
Qed.

Lemma writes_len d t addrs data : writes (py_len d) t addrs data -> py_len (replay d t) = py_len d.
Proof. intros (_ & Hin & _). by apply replay_len. Qed.

End traces.
