(* ===== verification/NtfsVolume.v ===== *)
(** * The NTFS volume on a device

    Models the volume layer of [src/gui/ntfs_engine.py]: the boot sector,
    reading and writing logical streams through their run lists, MFT records,
    the volume flags, and [_read_layout].  Streams are related to the flat
    list of device addresses they occupy ([stream_addrs]); reads gather the
    bytes at those addresses and writes put bytes there. *)

From S2P Require Import Prelude Bytes Bitmap NtfsRuns NtfsBitmap NtfsRecord Device Addresses.

(** ** Data *)

Record Volume := mkVolume {
  path : string;
  device_size : Z;
  bytes_per_sector : Z;
  sectors_per_cluster : Z;
  cluster_size : Z;
  total_clusters : Z;
  mft_lcn : Z;
  mftmirr_lcn : Z;
  mft_record_size : Z;
  serial : bytes
}.

Record NtfsLayout := mkLayout {
  volume : Volume;
  mft_runs : list Run;
  mft_data_size : Z;
  bitmap_runs : list Run;
  bitmap_data_size : Z;
  bitmap : bytes
}.

Definition with_bitmap (layout : NtfsLayout) (b : bytes) : NtfsLayout :=
  mkLayout (volume layout) (mft_runs layout) (mft_data_size layout) (bitmap_runs layout) (bitmap_data_size layout) b.

(** ** The boot sector *)

(** [bps & (bps - 1)] *)
Definition not_power_of_two (n : Z) : bool := negb (Z.land n (n - 1) =? 0).

(** The checks and fields of [_open_volume] once the 512 boot bytes and the
    device size are known; [serial] keeps the eight bytes the source prints
    in hexadecimal. *)
Definition parse_boot (realpath : string) (dev_size : Z) (boot : bytes) : result Volume :=
  check negb (py_len boot =? 512) || negb (bool_decide (py_slice boot 3 11 = [78; 84; 70; 83; 32; 32; 32; 32]))
        || negb (bool_decide (py_slice boot 510 512 = [85; 170]))
    # NtfsCompactError "target does not contain a valid NTFS boot sector";
  bps ← u16le boot 11;
  spc ← py_get boot 13;
  check (bps <? 256) || (4096 <? bps) || not_power_of_two bps # NtfsCompactError "invalid NTFS bytes-per-sector value";
  check (spc =? 0) || not_power_of_two spc # NtfsCompactError "invalid NTFS sectors-per-cluster value";
  let cs := bps * spc in
  check 65536 <? cs # NtfsCompactError "unsupported NTFS cluster size";
  total_sectors ← u64le boot 40;
  let clusters := total_sectors / spc in
  check dev_size <? total_sectors * bps # NtfsCompactError "NTFS volume boundary exceeds the target device";
  mft ← u64le boot 48;
  mirr ← u64le boot 56;
  let rec_raw := le_sint (py_slice boot 64 65) in
  let record_size := if rec_raw <? 0 then Z.shiftl 1 (- rec_raw) else rec_raw * cs in
  check (record_size <? 512) || (1048576 <? record_size) || negb (record_size mod bps =? 0)
    # NtfsCompactError "invalid NTFS MFT record size";
  Ok (mkVolume realpath dev_size bps spc cs clusters mft mirr record_size (py_slice boot 72 80)).

(** ** Volume flags *)

Definition VOLUME_IS_DIRTY : Z := 1.
Definition VOLUME_UNSAFE_WRITE_MASK : Z :=
  fold_left Z.lor [1; 2; 4; 16; 32; 16384; 32768] 0.
Definition VOLUME_PRESERVED_SAFE_MASK : Z := Z.lor 8 128.
Definition VOLUME_ACCEPTED_MASK : Z := Z.lor VOLUME_UNSAFE_WRITE_MASK VOLUME_PRESERVED_SAFE_MASK.

Definition _validate_volume_flags (fl : Z) (allow_dirty : bool) : result unit :=
  let unsupported := Z.land fl (Z.lnot VOLUME_ACCEPTED_MASK) in
  check negb (unsupported =? 0) # NtfsCompactError "unsupported NTFS volume flags are set";
  check flag_set fl VOLUME_IS_DIRTY && negb allow_dirty # NtfsCompactError "NTFS dirty flag is set";
  let unsafe := Z.land fl VOLUME_UNSAFE_WRITE_MASK in
  let unsafe := if allow_dirty then Z.land unsafe (Z.lnot VOLUME_IS_DIRTY) else unsafe in
  check negb (unsafe =? 0) # NtfsCompactError "NTFS volume has an active maintenance state";
  Ok tt.

Section programs.
Context {J : Type}.
Notation prog := (Device.prog J).

(** ** Streams *)

Definition _pread_exact (len off : Z) : prog bytes :=
  let* data := os_pread len off in
  pcheck negb (py_len data =? len) # NtfsCompactError "short read";
  pret data.

Definition _pwrite_exact (data : bytes) (off : Z) : prog unit :=
  if py_len data =? 0 then pret tt else os_pwrite data off.

(** What follows the [for] loop over a generator that raised. *)
Definition finish {A B} (g : generated A) (k : prog B) : prog B :=
  match raised g with Some e => lift (Raise e) | None => k end.

Definition _read_stream (vol : Volume) (rs : list Run) (logical_offset len : Z) : prog bytes :=
  let g := _stream_segments rs (cluster_size vol) logical_offset len in
  let* result := pforeach (fun acc seg => let* chunk := _pread_exact seg.2 seg.1 in pret (acc ++ chunk)) [] (yielded g) in
  finish g (pret result).

Definition _write_stream (vol : Volume) (rs : list Run) (logical_offset : Z) (data : bytes) : prog unit :=
  let g := _stream_segments rs (cluster_size vol) logical_offset (py_len data) in
  let* consumed := pforeach (fun consumed seg =>
      _pwrite_exact (py_slice data consumed (consumed + seg.2)) seg.1 ;;* pret (consumed + seg.2)) 0 (yielded g) in
  finish g (pcheck negb (consumed =? py_len data) # NtfsCompactError "short NTFS metadata-stream write"; pret tt).

(** ** MFT records *)

Definition is_file_record (record : bytes) : bool := bool_decide (py_slice record 0 4 = [70; 73; 76; 69]).

Definition _record_zero (vol : Volume) : prog (bytes * bytes * Attribute) :=
  let* raw := _pread_exact (mft_record_size vol) (mft_lcn vol * cluster_size vol) in
  pcheck negb (is_file_record raw) # NtfsCompactError "NTFS $MFT record zero was not found";
  let* fixed := lift (_apply_fixups raw (bytes_per_sector vol)) in
  let* attrs := lift (list_of (_attributes fixed)) in
  match List.filter is_data attrs with
  | [attr] => if negb (lowest_vcn attr =? 0)
              then lift (raise NtfsCompactError "unsupported split $MFT data attribute")
              else pret (raw, fixed, attr)
  | _ => lift (raise NtfsCompactError "unsupported split $MFT data attribute")
  end.

(** [next(_stream_segments(...))] *)
Definition first_segment (g : generated (Z * Z)) : prog Z :=
  match yielded g with
  | s :: _ => pret s.1
  | [] => match raised g with Some e => lift (Raise e) | None => lift (raise RuntimeError "StopIteration") end
  end.

Definition _read_mft_record (vol : Volume) (rs : list Run) (number : Z) : prog (Z * bytes * bytes) :=
  let logical := number * mft_record_size vol in
  let* raw := _read_stream vol rs logical (mft_record_size vol) in
  let* fixed := lift (_apply_fixups raw (bytes_per_sector vol)) in
  let* first := first_segment (_stream_segments rs (cluster_size vol) logical 1) in
  pret (first, raw, fixed).

Definition _write_mft_record (vol : Volume) (rs : list Run) (number : Z) (raw : bytes) : prog unit :=
  _write_stream vol rs (number * mft_record_size vol) raw.

Definition is_volume_information (attr : Attribute) : bool :=
  (atype attr =? ATTR_VOLUME_INFORMATION) && negb (nonresident attr).

(** ** The layout *)

Definition volume_flags_of (fixed : bytes) : result Z :=
  found ← first_of is_volume_information (_attributes fixed);
  match found with
  | None => raise NtfsCompactError "NTFS volume-information attribute was not found"
  | Some attr =>
      value_len ← u32le fixed (offset attr + 16);
      value_off ← u16le fixed (offset attr + 20);
      check (value_len <? 12) || (alength attr <? value_off + value_len)
        # NtfsCompactError "invalid NTFS volume-information attribute";
      u16le fixed (offset attr + value_off + 10)
  end.

Definition _read_layout (vol : Volume) (allow_dirty check_volume : bool) : prog NtfsLayout :=
  let* (_, _, mft_attr) := _record_zero vol in
  let rs := runs mft_attr in
  (if check_volume then
     let* (_, _, fixed_volume) := _read_mft_record vol rs 3 in
     let* fl := lift (volume_flags_of fixed_volume) in
     lift (_validate_volume_flags fl allow_dirty)
   else pret tt) ;;*
  let* (_, _, fixed6) := _read_mft_record vol rs 6 in
  let* attrs := lift (list_of (_attributes fixed6)) in
  match List.filter is_data attrs with
  | [battr] =>
      pcheck negb (lowest_vcn battr =? 0) # NtfsCompactError "unsupported split or resident NTFS $Bitmap stream";
      let* data := _read_stream vol (runs battr) 0 (data_size battr) in
      pcheck py_len data * 8 <? total_clusters vol # NtfsCompactError "NTFS $Bitmap is shorter than the volume";
      pret (mkLayout vol rs (data_size mft_attr) (runs battr) (data_size battr) data)
  | _ => lift (raise NtfsCompactError "unsupported split or resident NTFS $Bitmap stream")
  end.

(** ** The clean and dirty images of the volume record *)

Definition mirror_offset (vol : Volume) : Z := mftmirr_lcn vol * cluster_size vol + 3 * mft_record_size vol.

Definition _volume_record_state (layout : NtfsLayout) : prog (bytes * bytes * bytes * bytes) :=
  let vol := volume layout in
  let* (_, raw, fixed) := _read_mft_record vol (mft_runs layout) 3 in
  let* found := lift (first_of is_volume_information (_attributes fixed)) in
  match found with
  | None => lift (raise NtfsCompactError "NTFS volume-information attribute was not found")
  | Some info =>
      let* value_len := lift (u32le fixed (offset info + 16)) in
      let* value_off := lift (u16le fixed (offset info + 20)) in
      pcheck (value_len <? 12) || (alength info <? value_off + value_len)
        # NtfsCompactError "invalid NTFS volume-information attribute";
      let flags_offset := offset info + value_off + 10 in
      let* fl := lift (u16le fixed flags_offset) in
      lift (_validate_volume_flags fl false) ;;*
      let* dirty_fixed := lift (pack_into 2 fixed flags_offset (Z.lor fl VOLUME_IS_DIRTY)) in
      let* dirty_raw := lift (_prepare_fixups dirty_fixed (bytes_per_sector vol)) in
      let* mirror_raw := _pread_exact (mft_record_size vol) (mirror_offset vol) in
      let* mirror_fixed := lift (_apply_fixups mirror_raw (bytes_per_sector vol)) in
      let* mfound := lift (first_of is_volume_information (_attributes mirror_fixed)) in
      match mfound with
      | None => lift (raise NtfsCompactError "NTFS $MFTMirr does not contain a valid $Volume record")
      | Some mirror_info =>
          let* mirror_value_off := lift (u16le mirror_fixed (offset mirror_info + 20)) in
          let mirror_flags_offset := offset mirror_info + mirror_value_off + 10 in
          let* mfl := lift (u16le mirror_fixed mirror_flags_offset) in
          pcheck negb (mfl =? fl) # NtfsCompactError "NTFS $Volume and $MFTMirr flags disagree";
          let* mirror_dirty_fixed := lift (pack_into 2 mirror_fixed mirror_flags_offset (Z.lor fl VOLUME_IS_DIRTY)) in
          let* mirror_dirty_raw := lift (_prepare_fixups mirror_dirty_fixed (bytes_per_sector vol)) in
          pret (raw, dirty_raw, mirror_raw, mirror_dirty_raw)
      end
  end.

Definition _write_volume_records (layout : NtfsLayout) (mft_raw mirror_raw : bytes) : prog unit :=
  _write_mft_record (volume layout) (mft_runs layout) 3 mft_raw ;;*
  _pwrite_exact mirror_raw (mirror_offset (volume layout)).

(** ** The bitmap on disk *)

Definition _write_bitmap_bytes (layout : NtfsLayout) (byte_offset : Z) (data : bytes) : prog unit :=
  _write_stream (volume layout) (bitmap_runs layout) byte_offset data.

Definition _write_bitmap_patches (layout : NtfsLayout) (patches : list (Z * bytes)) : prog unit :=
  pforeach (fun _ p => _write_bitmap_bytes layout p.1 p.2) tt patches.
End programs.

(** ** Streams as address lists *)

(** The device addresses of a run list, in stream order. *)
Definition run_addrs (cs : Z) (r : Run) : list Z :=
  match lcn r with Some l => py_range (l * cs) (l * cs + length_of r * cs) | None => [] end.

Definition stream_addrs (cs : Z) (rs : list Run) : list Z := concat (map (run_addrs cs) rs).

Lemma run_addrs_len cs r : 0 < cs -> physical_run r -> py_len (run_addrs cs r) = length_of r * cs.
Proof.
  intros Hcs [Hp Hl]. unfold run_addrs, is_physical in *. destruct (lcn r); [|done]. rewrite py_len_range. nia.
Qed.

Lemma segments_loop_addrs cs rs : forall cursor remaining wanted,
  0 < cs -> Forall physical_run rs -> 0 <= remaining -> cursor <= wanted ->
  (remaining = 0 \/ wanted - cursor + remaining <= py_len (stream_addrs cs rs)) ->
  let g := segments_loop rs cs cursor remaining wanted in
  raised g = None /\ Forall (fun s => 0 <= s.2) (yielded g) /\ zsum (map snd (yielded g)) = remaining /\
  (wanted - cursor + remaining <= py_len (stream_addrs cs rs) ->
   segment_addrs (yielded g) = py_slice (stream_addrs cs rs) (wanted - cursor) (wanted - cursor + remaining)).
Proof.
  induction rs as [|r rs IH]; intros cursor remaining wanted Hcs Hp Hr Hcw Hfit; cbn [segments_loop]; cbv zeta.
  { change (py_len (stream_addrs cs [])) with 0 in Hfit. assert (remaining = 0) as -> by lia. simpl.
    split; [done|]. split; [constructor|]. split; [done|]. intros _. rewrite Z.add_0_r. by rewrite py_slice_nil by lia. }
  apply Forall_cons in Hp as [Hpr Hp]. pose proof (run_addrs_len cs r Hcs Hpr) as Hrl.
  unfold stream_addrs in *. cbn [map concat] in *. fold (stream_addrs cs rs) in *. rewrite py_len_app in *.
  pose proof (py_len_nonneg (stream_addrs cs rs)). set (rb := length_of r * cs) in *.
  destruct (Z.leb_spec (cursor + rb) wanted) as [Hskip|Hin].
  { destruct (IH (cursor + rb) remaining wanted) as (Hn & Hs & Hz & Ha); [done..|lia|]. split; [done|]. split; [done|].
    split; [done|]. intros Hle. rewrite Ha by lia. rewrite py_slice_app_r by lia. f_equal; lia. }
  destruct Hpr as [Hphys Hlen]. unfold is_physical in Hphys. destruct (lcn r) as [l|] eqn:El; [|done].
  rewrite Z.max_r by lia. set (w := wanted - cursor) in *. set (take := Z.min remaining (rb - w)).
  assert (Hseg : py_range (l * cs + w) (l * cs + w + take) = py_slice (run_addrs cs r) w (w + take)).
  { unfold run_addrs. rewrite El. fold rb. rewrite py_slice_range by lia. f_equal. lia. }
  destruct (Z.eqb_spec (remaining - take) 0) as [Hdone|Hmore].
  { cbn [gen_cons yielded raised map]. split; [done|]. split; [apply Forall_singleton; simpl; lia|]. split; [simpl; lia|].
    intros _. unfold segment_addrs. simpl. rewrite app_nil_r, Hseg. assert (take = remaining) as Ht by lia. rewrite Ht.
    by rewrite py_slice_app_l by lia. }
  assert (take = rb - w) as Htake by lia.
  destruct (IH (cursor + rb) (remaining - take) (wanted + take)) as (Hn & Hs & Hz & Ha); [done|done|lia|lia|right; lia|].
  cbn [gen_cons yielded raised map]. split; [done|]. split; [constructor; [simpl; lia|done]|]. split; [simpl; lia|].
  intros Hle. unfold segment_addrs in *. cbn [map concat fst snd]. rewrite Ha by lia. rewrite Hseg.
  replace (wanted + take - (cursor + rb)) with 0 by lia. rewrite Z.add_0_l.
  rewrite <- (py_slice_app _ w rb (w + remaining)) by lia. f_equal.
  - rewrite py_slice_app_l by lia. f_equal. lia.
  - rewrite py_slice_app_r by lia. f_equal; lia.
Qed.

(** The addresses of bytes [off, off+len) of a stream. *)
Definition span (cs : Z) (rs : list Run) (off len : Z) : list Z := py_slice (stream_addrs cs rs) off (off + len).

Lemma stream_segments_addrs cs rs off len :
  0 < cs -> Forall physical_run rs -> 0 <= off -> 0 <= len -> off + len <= py_len (stream_addrs cs rs) ->
  let g := _stream_segments rs cs off len in
  raised g = None /\ Forall (fun s => 0 <= s.2) (yielded g) /\ zsum (map snd (yielded g)) = len /\
  segment_addrs (yielded g) = span cs rs off len.
Proof.
  intros Hcs Hp Ho Hl Hfit. unfold _stream_segments.
  rewrite (proj2 (Z.ltb_ge off 0)), (proj2 (Z.ltb_ge len 0)) by lia. cbn [orb].
  destruct (segments_loop_addrs cs rs 0 len off) as (H1 & H2 & H3 & H4); [done|done|done|done|right; lia|].
  split; [done|]. split; [done|]. split; [done|]. unfold span. rewrite H4 by lia. f_equal; lia.
Qed.

Section traces.
Context {J : Type}.
Implicit Types (t : list (effect J)).

(** ** Running stream reads and writes *)

Lemma pread_exact_run d len off :
  0 <= off -> 0 <= len -> off + len <= py_len d -> _pread_exact (J:=J) len off d = ([], Ok (gather d (py_range off (off + len)))).
Proof.
  intros. unfold _pread_exact, pbind, os_pread. rewrite (proj2 (Z.ltb_ge off 0)) by lia. simpl replay.
  rewrite py_len_slice by lia. replace (off + len - off) with len by lia. rewrite Z.eqb_refl. simpl.
  by rewrite gather_range by lia.
Qed.

Lemma pwrite_exact_run d data off :
  0 <= off -> off + py_len data <= py_len d ->
  exists t, _pwrite_exact (J:=J) data off d = (t, Ok tt) /\ writes (py_len d) t (py_range off (off + py_len data)) data.
Proof.
  intros H0 H1. unfold _pwrite_exact. destruct (Z.eqb_spec (py_len data) 0) as [Hz|].
  - exists []. split; [done|]. split; [|split; constructor]. rewrite Hz, Z.add_0_r, py_range_nil by lia. done.
  - rewrite os_pwrite_run by lia. exists [EWrite off data]. split; [done|]. split; [|split].
    + unfold pairs. simpl. by rewrite app_nil_r.
    + apply Forall_singleton. simpl. lia.
    + apply Forall_singleton. eauto.
Qed.

(** A zero-length segment reads nothing, wherever it points (at or above 0). *)
Lemma read_segments_run d segs : forall acc,
  Forall (fun s => 0 <= s.2 /\ 0 <= s.1) segs -> on_device (py_len d) (segment_addrs segs) ->
  pforeach (fun acc seg => let* chunk := _pread_exact seg.2 seg.1 in pret (acc ++ chunk)) acc segs d
  = (@nil (effect J), Ok (acc ++ gather d (segment_addrs segs))).
Proof.
  induction segs as [|[p k] segs IH]; intros acc Hs Hon; [by rewrite app_nil_r|].
  apply Forall_cons in Hs as [[Hk Hp] Hs]. simpl in Hk, Hp. cbn [pforeach].
  assert (_pread_exact (J:=J) k p d = ([], Ok (gather d (py_range p (p + k))))) as Hread.
  { destruct (decide (0 < k)); [apply on_device_segment in Hon as [? ?]; [|done]; by apply pread_exact_run|].
    assert (k = 0) as -> by lia. unfold _pread_exact, pbind, os_pread. rewrite (proj2 (Z.ltb_ge p 0)) by lia. simpl replay.
    rewrite Z.add_0_r, py_slice_nil by lia. rewrite py_range_nil by lia. done. }
  unfold pbind. simpl fst. simpl snd. rewrite Hread. simpl replay. cbn [pret app].
  unfold on_device, segment_addrs in *. cbn [map concat fst snd] in *. apply Forall_app in Hon as [_ Hon].
  rewrite IH by done. by rewrite gather_app, app_assoc.
Qed.

Lemma write_segments_run data segs : forall d consumed,
  Forall (fun s => 0 <= s.2 /\ 0 <= s.1) segs -> on_device (py_len d) (segment_addrs segs) ->
  0 <= consumed -> consumed + zsum (map snd segs) <= py_len data ->
  exists t : list (effect J), pforeach (fun consumed seg =>
        _pwrite_exact (py_slice data consumed (consumed + seg.2)) seg.1 ;;* pret (consumed + seg.2)) consumed segs d
      = (t, Ok (consumed + zsum (map snd segs))) /\
    writes (py_len d) t (segment_addrs segs) (py_slice data consumed (consumed + zsum (map snd segs))).
Proof.
  induction segs as [|[p k] segs IH]; intros d consumed Hs Hon Hc Hfit.
  { exists []. cbn [pforeach map]. change (zsum []) with 0. rewrite Z.add_0_r. split; [done|].
    split; [|split; constructor]. by rewrite py_slice_nil by lia. }
  apply Forall_cons in Hs as [[Hk Hp] Hs]. cbn [fst snd] in Hk, Hp. cbn [pforeach map fst snd] in *.
  change (zsum (k :: map snd segs)) with (k + zsum (map snd segs)) in *.
  assert (0 <= zsum (map snd segs)) by (rewrite <- py_len_segments by done; apply py_len_nonneg).
  assert (py_len (py_slice data consumed (consumed + k)) = k) as Hsl by (rewrite py_len_slice; lia).
  assert (exists t1, _pwrite_exact (J:=J) (py_slice data consumed (consumed + k)) p d = (t1, Ok tt) /\
            writes (py_len d) t1 (py_range p (p + k)) (py_slice data consumed (consumed + k))) as (t1 & Hrun & Hw1).
  { destruct (decide (0 < k)).
    - apply on_device_segment in Hon as [? ?]; [|done].
      destruct (pwrite_exact_run d (py_slice data consumed (consumed + k)) p) as (t1 & ? & Hw); [lia|lia|]. exists t1.
      by rewrite Hsl in Hw.
    - assert (k = 0) as -> by lia. exists []. unfold _pwrite_exact. rewrite Hsl. split; [done|].
      split; [|split; constructor]. by rewrite Z.add_0_r, py_range_nil by lia. }
  pose proof (writes_len _ _ _ _ Hw1) as Hl.
  unfold on_device, segment_addrs in Hon |- *. cbn [map concat fst snd] in Hon |- *. apply Forall_app in Hon as [_ Hon].
  destruct (IH (replay d t1) (consumed + k) Hs) as (t2 & Hrun2 & Hw2); [by rewrite Hl|lia|lia|]. rewrite Hl in Hw2.
  exists (t1 ++ t2). split.
  - unfold pbind at 1 2. rewrite Hrun. cbn [pret]. rewrite app_nil_r. rewrite Hrun2. do 2 f_equal. lia.
  - rewrite <- (py_slice_app data consumed (consumed + k)) by lia.
    replace (consumed + (k + zsum (map snd segs))) with (consumed + k + zsum (map snd segs)) by lia.
    apply writes_app; [done|done|]. apply Nat2Z.inj. fold (py_len (py_range p (p + k))). fold (py_len (py_slice data consumed (consumed + k))).
    rewrite py_len_range. lia.
Qed.

(** ** Stream reads gather, stream writes put *)

Definition stream_ok (vol : Volume) (rs : list Run) : Prop :=
  0 < cluster_size vol /\ Forall (fun r => physical_run r /\ lcn_ok r) rs.

Lemma segments_nonneg cs rs : forall cursor remaining wanted,
  0 < cs -> Forall (fun r => physical_run r /\ lcn_ok r) rs ->
  Forall (fun s => 0 <= s.1) (yielded (segments_loop rs cs cursor remaining wanted)).
Proof.
  induction rs as [|r rs IH]; intros cursor remaining wanted Hcs Hrs; cbn [segments_loop]; [constructor|].
  apply Forall_cons in Hrs as [[[Hp _] Hl] Hrs]. destruct (_ <=? wanted); [by apply IH|].
  unfold is_physical, lcn_ok in *. destruct (lcn r) as [l|]; [|done]. cbn [gen_cons yielded].
  constructor; [simpl; nia|]. destruct (_ =? 0); [constructor|by apply IH].
Qed.

Lemma stream_segments_facts vol rs off len :
  stream_ok vol rs -> 0 <= off -> 0 <= len -> off + len <= py_len (stream_addrs (cluster_size vol) rs) ->
  let g := _stream_segments rs (cluster_size vol) off len in
  raised g = None /\ Forall (fun s => 0 <= s.2 /\ 0 <= s.1) (yielded g) /\ zsum (map snd (yielded g)) = len /\
  segment_addrs (yielded g) = span (cluster_size vol) rs off len.
Proof.
  intros [Hcs Hrs] Ho Hl Hfit.
  assert (Forall physical_run rs) as Hp by (eapply Forall_impl; [exact Hrs|]; by intros ? []).
  destruct (stream_segments_addrs (cluster_size vol) rs off len Hcs Hp Ho Hl Hfit) as (H1 & H2 & H3 & H4).
  split; [done|]. split; [|by split]. apply Forall_and. split; [done|]. unfold _stream_segments.
  destruct (_ || _); [constructor|]. by apply segments_nonneg.
Qed.

Lemma read_stream_run vol rs off len d :
  stream_ok vol rs -> 0 <= off -> 0 <= len -> off + len <= py_len (stream_addrs (cluster_size vol) rs) ->
  on_device (py_len d) (span (cluster_size vol) rs off len) ->
  _read_stream (J:=J) vol rs off len d = ([], Ok (gather d (span (cluster_size vol) rs off len))).
Proof.
  intros Hs Ho Hl Hfit Hon. destruct (stream_segments_facts vol rs off len Hs Ho Hl Hfit) as (Hr & Hsegs & _ & Ha).
  unfold _read_stream. cbv zeta. unfold pbind at 1. rewrite <- Ha in Hon. rewrite read_segments_run by done.
  unfold finish. rewrite Hr, Ha. done.
Qed.

Lemma write_stream_run vol rs off data d :
  stream_ok vol rs -> 0 <= off -> off + py_len data <= py_len (stream_addrs (cluster_size vol) rs) ->
  on_device (py_len d) (span (cluster_size vol) rs off (py_len data)) ->
  exists t, _write_stream (J:=J) vol rs off data d = (t, Ok tt) /\
    writes (py_len d) t (span (cluster_size vol) rs off (py_len data)) data.
Proof.
  intros Hs Ho Hfit Hon. pose proof (py_len_nonneg data).
  destruct (stream_segments_facts vol rs off (py_len data) Hs Ho ltac:(lia) Hfit) as (Hr & Hsegs & Hz & Ha).
  rewrite <- Ha in Hon. destruct (write_segments_run data _ d 0 Hsegs Hon) as (t & Hrun & Hw); [lia|lia|].
  rewrite Hz, Z.add_0_l in *. exists t. split.
  - unfold _write_stream. cbv zeta. unfold pbind at 1. rewrite Hrun. unfold finish. rewrite Hr, Z.eqb_refl. simpl. by rewrite app_nil_r.
  - rewrite <- Ha. rewrite py_slice_nonneg in Hw by lia. simpl in Hw.
    rewrite Nat.sub_0_r, drop_0, take_ge in Hw by (unfold py_len; lia). done.
Qed.
End traces.

(** Writing bytes into a logical stream through its run list and reading
    them back returns them, the write succeeds whenever the range lies inside
    the stream and the stream on the device, and no byte outside the addressed
    part of the stream changes. *)
Theorem stream_write_read (vol : Volume) (rs : list Run) (off : Z) (data d : bytes)
    (Hok : stream_ok vol rs) (Hoff : 0 <= off)
    (Hfit : off + py_len data <= py_len (stream_addrs (cluster_size vol) rs))
    (Hon : on_device (py_len d) (stream_addrs (cluster_size vol) rs))
    (Hnd : NoDup (stream_addrs (cluster_size vol) rs)) :
  exists t, _write_stream (J:=unit) vol rs off data d = (t, Ok tt) /\
    _read_stream (J:=unit) vol rs off (py_len data) (replay d t) = ([], Ok data) /\
    forall a, 0 <= a -> a ∉ span (cluster_size vol) rs off (py_len data) -> peek (replay d t) a = peek d a.
Proof.
  pose proof (py_len_nonneg data).
  assert (on_device (py_len d) (span (cluster_size vol) rs off (py_len data))) as Hons by by apply Forall_py_slice.
  destruct (write_stream_run (J:=unit) vol rs off data d Hok Hoff Hfit Hons) as (t & Hrun & Hw).
  exists t. split; [done|]. pose proof (writes_len _ _ _ _ Hw) as Hl. split.
  - rewrite read_stream_run; try done; [|by rewrite Hl]. do 2 f_equal. eapply writes_gather; [exact Hw| | |done].
    + by apply NoDup_py_slice.
    + apply Nat2Z.inj. fold (py_len (span (cluster_size vol) rs off (py_len data))). unfold span. rewrite py_len_slice by lia.
      unfold py_len. lia.
  - intros a Ha Hno. by eapply writes_elsewhere.
Qed.

Definition tiny_volume : Volume := mkVolume "img" 64 0 0 4 16 0 0 0 [].

Lemma stream_write_read_witness :
  exists t, _write_stream (J:=unit) tiny_volume [mkRun (Some 5) 2; mkRun (Some 1) 3] 6 [9; 8; 7; 6; 5] (py_range 0 64) = (t, Ok tt) /\
    _read_stream (J:=unit) tiny_volume [mkRun (Some 5) 2; mkRun (Some 1) 3] 6 (py_len [9; 8; 7; 6; 5]) (replay (py_range 0 64) t)
      = ([], Ok [9; 8; 7; 6; 5]) /\
    forall a, 0 <= a -> a ∉ span (cluster_size tiny_volume) [mkRun (Some 5) 2; mkRun (Some 1) 3] 6 (py_len [9; 8; 7; 6; 5]) ->
      peek (replay (py_range 0 64) t) a = peek (py_range 0 64) a.
Proof.
  apply (stream_write_read tiny_volume [mkRun (Some 5) 2; mkRun (Some 1) 3] 6 [9; 8; 7; 6; 5] (py_range 0 64)).
  - split; [done|]. repeat (apply Forall_cons; split; [split; [split; [done|simpl; lia]|unfold lcn_ok; simpl; lia]|]). constructor.
  - lia.
  - vm_compute. discriminate.
  - apply (bool_decide_unpack _). vm_compute. exact I.
  - apply (bool_decide_unpack _). vm_compute. exact I.
Defined.
