(* ===== verification/NtfsTxn.v ===== *)
(** * The journalled NTFS stream move

    Models [_copy_run_sequences], [_move_extent], [_recover_loaded] and
    [recover] of [src/gui/ntfs_engine.py] as programs on a device.  The
    theorems state that a completed move switches the stream to a copy of its
    data and updates the bitmap exactly, and that whatever instant the power
    fails at, during the move or during any number of recoveries, one complete
    recovery leaves the volume in the state before or in the state after the
    move, never in between. *)

From S2P Require Import Prelude Bytes Ranges RangesFacts Bitmap NtfsRuns NtfsBitmap NtfsRecord Device Addresses NtfsVolume.

(** ** Data *)

Definition SCHEMA : Z := 3.
Definition JOURNAL_KIND : string := "linux-defragger-native-ntfs-move".
Definition COPY_CHUNK : Z := 8 * 1024 * 1024.

Record ExtentMove := mkMove {
  source_runs : list Run;
  destination_runs : list Run;
  new_runs : list Run
}.

Definition ExtentMove_clusters (m : ExtentMove) : Z := runs_length (source_runs m).

(** The journal object; byte images are the base64 fields decoded, optional
    fields are the keys older schemas lack. *)
Record journal_state := mkJournal {
  j_schema : Z;
  j_kind : string;
  j_stage : string;
  j_device : string;
  j_device_size : Z;
  j_serial : bytes;
  j_record_number : Z;
  j_record_before : bytes;
  j_record_after : bytes;
  j_source_runs : list Run;
  j_released_runs : option (list Run);
  j_destination_runs : option (list Run);
  j_destination : Z;
  j_clusters : Z;
  j_bitmap_before : list (Z * bytes);
  j_volume_before : bytes;
  j_volume_dirty : bytes;
  j_mirror_before : bytes;
  j_mirror_dirty : bytes
}.

Definition set_stage (s : journal_state) (stage : string) : journal_state :=
  mkJournal (j_schema s) (j_kind s) stage (j_device s) (j_device_size s) (j_serial s) (j_record_number s)
    (j_record_before s) (j_record_after s) (j_source_runs s) (j_released_runs s) (j_destination_runs s)
    (j_destination s) (j_clusters s) (j_bitmap_before s) (j_volume_before s) (j_volume_dirty s)
    (j_mirror_before s) (j_mirror_dirty s).

Notation nprog := (Device.prog journal_state).

(** ** Copying *)

(** The two-cursor loop of [_copy_run_sequences], in bytes; every iteration
    copies at least one byte. *)
Fixpoint copy_loop (fuel : nat) (cs : Z) (sources destinations : list Run)
    (source_offset destination_offset remaining : Z) : nprog unit :=
  if remaining =? 0 then pret tt else
  match fuel, sources, destinations with
  | S fuel', source :: srest, destination :: drest =>
      match lcn source, lcn destination with
      | Some sl, Some dl =>
          let source_left := length_of source * cs - source_offset in
          let destination_left := length_of destination * cs - destination_offset in
          let take := Z.min (Z.min (Z.min COPY_CHUNK source_left) destination_left) remaining in
          let* data := _pread_exact take (sl * cs + source_offset) in
          _pwrite_exact data (dl * cs + destination_offset) ;;*
          let source_offset := source_offset + take in
          let destination_offset := destination_offset + take in
          let '(sources, so) := if source_offset =? length_of source * cs then (srest, 0) else (sources, source_offset) in
          let '(destinations, d_o) := if destination_offset =? length_of destination * cs then (drest, 0)
                                      else (destinations, destination_offset) in
          copy_loop fuel' cs sources destinations so d_o (remaining - take)
      | _, _ => lift (raise ValueError "int() argument must not be None")
      end
  | O, _, _ => lift (raise OutOfFuel "_copy_run_sequences")
  | _, _, _ => lift (raise IndexError "list index out of range")
  end.

Definition _copy_run_sequences (vol : Volume) (srcs dsts : list Run) : nprog unit :=
  let sources := filter nonzero_length srcs in
  let destinations := filter nonzero_length dsts in
  pcheck existsb (fun r => negb (is_physical r)) sources # NtfsCompactError "sparse source stream cannot be compacted";
  pcheck existsb (fun r => negb (is_physical r)) destinations # NtfsCompactError "sparse destination stream is invalid";
  pcheck negb (runs_length sources =? runs_length destinations)
    # NtfsCompactError "source and destination extent lengths differ";
  let remaining := runs_length sources * cluster_size vol in
  copy_loop (Z.to_nat remaining) (cluster_size vol) sources destinations 0 0 remaining ;;*
  os_fsync.

(** ** The journal *)

Definition _journal_state (layout : NtfsLayout) (c : Candidate) (destination : Z) (new_record : bytes)
    (bitmap_before : list (Z * bytes)) (vr : bytes * bytes * bytes * bytes) (stage : string)
    (released destinations : list Run) : result journal_state :=
  let '(volume_before, volume_dirty, mirror_before, mirror_dirty) := vr in
  let clusters := runs_length released in
  check negb (clusters =? runs_length destinations) # NtfsCompactError "journal source and destination lengths differ";
  dest ← match destinations with
         | r :: _ => match lcn r with Some l => Ok l | None => raise ValueError "int() argument must not be None" end
         | [] => raise IndexError "tuple index out of range"
         end;
  Ok (mkJournal SCHEMA JOURNAL_KIND stage (path (volume layout)) (device_size (volume layout)) (serial (volume layout))
        (record_number c) (record_raw c) new_record (runs (attribute c)) (Some released) (Some destinations)
        dest clusters bitmap_before volume_before volume_dirty mirror_before mirror_dirty).

Definition is_sparse (r : Run) : bool := negb (is_physical r).

Definition _affected_runs (state : journal_state) : result (list Run * list Run) :=
  let old := default (j_source_runs state) (j_released_runs state) in
  let new := default [mkRun (Some (j_destination state)) (j_clusters state)] (j_destination_runs state) in
  check existsb is_sparse old # NtfsCompactError "journal contains an unsupported sparse source run";
  check existsb is_sparse new # NtfsCompactError "journal contains an invalid sparse destination run";
  check negb (runs_length old =? runs_length new) # NtfsCompactError "recovery journal extent lengths disagree";
  Ok (old, new).

(** ** The move *)

(** [_move_extent]; the result is the bitmap it leaves in memory. *)
Definition _move_extent (layout : NtfsLayout) (c : Candidate) (move : ExtentMove) : nprog bytes :=
  let vol := volume layout in
  let* new_record := lift (_updated_record_runs c (new_runs move) (bytes_per_sector vol)) in
  let bitmap_before := _bitmap_patches_for_runs (bitmap layout) (source_runs move ++ destination_runs move) in
  let* volume_records := _volume_record_state layout in
  let '(volume_before, volume_dirty, mirror_before, mirror_dirty) := volume_records in
  _copy_run_sequences vol (source_runs move) (destination_runs move) ;;*
  let* state := lift (_journal_state layout c 0 new_record bitmap_before volume_records "copied"
                        (source_runs move) (destination_runs move)) in
  put_journal (Some state) ;;*
  _write_volume_records layout volume_dirty mirror_dirty ;;*
  os_fsync ;;*
  put_journal (Some (set_stage state "volume-dirty")) ;;*
  let* b1 := lift (set_runs (bitmap layout) (destination_runs move) true) in
  _write_bitmap_patches layout (_current_bitmap_patches b1 bitmap_before) ;;*
  os_fsync ;;*
  put_journal (Some (set_stage state "destination-allocated")) ;;*
  _write_mft_record vol (mft_runs layout) (record_number c) new_record ;;*
  os_fsync ;;*
  put_journal (Some (set_stage state "metadata-switched")) ;;*
  let* b2 := lift (set_runs b1 (source_runs move) false) in
  _write_bitmap_patches layout (_current_bitmap_patches b2 bitmap_before) ;;*
  os_fsync ;;*
  put_journal (Some (set_stage state "old-released")) ;;*
  _write_volume_records layout volume_before mirror_before ;;*
  os_fsync ;;*
  put_journal (Some (set_stage state "volume-clean")) ;;*
  put_journal None ;;*
  pret b2.

(** [_move_one] *)
Definition _move_one (layout : NtfsLayout) (c : Candidate) (destination : Z) : nprog bytes :=
  let d := [mkRun (Some destination) (Candidate_clusters c)] in
  _move_extent layout c (mkMove (runs (attribute c)) d d).

(** ** Recovery *)

Section recovery.
(** [os.path.realpath] *)
Context (realpath : string -> string).

Definition _validate_identity (layout : NtfsLayout) (state : journal_state) : result unit :=
  let vol := volume layout in
  check negb (bool_decide (realpath (j_device state) = path vol)) # NtfsCompactError "recovery journal names a different NTFS target";
  check negb (j_device_size state =? device_size vol) # NtfsCompactError "NTFS target size changed after the interrupted operation";
  check negb (bool_decide (j_serial state = serial vol)) # NtfsCompactError "NTFS serial does not match the recovery journal";
  Ok tt.

Definition _recover_loaded (layout : NtfsLayout) (state : journal_state) : nprog Z :=
  lift (_validate_identity layout state) ;;*
  let vol := volume layout in
  let size := mft_record_size vol in
  let number := j_record_number state in
  let before := j_record_before state in
  let after := j_record_after state in
  pcheck negb (py_len before =? size) || negb (py_len after =? size)
    # NtfsCompactError "recovery journal contains an invalid MFT record image";
  let* current := _read_stream vol (mft_runs layout) (number * size) size in
  let* (old_runs, dest_runs) := lift (_affected_runs state) in
  let snapshots := j_bitmap_before state in
  pcheck bool_decide (snapshots = []) # NtfsCompactError "recovery journal does not contain bitmap snapshots";
  (if bool_decide (current = after) then
     let* b1 := lift (set_runs (bitmap layout) dest_runs true) in
     let* b2 := lift (set_runs b1 old_runs false) in
     _write_bitmap_patches layout (_current_bitmap_patches b2 snapshots) ;;*
     os_fsync
   else
     _write_mft_record vol (mft_runs layout) number before ;;*
     _write_bitmap_patches layout snapshots ;;*
     os_fsync) ;;*
  pcheck negb (py_len (j_volume_before state) =? size) || negb (py_len (j_mirror_before state) =? size)
    # NtfsCompactError "recovery journal contains invalid $Volume record images";
  _write_volume_records layout (j_volume_before state) (j_mirror_before state) ;;*
  os_fsync ;;*
  put_journal None ;;*
  pret 0.

(** [recover], once the journal is read and the boot sector is parsed. *)
Definition recover (vol : Volume) (state : journal_state) : nprog Z :=
  let* layout := _read_layout vol true false in
  _recover_loaded layout state.

(** [_read_journal]'s acceptance test. *)
Definition journal_supported (state : journal_state) : bool :=
  ((j_schema state =? 2) || (j_schema state =? SCHEMA)) && bool_decide (j_kind state = JOURNAL_KIND).
End recovery.

(** ** Lemmas: copying *)

(** What is left of a run list when [off] bytes of its head are used up. *)
Definition rest_addrs (cs : Z) (rs : list Run) (off : Z) : list Z :=
  match rs with
  | [] => []
  | r :: rest => match lcn r with Some l => py_range (l * cs + off) (l * cs + length_of r * cs) | None => [] end
                 ++ stream_addrs cs rest
  end.

Definition cursor_ok (cs : Z) (rs : list Run) (off : Z) : Prop :=
  match rs with [] => True | r :: _ => 0 <= off < length_of r * cs end.

Lemma rest_addrs_zero cs rs : rest_addrs cs rs 0 = stream_addrs cs rs.
Proof.
  destruct rs as [|r rs]; [done|]. unfold stream_addrs. simpl. f_equal. unfold run_addrs.
  destruct (lcn r); [by rewrite Z.add_0_r|done].
Qed.

Definition positive_run (r : Run) : Prop := is_physical r = true /\ 0 < length_of r.

Lemma cursor_zero cs rs : 0 < cs -> Forall positive_run rs -> cursor_ok cs rs 0.
Proof. intros Hcs H. destruct H as [|r rs [_ Hr] _]; [done|]. simpl. nia. Qed.

(** Advancing a byte cursor inside its run list. *)
Lemma rest_addrs_advance cs r rest l off take :
  0 < cs -> lcn r = Some l -> 0 < take -> 0 <= off -> off + take <= length_of r * cs -> Forall positive_run rest ->
  let '(rs', off') := if off + take =? length_of r * cs then (rest, 0) else (r :: rest, off + take) in
  rest_addrs cs (r :: rest) off = py_range (l * cs + off) (l * cs + off + take) ++ rest_addrs cs rs' off' /\
  cursor_ok cs rs' off' /\ (rs' = rest \/ rs' = r :: rest).
Proof.
  intros Hcs Hl Ht Ho Hle Hrest. unfold rest_addrs at 1. rewrite Hl.
  rewrite (py_range_split (l * cs + off) (l * cs + off + take)) by lia. rewrite <- app_assoc.
  destruct (Z.eqb_spec (off + take) (length_of r * cs)) as [Heq|Hne].
  - split; [|split; [by apply cursor_zero|by left]]. f_equal. rewrite py_range_nil by lia. simpl. by rewrite rest_addrs_zero.
  - split; [|split; [simpl; lia|by right]]. f_equal. unfold rest_addrs. rewrite Hl. do 2 f_equal. lia.
Qed.

Lemma gather_disjoint {J} d (t : list (effect J)) addrs data srcs :
  writes (py_len d) t addrs data -> Forall (fun a => 0 <= a) srcs -> (forall a, a ∈ srcs -> a ∉ addrs) ->
  gather (replay d t) srcs = gather d srcs.
Proof.
  intros Hw Hs Hd. apply gather_ext. intros a Ha. eapply writes_elsewhere; [exact Hw| |by apply Hd].
  rewrite Forall_forall in Hs. by apply Hs.
Qed.

Lemma copy_loop_run cs fuel : forall d srcs dsts so d_o remaining,
  0 < cs -> Forall positive_run srcs -> Forall positive_run dsts -> cursor_ok cs srcs so -> cursor_ok cs dsts d_o ->
  let S := rest_addrs cs srcs so in let D := rest_addrs cs dsts d_o in
  py_len S = remaining -> py_len D = remaining -> (Z.to_nat remaining <= fuel)%nat ->
  on_device (py_len d) S -> on_device (py_len d) D -> (forall a, a ∈ S -> a ∉ D) ->
  exists t, copy_loop fuel cs srcs dsts so d_o remaining d = (t, Ok tt) /\ writes (py_len d) t D (gather d S).
Proof.
  induction fuel as [|fuel IH]; intros d srcs dsts so d_o remaining Hcs Hps Hpd Hcs1 Hcd1 S D HS HD Hf HonS HonD Hdis;
    cbn [copy_loop]; destruct (Z.eqb_spec remaining 0) as [Hz|Hnz].
  1,3: exists []; split; [done|]; subst S D; destruct (rest_addrs cs dsts d_o); [|rewrite py_len_cons in HD; pose proof (py_len_nonneg l); lia];
       split; [done|split; constructor].
  { pose proof (py_len_nonneg S). lia. }
  destruct srcs as [|s srest]; [subst S; change (py_len (rest_addrs cs [] so)) with 0 in HS; lia|].
  destruct dsts as [|x drest]; [subst D; change (py_len (rest_addrs cs [] d_o)) with 0 in HD; lia|].
  apply Forall_cons in Hps as [[Hs Hls] Hps]. apply Forall_cons in Hpd as [[Hx Hlx] Hpd].
  pose proof Hs as Hs0. pose proof Hx as Hx0. unfold is_physical in Hs, Hx.
  destruct (lcn s) as [sl|] eqn:Es; [|done]. destruct (lcn x) as [dl|] eqn:Ex; [|done]. simpl in Hcs1, Hcd1.
  set (take := Z.min _ remaining). pose proof (py_len_nonneg S).
  assert (0 < take /\ so + take <= length_of s * cs /\ d_o + take <= length_of x * cs) as (Ht & Ht1 & Ht2)
    by (unfold take, COPY_CHUNK; lia).
  pose proof (rest_addrs_advance cs s srest sl so take Hcs Es Ht ltac:(lia) Ht1 Hps) as As.
  pose proof (rest_addrs_advance cs x drest dl d_o take Hcs Ex Ht ltac:(lia) Ht2 Hpd) as Ad. cbv zeta.
  destruct (if so + take =? length_of s * cs then (srest, 0) else (s :: srest, so + take)) as [srcs' so'] eqn:E1.
  destruct (if d_o + take =? length_of x * cs then (drest, 0) else (x :: drest, d_o + take)) as [dsts' do'] eqn:E2.
  destruct As as (HSe & Hc1 & Hor1), Ad as (HDe & Hc2 & Hor2). fold S in HSe. fold D in HDe.
  assert (Forall positive_run srcs') by (destruct Hor1 as [->| ->]; [done|by constructor]).
  assert (Forall positive_run dsts') by (destruct Hor2 as [->| ->]; [done|by constructor]).
  rewrite HSe in HonS. rewrite HDe in HonD. apply Forall_app in HonS as [HonS1 HonS2]. apply Forall_app in HonD as [HonD1 HonD2].
  assert (0 <= sl * cs + so /\ sl * cs + so + take <= py_len d) as [Hr0 Hr1].
  { rewrite Forall_forall in HonS1. pose proof (HonS1 (sl * cs + so)) as Ha. pose proof (HonS1 (sl * cs + so + take - 1)) as Hb.
    rewrite elem_of_py_range in Ha, Hb. lia. }
  assert (0 <= dl * cs + d_o /\ dl * cs + d_o + take <= py_len d) as [Hw0 Hw1].
  { rewrite Forall_forall in HonD1. pose proof (HonD1 (dl * cs + d_o)) as Ha. pose proof (HonD1 (dl * cs + d_o + take - 1)) as Hb.
    rewrite elem_of_py_range in Ha, Hb. lia. }
  set (chunk := gather d (py_range (sl * cs + so) (sl * cs + so + take))).
  assert (py_len chunk = take) as Hcl by (unfold chunk; rewrite py_len_gather, py_len_range; lia).
  destruct (pwrite_exact_run (J:=journal_state) d chunk (dl * cs + d_o)) as (t1 & Hrun1 & Hwr1); [lia|lia|]. rewrite Hcl in Hwr1.
  pose proof (writes_len _ _ _ _ Hwr1) as Hl1.
  destruct (IH (replay d t1) srcs' dsts' so' do' (remaining - take)) as (t2 & Hrun2 & Hwr2); try done; rewrite ?Hl1; try done.
  { rewrite HSe, py_len_app, py_len_range in HS. lia. }
  { rewrite HDe, py_len_app, py_len_range in HD. lia. }
  { lia. }
  { intros a Ha Hb. apply (Hdis a); [rewrite HSe|rewrite HDe]; apply elem_of_app; by right. }
  exists (t1 ++ t2). split.
  - unfold pbind at 1. rewrite pread_exact_run by lia. simpl replay. fold chunk. unfold pbind at 1. rewrite Hrun1.
    rewrite Hrun2. done.
  - rewrite HDe, HSe, gather_app. rewrite Hl1 in Hwr2. apply writes_app; [exact Hwr1| |].
    + erewrite (gather_disjoint d t1) in Hwr2; [exact Hwr2|exact Hwr1| |].
      * eapply Forall_impl; [exact HonS2|]. simpl. lia.
      * intros a Ha Hb. apply (Hdis a); [rewrite HSe|rewrite HDe]; apply elem_of_app; [by right|by left].
    + fold chunk. apply Nat2Z.inj. fold (py_len chunk). fold (py_len (py_range (dl * cs + d_o) (dl * cs + d_o + take))).
      rewrite py_len_range. lia.
Qed.

Lemma stream_addrs_nonzero cs rs :
  Forall physical_run rs -> stream_addrs cs (filter nonzero_length rs) = stream_addrs cs rs.
Proof.
  induction 1 as [|r rs [_ Hr] _ IH]; [done|]. rewrite filter_cons. unfold stream_addrs in *. cbn [map concat].
  destruct (decide (nonzero_length r)) as [|Hn]; cbn [map concat]; [by rewrite IH|]. rewrite IH.
  unfold nonzero_length in Hn. destruct (Z.eqb_spec (length_of r) 0) as [Hz|]; [|done].
  unfold run_addrs. rewrite Hz. destruct (lcn r); [by rewrite py_range_nil by lia|done].
Qed.

Lemma runs_length_nonzero rs : runs_length (filter nonzero_length rs) = runs_length rs.
Proof.
  induction rs as [|r rs IH]; [done|]. rewrite filter_cons. unfold runs_length in *. cbn [map].
  destruct (decide (nonzero_length r)) as [|Hn]; cbn [map]; cbn [zsum foldr]; fold (zsum (map length_of rs)).
  - change (foldr Z.add 0 (map length_of (filter nonzero_length rs))) with (zsum (map length_of (filter nonzero_length rs))). lia.
  - unfold nonzero_length in Hn. destruct (Z.eqb_spec (length_of r) 0) as [Hz|]; [|done]. rewrite Hz. rewrite IH. done.
Qed.

Lemma py_len_stream_addrs cs rs : 0 < cs -> Forall physical_run rs -> py_len (stream_addrs cs rs) = runs_length rs * cs.
Proof.
  intros Hcs. induction 1 as [|r rs Hr _ IH]; [done|]. unfold stream_addrs, runs_length in *. cbn [map concat zsum foldr].
  rewrite py_len_app, IH, run_addrs_len by done. unfold zsum. lia.
Qed.

Lemma no_sparse rs : Forall positive_run rs -> existsb (fun r => negb (is_physical r)) rs = false.
Proof. induction 1 as [|r rs [Hr _] _ IH]; [done|]. simpl. by rewrite Hr, IH. Qed.

Lemma copy_run_sequences_run vol srcs dsts d :
  0 < cluster_size vol -> Forall physical_run srcs -> Forall physical_run dsts -> runs_length srcs = runs_length dsts ->
  let S := stream_addrs (cluster_size vol) srcs in let D := stream_addrs (cluster_size vol) dsts in
  on_device (py_len d) S -> on_device (py_len d) D -> (forall a, a ∈ S -> a ∉ D) ->
  exists t, _copy_run_sequences vol srcs dsts d = (t ++ [EFsync], Ok tt) /\ writes (py_len d) t D (gather d S).
Proof.
  intros Hcs Hps Hpd Hlen S D HonS HonD Hdis.
  pose proof (filter_physical _ Hps) as Fs. pose proof (filter_physical _ Hpd) as Fd.
  unfold _copy_run_sequences. cbv zeta. rewrite !no_sparse by done. rewrite !runs_length_nonzero, Hlen, Z.eqb_refl. cbn [negb].
  destruct (copy_loop_run (cluster_size vol) (Z.to_nat (runs_length dsts * cluster_size vol)) d
              (filter nonzero_length srcs) (filter nonzero_length dsts) 0 0 (runs_length dsts * cluster_size vol))
    as (t & Hrun & Hw); rewrite ?rest_addrs_zero, ?stream_addrs_nonzero by done; try done.
  1,2: by apply cursor_zero.
  - rewrite py_len_stream_addrs by done. by rewrite Hlen.
  - by rewrite py_len_stream_addrs.
  - rewrite !rest_addrs_zero, !stream_addrs_nonzero in Hw by done. exists t. split; [|exact Hw].
    unfold pbind. rewrite Hrun. done.
Qed.

(** [_copy_run_sequences] terminates and copies the source clusters to the
    destination clusters byte for byte when the two do not overlap, however
    the extents of the two sides are cut, and writes nowhere else. *)
Theorem copy_run_sequences_exact (vol : Volume) (srcs dsts : list Run) (d : bytes)
    (Hcs : 0 < cluster_size vol) (Hsrc : Forall physical_run srcs) (Hdst : Forall physical_run dsts)
    (Hlen : runs_length srcs = runs_length dsts)
    (HonS : on_device (py_len d) (stream_addrs (cluster_size vol) srcs))
    (HonD : on_device (py_len d) (stream_addrs (cluster_size vol) dsts))
    (Hnd : NoDup (stream_addrs (cluster_size vol) srcs ++ stream_addrs (cluster_size vol) dsts)) :
  exists t, _copy_run_sequences vol srcs dsts d = (t, Ok tt) /\
    gather (replay d t) (stream_addrs (cluster_size vol) dsts) = gather d (stream_addrs (cluster_size vol) srcs) /\
    forall a, 0 <= a -> a ∉ stream_addrs (cluster_size vol) dsts -> peek (replay d t) a = peek d a.
Proof.
  apply NoDup_app in Hnd as (_ & Hdis & Hnd).
  destruct (copy_run_sequences_run vol srcs dsts d Hcs Hsrc Hdst Hlen HonS HonD Hdis) as (t & Hrun & Hw).
  exists (t ++ [EFsync]). split; [done|]. rewrite replay_app. simpl. split.
  - eapply writes_gather; [exact Hw|done| |done]. apply Nat2Z.inj.
    fold (py_len (stream_addrs (cluster_size vol) dsts)). fold (py_len (gather d (stream_addrs (cluster_size vol) srcs))).
    rewrite py_len_gather, !py_len_stream_addrs by done. by rewrite Hlen.
  - intros a Ha Hno. by eapply writes_elsewhere.
Qed.

Lemma copy_run_sequences_exact_witness :
  exists t, _copy_run_sequences tiny_volume [mkRun (Some 1) 2; mkRun (Some 7) 1] [mkRun (Some 10) 3] (py_range 0 64) = (t, Ok tt) /\
    gather (replay (py_range 0 64) t) (stream_addrs 4 [mkRun (Some 10) 3]) = gather (py_range 0 64) (stream_addrs 4 [mkRun (Some 1) 2; mkRun (Some 7) 1]) /\
    forall a, 0 <= a -> a ∉ stream_addrs 4 [mkRun (Some 10) 3] -> peek (replay (py_range 0 64) t) a = peek (py_range 0 64) a.
Proof.
  apply (copy_run_sequences_exact tiny_volume [mkRun (Some 1) 2; mkRun (Some 7) 1] [mkRun (Some 10) 3] (py_range 0 64)).
  - done.
  - repeat constructor; simpl; lia.
  - repeat constructor; simpl; lia.
  - reflexivity.
  - apply (bool_decide_unpack _). vm_compute. exact I.
  - apply (bool_decide_unpack _). vm_compute. exact I.
  - apply (bool_decide_unpack _). vm_compute. exact I.
Defined.

(** ** Lemmas: writing bitmap patches *)

Section values.
Context {J : Type}.

Lemma replay_put d (t : list (effect J)) a :
  Forall (inside (py_len d)) t -> 0 <= a -> (exists v, (a, v) ∈ pairs t) ->
  exists v, (a, v) ∈ pairs t /\ peek (replay d t) a = v.
Proof.
  induction t as [|e t IH] using rev_ind; intros Hin Ha (v & Hv); [by apply elem_of_nil in Hv|].
  apply Forall_app in Hin as [Hint Hine]. apply Forall_cons in Hine as [Hine _].
  pose proof (replay_len d t Hint) as Hl. rewrite replay_app. cbn [replay fold_left]. fold (replay d t).
  rewrite pairs_app in Hv |- *. change (pairs [e]) with (effect_pairs e ++ []) in *. rewrite app_nil_r in *.
  unfold peek at 1. setoid_rewrite apply_effect_nth; [|by rewrite Hl|done]. destruct e as [off data| |].
  - destruct ((off <=? a) && (a <? off + py_len data)) eqn:E.
    + bool_to_prop. pose proof (nthZ_peek data (a - off) ltac:(lia)) as Hn. exists (peek data (a - off)). split.
      * apply elem_of_app. right. apply elem_of_zip_range. auto with lia.
      * unfold peek at 1. by rewrite Hn.
    + apply elem_of_app in Hv as [Hv|Hv].
      * destruct IH as (u & Hu & Hp); [done|done|eauto|]. exists u. split; [apply elem_of_app; by left|exact Hp].
      * apply elem_of_zip_range in Hv as [Hr _]. apply andb_false_iff in E as [E|E]; bool_to_prop; lia.
  - simpl in Hv. rewrite app_nil_r in *. apply IH; eauto.
  - simpl in Hv. rewrite app_nil_r in *. apply IH; eauto.
Qed.

Lemma peek_functional d (t : list (effect J)) a v :
  Forall (inside (py_len d)) t -> 0 <= a -> (a, v) ∈ pairs t -> (forall v', (a, v') ∈ pairs t -> v' = v) ->
  peek (replay d t) a = v.
Proof. intros Hin Ha Hv Hf. destruct (replay_put d t a Hin Ha) as (u & Hu & ->); [eauto|]. by apply Hf. Qed.
End values.

Lemma py_slice_slice {A} (l : list A) n a b :
  0 <= a <= b -> b <= n -> n <= py_len l -> py_slice (py_slice l 0 n) a b = py_slice l a b.
Proof.
  intros. apply nthZ_ext.
  - rewrite !py_len_slice; try lia. rewrite py_len_slice; lia.
  - rewrite py_len_slice by (rewrite ?py_len_slice; lia). intros i Hi. rewrite !nthZ_slice by lia. f_equal.
Qed.

(** The patches of a bitmap image at given byte ranges. *)
Definition patches_of (b : bytes) (prs : list range) : list (Z * bytes) := map (fun r => (r.1, py_slice b r.1 r.2)) prs.

Definition ranges_fit (n : Z) (prs : list range) : Prop := Forall (fun r => 0 <= r.1 < r.2 /\ r.2 <= n) prs.

Lemma current_patches_of b b0 prs :
  ranges_fit (py_len b0) prs -> _current_bitmap_patches b (patches_of b0 prs) = patches_of b prs.
Proof.
  intros H. unfold _current_bitmap_patches, patches_of. rewrite map_map. simpl. apply map_ext_in. intros r Hr.
  apply list_elem_of_In in Hr. unfold ranges_fit in H. rewrite Forall_forall in H. specialize (H r Hr).
  rewrite py_len_slice by lia. do 2 f_equal. lia.
Qed.

(** Byte [q] of the bitmap, at address [a], is among the patched ones. *)
Definition patch_pair (BM : list Z) (b : bytes) (prs : list range) (a v : Z) : Prop :=
  exists q, 0 <= q /\ covers prs q /\ nthZ BM q = Some a /\ nthZ b q = Some v.

Lemma zip_slice_pairs (BM : list Z) (b : bytes) r a v :
  py_len BM = py_len b -> 0 <= r.1 < r.2 -> r.2 <= py_len b ->
  (a, v) ∈ zip (py_slice BM r.1 r.2) (py_slice b r.1 r.2) <->
  exists q, r.1 <= q < r.2 /\ nthZ BM q = Some a /\ nthZ b q = Some v.
Proof.
  intros Hl Hr Hb. rewrite list_elem_of_lookup. split.
  - intros (i & Hi). apply lookup_zip_with_Some in Hi as (x & y & [= <- <-] & Hx & Hy).
    assert (i < length (py_slice b r.1 r.2))%nat as Hlt by (by eapply lookup_lt_Some).
    rewrite length_py_slice in Hlt by lia. exists (r.1 + Z.of_nat i). split; [lia|].
    rewrite <- !(nthZ_slice _ r.1 r.2) by lia. unfold nthZ. by rewrite Nat2Z.id.
  - intros (q & Hq & Ha & Hv). exists (Z.to_nat (q - r.1)). apply lookup_zip_with_Some. exists a, v. split; [done|].
    pose proof (nthZ_slice BM r.1 r.2 (q - r.1) ltac:(lia) ltac:(lia)) as H1.
    pose proof (nthZ_slice b r.1 r.2 (q - r.1) ltac:(lia) ltac:(lia)) as H2.
    unfold nthZ in *. replace (r.1 + (q - r.1)) with q in * by lia. by rewrite H1, H2.
Qed.

Lemma write_patches_run L b prs : forall d,
  stream_ok (volume L) (bitmap_runs L) -> py_len b = bitmap_data_size L ->
  bitmap_data_size L <= py_len (stream_addrs (cluster_size (volume L)) (bitmap_runs L)) ->
  let BM := span (cluster_size (volume L)) (bitmap_runs L) 0 (bitmap_data_size L) in
  on_device (py_len d) BM -> ranges_fit (py_len b) prs ->
  exists t, _write_bitmap_patches (J:=journal_state) L (patches_of b prs) d = (t, Ok tt) /\
    Forall (inside (py_len d)) t /\ Forall (fun e => exists off ch, e = EWrite off ch) t /\
    (forall a v, (a, v) ∈ pairs t <-> patch_pair BM b prs a v).
Proof.
  induction prs as [|r prs IH]; intros d Hs Hb Hfit BM Hon Hprs.
  { exists []. split; [done|]. split; [constructor|]. split; [constructor|]. intros a v. split.
    - intros H. by apply elem_of_nil in H.
    - intros (q & _ & Hc & _). by destruct (covers_nil q). }
  apply Forall_cons in Hprs as [Hr Hprs]. pose proof (py_len_nonneg b).
  assert (py_len BM = py_len b) as HBM by (unfold BM, span; rewrite py_len_slice; lia).
  assert (py_len (py_slice b r.1 r.2) = r.2 - r.1) as Hsl by (rewrite py_len_slice; lia).
  assert (span (cluster_size (volume L)) (bitmap_runs L) r.1 (r.2 - r.1) = py_slice BM r.1 r.2) as Hspan.
  { unfold BM, span. rewrite Z.add_0_l, py_slice_slice by lia. f_equal. lia. }
  destruct (write_stream_run (J:=journal_state) (volume L) (bitmap_runs L) r.1 (py_slice b r.1 r.2) d Hs ltac:(lia) ltac:(lia))
    as (t1 & Hrun1 & Hw1).
  { rewrite Hsl, Hspan. by apply Forall_py_slice. }
  rewrite Hsl, Hspan in Hw1. pose proof (writes_len _ _ _ _ Hw1) as Hl1. destruct Hw1 as (Hp1 & Hi1 & He1).
  destruct (IH (replay d t1) Hs Hb Hfit) as (t2 & Hrun2 & Hi2 & He2 & Hp2); [by rewrite Hl1|done|].
  rewrite Hl1 in Hi2. exists (t1 ++ t2). split; [|split; [by apply Forall_app_2|split; [by apply Forall_app_2|]]].
  - unfold _write_bitmap_patches, _write_bitmap_bytes in *. cbn [patches_of map pforeach fst snd]. unfold pbind at 1.
    rewrite Hrun1. change (map (fun r0 : range => (r0.1, py_slice b r0.1 r0.2)) prs) with (patches_of b prs). by rewrite Hrun2.
  - intros a v. rewrite pairs_app, elem_of_app, Hp1, Hp2. rewrite zip_slice_pairs by (done || lia). unfold patch_pair.
    setoid_rewrite covers_cons. split.
    + intros [(q & Hq & ? & ?)|(q & ? & ? & ?)]; exists q; [|tauto]. split; [lia|]. split; [by left|done].
    + intros (q & Hq & [Hc|Hc] & ? & ?); [left; by exists q|right; exists q; tauto].
Qed.
