(* ===== verification/NtfsTxnFacts.v ===== *)
(** * Correctness and crash safety of the NTFS stream move

    Proves the two theorems announced in [NtfsTxn]: what a completed
    [_move_extent] leaves on the device, and that after any sequence of power
    failures, in the move and in the recoveries that follow, a recovery that
    completes leaves the old or the new state. *)

From S2P Require Import Prelude Bytes Ranges RangesFacts Bitmap NtfsRuns NtfsBitmap NtfsRecord Device Addresses NtfsVolume NtfsTxn.

(** ** Lemmas: lengths *)

Lemma usa_header_inv record ss off count :
  wf_bytes record -> usa_header record ss = Ok (off, count) ->
  0 <= off /\ count = py_len record / ss + 1 /\ off + count * 2 <= py_len record.
Proof.
  intros Hw H. unfold usa_header in H. destruct (u16le record 4) as [o|] eqn:E4; [|done]. cbn [mbind result_bind] in H.
  destruct (u16le record 6) as [n|] eqn:E6; [|done]. cbn [mbind result_bind] in H. destruct (_ || _) eqn:E; [done|].
  injection H as <- <-. bool_to_prop. pose proof (u16_nonneg record 4 o Hw ltac:(lia) E4). lia.
Qed.

Lemma sector_bounds (record : bytes) ss i :
  2 <= ss -> 1 <= i < py_len record / ss + 1 -> 0 <= i * ss - 2 /\ i * ss <= py_len record.
Proof.
  intros Hs Hi. pose proof (Z.mul_div_le (py_len record) ss ltac:(lia)). nia.
Qed.

Lemma prepare_one_len off ss usn record i n :
  py_len usn = 2 -> py_len record = n -> 0 <= i * ss - 2 -> i * ss <= n -> 0 <= off + i * 2 -> off + i * 2 + 2 <= n ->
  py_len (prepare_one off ss usn record i) = n.
Proof.
  intros Hu Hl H0 H1 H2 H3. unfold prepare_one. cbv zeta.
  assert (py_len (py_slice record (i * ss - 2) (i * ss)) = 2) as Hs by (rewrite py_len_slice; lia).
  rewrite !py_len_set_slice; rewrite ?py_len_set_slice; lia.
Qed.

Lemma prepare_fixups_len fixed ss raw :
  wf_bytes fixed -> 2 <= ss -> _prepare_fixups fixed ss = Ok raw -> py_len raw = py_len fixed.
Proof.
  intros Hw Hs H. unfold _prepare_fixups in H.
  destruct (usa_header fixed ss) as [[off count]|] eqn:Eh; [|done]. cbn [mbind result_bind] in H.
  destruct (usa_header_inv _ _ _ _ Hw Eh) as (Ho & Hc & Hb).
  destruct (u16le fixed off) as [old|]; [|done]. cbn [mbind result_bind] in H. injection H as <-.
  assert (0 <= py_len fixed / ss) by (apply Z.div_pos; [apply py_len_nonneg|lia]).
  set (usn := le_digits 2 (next_usn old)). assert (py_len usn = 2) as Hu by done.
  assert (forall l rec, Forall (fun i => 1 <= i < count) l -> py_len rec = py_len fixed ->
            py_len (fold_left (prepare_one off ss usn) l rec) = py_len fixed) as Hf.
  { induction l as [|i l IH]; intros rec Hl Hr; [done|]. apply Forall_cons in Hl as [Hi Hl]. simpl. apply IH; [done|].
    destruct (sector_bounds fixed ss i Hs ltac:(lia)). apply prepare_one_len; (done || lia). }
  apply Hf; [apply Forall_forall; intros i Hi%elem_of_py_range; lia|]. rewrite py_len_set_slice by lia. rewrite !py_len_cons. change (py_len (@nil Z)) with 0. lia.
Qed.

Lemma apply_fixups_facts raw ss fixed :
  wf_bytes raw -> 2 <= ss -> _apply_fixups raw ss = Ok fixed -> py_len fixed = py_len raw /\ wf_bytes fixed.
Proof.
  intros Hw Hs H. unfold _apply_fixups in H.
  destruct (usa_header raw ss) as [[off count]|] eqn:Eh; [|done]. cbn [mbind result_bind] in H.
  destruct (usa_header_inv _ _ _ _ Hw Eh) as (Ho & Hc & Hb).
  eapply (foldM_inv (fun r => py_len r = py_len raw /\ wf_bytes r)); [| |exact H]; [done|].
  intros i b b' Hi [Hl Hwb] Hstep. apply elem_of_py_range in Hi. destruct (sector_bounds raw ss i Hs ltac:(lia)).
  unfold apply_one in Hstep. destruct (negb _); [done|]. injection Hstep as <-.
  assert (py_len (py_slice b (off + i * 2) (off + i * 2 + 2)) = 2) by (rewrite py_len_slice; lia).
  split; [rewrite py_len_set_slice; lia|]. auto with defrag.
Qed.

Lemma pack_into_facts n data o v d : wf_bytes data -> pack_into n data o v = Ok d -> 0 <= o -> py_len d = py_len data /\ wf_bytes d.
Proof.
  intros Hw H Ho. apply pack_into_inv in H as (H1 & H2 & ->); [|done]. pose proof (py_len_le_digits n v).
  split; [rewrite py_len_set_slice; lia|]. auto with defrag.
Qed.

(** ** Lemmas: programs that only read *)

Ltac u16_nonneg_in H Hw :=
  match type of H with u16le ?r ?p = Ok ?v => assert (0 <= v) by (apply (u16_nonneg r p v Hw); [lia|exact H]) end.

Lemma read_mft_record_run {J} vol rs number d t x :
  stream_ok vol rs -> 0 <= number -> 0 < mft_record_size vol ->
  (number + 1) * mft_record_size vol <= py_len (stream_addrs (cluster_size vol) rs) ->
  on_device (py_len d) (span (cluster_size vol) rs (number * mft_record_size vol) (mft_record_size vol)) ->
  _read_mft_record (J:=J) vol rs number d = (t, Ok x) ->
  t = [] /\ x.1.2 = gather d (span (cluster_size vol) rs (number * mft_record_size vol) (mft_record_size vol)) /\
  _apply_fixups x.1.2 (bytes_per_sector vol) = Ok x.2.
Proof.
  intros Hs Hn Hsz Hfit Hon H. unfold _read_mft_record in H. cbv zeta in H. prog_step H.
  rewrite read_stream_run in R by (done || nia). injection R as <- <-. simpl replay in H.
  prog_step H. apply lift_inv in R as [-> Hf]. simpl in H. prog_step H.
  unfold first_segment in R. destruct (yielded _) as [|s l] in R.
  { destruct (raised _) in R; [apply lift_inv in R as [_ R]; done|apply lift_inv in R as [_ R]; done]. }
  injection R as <- <-. injection H as <- <-. simpl. done.
Qed.

(** The offset of an attribute the walk yields is not negative. *)
Lemma walk_yields fuel : forall record in_use pos,
  wf_bytes record -> 0 <= pos -> in_use <= py_len record ->
  Forall (fun a => 0 <= offset a) (yielded (attributes_loop fuel record in_use pos)).
Proof.
  induction fuel as [|f IH]; intros record in_use pos Hw Hp Hu; cbn [attributes_loop]; destruct (_ <=? _); try constructor.
  destruct (parse_attribute record in_use pos) as [[a|]|] eqn:E; try constructor.
  - destruct (parse_attribute_facts _ _ _ _ Hw Hp Hu E) as (-> & _). done.
  - destruct (parse_attribute_facts _ _ _ _ Hw Hp Hu E) as (_ & Hl & Hend & _). apply IH; (done || lia).
Qed.

Lemma attributes_offset record p a :
  wf_bytes record -> first_of p (_attributes record) = Ok (Some a) -> 0 <= offset a.
Proof.
  intros Hw H. assert (Forall (fun a => 0 <= offset a) (yielded (_attributes record))) as Hy.
  { unfold _attributes. destruct (u16le record 20) as [pos|] eqn:E; [|constructor]. destruct (u32le record 24); [|constructor].
    apply walk_yields; [done| |lia]. by eapply (u16_nonneg record 20). }
  unfold first_of in H. destruct (List.find p _) as [x|] eqn:Ef; [|by destruct (raised _)].
  injection H as ->. apply find_some in Ef as [Hin _]. rewrite Forall_forall in Hy. apply Hy. by apply list_elem_of_In.
Qed.

Definition MIRROR (vol : Volume) : list Z := py_range (mirror_offset vol) (mirror_offset vol + mft_record_size vol).

Definition RECORD (L : NtfsLayout) (number : Z) : list Z :=
  span (cluster_size (volume L)) (mft_runs L) (number * mft_record_size (volume L)) (mft_record_size (volume L)).

Lemma dirty_image_len fixed o v ss dirty raw n :
  wf_bytes fixed -> 2 <= ss -> 0 <= o -> py_len fixed = n ->
  pack_into 2 fixed o v = Ok dirty -> _prepare_fixups dirty ss = Ok raw -> py_len raw = n.
Proof.
  intros Hw Hs Ho Hl Hp Hf. apply pack_into_facts in Hp as [Hpl Hpw]; [|done|done].
  rewrite (prepare_fixups_len dirty ss raw) by done. lia.
Qed.

Lemma volume_record_state_facts {J} L d t v0 v1 m0 m1 :
  let vol := volume L in
  wf_bytes d -> stream_ok vol (mft_runs L) -> 0 < mft_record_size vol -> 2 <= bytes_per_sector vol ->
  4 * mft_record_size vol <= py_len (stream_addrs (cluster_size vol) (mft_runs L)) ->
  on_device (py_len d) (RECORD L 3) -> on_device (py_len d) (MIRROR vol) ->
  _volume_record_state (J:=J) L d = (t, Ok (v0, v1, m0, m1)) ->
  t = [] /\ v0 = gather d (RECORD L 3) /\ m0 = gather d (MIRROR vol) /\
  py_len v1 = mft_record_size vol /\ py_len m1 = mft_record_size vol.
Proof.
  intros vol Hw Hs Hsz Hss Hfit Hon3 HonM H. unfold _volume_record_state in H. fold vol in H. cbv zeta in H.
  prog_step H. destruct a as [[off raw] fixed].
  apply read_mft_record_run in R as (-> & Hraw & Hfix); [|done|lia|done|lia|done].
  cbn [fst snd] in Hraw, Hfix. simpl replay in H.
  assert (py_len raw = mft_record_size vol) as Hrl.
  { rewrite Hraw, py_len_gather. unfold span. rewrite py_len_slice by lia. lia. }
  assert (wf_bytes raw) as Hrw by (rewrite Hraw; by apply wf_gather).
  destruct (apply_fixups_facts raw _ fixed Hrw Hss Hfix) as [Hfl Hfw].
  pure_step H found Hfound. destruct found as [info|]; [|by apply lift_inv in H as [_ H]].
  pose proof (attributes_offset _ _ _ Hfw Hfound) as Hio.
  pure_step H value_len Hvl. pure_step H value_off Hvo. u16_nonneg_in Hvo Hfw.
  destruct (_ || _) in H; [by apply lift_inv in H as [_ H]|].
  pure_step H fl Hfl1. pure_step H u Hval. pure_step H dirty_fixed Hdf. pure_step H dirty_raw Hdr.
  assert (py_len dirty_raw = mft_record_size vol) as Hv1
    by (eapply (dirty_image_len fixed); [exact Hfw|exact Hss| | |exact Hdf|exact Hdr]; lia).
  prog_step H. rewrite pread_exact_run in R.
  2-4: pose proof HonM as HonM'; unfold on_device in HonM'; rewrite Forall_forall in HonM'; unfold MIRROR in HonM';
       pose proof (HonM' (mirror_offset vol)) as Ha; pose proof (HonM' (mirror_offset vol + mft_record_size vol - 1)) as Hb;
       rewrite elem_of_py_range in Ha, Hb; lia.
  injection R as <- <-. simpl replay in H. fold (MIRROR vol) in H. set (mraw := gather d (MIRROR vol)) in *.
  assert (wf_bytes mraw) as Hmw by by apply wf_gather.
  assert (py_len mraw = mft_record_size vol) as Hml by (unfold mraw, MIRROR; rewrite py_len_gather, py_len_range; lia).
  pure_step H mfixed Hmfix. destruct (apply_fixups_facts mraw _ _ Hmw Hss Hmfix) as [Hmfl Hmfw].
  pure_step H mfound Hmfound. destruct mfound as [minfo|]; [|by apply lift_inv in H as [_ H]].
  pose proof (attributes_offset _ _ _ Hmfw Hmfound) as Hmio.
  pure_step H moff Hmvo. u16_nonneg_in Hmvo Hmfw. pure_step H mfl Hmflg. destruct (negb _) in H; [by apply lift_inv in H as [_ H]|].
  pure_step H mdf Hmdf. pure_step H mdr Hmdr. injection H as <- <- <- <- <-.
  split; [done|]. split; [exact Hraw|]. split; [done|]. split; [done|].
  eapply (dirty_image_len mfixed); [exact Hmfw|exact Hss| | |exact Hmdf|exact Hmdr]; lia.
Qed.

(** ** Lemmas: reading the layout again *)

Definition RECORD_ZERO (vol : Volume) : list Z :=
  py_range (mft_lcn vol * cluster_size vol) (mft_lcn vol * cluster_size vol + mft_record_size vol).

Definition BITMAP (L : NtfsLayout) : list Z := span (cluster_size (volume L)) (bitmap_runs L) 0 (bitmap_data_size L).

Lemma on_device_range n a k : 0 < k -> on_device n (py_range a (a + k)) -> 0 <= a /\ a + k <= n.
Proof.
  intros Hk H. unfold on_device in H. rewrite Forall_forall in H. pose proof (H a) as Ha. pose proof (H (a + k - 1)) as Hb.
  rewrite elem_of_py_range in Ha, Hb. lia.
Qed.

(** Two devices on which a program behaves alike. *)
Lemma same_bind {J A B} (m : Device.prog J A) (k : A -> Device.prog J B) d d0 x :
  m d = ([], Ok x) -> m d0 = ([], Ok x) -> k x d = k x d0 -> pbind m k d = pbind m k d0.
Proof. intros H H0 Hk. unfold pbind. rewrite H, H0. simpl. by rewrite Hk. Qed.

Lemma same_lift {J A B} (r : result A) (k : A -> Device.prog J B) d d0 :
  (forall x, k x d = k x d0) -> pbind (lift r) k d = pbind (lift r) k d0.
Proof. intros Hk. unfold pbind, lift. destruct r; [simpl; by rewrite Hk|done]. Qed.

Lemma record_zero_same {J} vol d d0 :
  0 < mft_record_size vol -> on_device (py_len d) (RECORD_ZERO vol) -> py_len d = py_len d0 ->
  gather d (RECORD_ZERO vol) = gather d0 (RECORD_ZERO vol) ->
  _record_zero (J:=J) vol d = _record_zero (J:=J) vol d0.
Proof.
  intros Hsz Hon Hl Hg. apply on_device_range in Hon as [H0 H1]; [|done]. unfold _record_zero.
  eapply same_bind; [apply pread_exact_run; lia|rewrite pread_exact_run by lia; fold (RECORD_ZERO vol); by rewrite Hg|].
  destruct (negb _); [done|]. apply same_lift. intros fixed. apply same_lift. intros attrs.
  destruct (List.filter _ _) as [|attr [|]]; [done| |done]. by destruct (negb _).
Qed.

Lemma read_mft_record_same {J} vol rs number d d0 :
  stream_ok vol rs -> 0 <= number -> 0 < mft_record_size vol ->
  (number + 1) * mft_record_size vol <= py_len (stream_addrs (cluster_size vol) rs) ->
  let R := span (cluster_size vol) rs (number * mft_record_size vol) (mft_record_size vol) in
  on_device (py_len d) R -> py_len d = py_len d0 -> gather d R = gather d0 R ->
  _read_mft_record (J:=J) vol rs number d = _read_mft_record (J:=J) vol rs number d0.
Proof.
  intros Hs Hn Hsz Hfit R Hon Hl Hg. unfold _read_mft_record. cbv zeta. pose proof Hon as Hon'. rewrite Hl in Hon'.
  eapply same_bind; [apply read_stream_run; (done || nia)|rewrite read_stream_run by (done || nia); fold R; by rewrite Hg|].
  apply same_lift. intros fixed. unfold first_segment. destruct (yielded _); [|done]. by destruct (raised _).
Qed.

(** Reading does not write. *)
Lemma record_zero_trace {J} vol d t x : _record_zero (J:=J) vol d = (t, Ok x) -> t = [].
Proof.
  intros H. unfold _record_zero in H. prog_step H.
  assert (t0 = []) as -> by (unfold _pread_exact in R; prog_step R; unfold os_pread in R0; injection R0 as <- _;
    destruct (negb _) in R; [by apply lift_inv in R as [_ R]|by injection R as <- _]).
  destruct (negb _) in H; [by apply lift_inv in H as [_ H]|]. pure_step H fixed Hf. pure_step H attrs Hattrs.
  destruct (List.filter _ _) as [|attr [|]] in H; try by apply lift_inv in H as [_ H].
  destruct (negb _) in H; [by apply lift_inv in H as [_ H]|]. by injection H as <- _.
Qed.

Lemma read_layout_again {J} vol allow_dirty check_volume d0 t L d :
  _read_layout (J:=J) vol allow_dirty check_volume d0 = (t, Ok L) ->
  0 < mft_record_size vol -> stream_ok vol (mft_runs L) -> stream_ok vol (bitmap_runs L) ->
  7 * mft_record_size vol <= py_len (stream_addrs (cluster_size vol) (mft_runs L)) ->
  0 <= bitmap_data_size L <= py_len (stream_addrs (cluster_size vol) (bitmap_runs L)) ->
  py_len d = py_len d0 -> on_device (py_len d) (RECORD_ZERO vol) ->
  on_device (py_len d) (span (cluster_size vol) (mft_runs L) (3 * mft_record_size vol) (mft_record_size vol)) ->
  on_device (py_len d) (span (cluster_size vol) (mft_runs L) (6 * mft_record_size vol) (mft_record_size vol)) ->
  on_device (py_len d) (span (cluster_size vol) (bitmap_runs L) 0 (bitmap_data_size L)) ->
  gather d (RECORD_ZERO vol) = gather d0 (RECORD_ZERO vol) ->
  gather d (span (cluster_size vol) (mft_runs L) (6 * mft_record_size vol) (mft_record_size vol))
    = gather d0 (span (cluster_size vol) (mft_runs L) (6 * mft_record_size vol) (mft_record_size vol)) ->
  volume L = vol /\ bitmap L = gather d0 (BITMAP L) /\ total_clusters vol <= 8 * bitmap_data_size L /\
  _read_layout (J:=J) vol true false d = ([], Ok (with_bitmap L (gather d (BITMAP L)))).
Proof.
  intros H Hsz Hms Hbs Hmf Hbf Hl Hon0 Hon3 Hon6 HonB Hg0 Hg6.
  unfold _read_layout in H. prog_step H. destruct a as [[raw0 fixed0] mft_attr].
  pose proof (record_zero_trace _ _ _ _ R) as ->. simpl replay in H. rename R into Rzero.
  prog_step H. rename R into Rchk. prog_step H. destruct a0 as [[off6 raw6] fixed6]. rename R into Rsix.
  pure_step H attrs Hat6.
  destruct (List.filter is_data attrs) as [|battr [|]] eqn:Ef in H; try by apply lift_inv in H as [_ H].
  destruct (negb (lowest_vcn battr =? 0)) eqn:Elv in H; [by apply lift_inv in H as [_ H]|].
  prog_step H. rename R into Rbm. destruct (_ <? _) eqn:Elen in H; [by apply lift_inv in H as [_ H]|].
  injection H as <- HL. subst L.
  cbn [volume mft_runs bitmap_runs bitmap_data_size bitmap with_bitmap mft_data_size] in *.
  assert (t = []) as ->.
  { destruct check_volume; [|by injection Rchk as <- _]. apply pbind_inv in Rchk as (u1 & [[x1 x2] x3] & u2 & R & Rchk & ->).
    apply read_mft_record_run in R as (-> & _); [|done|lia|done|lia|by rewrite <- Hl]. simpl replay in Rchk.
    pure_step Rchk fl Hfl. by apply lift_inv in Rchk as [-> _]. }
  simpl replay in Rsix. pose proof Rsix as Rsix'.
  apply read_mft_record_run in Rsix' as (-> & _); [|done|lia|done|lia|by rewrite <- Hl]. simpl replay in Rbm.
  rewrite read_stream_run in Rbm; [|done|lia|lia|lia|by rewrite <- Hl]. injection Rbm as <- <-.
  unfold BITMAP. cbn [volume bitmap_runs bitmap_data_size].
  split; [done|]. split; [done|]. split.
  { bool_to_prop. rewrite py_len_gather in Elen. unfold span in Elen. rewrite py_len_slice in Elen by lia. lia. }
  unfold _read_layout. unfold pbind at 1. rewrite (record_zero_same vol d d0) by done. rewrite Rzero. simpl replay.
  unfold pbind at 1. cbn [pret]. simpl replay. unfold pbind at 1.
  rewrite (read_mft_record_same vol (runs mft_attr) 6 d d0) by (done || lia). rewrite Rsix. simpl replay.
  unfold pbind at 1. unfold lift at 1. rewrite Hat6. simpl replay. rewrite Ef, Elv.
  unfold pbind at 1. rewrite read_stream_run by (done || lia). simpl replay.
  bool_to_prop. rewrite py_len_gather in Elen |- *. rewrite (proj2 (Z.ltb_ge _ _)) by done. done.
Qed.

(** ** The setting of one move *)

Definition SOURCE (L : NtfsLayout) (m : ExtentMove) : list Z := stream_addrs (cluster_size (volume L)) (source_runs m).
Definition TARGET (L : NtfsLayout) (m : ExtentMove) : list Z := stream_addrs (cluster_size (volume L)) (destination_runs m).

(** Everything the move writes. *)
Definition TOUCHED (L : NtfsLayout) (m : ExtentMove) (number : Z) : list Z :=
  TARGET L m ++ RECORD L number ++ RECORD L 3 ++ MIRROR (volume L) ++ BITMAP L.

(** The layout was read from the device, its metadata streams are physical and
    on the device, source, destination and metadata do not overlap, and the
    two preparations of the move succeeded. *)
Record move_ok (vol : Volume) (L : NtfsLayout) (c : Candidate) (m : ExtentMove) (d0 : bytes)
    (new_record : bytes) (v0 v1 m0 m1 : bytes) : Prop := {
  mo_bytes : wf_bytes d0;
  mo_layout : _read_layout (J:=journal_state) vol false true d0 = ([], Ok L);
  mo_vol : volume L = vol;
  mo_sizes : 0 < mft_record_size vol /\ 2 <= bytes_per_sector vol;
  mo_mft : stream_ok vol (mft_runs L);
  mo_bitmap : stream_ok vol (bitmap_runs L);
  mo_number : 0 <= record_number c;
  mo_mft_fit : 7 * mft_record_size vol <= py_len (stream_addrs (cluster_size vol) (mft_runs L)) /\
               (record_number c + 1) * mft_record_size vol <= py_len (stream_addrs (cluster_size vol) (mft_runs L));
  mo_bitmap_fit : 0 <= bitmap_data_size L <= py_len (stream_addrs (cluster_size vol) (bitmap_runs L));
  mo_raw : record_raw c = gather d0 (RECORD L (record_number c));
  mo_new : _updated_record_runs c (new_runs m) (bytes_per_sector vol) = Ok new_record;
  mo_new_len : py_len new_record = mft_record_size vol;
  mo_records : _volume_record_state (J:=journal_state) L d0 = ([], Ok (v0, v1, m0, m1));
  mo_src : Forall physical_run (source_runs m);
  mo_dst : Forall physical_run (destination_runs m);
  mo_len : runs_length (source_runs m) = runs_length (destination_runs m);
  mo_pos : 0 < runs_length (destination_runs m);
  mo_fit : runs_fit (bitmap L) (source_runs m ++ destination_runs m);
  mo_on : on_device (py_len d0) (SOURCE L m ++ TOUCHED L m (record_number c) ++ RECORD_ZERO vol ++ RECORD L 6);
  mo_nodup : NoDup (SOURCE L m ++ TOUCHED L m (record_number c));
  mo_home : Forall (fun a => a ∉ TOUCHED L m (record_number c)) (RECORD_ZERO vol ++ RECORD L 6)
}.

Arguments mo_bytes {vol L c m d0 new_record v0 v1 m0 m1} m.
Arguments mo_layout {vol L c m d0 new_record v0 v1 m0 m1} m.
Arguments mo_vol {vol L c m d0 new_record v0 v1 m0 m1} m.
Arguments mo_sizes {vol L c m d0 new_record v0 v1 m0 m1} m.
Arguments mo_mft {vol L c m d0 new_record v0 v1 m0 m1} m.
Arguments mo_bitmap {vol L c m d0 new_record v0 v1 m0 m1} m.
Arguments mo_number {vol L c m d0 new_record v0 v1 m0 m1} m.
Arguments mo_mft_fit {vol L c m d0 new_record v0 v1 m0 m1} m.
Arguments mo_bitmap_fit {vol L c m d0 new_record v0 v1 m0 m1} m.
Arguments mo_raw {vol L c m d0 new_record v0 v1 m0 m1} m.
Arguments mo_new {vol L c m d0 new_record v0 v1 m0 m1} m.
Arguments mo_new_len {vol L c m d0 new_record v0 v1 m0 m1} m.
Arguments mo_records {vol L c m d0 new_record v0 v1 m0 m1} m.
Arguments mo_src {vol L c m d0 new_record v0 v1 m0 m1} m.
Arguments mo_dst {vol L c m d0 new_record v0 v1 m0 m1} m.
Arguments mo_len {vol L c m d0 new_record v0 v1 m0 m1} m.
Arguments mo_pos {vol L c m d0 new_record v0 v1 m0 m1} m.
Arguments mo_fit {vol L c m d0 new_record v0 v1 m0 m1} m.
Arguments mo_on {vol L c m d0 new_record v0 v1 m0 m1} m.
Arguments mo_nodup {vol L c m d0 new_record v0 v1 m0 m1} m.
Arguments mo_home {vol L c m d0 new_record v0 v1 m0 m1} m.

Section move.
Context (realpath : string -> string) (vol : Volume) (L : NtfsLayout) (c : Candidate) (m : ExtentMove)
        (d0 new_record v0 v1 m0 m1 : bytes).
Hypothesis Hok : move_ok vol L c m d0 new_record v0 v1 m0 m1.
Hypothesis Hreal : realpath (path vol) = path vol.

Local Notation n := (py_len d0).
Local Notation SRC := (SOURCE L m).
Local Notation DST := (TARGET L m).
Local Notation REC := (RECORD L (record_number c)).
Local Notation VOL := (RECORD L 3).
Local Notation MIR := (MIRROR (volume L)).
Local Notation BM := (BITMAP L).
Local Notation B0 := (bitmap L).

Local Lemma Hvol : volume L = vol. Proof. apply (mo_vol Hok). Qed.

Lemma regions_on :
  on_device n SRC /\ on_device n DST /\ on_device n REC /\ on_device n VOL /\ on_device n MIR /\ on_device n BM /\
  on_device n (RECORD_ZERO vol) /\ on_device n (RECORD L 6).
Proof.
  pose proof (mo_on Hok) as H. unfold on_device, TOUCHED in *.
  repeat match goal with H : Forall _ (_ ++ _) |- _ => apply Forall_app in H as [? ?] end. done.
Qed.

Lemma regions_apart :
  NoDup SRC /\ NoDup DST /\ NoDup REC /\ NoDup VOL /\ NoDup MIR /\ NoDup BM /\
  (forall a, a ∈ SRC -> a ∉ DST /\ a ∉ REC /\ a ∉ VOL /\ a ∉ MIR /\ a ∉ BM) /\
  (forall a, a ∈ DST -> a ∉ REC /\ a ∉ VOL /\ a ∉ MIR /\ a ∉ BM) /\
  (forall a, a ∈ REC -> a ∉ VOL /\ a ∉ MIR /\ a ∉ BM) /\
  (forall a, a ∈ VOL -> a ∉ MIR /\ a ∉ BM) /\ (forall a, a ∈ MIR -> a ∉ BM).
Proof.
  pose proof (mo_nodup Hok) as H. unfold TOUCHED in H.
  apply NoDup_app in H as (N1 & H1 & H). apply NoDup_app in H as (N2 & H2 & H). apply NoDup_app in H as (N3 & H3 & H).
  apply NoDup_app in H as (N4 & H4 & H). apply NoDup_app in H as (N5 & H5 & N6).
  do 6 (split; [done|]). split; [|split; [|split; [|split]]]; intros a Ha.
  - specialize (H1 a Ha). rewrite !elem_of_app in H1. tauto.
  - specialize (H2 a Ha). rewrite !elem_of_app in H2. tauto.
  - specialize (H3 a Ha). rewrite !elem_of_app in H3. tauto.
  - specialize (H4 a Ha). rewrite !elem_of_app in H4. tauto.
  - by apply H5.
Qed.

(** Reading the layout from a device that still holds records 0 and 6. *)
Lemma layout_again d :
  py_len d = n -> (forall a, a ∈ RECORD_ZERO vol ++ RECORD L 6 -> peek d a = peek d0 a) ->
  B0 = gather d0 BM /\ py_len B0 = bitmap_data_size L /\
  _read_layout (J:=journal_state) vol true false d = ([], Ok (with_bitmap L (gather d BM))).
Proof.
  intros Hl Hsame. destruct Hok. destruct regions_on as (_ & _ & _ & On3 & _ & OnB & On0 & On6).
  unfold RECORD, BITMAP in On3, On6, OnB. rewrite Hvol in On3, On6, OnB.
  destruct (read_layout_again (J:=journal_state) vol false true d0 [] L d) as (_ & Hb & _ & Hrun); try done; rewrite ?Hl; try done; [tauto|tauto|..].
  { apply gather_ext. intros a Ha. apply Hsame, elem_of_app. by left. }
  { apply gather_ext. intros a Ha. apply Hsame, elem_of_app. right. unfold RECORD. by rewrite Hvol. }
  split; [done|]. split; [|done]. rewrite Hb, py_len_gather. unfold BITMAP, span. rewrite Hvol, py_len_slice; lia.
Qed.

(** ** The bitmap images of the move *)

Local Notation src := (source_runs m).
Local Notation dst := (destination_runs m).
Definition move_ranges : list range := patch_ranges (src ++ dst).
Local Notation prs := move_ranges.

Lemma B0_facts : B0 = gather d0 BM /\ py_len B0 = bitmap_data_size L /\ wf_bytes B0 /\ py_len BM = py_len B0.
Proof.
  destruct (layout_again d0 eq_refl) as (Hb & Hl & _); [done|]. split; [done|]. split; [done|].
  split; [rewrite Hb; apply wf_gather, (mo_bytes Hok)|]. by rewrite Hb, py_len_gather.
Qed.

Lemma fit_bounds rs x : runs_fit B0 rs -> in_runs rs x = true -> 0 <= x < 8 * py_len B0.
Proof.
  intros Hf Hx. unfold in_runs in Hx. apply existsb_exists in Hx as (r & Hr & Hx). apply list_elem_of_In in Hr.
  unfold runs_fit in Hf. rewrite Forall_forall in Hf. specialize (Hf r Hr). unfold in_run in Hx.
  destruct (lcn r) as [l|]; [|done]. apply between_spec in Hx. lia.
Qed.

Lemma prs_fit : ranges_fit (py_len B0) prs.
Proof.
  destruct (patch_ranges_spec (src ++ dst)) as [[Hpos _] Hc]. apply Forall_forall. intros r Hr.
  rewrite Forall_forall in Hpos. specialize (Hpos r Hr).
  assert (forall q, r.1 <= q < r.2 -> 0 <= q < py_len B0) as Hq.
  { intros q Hq. assert (covers (patch_ranges (src ++ dst)) q) as Hcov by (apply Exists_exists; eauto).
    apply Hc in Hcov as (x & Hx & <-). pose proof (fit_bounds _ _ (mo_fit Hok) Hx). pose proof (div8_bounds x). lia. }
  pose proof (Hq r.1 ltac:(lia)). pose proof (Hq (r.2 - 1) ltac:(lia)). lia.
Qed.

Lemma prs_cover i : 0 <= i -> in_runs src i = true \/ in_runs dst i = true -> covers prs (i / 8).
Proof.
  intros Hi Hr. destruct (patch_ranges_spec (src ++ dst)) as [_ Hc]. apply Hc. exists i. split; [|done].
  unfold in_runs in *. rewrite existsb_app. destruct Hr as [-> | ->]; [done|apply orb_true_r].
Qed.

(** A bitmap that differs from the original at most on the clusters of the move. *)
Definition compat (b : bytes) : Prop :=
  wf_bytes b /\ py_len b = py_len B0 /\
  forall i, 0 <= i -> in_runs src i = false -> in_runs dst i = false -> bit_at b i = bit_at B0 i.

(** The bitmap after the move. *)
Definition final_bits (b : bytes) : Prop :=
  wf_bytes b /\ py_len b = py_len B0 /\
  forall i, 0 <= i -> bit_at b i = if in_runs src i then false else if in_runs dst i then true else bit_at B0 i.

Lemma bitmap_ext a b :
  wf_bytes a -> wf_bytes b -> py_len a = py_len b -> (forall i, 0 <= i -> bit_at a i = bit_at b i) -> a = b.
Proof.
  intros Ha Hb Hl H. apply nthZ_ext; [done|]. intros q Hq.
  destruct (lookup_byte a q Ha Hq) as (x & Hx & Hbx). destruct (lookup_byte b q Hb ltac:(lia)) as (y & Hy & Hby).
  unfold nthZ. rewrite Hx, Hy. f_equal. apply byte_ext; [done|done|]. intros k Hk.
  rewrite <- (bit_at_byte a q x k Hx Hk), <- (bit_at_byte b q y k Hy Hk). apply H. lia.
Qed.

Lemma final_bits_unique a b : final_bits a -> final_bits b -> a = b.
Proof. intros (Wa & La & Ba) (Wb & Lb & Bb). apply bitmap_ext; [done|done|lia|]. intros i Hi. by rewrite Ba, Bb. Qed.

Lemma final_compat b : final_bits b -> compat b.
Proof. intros (W & Ln & B). split; [done|]. split; [done|]. intros i Hi Hs Hd. by rewrite B, Hs, Hd. Qed.

Lemma compat_B0 : compat B0.
Proof. destruct B0_facts as (_ & _ & W & _). by split. Qed.

(** Setting the destination and clearing the source from any compatible bitmap. *)
Lemma advance_bitmap b :
  compat b ->
  exists b1 b2, set_runs b dst true = Ok b1 /\ compat b1 /\ set_runs b1 src false = Ok b2 /\ final_bits b2.
Proof.
  intros (W & Ln & B). pose proof (mo_fit Hok) as Hfit. apply Forall_app in Hfit as [Hfs Hfd].
  destruct (set_runs_spec true dst b W) as (b1 & E1 & W1 & L1 & S1); [unfold runs_fit; by rewrite Ln|].
  destruct (set_runs_spec false src b1 W1) as (b2 & E2 & W2 & L2 & S2); [unfold runs_fit; by rewrite L1, Ln|].
  exists b1, b2. split; [done|]. split; [|split; [done|]].
  - split; [done|]. split; [lia|]. intros i Hi Hs Hd. rewrite S1, Hd by done. by apply B.
  - split; [done|]. split; [lia|]. intros i Hi. rewrite S2, S1 by done.
    destruct (in_runs src i) eqn:Es; [done|]. destruct (in_runs dst i) eqn:Ed; [done|]. by apply B.
Qed.

Lemma snapshots_eq : _bitmap_patches_for_runs B0 (src ++ dst) = patches_of B0 prs.
Proof. done. Qed.

Lemma current_eq b : _current_bitmap_patches b (patches_of B0 prs) = patches_of b prs.
Proof. apply current_patches_of, prs_fit. Qed.

(** ** What a device may hold while the journal exists *)

Definition allowed (a v : Z) : Prop :=
  (a ∉ TOUCHED L m (record_number c) -> v = peek d0 a) /\
  (forall i, 0 <= i -> nthZ DST i = Some a -> nthZ (gather d0 SRC) i = Some v) /\
  (forall q, 0 <= q -> nthZ BM q = Some a -> is_byte v /\
     forall k, 0 <= k < 8 -> in_runs src (8 * q + k) = false -> in_runs dst (8 * q + k) = false ->
       Z.testbit v k = bit_at B0 (8 * q + k)).

Definition mid (d : bytes) : Prop := py_len d = n /\ holds allowed d.

Lemma nthZ_elem {A} (l : list A) i x : nthZ l i = Some x -> x ∈ l.
Proof. unfold nthZ. intros H. apply list_elem_of_lookup. eauto. Qed.

Lemma nthZ_inj {A} (l : list A) i j x :
  NoDup l -> 0 <= i -> 0 <= j -> nthZ l i = Some x -> nthZ l j = Some x -> i = j.
Proof. unfold nthZ. intros Hnd Hi Hj H1 H2. pose proof (NoDup_lookup _ _ _ _ Hnd H1 H2). lia. Qed.

Lemma nthZ_lt {A} (l : list A) i x : 0 <= i -> nthZ l i = Some x -> i < py_len l.
Proof. unfold nthZ, py_len. intros Hi H. apply lookup_lt_Some in H. lia. Qed.

Lemma allowed_free a v : a ∈ REC \/ a ∈ VOL \/ a ∈ MIR -> allowed a v.
Proof.
  intros Ha. destruct regions_apart as (_ & _ & _ & _ & _ & _ & _ & AD & AR & AV & AM). split; [|split].
  - intros Hno. exfalso. apply Hno. unfold TOUCHED. rewrite !elem_of_app. tauto.
  - intros i Hi Hd. apply nthZ_elem in Hd. specialize (AD a Hd). tauto.
  - intros q Hq Hb. apply nthZ_elem in Hb. destruct Ha as [H|[H|H]]; [specialize (AR a H)|specialize (AV a H)|specialize (AM a H)]; tauto.
Qed.

Lemma allowed_patch b a v : compat b -> patch_pair BM b prs a v -> allowed a v.
Proof.
  intros (W & Ln & B) (q & Hq & _ & Ha & Hv).
  destruct regions_apart as (_ & _ & _ & _ & _ & NB & _ & AD & _). split; [|split].
  - intros Hno. exfalso. apply Hno. unfold TOUCHED. rewrite !elem_of_app. apply nthZ_elem in Ha. tauto.
  - intros i Hi Hd. apply nthZ_elem in Hd, Ha. specialize (AD a Hd). tauto.
  - intros q' Hq' Ha'. assert (q' = q) as -> by (by eapply (nthZ_inj BM)). split; [by eapply Forall_lookup_1|].
    intros k Hk Hs Hd. rewrite <- B by (done || lia). symmetry. by apply bit_at_byte.
Qed.

Lemma mid_peek d a : mid d -> 0 <= a < n -> allowed a (peek d a).
Proof. intros [Hl Hh] Ha. apply Hh; [lia|]. apply nthZ_peek. lia. Qed.

Lemma bit_at_gather d i a : 0 <= i -> nthZ BM (i / 8) = Some a -> bit_at (gather d BM) i = Z.testbit (peek d a) (i mod 8).
Proof. intros Hi Ha. unfold bit_at, gather. rewrite list_lookup_fmap. unfold nthZ in Ha. by rewrite Ha. Qed.

Lemma mid_bitmap d : mid d -> compat (gather d BM).
Proof.
  intros Hm. destruct B0_facts as (_ & _ & WB & LB). destruct regions_on as (_ & _ & _ & _ & _ & OnB & _).
  assert (forall q a, 0 <= q -> nthZ BM q = Some a -> allowed a (peek d a)) as Hal.
  { intros q a Hq Ha. apply mid_peek; [done|]. unfold on_device in OnB. rewrite Forall_forall in OnB. by apply OnB, (nthZ_elem _ q). }
  split; [|split; [by rewrite py_len_gather|]].
  - apply Forall_forall. intros v Hv. apply list_elem_of_fmap in Hv as (a & -> & Ha).
    apply list_elem_of_lookup in Ha as [i Hi]. specialize (Hal (Z.of_nat i) a ltac:(lia)). unfold nthZ in Hal. rewrite Nat2Z.id in Hal.
    destruct (Hal Hi) as (_ & _ & H3). apply (H3 (Z.of_nat i)); [lia|]. unfold nthZ. by rewrite Nat2Z.id.
  - intros i Hi Hs Hd. pose proof (div8_bounds i). pose proof (Z.mod_pos_bound i 8 ltac:(lia)). pose proof (Z.div_mod i 8 ltac:(lia)).
    destruct (decide (i < 8 * py_len B0)) as [Hlt|Hge].
    + pose proof (nthZ_peek BM (i / 8) ltac:(lia)) as Ha. set (a := peek BM (i / 8)) in *.
      rewrite (bit_at_gather d i a) by done. destruct (Hal (i / 8) a ltac:(lia) Ha) as (_ & _ & H3).
      destruct (H3 (i / 8) ltac:(lia) Ha) as [_ Hbits].
      rewrite (Hbits (i mod 8)); replace (8 * (i / 8) + i mod 8) with i by lia; (done || lia).
    + rewrite !bit_at_out; [done|lia|]. rewrite py_len_gather. lia.
Qed.

Lemma mid_home d a : mid d -> a ∈ RECORD_ZERO vol ++ RECORD L 6 -> peek d a = peek d0 a.
Proof.
  intros Hm Ha. pose proof (mo_home Hok) as Hh. rewrite Forall_forall in Hh. specialize (Hh a Ha).
  destruct regions_on as (_ & _ & _ & _ & _ & _ & On0 & On6).
  assert (0 <= a < n) as Hr.
  { unfold on_device in On0, On6. rewrite Forall_forall in On0, On6. apply elem_of_app in Ha as [?|?]; auto. }
  by apply (mid_peek d a Hm Hr).
Qed.

(** ** The phases *)

Lemma len_record number : 0 <= number -> (number + 1) * mft_record_size vol <= py_len (stream_addrs (cluster_size vol) (mft_runs L)) ->
  py_len (RECORD L number) = mft_record_size vol.
Proof.
  intros Hn Hf. pose proof (mo_sizes Hok). unfold RECORD, span. rewrite Hvol, py_len_slice; nia.
Qed.

Lemma record_run number x d :
  0 <= number -> (number + 1) * mft_record_size vol <= py_len (stream_addrs (cluster_size vol) (mft_runs L)) ->
  py_len x = mft_record_size vol -> py_len d = n -> on_device n (RECORD L number) ->
  exists t, _write_mft_record (J:=journal_state) vol (mft_runs L) number x d = (t, Ok tt) /\ writes n t (RECORD L number) x.
Proof.
  intros Hn Hf Hx Hl Hon. pose proof (mo_sizes Hok) as [Hsz _].
  destruct (write_stream_run (J:=journal_state) vol (mft_runs L) (number * mft_record_size vol) x d (mo_mft Hok)) as (t & Hrun & Hw).
  - nia.
  - nia.
  - rewrite Hl, Hx. unfold RECORD in Hon. by rewrite Hvol in Hon.
  - exists t. split; [done|]. rewrite Hx, Hl in Hw. unfold RECORD. by rewrite Hvol.
Qed.

Lemma volume_run x y d :
  py_len x = mft_record_size vol -> py_len y = mft_record_size vol -> py_len d = n ->
  exists t, _write_volume_records (J:=journal_state) L x y d = (t, Ok tt) /\ writes n t (VOL ++ MIR) (x ++ y).
Proof.
  intros Hx Hy Hl. destruct regions_on as (_ & _ & _ & OnV & OnM & _). pose proof (mo_mft_fit Hok) as [Hf _]. pose proof (mo_sizes Hok) as [Hsz _].
  destruct (record_run 3 x d) as (t1 & Hrun1 & Hw1); [lia|lia|done|done|done|].
  assert (py_len (replay d t1) = n) as Hl1 by (rewrite <- Hl in Hw1; rewrite (writes_len _ _ _ _ Hw1); done).
  unfold MIRROR in OnM. rewrite Hvol in OnM. apply on_device_range in OnM as [HM0 HM1]; [|done].
  destruct (pwrite_exact_run (J:=journal_state) (replay d t1) y (mirror_offset vol)) as (t2 & Hrun2 & Hw2); [lia|lia|].
  exists (t1 ++ t2). split.
  - unfold _write_volume_records, pbind. rewrite Hvol, Hrun1. by rewrite Hrun2.
  - apply writes_app; [exact Hw1| |].
    + rewrite Hl1, Hy in Hw2. unfold MIRROR. rewrite Hvol. exact Hw2.
    + apply Nat2Z.inj. change (py_len VOL = py_len x). rewrite len_record; (done || lia).
Qed.

Lemma patch_run b d :
  compat b -> py_len d = n ->
  exists t, _write_bitmap_patches (J:=journal_state) L (patches_of b prs) d = (t, Ok tt) /\
    Forall (inside n) t /\ Forall (fun e => exists off ch, e = EWrite off ch) t /\ Forall (safe allowed) t /\
    (forall a, 0 <= a -> a ∉ BM -> peek (replay d t) a = peek d a) /\
    (compat (gather d BM) -> gather (replay d t) BM = b).
Proof.
  intros Hb Hl. pose proof Hb as (W & Ln & Bits). destruct B0_facts as (_ & LB & _ & LBM).
  destruct regions_on as (_ & _ & _ & _ & _ & OnB & _). destruct regions_apart as (_ & _ & _ & _ & _ & NB & _).
  destruct (write_patches_run L b prs d) as (t & Hrun & Hin & Hwr & Hp).
  { rewrite Hvol. apply (mo_bitmap Hok). }
  { lia. }
  { rewrite Hvol. apply (mo_bitmap_fit Hok). }
  { rewrite Hl. exact OnB. }
  { rewrite Ln. apply prs_fit. }
  fold BM in Hp. pose proof Hin as Hin'. rewrite Hl in Hin'.
  exists t. split; [done|]. split; [done|]. split; [done|]. split; [apply safe_pairs; intros a v Hv; apply (allowed_patch b); [done|by apply Hp]|].
  split.
  - intros a Ha Hno. apply peek_untouched; [done|done|]. intros v Hv. apply Hp in Hv as (q & _ & _ & Hq & _).
    apply Hno. by eapply nthZ_elem.
  - intros (Wd & Ld & Bd). apply nthZ_ext; [rewrite py_len_gather; lia|]. rewrite py_len_gather. intros q Hq.
    pose proof (nthZ_peek BM q Hq) as Ha. set (a := peek BM q) in *.
    assert (0 <= a) as Ha0. { unfold on_device in OnB. rewrite Forall_forall in OnB. apply (OnB a). by eapply nthZ_elem. }
    assert (forall d', nthZ (gather d' BM) q = Some (peek d' a)) as Hg.
    { intros d'. unfold nthZ, gather in *. rewrite list_lookup_fmap. by rewrite Ha. }
    destruct (lookup_byte b q W ltac:(lia)) as (x & Hx & Hbx). fold (nthZ b q) in Hx. rewrite Hg, Hx. f_equal.
    destruct (covered prs q) eqn:Ec.
    + apply covered_spec in Ec. apply peek_functional; [done|done|apply Hp; exists q; auto with lia|].
      intros v' Hv'. apply Hp in Hv' as (q' & Hq' & _ & Ha' & Hv').
      assert (q' = q) as -> by (eapply (nthZ_inj BM); [done|lia|lia|done|done]). congruence.
    + assert (~ covers prs q) as Hnc by (rewrite <- covered_spec, Ec; done).
      rewrite peek_untouched; [|done|done|].
      2:{ intros v Hv. apply Hp in Hv as (q' & Hq' & Hc & Ha' & _). apply Hnc.
          by replace q with q' by (eapply (nthZ_inj BM); [done|lia|lia|done|done]). }
      destruct (lookup_byte (gather d BM) q Wd ltac:(lia)) as (y & Hy & Hby). fold (nthZ (gather d BM) q) in Hy.
      rewrite Hg in Hy. injection Hy as Hy. rewrite Hy. apply byte_ext; [done|done|]. intros k Hk.
      assert ((8 * q + k) / 8 = q) as Hdiv by (symmetry; apply Z.div_unique with k; lia).
      assert (in_runs src (8 * q + k) = false /\ in_runs dst (8 * q + k) = false) as [Hs Hd].
      { split; [destruct (in_runs src (8 * q + k)) eqn:E|destruct (in_runs dst (8 * q + k)) eqn:E]; try done;
          exfalso; apply Hnc; rewrite <- Hdiv; apply prs_cover; auto with lia. }
      specialize (Hg d). rewrite Hy in Hg.
      rewrite <- (bit_at_byte (gather d BM) q y k Hg Hk), <- (bit_at_byte b q x k Hx Hk).
      rewrite Bd, Bits by (done || lia). done.
Qed.

(** ** The two states a move may leave *)

Definition is_old (d : bytes) : Prop :=
  py_len d = n /\ forall a, 0 <= a < n -> a ∉ DST -> peek d a = peek d0 a.

Definition is_new (d : bytes) : Prop :=
  py_len d = n /\ gather d REC = new_record /\ final_bits (gather d BM) /\ gather d DST = gather d0 SRC /\
  forall a, 0 <= a < n -> a ∉ REC -> a ∉ BM -> a ∉ DST -> peek d a = peek d0 a.

Lemma on_device_elem addrs a : on_device n addrs -> a ∈ addrs -> 0 <= a < n.
Proof. intros H Ha. unfold on_device in H. rewrite Forall_forall in H. by apply H. Qed.

Lemma records_facts :
  v0 = gather d0 VOL /\ m0 = gather d0 MIR /\ py_len v0 = mft_record_size vol /\ py_len m0 = mft_record_size vol /\
  py_len v1 = mft_record_size vol /\ py_len m1 = mft_record_size vol /\ py_len (record_raw c) = mft_record_size vol.
Proof.
  destruct regions_on as (_ & _ & _ & OnV & OnM & _). pose proof (mo_mft_fit Hok) as [Hf Hf']. pose proof (mo_sizes Hok) as [Hsz Hss].
  pose proof (mo_number Hok). rewrite Hvol in OnM.
  destruct (volume_record_state_facts (J:=journal_state) L d0 [] v0 v1 m0 m1) as (_ & H0 & Hm & H1 & H2); rewrite ?Hvol; try done; try lia;
    [apply (mo_bytes Hok)|apply (mo_mft Hok)|apply (mo_records Hok)|].
  rewrite Hvol in *. split; [done|]. split; [done|].
  split; [rewrite H0, py_len_gather, len_record; (done || lia)|].
  split; [rewrite Hm, py_len_gather; unfold MIRROR; rewrite py_len_range; lia|].
  split; [done|]. split; [done|]. rewrite (mo_raw Hok), py_len_gather, len_record; (done || lia).
Qed.

Lemma gather_peek d d' addrs a : gather d addrs = gather d' addrs -> a ∈ addrs -> peek d a = peek d' a.
Proof.
  intros Hg Ha. apply list_elem_of_lookup in Ha as [i Hi]. apply (f_equal (fun l => l !! i)) in Hg. unfold gather in Hg.
  rewrite !list_lookup_fmap, Hi in Hg. simpl in Hg. congruence.
Qed.

(** Restoring the volume records. *)
Lemma volume_restored d (t : list (effect journal_state)) :
  py_len d = n -> writes n t (VOL ++ MIR) (v0 ++ m0) ->
  py_len (replay d t) = n /\
  (forall a, a ∈ VOL \/ a ∈ MIR -> peek (replay d t) a = peek d0 a) /\
  (forall a, 0 <= a -> a ∉ VOL -> a ∉ MIR -> peek (replay d t) a = peek d a).
Proof.
  intros Hl Hw. rewrite <- Hl in Hw. destruct records_facts as (E0 & Em & L0 & Lm & _).
  destruct regions_on as (_ & _ & _ & OnV & OnM & _). destruct regions_apart as (_ & _ & _ & NV & NM & _ & _ & _ & _ & AV & _).
  split; [by rewrite (writes_len _ _ _ _ Hw)|].
  assert (gather (replay d t) (VOL ++ MIR) = gather d0 (VOL ++ MIR)) as Hg.
  { rewrite (gather_app d0), <- E0, <- Em. eapply writes_gather; [exact Hw| | |].
    - apply NoDup_app. split; [done|]. split; [|done]. intros a Ha. apply (AV a Ha).
    - rewrite E0, Em, <- gather_app. unfold gather. by rewrite length_map.
    - rewrite Hl. apply Forall_app_2; done. }
  split.
  - intros a Ha. apply (gather_peek _ _ _ a Hg), elem_of_app. tauto.
  - intros a Ha Hv Hm. eapply writes_elsewhere; [exact Hw|done|]. rewrite elem_of_app. tauto.
Qed.

(** ** Recovery *)

(** The journal of this move, at a given stage. *)
Definition the_journal (stage : string) : journal_state :=
  mkJournal SCHEMA JOURNAL_KIND stage (path vol) (device_size vol) (serial vol) (record_number c) (record_raw c) new_record
    (runs (attribute c)) (Some src) (Some dst) (match dst with r :: _ => default 0 (lcn r) | [] => 0 end)
    (runs_length src) (patches_of B0 prs) v0 v1 m0 m1.

Lemma not_sparse rs : Forall physical_run rs -> existsb is_sparse rs = false.
Proof. induction 1 as [|r rs [Hr _] _ IH]; [done|]. simpl. unfold is_sparse at 1. by rewrite Hr, IH. Qed.

Lemma snapshots_nonempty : patches_of B0 prs <> [].
Proof.
  assert (exists x, in_runs dst x = true) as [x Hx].
  { pose proof (mo_pos Hok) as Hpos. pose proof (mo_dst Hok) as Hd. unfold in_runs. revert Hpos.
    induction Hd as [|r rs [Hp Hl] _ IH]; [done|]. unfold runs_length. simpl. intros Hpos.
    destruct (decide (0 < length_of r)) as [Hr|Hr].
    - unfold is_physical in Hp. destruct (lcn r) as [l|] eqn:El; [|done]. exists l. apply orb_true_iff. left.
      unfold in_run. rewrite El. apply between_spec. lia.
    - destruct IH as [x Hx]; [unfold runs_length; lia|]. exists x. rewrite Hx. apply orb_true_r. }
  assert (covers prs (x / 8)) as Hc.
  { destruct (patch_ranges_spec (src ++ dst)) as [_ Hc]. apply Hc. exists x. split; [|done]. unfold in_runs in *.
    rewrite existsb_app, Hx. apply orb_true_r. }
  unfold patches_of. destruct prs; [by destruct (covers_nil (x / 8))|done].
Qed.

Lemma mid_target d : mid d -> gather d DST = gather d0 SRC.
Proof.
  intros Hm. destruct regions_on as (_ & OnD & _). pose proof (mo_len Hok) as Hlen. destruct (mo_mft Hok) as [Hcs _].
  assert (py_len DST = py_len SRC) as Hl.
  { unfold TARGET, SOURCE. rewrite Hvol, !py_len_stream_addrs; [by rewrite Hlen|done|apply (mo_src Hok)|done|apply (mo_dst Hok)]. }
  apply nthZ_ext; [by rewrite !py_len_gather|]. rewrite py_len_gather. intros i Hi.
  pose proof (nthZ_peek DST i Hi) as Ha. set (a := peek DST i) in *.
  destruct (mid_peek d a Hm) as (_ & Ht & _); [eapply on_device_elem; [exact OnD|by eapply nthZ_elem]|].
  rewrite (Ht i ltac:(lia) Ha). unfold nthZ, gather in *. by rewrite list_lookup_fmap, Ha.
Qed.

Definition no_journal (t : list (effect journal_state)) : Prop := Forall (fun e => match e with EJournal _ => False | _ => True end) t.

Lemma no_journal_after j t : no_journal t -> journal_after j t = j.
Proof. revert j. induction t as [|e t IH]; intros j H; [done|]. apply Forall_cons in H as [He Ht]. simpl. rewrite IH by done. by destruct e. Qed.

Lemma writes_no_journal (t : list (effect journal_state)) : Forall (fun e => exists off ch, e = EWrite off ch) t -> no_journal t.
Proof. intros H. eapply Forall_impl; [exact H|]. by intros e (? & ? & ->). Qed.

(** A trace that keeps a device in [mid], whatever part of it is performed. *)
Definition tame (t : list (effect journal_state)) : Prop := Forall (inside n) t /\ Forall (safe allowed) t /\ no_journal t.

Lemma tame_app t1 t2 : tame t1 -> tame t2 -> tame (t1 ++ t2).
Proof. intros (?&?&?) (?&?&?). repeat split; by apply Forall_app_2. Qed.

Lemma tame_fsync : tame [EFsync].
Proof. repeat split; apply Forall_singleton; done. Qed.

Lemma tame_writes t addrs data :
  writes n t addrs data -> (forall a, a ∈ addrs -> a ∈ REC \/ a ∈ VOL \/ a ∈ MIR) -> tame t.
Proof. intros Hw Hf. pose proof Hw as (_ & Hi & Hj). split; [done|]. split; [eapply writes_safe; [exact Hw|]; intros; by apply allowed_free, Hf|by apply writes_no_journal]. Qed.

Lemma mid_replay d t : mid d -> tame t -> mid (replay d t).
Proof.
  intros [Hl Hh] (Hi & Hs & _). rewrite <- Hl in Hi. split; [by rewrite replay_len|]. by apply holds_replay.
Qed.

(** The forward half of the recovery. *)
Lemma forward_run d :
  mid d -> gather d REC = new_record ->
  exists b1 b2 t, set_runs (gather d BM) dst true = Ok b1 /\ set_runs b1 src false = Ok b2 /\
    _write_bitmap_patches L (patches_of b2 prs) d = (t, Ok tt) /\ tame t /\
    final_bits (gather (replay d t) BM) /\
    (forall a, 0 <= a -> a ∉ BM -> peek (replay d t) a = peek d a).
Proof.
  intros Hm Hrec. pose proof (mid_bitmap d Hm) as Hb. destruct (advance_bitmap _ Hb) as (b1 & b2 & E1 & C1 & E2 & F2).
  destruct (patch_run b2 d (final_compat b2 F2) (proj1 Hm)) as (t & Hrun & Hi & Hw & Hs & Hout & Hbm).
  exists b1, b2, t. split; [done|]. split; [done|]. split; [done|]. split; [split; [done|]; split; [done|by apply writes_no_journal]|].
  split; [by rewrite Hbm|done].
Qed.

(** The backward half. *)
Lemma backward_run d :
  mid d ->
  exists t1 t2, _write_mft_record vol (mft_runs L) (record_number c) (record_raw c) d = (t1, Ok tt) /\
    _write_bitmap_patches L (patches_of B0 prs) (replay d t1) = (t2, Ok tt) /\ tame (t1 ++ t2) /\
    (forall a, a ∈ REC \/ a ∈ BM -> peek (replay d (t1 ++ t2)) a = peek d0 a) /\
    (forall a, 0 <= a -> a ∉ REC -> a ∉ BM -> peek (replay d (t1 ++ t2)) a = peek d a).
Proof.
  intros Hm. destruct regions_on as (_ & _ & OnR & _ & _ & OnB & _). destruct regions_apart as (_ & _ & NR & _ & _ & NB & _ & _ & AR & _).
  destruct records_facts as (_ & _ & _ & _ & _ & _ & Lraw). pose proof (mo_mft_fit Hok) as [_ Hf]. pose proof (mo_number Hok).
  destruct (record_run (record_number c) (record_raw c) d) as (t1 & Hrun1 & Hw1); [done|done|done|apply Hm|done|].
  assert (tame t1) as T1 by (eapply tame_writes; [exact Hw1|]; tauto). pose proof (mid_replay d t1 Hm T1) as Hm1.
  destruct (patch_run B0 (replay d t1) compat_B0 (proj1 Hm1)) as (t2 & Hrun2 & Hi2 & Hwr2 & Hs2 & Hout & Hbm).
  specialize (Hbm (mid_bitmap _ Hm1)).
  assert (tame t2) as T2 by (split; [done|]; split; [done|by apply writes_no_journal]).
  exists t1, t2. split; [done|]. split; [done|]. split; [by apply tame_app|]. rewrite replay_app.
  rewrite <- (proj1 Hm) in Hw1.
  assert (gather (replay d t1) REC = gather d0 REC) as Hg.
  { rewrite <- (mo_raw Hok). eapply writes_gather; [exact Hw1|done| |by rewrite (proj1 Hm)].
    rewrite (mo_raw Hok). unfold gather. by rewrite length_map. }
  split.
  - intros a [Ha|Ha].
    + rewrite Hout; [by apply (gather_peek _ _ _ _ Hg)|by eapply (on_device_elem REC)|apply (AR a Ha)].
    + destruct B0_facts as (HB & _). rewrite HB in Hbm. by apply (gather_peek _ _ _ _ Hbm).
  - intros a Ha HR HB. rewrite Hout by done. by eapply writes_elsewhere.
Qed.

Lemma recover_run d stage :
  mid d ->
  exists t, recover realpath vol (the_journal stage) d = (t ++ [EFsync; EJournal None], Ok 0) /\ tame t /\
    (is_old (replay d t) \/ is_new (replay d t)).
Proof.
  intros Hm. destruct (layout_again d (proj1 Hm)) as (_ & _ & Hlay); [intros a Ha; by apply mid_home|].
  destruct records_facts as (E0 & Em & Lv0 & Lm0 & _ & _ & Lraw).
  destruct regions_on as (_ & OnD & OnR & OnV & OnM & OnB & _). destruct regions_apart as (_ & _ & _ & _ & _ & _ & _ & AD & AR & AV & AM).
  pose proof (mo_mft_fit Hok) as [_ Hf]. pose proof (mo_number Hok) as Hn. pose proof (mo_sizes Hok) as [Hsz _].
  set (L' := with_bitmap L (gather d BM)) in *.
  assert (Hcur : _read_stream (J:=journal_state) vol (mft_runs L) (record_number c * mft_record_size vol) (mft_record_size vol) d
                 = ([], Ok (gather d REC))).
  { rewrite read_stream_run; [unfold RECORD; by rewrite Hvol|apply (mo_mft Hok)|nia|lia|nia|].
    rewrite (proj1 Hm). unfold RECORD in OnR. by rewrite Hvol in OnR. }
  (* the common tail: restore the volume records *)
  assert (Htail : forall d1, mid d1 -> exists t, _write_volume_records (J:=journal_state) L v0 m0 d1 = (t, Ok tt) /\ tame t /\
      (forall a, a ∈ VOL \/ a ∈ MIR -> peek (replay d1 t) a = peek d0 a) /\
      (forall a, 0 <= a -> a ∉ VOL -> a ∉ MIR -> peek (replay d1 t) a = peek d1 a)).
  { intros d1 Hm1. destruct (volume_run v0 m0 d1 Lv0 Lm0 (proj1 Hm1)) as (t & Hrun & Hw).
    destruct (volume_restored d1 t (proj1 Hm1) Hw) as (_ & Hin & Hout). exists t. split; [done|]. split; [|done].
    eapply tame_writes; [exact Hw|]. intros a Ha. apply elem_of_app in Ha. tauto. }
  (* the head up to the decision *)
  assert (Hhead : forall (body : nprog unit) d1 tb,
      (if bool_decide (gather d REC = new_record) then
         let* b1 := lift (set_runs (gather d BM) dst true) in
         let* b2 := lift (set_runs b1 src false) in
         _write_bitmap_patches L (_current_bitmap_patches b2 (patches_of B0 prs)) ;;* os_fsync
       else
         _write_mft_record vol (mft_runs L) (record_number c) (record_raw c) ;;*
         _write_bitmap_patches L (patches_of B0 prs) ;;* os_fsync) d = (tb ++ [EFsync], Ok tt) ->
      replay d tb = d1 -> mid d1 -> forall tv, _write_volume_records L v0 m0 d1 = (tv, Ok tt) ->
      recover realpath vol (the_journal stage) d = ((tb ++ [EFsync] ++ tv) ++ [EFsync; EJournal None], Ok 0)).
  { intros _ d1 tb Hbody Hd1 Hmd1 tv Htv. unfold recover. unfold pbind at 1. rewrite Hlay. simpl replay. cbn [app].
    unfold _recover_loaded. unfold pbind at 1.
    assert (_validate_identity realpath L' (the_journal stage) = Ok tt) as ->.
    { unfold _validate_identity. cbn [j_device j_device_size j_serial the_journal volume with_bitmap L']. rewrite Hvol, Hreal.
      rewrite !bool_decide_eq_true_2, Z.eqb_refl by done. done. }
    unfold lift at 1. simpl replay. cbn [app j_record_before j_record_after j_record_number j_bitmap_before the_journal].
    change (volume L') with (volume L). change (mft_runs L') with (mft_runs L). change (bitmap L') with (gather d BM). rewrite Hvol.
    rewrite Lraw, (mo_new_len Hok), Z.eqb_refl. cbn [negb orb]. unfold pbind at 1. rewrite Hcur. simpl replay. cbn [app].
    assert (_affected_runs (the_journal stage) = Ok (src, dst)) as ->.
    { unfold _affected_runs. cbn [j_released_runs j_destination_runs the_journal default from_option id].
      rewrite !not_sparse by (apply (mo_src Hok) || apply (mo_dst Hok)). rewrite (mo_len Hok), Z.eqb_refl. done. }
    unfold pbind at 1. unfold lift at 1. simpl replay. cbn [app].
    rewrite bool_decide_eq_false_2 by apply snapshots_nonempty.
    unfold pbind at 1. change (_write_bitmap_patches L') with (_write_bitmap_patches (J:=journal_state) L). rewrite Hbody.
    rewrite replay_app, Hd1. simpl replay. cbn [j_volume_before j_mirror_before the_journal].
    rewrite Lv0, Lm0, Z.eqb_refl. cbn [negb orb]. unfold pbind at 1.
    change (_write_volume_records L') with (_write_volume_records (J:=journal_state) L). rewrite Htv. unfold pbind, os_fsync, put_journal, pret. cbn [app]. by rewrite <- !app_assoc. }
  destruct (decide (gather d REC = new_record)) as [Hrec|Hrec].
  - destruct (forward_run d Hm Hrec) as (b1 & b2 & tb & Eb1 & Eb2 & Hrun & Tb & Hfin & Hout).
    pose proof (mid_replay d tb Hm Tb) as Hm1. destruct (Htail _ Hm1) as (tv & Hrunv & Tv & Hvin & Hvout).
    exists (tb ++ [EFsync] ++ tv). split; [|split].
    + apply (Hhead (pret tt) (replay d tb) tb); [|done|done|done]. rewrite bool_decide_eq_true_2 by done.
      unfold pbind, lift. rewrite Eb1. simpl replay. rewrite Eb2. simpl replay. rewrite current_eq, Hrun. done.
    + apply tame_app; [done|]. apply tame_app; [apply tame_fsync|done].
    + right. rewrite replay_app. change (replay (replay d tb) ([EFsync] ++ tv)) with (replay (replay d tb) tv).
      pose proof (mid_replay _ tv Hm1 Tv) as Hm2. split; [apply Hm2|]. split; [|split; [|split]].
      * rewrite <- Hrec. apply gather_ext. intros a Ha. pose proof (on_device_elem _ _ OnR Ha). destruct (AR a Ha) as (?&?&?).
        rewrite Hvout, Hout by (done || lia). done.
      * replace (gather (replay (replay d tb) tv) BM) with (gather (replay d tb) BM); [done|]. symmetry. apply gather_ext.
        intros a Ha. pose proof (on_device_elem _ _ OnB Ha). apply Hvout; [lia|intros Hv; by destruct (AV a Hv)|intros Hv; by destruct (AM a Hv)].
      * by apply mid_target.
      * intros a Ha HR HB HD. destruct (decide (a ∈ VOL \/ a ∈ MIR)) as [Hv|Hv]; [by apply Hvin|].
        rewrite Hvout, Hout by (tauto || lia). apply (mid_peek d a Hm Ha). unfold TOUCHED. rewrite !elem_of_app. tauto.
  - destruct (backward_run d Hm) as (t1 & t2 & Hrun1 & Hrun2 & Tb & Hin & Hout).
    pose proof (mid_replay d (t1 ++ t2) Hm Tb) as Hm1. destruct (Htail _ Hm1) as (tv & Hrunv & Tv & Hvin & Hvout).
    exists ((t1 ++ t2) ++ [EFsync] ++ tv). split; [|split].
    + apply (Hhead (pret tt) (replay d (t1 ++ t2)) (t1 ++ t2)); [|done|done|done]. rewrite bool_decide_eq_false_2 by done.
      unfold pbind. rewrite Hrun1, Hrun2. by rewrite <- app_assoc.
    + apply tame_app; [done|]. apply tame_app; [apply tame_fsync|done].
    + left. rewrite replay_app. change (replay ?x ([EFsync] ++ tv)) with (replay x tv).
      pose proof (mid_replay _ tv Hm1 Tv) as Hm2. split; [apply Hm2|]. intros a Ha HD.
      destruct (decide (a ∈ VOL \/ a ∈ MIR)) as [Hv|Hv]; [by apply Hvin|]. rewrite Hvout by (tauto || lia).
      destruct (decide (a ∈ REC \/ a ∈ BM)) as [Hb|Hb]; [by apply Hin|]. rewrite Hout by (tauto || lia).
      apply (mid_peek d a Hm Ha). unfold TOUCHED. rewrite !elem_of_app. tauto.
Qed.

(** ** The move *)

(** A trace that keeps [mid] and journals only stages of this move. *)
Definition staged (t : list (effect journal_state)) : Prop :=
  Forall (inside n) t /\ Forall (safe allowed) t /\
  Forall (fun e => match e with EJournal j => exists stage, j = Some (the_journal stage) | _ => True end) t.

Lemma staged_app t1 t2 : staged t1 -> staged t2 -> staged (t1 ++ t2).
Proof. intros (?&?&?) (?&?&?). repeat split; by apply Forall_app_2. Qed.

Lemma staged_tame t : tame t -> staged t.
Proof. intros (?&?&Hj). split; [done|]. split; [done|]. eapply Forall_impl; [exact Hj|]. by intros []. Qed.

Lemma staged_mark stage : staged [EFsync; EJournal (Some (the_journal stage))].
Proof. repeat split; repeat (apply Forall_cons; split); try apply Forall_nil; try done; eauto. Qed.

Lemma mid_staged d t : mid d -> staged t -> mid (replay d t).
Proof. intros [Hl Hh] (Hi & Hs & _). rewrite <- Hl in Hi. split; [by rewrite replay_len|]. by apply holds_replay. Qed.

Lemma copied_mid (tc : list (effect journal_state)) : writes n tc DST (gather d0 SRC) -> mid (replay d0 tc).
Proof.
  intros Hw. destruct regions_on as (_ & OnD & _). destruct regions_apart as (_ & ND & _ & _ & _ & _ & _ & AD & _).
  destruct (mo_mft Hok) as [Hcs _]. split; [by apply (writes_len _ _ _ _ Hw)|].
  assert (py_len DST = py_len (gather d0 SRC)) as Hlen.
  { unfold TARGET, SOURCE. rewrite py_len_gather, Hvol, !py_len_stream_addrs; [by rewrite (mo_len Hok)|done|apply (mo_src Hok)|done|apply (mo_dst Hok)]. }
  assert (gather (replay d0 tc) DST = gather d0 SRC) as Hg
    by (eapply writes_gather; [exact Hw|done|unfold py_len in Hlen; lia|done]).
  intros a v Ha Hv. assert (v = peek (replay d0 tc) a) as -> by (unfold peek; by rewrite Hv).
  split; [|split].
  - intros Hno. eapply writes_elsewhere; [exact Hw|done|]. intros Hd. apply Hno. unfold TOUCHED. rewrite !elem_of_app. tauto.
  - intros i Hi Hd. rewrite <- Hg. unfold nthZ, gather in *. by rewrite list_lookup_fmap, Hd.
  - intros q Hq Hb. assert (a ∉ DST) as Hnd by (intros Hd; apply nthZ_elem in Hb; destruct (AD a Hd) as (_ & _ & _ & ?); done).
    rewrite (writes_elsewhere _ _ _ _ _ Hw) by done. destruct B0_facts as (HB & _ & WB & _).
    assert (nthZ B0 q = Some (peek d0 a)) as Hn by (rewrite HB; unfold nthZ, gather in *; by rewrite list_lookup_fmap, Hb).
    split; [by eapply Forall_lookup_1|]. intros k Hk _ _. symmetry. by apply bit_at_byte.
Qed.

Lemma journal_state_run :
  _journal_state L c 0 new_record (_bitmap_patches_for_runs B0 (src ++ dst)) (v0, v1, m0, m1) "copied" src dst = Ok (the_journal "copied").
Proof.
  unfold _journal_state. rewrite (mo_len Hok), Z.eqb_refl. cbn [negb]. unfold the_journal. rewrite Hvol, snapshots_eq, (mo_len Hok).
  pose proof (mo_pos Hok) as Hpos. pose proof (mo_dst Hok) as Hd. destruct dst as [|r rest]; [done|].
  apply Forall_cons in Hd as [[Hp _] _]. unfold is_physical in Hp. destruct (lcn r) as [l|]; [|done]. done.
Qed.

(** The run of the whole move, phase by phase. *)
Lemma move_run :
  exists tc tv tb1 tr tb2 tw b2,
    _move_extent L c m d0 =
      (tc ++ EFsync :: EJournal (Some (the_journal "copied")) ::
         (tv ++ [EFsync; EJournal (Some (the_journal "volume-dirty"))] ++
          tb1 ++ [EFsync; EJournal (Some (the_journal "destination-allocated"))] ++
          tr ++ [EFsync; EJournal (Some (the_journal "metadata-switched"))] ++
          tb2 ++ [EFsync; EJournal (Some (the_journal "old-released"))] ++ tw) ++
         [EFsync; EJournal (Some (the_journal "volume-clean")); EJournal None], Ok b2) /\
    writes n tc DST (gather d0 SRC) /\ tame tv /\ tame tb1 /\ tame tr /\ tame tb2 /\ tame tw /\ final_bits b2 /\
    gather (replay (replay (replay (replay (replay (replay d0 tc) tv) tb1) tr) tb2) tw) BM = b2 /\
    is_new (replay (replay (replay (replay (replay (replay d0 tc) tv) tb1) tr) tb2) tw).
Proof.
  destruct records_facts as (E0 & Em & Lv0 & Lm0 & Lv1 & Lm1 & _).
  destruct regions_on as (OnS & OnD & OnR & OnV & OnM & OnB & _). destruct regions_apart as (_ & ND & NR & _ & _ & _ & AS & AD & AR & AV & AM).
  pose proof (mo_mft_fit Hok) as [_ Hf]. pose proof (mo_number Hok) as Hn. destruct (mo_mft Hok) as [Hcs _].
  destruct (copy_run_sequences_run vol src dst d0 Hcs (mo_src Hok) (mo_dst Hok) (mo_len Hok)) as (tc & Hrunc & Hwc).
  { unfold SOURCE in OnS. by rewrite Hvol in OnS. }
  { unfold TARGET in OnD. by rewrite Hvol in OnD. }
  { intros a Ha. pose proof (AS a) as H. unfold SOURCE, TARGET in H. rewrite Hvol in H. apply H. done. }
  assert (writes n tc DST (gather d0 SRC)) as Hwc' by (unfold TARGET, SOURCE; by rewrite Hvol). clear Hwc.
  pose proof (copied_mid tc Hwc') as M1.
  assert (Hfree : forall x y t, writes n t (VOL ++ MIR) (x ++ y) -> tame t)
    by (intros x y t Hw; eapply tame_writes; [exact Hw|]; intros a Ha; apply elem_of_app in Ha; tauto).
  destruct (volume_run v1 m1 _ Lv1 Lm1 (proj1 M1)) as (tv & Hrunv & Hwv). pose proof (Hfree _ _ _ Hwv) as Tv.
  pose proof (mid_replay _ _ M1 Tv) as M2.
  destruct (advance_bitmap B0 compat_B0) as (b1 & b2 & Eb1 & C1 & Eb2 & F2).
  destruct (patch_run b1 _ C1 (proj1 M2)) as (tb1 & Hrunb1 & Ib1 & Wb1 & Sb1 & _ & _).
  assert (tame tb1) as Tb1 by (split; [done|]; split; [done|by apply writes_no_journal]). pose proof (mid_replay _ _ M2 Tb1) as M3.
  destruct (record_run (record_number c) new_record _ Hn Hf (mo_new_len Hok) (proj1 M3) OnR) as (tr & Hrunr & Hwr).
  assert (tame tr) as Tr by (eapply tame_writes; [exact Hwr|]; tauto). pose proof (mid_replay _ _ M3 Tr) as M4.
  destruct (patch_run b2 _ (final_compat b2 F2) (proj1 M4)) as (tb2 & Hrunb2 & Ib2 & Wb2 & Sb2 & Outb2 & Bm2).
  assert (tame tb2) as Tb2 by (split; [done|]; split; [done|by apply writes_no_journal]). pose proof (mid_replay _ _ M4 Tb2) as M5.
  destruct (volume_run v0 m0 _ Lv0 Lm0 (proj1 M5)) as (tw & Hrunw & Hww). pose proof (Hfree _ _ _ Hww) as Tw.
  pose proof (mid_replay _ _ M5 Tw) as M6. destruct (volume_restored _ tw (proj1 M5) Hww) as (_ & Vin & Vout).
  assert (gather (replay (replay (replay (replay (replay (replay d0 tc) tv) tb1) tr) tb2) tw) BM = b2) as Hb2.
  { etransitivity; [|exact (Bm2 (mid_bitmap _ M4))]. apply gather_ext. intros a Ha. pose proof (on_device_elem _ _ OnB Ha).
    apply Vout; [lia|intros Hv; by destruct (AV a Hv)|intros Hv; by destruct (AM a Hv)]. }
  exists tc, tv, tb1, tr, tb2, tw, b2. split; [|do 8 (split; [done|])].
  - unfold _move_extent. rewrite Hvol. unfold pbind, lift, os_fsync, put_journal, pret. rewrite (mo_new Hok). simpl replay.
    rewrite (mo_records Hok). simpl replay. rewrite Hrunc. rewrite journal_state_run. rewrite replay_app. simpl replay.
    rewrite Hrunv. simpl replay. rewrite Eb1. simpl replay. rewrite snapshots_eq, current_eq, Hrunb1. simpl replay.
    rewrite Hrunr. simpl replay. rewrite Eb2. simpl replay. rewrite current_eq, Hrunb2. simpl replay. rewrite Hrunw.
    cbn [app]. repeat (rewrite <- !app_assoc; cbn [app]). done.
  - split; [apply M6|]. split; [|split; [|split]].
    + rewrite <- (proj1 M3) in Hwr.
      assert (gather (replay (replay (replay (replay d0 tc) tv) tb1) tr) REC = new_record) as Hg.
      { eapply writes_gather; [exact Hwr|done| |by rewrite (proj1 M3)].
        pose proof (mo_new_len Hok) as Hnl. pose proof (len_record (record_number c) Hn Hf) as Hlr. unfold py_len in *. lia. }
      etransitivity; [|exact Hg]. apply gather_ext. intros a Ha. pose proof (on_device_elem _ _ OnR Ha). destruct (AR a Ha) as (? & ? & ?).
      rewrite Vout, Outb2 by (done || lia). done.
    + by rewrite Hb2.
    + by apply mid_target.
    + intros a Ha HR HB HD. destruct (decide (a ∈ VOL \/ a ∈ MIR)) as [Hv|Hv]; [by apply Vin|].
      apply (mid_peek _ a M6 Ha). unfold TOUCHED. rewrite !elem_of_app. tauto.
Qed.

(** ** Crashes *)

(** A device and a journal file that power failures can leave: at any instant
    of the move, then at any instant of any number of recoveries. *)
Inductive reach : bytes -> option journal_state -> Prop :=
  | reach_move p s r d :
      _move_extent L c m d0 = (p ++ s, r) -> crash d0 p d -> reach d (journal_after None p)
  | reach_recovery d j p s r d' :
      reach d (Some j) -> recover realpath vol j d = (p ++ s, r) -> crash d p d' -> reach d' (journal_after (Some j) p).

Definition crash_inv (d : bytes) (j : option journal_state) : Prop :=
  match j with
  | None => is_old d \/ is_new d
  | Some state => mid d /\ exists stage, state = the_journal stage
  end.

Lemma mid_crash d (t : list (effect journal_state)) d' : mid d -> Forall (inside n) t -> Forall (safe allowed) t -> crash d t d' -> mid d'.
Proof.
  intros [Hl Hh] Hi Hs Hc. rewrite <- Hl in Hi. split; [rewrite <- Hl; by destruct Hc|]. by eapply holds_crash.
Qed.

Lemma staged_after t stage :
  staged t -> exists stage', journal_after (Some (the_journal stage)) t = Some (the_journal stage').
Proof.
  revert stage. induction t as [|e t IH]; intros stage (Hi & Hs & Hj); [by eexists|].
  apply Forall_cons in Hi as [_ Hi]. apply Forall_cons in Hs as [_ Hs]. apply Forall_cons in Hj as [He Hj].
  destruct e as [| |j]; cbn [journal_after fold_left journal_step]; [by apply IH..|]. destruct He as (stage' & ->). by apply IH.
Qed.

Lemma staged_prefix p s t : t = p ++ s -> staged t -> staged p.
Proof. intros -> (Hi & Hs & Hj). split; [|split]; by eapply Forall_prefix. Qed.

(** A crash while the data are copied touches nothing but free clusters. *)
Lemma copy_crash_old (tc p s : list (effect journal_state)) d :
  writes n tc DST (gather d0 SRC) -> tc ++ [EFsync] = p ++ s -> crash d0 p d -> is_old d.
Proof.
  intros (Hp & Hi & Hwr) Heq Hc. split; [by destruct Hc|]. intros a Ha Hno.
  assert (holds (fun a v => a ∉ DST -> v = peek d0 a) d) as Hh.
  { eapply (holds_crash _ d0 p d); [| | |exact Hc].
    - eapply Forall_prefix; [exact Heq|]. apply Forall_app_2; [done|by constructor].
    - intros b v Hb Hv _. unfold peek. by rewrite Hv.
    - eapply Forall_prefix; [exact Heq|]. apply Forall_app_2; [|apply Forall_singleton; by intros ? ? []]. by eapply writes_safe. }
  apply Hh; [lia| |done]. apply nthZ_peek. destruct Hc as [-> _]. done.
Qed.

(** The run in three parts: the copy, the journalled updates, the commit. *)
Lemma move_summary :
  exists tc body b2,
    _move_extent L c m d0 =
      ((tc ++ [EFsync]) ++ EJournal (Some (the_journal "copied")) :: (body ++ [EFsync; EJournal (Some (the_journal "volume-clean"))]) ++ [EJournal None], Ok b2) /\
    writes n tc DST (gather d0 SRC) /\ staged body /\ final_bits b2 /\
    gather (replay (replay d0 tc) body) BM = b2 /\ is_new (replay (replay d0 tc) body).
Proof.
  destruct move_run as (tc & tv & tb1 & tr & tb2 & tw & b2 & Hmove & Hwc & Tv & Tb1 & Tr & Tb2 & Tw & Hb2 & Hbm & Hnew).
  exists tc, (tv ++ [EFsync; EJournal (Some (the_journal "volume-dirty"))] ++
          tb1 ++ [EFsync; EJournal (Some (the_journal "destination-allocated"))] ++
          tr ++ [EFsync; EJournal (Some (the_journal "metadata-switched"))] ++
          tb2 ++ [EFsync; EJournal (Some (the_journal "old-released"))] ++ tw), b2.
  rewrite Hmove. split; [repeat (rewrite <- !app_assoc; cbn [app]); done|]. split; [done|].
  split; [repeat (first [apply staged_tame; done | apply staged_mark | apply staged_app])|].
  rewrite !replay_app. done.
Qed.

(** A prefix of the move's trace. *)
Lemma move_prefix p s r :
  _move_extent L c m d0 = (p ++ s, r) ->
  exists tc, writes n tc DST (gather d0 SRC) /\
    ((exists s', tc ++ [EFsync] = p ++ s') \/
     (exists q, p = (tc ++ [EFsync]) ++ EJournal (Some (the_journal "copied")) :: q /\ staged q) \/
     (exists q, p = (tc ++ [EFsync]) ++ (EJournal (Some (the_journal "copied")) :: q) ++ [EFsync; EJournal (Some (the_journal "volume-clean")); EJournal None]
        /\ staged q /\ is_new (replay (replay d0 tc) q))).
Proof.
  intros Hrun. destruct move_summary as (tc & body & b2 & Hmove & Hwc & Hbody & _ & _ & Hnew).
  assert (p ++ s = (tc ++ [EFsync]) ++ EJournal (Some (the_journal "copied")) :: (body ++ [EFsync; EJournal (Some (the_journal "volume-clean"))]) ++ [EJournal None])
    as Heq by congruence. clear Hrun Hmove. exists tc. split; [done|].
  apply prefix_app in Heq as [(s' & Hp)|([|e q] & -> & Hq)]; [left; eauto|left; exists []; by rewrite !app_nil_r|].
  right. rewrite <- app_comm_cons in Hq. assert (e = EJournal (Some (the_journal "copied"))) as -> by congruence.
  assert (q ++ s = (body ++ [EFsync; EJournal (Some (the_journal "volume-clean"))]) ++ [EJournal None]) as Hq' by congruence.
  apply prefix_snoc in Hq' as [(s' & Hp)| ->].
  - left. exists q. split; [done|]. eapply staged_prefix; [exact Hp|]. apply staged_app; [done|apply staged_mark].
  - right. exists body. split; [|done]. by rewrite <- !app_assoc.
Qed.

Lemma move_crash p s r d : _move_extent L c m d0 = (p ++ s, r) -> crash d0 p d -> crash_inv d (journal_after None p).
Proof.
  intros Hrun Hc. destruct (move_prefix p s r Hrun) as (tc & Hwc & Hp). pose proof Hwc as (_ & Htc & Hjc).
  pose proof (copied_mid tc Hwc) as Hm. destruct Hp as [(s' & Hp)|[(q & -> & Hq)|(q & -> & Hq & Hnew)]].
  - rewrite (no_journal_after None p); [left; by eapply copy_crash_old|]. eapply Forall_prefix; [exact Hp|].
    apply Forall_app_2; [by apply writes_no_journal|by constructor].
  - rewrite journal_after_app. rewrite <- app_assoc in Hc. apply crash_after_fsync in Hc; [|done].
    destruct (staged_after q "copied" Hq) as (stage & Hst). change (journal_after ?j (EJournal ?x :: q)) with (journal_after x q).
    rewrite Hst. split; [|eauto]. destruct Hq as (Hi & Hs & _). eapply mid_crash; [exact Hm| | |exact Hc]; constructor; (done || by intros ? ? []).
  - rewrite !journal_after_app. cbn [journal_after fold_left journal_step]. right.
    rewrite <- app_assoc in Hc. apply crash_after_fsync in Hc; [|done].
    apply crash_after_fsync in Hc; [|rewrite (writes_len _ _ _ _ Hwc); constructor; [done|apply Hq]].
    apply crash_quiet in Hc as ->; [done|]. by repeat constructor.
Qed.

Lemma recovery_crash d stage p s r d' :
  mid d -> recover realpath vol (the_journal stage) d = (p ++ s, r) -> crash d p d' ->
  crash_inv d' (journal_after (Some (the_journal stage)) p).
Proof.
  intros Hm Hrun Hc. destruct (recover_run d stage Hm) as (t & Hrec & Ht & Hend).
  assert (p ++ s = (t ++ [EFsync]) ++ [EJournal None]) as Heq by (rewrite <- app_assoc; cbn [app]; congruence).
  apply prefix_snoc in Heq as [(s' & Hp)| ->].
  - assert (tame p) as (Hi & Hs & Hj).
    { pose proof (tame_app t [EFsync] Ht tame_fsync) as (Hi & Hs & Hj). split; [|split]; by eapply Forall_prefix. }
    rewrite no_journal_after by done. split; [|eauto]. by eapply mid_crash.
  - rewrite journal_after_app. rewrite <- app_assoc in Hc. cbn [journal_after fold_left journal_step].
    apply crash_after_fsync in Hc; [|rewrite (proj1 Hm); apply Ht]. apply crash_quiet in Hc as ->; [done|]. by repeat constructor.
Qed.

Lemma reach_inv d j : reach d j -> crash_inv d j.
Proof.
  induction 1 as [p s r d Hrun Hc|d j p s r d' _ [Hm [stage ->]] Hrun Hc]; [by eapply move_crash|by eapply recovery_crash].
Qed.
End move.

Arguments is_old : clear implicits.
Arguments is_new : clear implicits.

(** ** A small volume *)

(** Twenty-four clusters of 128 bytes: the MFT in clusters 1 to 8, its mirror in
    9 to 12, the bitmap in 13; record 7 is a file in clusters 20 and 21. *)
Definition sample_vol : Volume := mkVolume "/dev/sample" 3072 64 2 128 24 1 9 128 [1; 2; 3; 4; 5; 6; 7; 8].

Definition sample_header : bytes :=
  fold_left poke [(0, [70; 73; 76; 69]); (4, [42; 0]); (6, [3; 0]); (20, [48; 0]); (22, [1; 0]); (24, [124; 0; 0; 0]);
                  (28, [128; 0; 0; 0])] (py_zeros 128).

Definition sample_stream (clusters size : Z) (mapping : bytes) : bytes :=
  fold_left poke [(48, [128; 0; 0; 0]); (52, [72; 0; 0; 0]); (56, [1]); (72, le_digits 8 (clusters - 1)); (80, [64; 0]);
                  (88, le_digits 8 (clusters * 128)); (96, le_digits 8 size); (104, le_digits 8 size); (112, mapping);
                  (120, [255; 255; 255; 255])] sample_header.

Definition sample_volume_record : bytes :=
  fold_left poke [(48, [112; 0; 0; 0]); (52, [40; 0; 0; 0]); (64, [12; 0; 0; 0]); (68, [24; 0]); (88, [255; 255; 255; 255])] sample_header.

Definition sealed (fixed : bytes) : bytes := match _prepare_fixups fixed 64 with Ok raw => raw | Raise _ => [] end.

Definition sample_file : bytes := sample_stream 2 200 [17; 2; 20].

Definition sample_device : bytes :=
  py_zeros 128 ++
  sealed (sample_stream 8 1024 [17; 8; 1]) ++ sealed sample_header ++ sealed sample_header ++ sealed sample_volume_record ++
  sealed sample_header ++ sealed sample_header ++ sealed (sample_stream 1 3 [17; 1; 13]) ++ sealed sample_file ++
  py_zeros 384 ++ sealed sample_volume_record ++
  ([255; 63; 48] ++ py_zeros 125) ++ py_zeros 768 ++ map (fun i => i mod 251) (py_range 0 256) ++ py_zeros 256.

Definition sample_layout : NtfsLayout :=
  mkLayout sample_vol [mkRun (Some 1) 8] 1024 [mkRun (Some 13) 1] 3 [255; 63; 48].

Definition sample_file_attribute : Attribute :=
  mkAttribute 48 72 128 [] 0 true 0 1 64 [mkRun (Some 20) 2] 200 256 200.

Definition sample_owner : Candidate := mkCandidate 7 1024 (sealed sample_file) sample_file sample_file_attribute.

Definition sample_move : ExtentMove := mkMove [mkRun (Some 20) 2] [mkRun (Some 14) 2] [mkRun (Some 14) 2].

Definition sample_new_record : bytes :=
  match _updated_record_runs sample_owner (new_runs sample_move) 64 with Ok r => r | Raise _ => [] end.

Definition sample_dirty : bytes :=
  match _volume_record_state (J:=journal_state) sample_layout sample_device with
  | (_, Ok (_, dirty, _, _)) => dirty | _ => [] end.

Lemma NoDup_apart {A} (xs ys : list A) : NoDup (xs ++ ys) -> Forall (fun a => a ∉ ys) xs.
Proof. intros (_ & H & _)%NoDup_app. by apply Forall_forall. Qed.

Lemma sample_move_ok :
  move_ok sample_vol sample_layout sample_owner sample_move sample_device sample_new_record
    (sealed sample_volume_record) sample_dirty (sealed sample_volume_record) sample_dirty.
Proof.
  constructor; [..|apply NoDup_apart; apply (bool_decide_unpack _); vm_compute; exact I].
  all: try (apply (bool_decide_unpack _); vm_compute; exact I); try (vm_compute; reflexivity); try done.
  repeat (apply Forall_cons; split; [vm_compute; repeat split; discriminate|]). constructor.
Qed.

Lemma commit_replay (d : bytes) (tc body : list (effect journal_state)) j1 j2 j3 :
  replay d ((tc ++ [EFsync]) ++ EJournal j1 :: (body ++ [EFsync; EJournal j2]) ++ [EJournal j3]) = replay (replay d tc) body.
Proof. rewrite !replay_app. cbn [replay fold_left apply_effect]. unfold replay. rewrite !fold_left_app. done. Qed.

Lemma commit_journal j (tc body : list (effect journal_state)) j1 j2 j3 :
  journal_after j ((tc ++ [EFsync]) ++ EJournal j1 :: (body ++ [EFsync; EJournal j2]) ++ [EJournal j3]) = j3.
Proof. rewrite journal_after_app. change (?e :: ?x) with ([e] ++ x). rewrite !journal_after_app. done. Qed.

(** C6. A completed [_move_extent] returns normally and leaves the volume in
    the new state: the file's MFT record is the rewritten one, the destination
    clusters hold the bytes of the source clusters, the on-disk bitmap has
    exactly the destination set and the source cleared and is the bitmap the
    program keeps in memory, every other byte (the volume records included) is
    as before, and the journal is gone. *)
Theorem move_extent_correct (vol : Volume) (L : NtfsLayout) (c : Candidate) (m : ExtentMove) (d0 new_record v0 v1 m0 m1 : bytes)
    (Hok : move_ok vol L c m d0 new_record v0 v1 m0 m1) :
  exists t b, _move_extent L c m d0 = (t, Ok b) /\
    is_new L c m d0 new_record (replay d0 t) /\ gather (replay d0 t) (BITMAP L) = b /\ journal_after None t = None.
Proof.
  destruct (move_summary _ _ _ _ _ _ _ _ _ _ Hok) as (tc & body & b2 & Hmove & Hwc & Hbody & Hb & Hbm & Hnew).
  eexists _, b2. split; [exact Hmove|].
  rewrite commit_replay, commit_journal. done.
Qed.

Lemma move_extent_correct_witness :
  exists t b, _move_extent sample_layout sample_owner sample_move sample_device = (t, Ok b) /\
    is_new sample_layout sample_owner sample_move sample_device sample_new_record (replay sample_device t) /\
    gather (replay sample_device t) (BITMAP sample_layout) = b /\ journal_after None t = None.
Proof. exact (move_extent_correct _ _ _ _ _ _ _ _ _ _ sample_move_ok). Defined.


(** The first effects of the sample move, up to the synchronised MFT record. *)
Definition sample_prefix : list (effect journal_state) :=
  take 12 (_move_extent sample_layout sample_owner sample_move sample_device).1.

Definition sample_interrupted : journal_state :=
  match journal_after None sample_prefix with
  | Some state => state
  | None => mkJournal 0 "" "" "" 0 [] 0 [] [] [] None None 0 0 [] [] [] [] []
  end.

