(* ===== verification/NtfsPlan.v ===== *)
(** * The allocation plan of the NTFS engine

    Models the scan of the MFT and the choice of moves in
    [src/gui/ntfs_engine.py]: file names, [_scan_allocation_plan], the plan's
    heaps, [_load_candidate], [_plan_extent_move], [_plan_compact_extent_info]
    and [_select_compact_source].  The theorems state what a selected move is:
    one complete stream, copied into one free extent strictly below all of its
    clusters, the largest that fits. *)

From S2P Require Import Prelude Text Bytes Ranges RangesFacts Bitmap NtfsRuns NtfsBitmap NtfsRecord Device Addresses NtfsVolume NtfsTxn NtfsTxnFacts.

Local Open Scope string_scope.
Local Open Scope list_scope.
Local Open Scope Z_scope.

(** ** Names and reasons *)

Definition SYSTEM_RECORD_NAMES : list (Z * string) :=
  [(0, "$MFT"); (1, "$MFTMirr"); (2, "$LogFile"); (3, "$Volume"); (4, "$AttrDef"); (5, "$Root"); (6, "$Bitmap");
   (7, "$Boot"); (8, "$BadClus"); (9, "$Secure"); (10, "$UpCase"); (11, "$Extend")].

Definition ATTRIBUTE_NAMES : list (Z * string) :=
  [(16, "$STANDARD_INFORMATION"); (32, "$ATTRIBUTE_LIST"); (48, "$FILE_NAME"); (64, "$OBJECT_ID"); (80, "$SECURITY_DESCRIPTOR");
   (112, "$VOLUME_INFORMATION"); (96, "$VOLUME_NAME"); (128, "$DATA"); (144, "$INDEX_ROOT"); (160, "$INDEX_ALLOCATION");
   (176, "$BITMAP"); (192, "$REPARSE_POINT"); (208, "$EA_INFORMATION"); (224, "$EA"); (240, "$PROPERTY_SET");
   (256, "$LOGGED_UTILITY_STREAM")].

(** [f'{n:x}'] for a non-negative [n] *)
Definition hex_digit (d : Z) : Ascii.ascii :=
  Ascii.ascii_of_N (Z.to_N (if d <? 10 then 48 + d else 87 + d)).

Fixpoint hex_loop (fuel : nat) (n : Z) (acc : string) : string :=
  match fuel with
  | O => acc
  | S fuel' => let acc := String.String (hex_digit (n mod 16)) acc in
               if n / 16 =? 0 then acc else hex_loop fuel' (n / 16) acc
  end.

Definition hex (n : Z) : string := hex_loop (S (Z.to_nat (Z.log2 n))) n "".

Definition attribute_label (atype : Z) : string :=
  match dict_get atype ATTRIBUTE_NAMES with Some s => s | None => "attribute 0x" +:+ hex atype end.

Definition _decode_attribute_name (nm : bytes) : text :=
  if bool_decide (nm = []) then [] else utf16le_decode nm.

Definition name_score (namespace : Z) : Z :=
  if (namespace =? 1) || (namespace =? 3) then 3 else if namespace =? 0 then 2 else 1.

(** One iteration of [_best_file_name]: the choice an attribute adds. *)
Definition name_choice (record : bytes) (attr : Attribute) : result (list (Z * text)) :=
  if negb (atype attr =? ATTR_FILE_NAME) || nonresident attr then Ok [] else
  match _resident_value record attr with
  | Raise e => if decide (exn_kind e = NtfsCompactError) then Ok [] else Raise e
  | Ok value =>
      if py_len value <? 66 then Ok [] else
      name_length ← py_get value 64;
      namespace ← py_get value 65;
      let stop := 66 + name_length * 2 in
      if py_len value <? stop then Ok [] else
      let nm := utf16le_decode (py_slice value 66 stop) in
      if bool_decide (nm = []) then Ok [] else Ok [(name_score namespace, nm)]
  end.

Definition choice_gtb (a b : Z * text) : bool :=
  (b.1 <? a.1) || ((a.1 =? b.1) && text_ltb b.2 a.2).

Definition _best_file_name (record : bytes) (attrs : list Attribute) (number : Z) : result text :=
  match dict_get number SYSTEM_RECORD_NAMES with
  | Some s => Ok (of_string s)
  | None =>
      choices ← mapM_result (name_choice record) attrs;
      Ok (default (0, []) (py_max choice_gtb (concat choices))).2
  end.

Definition _stream_blocker_reason (number : Z) (fixed : bytes) (attrs : list Attribute) (attr : Attribute)
    (movable_attr : option Attribute) : result string :=
  if match movable_attr with Some m => offset attr =? offset m | None => false end then Ok "" else
  fl ← u16le fixed 22;
  base ← u64le fixed 32;
  let base_record := Z.land base FILE_REFERENCE_MASK in
  if number <? FIRST_USER_RECORD then Ok "NTFS system metadata is not yet movable" else
  if flag_set fl RECORD_DIRECTORY then
    Ok (if atype attr =? ATTR_INDEX_ALLOCATION then "this directory index layout is not safely rewritable"
        else "this directory metadata stream is not yet movable") else
  if negb (base_record =? 0) then Ok "attribute-list extension records are not yet movable" else
  if existsb is_list attrs then Ok "streams described through $ATTRIBUTE_LIST are not yet movable" else
  if atype attr =? ATTR_DATA then
    Ok (if negb (bool_decide (name attr = [])) then "named NTFS data streams are not yet movable"
        else if flag_set (flags attr) ATTR_COMPRESSED then "compressed NTFS data is not yet movable"
        else if flag_set (flags attr) ATTR_SPARSE || existsb (fun r => negb (is_physical r)) (runs attr)
             then "sparse NTFS data is not yet movable"
        else if flag_set (flags attr) ATTR_ENCRYPTED then "encrypted NTFS data is not yet movable"
        else if negb (lowest_vcn attr =? 0) then "split NTFS data-stream segments are not yet movable"
        else if negb (py_len (List.filter is_data attrs) =? 1) then "multiple unnamed NTFS data segments are not yet movable"
        else "this NTFS data-stream layout is not yet movable") else
  Ok (if atype attr =? ATTR_INDEX_ALLOCATION then "directory index allocation is not yet movable"
      else "the " +:+ attribute_label (atype attr) +:+ " stream is not yet movable").

(** ** Streams and the plan *)

Record StreamInfo := mkInfo {
  s_record_number : Z;
  s_base_record_number : Z;
  s_attribute_offset : Z;
  s_attribute_type : Z;
  s_attribute_name : text;
  s_file_name : text;
  s_flags : Z;
  s_runs : list Run;
  s_movable : bool;
  s_blocker_reason : string;
  s_mapping_capacity : Z;
  s_generation : Z
}.

Definition s_key (info : StreamInfo) : Z * Z := (s_record_number info, s_attribute_offset info).
Definition s_clusters (info : StreamInfo) : Z := physical_clusters (s_runs info).
Definition s_highest_lcn (info : StreamInfo) : Z := highest_lcn_of (s_runs info).
Definition s_lowest_lcn (info : StreamInfo) : Z := lowest_lcn_of (s_runs info).

Definition with_file_name (info : StreamInfo) (nm : text) : StreamInfo :=
  mkInfo (s_record_number info) (s_base_record_number info) (s_attribute_offset info) (s_attribute_type info)
    (s_attribute_name info) nm (s_flags info) (s_runs info) (s_movable info) (s_blocker_reason info)
    (s_mapping_capacity info) (s_generation info).

(** Entries [(-highest_lcn, record_number, attribute_offset, generation)]. *)
Abbreviation heap_entry := (Z * Z * Z * Z)%type.

Definition entry_leb (a b : heap_entry) : bool :=
  let '(a1, a2, a3, a4) := a in
  let '(b1, b2, b3, b4) := b in
  if a1 <? b1 then true else if b1 <? a1 then false else
  if a2 <? b2 then true else if b2 <? a2 then false else
  if a3 <? b3 then true else if b3 <? a3 then false else a4 <=? b4.

(** [heapq] is used through its smallest element only: a heap is kept as the
    sorted list of its entries. *)
Definition heapify (l : list heap_entry) : list heap_entry := py_sorted entry_leb l.
Definition heappush (h : list heap_entry) (e : heap_entry) : list heap_entry := sort_insert entry_leb e h.

Record AllocationPlan := mkPlan {
  streams : list ((Z * Z) * StreamInfo);
  heap : list heap_entry;
  movable_heap : list heap_entry;
  movable_count : Z;
  malformed_records : Z;
  hibernation_active : bool
}.

Definition entry_of (info : StreamInfo) : heap_entry :=
  (- s_highest_lcn info, s_record_number info, s_attribute_offset info, s_generation info).

Definition plan_infos (plan : AllocationPlan) : list StreamInfo := map snd (streams plan).

(** ** Scanning the MFT *)

Definition MFT_RECORD_CHUNK : Z := 16 * 1024 * 1024.

(** The chunks [(first, count)] of [_iter_mft_records]; every one holds a
    record, so [record_count] iterations are enough. *)
Fixpoint mft_chunks (fuel : nat) (records_per_chunk record_count first : Z) : list (Z * Z) :=
  match fuel with
  | O => []
  | S fuel' =>
      if first <? record_count then
        let count := Z.min records_per_chunk (record_count - first) in
        (first, count) :: mft_chunks fuel' records_per_chunk record_count (first + count)
      else []
  end.

Definition mft_record_count (layout : NtfsLayout) : Z :=
  Z.min (mft_data_size layout / mft_record_size (volume layout)) 4294967295.

(** [for number, raw in _iter_mft_records(layout): body] *)
Definition for_mft_records {S} (layout : NtfsLayout) (body : S -> Z * bytes -> nprog S) (s : S) : nprog S :=
  let size := mft_record_size (volume layout) in
  let count := mft_record_count layout in
  pforeach (fun s chunk =>
      let* raw := _read_stream (volume layout) (mft_runs layout) (chunk.1 * size) (chunk.2 * size) in
      pforeach (fun s off => body s (chunk.1 + off, py_slice raw (off * size) (off * size + size))) s (py_range 0 chunk.2))
    s (mft_chunks (Z.to_nat count) (Z.max 1 (MFT_RECORD_CHUNK / size)) count 0).

(** [bool(data.strip(b"\0"))] *)
Definition not_all_zero (data : bytes) : bool := existsb (fun b => negb (b =? 0)) data.

Definition is_unnamed_data (attr : Attribute) : bool := (atype attr =? ATTR_DATA) && bool_decide (name attr = []).

Definition _record_hibernation_active (layout : NtfsLayout) (fixed : bytes) (attrs : list Attribute) (file_name : text)
    : nprog bool :=
  if negb (bool_decide (casefold file_name = of_string "hiberfil.sys")) then pret false else
  match List.filter is_unnamed_data attrs with
  | [] => pret false
  | attr :: _ =>
      if nonresident attr then
        if bool_decide (runs attr = []) || (data_size attr =? 0) then pret false else
        let* header := _read_stream (volume layout) (runs attr) 0 (Z.min 4096 (data_size attr)) in
        pret (not_all_zero (py_slice header 0 4))
      else
        let* header := lift (_resident_value fixed attr) in
        pret (not_all_zero (py_slice header 0 4))
  end.

Record scan_state := mkScan {
  sc_streams : list ((Z * Z) * StreamInfo);
  sc_names : list (Z * text);
  sc_malformed : Z;
  sc_hibernation : bool;
  sc_movable_count : Z
}.

(** The decoding the scan guards with [except NtfsCompactError]: [None] is a
    record that is not in use. *)
Definition scan_decode (layout : NtfsLayout) (raw : bytes) : result (option (bytes * list Attribute)) :=
  fixed ← _apply_fixups raw (bytes_per_sector (volume layout));
  fl ← u16le fixed 22;
  if negb (flag_set fl RECORD_IN_USE) then Ok None else
  attrs ← list_of (_attributes fixed);
  Ok (Some (fixed, attrs)).

Definition run_outside (total : Z) (r : Run) : bool :=
  match lcn r with Some l => (l <? 0) || (total <? l + length_of r) | None => false end.

(** The inner loop of the scan: one attribute. *)
Definition scan_attribute (layout : NtfsLayout) (number base_record : Z) (fixed : bytes) (attrs : list Attribute)
    (file_name : text) (movable_attr : option Attribute) (acc : list ((Z * Z) * StreamInfo)) (attr : Attribute)
    : result (list ((Z * Z) * StreamInfo)) :=
  if negb (nonresident attr) then Ok acc else
  let physical := filter is_physical (runs attr) in
  if bool_decide (physical = []) then Ok acc else
  check existsb (run_outside (total_clusters (volume layout))) physical
    # NtfsCompactError "MFT record describes clusters outside the NTFS volume";
  let movable := match movable_attr with Some m => offset attr =? offset m | None => false end in
  reason ← _stream_blocker_reason number fixed attrs attr movable_attr;
  capacity ← (if movable then _mapping_capacity_from_record fixed attr else Ok 0);
  let info := mkInfo number base_record (offset attr) (atype attr) (_decode_attribute_name (name attr)) file_name
                (flags attr) (runs attr) movable reason capacity 0 in
  Ok (dict_set (s_key info) info acc).

Definition scan_record (layout : NtfsLayout) (s : scan_state) (item : Z * bytes) : nprog scan_state :=
  let '(number, raw) := item in
  if negb (is_file_record raw) then pret s else
  match scan_decode layout raw with
  | Raise e =>
      if decide (exn_kind e = NtfsCompactError)
      then pret (mkScan (sc_streams s) (sc_names s) (sc_malformed s + 1) (sc_hibernation s) (sc_movable_count s))
      else lift (Raise e)
  | Ok None => pret s
  | Ok (Some (fixed, attrs)) =>
      let* file_name := lift (_best_file_name fixed attrs number) in
      let names := if bool_decide (file_name = []) then sc_names s else dict_set number file_name (sc_names s) in
      let* hibernation := if sc_hibernation s then pret true else _record_hibernation_active layout fixed attrs file_name in
      let* base := lift (u64le fixed 32) in
      let* movable_attr := lift (_select_movable_attribute number fixed attrs) in
      let movable_count := sc_movable_count s + (match movable_attr with Some _ => 1 | None => 0 end) in
      let* acc := lift (foldM (scan_attribute layout number (Z.land base FILE_REFERENCE_MASK) fixed attrs file_name movable_attr)
                          (sc_streams s) attrs) in
      pret (mkScan acc names (sc_malformed s) hibernation movable_count)
  end.

(** Extension records take the name of their base record. *)
Definition resolve_name (names : list (Z * text)) (item : (Z * Z) * StreamInfo) : (Z * Z) * StreamInfo :=
  let '(key, info) := item in
  if bool_decide (s_file_name info = []) then
    match dict_get (s_base_record_number info) names with
    | Some nm => (key, with_file_name info nm)
    | None => item
    end
  else item.

Definition _scan_allocation_plan (layout : NtfsLayout) : nprog AllocationPlan :=
  let* s := for_mft_records layout (scan_record layout) (mkScan [] [] 0 false 0) in
  let resolved := map (resolve_name (sc_names s)) (sc_streams s) in
  let tracked := filter (fun info => negb (s_highest_lcn info =? 0)) (map snd resolved) in
  pret (mkPlan resolved (heapify (map entry_of tracked)) (heapify (map entry_of (filter s_movable tracked)))
          (sc_movable_count s) (sc_malformed s) (sc_hibernation s)).

(** ** The heaps of the plan *)

Definition _heap_entry_current (plan : AllocationPlan) (e : heap_entry) : bool :=
  let '(neg_high, number, off, generation) := e in
  match dict_get (number, off) (streams plan) with
  | Some info => (s_generation info =? generation) && (s_highest_lcn info =? - neg_high)
  | None => false
  end.

Fixpoint drop_stale (plan : AllocationPlan) (h : list heap_entry) : list heap_entry :=
  match h with
  | [] => []
  | e :: h' => if _heap_entry_current plan e then h else drop_stale plan h'
  end.

Definition set_heaps (plan : AllocationPlan) (h mh : list heap_entry) : AllocationPlan :=
  mkPlan (streams plan) h mh (movable_count plan) (malformed_records plan) (hibernation_active plan).

Definition _clean_plan_heap (plan : AllocationPlan) : AllocationPlan :=
  set_heaps plan (drop_stale plan (heap plan)) (movable_heap plan).

Definition _clean_movable_heap (plan : AllocationPlan) : AllocationPlan :=
  set_heaps plan (heap plan) (drop_stale plan (movable_heap plan)).

(** The entries at the high-water mark are popped, then pushed again. *)
Fixpoint pop_owners (plan : AllocationPlan) (high_water : Z) (h : list heap_entry)
    : list heap_entry * list heap_entry * list StreamInfo :=
  match h with
  | (neg_high, number, off, generation) :: h' =>
      if - neg_high =? high_water then
        let '(rest, held, owners) := pop_owners plan high_water h' in
        let e := (neg_high, number, off, generation) in
        if negb (_heap_entry_current plan e) then (rest, held, owners) else
        match dict_get (number, off) (streams plan) with
        | Some info => (rest, e :: held, if in_runs (s_runs info) (high_water - 1) then info :: owners else owners)
        | None => (rest, e :: held, owners)
        end
      else (h, [], [])
  | [] => ([], [], [])
  end.

Definition _owners_at_high_water (plan : AllocationPlan) (high_water : Z) : AllocationPlan * (Z * list StreamInfo) :=
  let plan := _clean_plan_heap plan in
  match heap plan with
  | [] => (plan, (0, []))
  | (neg_high, _, _, _) :: _ =>
      let metadata_high := - neg_high in
      if negb (metadata_high =? high_water) then (plan, (metadata_high, [])) else
      let '(rest, held, owners) := pop_owners plan high_water (heap plan) in
      (set_heaps plan (fold_left heappush held rest) (movable_heap plan), (metadata_high, owners))
  end.

(** ** Candidates *)

Definition _load_candidate (layout : NtfsLayout) (info : StreamInfo) : nprog Candidate :=
  let* (record_offset, raw, fixed) := _read_mft_record (volume layout) (mft_runs layout) (s_record_number info) in
  let* fl := lift (if is_file_record fixed then u16le fixed 22 else Ok 0) in
  pcheck negb (is_file_record fixed) || negb (flag_set fl RECORD_IN_USE)
    # NtfsCompactError "MFT record changed during offline compaction";
  let* attrs := lift (list_of (_attributes fixed)) in
  let* found := lift (_select_movable_attribute (s_record_number info) fixed attrs) in
  match found with
  | Some attr =>
      pcheck negb (offset attr =? s_attribute_offset info)
        # NtfsCompactError "MFT record is no longer a supported movable stream";
      pret (mkCandidate (s_record_number info) record_offset raw fixed attr)
  | None => lift (raise NtfsCompactError "MFT record is no longer a supported movable stream")
  end.

(** The second argument of [_update_moved_stream] is a cluster or run list. *)
Definition _update_moved_stream (plan : AllocationPlan) (info : StreamInfo) (destination : Z + list Run) (clusters : option Z)
    : result (AllocationPlan * StreamInfo) :=
  rs ← match destination, clusters with
       | inl d, Some n => Ok [mkRun (Some d) n]
       | inl _, None => raise NtfsCompactError "cluster count is required for a contiguous stream update"
       | inr rs, _ => Ok (_coalesce_runs rs)
       end;
  let updated := mkInfo (s_record_number info) (s_base_record_number info) (s_attribute_offset info) (s_attribute_type info)
                   (s_attribute_name info) (s_file_name info) (s_flags info) rs true "" (s_mapping_capacity info)
                   (s_generation info + 1) in
  let e := entry_of updated in
  Ok (mkPlan (dict_set (s_key updated) updated (streams plan)) (heappush (heap plan) e) (heappush (movable_heap plan) e)
        (movable_count plan) (malformed_records plan) (hibernation_active plan), updated).

(** ** Choosing a move *)

Definition _high_water_run_index (rs : list Run) (high_water : Z) : option nat :=
  match List.filter (fun ir => match lcn ir.2 with Some l => l + length_of ir.2 =? high_water | None => false end)
          (zip (seq 0 (length rs)) rs) with
  | [(i, _)] => Some i
  | _ => None
  end.

Definition run_lcn_leb (a b : Run) : bool := default 0 (lcn a) <=? default 0 (lcn b).

Fixpoint take_runs (rs : list Run) (remaining : Z) : list Run * Z :=
  match rs with
  | [] => ([], remaining)
  | r :: rest =>
      if remaining <=? 0 then ([], remaining) else
      let take := Z.min (length_of r) remaining in
      let '(selected, remaining) := take_runs rest (remaining - take) in
      (mkRun (lcn r) take :: selected, remaining)
  end.

Definition _destination_slice (rs : list Run) (clusters : Z) : result (list Run) :=
  let '(selected, remaining) := take_runs (py_sorted run_lcn_leb rs) clusters in
  check negb (remaining =? 0) # NtfsCompactError "free-extent selection is shorter than requested";
  Ok selected.

(** Largest first, lower first among equals. *)
Definition rank_leb (a b : Run) : bool :=
  if length_of b <? length_of a then true else if length_of a <? length_of b then false else run_lcn_leb a b.

(** The loop over the number of destination extents: [best] is the best move so
    far with the length of its encoding. *)
Fixpoint extent_loop (rs : list Run) (source_index : nat) (source : Run) (source_lcn : Z) (ranked : list Run) (capacity : Z)
    (counts : list nat) (best : option (ExtentMove * Z)) : result (option (ExtentMove * Z)) :=
  match counts with
  | [] => Ok best
  | count :: counts' =>
      let again := extent_loop rs source_index source source_lcn ranked capacity counts' in
      let chosen := take count ranked in
      let movable := Z.min (length_of source) (runs_length chosen) in
      if movable <=? 0 then again best else
      destinations ← _destination_slice chosen movable;
      let prefix := length_of source - movable in
      let replacement := take source_index rs ++ (if prefix =? 0 then [] else [mkRun (lcn source) prefix])
                           ++ destinations ++ drop (S source_index) rs in
      let new := _coalesce_runs replacement in
      encoded ← _encode_runlist new;
      let encoded_length := py_len encoded in
      if capacity <? encoded_length then again best else
      let plan := mkMove [mkRun (Some (source_lcn + prefix)) movable] destinations new in
      let best := match best with
                  | None => Some (plan, encoded_length)
                  | Some (b, n) =>
                      if (ExtentMove_clusters b <? ExtentMove_clusters plan)
                         || ((ExtentMove_clusters plan =? ExtentMove_clusters b) && (encoded_length <? n))
                      then Some (plan, encoded_length) else best
                  end in
      if movable =? length_of source then Ok best else again best
  end.

Definition _plan_extent_move (layout : NtfsLayout) (c : Candidate) (high_water : Z) : result (option ExtentMove * string) :=
  let rs := runs (attribute c) in
  match _high_water_run_index rs high_water with
  | None => Ok (None, "the high-water extent could not be identified uniquely in the file runlist")
  | Some source_index =>
      match rs !! source_index with
      | Some source =>
          match lcn source with
          | None => Ok (None, "the high-water extent is sparse")
          | Some source_lcn =>
              free ← _free_runs_before (bitmap layout) source_lcn;
              if bool_decide (free = []) then Ok (None, "no lower free extent is available") else
              let ranked := py_sorted rank_leb free in
              capacity ← _maximum_mapping_capacity c;
              best ← extent_loop rs source_index source source_lcn ranked capacity
                       (seq 1 (Nat.min (length ranked) 128)) None;
              match best with
              | Some (m, _) => Ok (Some m, "")
              | None => Ok (None, "lower free space exists, but a safe partial mapping does not fit the available space in the existing MFT record")
              end
          end
      | None => raise IndexError "tuple index out of range"
      end
  end.

Definition _plan_compact_extent_info (info : StreamInfo) (gap : Run) : result (option ExtentMove * string) :=
  match lcn gap with
  | None => Ok (None, "the selected destination gap is invalid")
  | Some gap_start =>
      if length_of gap <=? 0 then Ok (None, "the selected destination gap is invalid") else
      let clusters := s_clusters info in
      if clusters <=? 0 then Ok (None, "the selected stream has no physical allocation") else
      if length_of gap <? clusters then Ok (None, "the complete stream does not fit this gap") else
      let gap_end := gap_start + length_of gap in
      let physical := filter (fun r => is_physical r && (0 <? length_of r)) (s_runs info) in
      match physical with
      | [] => Ok (None, "the selected stream has no movable physical extents")
      | r :: rest =>
          if fold_left Z.min (map (fun q => default 0 (lcn q)) rest) (default 0 (lcn r)) <? gap_end
          then Ok (None, "part of the stream is not wholly above this gap") else
          let new := [mkRun (Some gap_start) clusters] in
          if s_mapping_capacity info <=? 0 then Ok (None, "the replacement mapping-pair capacity is unavailable") else
          encoded ← _encode_runlist new;
          if s_mapping_capacity info <? py_len encoded
          then Ok (None, "the contiguous replacement mapping does not fit the MFT record")
          else Ok (Some (mkMove physical new new), "")
      end
  end.

(** [(a.clusters, a.highest_lcn) > (b.clusters, b.highest_lcn)] *)
Definition better_source (a b : StreamInfo) : bool :=
  (s_clusters b <? s_clusters a) || ((s_clusters a =? s_clusters b) && (s_highest_lcn b <? s_highest_lcn a)).

(** One iteration of the selection: the best stream with its move, and how
    often each reason was given. *)
Definition select_step (gap : Run) (acc : option (StreamInfo * ExtentMove) * list (string * Z)) (info : StreamInfo)
    : result (option (StreamInfo * ExtentMove) * list (string * Z)) :=
  let '(best, reasons) := acc in
  if negb (s_movable info) then Ok acc else
  '(move, reason) ← _plan_compact_extent_info info gap;
  match move with
  | None => Ok (best, dict_set reason (default 0 (dict_get reason reasons) + 1) reasons)
  | Some m =>
      match best with
      | Some (b, _) => if better_source info b then Ok (Some (info, m), reasons) else Ok acc
      | None => Ok (Some (info, m), reasons)
      end
  end.

Definition _select_compact_source (layout : NtfsLayout) (plan : AllocationPlan) (gap : Run)
    : nprog (option (StreamInfo * Candidate * ExtentMove) * string) :=
  match lcn gap with
  | None => pret (None, "no destination gap was supplied")
  | Some _ =>
      let* (best, reasons) := lift (foldM (select_step gap) (None, []) (plan_infos plan)) in
      match best with
      | None =>
          match py_max (fun a b : string * Z => b.2 <? a.2) reasons with
          | Some (reason, _) => pret (None, reason)
          | None => pret (None, "no supported complete stream remains above the gap")
          end
      | Some (info, m) =>
          let* candidate := _load_candidate layout info in
          pcheck negb (bool_decide (runs (attribute candidate) = s_runs info))
            # NtfsCompactError "MFT record runlist changed during offline compaction";
          let* encoded := lift (_encode_runlist (new_runs m)) in
          let* capacity := lift (_maximum_mapping_capacity candidate) in
          if capacity <? py_len encoded
          then pret (None, "the selected contiguous replacement mapping no longer fits the MFT record")
          else pret (Some (info, candidate, m), "")
      end
  end.

(** ** Lemmas: the minimum and maximum of a stream *)

Lemma fold_min_spec l : forall x, fold_left Z.min l x <= x /\ Forall (fun y => fold_left Z.min l x <= y) l /\
  (fold_left Z.min l x = x \/ fold_left Z.min l x ∈ l).
Proof.
  induction l as [|y l IH]; intros x; simpl; [split; [lia|]; split; [constructor|by left]|].
  destruct (IH (Z.min x y)) as (H1 & H2 & H3). split; [lia|]. split; [constructor; [lia|done]|].
  rewrite elem_of_cons. destruct H3 as [->|]; [|tauto]. destruct (Z.min_spec x y) as [[_ ->]|[_ ->]]; tauto.
Qed.

Lemma fold_max_spec l : forall x, x <= fold_left Z.max l x /\ Forall (fun y => y <= fold_left Z.max l x) l /\
  (fold_left Z.max l x = x \/ fold_left Z.max l x ∈ l).
Proof.
  induction l as [|y l IH]; intros x; simpl; [split; [lia|]; split; [constructor|by left]|].
  destruct (IH (Z.max x y)) as (H1 & H2 & H3). split; [lia|]. split; [constructor; [lia|done]|].
  rewrite elem_of_cons. destruct H3 as [->|]; [|tauto]. destruct (Z.max_spec x y) as [[_ ->]|[_ ->]]; tauto.
Qed.

Definition first_lcn (r : Run) : Z := default 0 (lcn r).
Definition last_lcn (r : Run) : Z := default 0 (lcn r) + length_of r.

Lemma lowest_spec rs : Forall (fun r => is_physical r = true -> lowest_lcn_of rs <= first_lcn r) rs.
Proof.
  apply Forall_forall. intros r Hr Hp. unfold lowest_lcn_of.
  assert (r ∈ filter is_physical rs) as Hf by (apply list_elem_of_filter; split; [by rewrite Hp|done]).
  destruct (filter is_physical rs) as [|q rest]; [by apply elem_of_nil in Hf|].
  destruct (fold_min_spec (map (fun q => default 0 (lcn q)) rest) (default 0 (lcn q))) as (H1 & H2 & _).
  apply elem_of_cons in Hf as [->|Hf]; [done|]. rewrite Forall_forall in H2. apply (H2 (first_lcn r)).
  apply list_elem_of_fmap. by exists r.
Qed.

Lemma highest_spec rs : Forall (fun r => is_physical r = true -> last_lcn r <= highest_lcn_of rs) rs.
Proof.
  apply Forall_forall. intros r Hr Hp. unfold highest_lcn_of.
  assert (r ∈ filter is_physical rs) as Hf by (apply list_elem_of_filter; split; [by rewrite Hp|done]).
  destruct (filter is_physical rs) as [|q rest]; [by apply elem_of_nil in Hf|].
  destruct (fold_max_spec (map (fun q => default 0 (lcn q) + length_of q) rest) (default 0 (lcn q) + length_of q)) as (H1 & H2 & _).
  apply elem_of_cons in Hf as [->|Hf]; [done|]. rewrite Forall_forall in H2. apply (H2 (last_lcn r)).
  apply list_elem_of_fmap. by exists r.
Qed.

(** A lower bound of all physical starts bounds the lowest cluster. *)
Lemma lowest_above rs b : filter is_physical rs <> [] ->
  Forall (fun r => is_physical r = true -> b <= first_lcn r) rs -> b <= lowest_lcn_of rs.
Proof.
  intros Hne Hb. unfold lowest_lcn_of.
  assert (Forall (fun r => b <= first_lcn r) (filter is_physical rs)) as Hf.
  { apply Forall_forall. intros r [Hp Hr]%list_elem_of_filter. rewrite Forall_forall in Hb. apply Hb; [done|]. by destruct (is_physical r). }
  destruct (filter is_physical rs) as [|q rest]; [done|]. apply Forall_cons in Hf as [Hq Hf].
  destruct (fold_min_spec (map (fun q => default 0 (lcn q)) rest) (default 0 (lcn q))) as (_ & _ & [->|Hin]); [done|].
  apply list_elem_of_fmap in Hin as (r & -> & Hr). rewrite Forall_forall in Hf. by apply (Hf r).
Qed.

(** ** What a planned stream is *)

Definition run_fits (total : Z) (r : Run) : Prop := 0 < length_of r /\ lcn_ok r /\ run_outside total r = false.

Definition stream_fits (total : Z) (info : StreamInfo) : Prop := Forall (run_fits total) (s_runs info).

Definition plan_ok (total : Z) (plan : AllocationPlan) : Prop :=
  NoDup (map fst (streams plan)) /\
  Forall (fun item => item.1 = s_key item.2 /\ stream_fits total item.2) (streams plan).

(** The move [_plan_compact_extent_info] builds. *)
Definition compact_move (info : StreamInfo) (gap : Run) (m : ExtentMove) : Prop :=
  exists g, lcn gap = Some g /\ 0 < s_clusters info <= length_of gap /\
    source_runs m = filter (fun r => is_physical r && (0 <? length_of r)) (s_runs info) /\
    destination_runs m = [mkRun (Some g) (s_clusters info)] /\ new_runs m = destination_runs m /\
    Forall (fun r => exists l, lcn r = Some l /\ 0 < length_of r /\ g + length_of gap <= l) (source_runs m) /\
    exists encoded, _encode_runlist (new_runs m) = Ok encoded /\ py_len encoded <= s_mapping_capacity info.

Lemma plan_compact_some info gap m reason :
  _plan_compact_extent_info info gap = Ok (Some m, reason) -> compact_move info gap m.
Proof.
  unfold _plan_compact_extent_info. destruct (lcn gap) as [g|] eqn:Eg; [|done].
  destruct (Z.leb_spec (length_of gap) 0); [done|]. destruct (Z.leb_spec (s_clusters info) 0); [done|].
  destruct (Z.ltb_spec (length_of gap) (s_clusters info)); [done|].
  destruct (filter _ (s_runs info)) as [|r rest] eqn:Ef; [done|].
  destruct (Z.ltb_spec (fold_left Z.min (map (fun q => default 0 (lcn q)) rest) (default 0 (lcn r))) (g + length_of gap)) as [|Hmin]; [done|].
  destruct (Z.leb_spec (s_mapping_capacity info) 0); [done|]. intros Hk. inv_ok.
  destruct (Z.ltb_spec (s_mapping_capacity info) (py_len a)); [done|]. injection Hk as <- _.
  exists g. cbn [source_runs destination_runs new_runs]. split; [done|]. split; [lia|]. split; [done|]. split; [done|]. split; [done|].
  split; [|eauto]. destruct (fold_min_spec (map (fun q => default 0 (lcn q)) rest) (default 0 (lcn r))) as (M1 & M2 & _).
  apply Forall_forall. intros q Hq.
  assert (g + length_of gap <= default 0 (lcn q)) as Hlow.
  { apply elem_of_cons in Hq as [->|Hq]; [lia|]. rewrite Forall_forall in M2.
    specialize (M2 (default 0 (lcn q))). etransitivity; [exact Hmin|]. apply M2, list_elem_of_fmap. by exists q. }
  rewrite <- Ef in Hq. apply list_elem_of_filter in Hq as [Hp _]. destruct (is_physical q) eqn:Ep; [|done].
  unfold is_physical in Ep. destruct (lcn q) as [l|]; [|done]. exists l. split; [done|].
  destruct (Z.ltb_spec 0 (length_of q)); [|done]. done.
Qed.

(** Every stream that can be moved into the gap is planned. *)
Lemma plan_compact_complete info gap g :
  lcn gap = Some g -> 0 < s_clusters info <= length_of gap ->
  filter (fun r => is_physical r && (0 <? length_of r)) (s_runs info) <> [] ->
  Forall (fun r => g + length_of gap <= first_lcn r) (filter (fun r => is_physical r && (0 <? length_of r)) (s_runs info)) ->
  forall encoded, _encode_runlist [mkRun (Some g) (s_clusters info)] = Ok encoded -> 0 < s_mapping_capacity info ->
  py_len encoded <= s_mapping_capacity info ->
  exists m, _plan_compact_extent_info info gap = Ok (Some m, "").
Proof.
  intros Eg Hc Hne Hall encoded He Hcap Hle. unfold _plan_compact_extent_info. rewrite Eg.
  rewrite (proj2 (Z.leb_gt _ _)), (proj2 (Z.leb_gt _ _)), (proj2 (Z.ltb_ge _ _)) by lia.
  destruct (filter _ (s_runs info)) as [|r rest]; [done|]. apply Forall_cons in Hall as [Hr Hall].
  rewrite (proj2 (Z.ltb_ge _ _)).
  2:{ destruct (fold_min_spec (map (fun q => default 0 (lcn q)) rest) (default 0 (lcn r))) as (_ & _ & [->|Hin]); [done|].
      apply list_elem_of_fmap in Hin as (q & -> & Hq). rewrite Forall_forall in Hall. by apply Hall. }
  rewrite (proj2 (Z.leb_gt _ _)) by lia. rewrite He. cbn [mbind result_bind].
  rewrite (proj2 (Z.ltb_ge _ _)) by lia. eauto.
Qed.

Lemma filter_physical_fits total rs :
  Forall (run_fits total) rs -> filter (fun r => is_physical r && (0 <? length_of r)) rs = filter is_physical rs.
Proof.
  induction 1 as [|r rs (Hl & _ & _) _ IH]; [done|]. rewrite !filter_cons, IH.
  assert (is_physical r && (0 <? length_of r) = is_physical r) as -> by (rewrite (proj2 (Z.ltb_lt _ _)) by done; apply andb_true_r). done.
Qed.

(** Lengths of the two sides of a compact move agree. *)
Lemma compact_move_lengths total info gap m :
  stream_fits total info -> compact_move info gap m ->
  runs_length (source_runs m) = s_clusters info /\ runs_length (destination_runs m) = s_clusters info.
Proof.
  intros Hf (g & _ & _ & Hs & Hd & _). rewrite Hs, Hd, (filter_physical_fits total) by done.
  split; [done|]. unfold runs_length. simpl. lia.
Qed.

(** ** Selection *)

Definition source_leb (a b : StreamInfo) : Prop :=
  s_clusters a < s_clusters b \/ (s_clusters a = s_clusters b /\ s_highest_lcn a <= s_highest_lcn b).

Lemma better_source_spec a b : better_source a b = false <-> source_leb a b.
Proof. unfold better_source, source_leb. ztests; simpl; split; try done; try lia. Qed.

(** The accumulator of the selection after the streams [seen]. *)
Definition select_inv (gap : Run) (seen : list StreamInfo) (acc : option (StreamInfo * ExtentMove) * list (string * Z)) : Prop :=
  match acc.1 with
  | Some (info, m) => info ∈ seen /\ s_movable info = true /\ compact_move info gap m /\
      forall other m' reason, other ∈ seen -> s_movable other = true ->
        _plan_compact_extent_info other gap = Ok (Some m', reason) -> source_leb other info
  | None => forall other, other ∈ seen -> s_movable other = true ->
      exists reason, _plan_compact_extent_info other gap = Ok (None, reason)
  end.

Lemma source_leb_trans a b c : source_leb a b -> source_leb b c -> source_leb a c.
Proof. unfold source_leb. lia. Qed.

Lemma select_step_inv gap seen acc info acc' :
  select_inv gap seen acc -> select_step gap acc info = Ok acc' -> select_inv gap (seen ++ [info]) acc'.
Proof.
  intros Hinv H. destruct acc as [best reasons]. unfold select_step in H. destruct (s_movable info) eqn:Em; simpl in H.
  2:{ injection H as <-. unfold select_inv in *. simpl in *. destruct best as [[b m]|].
      - destruct Hinv as (Hin & Hm & Hc & Hall). split; [set_solver|]. split; [done|]. split; [done|].
        intros other m' reason [Ho| ->%list_elem_of_singleton]%elem_of_app Hmo; [by apply Hall|congruence].
      - intros other [Ho| ->%list_elem_of_singleton]%elem_of_app Hmo; [by apply Hinv|congruence]. }
  destruct (_plan_compact_extent_info info gap) as [[[m|] reason]|] eqn:Ep; cbn [mbind result_bind] in H; [| |done].
  - pose proof (plan_compact_some _ _ _ _ Ep) as Hc. destruct best as [[b mb]|].
    + destruct Hinv as (Hin & Hmb & Hcb & Hall). destruct (better_source info b) eqn:Eb; injection H as <-; unfold select_inv; cbn [fst].
      * split; [set_solver|]. split; [done|]. split; [done|]. assert (source_leb b info) as Hbi.
        { revert Eb. unfold better_source, source_leb. ztests; simpl; try done; lia. }
        intros other m' r' [Ho| ->%list_elem_of_singleton]%elem_of_app Hmo Hpl; [eapply source_leb_trans; [by eapply Hall|done]|].
        right. lia.
      * split; [set_solver|]. split; [done|]. split; [done|].
        intros other m' r' [Ho| ->%list_elem_of_singleton]%elem_of_app Hmo Hpl; [by eapply Hall|]. by apply better_source_spec.
    + injection H as <-. unfold select_inv; cbn [fst]. split; [set_solver|]. split; [done|]. split; [done|].
      intros other m' r' [Ho| ->%list_elem_of_singleton]%elem_of_app Hmo Hpl; [|right; lia].
      destruct (Hinv other Ho Hmo) as (? & ?). congruence.
  - injection H as <-. unfold select_inv in *; cbn [fst] in *. destruct best as [[b mb]|].
    + destruct Hinv as (Hin & Hmb & Hcb & Hall). split; [set_solver|]. split; [done|]. split; [done|].
      intros other m' r' [Ho| ->%list_elem_of_singleton]%elem_of_app Hmo Hpl; [by eapply Hall|congruence].
    + intros other [Ho| ->%list_elem_of_singleton]%elem_of_app Hmo; [by apply Hinv|eauto].
Qed.

Lemma select_fold_inv gap infos : forall seen acc acc',
  select_inv gap seen acc -> foldM (select_step gap) acc infos = Ok acc' -> select_inv gap (seen ++ infos) acc'.
Proof.
  induction infos as [|info infos IH]; intros seen acc acc' Hinv H; cbn [foldM] in H; [injection H as <-; by rewrite app_nil_r|].
  inv_ok. change (info :: infos) with ([info] ++ infos). rewrite app_assoc. eapply IH; [by eapply select_step_inv|done].
Qed.

(** ** Lemmas: the scan *)

Section scan.
Context (layout : NtfsLayout) (d : bytes).
Hypothesis Hw : wf_bytes d.

Lemma pread_exact_wf n o t x : _pread_exact (J:=journal_state) n o d = (t, Ok x) -> t = [] /\ wf_bytes x.
Proof.
  intros H. unfold _pread_exact in H. prog_step H. unfold os_pread in R. injection R as <- Hr. simpl replay in H.
  destruct (o <? 0); [done|]. injection Hr as <-. destruct (negb _) in H; [by apply lift_inv in H as [_ H]|].
  apply pret_inv in H as [-> <-]. split; [done|]. by apply wf_bytes_slice.
Qed.

Lemma read_stream_wf vol rs off len t x : _read_stream (J:=journal_state) vol rs off len d = (t, Ok x) -> t = [] /\ wf_bytes x.
Proof.
  intros H. unfold _read_stream in H. prog_step H.
  apply (pforeach_reads wf_bytes) in R as [-> Ha]; [| |constructor].
  2:{ intros s seg t' s' _ Hs Hb. apply pbind_inv in Hb as (u1 & chunk & u2 & H1 & H2 & ->).
      apply pread_exact_wf in H1 as [-> Hc]. apply pret_inv in H2 as [-> <-]. split; [done|]. by apply Forall_app_2. }
  simpl replay in H. unfold finish in H. destruct (raised _) in H; [by apply lift_inv in H as [_ H]|].
  apply pret_inv in H as [-> <-]. done.
Qed.

Lemma apply_fixups_wf raw ss fixed : wf_bytes raw -> _apply_fixups raw ss = Ok fixed -> wf_bytes fixed.
Proof.
  intros Hr H. unfold _apply_fixups in H. inv_ok. destruct a as [off count]. eapply (foldM_inv wf_bytes); [exact Hr| |exact H].
  intros i b b' _ Hb Hs. unfold apply_one in Hs. inv_ok. auto with defrag.
Qed.

Definition attribute_ok (a : Attribute) : Prop :=
  nonresident a = true -> Forall (fun r => 0 < length_of r /\ lcn_ok r) (runs a).

Lemma attributes_ok fixed attrs : wf_bytes fixed -> list_of (_attributes fixed) = Ok attrs -> Forall attribute_ok attrs.
Proof.
  intros Hf H. assert (Forall attribute_ok (yielded (_attributes fixed))) as Hy.
  { unfold _attributes. destruct (u16le fixed 20) as [pos|] eqn:E; [|constructor]. destruct (u32le fixed 24) as [used|]; [|constructor].
    pose proof (u16_nonneg fixed 20 pos Hf ltac:(lia) E) as Hp. clear E.
    assert (Z.min (py_len fixed) used <= py_len fixed) as Hu by lia. revert pos Hp.
    generalize (length fixed) as fuel. induction fuel as [|fuel IH]; intros pos Hp; cbn [attributes_loop]; destruct (_ <=? _); try constructor.
    destruct (parse_attribute fixed (Z.min (py_len fixed) used) pos) as [[a|]|] eqn:E; try constructor.
    - intros Hnr. destruct (parse_attribute_facts _ _ _ _ Hf Hp Hu E) as (_ & _ & _ & Hn). by apply Hn.
    - destruct (parse_attribute_facts _ _ _ _ Hf Hp Hu E) as (_ & Hl & _). apply IH. lia. }
  unfold list_of in H. destruct (raised _); [done|]. by injection H as <-.
Qed.

Local Notation total := (total_clusters (volume layout)).

Definition streams_ok (l : list ((Z * Z) * StreamInfo)) : Prop :=
  NoDup (map fst l) /\ Forall (fun item => item.1 = s_key item.2 /\ stream_fits total item.2) l.

Lemma existsb_false {A} (f : A -> bool) l : existsb f l = false -> Forall (fun x => f x = false) l.
Proof. induction l as [|x l IH]; simpl; [constructor|]. intros [H1 H2]%orb_false_elim. constructor; auto. Qed.

Lemma scan_attribute_ok number base fixed attrs nm mv acc attr acc' :
  attribute_ok attr -> streams_ok acc -> scan_attribute layout number base fixed attrs nm mv acc attr = Ok acc' -> streams_ok acc'.
Proof.
  intros Ha [Hnd Hall] H. unfold scan_attribute in H. destruct (nonresident attr) eqn:En; simpl in H; [|by injection H as <-].
  destruct (bool_decide _); [by injection H as <-|]. inv_ok. split; [by apply dict_set_NoDup|].
  apply Forall_forall. intros item Hi. apply elem_of_dict_set in Hi as [->|Hi].
  - split; [done|]. unfold stream_fits. cbn [s_runs]. specialize (Ha En). apply existsb_false in E.
    rewrite Forall_forall in E |- *. rewrite Forall_forall in Ha. intros r Hr. destruct (Ha r Hr) as [Hl Hok].
    split; [done|]. split; [done|]. destruct (is_physical r) eqn:Ep; [apply E, list_elem_of_filter; by rewrite Ep|].
    unfold run_outside, is_physical in *. by destruct (lcn r).
  - rewrite Forall_forall in Hall. by apply Hall.
Qed.

Lemma hibernation_reads fixed attrs nm t b : _record_hibernation_active layout fixed attrs nm d = (t, Ok b) -> t = [].
Proof.
  intros H. unfold _record_hibernation_active in H. destruct (negb _) in H; [by apply pret_inv in H as [-> _]|].
  destruct (List.filter _ _) as [|attr l] in H; [by apply pret_inv in H as [-> _]|].
  destruct (nonresident attr).
  - destruct (_ || _) in H; [by apply pret_inv in H as [-> _]|]. prog_step H. apply read_stream_wf in R as [-> _].
    by apply pret_inv in H as [-> _].
  - pure_step H x R. by apply pret_inv in H as [-> _].
Qed.

Lemma scan_record_ok s item t s' :
  wf_bytes item.2 -> streams_ok (sc_streams s) -> scan_record layout s item d = (t, Ok s') -> t = [] /\ streams_ok (sc_streams s').
Proof.
  intros Hraw Hs H. unfold scan_record in H. destruct item as [number raw]. simpl in Hraw.
  destruct (negb _); [by apply pret_inv in H as [-> <-]|].
  destruct (scan_decode layout raw) as [[[fixed attrs]|]|e] eqn:Ed.
  - pure_step H nm R. apply pbind_inv in H as (u1 & hib & u2 & Rh & H & ->).
    assert (u1 = []) as -> by (destruct (sc_hibernation s); [by apply pret_inv in Rh as [-> _]|by eapply hibernation_reads]).
    simpl replay in H. pure_step H base R1. pure_step H mv R2. pure_step H acc R3. apply pret_inv in H as [-> <-]. split; [done|].
    unfold scan_decode in Ed. destruct (_apply_fixups raw _) as [fx|] eqn:Ef; [|done]. cbn [mbind result_bind] in Ed.
    destruct (u16le fx 22); [|done]. cbn [mbind result_bind] in Ed. destruct (negb _); [done|].
    destruct (list_of _) as [l|] eqn:El; [|done]. cbn [mbind result_bind] in Ed. injection Ed as <- <-.
    pose proof (attributes_ok fx l (apply_fixups_wf _ _ _ Hraw Ef) El) as Hat. rewrite Forall_forall in Hat. cbn [sc_streams].
    eapply (foldM_inv streams_ok); [exact Hs| |exact R3]. intros attr b b' Ha Hb Hstep.
    eapply scan_attribute_ok; [by apply Hat|exact Hb|exact Hstep].
  - by apply pret_inv in H as [-> <-].
  - destruct (decide _); [by apply pret_inv in H as [-> <-]|by apply lift_inv in H as [_ H]].
Qed.

Lemma resolve_ok names l : streams_ok l -> streams_ok (map (resolve_name names) l).
Proof.
  assert (forall item, (resolve_name names item).1 = item.1 /\ s_key (resolve_name names item).2 = s_key item.2 /\
            s_runs (resolve_name names item).2 = s_runs item.2) as Hr.
  { intros [k info]. unfold resolve_name. destruct (bool_decide _); [|done]. by destruct (dict_get _ _). }
  intros [Hnd Hall]. split.
  - rewrite map_map. erewrite map_ext; [exact Hnd|]. intros item. apply Hr.
  - apply Forall_forall. intros item (x & -> & Hx)%list_elem_of_fmap. rewrite Forall_forall in Hall.
    destruct (Hall x Hx) as [Hk Hf]. destruct (Hr x) as (H1 & H2 & H3). unfold stream_fits. rewrite H1, H2, H3. done.
Qed.

(** Every stream of the plan has positive extents inside the volume. *)
Lemma scan_plan_ok t plan : _scan_allocation_plan layout d = (t, Ok plan) -> t = [] /\ plan_ok total plan.
Proof.
  intros H. unfold _scan_allocation_plan in H. prog_step H.
  apply (pforeach_reads (fun s => streams_ok (sc_streams s))) in R as [-> Hs].
  - apply pret_inv in H as [-> <-]. split; [done|]. by apply resolve_ok.
  - intros s chunk t5 s5 _ Hs Hb. apply pbind_inv in Hb as (u1 & raw & u2 & Hr & Hb & ->). apply read_stream_wf in Hr as [-> Hraw].
    simpl replay in Hb. apply (pforeach_reads (fun s => streams_ok (sc_streams s))) in Hb as [-> Hs1]; [done| |done].
    intros s2 off t2 s3 _ Hs2 Hstep. eapply scan_record_ok; [|exact Hs2|exact Hstep]. simpl. by apply wf_bytes_slice.
  - split; constructor.
Qed.
End scan.

(** ** The selected source *)

Lemma select_owner layout plan gap d t o reason :
  _select_compact_source layout plan gap d = (t, Ok (o, reason)) ->
  match o with
  | Some (owner, c, m) => owner ∈ plan_infos plan /\ s_movable owner = true /\ compact_move owner gap m /\
      (forall other m' r', other ∈ plan_infos plan -> s_movable other = true ->
         _plan_compact_extent_info other gap = Ok (Some m', r') -> source_leb other owner) /\
      runs (attribute c) = s_runs owner /\ record_number c = s_record_number owner /\
      exists encoded capacity, _encode_runlist (new_runs m) = Ok encoded /\ _maximum_mapping_capacity c = Ok capacity /\ py_len encoded <= capacity
  | None => True
  end.
Proof.
  intros H. destruct o as [[[owner c] m]|]; [|done]. unfold _select_compact_source in H.
  destruct (lcn gap) as [g|]; [|by apply pret_inv in H as [_ H]].
  apply pbind_inv in H as (t1 & [best reasons] & t2 & R & H & ->). apply lift_inv in R as [-> R]. simpl replay in H.
  pose proof (select_fold_inv gap (plan_infos plan) [] (None, []) (best, reasons)) as Hinv. simpl in Hinv.
  specialize (Hinv ltac:(intros ? ?%elem_of_nil; done) R). unfold select_inv in Hinv. cbn [fst] in Hinv.
  destruct best as [[info m']|]; [|destruct (py_max _ _) as [[]|] in H; by apply pret_inv in H as [_ H]].
  apply pbind_inv in H as (t1 & cand & t3 & Rc & H & ->).
  destruct (negb (bool_decide (runs (attribute cand) = s_runs info))) eqn:Er; [by apply lift_inv in H as [_ H]|].
  apply negb_false_iff, bool_decide_eq_true in Er.
  apply pbind_inv in H as (u1 & enc & u2 & Re & H & ->). apply lift_inv in Re as [-> Re].
  apply pbind_inv in H as (u1 & cap & u3 & Rm & H & ->). apply lift_inv in Rm as [-> Rm].
  destruct (Z.ltb_spec cap (py_len enc)); [by apply pret_inv in H as [_ H]|]. apply pret_inv in H as [_ [= <- <- <- _]].
  destruct Hinv as (Hin & Hmv & Hcm & Hbest). split; [done|]. split; [done|]. split; [done|]. split; [exact Hbest|]. split; [done|].
  split; [|eauto]. unfold _load_candidate in Rc. apply pbind_inv in Rc as (? & [[ro raw] fixed] & ? & _ & Rc & _).
  apply pbind_inv in Rc as (? & fl & ? & _ & Rc & _). destruct (_ || _) in Rc; [by apply lift_inv in Rc as [_ Rc]|].
  apply pbind_inv in Rc as (? & attrs & ? & _ & Rc & _). apply pbind_inv in Rc as (? & [found|] & ? & _ & Rc & _); [|by apply lift_inv in Rc as [_ Rc]].
  destruct (negb _) in Rc; [by apply lift_inv in Rc as [_ Rc]|]. by apply pret_inv in Rc as [_ <-].
Qed.

(** The stream [_select_compact_source] returns is a movable stream of the
    plan that fits the gap as a whole and lies above it, its MFT record was
    read again and still has the planned extents, the replacement mapping fits
    that record, and no other movable stream that fits is larger, or equally
    large and higher. *)
Theorem select_compact_source_best (layout : NtfsLayout) (plan : AllocationPlan) (gap : Run) (d : bytes) (t : list (effect journal_state))
    (owner : StreamInfo) (c : Candidate) (m : ExtentMove) (reason : string)
    (Hrun : _select_compact_source layout plan gap d = (t, Ok (Some (owner, c, m), reason))) :
  owner ∈ plan_infos plan /\ s_movable owner = true /\ compact_move owner gap m /\
  (forall other m' r', other ∈ plan_infos plan -> s_movable other = true ->
     _plan_compact_extent_info other gap = Ok (Some m', r') -> source_leb other owner) /\
  runs (attribute c) = s_runs owner /\ record_number c = s_record_number owner /\
  exists encoded capacity, _encode_runlist (new_runs m) = Ok encoded /\ _maximum_mapping_capacity c = Ok capacity /\ py_len encoded <= capacity.
Proof. exact (select_owner _ _ _ _ _ _ _ Hrun). Qed.
