(* ===== verification/NtfsCompact.v ===== *)
(** * Compacting and defragmenting an NTFS volume

    Models [compact] and [defragment] of [src/gui/ntfs_engine.py]: the loops
    that choose a gap or a fragmented stream, run one journalled move and
    update the plan, with [_emit_live_move].  Text output and timing are left
    out; the stop request, which a signal handler sets at any time, is an
    oracle asked wherever the code reads the flag.

    The theorems state that compaction terminates, that every move it performs
    is a whole-stream move to lower clusters, that no stream gets more
    fragments, and that the allocation boundary never rises. *)

From S2P Require Import Prelude Text Bytes Ranges RangesFacts Bitmap NtfsRuns NtfsBitmap NtfsRecord Device Addresses NtfsVolume NtfsTxn NtfsTxnFacts NtfsPlan.

Local Open Scope string_scope.
Local Open Scope list_scope.
Local Open Scope Z_scope.

(** ** Live-map output *)

(** The payload of one [@@LIVE_RANGES] line. *)
Record live_payload := mkPayload {
  p_ranges : list (Z * Z * Z);
  p_moved_total_bytes : Z;
  p_pass : Z
}.

(** The batching loop: full batches of 256 and the rest. *)
Fixpoint live_batches (slices batch : list (Z * Z * Z)) : list (list (Z * Z * Z)) :=
  match slices with
  | [] => if bool_decide (batch = []) then [] else [batch]
  | s :: rest =>
      let batch := batch ++ [s] in
      if 256 <=? py_len batch then batch :: live_batches rest [] else live_batches rest batch
  end.

Definition _emit_live_move (move : ExtentMove) (cs moved_total_clusters live_cells pass_number : Z) : result (list live_payload) :=
  if live_cells <=? 0 then Ok [] else
  slices ← list_of (_iter_physical_move_slices (source_runs move) (destination_runs move));
  let scaled := map (fun s => (s.1.1 * cs, s.1.2 * cs, s.2 * cs)) slices in
  Ok (map (fun batch => mkPayload batch (moved_total_clusters * cs) pass_number) (live_batches scaled [])).

(** ** Compact *)

Record compact_state := mkCompact {
  c_layout : NtfsLayout;
  c_plan : AllocationPlan;
  c_packed_cursor : Z;
  c_current_high : Z;
  c_moved : list (StreamInfo * ExtentMove);
  c_moved_clusters : Z;
  c_blocked_gaps : list (Z * Z * string);
  c_live : list live_payload
}.

Definition packing_start : Z := 1.

Section compact.
Context (live_cells : Z).

(** One iteration of the main loop behind the stop test: [inl] is [break]. *)
Definition compact_step (s : compact_state) : nprog (compact_state + compact_state) :=
  let b := bitmap (c_layout s) in
  let* first_hole := lift (_next_free_run b (Z.max packing_start (c_packed_cursor s)) (c_current_high s)) in
  match first_hole with
  | None => pret (inl (mkCompact (c_layout s) (c_plan s) (c_current_high s) (c_current_high s) (c_moved s)
                         (c_moved_clusters s) (c_blocked_gaps s) (c_live s)))
  | Some hole =>
      let start := default 0 (lcn hole) in
      let* (chosen, reason) := _select_compact_source (c_layout s) (c_plan s) hole in
      match chosen with
      | None =>
          pret (inr (mkCompact (c_layout s) (c_plan s) (start + length_of hole) (c_current_high s) (c_moved s)
                       (c_moved_clusters s) (c_blocked_gaps s ++ [(start, length_of hole, reason)]) (c_live s)))
      | Some (owner, candidate, move) =>
          let old_high := c_current_high s in
          let* b' := _move_extent (c_layout s) candidate move in
          let moved_clusters := c_moved_clusters s + ExtentMove_clusters move in
          let* live := lift (_emit_live_move move (cluster_size (volume (c_layout s))) moved_clusters live_cells 1) in
          let* (plan, _) := lift (_update_moved_stream (c_plan s) owner (inr (new_runs move)) None) in
          let* high := lift (if existsb (fun r => old_high <=? default 0 (lcn r) + length_of r) (source_runs move)
                             then _highest_used_before b' old_high else Ok old_high) in
          let* next_gap := lift (_next_free_run b' start high) in
          pret (inr (mkCompact (with_bitmap (c_layout s) b') plan start high (c_moved s ++ [(owner, move)]) moved_clusters
                       (c_blocked_gaps s) (c_live s ++ live)))
      end
  end.

(** The main loop; [stop i] is the flag read before iteration [i]. *)
Fixpoint compact_loop (fuel : nat) (stop : nat -> bool) (i : nat) (s : compact_state) : nprog compact_state :=
  match fuel with
  | O => lift (raise OutOfFuel "compact")
  | S fuel' =>
      if stop i then pret s else
      let* r := compact_step s in
      match r with
      | inl s' => pret s'
      | inr s' => compact_loop fuel' stop (S i) s'
      end
  end.

(** [compact], once the boot sector is parsed.  The loop runs at most once per
    cluster, so the cluster count bounds it. *)
Definition compact (mounted journal_exists : bool) (stop : nat -> bool) (vol : Volume) : nprog compact_state :=
  pcheck mounted # NtfsCompactError "NTFS compaction requires an unmounted volume";
  pcheck journal_exists # NtfsCompactError "an unfinished NTFS transaction exists; run Recover first";
  let* layout := _read_layout vol false true in
  let* plan := _scan_allocation_plan layout in
  pcheck hibernation_active plan # NtfsCompactError "Windows hibernation is active on this NTFS volume";
  let* before_high := lift (_highest_used (bitmap layout) (total_clusters vol)) in
  let* allocated := lift (_allocated_cluster_count (bitmap layout) (total_clusters vol)) in
  let* boot_used := lift (_bit (bitmap layout) 0) in
  let* (_, _, initial_first_gap) := lift (_free_gap_stats (bitmap layout) before_high packing_start) in
  let s := mkCompact layout plan (default before_high initial_first_gap) before_high [] 0 [] [] in
  let* s' := compact_loop (S (Z.to_nat before_high)) stop 0 s in
  let* stats := lift (_free_gap_stats (bitmap (c_layout s')) (c_current_high s') packing_start) in
  pret s'.
End compact.

(** ** Defragment *)

Record defrag_state := mkDefrag {
  d_layout : NtfsLayout;
  d_plan : AllocationPlan;
  d_pending : list (Z * Z);
  d_moved_keys : list (Z * Z);
  d_moved : list (StreamInfo * ExtentMove);
  d_moved_clusters : Z;
  d_skipped_changed : Z;
  d_pass_moved : Z;
  d_live : list live_payload
}.

(** [sort(key=lambda info: (info.clusters, info.lowest_lcn), reverse=True)]:
    the reverse sort keeps the order of equal items. *)
Definition larger_first (a b : StreamInfo) : bool :=
  (s_clusters b <? s_clusters a) || ((s_clusters a =? s_clusters b) && (s_lowest_lcn b <=? s_lowest_lcn a)).

Definition set_add {K} `{EqDecision K} (k : K) (l : list K) : list K := if decide (k ∈ l) then l else l ++ [k].
Definition set_discard {K} `{EqDecision K} (k : K) (l : list K) : list K := filter (fun k' => k' <> k) l.

Section defragment.
Context (live_cells : Z).

Definition fragmented (info : StreamInfo) : bool := 1 <? _physical_fragment_count (s_runs info).

(** The streams a pass looks at; [keys] is a Python set, taken in the order
    [order] iterates it. *)
Definition pass_streams (order : list (Z * Z) -> list (Z * Z)) (plan : AllocationPlan) (keys : list (Z * Z)) : list StreamInfo :=
  py_sorted larger_first (omap (fun key => dict_get key (streams plan)) (order keys)).

Definition whole_move (c : Candidate) (destination : Z) : ExtentMove :=
  let d := [mkRun (Some destination) (Candidate_clusters c)] in
  mkMove (runs (attribute c)) d d.

(** One stream of a placement pass. *)
Definition place_stream (pass : Z) (s : defrag_state) (info : StreamInfo) : nprog defrag_state :=
  let layout := d_layout s in
  let* candidate := _load_candidate layout info in
  if _physical_fragment_count (runs (attribute candidate)) <=? 1 then
    pret (mkDefrag layout (d_plan s) (set_discard (s_key info) (d_pending s)) (d_moved_keys s) (d_moved s) (d_moved_clusters s)
            (d_skipped_changed s + 1) (d_pass_moved s) (d_live s))
  else
  let* found := lift (_find_free_run (bitmap layout) (Candidate_clusters candidate)
                        (Z.max 1 (total_clusters (volume layout) - 1))) in
  match found with
  | None => pret s
  | Some destination =>
      let move := whole_move candidate destination in
      let* b' := _move_extent layout candidate move in
      let moved := d_moved_clusters s + Candidate_clusters candidate in
      let* live := lift (_emit_live_move move (cluster_size (volume layout)) moved live_cells pass) in
      let* (plan, _) := lift (_update_moved_stream (d_plan s) info (inr (new_runs move)) None) in
      pret (mkDefrag (with_bitmap layout b') plan (set_discard (s_key info) (d_pending s)) (set_add (s_key info) (d_moved_keys s))
              (d_moved s ++ [(info, move)]) moved (d_skipped_changed s) (d_pass_moved s + 1) (d_live s ++ live))
  end.

(** One stream of a settling pass. *)
Definition settle_stream (pass : Z) (s : defrag_state) (info : StreamInfo) : nprog defrag_state :=
  let layout := d_layout s in
  let* candidate := _load_candidate layout info in
  pcheck negb (_physical_fragment_count (runs (attribute candidate)) =? 1)
    # NtfsCompactError "MFT record was not contiguous after Defragment";
  let* found := lift (_find_free_run (bitmap layout) (Candidate_clusters candidate) (lowest_lcn_of (runs (attribute candidate)))) in
  match found with
  | None => pret s
  | Some destination =>
      let move := whole_move candidate destination in
      let* b' := _move_extent layout candidate move in
      let moved := d_moved_clusters s + Candidate_clusters candidate in
      let* live := lift (_emit_live_move move (cluster_size (volume layout)) moved live_cells (8 + pass)) in
      let* (plan, _) := lift (_update_moved_stream (d_plan s) info (inr (new_runs move)) None) in
      pret (mkDefrag (with_bitmap layout b') plan (d_pending s) (d_moved_keys s) (d_moved s ++ [(info, move)]) moved
              (d_skipped_changed s) (d_pass_moved s + 1) (d_live s ++ live))
  end.

(** The streams of one pass, until a stop request. *)
Fixpoint run_streams (stop : nat -> bool) (body : defrag_state -> StreamInfo -> nprog defrag_state) (i : nat)
    (infos : list StreamInfo) (s : defrag_state) : nprog (nat * defrag_state) :=
  match infos with
  | [] => pret (i, s)
  | info :: rest =>
      if stop i then pret (i, s) else
      let* s' := body s info in
      run_streams stop body (S i) rest s'
  end.

Definition reset_pass (s : defrag_state) : defrag_state :=
  mkDefrag (d_layout s) (d_plan s) (d_pending s) (d_moved_keys s) (d_moved s) (d_moved_clusters s) (d_skipped_changed s) 0 (d_live s).

(** At most eight passes, ended by a stop request, an empty key set or a pass
    without a move. *)
Fixpoint run_passes (stop : nat -> bool) (order : list (Z * Z) -> list (Z * Z)) (keys : defrag_state -> list (Z * Z))
    (body : Z -> defrag_state -> StreamInfo -> nprog defrag_state) (passes : list Z) (i : nat) (s : defrag_state)
    : nprog (nat * defrag_state) :=
  match passes with
  | [] => pret (i, s)
  | pass :: rest =>
      if stop i || bool_decide (keys s = []) then pret (i, s) else
      let* (i', s') := run_streams stop (body pass) (S i) (pass_streams order (d_plan s) (keys s)) (reset_pass s) in
      if d_pass_moved s' =? 0 then pret (i', s') else run_passes stop order keys body rest i' s'
  end.

Definition defragment (mounted journal_exists : bool) (stop : nat -> bool) (order : list (Z * Z) -> list (Z * Z)) (vol : Volume)
    : nprog defrag_state :=
  pcheck mounted # NtfsCompactError "NTFS defragmentation requires an unmounted volume";
  pcheck journal_exists # NtfsCompactError "an unfinished NTFS transaction exists; run Recover first";
  let* layout := _read_layout vol false true in
  let* plan := _scan_allocation_plan layout in
  pcheck hibernation_active plan # NtfsCompactError "Windows hibernation is active on this NTFS volume";
  let supported := filter (fun info => s_movable info && fragmented info) (plan_infos plan) in
  let* free_runs := lift (_defrag_destination_pool (bitmap layout) (total_clusters vol)) in
  let s := mkDefrag layout plan (map s_key (py_sorted larger_first supported)) [] [] 0 0 0 [] in
  let* (i, s1) := run_passes stop order d_pending place_stream (py_range 1 9) 0 s in
  let* (_, s2) := run_passes stop order d_moved_keys settle_stream (py_range 1 9) i s1 in
  pret s2.
End defragment.

(** ** Lemmas: one move *)

(** The bitmap a move returns, whatever the device holds. *)
Lemma move_extent_bitmap L c m d t b :
  _move_extent L c m d = (t, Ok b) ->
  exists b1, set_runs (bitmap L) (destination_runs m) true = Ok b1 /\ set_runs b1 (source_runs m) false = Ok b.
Proof.
  intros H. unfold _move_extent in H.
  apply pbind_inv in H as (? & nr & ? & _ & H & _). apply pbind_inv in H as (? & vr & ? & _ & H & _).
  destruct vr as [[[vb vd] mb] md]. apply pbind_inv in H as (? & ? & ? & _ & H & _). apply pbind_inv in H as (? & st & ? & _ & H & _).
  do 4 apply pbind_inv in H as (? & ? & ? & _ & H & _). apply pbind_inv in H as (? & b1 & ? & R1 & H & _). apply lift_inv in R1 as [_ R1].
  do 6 apply pbind_inv in H as (? & ? & ? & _ & H & _). apply pbind_inv in H as (? & b2 & ? & R2 & H & _). apply lift_inv in R2 as [_ R2].
  do 7 apply pbind_inv in H as (? & ? & ? & _ & H & _). apply pret_inv in H as [_ <-]. eauto.
Qed.

(** One extent moved into a free gap below the sources: the destination is in
    use afterwards, and only source clusters are released. *)
Lemma set_move_bits total b0 b1 b2 info gap m g :
  wf_bytes b0 -> total <= 8 * py_len b0 -> stream_fits total info -> compact_move info gap m -> lcn gap = Some g -> 0 <= g ->
  g + length_of gap <= total ->
  set_runs b0 (destination_runs m) true = Ok b1 -> set_runs b1 (source_runs m) false = Ok b2 ->
  wf_bytes b2 /\ py_len b2 = py_len b0 /\
  (forall x, 0 <= x -> g + length_of gap <= x -> bit_at b2 x = true -> bit_at b0 x = true) /\
  (forall x, g <= x < g + s_clusters info -> bit_at b2 x = true) /\
  (forall x, 0 <= x < g -> bit_at b2 x = bit_at b0 x).
Proof.
  intros Hw Htot Hfit Hm Hg Hg0 Hend E1 E2. destruct Hm as (g' & Hg' & Hc & Hs & Hd & _ & Hall & _).
  assert (g' = g) as -> by congruence.
  destruct (set_runs_spec true (destination_runs m) b0 Hw) as (b1' & E1' & W1 & L1 & B1).
  { rewrite Hd. apply Forall_singleton. cbn [lcn length_of]. lia. }
  assert (b1' = b1) as -> by congruence.
  destruct (set_runs_spec false (source_runs m) b1 W1) as (b2' & E2' & W2 & L2 & B2).
  { unfold runs_fit. rewrite L1, Hs. apply Forall_forall. intros r [Hp Hr]%list_elem_of_filter.
    unfold stream_fits in Hfit. rewrite Forall_forall in Hfit. destruct (Hfit r Hr) as (Hl & Hok & Hout).
    unfold run_outside, lcn_ok, is_physical in *. destruct (lcn r); [|done]. bool_to_prop. lia. }
  assert (b2' = b2) as -> by congruence.
  assert (forall x, in_runs (source_runs m) x = true -> g + length_of gap <= x) as Hsrc.
  { intros x Hx. unfold in_runs in Hx. apply existsb_exists in Hx as (r & Hr & Hx). apply list_elem_of_In in Hr.
    rewrite Forall_forall in Hall. destruct (Hall r Hr) as (l & El & _ & Hlow). unfold in_run in Hx. rewrite El in Hx.
    apply between_spec in Hx. lia. }
  assert (forall x, in_runs (destination_runs m) x = between g (g + s_clusters info) x) as Hdst.
  { intros x. rewrite Hd. unfold in_runs, in_run. simpl. apply orb_false_r. }
  split; [done|]. split; [lia|]. split; [|split].
  - intros x Hx Hge Hb. rewrite B2 in Hb by done. destruct (in_runs (source_runs m) x); [done|].
    rewrite B1, Hdst in Hb by done. destruct (between g (g + s_clusters info) x) eqn:Eb; [|done]. apply between_spec in Eb. lia.
  - intros x Hx. rewrite B2 by lia. destruct (in_runs (source_runs m) x) eqn:Es; [apply Hsrc in Es; lia|].
    rewrite B1, Hdst by lia. by rewrite (proj2 (between_spec _ _ _)) by lia.
  - intros x Hx. rewrite B2 by lia. destruct (in_runs (source_runs m) x) eqn:Es; [apply Hsrc in Es; lia|].
    rewrite B1, Hdst by lia. destruct (between g (g + s_clusters info) x) eqn:Eb; [apply between_spec in Eb; lia|done].
Qed.

(** ** The streams of the plan *)

(** What compaction may do to a stream. *)
Definition evolved (old new : StreamInfo) : Prop :=
  s_key new = s_key old /\ s_clusters new = s_clusters old /\
  (s_runs new = s_runs old \/
   (_physical_fragment_count (s_runs new) = 1 /\ s_highest_lcn new <= s_lowest_lcn old /\ filter is_physical (s_runs old) <> [])).

Lemma coalesce_one g n : 0 < n -> _coalesce_runs [mkRun (Some g) n] = [mkRun (Some g) n].
Proof. intros Hn. unfold _coalesce_runs, coalesce_push. simpl. by rewrite (proj2 (Z.leb_gt _ _)) by lia. Qed.

Lemma contiguous_run g n : 0 < n ->
  _physical_fragment_count [mkRun (Some g) n] = 1 /\ physical_clusters [mkRun (Some g) n] = n /\
  highest_lcn_of [mkRun (Some g) n] = g + n /\ lowest_lcn_of [mkRun (Some g) n] = g.
Proof.
  intros Hn. unfold _physical_fragment_count. rewrite coalesce_one by done. split; [done|]. split; [|done].
  unfold physical_clusters. simpl. lia.
Qed.

Lemma lowest_le_highest total rs : Forall (run_fits total) rs -> filter is_physical rs <> [] -> lowest_lcn_of rs <= highest_lcn_of rs.
Proof.
  intros Hf Hne. destruct (filter is_physical rs) as [|r l] eqn:E; [done|].
  assert (r ∈ filter is_physical rs) as Hr by (rewrite E; set_solver). apply list_elem_of_filter in Hr as [Hp Hr].
  pose proof (lowest_spec rs) as Hlo. pose proof (highest_spec rs) as Hhi. rewrite Forall_forall in Hf, Hlo, Hhi.
  destruct (Hf r Hr) as (Hl & _). assert (is_physical r = true) as Ht by by destruct (is_physical r).
  specialize (Hlo r Hr Ht). specialize (Hhi r Hr Ht). unfold first_lcn, last_lcn in *. lia.
Qed.

Lemma evolved_trans total a b c : stream_fits total b -> evolved a b -> evolved b c -> evolved a c.
Proof.
  intros Hf (K1 & C1 & H1) (K2 & C2 & H2). split; [congruence|]. split; [congruence|].
  destruct H2 as [E2|(F2 & L2 & N2)]; [by rewrite E2; unfold s_highest_lcn; rewrite E2|].
  right. split; [done|]. destruct H1 as [E1|(F1 & L1 & N1)].
  - unfold s_lowest_lcn in *. rewrite <- E1. by split.
  - split; [|done]. pose proof (lowest_le_highest total _ Hf N2) as Hle. unfold s_highest_lcn, s_lowest_lcn in *. lia.
Qed.

Lemma evolved_refl a : evolved a a.
Proof. split; [done|]. split; [done|]. by left. Qed.

(** A stream with a physical extent has at least one fragment. *)
Lemma fragment_count_pos rs : Forall (fun r => 0 < length_of r) rs -> filter is_physical rs <> [] -> 1 <= _physical_fragment_count rs.
Proof.
  intros Hl Hne. unfold _physical_fragment_count.
  assert (exists l, Some l ∈ expand rs) as [l Hin].
  { destruct (filter is_physical rs) as [|r rest] eqn:E; [done|]. assert (r ∈ filter is_physical rs) as Hr by (rewrite E; set_solver).
    apply list_elem_of_filter in Hr as [Hp Hr]. rewrite Forall_forall in Hl. specialize (Hl r Hr). unfold is_physical in Hp.
    destruct (lcn r) as [l|] eqn:El; [|done]. exists l. unfold expand. apply list_elem_of_In, in_concat. exists (expand_run r).
    split; [apply in_map; by apply list_elem_of_In|]. apply list_elem_of_In. unfold expand_run. rewrite El.
    apply list_elem_of_fmap. exists l. split; [done|]. apply elem_of_py_range. lia. }
  rewrite <- (coalesce_expand rs) in Hin. unfold expand in Hin. apply list_elem_of_In, in_concat in Hin as (e & He & Hin).
  apply in_map_iff in He as (r & <- & Hr). apply list_elem_of_In in Hr, Hin.
  assert (is_physical r = true) as Hp.
  { unfold expand_run in Hin. unfold is_physical. destruct (lcn r); [done|]. by apply elem_of_replicate in Hin as [? _]. }
  assert (r ∈ filter is_physical (_coalesce_runs rs)) as Hf by (apply list_elem_of_filter; by rewrite Hp).
  destruct (filter is_physical (_coalesce_runs rs)) as [|q l']; [by apply elem_of_nil in Hf|]. rewrite py_len_cons. pose proof (py_len_nonneg l'). lia.
Qed.

Lemma dict_set_Forall2 {K V} `{EqDecision K} (R : K * V -> K * V -> Prop) k v v' d :
  (forall x, x ∈ d -> R x x) -> dict_get k d = Some v -> R (k, v) (k, v') -> Forall2 R d (dict_set k v' d).
Proof.
  induction d as [|[k0 v0] d IH]; intros Hr Hg Hv; simpl in *; [done|]. destruct (decide (k = k0)) as [->|].
  - injection Hg as ->. constructor; [done|]. clear -Hr. induction d as [|x d IH]; constructor; [apply Hr; set_solver|apply IH; set_solver].
  - constructor; [apply Hr; set_solver|]. apply IH; [|done|done]. intros; apply Hr; set_solver.
Qed.

Definition same_stream (a b : (Z * Z) * StreamInfo) : Prop := a.1 = b.1 /\ evolved a.2 b.2.

Lemma same_streams_refl l : Forall2 same_stream l l.
Proof. induction l; constructor; [split; [done|apply evolved_refl]|done]. Qed.

(** The plan after a compact move. *)
Lemma update_plan_evolved total plan owner gap m plan' updated :
  plan_ok total plan -> owner ∈ plan_infos plan -> compact_move owner gap m ->
  (forall g, lcn gap = Some g -> 0 <= g /\ g + length_of gap <= total) ->
  _update_moved_stream plan owner (inr (new_runs m)) None = Ok (plan', updated) ->
  plan_ok total plan' /\ Forall2 same_stream (streams plan) (streams plan').
Proof.
  intros [Hnd Hall] Hin Hm Hgap H. unfold _update_moved_stream in H. cbn [mbind result_bind] in H. injection H as <- <-.
  destruct Hm as (g & Hg & Hc & Hs & Hd & Hn & Hlow & _). destruct (Hgap g Hg) as [Hg0 Hend].
  rewrite Hn, Hd, coalesce_one by lia. unfold plan_infos in Hin. apply list_elem_of_fmap in Hin as ([key info] & Heq & Hi). simpl in Heq. subst info.
  rewrite Forall_forall in Hall. destruct (Hall _ Hi) as [Hk Hfit]. cbn [fst snd] in Hk, Hfit. subst key.
  destruct (contiguous_run g (s_clusters owner) ltac:(lia)) as (Hfrag & Hcl & Hhigh & _).
  match goal with |- context [dict_set _ ?u (streams plan)] => set (new := u) end.
  change (s_key new) with (s_key owner).
  assert (Hne : filter is_physical (s_runs owner) <> []).
  { intros Hno. unfold s_clusters, physical_clusters in Hc. rewrite Hno in Hc. simpl in Hc. lia. }
  assert (evolved owner new) as Hev.
  { split; [done|]. split; [exact Hcl|]. right. split; [exact Hfrag|]. split; [|done]. unfold s_highest_lcn at 1. cbn [s_runs new]. rewrite Hhigh.
    transitivity (g + length_of gap); [lia|]. apply lowest_above; [done|]. apply Forall_forall. intros r Hr Hp.
    rewrite Forall_forall in Hlow. assert (r ∈ source_runs m) as Hsr.
    { rewrite Hs. apply list_elem_of_filter. split; [|done]. rewrite Hp. unfold stream_fits in Hfit. rewrite Forall_forall in Hfit.
      destruct (Hfit r Hr) as (Hl & _). by rewrite (proj2 (Z.ltb_lt _ _)). }
    destruct (Hlow r Hsr) as (l & El & _ & Hle). unfold first_lcn. by rewrite El. }
  cbn [streams]. split; [split|].
  - cbn [streams]. by apply dict_set_NoDup.
  - cbn [streams]. apply Forall_forall. intros item Hit. apply elem_of_dict_set in Hit as [->|Hit]; [|by apply Hall]. split; [done|].
    unfold stream_fits. cbn [snd s_runs new]. apply Forall_singleton. split; [simpl; lia|]. split; [unfold lcn_ok; simpl; lia|].
    unfold run_outside. simpl. rewrite (proj2 (Z.ltb_ge _ _)), (proj2 (Z.ltb_ge _ _)) by lia. done.
  - eapply (dict_set_Forall2 same_stream); [|apply elem_dict_get; [done|exact Hi]|done].
    intros x _. split; [done|apply evolved_refl].
Qed.

(** ** The loop *)

Section compact_facts.
Context (live_cells total : Z) (start_plan : AllocationPlan) (high0 : Z).

Definition downward (om : StreamInfo * ExtentMove) : Prop :=
  exists gap, compact_move om.1 gap om.2.

Definition compact_inv (s : compact_state) : Prop :=
  wf_bytes (bitmap (c_layout s)) /\ total <= 8 * py_len (bitmap (c_layout s)) /\
  0 <= c_current_high s <= Z.max 0 total /\ c_current_high s <= high0 /\
  all_free (bitmap (c_layout s)) (c_current_high s) total /\
  plan_ok total (c_plan s) /\ Forall2 same_stream (streams start_plan) (streams (c_plan s)) /\ Forall downward (c_moved s).

(** The clusters between the cursor and [lb] are in use. *)
Definition packed_to (s : compact_state) (lb : Z) : Prop :=
  0 < lb /\ forall x, Z.max 1 (c_packed_cursor s) <= x < lb -> bit_at (bitmap (c_layout s)) x = true.

Lemma Forall2_same_trans plan1 plan2 plan3 :
  plan_ok total plan2 -> Forall2 same_stream (streams plan1) (streams plan2) -> Forall2 same_stream (streams plan2) (streams plan3) ->
  Forall2 same_stream (streams plan1) (streams plan3).
Proof.
  intros [_ Hall]. generalize (streams plan1) (streams plan2) (streams plan3) Hall. clear. intros l1 l2 l3 Hall H12 H23.
  revert l3 H23. induction H12 as [|a b l1 l2 [K1 E1] H12 IH]; intros l3 H23; inversion_clear H23 as [|? c ? l3' [K2 E2] H]; constructor.
  - apply Forall_cons in Hall as [[_ Hf] _]. split; [congruence|]. by eapply evolved_trans.
  - apply IH; [by apply Forall_cons in Hall as [_ ?]|done].
Qed.

Lemma compact_step_inv s d t r lb :
  compact_inv s -> packed_to s lb -> compact_step live_cells s d = (t, Ok r) ->
  match r with
  | inl s' => compact_inv s'
  | inr s' => compact_inv s' /\ exists lb', lb < lb' <= Z.max 0 (c_current_high s) /\ packed_to s' lb'
  end.
Proof.
  intros (Hw & Htot & Hhigh & Hhigh0 & Hfree & Hplan & Hsame & Hdown) [Hlb Hpack] H. unfold compact_step in H.
  set (b := bitmap (c_layout s)) in *.
  apply pbind_inv in H as (t1 & hole & t2 & R & H & ->). apply lift_inv in R as [-> R]. simpl replay in H. cbn [app].
  destruct (next_free_run_spec b (Z.max packing_start (c_packed_cursor s)) (c_current_high s) Hw) as (hole' & R' & Hhole).
  assert (hole' = hole) as -> by congruence. unfold packing_start in Hhole.
  assert (scan_limit b (c_current_high s) <= c_current_high s) as Hlim by (unfold scan_limit; lia).
  destruct hole as [hole|].
  2:{ apply pret_inv in H as [_ <-]. unfold compact_inv. cbn. split; [done|]. split; [done|]. split; [lia|]. done. }
  destruct Hhole as (g & n & -> & Hn & Hg & Hgn & Hused & Hgap & _). cbn [lcn default from_option id length_of] in H.
  assert (lb <= g) as Hlbg.
  { destruct (Z.le_gt_cases lb g) as [|Hlt]; [done|]. specialize (Hgap g ltac:(lia)). rewrite Hpack in Hgap by lia. done. }
  apply pbind_inv in H as (t1 & [chosen reason] & t3 & Rs & H & ->). pose proof (select_owner _ _ _ _ _ _ _ Rs) as Hsel.
  destruct chosen as [[[owner c] m]|].
  2:{ apply pret_inv in H as [_ <-]. split; [unfold compact_inv; cbn; split; [done|]; split; [done|]; split; [lia|]; done|].
      exists (g + n). split; [lia|]. split; [lia|]. cbn. intros x Hx. lia. }
  destruct Hsel as (Hin & _ & Hcm & _). set (gap := mkRun (Some g) n) in *.
  apply pbind_inv in H as (u1 & b' & u2 & Rm & H & ->). destruct (move_extent_bitmap _ _ _ _ _ _ Rm) as (b1 & E1 & E2).
  apply pbind_inv in H as (u1' & live & u3 & _ & H & ->). apply pbind_inv in H as (u4 & [plan' upd] & u5 & Ru & H & ->). apply lift_inv in Ru as [-> Ru].
  apply pbind_inv in H as (u4' & high & u6 & Rh & H & ->). apply lift_inv in Rh as [-> Rh].
  apply pbind_inv in H as (u5' & ng & u7 & _ & H & ->). apply pret_inv in H as [-> <-].
  assert (owner ∈ plan_infos (c_plan s) /\ stream_fits total owner) as [_ Hfits].
  { split; [done|]. destruct Hplan as [_ Hall]. unfold plan_infos in Hin. apply list_elem_of_fmap in Hin as ([k i] & -> & Hi).
    rewrite Forall_forall in Hall. by destruct (Hall _ Hi). }
  pose proof Hcm as (g' & [= <-] & Hc & _). cbn [length_of gap] in Hc.
  destruct (set_move_bits total b b1 b' owner gap m g) as (W' & L' & Habove & Hdest & Hbelow); try done; [cbn; lia..|].
  cbn [length_of gap] in Habove.
  destruct (update_plan_evolved total (c_plan s) owner gap m plan' upd) as [Hplan' Hsame']; try done.
  { intros g2 [= <-]. cbn. lia. }
  assert (0 <= high <= c_current_high s /\ all_free b' high total) as [Hh' Hf'].
  { assert (all_free b' (c_current_high s) total) as Hf0.
    { intros x Hx. specialize (Hfree x Hx). destruct (bit_at b' x) eqn:Ex; [|done]. rewrite (Habove x) in Hfree; (done || lia). }
    destruct (existsb _ _) in Rh; [|injection Rh as <-; split; [lia|done]].
    destruct (highest_used_before_facts b' (c_current_high s) W') as (h & Eh & Hh & _ & Hfr). assert (h = high) as -> by congruence.
    assert (scan_limit b' (c_current_high s) <= c_current_high s) by (unfold scan_limit; lia). split; [lia|].
    intros x Hx. destruct (Z.lt_ge_cases x (c_current_high s)) as [Hlt|]; [|apply Hf0; lia]. apply Hfr. unfold scan_limit. lia. }
  split.
  - unfold compact_inv. cbn. split; [done|]. split; [lia|]. split; [lia|]. split; [lia|]. split; [done|]. split; [done|].
    split; [exact (Forall2_same_trans start_plan (c_plan s) plan' Hplan Hsame Hsame')|]. apply Forall_app_2; [done|]. apply Forall_singleton. by exists gap.
  - exists (g + s_clusters owner). split; [lia|]. split; [lia|]. cbn. intros x Hx. apply Hdest. lia.
Qed.

Lemma packed_start s : packed_to s (Z.max 1 (c_packed_cursor s)).
Proof. split; [lia|]. intros x Hx. lia. Qed.

(** Enough iterations are as good as more. *)
Lemma compact_loop_fuel stop : forall fuel fuel' i s d lb,
  compact_inv s -> packed_to s lb -> (1 <= fuel)%nat -> (fuel <= fuel')%nat -> Z.max 0 high0 - lb < Z.of_nat fuel ->
  compact_loop live_cells fuel' stop i s d = compact_loop live_cells fuel stop i s d.
Proof.
  induction fuel as [|fuel IH]; intros fuel' i s d lb Hinv Hp H1 Hle Hlb; [lia|]. destruct fuel' as [|fuel']; [lia|].
  cbn [compact_loop]. destruct (stop i); [done|]. unfold pbind. destruct (compact_step live_cells s d) as [t [r|e]] eqn:E; [|done].
  pose proof (compact_step_inv s d t r lb Hinv Hp E) as Hr. destruct r as [s'|s']; [done|]. destruct Hr as (Hinv' & lb' & Hlb' & Hp').
  assert (c_current_high s <= high0) by apply Hinv. rewrite (IH fuel' (S i) s' _ lb') by (done || lia). done.
Qed.

Lemma compact_loop_inv stop : forall fuel i s d t s' lb,
  compact_inv s -> packed_to s lb -> compact_loop live_cells fuel stop i s d = (t, Ok s') -> compact_inv s'.
Proof.
  induction fuel as [|fuel IH]; intros i s d t s' lb Hinv Hp H; cbn [compact_loop] in H; [by apply lift_inv in H as [_ H]|].
  destruct (stop i); [by apply pret_inv in H as [_ <-]|]. apply pbind_inv in H as (t1 & r & t2 & R & H & ->).
  pose proof (compact_step_inv s d t1 r lb Hinv Hp R) as Hr. destruct r as [s1|s1]; [by apply pret_inv in H as [_ <-]|].
  destruct Hr as (Hinv' & lb' & _ & Hp'). by eapply IH.
Qed.
End compact_facts.

Lemma read_mft_record_reads vol rs number d t x : wf_bytes d -> _read_mft_record (J:=journal_state) vol rs number d = (t, Ok x) -> t = [].
Proof.
  intros Hw H. unfold _read_mft_record in H. prog_step H. apply read_stream_wf in R as [-> _]; [|done]. pure_step H fixed Rf.
  apply pbind_inv in H as (u1 & s & u2 & R & H & ->). assert (u1 = []) as ->; [|by apply pret_inv in H as [-> _]].
  unfold first_segment in R. destruct (yielded _) in R; [destruct (raised _) in R; by apply lift_inv in R as [-> _]|by apply pret_inv in R as [-> _]].
Qed.

(** A layout that was read has a bitmap that covers the volume. *)
Lemma read_layout_facts vol allow_dirty check_volume d t L :
  wf_bytes d -> _read_layout (J:=journal_state) vol allow_dirty check_volume d = (t, Ok L) ->
  t = [] /\ volume L = vol /\ wf_bytes (bitmap L) /\ total_clusters vol <= 8 * py_len (bitmap L).
Proof.
  intros Hw H. unfold _read_layout in H. apply pbind_inv in H as (t1 & [[x0 x1] attr] & t2 & R & H & ->).
  pose proof (record_zero_trace _ _ _ _ R) as ->. simpl replay in H. apply pbind_inv in H as (u1 & x & u2 & Rc & H & ->).
  assert (u1 = []) as ->.
  { destruct check_volume; [|by apply pret_inv in Rc as [-> _]]. apply pbind_inv in Rc as (w1 & [[y1 y2] y3] & w2 & R1 & Rc & ->).
    apply read_mft_record_reads in R1 as ->; [|done]. pure_step Rc fl R2. by apply lift_inv in Rc as [-> _]. }
  simpl replay in H. apply pbind_inv in H as (u1 & [[z1 z2] z3] & u3 & R6 & H & ->). apply read_mft_record_reads in R6 as ->; [|done].
  pure_step H attrs Ra. destruct (List.filter is_data attrs) as [|battr [|]]; [by apply lift_inv in H as [_ H]| |by apply lift_inv in H as [_ H]].
  destruct (negb _) in H; [by apply lift_inv in H as [_ H]|]. apply pbind_inv in H as (u1 & data & u4 & Rd & H & ->).
  apply read_stream_wf in Rd as [-> Hd]; [|done]. destruct (Z.ltb_spec (py_len data * 8) (total_clusters vol)); [by apply lift_inv in H as [_ H]|].
  apply pret_inv in H as [-> <-]. split; [done|]. split; [done|]. split; [exact Hd|]. cbn. lia.
Qed.

(** C14. Termination of compaction: the main loop performs at most one iteration
    per cluster below the allocation boundary, whatever the device holds and
    whenever a stop is requested: more iterations than that never change the
    outcome, so it never ends for lack of fuel. *)
Theorem compact_terminates (live_cells total high : Z) (plan : AllocationPlan) (stop : nat -> bool) (s : compact_state) (d : bytes) (fuel : nat)
    (Hinv : compact_inv total plan high s) (Hfuel : (S (Z.to_nat high) <= fuel)%nat) :
  compact_loop live_cells fuel stop 0 s d = compact_loop live_cells (S (Z.to_nat high)) stop 0 s d.
Proof. eapply compact_loop_fuel; [exact Hinv|apply packed_start|lia|done|lia]. Qed.


(** ** A volume to pack

    Forty-eight clusters of 128 bytes: the MFT in clusters 1 to 26, its mirror
    in 27 to 30, the bitmap in 31; record 24 is a file in clusters 36 and 38,
    record 25 a file in clusters 40 and 41. *)
Definition pack_vol : Volume := mkVolume "/dev/pack" 6144 64 2 128 48 1 27 128 [1; 2; 3; 4; 5; 6; 7; 8].

Definition blank_record : bytes := sealed (poke sample_header (48, [255; 255; 255; 255])).

Definition pack_device : bytes :=
  py_zeros 128 ++
  sealed (sample_stream 26 3328 [17; 26; 1]) ++ blank_record ++ blank_record ++ sealed sample_volume_record ++
  blank_record ++ blank_record ++ sealed (sample_stream 1 6 [17; 1; 31]) ++
  concat (replicate 17 blank_record) ++
  sealed (sample_stream 2 200 [17; 1; 36; 17; 1; 2]) ++ sealed (sample_stream 2 256 [17; 2; 40]) ++
  py_zeros 384 ++ sealed sample_volume_record ++
  ([255; 255; 255; 255; 80; 3] ++ py_zeros 122) ++ py_zeros 512 ++
  map (fun i => i mod 251) (py_range 0 128) ++ py_zeros 128 ++ map (fun i => i mod 241) (py_range 0 128) ++ py_zeros 128 ++
  map (fun i => i mod 239) (py_range 0 256) ++ py_zeros 768.

Definition run_value {A} (r : list (effect journal_state) * result A) (default : A) : A :=
  match r.2 with Ok a => a | Raise _ => default end.

Definition no_layout : NtfsLayout := mkLayout pack_vol [] 0 [] 0 [].
Definition no_plan : AllocationPlan := mkPlan [] [] [] 0 0 false.

Definition pack_layout : NtfsLayout := run_value (_read_layout pack_vol false true pack_device) no_layout.
Definition pack_plan : AllocationPlan := run_value (_scan_allocation_plan pack_layout pack_device) no_plan.
Definition pack_start : compact_state := mkCompact pack_layout pack_plan 32 42 [] 0 [] [].
Definition never : nat -> bool := fun _ => false.
Definition pack_result : compact_state := run_value (compact 0 false false never pack_vol pack_device) pack_start.

Lemma pack_device_wf : wf_bytes pack_device.
Proof. apply (bool_decide_unpack _). vm_compute. exact I. Qed.

Lemma pack_plan_ok : plan_ok 48 pack_plan.
Proof.
  destruct (scan_plan_ok pack_layout pack_device pack_device_wf [] pack_plan) as [_ H]; [vm_compute; reflexivity|]. exact H.
Qed.

Lemma pack_inv : compact_inv 48 pack_plan 42 pack_start.
Proof.
  unfold compact_inv, pack_start. cbn [c_layout c_plan c_current_high c_moved].
  split; [apply (bool_decide_unpack _); vm_compute; exact I|]. split; [vm_compute; done|].
  split; [split; vm_compute; done|]. split; [vm_compute; done|]. split.
  - intros x Hx. assert (Forall (fun x => bit_at (bitmap pack_layout) x = false) (py_range 42 48)) as H
      by (apply (bool_decide_unpack _); vm_compute; exact I).
    rewrite Forall_forall in H. apply H. by apply elem_of_py_range.
  - split; [apply pack_plan_ok|]. split; [|constructor].
    apply same_streams_refl.
Qed.

Lemma compact_terminates_witness :
  compact_loop 0 1000 never 0 pack_start pack_device = compact_loop 0 43 never 0 pack_start pack_device.
Proof. apply (compact_terminates 0 48 42 pack_plan never pack_start pack_device 1000 pack_inv). lia. Defined.


Definition pack_gap : Run := mkRun (Some 32) 4.
Definition pack_choice : option (StreamInfo * Candidate * ExtentMove) * string :=
  run_value (_select_compact_source pack_layout pack_plan pack_gap pack_device) (None, "").

Lemma select_compact_source_best_witness :
  match pack_choice.1 with
  | Some (owner, c, m) => owner ∈ plan_infos pack_plan /\ compact_move owner pack_gap m /\ runs (attribute c) = s_runs owner
  | None => False
  end.
Proof.
  destruct pack_choice as [[[[owner c] m]|] reason] eqn:E; [|vm_compute in E; discriminate E].
  destruct (select_compact_source_best pack_layout pack_plan pack_gap pack_device [] owner c m reason) as (H1 & _ & H2 & _ & H3 & _).
  - transitivity ((_select_compact_source pack_layout pack_plan pack_gap pack_device).1, Ok pack_choice);
      [unfold pack_choice, run_value; vm_compute; reflexivity|]. rewrite E. vm_compute. reflexivity.
  - exact (conj H1 (conj H2 H3)).
Defined.

(** ** Lemmas: defragmentation *)

Lemma decode_loop_positive fuel data : forall pos prev acc rs,
  Forall (fun r => 0 < length_of r) acc -> decode_loop fuel data pos prev acc = Ok rs -> Forall (fun r => 0 < length_of r) rs.
Proof.
  induction fuel as [|fuel IH]; intros pos prev acc rs Hacc H; cbn [decode_loop] in H;
    destruct (pos <? py_len data); try done; try (injection H as <-; done).
  inv_ok. destruct (a =? 0); [by injection H as <-|]. inv_ok. bool_to_prop.
  destruct (Z.shiftr a 4 =? 0).
  - eapply IH; [|exact H]. apply Forall_app_2; [done|]. by apply Forall_singleton.
  - inv_ok. eapply IH; [|exact H]. apply Forall_app_2; [done|]. by apply Forall_singleton.
Qed.

Definition positive_attribute (a : Attribute) : Prop := nonresident a = true -> Forall (fun r => 0 < length_of r) (runs a).

Lemma attributes_positive fixed attrs : list_of (_attributes fixed) = Ok attrs -> Forall positive_attribute attrs.
Proof.
  intros H. assert (Forall positive_attribute (yielded (_attributes fixed))) as Hy.
  { unfold _attributes. destruct (u16le fixed 20) as [pos|]; [|constructor]. destruct (u32le fixed 24) as [used|]; [|constructor].
    revert pos. generalize (length fixed) as fuel. induction fuel as [|fuel IH]; intros pos; cbn [attributes_loop]; destruct (_ <=? _); try constructor.
    destruct (parse_attribute fixed (Z.min (py_len fixed) used) pos) as [[a|]|] eqn:E; try constructor; [|apply IH].
    intros Hnr. unfold parse_attribute in E. inv_ok. destruct (_ =? 4294967295); [done|]. inv_ok.
    match type of E with (if ?b then _ else _) = _ => destruct b end; inv_ok; [|simpl in Hnr; discriminate]. cbn [runs]. unfold _decode_runlist in *. eapply decode_loop_positive; [|eassumption]. constructor. }
  unfold list_of in H. destruct (raised _); [done|]. by injection H as <-.
Qed.

(** A loaded candidate is a stream of physical extents of positive length. *)
Lemma load_candidate_runs layout info d t c :
  _load_candidate layout info d = (t, Ok c) ->
  Forall (fun r => is_physical r = true /\ 0 < length_of r) (runs (attribute c)) /\ runs (attribute c) <> [].
Proof.
  intros Rc. unfold _load_candidate in Rc. apply pbind_inv in Rc as (? & [[ro raw] fixed] & ? & _ & Rc & _).
  apply pbind_inv in Rc as (? & fl & ? & _ & Rc & _). destruct (_ || _) in Rc; [by apply lift_inv in Rc as [_ Rc]|].
  apply pbind_inv in Rc as (? & attrs & ? & Ra & Rc & _). apply lift_inv in Ra as [_ Ra].
  apply pbind_inv in Rc as (? & [found|] & ? & Rf & Rc & _); [|by apply lift_inv in Rc as [_ Rc]]. apply lift_inv in Rf as [_ Rf].
  destruct (negb _) in Rc; [by apply lift_inv in Rc as [_ Rc]|]. apply pret_inv in Rc as [_ <-]. cbn [attribute].
  pose proof (attributes_positive _ _ Ra) as Hpos. unfold _select_movable_attribute in Rf. inv_ok.
  destruct (_ || _) in Rf; [done|]. inv_ok. destruct (flag_set _ _) in Rf; [done|]. destruct (existsb is_list attrs); [done|].
  assert (forall p, (forall a, p a = true -> nonresident a = true) -> forall x, x ∈ List.filter p attrs -> Forall (fun r => 0 < length_of r) (runs x)) as Hp.
  { intros p Hp y Hy. apply list_elem_of_In, filter_In in Hy as [Hy Hpy]. rewrite Forall_forall in Hpos.
    apply (Hpos y); [by apply list_elem_of_In|by apply Hp]. }
  assert (exists attr, found = attr /\ Forall (fun r => 0 < length_of r) (runs attr) /\
            existsb (fun r => negb (is_physical r)) (runs attr) = false /\ runs attr <> []) as (attr & -> & Hpa & Hph & Hne).
  { destruct (flag_set _ RECORD_DIRECTORY).
    - pose proof (Hp is_index) as Hpi. destruct (List.filter is_index attrs) as [|attr [|]]; try done.
      destruct (_ || _) in Rf; [done|]. destruct (existsb _ _) eqn:Ex in Rf; [done|]. destruct (_ || _) eqn:Eo in Rf; [done|].
      injection Rf as <-. exists attr. split; [done|]. split; [|split; [done|by apply orb_false_elim in Eo as [Eo%bool_decide_eq_false _]]].
      apply Hpi; [|set_solver]. intros b Hb. unfold is_index in Hb. by bool_to_prop.
    - pose proof (Hp is_data) as Hpi. destruct (List.filter is_data attrs) as [|attr [|]]; try done.
      destruct (_ || _) in Rf; [done|]. destruct (existsb _ _) eqn:Ex in Rf; [done|]. destruct (_ || _) eqn:Eo in Rf; [done|].
      injection Rf as <-. exists attr. split; [done|]. split; [|split; [done|by apply orb_false_elim in Eo as [Eo%bool_decide_eq_false _]]].
      apply Hpi; [|set_solver]. intros b Hb. unfold is_data in Hb. by bool_to_prop. }
  split; [|done]. apply existsb_false in Hph. rewrite Forall_forall in Hpa, Hph |- *. intros r Hr. split; [|by apply Hpa].
  specialize (Hph r Hr). by apply negb_false_iff in Hph.
Qed.

Lemma candidate_clusters_pos c :
  Forall (fun r => is_physical r = true /\ 0 < length_of r) (runs (attribute c)) -> runs (attribute c) <> [] -> 0 < Candidate_clusters c.
Proof.
  intros H Hne. unfold Candidate_clusters, physical_clusters. destruct H as [|r rs [Hp Hl] Hrs]; [done|].
  rewrite filter_cons. rewrite decide_True by by rewrite Hp. simpl.
  assert (0 <= zsum (map length_of (filter is_physical rs))); [|unfold zsum in *; lia].
  apply zsum_nonneg, Forall_forall. intros x (q & -> & Hq)%list_elem_of_fmap. apply list_elem_of_filter in Hq as [_ Hq].
  rewrite Forall_forall in Hrs. destruct (Hrs q Hq). lia.
Qed.

(** What defragmentation may do to a stream, and the moves it performs. *)
Definition rebuilt (a b : (Z * Z) * StreamInfo) : Prop :=
  a.1 = b.1 /\ (s_runs b.2 = s_runs a.2 \/ exists g n, 0 < n /\ s_runs b.2 = [mkRun (Some g) n]).

Definition whole_stream (om : StreamInfo * ExtentMove) : Prop :=
  exists c g, 0 < Candidate_clusters c /\ record_number c = s_record_number om.1 /\ om.2 = whole_move c g /\
    runs_length (source_runs om.2) = runs_length (destination_runs om.2).

Lemma load_candidate_number layout info d t c : _load_candidate layout info d = (t, Ok c) -> record_number c = s_record_number info.
Proof.
  intros Rc. unfold _load_candidate in Rc. apply pbind_inv in Rc as (? & [[ro raw] fixed] & ? & _ & Rc & _).
  apply pbind_inv in Rc as (? & fl & ? & _ & Rc & _). destruct (_ || _) in Rc; [by apply lift_inv in Rc as [_ Rc]|].
  apply pbind_inv in Rc as (? & attrs & ? & _ & Rc & _). apply pbind_inv in Rc as (? & [found|] & ? & _ & Rc & _); [|by apply lift_inv in Rc as [_ Rc]].
  destruct (negb _) in Rc; [by apply lift_inv in Rc as [_ Rc]|]. by apply pret_inv in Rc as [_ <-].
Qed.

Section defrag_facts.
Context (live_cells : Z) (start_plan : AllocationPlan).

Definition keyed (plan : AllocationPlan) : Prop := Forall (fun item => item.1 = s_key item.2) (streams plan).

Definition defrag_inv (s : defrag_state) : Prop :=
  Forall2 rebuilt (streams start_plan) (streams (d_plan s)) /\ Forall whole_stream (d_moved s) /\ keyed (d_plan s).

Definition planned (plan : AllocationPlan) (info : StreamInfo) : Prop := s_key info ∈ map fst (streams plan).

Lemma rebuilt_set k v l0 l :
  k ∈ map fst l -> (exists g n, 0 < n /\ s_runs v = [mkRun (Some g) n]) -> Forall2 rebuilt l0 l -> Forall2 rebuilt l0 (dict_set k v l).
Proof.
  intros Hk Hv H. induction H as [|a b l0 l [Hkey Hr] H IH]; simpl in *; [by apply elem_of_nil in Hk|].
  destruct b as [k' v']. simpl in *. destruct (decide (k = k')) as [->|].
  - constructor; [|done]. split; [done|]. by right.
  - constructor; [by split|]. apply IH. set_solver.
Qed.

(** The plan after any whole-stream move. *)
Lemma update_plan_rebuilt plan info c g plan' upd :
  planned plan info -> 0 < Candidate_clusters c ->
  _update_moved_stream plan info (inr (new_runs (whole_move c g))) None = Ok (plan', upd) ->
  keyed plan -> Forall2 rebuilt (streams start_plan) (streams plan) -> Forall2 rebuilt (streams start_plan) (streams plan') /\
  map fst (streams plan') = map fst (streams plan) /\ keyed plan'.
Proof.
  intros Hk Hc H Hkd HF. unfold _update_moved_stream in H. cbn [mbind result_bind] in H. injection H as <- _. cbn [streams].
  split; [|split; [by apply dict_set_keys|]].
  2:{ apply Forall_forall. intros item [->|Hi]%elem_of_dict_set; [done|]. unfold keyed in Hkd. rewrite Forall_forall in Hkd. by apply Hkd. } apply rebuilt_set; [done| |done]. cbn [s_runs]. rewrite coalesce_one by done. eauto.
Qed.

Lemma whole_stream_move info c g d layout t :
  _load_candidate layout info d = (t, Ok c) -> whole_stream (info, whole_move c g) /\ 0 < Candidate_clusters c.
Proof.
  intros Rc. destruct (load_candidate_runs _ _ _ _ _ Rc) as [Hr Hne]. pose proof (candidate_clusters_pos c Hr Hne) as Hc. split; [|done].
  exists c, g. split; [done|]. split; [by eapply load_candidate_number|]. split; [done|]. unfold whole_move, runs_length. cbn.
  unfold Candidate_clusters, physical_clusters. rewrite filter_all; [unfold zsum; lia|].
  eapply Forall_impl; [exact Hr|]. intros r [Hp _]. by rewrite Hp.
Qed.

(** The moving half that the two kinds of pass share. *)
Lemma moved_inv s info layout d d' t1 c g b t2 plan' upd pend keys mc sk pm lv :
  defrag_inv s -> planned (d_plan s) info -> _load_candidate layout info d = (t1, Ok c) ->
  _move_extent layout c (whole_move c g) d' = (t2, Ok b) ->
  _update_moved_stream (d_plan s) info (inr (new_runs (whole_move c g))) None = Ok (plan', upd) ->
  defrag_inv (mkDefrag (with_bitmap layout b) plan' pend keys (d_moved s ++ [(info, whole_move c g)]) mc sk pm lv) /\
  map fst (streams plan') = map fst (streams (d_plan s)).
Proof.
  intros (HF & Hm & Hkd) Hk Rc _ Hu. destruct (whole_stream_move info c g _ _ _ Rc) as [Hw Hc].
  destruct (update_plan_rebuilt _ _ _ _ _ _ Hk Hc Hu Hkd HF) as (HF' & Hkeys & Hkd'). split; [|done]. split; [done|].
  split; [|done]. cbn. apply Forall_app_2; [done|]. by apply Forall_singleton.
Qed.

Definition good_body (body : defrag_state -> StreamInfo -> nprog defrag_state) : Prop :=
  forall s info d t s', defrag_inv s -> planned (d_plan s) info -> body s info d = (t, Ok s') ->
    defrag_inv s' /\ map fst (streams (d_plan s')) = map fst (streams (d_plan s)).

Lemma place_stream_good pass : good_body (place_stream live_cells pass).
Proof.
  intros s info d t s' Hinv Hk H. unfold place_stream in H. apply pbind_inv in H as (t1 & c & t2 & Rc & H & ->).
  destruct (_ <=? 1) in H; [apply pret_inv in H as [_ <-]; by split|].
  apply pbind_inv in H as (u1 & found & u2 & _ & H & ->). destruct found as [g|]; [|apply pret_inv in H as [_ <-]; by split].
  apply pbind_inv in H as (w1 & b & w2 & Rm & H & ->). apply pbind_inv in H as (w3 & live & w4 & _ & H & ->).
  apply pbind_inv in H as (w5 & [plan' upd] & w6 & Ru & H & ->). apply lift_inv in Ru as [_ Ru]. apply pret_inv in H as [_ <-].
  cbn [d_plan]. eapply moved_inv; eauto.
Qed.

Lemma settle_stream_good pass : good_body (settle_stream live_cells pass).
Proof.
  intros s info d t s' Hinv Hk H. unfold settle_stream in H. apply pbind_inv in H as (t1 & c & t2 & Rc & H & ->).
  destruct (negb _) in H; [by apply lift_inv in H as [_ H]|].
  apply pbind_inv in H as (u1 & found & u2 & _ & H & ->). destruct found as [g|]; [|apply pret_inv in H as [_ <-]; by split].
  apply pbind_inv in H as (w1 & b & w2 & Rm & H & ->). apply pbind_inv in H as (w3 & live & w4 & _ & H & ->).
  apply pbind_inv in H as (w5 & [plan' upd] & w6 & Ru & H & ->). apply lift_inv in Ru as [_ Ru]. apply pret_inv in H as [_ <-].
  cbn [d_plan]. eapply moved_inv; eauto.
Qed.

Lemma run_streams_inv stop body infos : forall i s d t i' s',
  good_body body -> defrag_inv s -> Forall (planned (d_plan s)) infos -> run_streams stop body i infos s d = (t, Ok (i', s')) ->
  defrag_inv s' /\ map fst (streams (d_plan s')) = map fst (streams (d_plan s)).
Proof.
  induction infos as [|info infos IH]; intros i s d t i' s' Hb Hinv Hk H; cbn [run_streams] in H; [by apply pret_inv in H as [_ [= _ <-]]|].
  destruct (stop i); [by apply pret_inv in H as [_ [= _ <-]]|]. apply Forall_cons in Hk as [Hk Hks].
  apply pbind_inv in H as (t1 & s1 & t2 & R & H & ->). destruct (Hb _ _ _ _ _ Hinv Hk R) as [Hinv1 Hkeys].
  apply IH in H as [Hinv' Hkeys']; [split; [done|congruence]|done|done|].
  eapply Forall_impl; [exact Hks|]. intros x. unfold planned. by rewrite Hkeys.
Qed.

(** The streams of a pass are streams of the plan. *)
Lemma pass_streams_planned order plan keys :
  keyed plan -> Forall (planned plan) (pass_streams order plan keys).
Proof.
  intros Hk. unfold pass_streams. rewrite py_sorted_perm. apply Forall_forall. intros info Hi.
  apply list_elem_of_omap in Hi as (key & _ & Hg). apply dict_get_elem in Hg. unfold planned.
  unfold keyed in Hk. rewrite Forall_forall in Hk. specialize (Hk _ Hg). simpl in Hk. rewrite <- Hk. apply list_elem_of_fmap. by exists (key, info).
Qed.

Lemma run_passes_inv stop order keys body passes : forall i s d t i' s',
  (forall pass, good_body (body pass)) -> defrag_inv s -> run_passes stop order keys body passes i s d = (t, Ok (i', s')) -> defrag_inv s'.
Proof.
  induction passes as [|pass passes IH]; intros i s d t i' s' Hb Hinv H; cbn [run_passes] in H; [by apply pret_inv in H as [_ [= _ <-]]|].
  destruct (_ || _) in H; [by apply pret_inv in H as [_ [= _ <-]]|].
  apply pbind_inv in H as (t1 & [i1 s1] & t2 & R & H & ->).
  apply run_streams_inv in R as [Hinv1 _]; [|done|exact Hinv|apply pass_streams_planned, Hinv].
  destruct (_ =? 0) in H; [by apply pret_inv in H as [_ [= _ <-]]|]. by eapply IH.
Qed.
End defrag_facts.


Definition in_order : list (Z * Z) -> list (Z * Z) := fun keys => keys.
Definition defrag_start : defrag_state := mkDefrag pack_layout pack_plan [] [] [] 0 0 0 [].
Definition defrag_result : defrag_state := run_value (defragment 0 false false never in_order pack_vol pack_device) defrag_start.


(** The volume of [pack_device] one cluster further up, with a bitmap that does
    not reserve the boot sector: clusters 0 and 1 are marked free. *)
Definition zero_vol : Volume := mkVolume "/dev/zero-free" 6272 64 2 128 49 2 28 128 [1; 2; 3; 4; 5; 6; 7; 8].

Definition zero_device : bytes :=
  py_zeros 256 ++
  sealed (sample_stream 26 3328 [17; 26; 2]) ++ blank_record ++ blank_record ++ sealed sample_volume_record ++
  blank_record ++ blank_record ++ sealed (sample_stream 1 7 [17; 1; 32]) ++
  concat (replicate 17 blank_record) ++
  sealed (sample_stream 2 200 [17; 1; 37; 17; 1; 2]) ++ sealed (sample_stream 2 256 [17; 2; 41]) ++
  py_zeros 384 ++ sealed sample_volume_record ++
  ([252; 255; 255; 255; 161; 6; 0] ++ py_zeros 121) ++ py_zeros 512 ++
  map (fun i => i mod 251) (py_range 0 128) ++ py_zeros 128 ++ map (fun i => i mod 241) (py_range 0 128) ++ py_zeros 128 ++
  map (fun i => i mod 239) (py_range 0 256) ++ py_zeros 768.

Definition zero_result : defrag_state := run_value (defragment 0 false false never in_order zero_vol zero_device) defrag_start.

(** Defragmenting may write file data over the boot sector: on a volume
    whose bitmap does not reserve cluster zero, a run of [defragment] moves a
    stream there, while [compact] leaves the cluster alone on the same volume
    and the destination pool that [defragment] reports excludes it. *)
Theorem defragment_may_use_cluster_zero :
  snd (defragment 0 false false never in_order zero_vol zero_device) = Ok zero_result /\
  Exists (fun moved => exists n, destination_runs (snd moved) = [mkRun (Some 0) n]) (d_moved zero_result) /\
  Forall (fun moved => Forall (fun r => lcn r <> Some 0) (destination_runs (snd moved)))
    (c_moved (run_value (compact 0 false false never zero_vol zero_device) pack_start)) /\
  (filter (fun r => lcn r = Some 0) <$> _defrag_destination_pool [252; 255; 255; 255; 161; 6; 0] 49) = Ok [].
Proof.
  split; [vm_compute; reflexivity|]. split; [|split; [apply (bool_decide_unpack _); vm_compute; exact I|vm_compute; reflexivity]].
  vm_compute. apply Exists_cons_hd. by eexists.
Qed.
