(* ===== verification/NtfsFiles.v ===== *)
(** * The files of an NTFS volume

    The abstract contents of a volume: for every MFT record the list of its
    attributes with type, name, flags, sizes and data, wherever on the device
    the data lie.  [files_of] computes it with the program's own decoder.  The
    operations of the engine must not change it; [NtfsSafety] proves that they
    do not.

    Models nothing of the program itself: it is the specification side of
    [src/gui/ntfs_engine.py]. *)

From S2P Require Import Prelude Text Bytes Ranges RangesFacts Bitmap NtfsRuns NtfsBitmap NtfsRecord Device Addresses NtfsVolume NtfsTxn NtfsTxnFacts NtfsPlan.

(** ** Contents *)

(** The bytes of one virtual cluster, [None] for a hole. *)
Definition cluster_bytes (cs : Z) (d : bytes) (cluster : option Z) : option bytes :=
  match cluster with Some l => Some (gather d (py_range (l * cs) (l * cs + cs))) | None => None end.

Record file_stream := mkStream {
  fs_type : Z;
  fs_name : bytes;
  fs_flags : Z;
  fs_nonresident : bool;
  fs_vcns : Z * Z;
  fs_sizes : Z * Z * Z;
  fs_resident : bytes;
  fs_clusters : list (option bytes)
}.

Definition abstract_stream (cs : Z) (d fixed : bytes) (a : Attribute) : file_stream :=
  mkStream (atype a) (name a) (flags a) (nonresident a) (lowest_vcn a, highest_vcn a) (data_size a, allocated_size a, initialized_size a)
    (if nonresident a then [] else py_slice fixed (offset a) (offset a + alength a)) (map (cluster_bytes cs d) (expand (runs a))).

(** A record in use, decoded as the scan decodes it. *)
Definition decode_record (L : NtfsLayout) (raw : bytes) : option (bytes * list Attribute) :=
  if is_file_record raw then match scan_decode L raw with Ok o => o | Raise _ => None end else None.

Definition decoded (L : NtfsLayout) (d : bytes) (n : Z) : option (bytes * list Attribute) := decode_record L (gather d (RECORD L n)).

Definition files_of (L : NtfsLayout) (d : bytes) (n : Z) : option (list file_stream) :=
  match decoded L d n with
  | Some (fixed, attrs) => Some (map (abstract_stream (cluster_size (volume L)) d fixed) attrs)
  | None => None
  end.

(** ** Clusters and addresses *)

Lemma elem_of_stream_addrs cs rs x : 0 < cs -> x ∈ stream_addrs cs rs <-> in_runs rs (x / cs) = true.
Proof.
  intros Hcs. unfold stream_addrs, in_runs. rewrite list_elem_of_In, in_concat, existsb_exists. split.
  - intros (l & Hl & Hx). apply in_map_iff in Hl as (r & <- & Hr). exists r. split; [done|]. unfold run_addrs in Hx. unfold in_run.
    destruct (lcn r) as [n|]; [|done]. apply list_elem_of_In, elem_of_py_range in Hx. apply between_spec.
    split; [apply Z.div_le_lower_bound; lia|apply Z.div_lt_upper_bound; lia].
  - intros (r & Hr & Hin). exists (run_addrs cs r). split; [by apply in_map|]. unfold in_run in Hin. unfold run_addrs.
    destruct (lcn r) as [n|]; [|done]. apply between_spec in Hin. apply list_elem_of_In, elem_of_py_range.
    pose proof (Z.mul_div_le x cs Hcs). pose proof (Z.mul_succ_div_gt x cs Hcs). nia.
Qed.

(** The clusters of a run list without holes. *)
Definition clusters_of (rs : list Run) : list Z := omap id (expand rs).

Lemma expand_physical rs : Forall physical_run rs -> expand rs = map Some (clusters_of rs).
Proof.
  intros H. assert (Forall (fun o => is_Some o) (expand rs)) as Hs.
  { induction H as [|r rs [Hp _] _ IH]; [constructor|]. unfold expand in *. cbn [map concat]. apply Forall_app_2; [|done].
    unfold is_physical in Hp. unfold expand_run. destruct (lcn r); [|done]. apply Forall_forall. by intros o (? & -> & _)%list_elem_of_fmap. }
  unfold clusters_of. induction Hs as [|o l [x ->] _ IH]; [done|]. cbn. by rewrite <- IH.
Qed.

Lemma run_addrs_clusters cs l n : 0 < cs -> 0 <= n ->
  py_range (l * cs) (l * cs + n * cs) = concat (map (fun c => py_range (c * cs) (c * cs + cs)) (py_range l (l + n))).
Proof.
  intros Hcs Hn. revert l. pattern n. apply natlike_ind; [|clear n Hn; intros n Hn IH l|done].
  - intros l. rewrite !py_range_nil by lia. done.
  - rewrite (py_range_cons l) by lia. cbn [map concat]. rewrite (py_range_split (l * cs) (l * cs + cs)) by nia. f_equal.
    replace (l * cs + cs) with ((l + 1) * cs) by lia. replace (l * cs + Z.succ n * cs) with ((l + 1) * cs + n * cs) by lia.
    rewrite IH. do 3 f_equal. lia.
Qed.

Lemma stream_addrs_clusters cs rs : 0 < cs -> Forall physical_run rs ->
  stream_addrs cs rs = concat (map (fun c => py_range (c * cs) (c * cs + cs)) (clusters_of rs)).
Proof.
  intros Hcs H. induction H as [|r rs [Hp Hl] H IH]; [done|]. unfold stream_addrs, clusters_of, expand in *. cbn [map concat].
  rewrite omap_app, map_app, concat_app, <- IH. f_equal. unfold run_addrs, expand_run, is_physical in *. destruct (lcn r) as [l|]; [|done].
  rewrite run_addrs_clusters by done. do 2 f_equal. clear. induction (py_range l (l + length_of r)) as [|x xs IH]; [done|]. cbn. by f_equal.
Qed.

Lemma concat_inj {A} (k : nat) (xs ys : list (list A)) :
  (0 < k)%nat -> Forall (fun x => length x = k) xs -> Forall (fun y => length y = k) ys -> concat xs = concat ys -> xs = ys.
Proof.
  intros Hk Hx. revert ys. induction Hx as [|x xs Lx Hx IH]; intros ys Hy Heq.
  - destruct Hy as [|y ys Ly Hy]; [done|]. cbn in Heq. destruct y; cbn in *; [lia|done].
  - destruct Hy as [|y ys Ly Hy]; cbn in Heq; [destruct x; cbn in *; [lia|done]|].
    apply app_inj_1 in Heq as [-> Heq]; [|congruence]. f_equal. by apply IH.
Qed.

Lemma gather_concat d ls : gather d (concat ls) = concat (map (gather d) ls).
Proof. unfold gather. induction ls as [|l ls IH]; [done|]. cbn [concat map]. by rewrite map_app, IH. Qed.

(** Streams without holes: equal bytes are equal clusters. *)
Lemma same_bytes_clusters cs d d' rs rs' : 0 < cs -> Forall physical_run rs -> Forall physical_run rs' ->
  gather d' (stream_addrs cs rs') = gather d (stream_addrs cs rs) ->
  map (cluster_bytes cs d') (expand rs') = map (cluster_bytes cs d) (expand rs).
Proof.
  intros Hcs H H' Heq. rewrite !stream_addrs_clusters, !gather_concat, !map_map in Heq by done.
  apply (concat_inj (Z.to_nat cs)) in Heq; [|lia|..].
  - rewrite !expand_physical, !map_map by done. cbn [cluster_bytes]. apply (f_equal (map Some)) in Heq. by rewrite !map_map in Heq.
  - apply Forall_forall. intros x (c & -> & _)%list_elem_of_fmap. unfold gather. rewrite length_map. pose proof (py_len_range (c * cs) (c * cs + cs)). unfold py_len in *. lia.
  - apply Forall_forall. intros x (c & -> & _)%list_elem_of_fmap. unfold gather. rewrite length_map. pose proof (py_len_range (c * cs) (c * cs + cs)). unfold py_len in *. lia.
Qed.

(** Unchanged bytes are unchanged clusters. *)
Lemma unchanged_clusters cs d d' rs : 0 < cs -> (forall x, x ∈ stream_addrs cs rs -> peek d' x = peek d x) ->
  map (cluster_bytes cs d') (expand rs) = map (cluster_bytes cs d) (expand rs).
Proof.
  intros Hcs H. apply map_ext_in. intros [l|] Hin; [|done]. cbn. f_equal. apply gather_ext. intros x Hx. apply H.
  apply elem_of_stream_addrs; [done|]. apply elem_of_py_range in Hx.
  assert (x / cs = l) as -> by (symmetry; apply Z.div_unique with (x - cs * l); lia).
  unfold in_runs. apply existsb_exists. unfold expand in Hin. apply in_concat in Hin as (o & Ho & Hl).
  apply in_map_iff in Ho as (r & <- & Hr). exists r. split; [done|]. unfold expand_run in Hl. unfold in_run.
  destruct (lcn r) as [n|]; [|by apply list_elem_of_In, elem_of_replicate in Hl as [? _]].
  apply list_elem_of_In, list_elem_of_fmap in Hl as (y & [= ->] & Hy). apply elem_of_py_range in Hy. by apply between_spec.
Qed.

(** ** The layout of a record *)

Lemma walk_split record in_use before a after : forall fuel pos,
  attributes_loop fuel record in_use pos = Generated (before ++ a :: after) None ->
  wf_bytes record -> 0 <= pos -> in_use <= py_len record ->
  pos <= offset a /\ Forall (fun b => pos <= offset b /\ 0 <= alength b /\ offset b + alength b <= offset a) before /\
  Forall (fun b => offset a + alength a <= offset b /\ offset b + alength b <= in_use) after.
Proof.
  induction before as [|b before IH]; intros fuel pos H Hw Hp Hu;
    (destruct (attributes_loop_inv _ _ _ _ _ H) as [[? _]|(f & x & rest & -> & [= -> <-] & Hle & Hpa & Hrest)]; [done|]);
    destruct (parse_attribute_facts _ _ _ _ Hw Hp Hu Hpa) as (Hoff & Hlen & Hend & _).
  - split; [lia|]. split; [constructor|]. rewrite Hoff. by apply (walk_offsets f record in_use (pos + alength x)); [|lia|..].
  - destruct (IH f (pos + alength x) Hrest Hw ltac:(lia) Hu) as (H1 & H2 & H3). split; [lia|]. split; [|done]. constructor; [lia|].
    eapply Forall_impl; [exact H2|]. cbn. lia.
Qed.

(** A record as the engine can rewrite it: the update-sequence array lies in
    front of the attributes, and names lie in front of run lists. *)
Definition shaped (ss : Z) (fixed : bytes) (attrs : list Attribute) : Prop :=
  exists off count first, usa_placed fixed ss off count /\ u16le fixed 20 = Ok first /\ 28 <= off /\ off + 2 * count <= first /\
    Forall (fun a => nonresident a = true -> name_clear fixed a) attrs.

Lemma name_clear_moved record record' g a a' :
  name a' = name a -> run_offset a' = run_offset a -> offset a' = offset a + g -> 0 <= offset a -> 0 <= offset a' ->
  py_len record' = py_len record ->
  (forall i, offset a + 10 <= i < offset a + 12 -> nthZ record' (i + g) = nthZ record i) ->
  offset a + 12 <= py_len record -> offset a' + 12 <= py_len record' ->
  name_clear record a -> name_clear record' a'.
Proof.
  intros Hn Hr Ho H0 H0' Hl Hsame Hroom Hroom' [H|(noff & Hu & Hle)]; [left; congruence|right]. exists noff. split; [|by rewrite Hn, Hr].
  rewrite <- Hu. symmetry. apply unpack_from_ext; try lia. intros i Hi. rewrite <- Hsame by lia. f_equal. lia.
Qed.

(** The attributes of a rewritten record. *)
Definition rewritten_attrs (before : list Attribute) (a : Attribute) (after : list Attribute) (growth : Z) (rs : list Run) : list Attribute :=
  before ++ with_runs a (alength a + growth) rs :: map (shift_attribute growth) after.

Lemma record_rewrite c rs ss raw before after :
  wf_bytes (record_fixed c) -> shaped ss (record_fixed c) (before ++ attribute c :: after) ->
  list_of (_attributes (record_fixed c)) = Ok (before ++ attribute c :: after) ->
  nonresident (attribute c) = true -> Forall lcn_ok rs -> _updated_record_runs c rs ss = Ok raw ->
  exists fixed' growth, _apply_fixups raw ss = Ok fixed' /\ py_len raw = py_len (record_fixed c) /\
    runs_length (_coalesce_runs rs) = runs_length (runs (attribute c)) /\
    let attrs' := rewritten_attrs before (attribute c) after growth (_coalesce_runs rs) in
    list_of (_attributes fixed') = Ok attrs' /\ shaped ss fixed' attrs' /\
    py_slice fixed' 0 4 = py_slice (record_fixed c) 0 4 /\ u16le fixed' 22 = u16le (record_fixed c) 22 /\
    Forall (fun b => py_slice fixed' (offset b) (offset b + alength b) = py_slice (record_fixed c) (offset b) (offset b + alength b)) before /\
    Forall (fun b => py_slice fixed' (offset b + growth) (offset b + growth + alength b) = py_slice (record_fixed c) (offset b) (offset b + alength b)) after.
Proof.
  intros Hw (off & count & first & Husa & Hfirst & Ho & Hof & Hnames) Hattrs Hnr Hlcn Hupd. set (a := attribute c) in *. set (fixed := record_fixed c) in *.
  assert (name_clear fixed a) as Hname by (apply Forall_app in Hnames as [_ Hnames]; apply Forall_cons in Hnames as [Hn _]; by apply Hn).
  destruct (updated_record_facts c rs ss off count first raw before after) as
    (fixed' & growth & in_use & Happ & Hg & Hlist & Hrl & Hfl & Hlen & Hfo & Hin & Hroom & Hsame & Hafter); try done.
  fold a fixed in Hlist, Hrl, Hfl, Hlen, Hfo, Hin, Hroom, Hsame, Hafter. assert (in_use <= py_len fixed) as Hiu by lia.
  destruct (usa_bounds _ _ _ _ Husa) as (Hc & _ & _). destruct Husa as (H4 & H6 & Hce & H8 & Hss & Hpl).
  assert (attributes_loop (length fixed) fixed (Z.min (py_len fixed) in_use) first = Generated (before ++ a :: after) None) as Hloop.
  { unfold _attributes in Hattrs. rewrite Hfirst, Hin in Hattrs. destruct (attributes_loop _ _ _ _) as [l r]. unfold list_of in Hattrs. cbn in Hattrs.
    destruct r; [done|]. by injection Hattrs as ->. }
  rewrite Z.min_r in Hloop by lia.
  destruct (walk_split fixed in_use before a after _ _ Hloop Hw ltac:(lia) Hiu) as (Hfa & Hb & Haft).
  assert (0 <= first) as Hf0 by lia. destruct (walk_member _ _ _ _ _ _ _ Hloop Hw Hf0 Hiu) as [Hpa _].
  destruct (parse_attribute_facts fixed in_use (offset a) a Hw ltac:(lia) Hiu Hpa) as (_ & Hal & Hend & Hfacts). specialize (Hfacts Hnr) as (Hro & _).
  assert (Hlb : forall b, b ∈ before -> offset b + alength b <= offset a /\ first <= offset b /\ 24 <= alength b).
  { intros b Hbin. rewrite Forall_forall in Hb. destruct (Hb b Hbin) as (B1 & B2 & B3). split; [done|]. split; [done|].
    apply list_elem_of_split in Hbin as (l1 & l2 & ->). rewrite <- app_assoc in Hloop. cbn [app] in Hloop.
    destruct (walk_member _ _ _ _ _ _ _ Hloop Hw Hf0 Hiu) as [Hpb _].
    by destruct (parse_attribute_facts fixed in_use (offset b) b Hw ltac:(lia) Hiu Hpb) as (_ & ? & _). }
  assert (Hla : forall b, b ∈ after -> offset a + alength a <= offset b /\ offset b + alength b <= in_use /\ 24 <= alength b).
  { intros b Hbin. rewrite Forall_forall in Haft. destruct (Haft b Hbin) as (B1 & B2). split; [done|]. split; [done|].
    apply list_elem_of_split in Hbin as (l1 & l2 & ->). change (before ++ a :: l1 ++ b :: l2) with (before ++ (a :: l1) ++ b :: l2) in Hloop.
    rewrite app_assoc in Hloop. destruct (walk_member _ _ _ _ _ _ _ Hloop Hw Hf0 Hiu) as [Hpb _].
    by destruct (parse_attribute_facts fixed in_use (offset b) b Hw ltac:(lia) Hiu Hpb) as (_ & ? & _). }
  exists fixed', growth. split; [done|]. split; [done|]. split; [done|]. split; [exact Hlist|].
  assert (Hlow : forall i, 0 <= i < off -> ~ 24 <= i < 28 -> nthZ fixed' i = nthZ fixed i) by (intros i Hi1 Hi2; apply Hsame; lia).
  split; [|split; [|split; [|split]]].
  - exists off, count, first. split; [|split; [|split; [done|split; [done|]]]].
    + unfold usa_placed. rewrite Hfl, (u16le_same fixed' fixed 4), (u16le_same fixed' fixed 6); try done; try lia; intros i Hi; apply Hlow; lia.
    + rewrite (u16le_same fixed' fixed 20); try done; try lia. intros i Hi. apply Hlow; lia.
    + apply Forall_app in Hnames as [Hn1 Hn2]. apply Forall_cons in Hn2 as [_ Hn2]. unfold rewritten_attrs. apply Forall_app_2; [|constructor].
      * apply Forall_forall. intros b Hbin Hbn. destruct (Hlb b Hbin) as (? & ? & ?). rewrite Forall_forall in Hn1.
        eapply (name_clear_moved fixed fixed' 0 b b); try done; try lia; [|by apply Hn1]. intros i Hi. rewrite Z.add_0_r. apply Hsame; lia.
      * intros _. eapply (name_clear_moved fixed fixed' 0 a); try done; cbn [offset with_runs]; try lia. intros i Hi. rewrite Z.add_0_r. apply Hsame; lia.
      * apply Forall_forall. intros b' (b & -> & Hbin)%list_elem_of_fmap Hbn. destruct (Hla b Hbin) as (? & ? & ?). rewrite Forall_forall in Hn2.
        eapply (name_clear_moved fixed fixed' growth b); try done; cbn [offset shift_attribute]; try lia; [|by apply Hn2]. intros i Hi. apply Hafter; lia.
  - apply (py_slice_ext fixed' fixed 0 0 4); try lia. intros i Hi. apply Hlow; lia.
  - apply u16le_same; try lia. intros i Hi. apply Hlow; lia.
  - apply Forall_forall. intros b Hbin. destruct (Hlb b Hbin) as (? & ? & ?). apply py_slice_ext; try lia. intros i Hi. apply Hsame; lia.
  - apply Forall_forall. intros b Hbin. destruct (Hla b Hbin) as (? & ? & ?). apply py_slice_ext; try lia. intros i Hi.
    replace (offset b + growth + i) with (offset b + i + growth) by lia. apply Hafter; lia.
Qed.
