(* ===== verification/NtfsSafety.v ===== *)
(** * Files survive compaction and defragmentation

    Composes the layers of the NTFS engine: on a volume whose metadata is
    consistent ([sound]), every move the loops of [compact] and [defragment]
    make satisfies the preconditions of [NtfsTxnFacts], leaves a consistent
    volume and leaves every file of it ([files_of]) as it was.  Hence a whole
    run, and any interruption of it by power loss followed by any number of
    recoveries, keeps every file. *)

From S2P Require Import Prelude Text Bytes Ranges RangesFacts Bitmap NtfsRuns NtfsBitmap NtfsRecord Device Addresses NtfsVolume NtfsTxn NtfsTxnFacts NtfsPlan NtfsCompact NtfsFiles.

Local Open Scope Z_scope.

(** ** Programs that only read *)

Section silent.
Context {J : Type}.

Definition silent {A} (m : Device.prog J A) : Prop := forall d, fst (m d) = [].

Lemma silent_lift {A} (r : result A) : silent (lift r).
Proof. done. Qed.

Lemma silent_bind {A B} (m : Device.prog J A) (k : A -> Device.prog J B) : silent m -> (forall a, silent (k a)) -> silent (pbind m k).
Proof.
  intros Hm Hk d. specialize (Hm d). unfold pbind. destruct (m d) as [t [a|e]]; cbn in Hm; subst t; [|done].
  cbn [replay fold_left]. specialize (Hk a d). destruct (k a d) as [t r]. cbn in *. by subst t.
Qed.

Lemma silent_pread_exact len off : silent (_pread_exact (J:=J) len off).
Proof. unfold _pread_exact. apply silent_bind; [done|]. intros data. by destruct (negb _). Qed.

Lemma silent_foreach {A S} (body : S -> A -> Device.prog J S) l : (forall s x, silent (body s x)) -> forall s, silent (pforeach body s l).
Proof. intros Hb. induction l as [|x l IH]; intros s; [done|]. cbn [pforeach]. by apply silent_bind. Qed.

Lemma silent_finish {A B} (g : generated A) (k : Device.prog J B) : silent k -> silent (finish g k).
Proof. intros Hk. unfold finish. by destruct (raised g). Qed.

Lemma silent_read_stream vol rs off len : silent (_read_stream (J:=J) vol rs off len).
Proof.
  unfold _read_stream. apply silent_bind; [|intros; by apply silent_finish]. apply silent_foreach. intros s x.
  apply silent_bind; [apply silent_pread_exact|done].
Qed.

Lemma silent_read_mft_record vol rs n : silent (_read_mft_record (J:=J) vol rs n).
Proof.
  unfold _read_mft_record. cbv zeta. apply silent_bind; [apply silent_read_stream|]. intros raw. apply silent_bind; [done|]. intros fixed.
  apply silent_bind; [|done]. unfold first_segment. destruct (yielded _); [|done]. by destruct (raised _).
Qed.

Lemma silent_volume_record_state L : silent (_volume_record_state (J:=J) L).
Proof.
  unfold _volume_record_state. cbv zeta. apply silent_bind; [apply silent_read_mft_record|]. intros [[off raw] fixed].
  apply silent_bind; [done|]. intros [info|]; [|done]. repeat (apply silent_bind; [done|]; intros). destruct (_ || _); [done|].
  repeat (apply silent_bind; [done|]; intros). apply silent_bind; [apply silent_pread_exact|]. intros mirror.
  repeat (apply silent_bind; [done|]; intros). destruct a6; [|done]. repeat (apply silent_bind; [done|]; intros). destruct (negb _); [done|].
  by repeat (apply silent_bind; [done|]; intros).
Qed.
End silent.

Create HintDb silent.
#[export] Hint Resolve silent_lift silent_pread_exact silent_read_stream silent_read_mft_record silent_volume_record_state : silent.

Lemma pbind_pret {J A B} (a : A) (k : A -> Device.prog J B) d : pbind (pret a) k d = k a d.
Proof. unfold pbind, pret. cbn [replay fold_left app]. by destruct (k a d). Qed.

(** The run of a bind, whatever it returns. *)
Lemma pbind_cases {J A B} (m : Device.prog J A) (k : A -> Device.prog J B) d t r : pbind m k d = (t, r) ->
  (exists e, m d = (t, Raise e) /\ r = Raise e) \/ exists t1 a t2, m d = (t1, Ok a) /\ k a (replay d t1) = (t2, r) /\ t = t1 ++ t2.
Proof.
  unfold pbind. destruct (m d) as [t1 [a|e]] eqn:E; [|intros [= <- <-]; left; by eexists].
  destruct (k a (replay d t1)) as [t2 r2] eqn:Ek. intros [= <- <-]. right. by exists t1, a, t2.
Qed.

(** A reading step in front: nothing was written, and the rest starts on the
    same device. *)
Lemma silent_step {J A B} (m : Device.prog J A) (k : A -> Device.prog J B) d t r : silent m -> pbind m k d = (t, r) ->
  (t = [] /\ exists e, r = Raise e) \/ exists a, m d = ([], Ok a) /\ k a d = (t, r).
Proof.
  intros Hs H. specialize (Hs d). apply pbind_cases in H as [(e & Hm & ->)|(t1 & a & t2 & Hm & Hk & ->)]; rewrite Hm in Hs; cbn in Hs; subst.
  - left. split; [done|by eexists].
  - right. by exists a.
Qed.

(** ** Record images *)

Lemma apply_fixups_head raw ss fixed : wf_bytes raw -> 8 <= ss -> _apply_fixups raw ss = Ok fixed -> py_slice fixed 0 4 = py_slice raw 0 4.
Proof.
  intros Hw Hs H. unfold _apply_fixups in H. destruct (usa_header raw ss) as [[off count]|] eqn:Eh; [|done]. cbn [mbind result_bind] in H.
  destruct (usa_header_inv _ _ _ _ Hw Eh) as (Ho & Hc & Hb).
  assert (py_len fixed = py_len raw /\ wf_bytes fixed /\ py_slice fixed 0 4 = py_slice raw 0 4) as (_ & _ & Hx); [|done].
  eapply (foldM_inv (fun r => py_len r = py_len raw /\ wf_bytes r /\ py_slice r 0 4 = py_slice raw 0 4)); [| |exact H]; [done|].
  intros i b b' Hi (Hl & Hwb & Hsl) Hstep. apply elem_of_py_range in Hi. destruct (sector_bounds raw ss i ltac:(lia) ltac:(lia)) as [H0 H1].
  unfold apply_one in Hstep. destruct (negb _); [done|]. injection Hstep as <-.
  assert (py_len (py_slice b (off + i * 2) (off + i * 2 + 2)) = 2) as H2 by (rewrite py_len_slice; lia).
  rewrite py_len_set_slice by lia. split; [lia|]. split; [apply wf_py_set_slice; [done|by apply wf_bytes_slice]|].
  rewrite py_slice_set_before; [done|lia|nia|lia|lia].
Qed.

Lemma prepare_fixups_wf fixed ss raw : wf_bytes fixed -> _prepare_fixups fixed ss = Ok raw -> wf_bytes raw.
Proof.
  intros Hw H. unfold _prepare_fixups in H. destruct (usa_header fixed ss) as [[off count]|]; [|done]. cbn [mbind result_bind] in H.
  destruct (u16le fixed off) as [old|]; [|done]. cbn [mbind result_bind] in H. injection H as <-.
  assert (forall l rec, wf_bytes rec -> wf_bytes (fold_left (prepare_one off ss (le_digits 2 (next_usn old))) l rec)) as Hf.
  { induction l as [|i l IH]; intros rec Hr; [done|]. cbn [fold_left]. apply IH. unfold prepare_one. cbv zeta.
    apply wf_py_set_slice; [|exact (wf_le_digits 2 (next_usn old))]. apply wf_py_set_slice; [done|by apply wf_bytes_slice]. }
  apply Hf. apply wf_py_set_slice; [done|exact (wf_le_digits 2 (next_usn old))].
Qed.

(** ** A consistent volume *)

Local Notation cs_of L := (cluster_size (volume L)).
Local Notation rs_of L := (mft_record_size (volume L)).

Definition MFT (L : NtfsLayout) : list Z := stream_addrs (cs_of L) (mft_runs L).

(** Where the engine keeps metadata. *)
Definition META (L : NtfsLayout) : list Z := MFT L ++ MIRROR (volume L) ++ BITMAP L.

Definition used (L : NtfsLayout) (x : Z) : Prop := bit_at (bitmap L) (x / cs_of L) = true.

Definition stored (L : NtfsLayout) (n : Z) : Prop := 0 <= n /\ (n + 1) * rs_of L <= py_len (MFT L).
Definition user (L : NtfsLayout) (n : Z) : Prop := FIRST_USER_RECORD <= n /\ stored L n.

(** The addresses a list of attributes maps, and those of a record. *)
Definition addrs_of (cs : Z) (attrs : list Attribute) : list Z := concat (map (fun a => stream_addrs cs (runs a)) attrs).

Definition owned (L : NtfsLayout) (d : bytes) (n : Z) : list Z :=
  match decoded L d n with Some (_, attrs) => addrs_of (cs_of L) attrs | None => [] end.

Definition shaped_record (L : NtfsLayout) (d : bytes) (n : Z) : Prop :=
  match decoded L d n with Some (fixed, attrs) => shaped (bytes_per_sector (volume L)) fixed attrs | None => True end.

(** The layout was read from the device; MFT, its mirror and the bitmap do not
    overlap, lie on the device and are marked used; records of user files have
    the usual shape and map used clusters outside the metadata, each once; no
    cluster of a user file belongs to another record; and the clusters of
    system files are marked used. *)
Record sound (L : NtfsLayout) (d : bytes) : Prop := mkSound {
  so_bytes : wf_bytes d;
  so_layout : _read_layout (J:=journal_state) (volume L) false true d = ([], Ok L);
  so_sizes : 0 < rs_of L /\ 8 <= bytes_per_sector (volume L) /\ total_clusters (volume L) * cs_of L <= py_len d;
  so_mft : stream_ok (volume L) (mft_runs L) /\ 7 * rs_of L <= py_len (MFT L);
  so_bitmap : stream_ok (volume L) (bitmap_runs L) /\
              0 <= bitmap_data_size L <= py_len (stream_addrs (cs_of L) (bitmap_runs L));
  so_zero : RECORD L 0 = RECORD_ZERO (volume L);
  so_meta : NoDup (META L) /\ on_device (py_len d) (META L) /\ Forall (used L) (META L);
  so_shape : forall n, user L n -> shaped_record L d n;
  so_owned : forall n, user L n -> NoDup (owned L d n) /\ Forall (fun x => used L x /\ 0 <= x < total_clusters (volume L) * cs_of L /\ x ∉ META L) (owned L d n);
  so_apart : forall n k x, user L n -> stored L k -> n <> k -> x ∈ owned L d n -> x ∉ owned L d k;
  so_system : forall n, 0 <= n < FIRST_USER_RECORD -> stored L n -> Forall (fun x => 0 <= x /\ used L x) (owned L d n)
}.

Arguments so_bytes {L d} s.
Arguments so_layout {L d} s.
Arguments so_sizes {L d} s.
Arguments so_mft {L d} s.
Arguments so_bitmap {L d} s.
Arguments so_zero {L d} s.
Arguments so_meta {L d} s.
Arguments so_shape {L d} s.
Arguments so_owned {L d} s.
Arguments so_apart {L d} s.
Arguments so_system {L d} s.

(** What a run must leave alone: the files of user records, and system records
    with the bytes of their streams outside MFT and bitmap. *)
Definition same_files (L : NtfsLayout) (d d' : bytes) : Prop :=
  py_len d' = py_len d /\ (forall n, user L n -> files_of L d' n = files_of L d n) /\
  (forall n, 0 <= n < FIRST_USER_RECORD -> stored L n ->
     gather d' (RECORD L n) = gather d (RECORD L n) /\
     forall x, x ∈ owned L d n -> 0 <= x < py_len d -> x ∉ MFT L -> x ∉ BITMAP L -> peek d' x = peek d x).

Lemma same_files_refl L d : same_files L d d.
Proof. done. Qed.

Lemma owned_same L d d' n : gather d' (RECORD L n) = gather d (RECORD L n) -> owned L d' n = owned L d n.
Proof. intros H. unfold owned, decoded. by rewrite H. Qed.

Lemma same_files_trans L d1 d2 d3 : same_files L d1 d2 -> same_files L d2 d3 -> same_files L d1 d3.
Proof.
  intros (L1 & U1 & S1) (L2 & U2 & S2). split; [lia|]. split; [intros n Hn; by rewrite U2, U1|].
  intros n Hn Hst. destruct (S1 n Hn Hst) as [R1 K1]. destruct (S2 n Hn Hst) as [R2 K2]. split; [congruence|].
  intros x Hx Hd Hm Hb. rewrite K2; [by apply K1| |lia|done|done]. by rewrite (owned_same L d1 d2).
Qed.

(** Only the bitmap of a layout changes. *)
Lemma same_files_bitmap L b d d' : same_files (with_bitmap L b) d d' <-> same_files L d d'.
Proof. done. Qed.

(** ** Records of the MFT *)

Lemma slices_apart {A} (l : list A) a b c d x : 0 <= a <= b -> b <= c <= d -> NoDup l -> x ∈ py_slice l a b -> x ∉ py_slice l c d.
Proof.
  intros Ha Hc Hnd Hx Hy. assert (NoDup (py_slice l a b ++ py_slice l b c ++ py_slice l c d)) as H.
  { rewrite py_slice_app, py_slice_app by lia. by apply NoDup_py_slice. }
  apply NoDup_app in H as (_ & H & _). apply (H x Hx). apply elem_of_app. by right.
Qed.

Lemma record_in_mft L n x : x ∈ RECORD L n -> x ∈ MFT L.
Proof. apply elem_of_py_slice. Qed.

Lemma records_apart L n k x : NoDup (MFT L) -> 0 < rs_of L -> 0 <= n -> 0 <= k -> n <> k -> x ∈ RECORD L n -> x ∉ RECORD L k.
Proof.
  intros Hnd Hr Hn Hk Hne Hx Hy. unfold RECORD, span in *. destruct (Z.lt_ge_cases n k).
  - eapply (slices_apart (MFT L) (n * rs_of L) (n * rs_of L + rs_of L) (k * rs_of L) (k * rs_of L + rs_of L) x); try done; nia.
  - eapply (slices_apart (MFT L) (k * rs_of L) (k * rs_of L + rs_of L) (n * rs_of L) (n * rs_of L + rs_of L) x); try done; nia.
Qed.

Lemma segments_loop_fit cs rs : forall cursor remaining wanted,
  0 < cs -> Forall physical_run rs -> 0 < remaining -> cursor <= wanted ->
  raised (segments_loop rs cs cursor remaining wanted) = None -> wanted - cursor + remaining <= py_len (stream_addrs cs rs).
Proof.
  induction rs as [|r rs IH]; intros cursor remaining wanted Hcs Hp Hr Hw H; cbn [segments_loop] in H.
  { rewrite (proj2 (Z.eqb_neq _ _)) in H by lia. done. }
  apply Forall_cons in Hp as [Hpr Hp]. pose proof (run_addrs_len cs r Hcs Hpr) as Hl. destruct Hpr as [Hphys Hlen]. cbv zeta in H.
  unfold stream_addrs in *. cbn [map concat]. rewrite py_len_app, Hl. set (rb := length_of r * cs) in *. assert (0 <= rb) by (unfold rb; nia).
  pose proof (py_len_nonneg (concat (map (run_addrs cs) rs))).
  destruct (Z.leb_spec (cursor + rb) wanted); [specialize (IH _ _ _ Hcs Hp Hr ltac:(done) H); lia|].
  unfold is_physical in Hphys. destruct (lcn r); [|done]. rewrite Z.max_r in H by lia. cbn [gen_cons raised] in H.
  destruct (Z.eqb_spec (remaining - Z.min remaining (rb - (wanted - cursor))) 0); [lia|].
  eapply IH in H; [|done|done|lia|lia]. lia.
Qed.

Lemma read_stream_fits {J} vol rs off len d t x : stream_ok vol rs -> 0 < len -> _read_stream (J:=J) vol rs off len d = (t, Ok x) ->
  0 <= off /\ off + len <= py_len (stream_addrs (cluster_size vol) rs).
Proof.
  intros [Hcs Hp] Hl H. unfold _read_stream in H. prog_step H. unfold finish in H. destruct (raised _) eqn:Er in H; [by apply lift_inv in H as [_ ?]|].
  unfold _stream_segments in Er. destruct ((off <? 0) || (len <? 0)) eqn:E; [done|]. bool_to_prop. split; [done|].
  assert (Forall physical_run rs) as Hph by (eapply Forall_impl; [exact Hp|]; by intros r [? _]).
  apply segments_loop_fit in Er; [lia|done|done|done|done].
Qed.

Lemma select_movable_facts n fixed attrs a : _select_movable_attribute n fixed attrs = Ok (Some a) ->
  FIRST_USER_RECORD <= n /\ a ∈ attrs /\ nonresident a = true /\ Forall (fun r => is_physical r = true) (runs a) /\ runs a <> [].
Proof.
  intros H. unfold _select_movable_attribute in H. destruct (u16le fixed 22) as [fl|]; [|done]. cbn [mbind result_bind] in H.
  destruct (_ || _) eqn:E1 in H; [done|]. bool_to_prop. destruct (u64le fixed 32) as [base|]; [|done]. cbn [mbind result_bind] in H.
  destruct (flag_set base _); [done|]. destruct (existsb is_list attrs); [done|].
  assert (forall f, (forall b, f b = true -> nonresident b = true) -> List.filter f attrs = [a] -> a ∈ attrs /\ nonresident a = true) as Hf.
  { intros f Hf Hl. assert (In a (List.filter f attrs)) as Hin by (rewrite Hl; by left). apply filter_In in Hin as [Hin Ha].
    split; [by apply list_elem_of_In|by apply Hf]. }
  assert (exists l, (if flag_set fl RECORD_DIRECTORY then List.filter is_index attrs else List.filter is_data attrs) = l) as [l Hl] by by eexists.
  rewrite Hl in H. destruct l as [|b [|]]; [done| |done]. destruct (_ || _) in H; [done|]. destruct (existsb _ (runs b)) eqn:Ep in H; [done|].
  destruct (bool_decide (runs b = []) || _) eqn:En in H; [done|]. injection H as ->. bool_to_prop.
  assert (a ∈ attrs /\ nonresident a = true) as [Hin Hnr].
  { destruct (flag_set fl RECORD_DIRECTORY); (eapply Hf; [|exact Hl]); intros b Hb; unfold is_index, is_data in Hb; by destruct (nonresident b); rewrite ?andb_false_r in Hb. }
  split; [done|]. split; [done|]. split; [done|]. split; [|by intros Hr; rewrite Hr in *].
  apply Forall_forall. intros r Hr. destruct (is_physical r) eqn:Er; [done|]. exfalso. apply list_elem_of_In in Hr.
  assert (existsb (fun r => negb (is_physical r)) (runs a) = true) as Hex by (apply existsb_exists; exists r; by rewrite Er). congruence.
Qed.

(** Reading the layout of a device that still holds records 0, 3 and 6. *)
Lemma read_layout_kept {J} L d d' :
  let vol := volume L in
  _read_layout (J:=J) vol false true d = ([], Ok L) ->
  0 < mft_record_size vol -> stream_ok vol (mft_runs L) -> stream_ok vol (bitmap_runs L) -> 7 * mft_record_size vol <= py_len (MFT L) ->
  0 <= bitmap_data_size L <= py_len (stream_addrs (cluster_size vol) (bitmap_runs L)) ->
  py_len d' = py_len d -> on_device (py_len d) (META L) -> RECORD L 0 = RECORD_ZERO vol ->
  (forall n, 0 <= n < 7 -> gather d' (RECORD L n) = gather d (RECORD L n)) ->
  bitmap L = gather d (BITMAP L) /\ total_clusters vol <= 8 * bitmap_data_size L /\
  _read_layout (J:=J) vol false true d' = ([], Ok (with_bitmap L (gather d' (BITMAP L)))).
Proof.
  intros vol H Hsz Hms Hbs Hmf Hbf Hl Hon Hz Hg.
  assert (forall n, 0 <= n < 7 -> on_device (py_len d') (RECORD L n)) as Honr.
  { intros n Hn. apply Forall_forall. intros x Hx. rewrite Hl. unfold on_device in Hon. rewrite Forall_forall in Hon. apply Hon.
    unfold META. rewrite !elem_of_app. left. by eapply record_in_mft. }
  assert (on_device (py_len d') (BITMAP L)) as HonB.
  { apply Forall_forall. intros x Hx. rewrite Hl. unfold on_device in Hon. rewrite Forall_forall in Hon. apply Hon. unfold META. rewrite !elem_of_app. tauto. }
  destruct (read_layout_again (J:=J) vol false true d [] L d') as (_ & Hb & Ht & Hrun); try done; rewrite ?Hl; try (rewrite <- Hl; by apply Honr);
    try (by rewrite <- Hl); try (by rewrite <- Hz; apply Hg; lia); try (by apply Hg; lia); [rewrite <- Hl, <- Hz; by apply Honr|].
  split; [done|]. split; [done|].
  assert (forall n, 0 <= n < 7 -> _read_mft_record (J:=J) vol (mft_runs L) n d' = _read_mft_record (J:=J) vol (mft_runs L) n d) as Hsame.
  { intros n Hn. apply read_mft_record_same; try done; [lia|unfold MFT in Hmf; fold vol in Hmf; nia|by apply Honr|by apply Hg]. }
  assert (Hz' : _record_zero (J:=J) vol d' = _record_zero (J:=J) vol d).
  { apply record_zero_same; try done; [rewrite <- Hz; apply Honr; lia|rewrite <- Hz; apply Hg; lia]. }
  unfold _read_layout in H, Hrun |- *. apply pbind_inv in H as (t0 & [[raw0 fixed0] attr] & t1 & R0 & H & Ht0).
  pose proof (record_zero_trace _ _ _ _ R0) as ->. cbn [replay fold_left] in H.
  unfold pbind at 1 in Hrun. unfold pbind at 1. rewrite Hz', R0 in Hrun |- *. cbn [replay fold_left] in Hrun |- *.
  apply pbind_inv in H as (t2 & [] & t3 & Rc & H & Ht1).
  assert (runs attr = mft_runs L) as Hruns.
  { apply pbind_inv in H as (? & [[? ?] ?] & ? & _ & H & _). pure_step H attrs Hat.
    destruct (List.filter is_data attrs) as [|battr [|]] in H; try by apply lift_inv in H as [_ H].
    destruct (negb _) in H; [by apply lift_inv in H as [_ H]|]. apply pbind_inv in H as (? & ? & ? & _ & H & _).
    destruct (_ <? _) in H; [by apply lift_inv in H as [_ H]|]. apply pret_inv in H as [_ HL]. apply (f_equal mft_runs) in HL. by symmetry. }
  assert (t2 = []) as -> by (symmetry in Ht0; apply app_eq_nil in Ht0 as [_ ->]; symmetry in Ht1; by apply app_eq_nil in Ht1 as [-> _]).
  rewrite Hruns in Rc, Hrun |- *.
  assert (forall k : unit -> Device.prog J NtfsLayout,
    pbind (let* (_, _, fixed_volume) := _read_mft_record vol (mft_runs L) 3 in
           let* fl := lift (volume_flags_of fixed_volume) in lift (_validate_volume_flags fl false)) k d' = k tt d') as Hchk.
  { intros k. unfold pbind at 1. unfold pbind at 1. unfold pbind at 1 in Rc. rewrite Hsame by lia. destruct (_read_mft_record _ _ _ d) as [t [[[x1 x2] x3]|]] eqn:E; [|done].
    pose proof (silent_read_mft_record (J:=J) vol (mft_runs L) 3 d) as Hsil. rewrite E in Hsil. cbn in Hsil. subst t. cbn [replay fold_left] in Rc |- *.
    unfold pbind, lift in Rc |- *. cbn [replay fold_left app] in Rc |- *. destruct (volume_flags_of x3) as [fl|]; [|done].
    destruct (_validate_volume_flags fl false) as [[]|]; [|done]. cbn [replay fold_left app]. by destruct (k tt d'). }
  rewrite Hchk. rewrite pbind_pret in Hrun. exact Hrun.
Qed.

(** ** One move *)

Section one_move.
Context (L : NtfsLayout) (d : bytes).
Hypothesis Hs : sound L d.

Local Notation cs := (cs_of L).
Local Notation n_d := (py_len d).

Lemma cs_pos : 0 < cs.
Proof. by destruct (so_mft Hs) as [[H _] _]. Qed.

Lemma meta_cases : NoDup (MFT L) /\ NoDup (MIRROR (volume L)) /\ NoDup (BITMAP L) /\
  (forall x, x ∈ MFT L -> x ∉ MIRROR (volume L) /\ x ∉ BITMAP L) /\ (forall x, x ∈ MIRROR (volume L) -> x ∉ BITMAP L).
Proof.
  destruct (so_meta Hs) as (H & _ & _). unfold META in H. apply NoDup_app in H as (N1 & H1 & H). apply NoDup_app in H as (N2 & H2 & N3).
  split; [done|]. split; [done|]. split; [done|]. split; [|done]. intros x Hx. specialize (H1 x Hx). rewrite elem_of_app in H1. tauto.
Qed.

Lemma meta_used x : x ∈ MFT L \/ x ∈ MIRROR (volume L) \/ x ∈ BITMAP L -> used L x /\ 0 <= x < n_d.
Proof.
  intros Hx. destruct (so_meta Hs) as (_ & Hon & Hu). unfold on_device in Hon. rewrite Forall_forall in Hon, Hu.
  assert (x ∈ META L) as Hm by (unfold META; rewrite !elem_of_app; tauto). by split; [apply Hu|apply Hon].
Qed.

Lemma bitmap_facts : bitmap L = gather d (BITMAP L) /\ wf_bytes (bitmap L) /\ total_clusters (volume L) <= 8 * py_len (bitmap L).
Proof.
  destruct Hs as [Hw Hl (Hr & _ & _) [Hm Hmf] [Hb Hbf] Hz (_ & Hon & _) _ _ _ _].
  destruct (read_layout_kept (J:=journal_state) L d d) as (Hbm & Ht & _); try done.
  assert (wf_bytes (bitmap L)) as Hwf by (rewrite Hbm; by apply wf_gather). split; [done|]. split; [done|].
  rewrite Hbm, py_len_gather. unfold BITMAP, span. rewrite py_len_slice by lia. lia.
Qed.

(** A candidate read from the device, with the attributes around the movable
    one. *)
Record loaded (c : Candidate) (before after : list Attribute) : Prop := mkLoaded {
  ld_user : user L (record_number c);
  ld_raw : record_raw c = gather d (RECORD L (record_number c));
  ld_wf : wf_bytes (record_fixed c);
  ld_len : py_len (record_fixed c) = rs_of L;
  ld_decoded : decoded L d (record_number c) = Some (record_fixed c, before ++ attribute c :: after);
  ld_attrs : list_of (_attributes (record_fixed c)) = Ok (before ++ attribute c :: after);
  ld_nonresident : nonresident (attribute c) = true;
  ld_runs : Forall (fun r => physical_run r /\ 0 < length_of r /\ lcn_ok r) (runs (attribute c))
}.

Lemma record_len n : stored L n -> py_len (RECORD L n) = rs_of L.
Proof. intros [Hn Hf]. destruct (so_sizes Hs) as (Hr & _). unfold RECORD, span. rewrite py_len_slice; [lia|nia|]. fold (MFT L). nia. Qed.

Lemma record_on n : on_device n_d (RECORD L n).
Proof. apply Forall_forall. intros x Hx. apply meta_used. left. by eapply record_in_mft. Qed.

Lemma load_facts info c t : _load_candidate L info d = (t, Ok c) -> record_number c = s_record_number info /\ exists before after, loaded c before after.
Proof.
  intros H. unfold _load_candidate in H. apply pbind_inv in H as (t1 & [[off raw] fixed] & t2 & R & H & ->).
  destruct (so_sizes Hs) as (Hr & Hss & _). destruct (so_mft Hs) as [Hms Hmf].
  pose proof (silent_read_mft_record (J:=journal_state) (volume L) (mft_runs L) (s_record_number info) d) as Hsil. rewrite R in Hsil. cbn in Hsil. subst t1.
  cbn [replay fold_left] in H. pure_step H fl Hfl. destruct (_ || _) eqn:Ef in H; [by apply lift_inv in H as [_ ?]|].
  apply orb_false_iff in Ef as [Ef1 Ef2]. apply negb_false_iff in Ef1, Ef2. pure_step H attrs Hat. pure_step H found Hsel. destruct found as [a|]; [|by apply lift_inv in H as [_ ?]].
  destruct (negb _) in H; [by apply lift_inv in H as [_ ?]|]. apply pret_inv in H as [_ <-]. cbn [record_number]. split; [done|].
  destruct (select_movable_facts _ _ _ _ Hsel) as (Hn & Hin & Hnr & Hphys & _).
  assert (stored L (s_record_number info)) as Hst.
  { unfold _read_mft_record in R. cbv zeta in R. apply pbind_inv in R as (? & ? & ? & R & _). apply read_stream_fits in R; [|done|done].
    unfold stored, MFT, FIRST_USER_RECORD in *. split; [lia|]. nia. }
  apply read_mft_record_run in R as (_ & Hraw & Hfix); [|done|apply Hst|done|apply Hst|apply record_on]. cbn [fst snd] in Hraw, Hfix. fold (RECORD L (s_record_number info)) in Hraw.
  assert (wf_bytes raw) as Hwr by (rewrite Hraw; apply wf_gather, (so_bytes Hs)).
  destruct (apply_fixups_facts raw (bytes_per_sector (volume L)) fixed Hwr ltac:(lia) Hfix) as [Hlf Hwf].
  apply list_elem_of_split in Hin as (before & after & ->). exists before, after.
  assert (is_file_record raw = true) as Hfile.
  { unfold is_file_record. rewrite <- (apply_fixups_head raw _ fixed Hwr Hss Hfix). by destruct (is_file_record fixed) eqn:E. }
  constructor; cbn [record_number record_raw record_fixed attribute]; try done.
  - rewrite Hlf, Hraw, py_len_gather. by apply record_len.
  - unfold decoded, decode_record. rewrite <- Hraw, Hfile. unfold scan_decode. rewrite Hfix. cbn [mbind result_bind].
    rewrite Ef1 in Hfl. rewrite Hfl. cbn [mbind result_bind]. rewrite Ef2, Hat. done.
  - pose proof (attributes_ok fixed _ Hwf Hat) as Hok. apply Forall_app in Hok as [_ Hok]. apply Forall_cons in Hok as [Ha _].
    specialize (Ha Hnr). rewrite Forall_forall in Ha, Hphys |- *. intros r Hrin. destruct (Ha r Hrin). split; [|done]. split; [by apply Hphys|lia].
Qed.

(** The move puts the whole stream into one free extent. *)
Record placed (c : Candidate) (m : ExtentMove) (g k : Z) : Prop := mkPlaced {
  pl_source : source_runs m = runs (attribute c);
  pl_target : destination_runs m = [mkRun (Some g) k];
  pl_new : new_runs m = destination_runs m;
  pl_length : k = runs_length (runs (attribute c));
  pl_pos : 0 < k;
  pl_range : 0 <= g /\ g + k <= total_clusters (volume L);
  pl_free : forall x, g <= x < g + k -> bit_at (bitmap L) x = false
}.

Section move.
Context (c : Candidate) (before after : list Attribute) (m : ExtentMove) (g k : Z).
Hypothesis Hl : loaded c before after.
Hypothesis Hp : placed c m g k.

Local Notation num := (record_number c).
Local Notation SRC := (SOURCE L m).
Local Notation DST := (TARGET L m).

Lemma source_addrs : SRC = stream_addrs cs (runs (attribute c)).
Proof. unfold SOURCE. by rewrite (pl_source _ _ _ _ Hp). Qed.

Lemma elem_of_target x : x ∈ DST <-> g <= x / cs < g + k.
Proof.
  unfold TARGET. rewrite (pl_target _ _ _ _ Hp), elem_of_stream_addrs by apply cs_pos. unfold in_runs, in_run. cbn. rewrite orb_false_r. apply between_spec.
Qed.

Lemma target_free x : x ∈ DST -> ~ used L x.
Proof. intros Hx Hu. apply elem_of_target in Hx. unfold used in Hu. by rewrite (pl_free _ _ _ _ Hp) in Hu. Qed.

Lemma target_within x : x ∈ DST -> 0 <= x < total_clusters (volume L) * cs.
Proof.
  intros Hx. apply elem_of_target in Hx. pose proof cs_pos as Hcs. destruct (pl_range _ _ _ _ Hp).
  pose proof (Z.mul_div_le x cs Hcs). pose proof (Z.mul_succ_div_gt x cs Hcs). nia.
Qed.

Lemma target_on x : x ∈ DST -> 0 <= x < n_d.
Proof. intros Hx. pose proof (target_within x Hx). destruct (so_sizes Hs) as (_ & _ & Ht). lia. Qed.

Lemma source_owned x : x ∈ SRC -> x ∈ owned L d num.
Proof.
  rewrite source_addrs. intros Hx. unfold owned. rewrite (ld_decoded _ _ _ Hl). unfold addrs_of. rewrite map_app, concat_app, elem_of_app. right.
  cbn [map concat]. apply elem_of_app. by left.
Qed.

Lemma owned_facts x : x ∈ owned L d num -> used L x /\ 0 <= x < n_d /\ x ∉ MFT L /\ x ∉ MIRROR (volume L) /\ x ∉ BITMAP L.
Proof.
  intros Hx. destruct (so_owned Hs num (ld_user _ _ _ Hl)) as [_ H]. rewrite Forall_forall in H. destruct (H x Hx) as (? & ? & Hm).
  destruct (so_sizes Hs) as (_ & _ & Ht). unfold META in Hm. rewrite !elem_of_app in Hm. split; [done|]. split; [lia|tauto].
Qed.

Lemma source_nodup : NoDup SRC.
Proof.
  destruct (so_owned Hs num (ld_user _ _ _ Hl)) as [H _]. unfold owned in H. rewrite (ld_decoded _ _ _ Hl) in H. unfold addrs_of in H.
  rewrite map_app, concat_app in H. cbn [map concat] in H. apply NoDup_app in H as (_ & _ & H). apply NoDup_app in H as (H & _ & _). by rewrite source_addrs.
Qed.

Lemma runs_fit_move : runs_fit (bitmap L) (source_runs m ++ destination_runs m).
Proof.
  destruct bitmap_facts as (_ & _ & Ht). pose proof cs_pos as Hcs. apply Forall_app_2.
  - rewrite (pl_source _ _ _ _ Hp). pose proof (ld_runs _ _ _ Hl) as Hr. rewrite Forall_forall in Hr. apply Forall_forall. intros r Hin.
    destruct (Hr r Hin) as ([Hph _] & Hlen & Hok). unfold is_physical in Hph. unfold lcn_ok in Hok. destruct (lcn r) as [l|] eqn:El; [|done].
    split; [done|]. split; [lia|]. destruct (Z.le_gt_cases (l + length_of r) (8 * py_len (bitmap L))) as [|Hbad]; [done|].
    assert ((l + length_of r - 1) * cs ∈ SRC) as Hx.
    { rewrite source_addrs. apply elem_of_stream_addrs; [done|]. rewrite Z.div_mul by lia. unfold in_runs. apply existsb_exists. exists r.
      split; [by apply list_elem_of_In|]. unfold in_run. rewrite El. apply between_spec. lia. }
    destruct (owned_facts _ (source_owned _ Hx)) as (Hu & _). unfold used in Hu. rewrite Z.div_mul, bit_at_out in Hu by lia. done.
  - rewrite (pl_target _ _ _ _ Hp). destruct (pl_range _ _ _ _ Hp). pose proof (pl_pos _ _ _ _ Hp). apply Forall_singleton. cbn. lia.
Qed.

Lemma num_user : 24 <= num /\ stored L num.
Proof. destruct (ld_user _ _ _ Hl). unfold FIRST_USER_RECORD in *. done. Qed.

Lemma touched_nodup : NoDup (SRC ++ TOUCHED L m num).
Proof.
  destruct meta_cases as (N1 & N2 & N3 & Hm & Hmm). destruct num_user as [H24 [H0 _]]. destruct (so_sizes Hs) as (Hr & _).
  unfold TOUCHED. apply NoDup_app. split; [apply source_nodup|]. split.
  { intros x Hx. destruct (owned_facts _ (source_owned _ Hx)) as (Hu & _ & H1 & H2 & H3). rewrite !elem_of_app.
    intros [Hd|[Hd|[Hd|[Hd|Hd]]]]; [by apply (target_free x)|apply H1; by eapply record_in_mft|apply H1; by eapply record_in_mft|done|done]. }
  apply NoDup_app. split; [|split].
  { unfold TARGET. rewrite (pl_target _ _ _ _ Hp). unfold stream_addrs. cbn. rewrite app_nil_r. unfold run_addrs. cbn. apply NoDup_seqZ. }
  { intros x Hx. pose proof (target_free x Hx) as Hf. rewrite !elem_of_app. intros Hd. apply Hf. apply meta_used.
    destruct Hd as [Hd|[Hd|[Hd|Hd]]]; [left; by eapply record_in_mft|left; by eapply record_in_mft|tauto|tauto]. }
  apply NoDup_app. split; [by apply NoDup_py_slice|]. split.
  { intros x Hx. rewrite !elem_of_app. destruct (Hm x (record_in_mft _ _ _ Hx)). intros [Hd|[Hd|Hd]]; [|done|done].
    revert Hd. apply (records_apart L num 3); (done || lia). }
  apply NoDup_app. split; [by apply NoDup_py_slice|]. split.
  { intros x Hx. rewrite !elem_of_app. destruct (Hm x (record_in_mft _ _ _ Hx)). by intros [Hd|Hd]. }
  apply NoDup_app. split; [done|]. by split.
Qed.

Lemma touched_on : on_device n_d (SRC ++ TOUCHED L m num ++ RECORD_ZERO (volume L) ++ RECORD L 6).
Proof.
  apply Forall_forall. intros x. unfold TOUCHED. rewrite <- (so_zero Hs), !elem_of_app.
  intros [Hx|[[Hx|[Hx|[Hx|[Hx|Hx]]]]|[Hx|Hx]]]; [by apply owned_facts, source_owned|by apply target_on|..];
    apply meta_used; first [left; by eapply record_in_mft|tauto].
Qed.

Lemma home_apart : Forall (fun x => x ∉ TOUCHED L m num) (RECORD_ZERO (volume L) ++ RECORD L 6).
Proof.
  destruct meta_cases as (N1 & N2 & N3 & Hm & _). destruct num_user as [H24 [H0 _]]. destruct (so_sizes Hs) as (Hr & _).
  apply Forall_forall. intros x. rewrite <- (so_zero Hs), elem_of_app. unfold TOUCHED. rewrite !elem_of_app. intros Hx.
  assert (x ∈ MFT L) as Hin by (destruct Hx as [Hx|Hx]; by eapply record_in_mft). destruct (Hm x Hin).
  intros [Hd|[Hd|[Hd|[Hd|Hd]]]]; [|..|done|done].
  - apply (target_free x Hd), meta_used. by left.
  - destruct Hx as [Hx|Hx]; revert Hd; [apply (records_apart L 0 num)|apply (records_apart L 6 num)]; (done || lia).
  - destruct Hx as [Hx|Hx]; revert Hd; [apply (records_apart L 0 3)|apply (records_apart L 6 3)]; (done || lia).
Qed.
Lemma lcn_ok_new : Forall lcn_ok (new_runs m).
Proof. rewrite (pl_new _ _ _ _ Hp), (pl_target _ _ _ _ Hp). apply Forall_singleton. unfold lcn_ok. cbn. apply (pl_range _ _ _ _ Hp). Qed.

Lemma shaped_loaded : shaped (bytes_per_sector (volume L)) (record_fixed c) (before ++ attribute c :: after).
Proof. pose proof (so_shape Hs num (ld_user _ _ _ Hl)) as H. unfold shaped_record in H. by rewrite (ld_decoded _ _ _ Hl) in H. Qed.

(** The preconditions of the move hold, unless preparing it fails. *)
Lemma move_ready t r : _move_extent L c m d = (t, r) ->
  (t = [] /\ exists e, r = Raise e) \/ exists new_record v0 v1 m0 m1, move_ok (volume L) L c m d new_record v0 v1 m0 m1.
Proof.
  intros H. unfold _move_extent in H. cbv zeta in H.
  apply silent_step in H as [H|(new_record & Hnew & H)]; [by left| |apply silent_lift]. apply lift_inv in Hnew as [_ Hnew].
  apply silent_step in H as [H|([[[v0 v1] m0] m1] & Hvr & _)]; [by left| |apply silent_volume_record_state].
  right. exists new_record, v0, v1, m0, m1.
  destruct (record_rewrite c (new_runs m) (bytes_per_sector (volume L)) new_record before after) as (fixed' & growth & _ & Hrl & _);
    [apply (ld_wf _ _ _ Hl)|apply shaped_loaded|apply (ld_attrs _ _ _ Hl)|apply (ld_nonresident _ _ _ Hl)|apply lcn_ok_new|done|].
  destruct num_user as [H24 [H0 Hfit]]. destruct (so_sizes Hs) as (Hr & Hss & _). destruct (so_mft Hs) as [Hms Hmf]. destruct (so_bitmap Hs) as [Hbs Hbf].
  assert (Forall physical_run (source_runs m)) as Hsrc.
  { rewrite (pl_source _ _ _ _ Hp). eapply Forall_impl; [exact (ld_runs _ _ _ Hl)|]. by intros x [? _]. }
  assert (runs_length (destination_runs m) = k) as Hdl by (rewrite (pl_target _ _ _ _ Hp); unfold runs_length; cbn; lia).
  pose proof (pl_pos _ _ _ _ Hp). constructor; try done.
  - apply (so_bytes Hs).
  - apply (so_layout Hs).
  - split; [done|lia].
  - apply (ld_raw _ _ _ Hl).
  - rewrite Hrl. apply (ld_len _ _ _ Hl).
  - rewrite (pl_target _ _ _ _ Hp). apply Forall_singleton. split; [done|]. cbn. lia.
  - rewrite Hdl, (pl_source _ _ _ _ Hp). symmetry. apply (pl_length _ _ _ _ Hp).
  - lia.
  - apply runs_fit_move.
  - apply touched_on.
  - apply touched_nodup.
  - apply home_apart.
Qed.

(** ** What the two outcomes keep *)

Lemma system_apart x : (exists j, stored L j /\ x ∈ owned L d j) -> x ∉ DST.
Proof.
  intros (j & Hj & Hx) Hd. apply (target_free x Hd). destruct (Z.lt_ge_cases j FIRST_USER_RECORD) as [Hlt|Hge].
  - pose proof (so_system Hs j ltac:(destruct Hj; lia) Hj) as H. rewrite Forall_forall in H. by destruct (H x Hx).
  - destruct (so_owned Hs j ltac:(by split)) as [_ H]. rewrite Forall_forall in H. by destruct (H x Hx).
Qed.

Lemma files_unchanged d' j : stored L j -> gather d' (RECORD L j) = gather d (RECORD L j) ->
  (forall x, x ∈ owned L d j -> peek d' x = peek d x) -> files_of L d' j = files_of L d j.
Proof.
  intros Hj Hr Hx. unfold files_of, owned in *. unfold decoded in *. rewrite Hr. destruct (decode_record L _) as [[fixed attrs]|]; [|done]. f_equal.
  apply map_ext_in. intros a Ha. unfold abstract_stream. f_equal. apply unchanged_clusters; [apply cs_pos|]. intros x Hin. apply Hx.
  unfold addrs_of. apply list_elem_of_In, in_concat. exists (stream_addrs cs (runs a)). split; [by apply (in_map (fun a => stream_addrs cs (runs a)))|by apply list_elem_of_In].
Qed.

Lemma old_same_files d' : is_old L m d d' -> same_files L d d'.
Proof.
  intros [Hlen Hsame]. split; [done|].
  assert (forall j, stored L j -> gather d' (RECORD L j) = gather d (RECORD L j)) as Hrec.
  { intros j Hj. apply gather_ext. intros x Hx. destruct (meta_used x ltac:(left; by eapply record_in_mft)). apply Hsame; [done|]. intros Hd. by apply (target_free x Hd). }
  split.
  - intros j [Hu Hj]. apply files_unchanged; [done|by apply Hrec|]. intros x Hx. destruct (so_owned Hs j ltac:(by split)) as [_ H]. rewrite Forall_forall in H.
    destruct (H x Hx) as (_ & Hon & _). destruct (so_sizes Hs) as (_ & _ & Ht). apply Hsame; [lia|]. apply system_apart. by exists j.
  - intros j Hj Hst. split; [by apply Hrec|]. intros x Hx Hon _ _. apply Hsame; [done|]. apply system_apart. by exists j.
Qed.
Section done.
Context (new_record d' : bytes).
Hypothesis Hupd : _updated_record_runs c (new_runs m) (bytes_per_sector (volume L)) = Ok new_record.
Hypothesis Hnew : is_new L c m d new_record d'.

Local Notation L' := (with_bitmap L (gather d' (BITMAP L))).

Lemma new_len : py_len d' = n_d.
Proof. by destruct Hnew. Qed.

Lemma new_peek x : 0 <= x < n_d -> x ∉ RECORD L num -> x ∉ BITMAP L -> x ∉ DST -> peek d' x = peek d x.
Proof. destruct Hnew as (_ & _ & _ & _ & H). apply H. Qed.

Lemma new_record_kept j : 0 <= j -> j <> num -> gather d' (RECORD L j) = gather d (RECORD L j).
Proof.
  intros H0 Hne. destruct meta_cases as (N1 & _ & _ & Hm & _). destruct num_user as [H24 [Hn0 _]]. destruct (so_sizes Hs) as (Hr & _).
  apply gather_ext. intros x Hx. pose proof (record_in_mft _ _ _ Hx) as Hin. destruct (Hm x Hin). destruct (meta_used x ltac:(by left)).
  apply new_peek; [done| |done|]; [by apply (records_apart L j num)|]. intros Hd. by apply (target_free x Hd).
Qed.

Lemma owned_kept x j : stored L j -> x ∈ owned L d j -> 0 <= x < n_d -> x ∉ MFT L -> x ∉ BITMAP L -> peek d' x = peek d x.
Proof.
  intros Hj Hx Hon Hm Hb. apply new_peek; [done| |done|apply system_apart; by exists j]. intros Hr. apply Hm. by eapply record_in_mft.
Qed.

Lemma user_kept x j : user L j -> x ∈ owned L d j -> peek d' x = peek d x.
Proof.
  intros Hu Hx. destruct (so_owned Hs j Hu) as [_ H]. rewrite Forall_forall in H. destruct (H x Hx) as (_ & Hon & Hm). unfold META in Hm.
  destruct (so_sizes Hs) as (_ & _ & Ht). rewrite !elem_of_app in Hm. apply (owned_kept x j); [by destruct Hu|done|lia|tauto|tauto].
Qed.

(** The record of the moved stream. *)
Lemma moved_record : exists fixed' growth,
  let attrs' := rewritten_attrs before (attribute c) after growth [mkRun (Some g) k] in
  decoded L d' num = Some (fixed', attrs') /\ shaped (bytes_per_sector (volume L)) fixed' attrs' /\ wf_bytes new_record /\
  Forall (fun b => py_slice fixed' (offset b) (offset b + alength b) = py_slice (record_fixed c) (offset b) (offset b + alength b)) before /\
  Forall (fun b => py_slice fixed' (offset b + growth) (offset b + growth + alength b) = py_slice (record_fixed c) (offset b) (offset b + alength b)) after.
Proof.
  destruct (record_rewrite c (new_runs m) (bytes_per_sector (volume L)) new_record before after) as
    (fixed' & growth & Happ & Hrl & Hlen & Hat & Hsh & Hhead & Hflag & Hb & Ha);
    [apply (ld_wf _ _ _ Hl)|apply shaped_loaded|apply (ld_attrs _ _ _ Hl)|apply (ld_nonresident _ _ _ Hl)|apply lcn_ok_new|done|].
  rewrite (pl_new _ _ _ _ Hp), (pl_target _ _ _ _ Hp), coalesce_one in Hat, Hsh by apply (pl_pos _ _ _ _ Hp).
  assert (wf_bytes new_record) as Hwn.
  { pose proof Hupd as H. unfold _updated_record_runs in H. apply bind_ok in H as (body & Hbody & Hprep). eapply prepare_fixups_wf; [|exact Hprep].
    destruct shaped_loaded as (off & count & first & Husa & Hf & Ho & Hof & _). destruct (usa_bounds _ _ _ _ Husa) as (Hc & _).
    pose proof (ld_attrs _ _ _ Hl) as Hattrs. unfold _attributes in Hattrs. rewrite Hf in Hattrs. destruct (u32le (record_fixed c) 24) as [used|] eqn:E24; [|done].
    destruct (attributes_loop _ _ _ _) as [l r] eqn:El in Hattrs. unfold list_of in Hattrs. cbn in Hattrs. destruct r; [done|]. injection Hattrs as ->.
    assert (0 <= first) as Hf0 by lia. pose proof (ld_wf _ _ _ Hl) as Hwf. assert (Z.min (py_len (record_fixed c)) used <= py_len (record_fixed c)) as Hu by lia.
    destruct (walk_member _ _ _ _ _ _ _ El Hwf Hf0 Hu) as [Hpa Hfo].
    destruct (parse_attribute_facts _ _ (offset (attribute c)) _ Hwf ltac:(lia) Hu Hpa) as (_ & _ & _ & Hfacts).
    destruct (Hfacts (ld_nonresident _ _ _ Hl)) as (Hro & _).
    destruct (rewrite_body_facts c (new_runs m) body Hwf ltac:(lia) Hro (parse_unique_length _ _ _ _ Hpa) lcn_ok_new Hbody) as (? & ? & ? & _ & _ & _ & _ & Hrw).
    apply (rw_wf Hrw). }
  exists fixed', growth. cbv zeta. split; [|done]. unfold decoded, decode_record. destruct Hnew as (_ & -> & _).
  destruct (so_sizes Hs) as (_ & Hss & _). pose proof (ld_decoded _ _ _ Hl) as Hd. unfold decoded, decode_record in Hd.
  destruct (is_file_record (gather d (RECORD L num))) eqn:Efile; [|done].
  assert (_apply_fixups (gather d (RECORD L num)) (bytes_per_sector (volume L)) = Ok (record_fixed c) /\
          exists fl, u16le (record_fixed c) 22 = Ok fl /\ flag_set fl RECORD_IN_USE = true) as (Hfix & fl & Hfl & Huse).
  { destruct (scan_decode L (gather d (RECORD L num))) as [o|] eqn:Ed; [|done]. subst o. unfold scan_decode in Ed.
    apply bind_ok in Ed as (fixed & Hfx & Ed). apply bind_ok in Ed as (fl & Hfl & Ed). destruct (flag_set fl RECORD_IN_USE) eqn:Ef; [|done]. cbn [negb] in Ed.
    apply bind_ok in Ed as (l & _ & Ed). injection Ed as <- _. split; [done|]. by exists fl. }
  assert (is_file_record new_record = true) as ->.
  { unfold is_file_record in *. rewrite <- (apply_fixups_head new_record _ fixed' Hwn Hss Happ), Hhead.
    by rewrite (apply_fixups_head _ _ _ ltac:(apply wf_gather, (so_bytes Hs)) Hss Hfix). }
  unfold scan_decode. rewrite Happ. cbn [mbind result_bind]. rewrite Hflag, Hfl. cbn [mbind result_bind]. rewrite Huse, Hat. done.
Qed.

Lemma peek_wf x : 0 <= x < n_d -> is_byte (peek d' x).
Proof.
  intros Hx. assert (forall b addrs, wf_bytes b -> gather d' addrs = b -> x ∈ addrs -> is_byte (peek d' x)) as Hin.
  { intros b addrs Hb <- Hxa. unfold wf_bytes in Hb; rewrite Forall_forall in Hb. apply Hb. unfold gather. apply list_elem_of_fmap. by exists x. }
  destruct moved_record as (_ & _ & _ & _ & Hwn & _). pose proof (so_bytes Hs) as Hw. destruct Hnew as (_ & Hr & Hb & Hd & Hrest).
  destruct (decide (x ∈ RECORD L num)); [by apply (Hin new_record (RECORD L num))|]. destruct (decide (x ∈ BITMAP L)); [apply (Hin (gather d' (BITMAP L)) (BITMAP L)); [apply Hb|done|done]|].
  destruct (decide (x ∈ DST)); [apply (Hin (gather d SRC) DST); [by apply wf_gather|done|done]|].
  rewrite Hrest by done. pose proof (wf_gather d [x] Hw) as H. by apply Forall_cons in H as [H _].
Qed.

Lemma new_wf : wf_bytes d'.
Proof.
  apply Forall_lookup_2. intros i b Hi. pose proof (lookup_lt_Some _ _ _ Hi) as Hlt. pose proof new_len as Hn. unfold py_len in Hn.
  pose proof (peek_wf (Z.of_nat i) ltac:(unfold py_len; lia)) as H. unfold peek, nthZ in H. by rewrite Nat2Z.id, Hi in H.
Qed.

Lemma target_addrs : stream_addrs cs [mkRun (Some g) k] = DST.
Proof. unfold TARGET. by rewrite (pl_target _ _ _ _ Hp). Qed.

Lemma owned_moved : owned L d' num = addrs_of cs before ++ DST ++ addrs_of cs after /\
                    owned L d num = addrs_of cs before ++ SRC ++ addrs_of cs after.
Proof.
  destruct moved_record as (fixed' & growth & Hd & _). unfold owned. rewrite Hd, (ld_decoded _ _ _ Hl). unfold rewritten_attrs, addrs_of.
  rewrite !map_app, !concat_app. cbn [map concat]. rewrite map_map. cbn [runs with_runs shift_attribute]. by rewrite target_addrs, source_addrs.
Qed.

Lemma owned_other j : 0 <= j -> j <> num -> owned L d' j = owned L d j.
Proof. intros H0 Hne. by apply owned_same, new_record_kept. Qed.

Lemma used_moved x : 0 <= x -> used L' x <-> x ∉ SRC /\ (x ∈ DST \/ used L x).
Proof.
  intros Hx. pose proof cs_pos as Hcs. destruct Hnew as (_ & _ & (_ & _ & Hbits) & _). unfold used. cbn [bitmap with_bitmap volume].
  rewrite Hbits by (apply Z.div_pos; lia). unfold SOURCE, TARGET. rewrite !elem_of_stream_addrs by done.
  destruct (in_runs (source_runs m) _), (in_runs (destination_runs m) _), (bit_at _ _); intuition congruence.
Qed.

(** Another record's clusters are not those of the moved stream. *)
Lemma apart_used j x : stored L j -> j <> num -> x ∈ owned L d j -> 0 <= x -> used L x -> used L' x.
Proof.
  intros Hj Hne Hx H0 Hu. apply used_moved; [done|]. split; [|by right]. intros Hsrc.
  apply (so_apart Hs num j x (ld_user _ _ _ Hl) Hj (not_eq_sym Hne)); [by apply source_owned|done].
Qed.

Lemma meta_kept x : x ∈ META L -> used L' x.
Proof.
  intros Hx. unfold META in Hx. rewrite !elem_of_app in Hx. destruct (meta_used x Hx) as [Hu Hon]. apply used_moved; [lia|]. split; [|by right].
  intros Hsrc. destruct (owned_facts _ (source_owned _ Hsrc)) as (_ & _ & ? & ? & ?). tauto.
Qed.

Lemma target_not_meta x : x ∈ DST -> x ∉ META L.
Proof. intros Hx Hm. apply (target_free x Hx). apply meta_used. unfold META in Hm. by rewrite !elem_of_app in Hm. Qed.

(** Where the moved record's clusters are now. *)
Lemma owned_moved_facts :
  NoDup (owned L d' num) /\ Forall (fun x => used L' x /\ 0 <= x < total_clusters (volume L) * cs /\ x ∉ META L) (owned L d' num).
Proof.
  destruct owned_moved as [Hn Ho]. destruct (so_owned Hs num (ld_user _ _ _ Hl)) as [Hnd Hall]. rewrite Ho in Hnd, Hall. rewrite Hn.
  rewrite Forall_forall in Hall. apply NoDup_app in Hnd as (N1 & A1 & Hnd). apply NoDup_app in Hnd as (N2 & A2 & N3).
  assert (forall x, x ∈ DST -> x ∉ addrs_of cs before /\ x ∉ addrs_of cs after) as Hap.
  { intros x Hx. split; intros Hy; apply (target_free x Hx); apply Hall; rewrite !elem_of_app; tauto. }
  split.
  - apply NoDup_app. split; [done|]. split; [|apply NoDup_app; split; [|split; [|done]]].
    + intros x Hx. specialize (A1 x Hx). rewrite !elem_of_app in A1 |- *. intros [Hd|Hd]; [by destruct (Hap x Hd)|tauto].
    + pose proof touched_nodup as Ht. apply NoDup_app in Ht as (_ & _ & Ht). unfold TOUCHED in Ht. by apply NoDup_app in Ht as (Ht & _).
    + intros x Hx. by destruct (Hap x Hx).
  - apply Forall_forall. intros x. rewrite !elem_of_app. intros Hx.
    assert (x ∈ DST \/ (x ∈ addrs_of cs before ++ SRC ++ addrs_of cs after /\ x ∉ SRC)) as [Hd|[Hd Hsrc]].
    { rewrite !elem_of_app. destruct Hx as [Hx|[Hx|Hx]]; [right|by left|right].
      - split; [tauto|]. specialize (A1 x Hx). rewrite elem_of_app in A1. tauto.
      - split; [tauto|]. intros Hy. by apply (A2 x Hy). }
    + pose proof (target_within x Hd). split; [|split; [done|by apply target_not_meta]]. apply used_moved; [lia|]. split; [|by left].
      intros Hsrc. apply (target_free x Hd). by apply owned_facts, source_owned.
    + destruct (Hall x Hd) as (? & ? & ?). split; [|done]. apply used_moved; [lia|]. split; [done|by right].
Qed.

(** A completed move leaves a consistent volume with the same files. *)
Lemma moved_sound : sound L' d'.
Proof.
  pose proof (ld_user _ _ _ Hl) as Hu. destruct num_user as [H24 [Hn0 Hnf]]. destruct (so_sizes Hs) as (Hr & Hss & Ht).
  destruct (so_mft Hs) as [Hms Hmf]. destruct (so_bitmap Hs) as [Hbs Hbf]. destruct (so_meta Hs) as (Mn & Mo & _). pose proof new_len as Hlen.
  destruct moved_record as (fixed' & growth & Hd & Hsh & _).
  constructor; cbn [volume with_bitmap mft_runs bitmap_runs bitmap_data_size]; rewrite ?Hlen; try done.
  - apply new_wf.
  - destruct (read_layout_kept (J:=journal_state) L d d') as (_ & _ & Hrun); try done; [apply (so_layout Hs)|apply (so_zero Hs)|].
    intros n Hn. apply new_record_kept; lia.
  - apply (so_zero Hs).
  - split; [done|]. split; [done|]. apply Forall_forall. intros x Hx. by apply meta_kept.
  - intros n Hn. change (shaped_record L d' n). unfold shaped_record. destruct (decide (n = num)) as [->|Hne]; [by rewrite Hd|].
    pose proof (so_shape Hs n Hn) as H. unfold shaped_record in H. unfold decoded in *. rewrite new_record_kept; [done| |done]. by destruct Hn as [_ [? _]].
  - intros n Hn. change (owned L' d' n) with (owned L d' n). change (META L') with (META L).
    destruct (decide (n = num)) as [->|Hne]; [apply owned_moved_facts|]. destruct Hn as [Hn1 Hn2].
    rewrite owned_other by (destruct Hn2; done). destruct (so_owned Hs n ltac:(by split)) as [H1 H2]. split; [done|].
    rewrite Forall_forall in H2 |- *. intros x Hx. destruct (H2 x Hx) as (? & ? & ?). split; [|done]. apply (apart_used n x); (done || lia).
  - intros n j x Hn Hj Hne Hx. change (owned L' d' n) with (owned L d' n) in Hx. change (owned L' d' j) with (owned L d' j).
    change (user L n) in Hn. change (stored L j) in Hj. pose proof owned_moved as [Em Eo].
    destruct (decide (n = num)) as [->|Hnn]; [|rewrite owned_other in Hx by (destruct Hn as [_ [? _]]; done)].
    + rewrite owned_other by (destruct Hj; done || congruence). rewrite Em in Hx. rewrite !elem_of_app in Hx.
      destruct (decide (x ∈ DST)) as [Hdst|Hdst]; [intros Hy; apply (system_apart x); [by exists j|done]|].
      apply (so_apart Hs num j x Hu Hj Hne). rewrite Eo, !elem_of_app. tauto.
    + destruct (decide (j = num)) as [->|Hjn]; [|rewrite owned_other by (destruct Hj; done); by apply (so_apart Hs n j x)].
      rewrite Em, !elem_of_app. pose proof (so_apart Hs n num x Hn Hj Hne Hx) as H. rewrite Eo, !elem_of_app in H.
      pose proof (system_apart x ltac:(exists n; split; [apply Hn|done])). tauto.
  - intros n Hn Hst. change (stored L n) in Hst. change (owned L' d' n) with (owned L d' n). unfold FIRST_USER_RECORD in Hn.
    rewrite owned_other by lia. pose proof (so_system Hs n Hn Hst) as H. rewrite Forall_forall in H |- *.
    intros x Hx. destruct (H x Hx). split; [done|]. apply (apart_used n x); (done || lia).
Qed.

Lemma moved_same_files : same_files L d d'.
Proof.
  pose proof (ld_user _ _ _ Hl) as Hu. destruct num_user as [H24 [Hn0 Hnf]]. split; [apply new_len|]. split.
  - intros n Hn. destruct (decide (n = num)) as [->|Hne].
    + destruct moved_record as (fixed' & growth & Hd & _ & _ & Hb & Ha). unfold files_of. rewrite Hd, (ld_decoded _ _ _ Hl). f_equal.
      unfold rewritten_attrs. rewrite !map_app. cbn [map]. rewrite map_map.
      assert (forall b, b ∈ before \/ b ∈ after -> map (cluster_bytes cs d') (expand (runs b)) = map (cluster_bytes cs d) (expand (runs b))) as Hkeep.
      { intros b Hin. apply unchanged_clusters; [apply cs_pos|]. intros x Hx. apply (user_kept x num Hu). destruct owned_moved as [_ ->].
        assert (forall l, b ∈ l -> x ∈ addrs_of cs l) as Hl'.
        { intros l Hbl. unfold addrs_of. apply list_elem_of_In, in_concat. exists (stream_addrs cs (runs b)).
          split; [by apply (in_map (fun a => stream_addrs cs (runs a))), list_elem_of_In|by apply list_elem_of_In]. }
        rewrite !elem_of_app. destruct Hin; [left|right; right]; by apply Hl'. }
      rewrite Forall_forall in Hb, Ha. f_equal; [|f_equal].
      * apply map_ext_in. intros b Hin%list_elem_of_In. unfold abstract_stream. rewrite (Hb b Hin), Hkeep by tauto. done.
      * unfold abstract_stream. cbn [atype name flags nonresident lowest_vcn highest_vcn data_size allocated_size initialized_size runs with_runs].
        rewrite (ld_nonresident _ _ _ Hl). f_equal. apply same_bytes_clusters; [apply cs_pos| | |].
        -- eapply Forall_impl; [exact (ld_runs _ _ _ Hl)|]. by intros r [? _].
        -- apply Forall_singleton. split; [done|]. pose proof (pl_pos _ _ _ _ Hp). cbn. lia.
        -- rewrite target_addrs, <- source_addrs. by destruct Hnew as (_ & _ & _ & H & _).
      * apply map_ext_in. intros b Hin%list_elem_of_In. unfold abstract_stream, shift_attribute. cbn [atype name flags nonresident lowest_vcn highest_vcn data_size allocated_size initialized_size runs offset alength].
        rewrite (Ha b Hin), Hkeep by tauto. done.
    + apply files_unchanged; [apply Hn|apply new_record_kept; [by destruct Hn as [_ [? _]]|done]|]. intros x Hx. by apply (user_kept x n).
  - intros n Hn Hst. unfold FIRST_USER_RECORD in Hn. split; [apply new_record_kept; lia|]. intros x Hx Hon Hm Hb. by apply (owned_kept x n).
Qed.
End done.
End move.
End one_move.
