(* ===== verification/NtfsRefine.v ===== *)
(** * Whole runs keep the files

    [compact] and [defragment] of [src/gui/ntfs_engine.py] against the abstract
    contents of [NtfsFiles]: whatever a run returns or raises, and wherever a
    power failure stops it, a volume that was consistent holds the same files
    afterwards, at once or after [recover].

    A run is a sequence of complete moves ([moves]); each is covered by the
    facts of [NtfsSafety] and [NtfsTxnFacts].  Models nothing of the program
    itself. *)

From S2P Require Import Prelude Text Bytes Ranges RangesFacts Bitmap NtfsRuns NtfsBitmap NtfsRecord Device Addresses NtfsVolume NtfsTxn NtfsTxnFacts NtfsPlan NtfsCompact NtfsFiles NtfsSafety.

Local Open Scope Z_scope.

Local Notation trace := (list (effect journal_state)).

(** ** Planning only reads *)

(** Walk through the text of a program to its reading primitives. *)
Ltac reads :=
  repeat match goal with
  | |- silent (pbind _ _) => apply silent_bind; [|intros ?]
  | |- silent (pforeach _ _ _) => apply silent_foreach; intros ? ?
  | |- silent (match ?x with _ => _ end) => destruct x
  | |- silent _ => solve [auto with silent | done]
  end.

Lemma silent_read_layout {J} vol a b : silent (_read_layout (J:=J) vol a b).
Proof. unfold _read_layout, _record_zero. cbv zeta. reads. Qed.

Lemma silent_load_candidate L info : silent (_load_candidate L info).
Proof. unfold _load_candidate. reads. Qed.
#[export] Hint Resolve silent_read_layout silent_load_candidate : silent.

Lemma silent_scan L : silent (_scan_allocation_plan L).
Proof.
  unfold _scan_allocation_plan, for_mft_records. cbv zeta. apply silent_bind; [|done]. apply silent_foreach. intros s chunk.
  apply silent_bind; [auto with silent|]. intros raw. apply silent_foreach. intros s' off. unfold scan_record, _record_hibernation_active. cbv zeta. reads.
Qed.

Lemma silent_select L plan gap : silent (_select_compact_source L plan gap).
Proof. unfold _select_compact_source. reads. Qed.
#[export] Hint Resolve silent_scan silent_select : silent.

Lemma select_loads L plan gap d owner c m reason :
  _select_compact_source L plan gap d = ([], Ok (Some (owner, c, m), reason)) -> _load_candidate L owner d = ([], Ok c).
Proof.
  intros H. unfold _select_compact_source in H. destruct (lcn gap); [|done].
  apply silent_step in H as [[_ [e He]]|([best reasons] & _ & H)]; [done| |auto with silent].
  destruct best as [[info m']|]; [|by destruct (py_max _ _) as [[? ?]|]].
  apply silent_step in H as [[_ [e He]]|(c' & Hc & H)]; [done| |auto with silent]. destruct (negb _); [done|].
  apply silent_step in H as [[_ [e He]]|(enc & _ & H)]; [done| |done]. apply silent_step in H as [[_ [e He]]|(cap & _ & H)]; [done| |done].
  destruct (_ <? _); [done|]. injection H as -> -> _ _. exact Hc.
Qed.

(** ** One move, whatever it returns *)

Section one.
Context (L : NtfsLayout) (d : bytes) (c : Candidate) (m : ExtentMove).
Hypothesis Hs : sound L d.

(** A move the planner may ask for. *)
Definition valid_move : Prop := exists before after g k, loaded L d c before after /\ placed L c m g k.

Definition move_result (t : trace) (b : bytes) : Prop :=
  sound (with_bitmap L b) (replay d t) /\ same_files L d (replay d t) /\ journal_after None t = None /\
  exists a j1 j2, t = a ++ [EFsync; EJournal j1; EJournal j2] /\ Forall (inside (py_len d)) a.

Lemma move_outcome t r : valid_move -> _move_extent L c m d = (t, r) ->
  (t = [] /\ exists e, r = Raise e) \/ exists b, r = Ok b /\ move_result t b.
Proof.
  intros (before & after & g & k & Hl & Hp) H. destruct (move_ready L d Hs c before after m g k Hl Hp t r H) as [?|(nr & v0 & v1 & m0 & m1 & Hok)]; [by left|].
  right. destruct (move_summary _ _ _ _ _ _ _ _ _ _ Hok) as (tc & body & b2 & Hmove & Hwc & Hbody & _ & Hbm & Hnew).
  rewrite Hmove in H. injection H as <- <-. exists b2. split; [done|]. unfold move_result. rewrite commit_replay, commit_journal, <- Hbm.
  pose proof (mo_new Hok) as Hupd. split; [by eapply moved_sound|]. split; [by eapply moved_same_files|]. split; [done|].
  exists (tc ++ EFsync :: EJournal (Some (the_journal (volume L) L c m nr v0 v1 m0 m1 "copied")) :: body). eexists _, _.
  split; [by repeat (rewrite <- !app_assoc; cbn [app])|]. destruct Hbody as (Hi & _). destruct Hwc as (_ & Hw & _).
  apply Forall_app_2; [done|]. by repeat constructor.
Qed.

(** What a device and a journal file left by a power failure must give. *)
Definition settled (realpath : string -> string) (d' : bytes) (j : option journal_state) : Prop :=
  match j with
  | None => same_files L d d'
  | Some state => exists t, recover realpath (volume L) state d' = (t, Ok 0) /\ journal_after (Some state) t = None /\ same_files L d (replay d' t)
  end.

Lemma move_cut realpath d' j : valid_move -> realpath (path (volume L)) = path (volume L) ->
  reach realpath (volume L) L c m d d' j -> settled realpath d' j.
Proof.
  intros (before & after & g & k & Hl & Hp) Hreal Hr. destruct (_move_extent L c m d) as [t r] eqn:E.
  destruct (move_ready L d Hs c before after m g k Hl Hp t r E) as [[-> _]|(nr & v0 & v1 & m0 & m1 & Hok)].
  - assert (j = None /\ d' = d) as [-> ->]; [|done]. induction Hr as [p q r' d' Hrun Hc|d1 j p q r' d' _ [[=] _]].
    rewrite E in Hrun. injection Hrun as Hrun _. symmetry in Hrun. apply app_eq_nil in Hrun as [-> _]. split; [done|]. by apply crash_nil in Hc.
  - pose proof (mo_new Hok) as Hupd.
    assert (forall x, is_old L m d x \/ is_new L c m d nr x -> same_files L d x) as Hsame.
    { intros x [H|H]; [by eapply old_same_files|by eapply moved_same_files]. }
    pose proof (reach_inv _ _ _ _ _ _ _ _ _ _ _ Hok Hreal _ _ Hr) as Hinv. destruct j as [state|]; [|by apply Hsame].
    destruct Hinv as [Hm [stage ->]]. destruct (recover_run _ _ _ _ _ _ _ _ _ _ _ Hok Hreal d' stage Hm) as (t' & Hrun & Ht & Hend).
    exists (t' ++ [EFsync; EJournal None]). split; [done|]. split; [by rewrite journal_after_app|]. rewrite replay_app. by apply Hsame.
Qed.
End one.

(** ** A sequence of moves *)

Inductive moves : NtfsLayout -> bytes -> trace -> NtfsLayout -> Prop :=
  | moves_done L d : moves L d [] L
  | moves_move L d c m t b ts L' :
      valid_move L d c m -> _move_extent L c m d = (t, Ok b) -> moves (with_bitmap L b) (replay d t) ts L' -> moves L d (t ++ ts) L'.

Lemma moves_app L d t1 L1 t2 L2 : moves L d t1 L1 -> moves L1 (replay d t1) t2 L2 -> moves L d (t1 ++ t2) L2.
Proof.
  induction 1 as [L d|L d c m t b ts L' Hv Hm Hts IH]; intros H2; [done|]. rewrite <- app_assoc. eapply moves_move; [done|done|].
  apply IH. by rewrite replay_app in H2.
Qed.

Lemma moves_one L d c m t b : valid_move L d c m -> _move_extent L c m d = (t, Ok b) -> moves L d t (with_bitmap L b).
Proof. intros Hv Hm. rewrite <- (app_nil_r t). eapply moves_move; [done|done|]. constructor. Qed.

Lemma moves_sound L d t L' : sound L d -> moves L d t L' ->
  sound L' (replay d t) /\ same_files L d (replay d t) /\ journal_after None t = None /\ volume L' = volume L.
Proof.
  intros Hs H. induction H as [L d|L d c m t b ts L' Hv Hm Hts IH]; [done|].
  destruct (move_outcome L d c m Hs t (Ok b) Hv Hm) as [[_ [e He]]|(b' & [= <-] & Hs' & Hf & Hj & _)]; [done|].
  destruct (IH Hs') as (H1 & H2 & H3 & H4). rewrite replay_app, journal_after_app, Hj. split; [done|].
  split; [eapply same_files_trans; [done|exact H2]|]. split; [done|]. by rewrite H4.
Qed.

(** ** Power failures *)

(** What power failures leave of a run with trace [t], and then of any number
    of recoveries. *)
Inductive interrupted (realpath : string -> string) (vol : Volume) (d0 : bytes) (t : trace) : bytes -> option journal_state -> Prop :=
  | cut_run p s d : t = p ++ s -> crash d0 p d -> interrupted realpath vol d0 t d (journal_after None p)
  | cut_recovery d j p s r d' :
      interrupted realpath vol d0 t d (Some j) -> recover realpath vol j d = (p ++ s, r) -> crash d p d' ->
      interrupted realpath vol d0 t d' (journal_after (Some j) p).

Lemma crash_skip_journal (d d' : bytes) j (t : trace) : crash d (EJournal j :: t) d' -> crash d t d'.
Proof.
  intros (Hl & s & p & Heq & Hs & Hp & Hc). split; [done|]. destruct s as [|x s].
  - cbn [app] in Heq. subst p. exists [], t. split; [done|]. split; [by left|]. apply Forall_cons in Hp as [_ Hp]. split; [done|].
    intros a v Ha Hv. destruct (Hc a v Ha Hv) as [?|(e & He & Hput)]; [by left|]. apply elem_of_cons in He as [->|He]; [done|]. right. by exists e.
  - cbn [app] in Heq. injection Heq as <- ->. exists s, p. split; [done|]. split; [|split; [done|]].
    + destruct Hs as [?|(s' & Hs)]; [done|]. right. destruct s' as [|y s']; [done|]. injection Hs as _ ->. by exists s'.
    + intros a v Ha Hv. exact (Hc a v Ha Hv).
Qed.

(** Where in a sequence of moves the failure struck. *)
Definition struck (realpath : string -> string) (L : NtfsLayout) (d0 d : bytes) (j : option journal_state) : Prop :=
  (j = None /\ same_files L d0 d) \/
  exists Lk dk c m, sound Lk dk /\ volume Lk = volume L /\ (forall x, same_files Lk dk x -> same_files L d0 x) /\
    valid_move Lk dk c m /\ reach realpath (volume L) Lk c m dk d j.

Lemma cut_moves realpath L d0 t L' : sound L d0 -> moves L d0 t L' ->
  forall p s d, t = p ++ s -> crash d0 p d -> struck realpath L d0 d (journal_after None p).
Proof.
  intros Hs H. induction H as [L d|L d c m t b ts L' Hv Hm Hts IH]; intros p s d' Heq Hc.
  - symmetry in Heq. apply app_eq_nil in Heq as [-> _]. apply crash_nil in Hc as ->. by left.
  - destruct (move_outcome L d c m Hs t (Ok b) Hv Hm) as [[_ [e He]]|(b' & [= <-] & Hs' & Hf & Hj & a & j1 & j2 & Ht & Hin)]; [done|].
    apply app_eq_app in Heq as (q & [[-> ->]|[-> ->]]).
    + right. exists L, d, c, m. split; [done|]. split; [done|]. split; [done|]. split; [done|]. by eapply reach_move.
    + rewrite journal_after_app, Hj. assert (crash (replay d t) q d') as Hc'.
      { rewrite Ht in Hc |- *. rewrite <- app_assoc in Hc. cbn [app] in Hc. apply crash_after_fsync in Hc; [|done].
        do 2 apply crash_skip_journal in Hc. by rewrite replay_app. }
      destruct (IH Hs' q s d' eq_refl Hc') as [[Hn Hsame]|(Lk & dk & c' & m' & H1 & H2 & H3 & H4)].
      * left. split; [done|]. by eapply same_files_trans.
      * right. exists Lk, dk, c', m'. split; [done|]. split; [by rewrite H2|]. split; [|exact H4].
        intros x Hx. eapply same_files_trans; [done|]. apply (H3 x Hx).
Qed.

Lemma interrupted_struck realpath L d0 t L' d j :
  sound L d0 -> moves L d0 t L' -> interrupted realpath (volume L) d0 t d j -> struck realpath L d0 d j.
Proof.
  intros Hs Hm H. induction H as [p s d Heq Hc|d j p s r d' _ IH Hrun Hc]; [by eapply cut_moves|].
  destruct IH as [[? _]|(Lk & dk & c & m & H1 & H2 & H3 & H4 & H5)]; [done|]. right. exists Lk, dk, c, m. split; [done|]. split; [done|].
  split; [done|]. split; [done|]. by eapply reach_recovery.
Qed.

Lemma interrupted_settled realpath L d0 t L' d j :
  sound L d0 -> moves L d0 t L' -> realpath (path (volume L)) = path (volume L) -> interrupted realpath (volume L) d0 t d j ->
  settled L d0 realpath d j.
Proof.
  intros Hs Hm Hreal Hi. destruct (interrupted_struck _ _ _ _ _ _ _ Hs Hm Hi) as [[-> ?]|(Lk & dk & c & m & H1 & H2 & H3 & H4 & H5)]; [done|].
  rewrite <- H2 in Hreal, H5. pose proof (move_cut Lk dk c m H1 realpath d j H4 Hreal H5) as H. unfold settled in *. rewrite H2 in H.
  destruct j as [state|]; [|by apply H3]. destruct H as (t' & R & J & F). exists t'. split; [done|]. split; [done|]. by apply H3.
Qed.

(** ** The planners ask for valid moves *)

(** A run performs complete moves and ends with the layout that belongs to the
    device. *)
Definition performs {A} (L : NtfsLayout) (d : bytes) (r : trace * result A) (out : A -> NtfsLayout) : Prop :=
  exists L', moves L d r.1 L' /\ forall a, r.2 = Ok a -> out a = L'.

Lemma performs_nothing {A} L d (r : result A) out : (forall a, r = Ok a -> out a = L) -> performs L d ([], r) out.
Proof. intros H. exists L. split; [constructor|]. exact H. Qed.

Lemma performs_raise {A} L d t r out : t = [] /\ (exists e, r = Raise e) -> performs (A:=A) L d (t, r) out.
Proof. intros [-> [e ->]]. by apply performs_nothing. Qed.

Lemma performs_bind {A B} L d (m : nprog A) (k : A -> nprog B) out out' :
  performs L d (m d) out -> (forall t a, m d = (t, Ok a) -> performs (out a) (replay d t) (k a (replay d t)) out') -> performs L d (pbind m k d) out'.
Proof.
  intros (L1 & Hm & Ho) Hk. destruct (pbind m k d) as [t r] eqn:E. apply pbind_cases in E as [(e & Er & ->)|(t1 & a & t2 & Er & Ek & ->)]; rewrite Er in Hm, Ho.
  - exists L1. by split.
  - specialize (Hk t1 a Er). rewrite (Ho a eq_refl), Ek in Hk. destruct Hk as (L2 & H2 & Ho2). exists L2. split; [|done]. cbn [fst] in *. by eapply moves_app.
Qed.

Lemma performs_silent {A} L d (m : nprog A) out : silent m -> (forall a, m d = ([], Ok a) -> out a = L) -> performs L d (m d) out.
Proof.
  intros Hs Ho. specialize (Hs d). destruct (m d) as [t r]. cbn in Hs. subst t. apply performs_nothing. intros a ->. by apply Ho.
Qed.

Lemma performs_step {A B} L d (m : nprog A) (k : A -> nprog B) out :
  silent m -> (forall a, m d = ([], Ok a) -> performs L d (k a d) out) -> performs L d (pbind m k d) out.
Proof.
  intros Hs Hk. destruct (pbind m k d) as [t r] eqn:E. apply silent_step in E as [E|(a & Ha & E)]; [by apply performs_raise| |done].
  specialize (Hk a Ha). by rewrite E in Hk.
Qed.

(** A move in front of bookkeeping that touches neither device nor layout. *)
Lemma performs_move {A} L d c m (k : bytes -> nprog A) out :
  sound L d -> valid_move L d c m -> (forall b, silent (k b)) -> (forall b d' a, k b d' = ([], Ok a) -> out a = with_bitmap L b) ->
  performs L d (pbind (_move_extent L c m) k d) out.
Proof.
  intros Hs Hv Hk Ho. apply (performs_bind _ _ _ _ (fun b => with_bitmap L b)).
  - destruct (_move_extent L c m d) as [t r] eqn:E. destruct (move_outcome L d c m Hs t r Hv E) as [H|(b & -> & _)]; [by apply performs_raise|].
    exists (with_bitmap L b). split; [by eapply moves_one|]. by intros b' [= ->].
  - intros t b _. apply performs_silent; [apply Hk|]. intros a. apply Ho.
Qed.

Lemma loaded_clusters L d c before after : loaded L d c before after -> physical_clusters (runs (attribute c)) = runs_length (runs (attribute c)).
Proof.
  intros Hl. unfold physical_clusters, runs_length. rewrite filter_all; [done|]. eapply Forall_impl; [exact (ld_runs _ _ _ _ _ Hl)|].
  intros r [[Hp _] _]. by rewrite Hp.
Qed.

Lemma compact_valid L d plan g n owner c m reason :
  sound L d -> _select_compact_source L plan (mkRun (Some g) n) d = ([], Ok (Some (owner, c, m), reason)) ->
  0 <= g -> g + n <= total_clusters (volume L) -> all_free (bitmap L) g (g + n) -> valid_move L d c m.
Proof.
  intros Hs H Hg Hn Hfree. pose proof (select_loads _ _ _ _ _ _ _ _ H) as Hload. destruct (load_facts L d Hs _ _ _ Hload) as (_ & before & after & Hl).
  pose proof (select_owner _ _ _ _ _ _ _ H) as (_ & _ & (g' & [= <-] & Hc & Hsrc & Hdst & Hnew & _) & _ & Hruns & _). cbn [length_of] in Hc.
  exists before, after, g, (s_clusters owner). split; [done|]. unfold s_clusters in *. rewrite <- Hruns in *. constructor; try done; try lia.
  - rewrite Hsrc. apply filter_all. eapply Forall_impl; [exact (ld_runs _ _ _ _ _ Hl)|]. intros r ([Hp _] & Hlen & _).
    rewrite Hp. by rewrite (proj2 (Z.ltb_lt _ _)).
  - by eapply loaded_clusters.
  - intros x Hx. apply Hfree. lia.
Qed.

(** The first cluster of every extent of a loaded stream is on the volume. *)
Lemma loaded_within L d c before after : sound L d -> loaded L d c before after ->
  Forall (fun r => first_lcn r < total_clusters (volume L)) (runs (attribute c)).
Proof.
  intros Hs Hl. pose proof (cs_pos L d Hs) as Hcs. apply Forall_forall. intros r Hr. pose proof (ld_runs _ _ _ _ _ Hl) as Hrs.
  rewrite Forall_forall in Hrs. destruct (Hrs r Hr) as ([Hp _] & Hlen & _). unfold first_lcn, is_physical in *. destruct (lcn r) as [l|] eqn:El; [|done].
  destruct (so_owned Hs _ (ld_user _ _ _ _ _ Hl)) as [_ H]. rewrite Forall_forall in H.
  destruct (H (l * cluster_size (volume L))) as (_ & [_ Hx] & _); [|cbn; nia].
  unfold owned. rewrite (ld_decoded _ _ _ _ _ Hl). unfold addrs_of. apply list_elem_of_In, in_concat. exists (stream_addrs (cluster_size (volume L)) (runs (attribute c))).
  split; [apply (in_map (fun a => stream_addrs (cluster_size (volume L)) (runs a))), in_elt|].
  apply list_elem_of_In, elem_of_stream_addrs; [done|]. rewrite Z.div_mul by lia. unfold in_runs. apply existsb_exists. exists r.
  split; [by apply list_elem_of_In|]. unfold in_run. rewrite El. apply between_spec. lia.
Qed.

Lemma whole_valid L d info c t g bound :
  sound L d -> _load_candidate L info d = (t, Ok c) -> bound = Z.max 1 (total_clusters (volume L) - 1) \/ bound = lowest_lcn_of (runs (attribute c)) ->
  _find_free_run (bitmap L) (Candidate_clusters c) bound = Ok (Some g) -> valid_move L d c (whole_move c g).
Proof.
  intros Hs Hload Hb Hfind. destruct (load_facts L d Hs _ _ _ Hload) as (_ & bef & aft & Hl).
  destruct (load_candidate_runs _ _ _ _ _ Hload) as [Hr Hne]. pose proof (candidate_clusters_pos c Hr Hne) as Hpos.
  destruct (bitmap_facts L d Hs) as (_ & Hw & _). destruct (find_free_run_facts (bitmap L) (Candidate_clusters c) bound Hw Hpos) as (r & Er & Hfr).
  assert (r = Some g) as -> by congruence. destruct Hfr as (Hg & Hend & Hfree & _).
  exists bef, aft, g, (Candidate_clusters c). split; [done|]. constructor; try done; [by eapply loaded_clusters|]. split; [done|].
  assert (exists r, r ∈ runs (attribute c)) as [r Hrin] by (destruct (runs (attribute c)) as [|r ?]; [done|exists r; set_solver]).
  pose proof (loaded_within _ _ _ _ _ Hs Hl) as Hin. pose proof (ld_runs _ _ _ _ _ Hl) as Hrs. rewrite Forall_forall in Hin, Hr, Hrs. specialize (Hin r Hrin).
  destruct (Hr r Hrin) as [Hph _]. destruct (Hrs r Hrin) as (_ & Hlen & Hok).
  assert (0 <= first_lcn r) by (unfold first_lcn, lcn_ok, is_physical in *; by destruct (lcn r)).
  pose proof (lowest_spec (runs (attribute c))) as Hlow. rewrite Forall_forall in Hlow. specialize (Hlow r Hrin Hph). unfold scan_limit in Hend. lia.
Qed.

(** ** Compaction *)

Lemma compact_step_performs live total plan high s d lb :
  compact_inv total plan high s -> packed_to s lb -> sound (c_layout s) d -> total = total_clusters (volume (c_layout s)) ->
  performs (c_layout s) d (compact_step live s d) (fun r => c_layout (match r with inl s' | inr s' => s' end)).
Proof.
  intros (Hw & Htot & Hhigh & _) _ Hs ->. unfold compact_step. apply performs_step; [done|]. intros hole Rh. apply lift_inv in Rh as [_ Rh].
  destruct (next_free_run_spec (bitmap (c_layout s)) (Z.max packing_start (c_packed_cursor s)) (c_current_high s) Hw) as (hole' & R' & Hhole).
  assert (hole' = hole) as -> by congruence. destruct hole as [hole|]; [|apply performs_nothing; by intros a [= <-]].
  destruct Hhole as (g & n & -> & Hn & Hg & Hgn & _ & Hgap & _). cbn [lcn default from_option id length_of].
  apply performs_step; [auto with silent|]. intros [chosen reason] Rs. destruct chosen as [[[owner c] m]|]; [|apply performs_nothing; by intros a [= <-]].
  unfold packing_start, scan_limit in *. assert (valid_move (c_layout s) d c m) as Hv by (eapply compact_valid; [done|exact Rs|lia..|done]).
  apply performs_move; [done|done|intros b; reads|]. intros b d' a H.
  do 2 (apply silent_step in H as [[_ [e He]]|(? & _ & H)]; [done| |done]). destruct x0 as [plan' upd].
  do 2 (apply silent_step in H as [[_ [e He]]|(? & _ & H)]; [done| |done]). by injection H as <-.
Qed.

Lemma compact_loop_performs live total plan high stop : forall fuel i s d lb,
  compact_inv total plan high s -> packed_to s lb -> sound (c_layout s) d -> total = total_clusters (volume (c_layout s)) ->
  performs (c_layout s) d (compact_loop live fuel stop i s d) c_layout.
Proof.
  induction fuel as [|fuel IH]; intros i s d lb Hinv Hp Hs Ht; cbn [compact_loop]; [by apply performs_nothing|].
  destruct (stop i); [apply performs_nothing; by intros a [= <-]|].
  pose proof (compact_step_performs live total plan high s d lb Hinv Hp Hs Ht) as Hstep. eapply performs_bind; [exact Hstep|]. intros t r R. cbn beta.
  pose proof (compact_step_inv live total plan high s d t r lb Hinv Hp R) as Hr. destruct Hstep as (L' & Hm & Hout). rewrite R in Hm, Hout. cbn [fst snd] in Hm, Hout.
  specialize (Hout r eq_refl). destruct (moves_sound _ _ _ _ Hs Hm) as (Hs' & _ & _ & Hv).
  destruct r as [s'|s']; [apply performs_nothing; by intros a [= <-]|]. destruct Hr as (Hinv' & lb' & _ & Hp'). subst L'.
  eapply IH; [exact Hinv'|exact Hp'|exact Hs'|by rewrite Hv].
Qed.

Lemma compact_performs live mounted journal_exists stop L d : sound L d ->
  performs L d (compact live mounted journal_exists stop (volume L) d) c_layout.
Proof.
  intros Hs. unfold compact. destruct mounted; [by apply performs_nothing|]. destruct journal_exists; [by apply performs_nothing|].
  apply performs_step; [auto with silent|]. intros layout Rl. rewrite (so_layout Hs) in Rl. injection Rl as <-.
  apply performs_step; [auto with silent|]. intros plan Rp. destruct (hibernation_active plan); [by apply performs_nothing|].
  destruct (scan_plan_ok L d (so_bytes Hs) _ _ Rp) as [_ Hplan]. apply performs_step; [done|]. intros high Rh. apply lift_inv in Rh as [_ Rh].
  destruct (bitmap_facts L d Hs) as (_ & Hwb & Htot).
  destruct (highest_used_before_facts (bitmap L) (total_clusters (volume L)) Hwb) as (h & Eh & Hh & _ & Hfree).
  unfold _highest_used in Rh. assert (h = high) as -> by congruence.
  do 2 (apply performs_step; [done|]; intros ? _). apply performs_step; [done|]. intros [[gc gcl] fg] _. cbv zeta.
  set (s := mkCompact _ _ _ _ _ _ _ _). assert (compact_inv (total_clusters (volume L)) plan high s) as Hinv.
  { unfold compact_inv. cbn. split; [done|]. split; [done|]. unfold scan_limit in *. split; [lia|]. split; [lia|].
    split; [intros x Hx; apply Hfree; lia|]. split; [done|]. split; [apply same_streams_refl|constructor]. }
  apply (performs_bind L d _ _ c_layout).
  - by apply (compact_loop_performs live (total_clusters (volume L)) plan high _ _ _ s d _ Hinv (packed_start s)).
  - intros t s' _. apply performs_silent; [reads|]. intros x H. apply silent_step in H as [[_ [e He]]|(? & _ & H)]; [done| |done]. by injection H as <-.
Qed.

(** ** Defragmentation *)

Definition body_performs (body : defrag_state -> StreamInfo -> nprog defrag_state) : Prop :=
  forall s info d, sound (d_layout s) d -> performs (d_layout s) d (body s info d) d_layout.

Lemma bookkeeping_layout {A B C} (r1 : result A) (r2 : result (B * C)) (f : A -> B -> defrag_state) L :
  (forall x y, d_layout (f x y) = L) -> forall d a,
  (let* x := lift r1 in let* (y, _) := lift r2 in pret (f x y)) d = (([] : trace), Ok a) -> d_layout a = L.
Proof.
  intros Hf d a H. apply silent_step in H as [[_ [e He]]|(x & _ & H)]; [done| |done].
  apply silent_step in H as [[_ [e He]]|([y z] & _ & H)]; [done| |done]. injection H as <-. apply Hf.
Qed.

Lemma place_stream_performs live pass : body_performs (place_stream live pass).
Proof.
  intros s info d Hs. unfold place_stream. apply performs_step; [auto with silent|]. intros c Rc.
  destruct (_ <=? 1); [apply performs_nothing; by intros a [= <-]|]. apply performs_step; [done|]. intros found Rf. apply lift_inv in Rf as [_ Rf].
  destruct found as [g|]; [|apply performs_nothing; by intros a [= <-]]. cbv zeta. apply performs_move; [done| |intros b; reads|].
  - eapply whole_valid; [done|exact Rc|by left|exact Rf].
  - intros b d' a H. eapply bookkeeping_layout; [|exact H]. done.
Qed.

Lemma settle_stream_performs live pass : body_performs (settle_stream live pass).
Proof.
  intros s info d Hs. unfold settle_stream. apply performs_step; [auto with silent|]. intros c Rc.
  destruct (negb _); [by apply performs_nothing|]. apply performs_step; [done|]. intros found Rf. apply lift_inv in Rf as [_ Rf].
  destruct found as [g|]; [|apply performs_nothing; by intros a [= <-]]. cbv zeta. apply performs_move; [done| |intros b; reads|].
  - eapply whole_valid; [done|exact Rc|by right|exact Rf].
  - intros b d' a H. eapply bookkeeping_layout; [|exact H]. done.
Qed.

Lemma run_streams_performs stop body infos : forall i s d, body_performs body -> sound (d_layout s) d ->
  performs (d_layout s) d (run_streams stop body i infos s d) (fun r => d_layout r.2).
Proof.
  induction infos as [|info infos IH]; intros i s d Hb Hs; cbn [run_streams]; [apply performs_nothing; by intros a [= <-]|].
  destruct (stop i); [apply performs_nothing; by intros a [= <-]|]. pose proof (Hb s info d Hs) as Hbody.
  eapply performs_bind; [exact Hbody|]. intros t s' R. destruct Hbody as (L' & Hm & Hout). rewrite R in Hm, Hout. specialize (Hout s' eq_refl). subst L'.
  destruct (moves_sound _ _ _ _ Hs Hm) as (Hs' & _). by apply IH.
Qed.

Lemma run_passes_performs stop order keys body passes : forall i s d, (forall pass, body_performs (body pass)) -> sound (d_layout s) d ->
  performs (d_layout s) d (run_passes stop order keys body passes i s d) (fun r => d_layout r.2).
Proof.
  induction passes as [|pass passes IH]; intros i s d Hb Hs; cbn [run_passes]; [apply performs_nothing; by intros a [= <-]|].
  destruct (_ || _); [apply performs_nothing; by intros a [= <-]|].
  pose proof (run_streams_performs stop (body pass) (pass_streams order (d_plan s) (keys s)) (S i) (reset_pass s) d (Hb pass) Hs) as Hrun.
  eapply performs_bind; [exact Hrun|]. intros t [i' s'] R. destruct Hrun as (L' & Hm & Hout). rewrite R in Hm, Hout. specialize (Hout _ eq_refl). cbn [snd] in Hout |- *. subst L'.
  destruct (moves_sound _ _ _ _ Hs Hm) as (Hs' & _). destruct (_ =? 0); [apply performs_nothing; by intros a [= <-]|]. by apply IH.
Qed.

Lemma defragment_performs live mounted journal_exists stop order L d : sound L d ->
  performs L d (defragment live mounted journal_exists stop order (volume L) d) d_layout.
Proof.
  intros Hs. unfold defragment. destruct mounted; [by apply performs_nothing|]. destruct journal_exists; [by apply performs_nothing|].
  apply performs_step; [auto with silent|]. intros layout Rl. rewrite (so_layout Hs) in Rl. injection Rl as <-.
  apply performs_step; [auto with silent|]. intros plan Rp. destruct (hibernation_active plan); [by apply performs_nothing|]. cbv zeta.
  apply performs_step; [done|]. intros pool _. set (s := mkDefrag _ _ _ _ _ _ _ _ _).
  pose proof (run_passes_performs stop order d_pending (place_stream live) (py_range 1 9) 0 s d (place_stream_performs live) Hs) as H1.
  eapply performs_bind; [exact H1|]. intros t [i s1] R1. destruct H1 as (L1 & Hm & Hout). rewrite R1 in Hm, Hout. specialize (Hout _ eq_refl). cbn [snd] in Hout |- *. subst L1.
  destruct (moves_sound _ _ _ _ Hs Hm) as (Hs1 & _).
  eapply performs_bind; [by apply run_passes_performs; [apply settle_stream_performs|]|]. intros t2 [i2 s2] _. apply performs_nothing. by intros a [= <-].
Qed.

(** ** The volume of [pack_device] is consistent *)

Lemma range_all (P : Z -> bool) a b : forallb P (py_range a b) = true -> forall n, a <= n < b -> P n = true.
Proof. intros Hall n Hn. rewrite forallb_forall in Hall. apply Hall. by apply list_elem_of_In, elem_of_py_range. Qed.

(** Ascending addresses are distinct. *)
Fixpoint ascending (low : Z) (l : list Z) : bool := match l with [] => true | x :: l' => (low <? x) && ascending x l' end.

Lemma ascending_nodup l : forall low, ascending low l = true -> Forall (fun x => low < x) l /\ NoDup l.
Proof.
  induction l as [|x l IH]; intros low H; [split; constructor|]. cbn in H. apply andb_true_iff in H as [Hx H]. apply Z.ltb_lt in Hx.
  destruct (IH x H) as [Hf Hn]. split; [constructor; [done|]; eapply Forall_impl; [exact Hf|]; cbn; lia|]. constructor; [|done].
  intros Hin. rewrite Forall_forall in Hf. specialize (Hf x Hin). lia.
Qed.

(** The layout and the two user records, evaluated. *)
Definition packed : NtfsLayout := Eval vm_compute in pack_layout.
Definition packed_record (n : Z) : option (bytes * list Attribute) := decoded packed pack_device n.
Definition packed_24 : bytes * list Attribute := Eval vm_compute in default ([], []) (packed_record 24).
Definition packed_25 : bytes * list Attribute := Eval vm_compute in default ([], []) (packed_record 25).

Lemma packed_stored n : stored packed n -> 0 <= n < 26.
Proof.
  intros [H0 H]. assert (py_len (MFT packed) = 3328) as E by (vm_compute; reflexivity). rewrite E in H. cbn in H. lia.
Qed.

Lemma packed_user n : user packed n -> 24 <= n < 26.
Proof. intros [H Hs]. apply packed_stored in Hs. unfold FIRST_USER_RECORD in H. lia. Qed.

Lemma packed_shape : shaped 64 packed_24.1 packed_24.2 /\ shaped 64 packed_25.1 packed_25.2.
Proof.
  assert (forall r : bytes * list Attribute, bool_decide (Forall (fun a => name a = []) r.2) = true ->
          (u16le r.1 4 = Ok 42 /\ u16le r.1 6 = Ok 3 /\ 3 = py_len r.1 / 64 + 1 /\ 8 <= 42 /\ 0 < 64 <= py_len r.1 /\ 42 + 2 * 3 <= 64 - 2) ->
          u16le r.1 20 = Ok 48 -> shaped 64 r.1 r.2) as H.
  { intros r Hn Hu Hf. exists 42, 3, 48. split; [exact Hu|]. split; [done|]. split; [lia|]. split; [lia|].
    apply bool_decide_eq_true in Hn. eapply Forall_impl; [exact Hn|]. intros a Ha _. by left. }
  split; apply H; vm_compute; (reflexivity || (repeat split; done)).
Qed.

Lemma packed_streams :
  (0 < 128 /\ 8 <= 64 /\ 48 * 128 <= py_len pack_device) /\ (stream_ok pack_vol (mft_runs packed) /\ 7 * 128 <= py_len (MFT packed)) /\
  (stream_ok pack_vol (bitmap_runs packed) /\ 0 <= 6 <= py_len (stream_addrs 128 (bitmap_runs packed))).
Proof.
  split; [vm_compute; repeat split; discriminate|]. split; (split; [split; [reflexivity|]|vm_compute; repeat split; discriminate]);
    apply Forall_singleton; vm_compute; repeat split; discriminate.
Qed.

(** The addresses a user record maps lie above the metadata, those of the
    others elsewhere, and all are in use. *)
Definition packed_apart (mine theirs : list Z) : bool := forallb (fun x => negb (existsb (Z.eqb x) theirs)) mine.
Definition packed_used (x : Z) : bool := (0 <=? x) && bit_at (bitmap packed) (x / 128).

Lemma forallb_ext {A} (f g : A -> bool) l : (forall x, f x = g x) -> forallb f l = forallb g l.
Proof. intros H. induction l as [|x l IH]; [done|]. cbn. by rewrite H, IH. Qed.

(** The addresses of the MFT, evaluated once. *)
Definition packed_mft : list Z := Eval vm_compute in MFT packed.

Definition owned_from (mft : list Z) (n : Z) : list Z :=
  match decode_record packed (gather pack_device (py_slice mft (n * 128) (n * 128 + 128))) with Some (_, attrs) => addrs_of 128 attrs | None => [] end.

Lemma packed_owned_from n : owned packed pack_device n = owned_from packed_mft n.
Proof. assert (MFT packed = packed_mft) as <- by (vm_compute; reflexivity). reflexivity. Qed.

Lemma packed_owned n : 24 <= n < 26 ->
  bool_decide (NoDup (owned packed pack_device n)) && forallb (fun x => packed_used x && (x <? 6144) && (4096 <=? x)) (owned packed pack_device n) &&
  forallb (fun k => (n =? k) || packed_apart (owned packed pack_device n) (owned packed pack_device k)) (py_range 0 26) = true.
Proof.
  intros Hn. rewrite packed_owned_from.
  rewrite (forallb_ext (fun k => (n =? k) || packed_apart (owned_from packed_mft n) (owned packed pack_device k))
             (fun k => (n =? k) || packed_apart (owned_from packed_mft n) (owned_from packed_mft k))) by (intros k; by rewrite packed_owned_from).
  assert (n = 24 \/ n = 25) as [-> | ->] by lia; vm_compute; reflexivity.
Qed.

Lemma packed_system : forallb (fun n => forallb packed_used (owned packed pack_device n)) (py_range 0 24) = true.
Proof.
  rewrite (forallb_ext _ (fun n => forallb packed_used (owned_from packed_mft n))) by (intros n; by rewrite packed_owned_from). vm_compute. reflexivity.
Qed.

Lemma packed_meta : ascending (-1) (META packed) = true /\ forallb (fun x => packed_used x && (x <? 4096)) (META packed) = true.
Proof. split; vm_compute; reflexivity. Qed.

Lemma packed_meta_facts x : x ∈ META packed -> used packed x /\ 0 <= x < 4096.
Proof.
  intros Hx%list_elem_of_In. destruct packed_meta as [_ H]. rewrite forallb_forall in H. specialize (H x Hx). unfold packed_used in H.
  apply andb_true_iff in H as [H H3%Z.ltb_lt]. apply andb_true_iff in H as [H1%Z.leb_le H2]. split; [exact H2|]. lia.
Qed.

Lemma packed_owned_facts n : user packed n ->
  NoDup (owned packed pack_device n) /\ Forall (fun x => used packed x /\ 0 <= x < 48 * 128 /\ x ∉ META packed) (owned packed pack_device n).
Proof.
  intros Hn%packed_user. pose proof (packed_owned n Hn) as H. apply andb_true_iff in H as [H _]. apply andb_true_iff in H as [H1%bool_decide_eq_true H2].
  split; [exact H1|]. rewrite forallb_forall in H2. apply Forall_forall. intros x Hx%list_elem_of_In. specialize (H2 x Hx). unfold packed_used in H2.
  apply andb_true_iff in H2 as [H2 H5%Z.leb_le]. apply andb_true_iff in H2 as [H2 H4%Z.ltb_lt]. apply andb_true_iff in H2 as [H2%Z.leb_le H3].
  split; [exact H3|]. split; [lia|]. intros Hm. destruct (packed_meta_facts x Hm). lia.
Qed.

Lemma packed_apart_facts n k x : user packed n -> stored packed k -> n <> k -> x ∈ owned packed pack_device n -> x ∉ owned packed pack_device k.
Proof.
  intros Hn%packed_user Hk%packed_stored Hne Hx%list_elem_of_In Hy%list_elem_of_In. pose proof (packed_owned n Hn) as H. apply andb_true_iff in H as [_ H].
  pose proof (range_all _ _ _ H k Hk) as Hd. cbv beta in Hd. apply orb_true_iff in Hd as [Hd%Z.eqb_eq|Hd]; [lia|].
  unfold packed_apart in Hd. rewrite forallb_forall in Hd. specialize (Hd x Hx). apply negb_true_iff in Hd.
  rewrite (proj2 (existsb_exists (Z.eqb x) (owned packed pack_device k))) in Hd; [discriminate|]. exists x. split; [exact Hy|apply Z.eqb_refl].
Qed.

Lemma packed_shaped n : user packed n -> shaped_record packed pack_device n.
Proof.
  intros Hn%packed_user. destruct packed_shape as [S24 S25]. unfold shaped_record. assert (n = 24 \/ n = 25) as [-> | ->] by lia.
  - assert (decoded packed pack_device 24 = Some packed_24) as -> by (vm_compute; reflexivity). exact S24.
  - assert (decoded packed pack_device 25 = Some packed_25) as -> by (vm_compute; reflexivity). exact S25.
Qed.

Lemma pack_sound : sound packed pack_device.
Proof.
  destruct packed_streams as (H1 & H2 & H3). constructor; [exact pack_device_wf|vm_compute; reflexivity|exact H1|exact H2|exact H3|..].
  - vm_compute. reflexivity.
  - destruct packed_meta as [Ha _]. split; [exact (proj2 (ascending_nodup _ _ Ha))|].
    split; apply Forall_forall; intros x Hx; destruct (packed_meta_facts x Hx); [cbn in H1; lia|assumption].
  - exact packed_shaped.
  - exact packed_owned_facts.
  - exact packed_apart_facts.
  - intros n Hn _. unfold FIRST_USER_RECORD in Hn. pose proof (range_all _ _ _ packed_system n Hn) as H. cbv beta in H. rewrite forallb_forall in H.
    apply Forall_forall. intros x Hx%list_elem_of_In. specialize (H x Hx). apply andb_true_iff in H as [Hp%Z.leb_le Hu]. split; [exact Hp|exact Hu].
Qed.

(** ** Theorems *)

(** The abstract specification of both operations: the volume is consistent
    for the layout [L'], no journal is left, and the files are unchanged. *)
Definition keeps (L : NtfsLayout) (d : bytes) (t : trace) (L' : NtfsLayout) : Prop :=
  sound L' (replay d t) /\ same_files L d (replay d t) /\ journal_after None t = None /\ volume L' = volume L.

Lemma performs_keeps {A} L d (r : trace * result A) out : sound L d -> performs L d r out -> exists L', keeps L d r.1 L' /\ forall a, r.2 = Ok a -> out a = L'.
Proof. intros Hs (L' & Hm & Ho). exists L'. split; [by apply moves_sound|done]. Qed.

(** C2. Compaction refines "the files do not change": from a consistent volume,
    whether [compact] returns, is refused or raises in the middle, and whenever
    a stop is requested, the device it leaves is consistent again, every user
    file has the same attributes with the same data, the system files keep
    their records and bytes, no journal is left, and on return the layout in
    memory is the one of the device. *)
Theorem compact_keeps_files (live_cells : Z) (mounted journal_exists : bool) (stop : nat -> bool) (L : NtfsLayout) (d : bytes)
    (t : trace) (r : result compact_state)
    (Hs : sound L d) (Hrun : compact live_cells mounted journal_exists stop (volume L) d = (t, r)) :
  exists L', keeps L d t L' /\ forall s, r = Ok s -> c_layout s = L'.
Proof. pose proof (compact_performs live_cells mounted journal_exists stop L d Hs) as H. rewrite Hrun in H. exact (performs_keeps L d _ _ Hs H). Qed.

Lemma compact_keeps_files_witness :
  exists L', keeps packed pack_device (compact 0 false false never (volume packed) pack_device).1 L' /\
    forall s, (compact 0 false false never (volume packed) pack_device).2 = Ok s -> c_layout s = L'.
Proof.
  apply (compact_keeps_files 0 false false never packed pack_device _ _ pack_sound).
  by destruct (compact _ _ _ _ _ _).
Defined.



(** C1. Crash safety of whole runs: if power fails at any instant of a
    compaction of a consistent volume, with any subset of the unsynchronised
    bytes on the device, and fails again at any instants of later recoveries,
    then either no journal is left and every file is as it was, or [recover]
    accepts the journal that is left, succeeds, removes it, and every file is
    as it was before the compaction started. *)
Theorem compact_crash_safe (realpath : string -> string) (live_cells : Z) (mounted journal_exists : bool) (stop : nat -> bool)
    (L : NtfsLayout) (d d' : bytes) (j : option journal_state)
    (Hs : sound L d) (Hreal : realpath (path (volume L)) = path (volume L))
    (Hcut : interrupted realpath (volume L) d (compact live_cells mounted journal_exists stop (volume L) d).1 d' j) :
  settled L d realpath d' j.
Proof. destruct (compact_performs live_cells mounted journal_exists stop L d Hs) as (L' & Hm & _). exact (interrupted_settled realpath L d _ L' d' j Hs Hm Hreal Hcut). Qed.


(** Everything up to an [fsync] can be what a power failure leaves. *)
Lemma cut_at_fsync realpath vol (d : bytes) (t : trace) (n : nat) :
  take (S n) t = take n t ++ [EFsync] -> py_len (replay d (take (S n) t)) = py_len d ->
  interrupted realpath vol d t (replay d (take (S n) t)) (journal_after None (take (S n) t)).
Proof.
  intros Ht Hl. apply (cut_run realpath vol d t (take (S n) t) (drop (S n) t)); [symmetry; apply take_drop|]. split; [done|].
  exists (take (S n) t), []. split; [by rewrite app_nil_r|]. split; [right; by exists (take n t)|]. split; [constructor|]. by left.
Qed.

(** The first effects of the two runs on [pack_device], up to an [fsync] in the
    middle of the second move of the compaction and of the first of the other. *)
Definition pack_cut : trace := take 34 (compact 0 false false never (volume packed) pack_device).1.
Definition defrag_cut : trace := take 13 (defragment 0 false false never in_order (volume packed) pack_device).1.

Example cuts_leave_a_journal : match journal_after None pack_cut, journal_after None defrag_cut with Some _, Some _ => True | _, _ => False end.
Proof. vm_compute. exact I. Qed.

Lemma compact_crash_safe_witness : settled packed pack_device id (replay pack_device pack_cut) (journal_after None pack_cut).
Proof.
  apply (compact_crash_safe id 0 false false never packed pack_device (replay pack_device pack_cut) (journal_after None pack_cut) pack_sound eq_refl).
  apply (cut_at_fsync id (volume packed) pack_device (compact 0 false false never (volume packed) pack_device).1 33); vm_compute; reflexivity.
Defined.

