(* ===== verification/ReaderFacts.v ===== *)
(** * Exceptions of the reading code

    Which exceptions a computation over a [Reader] can raise: a small logic
    ([backend_only], the tactic [raises]) shared by the map backends, whose
    callers handle [BackendError] only. *)

From S2P Require Import Prelude Bytes.

Local Open Scope Z_scope.

(** ** Exceptions *)

(** A computation that returns or raises [BackendError]. *)
Definition backend_only {A} (x : result A) : Prop := forall e, x = Raise e -> exn_kind e = BackendError.

Create HintDb raises.

Lemma bo_ok {A} (a : A) : backend_only (Ok a).
Proof. by intros e H. Qed.

Lemma bo_raise {A} msg : backend_only (A:=A) (raise BackendError msg).
Proof. by intros e [= <-]. Qed.

Lemma bo_bind {A B} (m : result A) (k : A -> result B) :
  backend_only m -> (forall a, m = Ok a -> backend_only (k a)) -> backend_only (m ≫= k).
Proof. intros Hm Hk e He. destruct m as [a|e']; [by apply (Hk a eq_refl)|]. cbn in He. injection He as <-. by apply Hm. Qed.

Lemma bo_if {A} (b : bool) (x y : result A) : (b = true -> backend_only x) -> (b = false -> backend_only y) -> backend_only (if b then x else y).
Proof. destruct b; auto. Qed.

Lemma bo_mapM {A B} (f : A -> result B) l : (forall x, x ∈ l -> backend_only (f x)) -> backend_only (mapM_result f l).
Proof.
  induction l as [|x l IH]; intros H; [apply bo_ok|]. cbn [mapM_result]. apply bo_bind; [apply H; set_solver|]. intros y _.
  apply bo_bind; [apply IH; intros; apply H; set_solver|]. intros ys _. apply bo_ok.
Qed.

Lemma bo_foldM {A B} (f : B -> A -> result B) l : (forall acc x, x ∈ l -> backend_only (f acc x)) -> forall acc, backend_only (foldM f acc l).
Proof.
  induction l as [|x l IH]; intros H acc; [apply bo_ok|]. cbn [foldM]. apply bo_bind; [apply H; set_solver|]. intros acc' _.
  apply IH. intros; apply H; set_solver.
Qed.

Lemma bo_unpack decode n data off : 0 <= off -> 0 <= n -> off + n <= py_len data -> backend_only (unpack_from decode n data off).
Proof. intros Ho Hn Hl. rewrite unpack_from_ok by lia. apply bo_ok. Qed.

Lemma bo_get data i : 0 <= i < py_len data -> backend_only (py_get (A:=Z) data i).
Proof.
  intros Hi. unfold py_get. rewrite (proj2 (Z.ltb_ge i 0)) by lia. rewrite (proj2 (Z.ltb_ge i 0)) by lia.
  destruct (data !! Z.to_nat i) eqn:E; [apply bo_ok|]. apply lookup_ge_None in E. unfold py_len in Hi. lia.
Qed.

Lemma bo_read r off len : backend_only (reader_read r off len).
Proof. unfold reader_read, dev_read. repeat (apply bo_if; intros _; [first [apply bo_ok|apply bo_raise]|]). apply bo_raise. Qed.

#[export] Hint Resolve bo_ok bo_raise bo_read : raises.

Lemma read_len r off len data : 0 <= len -> reader_read r off len = Ok data -> py_len data = len.
Proof.
  intros Hl H. unfold reader_read, dev_read in H. destruct (_ || _) eqn:E1 in H; [done|]. bool_to_prop.
  destruct (Z.eqb_spec len 0) as [->|]; [by injection H as <-|]. destruct (Z.leb_spec (off + len) (py_len (reader_dev r))); [|done].
  injection H as <-. rewrite py_len_slice by lia. lia.
Qed.

Ltac raises :=
  repeat match goal with
  | |- backend_only (_ ≫= _) => apply bo_bind; [|intros ? ?]
  | |- backend_only (if _ then _ else _) => apply bo_if; intros ?
  | |- backend_only (let '(_, _) := ?x in _) => destruct x
  | |- backend_only _ => solve [auto with raises]
  end.


(** ** Ranges of the fields read *)

Lemma be_int_bounds data : wf_bytes data -> 0 <= be_int data < 256 ^ py_len data.
Proof.
  intros H. unfold be_int. assert (py_len data = py_len (rev data)) as -> by (unfold py_len; by rewrite length_rev).
  apply le_int_bounds. unfold wf_bytes. by rewrite <- Permutation_rev.
Qed.

Lemma unpack_be_bounds n data off v : wf_bytes data -> 0 <= off -> 0 <= n -> unpack_from be_int n data off = Ok v -> 0 <= v < 256 ^ n.
Proof.
  intros Hw Ho Hn H. apply unpack_from_inv in H as [Hl ->]; [|done].
  pose proof (be_int_bounds (py_slice data off (off + n)) (wf_bytes_slice _ _ _ Hw)) as Hb. rewrite py_len_slice in Hb by lia.
  by replace (off + n - off) with n in Hb by lia.
Qed.

Lemma unpack_le_bounds n data off v : wf_bytes data -> 0 <= off -> 0 <= n -> unpack_from le_int n data off = Ok v -> 0 <= v < 256 ^ n.
Proof.
  intros Hw Ho Hn H. apply unpack_from_inv in H as [Hl ->]; [|done].
  pose proof (le_int_bounds (py_slice data off (off + n)) (wf_bytes_slice _ _ _ Hw)) as Hb. rewrite py_len_slice in Hb by lia.
  by replace (off + n - off) with n in Hb by lia.
Qed.

Lemma get_bounds data i v : wf_bytes data -> py_get data i = Ok v -> 0 <= v < 256.
Proof.
  intros Hw H. unfold py_get in H. destruct (_ <? 0) in H; [done|]. destruct (data !! _) as [x|] eqn:E in H; [|done]. injection H as ->.
  unfold wf_bytes in Hw. rewrite Forall_forall in Hw. apply Hw. by eapply list_elem_of_lookup_2.
Qed.

Lemma read_wf r off len data : wf_bytes (reader_dev r) -> reader_read r off len = Ok data -> wf_bytes data.
Proof.
  intros Hw H. unfold reader_read, dev_read in H. destruct (_ || _) in H; [done|]. destruct (len =? 0); [injection H as <-; constructor|].
  destruct (_ <=? _); [|done]. injection H as <-. by apply wf_bytes_slice.
Qed.
