(* ===== verification/NtfsMap.v ===== *)
(** * The NTFS map backend

    Models [src/gui/backends/ntfs.py], which has readers of its own for run
    lists, fix-ups and attributes, independent of the engine's: the bitmap of
    the volume, the scan of the MFT for fragmented streams, and the map. *)

From S2P Require Import Prelude Text Bytes Ranges NtfsRuns NtfsRecord.

Local Open Scope string_scope.
Local Open Scope list_scope.
Local Open Scope Z_scope.

Definition _ATTR_DATA : Z := 128.
Definition _ATTR_INDEX_ALLOCATION : Z := 160.
Definition _RECORD_IN_USE : Z := 1.
Definition _RECORD_DIRECTORY : Z := 2.
Definition _FILE_REFERENCE_MASK : Z := Z.shiftl 1 48 - 1.
Definition _MFT_READ_CHUNK : Z := 16 * 1024 * 1024.
Definition _FIRST_USER_RECORD : Z := 24.

(** A run is a first cluster, [None] for a hole, and a length. *)
Abbreviation run := (option Z * Z)%type.

(** The runs of a stream from a first virtual cluster on. *)
Abbreviation segment := (Z * list run)%type.

Definition _signed_le (data : bytes) : Z := if bool_decide (data = []) then 0 else le_sint data.

(** The generator is only consumed whole; every round advances [pos]. *)
Fixpoint runlist_loop (fuel : nat) (data : bytes) (pos lcn : Z) (acc : list run) : result (list run) :=
  if pos <? py_len data then
    match fuel with
    | O => raise OutOfFuel "_runlist"
    | S fuel' =>
        header ← py_get data pos;
        let pos := pos + 1 in
        if header =? 0 then Ok acc else
        let lsz := Z.land header 15 in
        let osz := Z.shiftr header 4 in
        check (lsz =? 0) || (py_len data <? pos + lsz + osz) # BackendError "invalid NTFS runlist";
        let length := le_int (py_slice data pos (pos + lsz)) in
        let pos := pos + lsz in
        check length <=? 0 # BackendError "invalid zero-length NTFS run";
        if osz =? 0 then runlist_loop fuel' data pos lcn (acc ++ [(None, length)])
        else
          let lcn := lcn + _signed_le (py_slice data pos (pos + osz)) in
          let pos := pos + osz in
          check lcn <? 0 # BackendError "invalid negative NTFS logical cluster number";
          runlist_loop fuel' data pos lcn (acc ++ [(Some lcn, length)])
    end
  else Ok acc.

Definition _runlist (data : bytes) : result (list run) := runlist_loop (length data) data 0 0 [].

Definition fixup_one (usa_off sector_size : Z) (usn : bytes) (record : bytes) (i : Z) : result bytes :=
  let end_ := i * sector_size in
  check (py_len record <? end_) || negb (bool_decide (py_slice record (end_ - 2) end_ = usn)) # BackendError "NTFS MFT fixup mismatch";
  Ok (py_set_slice record (end_ - 2) end_ (py_slice record (usa_off + i * 2) (usa_off + i * 2 + 2))).

Definition _fixup (record : bytes) (sector_size : Z) : result bytes :=
  usa_off ← u16le record 4;
  usa_count ← u16le record 6;
  check (usa_count <? 1) || (py_len record <? usa_off + usa_count * 2) # BackendError "invalid NTFS update sequence array";
  let usn := py_slice record usa_off (usa_off + 2) in
  foldM (fixup_one usa_off sector_size usn) record (py_range 1 usa_count).

(** ** Attributes *)

Record attribute := mkAttr { a_length : Z; a_type : Z; a_name : bytes; a_nonresident : option (segment * Z) }.

Definition a_lowest_vcn (a : attribute) : Z := match a_nonresident a with Some (s, _) => s.1 | None => 0 end.
Definition a_runs (a : attribute) : list run := match a_nonresident a with Some (s, _) => s.2 | None => [] end.

(** One round of [_attributes]; [None] is the end marker.  The runs, the first
    cluster and the data size are there when the attribute is not resident. *)
Definition next_attribute (record : bytes) (bytes_in_use pos : Z) : result (option attribute) :=
  atype ← u32le record pos;
  if atype =? 4294967295 then Ok None else
  alen ← u32le record (pos + 4);
  check (alen <? 24) || (bytes_in_use <? pos + alen) # BackendError "invalid NTFS attribute";
  nonresident ← py_get record (pos + 8);
  name_len ← py_get record (pos + 9);
  name_off ← u16le record (pos + 10);
  name ← (if negb (name_len =? 0) then
            let name_end := name_off + name_len * 2 in
            check (name_off <? 16) || (alen <? name_end) # BackendError "invalid NTFS attribute name";
            Ok (py_slice record (pos + name_off) (pos + name_end))
          else Ok []);
  if negb (nonresident =? 0) then
    check alen <? 64 # BackendError "truncated NTFS non-resident attribute";
    lowest_vcn ← u64le record (pos + 16);
    highest_vcn ← u64le record (pos + 24);
    run_off ← u16le record (pos + 32);
    check (run_off <? 64) || (alen <=? run_off) # BackendError "invalid NTFS runlist offset";
    runs ← _runlist (py_slice record (pos + run_off) (pos + alen));
    let expected := highest_vcn - lowest_vcn + 1 in
    check negb (zsum (map snd runs) =? expected) # BackendError "NTFS runlist length does not match its VCN range";
    data_size ← u64le record (pos + 48);
    Ok (Some (mkAttr alen atype name (Some ((lowest_vcn, runs), data_size))))
  else Ok (Some (mkAttr alen atype name None)).

(** An attribute occupies at least 24 bytes. *)
Fixpoint attribute_loop (fuel : nat) (record : bytes) (bytes_in_use pos : Z) : generated attribute :=
  if pos + 16 <=? bytes_in_use then
    match fuel with
    | O => Generated [] (Some (Exn OutOfFuel "_attributes"))
    | S fuel' =>
        match next_attribute record bytes_in_use pos with
        | Raise e => Generated [] (Some e)
        | Ok None => Generated [] None
        | Ok (Some attr) => gen_cons attr (attribute_loop fuel' record bytes_in_use (pos + a_length attr))
        end
    end
  else Generated [] None.

Definition _attributes (record : bytes) : generated attribute :=
  match u16le record 20, u32le record 24 with
  | Ok pos, Ok used => attribute_loop (length record) record (Z.min (py_len record) used) pos
  | Raise e, _ => Generated [] (Some e)
  | _, Raise e => Generated [] (Some e)
  end.

(** ** The MFT *)

Definition is_unnamed_data (attr : attribute) : bool := (a_type attr =? _ATTR_DATA) && bool_decide (a_name attr = []).

Definition by_vcn (a b : segment) : bool := a.1 <=? b.1.

Definition run_total (runs : list run) : Z := zsum (map snd runs).

Definition mft_attribute (acc : list segment * option Z) (attr : attribute) : list segment * option Z :=
  match a_nonresident attr with
  | Some (segment, data_size) =>
      if is_unnamed_data attr then (acc.1 ++ [segment], if segment.1 =? 0 then Some data_size else acc.2) else acc
  | None => acc
  end.

Definition follows (next_vcn : Z) (s : segment) : result Z :=
  check negb (s.1 =? next_vcn) # BackendError "NTFS $MFT runlist is split through an unsupported attribute-list extension";
  Ok (next_vcn + run_total s.2).

Definition _mft_stream (record : bytes) : result (list segment * Z) :=
  attrs ← list_of (_attributes record);
  let '(segments, data_size) := fold_left mft_attribute attrs ([], None) in
  match data_size with
  | None => raise BackendError "NTFS $MFT data attribute was not found"
  | Some data_size =>
      check bool_decide (segments = []) # BackendError "NTFS $MFT data attribute was not found";
      let segments := py_sorted by_vcn segments in
      _ ← foldM follows 0 segments;
      Ok (segments, data_size)
  end.

(** [while len(buffer) - offset >= record_size]: the records, what is left of
    the buffer and the next number. *)
Fixpoint cut_records (fuel : nat) (buffer : bytes) (record_size record_number : Z) : list (Z * bytes) * bytes * Z :=
  match fuel with
  | O => ([], buffer, record_number)
  | S fuel' =>
      if record_size <=? py_len buffer then
        let '(rs, rest, next) := cut_records fuel' (py_slice buffer record_size (py_len buffer)) record_size (record_number + 1) in
        ((record_number, py_slice buffer 0 record_size) :: rs, rest, next)
      else ([], buffer, record_number)
  end.

(** Where a generator that yields records stops for now: a buffer and the
    number of the next record, or the error it has raised. *)
Abbreviation producer := (list (Z * bytes) * result (bytes * Z))%type.

Definition then_produce (p : producer) (k : bytes -> Z -> producer) : producer :=
  match p.2 with
  | Ok (buffer, number) => let q := k buffer number in (p.1 ++ q.1, q.2)
  | Raise e => p
  end.

(** [while consumed < run_bytes]: a round reads at least one byte. *)
Fixpoint chunk_loop (fuel : nat) (r : reader) (physical consumed run_bytes record_size : Z) (buffer : bytes) (number : Z) : producer :=
  if consumed <? run_bytes then
    match fuel with
    | O => ([], raise OutOfFuel "_mft_records")
    | S fuel' =>
        let take := Z.min _MFT_READ_CHUNK (run_bytes - consumed) in
        match reader_read r (physical + consumed) take with
        | Raise e => ([], Raise e)
        | Ok data =>
            let '(records, buffer, number) := cut_records (length (buffer ++ data)) (buffer ++ data) record_size number in
            then_produce (records, Ok (buffer, number)) (chunk_loop fuel' r physical (consumed + take) run_bytes record_size)
        end
    end
  else ([], Ok (buffer, number)).

(** The runs of one segment; [None] for the bytes that remain when the whole
    stream has been read. *)
Fixpoint produce_runs (r : reader) (cluster_size record_size : Z) (runs : list run) (remaining : Z) (buffer : bytes) (number : Z)
    : list (Z * bytes) * result (option (Z * bytes * Z)) :=
  match runs with
  | [] => ([], Ok (Some (remaining, buffer, number)))
  | (lcn, length_) :: rest =>
      let run_bytes := Z.min remaining (length_ * cluster_size) in
      match lcn with
      | None => ([], raise BackendError "NTFS $MFT contains a sparse run")
      | Some lcn =>
          let p := chunk_loop (S (Z.to_nat (run_bytes / _MFT_READ_CHUNK))) r (lcn * cluster_size) 0 run_bytes record_size buffer number in
          match p.2 with
          | Raise e => (p.1, Raise e)
          | Ok (buffer, number) =>
              let remaining := remaining - run_bytes in
              if remaining <=? 0 then (p.1, Ok None) else
              let q := produce_runs r cluster_size record_size rest remaining buffer number in
              (p.1 ++ q.1, q.2)
          end
      end
  end.

Fixpoint produce_segments (r : reader) (cluster_size record_size : Z) (segments : list segment) (expected_vcn remaining : Z) (buffer : bytes) (number : Z)
    : generated (Z * bytes) :=
  match segments with
  | [] => Generated [] (if 0 <? remaining then Some (Exn BackendError "NTFS $MFT runlist is shorter than its data size") else None)
  | (lowest_vcn, runs) :: rest =>
      if negb (lowest_vcn =? expected_vcn) then Generated [] (Some (Exn BackendError "non-contiguous NTFS $MFT VCN coverage")) else
      let p := produce_runs r cluster_size record_size runs remaining buffer number in
      match p.2 with
      | Raise e => Generated p.1 (Some e)
      | Ok None => Generated p.1 None
      | Ok (Some (remaining, buffer, number)) =>
          let g := produce_segments r cluster_size record_size rest (expected_vcn + run_total runs) remaining buffer number in
          Generated (p.1 ++ yielded g) (raised g)
      end
  end.

Definition _mft_records (r : reader) (segments : list segment) (data_size cluster_size record_size : Z) : generated (Z * bytes) :=
  if data_size <? record_size then Generated [] (Some (Exn BackendError "NTFS $MFT data stream is shorter than one record"))
  else produce_segments r cluster_size record_size segments 0 data_size [] 0.

(** ** Streams *)

Record extent_walk := mkWalk { w_fragments : Z; w_previous_lcn_end : option Z; w_broken : bool }.

Definition walk_run (w : extent_walk) (r : run) : extent_walk :=
  match r.1 with
  | None => mkWalk (w_fragments w) None true
  | Some lcn =>
      mkWalk (if w_broken w || negb (bool_decide (w_previous_lcn_end w = Some lcn)) then w_fragments w + 1 else w_fragments w) (Some (lcn + r.2)) false
  end.

(** The second component is [previous_vcn_end]. *)
Definition walk_segment (acc : extent_walk * option Z) (s : segment) : extent_walk * option Z :=
  let '(w, previous_vcn_end) := acc in
  let w := if negb (bool_decide (previous_vcn_end = Some s.1)) then mkWalk (w_fragments w) (w_previous_lcn_end w) true else w in
  (fold_left walk_run s.2 w, Some (s.1 + run_total s.2)).

Definition _stream_fragments (segments : list segment) : Z :=
  w_fragments (fold_left walk_segment (py_sorted by_vcn segments) (mkWalk 0 None true, None)).1.

(** [(lcn, lcn + length)] of the runs that are not holes. *)
Definition physical_ranges (runs : list run) : list range :=
  omap (fun r : run => match r.1 with Some lcn => Some (lcn, lcn + r.2) | None => None end) runs.

Abbreviation streams := (list ((Z * bytes) * list segment)).

Definition _stream_ranges (s : streams) : list range :=
  concat (map (fun item => concat (map (fun seg : segment => physical_ranges seg.2) item.2)) s).

(** ** The scan *)

Record object_state := mkObject { o_base : bool; o_directory : bool; o_streams : streams }.

Record scan := mkScan { n_objects : list (Z * object_state); n_metadata : list range; n_scanned : Z; n_malformed : Z }.

Definition scan_attribute (record_number : Z) (acc : object_state * list range) (attr : attribute) : object_state * list range :=
  let '(state, metadata) := acc in
  match a_nonresident attr with
  | None => acc
  | Some (segment, _) =>
      let atype := a_type attr in
      let physical := physical_ranges segment.2 in
      let is_object_stream := (negb (o_directory state) && (atype =? _ATTR_DATA)) || (o_directory state && (atype =? _ATTR_INDEX_ALLOCATION)) in
      let metadata := if (record_number <? _FIRST_USER_RECORD) || negb is_object_stream then metadata ++ physical else metadata in
      if negb is_object_stream then (state, metadata) else
      let key := (atype, a_name attr) in
      (mkObject (o_base state) (o_directory state) (dict_set key (default [] (dict_get key (o_streams state)) ++ [segment]) (o_streams state)), metadata)
  end.

Definition is_backend_error (e : exn) : bool := bool_decide (exn_kind e = BackendError).

(** A record: what its attributes added stays when a later one is malformed. *)
Definition scan_record (sector_size : Z) (s : scan) (item : Z * bytes) : result scan :=
  let '(record_number, raw) := item in
  let s := mkScan (n_objects s) (n_metadata s) (n_scanned s + 1) (n_malformed s) in
  let malformed s := mkScan (n_objects s) (n_metadata s) (n_scanned s) (n_malformed s + 1) in
  if negb (bool_decide (py_slice raw 0 4 = of_string "FILE")) then Ok s else
  match _fixup raw sector_size with
  | Raise e => if is_backend_error e then Ok (malformed s) else Raise e
  | Ok record =>
      flags ← u16le record 22;
      if Z.land flags _RECORD_IN_USE =? 0 then Ok s else
      reference ← u64le record 32;
      let base_reference := Z.land reference _FILE_REFERENCE_MASK in
      let owner := if base_reference =? 0 then record_number else base_reference in
      let state := default (mkObject false false []) (dict_get owner (n_objects s)) in
      let state := if base_reference =? 0 then mkObject true (negb (Z.land flags _RECORD_DIRECTORY =? 0)) (o_streams state) else state in
      let g := _attributes record in
      let '(state, metadata) := fold_left (scan_attribute record_number) (yielded g) (state, n_metadata s) in
      let s := mkScan (dict_set owner state (n_objects s)) metadata (n_scanned s) (n_malformed s) in
      match raised g with
      | None => Ok s
      | Some e => if is_backend_error e then Ok (malformed s) else Raise e
      end
  end.

Record summary := mkSummary {
  sm_regular_files : Z; sm_directories : Z; sm_fragmented_files : Z; sm_fragmented_directories : Z;
  sm_records_scanned : Z; sm_malformed_records : Z;
  sm_fragmented_ranges : list range; sm_directory_ranges : list range; sm_metadata_ranges : list range
}.

Definition tally (acc : summary) (state : object_state) : summary :=
  if negb (o_base state) then acc else
  let fragmented := existsb (fun item => 1 <? _stream_fragments item.2) (o_streams state) in
  let physical := _stream_ranges (o_streams state) in
  let f := if fragmented then 1 else 0 in
  let moved := if fragmented then physical else [] in
  if o_directory state then
    mkSummary (sm_regular_files acc) (sm_directories acc + 1) (sm_fragmented_files acc) (sm_fragmented_directories acc + f)
      (sm_records_scanned acc) (sm_malformed_records acc) (sm_fragmented_ranges acc ++ moved) (sm_directory_ranges acc ++ physical) (sm_metadata_ranges acc)
  else
    mkSummary (sm_regular_files acc + 1) (sm_directories acc) (sm_fragmented_files acc + f) (sm_fragmented_directories acc)
      (sm_records_scanned acc) (sm_malformed_records acc) (sm_fragmented_ranges acc ++ moved) (sm_directory_ranges acc) (sm_metadata_ranges acc).

Definition _scan_fragmentation (r : reader) (mft_lcn cluster_size record_size sector_size : Z) : result summary :=
  record_zero ← reader_read r (mft_lcn * cluster_size) record_size;
  check negb (bool_decide (py_slice record_zero 0 4 = of_string "FILE")) # BackendError "NTFS $MFT record zero was not found";
  record_zero ← _fixup record_zero sector_size;
  '(segments, data_size) ← _mft_stream record_zero;
  let g := _mft_records r segments data_size cluster_size record_size in
  s ← foldM (scan_record sector_size) (mkScan [] [] 0 0) (yielded g);
  match raised g with
  | Some e => Raise e
  | None =>
      let t := fold_left tally (map snd (n_objects s)) (mkSummary 0 0 0 0 (n_scanned s) (n_malformed s) [] [] (n_metadata s)) in
      Ok (mkSummary (sm_regular_files t) (sm_directories t) (sm_fragmented_files t) (sm_fragmented_directories t) (sm_records_scanned t) (sm_malformed_records t)
            (merge_ranges (sm_fragmented_ranges t)) (merge_ranges (sm_directory_ranges t)) (merge_ranges (sm_metadata_ranges t)))
  end.

(** ** The map *)

Definition ntfs_probe (opened : result reader) : result bool :=
  r ← opened;
  magic ← reader_read r 3 8;
  Ok (bool_decide (magic = of_string "NTFS    ")).

Definition _add_fragmentation_summary (m : map_result) (scanned : result summary) : result files_map :=
  match scanned with
  | Raise e =>
      if is_backend_error e then
        Ok (FilesMap (with_cells m (mr_cells m) (mr_details m ++ [("fragmentation_available", JBool false); ("fragmentation_note", JStr (exn_msg e))])) None)
      else Raise e
  | Ok s =>
      let '(cells, fragmented_units) := overlay_ranges (mr_cells m) (sm_fragmented_ranges s) FFragmented in
      let '(cells, directory_units) := overlay_ranges cells (sm_directory_ranges s) FDirectory in
      let '(cells, metadata_units) := overlay_ranges cells (sm_metadata_ranges s) FBad in
      Ok (FilesMap
            (with_cells m cells (mr_details m ++
               [("fragmentation_available", JBool true); ("fragmentation_basis", JStr "NTFS MFT data and directory-index runlists");
                ("mft_records_scanned", JInt (sm_records_scanned s)); ("mft_malformed_records", JInt (sm_malformed_records s));
                ("fragmented_clusters_mapped", JInt fragmented_units); ("directory_clusters_mapped", JInt directory_units);
                ("metadata_clusters_mapped", JInt metadata_units); ("metadata_basis", JStr "NTFS system and non-file nonresident streams")]))
            (Some (FileCounts (sm_regular_files s) (sm_directories s) (sm_fragmented_files s) (sm_fragmented_directories s)
                     (100 * sm_fragmented_files s, Z.max 1 (sm_regular_files s)))))
  end.

(** The [$Bitmap] data: in the record itself, or its runs and its size. *)
Inductive bitmap_source := Resident (bitmap : bytes) | Nonresident (runs : list run) (data_size : Z).

Fixpoint find_bitmap (fuel : nat) (raw : bytes) (pos : Z) : result (option bitmap_source) :=
  if pos + 16 <=? py_len raw then
    match fuel with
    | O => raise OutOfFuel "map"
    | S fuel' =>
        atype ← u32le raw pos;
        if atype =? 4294967295 then Ok None else
        alen ← u32le raw (pos + 4);
        check (alen <? 24) || (py_len raw <? pos + alen) # BackendError "invalid NTFS attribute";
        nonresident ← py_get raw (pos + 8);
        name_len ← py_get raw (pos + 9);
        if (atype =? _ATTR_DATA) && (name_len =? 0) then
          if negb (nonresident =? 0) then
            run_off ← u16le raw (pos + 32);
            data_size ← u64le raw (pos + 48);
            runs ← _runlist (py_slice raw (pos + run_off) (pos + alen));
            Ok (Some (Nonresident runs data_size))
          else
            value_len ← u32le raw (pos + 16);
            value_off ← u16le raw (pos + 20);
            Ok (Some (Resident (py_slice raw (pos + value_off) (pos + value_off + value_len))))
        else find_bitmap fuel' raw (pos + alen)
    end
  else Ok None.

Fixpoint read_bitmap (r : reader) (cluster_size data_size : Z) (runs : list run) (bitmap : bytes) : result bytes :=
  match runs with
  | [] => Ok bitmap
  | (lcn, length_) :: rest =>
      let byte_len := length_ * cluster_size in
      data ← match lcn with None => Ok (py_zeros byte_len) | Some lcn => reader_read r (lcn * cluster_size) byte_len end;
      let bitmap := bitmap ++ data in
      if data_size <=? py_len bitmap then Ok bitmap else read_bitmap r cluster_size data_size rest bitmap
  end.

Definition ntfs_map (opened : result reader) (cells : Z) : result files_map :=
  r ← opened;
  bs ← reader_read r 0 512;
  check negb (bool_decide (py_slice bs 3 11 = of_string "NTFS    ")) # BackendError "not an NTFS volume";
  bps ← u16le bs 11;
  spc_raw ← py_get bs 13;
  check (bps <? 256) || (4096 <? bps) || negb (Z.land bps (bps - 1) =? 0) # BackendError "invalid NTFS bytes-per-sector value";
  check (spc_raw =? 0) || negb (Z.land spc_raw (spc_raw - 1) =? 0) # BackendError "invalid NTFS sectors-per-cluster value";
  let cluster_size := bps * spc_raw in
  check 64 * 1024 <? cluster_size # BackendError "unsupported NTFS cluster size";
  total_sectors ← u64le bs 40;
  let total_clusters := total_sectors / spc_raw in
  mft_lcn ← u64le bs 48;
  let rec_raw := le_sint (py_slice bs 64 65) in
  let record_size := if rec_raw <? 0 then Z.shiftl 1 (- rec_raw) else rec_raw * cluster_size in
  check (record_size <? 512) || (1024 * 1024 <? record_size) # BackendError "invalid NTFS MFT record size";
  raw ← reader_read r (mft_lcn * cluster_size + 6 * record_size) record_size;
  check negb (bool_decide (py_slice raw 0 4 = of_string "FILE")) # BackendError "NTFS $Bitmap MFT record not found at record 6";
  raw ← _fixup raw bps;
  attr_off ← u16le raw 20;
  source ← find_bitmap (length raw) raw attr_off;
  let aggregate bitmap :=
    m ← aggregate_bitmap bitmap total_clusters cells cluster_size "ntfs" 0 [("cluster_size", JInt cluster_size)];
    _add_fragmentation_summary m (_scan_fragmentation r mft_lcn cluster_size record_size bps) in
  match source with
  | None => raise BackendError "NTFS $Bitmap data attribute not found"
  | Some (Resident bitmap) => aggregate bitmap
  | Some (Nonresident runs data_size) =>
      bitmap ← read_bitmap r cluster_size data_size runs [];
      let bitmap := py_slice bitmap 0 data_size in
      check py_len bitmap * 8 <? total_clusters # BackendError "NTFS $Bitmap is shorter than the volume";
      aggregate bitmap
  end.
