(* ===== verification/NtfsMapFacts.v ===== *)
(** * The NTFS map agrees with the NTFS engine

    [NtfsMap] reads run lists, fix-ups, attributes and the volume bitmap with
    code of its own.  Whatever the engine accepts, the map reads the same way;
    so on a volume the engine opens, the map counts the clusters the engine
    takes for used and for free. *)

From S2P Require Import Prelude Text Bytes Ranges RangesFacts Bitmap AggregateFacts ReaderFacts NtfsRuns NtfsBitmap NtfsRecord Device Addresses NtfsVolume NtfsTxn NtfsTxnFacts NtfsPlan NtfsCompact NtfsFiles NtfsSafety NtfsRefine NtfsMap.

Local Open Scope list_scope.
Local Open Scope Z_scope.

(** ** Run lists *)

Definition run_pair (r : Run) : run := (lcn r, length_of r).

Lemma le_sint_pos data : wf_bytes data -> 0 < le_sint data -> le_sint data = le_int data.
Proof.
  intros Hw. unfold le_sint. pose proof (le_int_bounds data Hw). destruct (_ && _); [|done]. rewrite pow256 in * by apply py_len_nonneg. lia.
Qed.

Lemma runlist_loop_agrees fuel data : wf_bytes data -> forall pos prev acc rs,
  0 <= pos -> decode_loop fuel data pos prev acc = Ok rs -> runlist_loop fuel data pos prev (map run_pair acc) = Ok (map run_pair rs).
Proof.
  intros Hw. induction fuel as [|fuel IH]; intros pos prev acc rs Hp H; cbn [decode_loop runlist_loop] in *; destruct (Z.ltb_spec pos (py_len data)); try done.
  destruct (py_get data pos) as [h|] eqn:Eh; [|done]. cbn [mbind result_bind] in *. destruct (py_get_byte data pos Hw ltac:(lia)) as (h' & Eh' & _ & [Hh _]). rewrite Eh in Eh'. injection Eh' as <-.
  destruct (h =? 0); [by injection H as <-|]. cbv zeta in *. set (ls := Z.land h 15) in *. set (os := Z.shiftr h 4) in *.
  assert (0 <= ls) by (apply Z.land_nonneg; lia). assert (0 <= os) by (apply Z.shiftr_nonneg; lia).
  destruct (_ || _) eqn:E in H; [done|]. bool_to_prop. rewrite (proj2 (Z.eqb_neq ls 0)), (proj2 (Z.ltb_ge (py_len data) _)) by lia. cbn [orb].
  destruct (Z.leb_spec (le_sint (py_slice data (pos + 1) (pos + 1 + ls))) 0); [done|]. rewrite <- le_sint_pos by (done || by apply Forall_py_slice).
  rewrite (proj2 (Z.leb_gt _ 0)) by lia. destruct (Z.eqb_spec os 0).
  - apply IH in H; [|lia]. by rewrite map_app in H.
  - assert (_signed_le (py_slice data (pos + 1 + ls) (pos + 1 + ls + os)) = le_sint (py_slice data (pos + 1 + ls) (pos + 1 + ls + os))) as ->.
    { unfold _signed_le. rewrite bool_decide_eq_false_2; [done|]. intros Hn%(f_equal py_len). rewrite py_len_slice in Hn by lia. change (py_len []) with 0 in Hn. lia. }
    destruct (_ <? 0); [done|]. apply IH in H; [|lia]. by rewrite map_app in H.
Qed.

Lemma runlist_agrees data rs : wf_bytes data -> _decode_runlist data = Ok rs -> _runlist data = Ok (map run_pair rs).
Proof. intros Hw H. by apply (runlist_loop_agrees _ _ Hw 0 0 []). Qed.

(** ** Fix-ups *)

Lemma fixup_loop_agrees uo ss usn l : forall raw x, py_len usn = 2 -> Forall (fun i => 2 <= i * ss) l ->
  foldM (apply_one uo ss usn) raw l = Ok x -> foldM (fixup_one uo ss usn) raw l = Ok x.
Proof.
  induction l as [|i l IH]; intros raw x Hu Hl H; cbn [foldM] in *; [done|]. apply Forall_cons in Hl as [Hi Hl]. apply bind_ok in H as (y & Hy & H).
  unfold apply_one in Hy. destruct (negb _) eqn:E in Hy; [done|]. injection Hy as <-. apply negb_false_iff, bool_decide_eq_true in E.
  assert (i * ss <= py_len raw) as Hle.
  { destruct (Z.le_gt_cases (i * ss) (py_len raw)); [done|]. exfalso. pose proof (py_len_nonneg raw). apply (f_equal py_len) in E. rewrite Hu, py_slice_trunc in E by lia.
    destruct (Z.le_gt_cases (i * ss - 2) (py_len raw)); [rewrite py_len_slice in E by lia; lia|]. rewrite py_slice_past in E by lia. done. }
  assert (fixup_one uo ss usn raw i = Ok (py_set_slice raw (i * ss - 2) (i * ss) (py_slice raw (uo + i * 2) (uo + i * 2 + 2)))) as ->.
  { unfold fixup_one. cbv zeta. rewrite (proj2 (Z.ltb_ge _ _)) by lia. by rewrite bool_decide_eq_true_2. }
  cbn [mbind result_bind]. by apply IH.
Qed.

Lemma fixup_agrees raw ss x : wf_bytes raw -> 2 <= ss -> _apply_fixups raw ss = Ok x -> _fixup raw ss = Ok x.
Proof.
  intros Hw Hss H. unfold _apply_fixups, usa_header in H. apply bind_ok in H as ([uo uc] & Hh & H). apply bind_ok in Hh as (o & Ho & Hh). apply bind_ok in Hh as (c & Hc & Hh).
  destruct (_ || _) eqn:E in Hh; [done|]. injection Hh as <- <-. bool_to_prop. unfold _fixup. rewrite Ho. cbn [mbind result_bind]. rewrite Hc. cbn [mbind result_bind].
  pose proof (py_len_nonneg raw). pose proof (Z.div_pos (py_len raw) ss ltac:(lia) ltac:(lia)). assert (0 <= o) as Ho0 by (eapply (unpack_le_bounds 2) in Ho; [lia|done|lia|lia]).
  rewrite !(proj2 (Z.ltb_ge _ _)) by lia. cbn [orb]. apply fixup_loop_agrees; [rewrite py_len_slice; lia| |done].
  apply Forall_forall. intros i Hi%elem_of_py_range. nia.
Qed.

(** ** Attributes *)

Definition seen_by_map (a : Attribute) : attribute :=
  mkAttr (alength a) (atype a) (name a) (if nonresident a then Some ((lowest_vcn a, map run_pair (runs a)), data_size a) else None).

Lemma next_attribute_agrees record in_use pos o : wf_bytes record ->
  parse_attribute record in_use pos = Ok o -> next_attribute record in_use pos = Ok (seen_by_map <$> o).
Proof.
  intros Hw H. unfold parse_attribute in H. unfold next_attribute. apply bind_ok in H as (ty & E & H). rewrite E. cbn [mbind result_bind]. clear E.
  destruct (ty =? 4294967295); [by injection H as <-|]. apply bind_ok in H as (len & E & H). rewrite E. cbn [mbind result_bind]. clear E.
  destruct (_ || _); [done|]. apply bind_ok in H as (nr & E & H). rewrite E. cbn [mbind result_bind]. clear E. apply bind_ok in H as (nl & E & H). rewrite E. cbn [mbind result_bind]. clear E.
  apply bind_ok in H as (no & E & H). rewrite E. cbn [mbind result_bind]. clear E. apply bind_ok in H as (fl & _ & H). apply bind_ok in H as (nm & E & H).
  assert ((if negb (nl =? 0) then check (no <? 16) || (len <? no + nl * 2) # BackendError "invalid NTFS attribute name"; Ok (py_slice record (pos + no) (pos + (no + nl * 2))) else Ok []) = Ok nm) as ->.
  { destruct (negb _); [|done]. cbv zeta in E. by destruct (_ || _). }
  clear E. cbn [mbind result_bind]. destruct (negb (nr =? 0)); [|by injection H as <-]. destruct (len <? 64); [done|].
  apply bind_ok in H as (lo & E & H). rewrite E. cbn [mbind result_bind]. clear E. apply bind_ok in H as (hi & E & H). rewrite E. cbn [mbind result_bind]. clear E.
  apply bind_ok in H as (ro & E & H). rewrite E. cbn [mbind result_bind]. clear E. destruct (_ || _); [done|]. apply bind_ok in H as (rs & E & H).
  rewrite (runlist_agrees _ rs) by (done || by apply Forall_py_slice). cbn [mbind result_bind]. cbv zeta in *. rewrite map_map. change (map (fun x => (run_pair x).2) rs) with (map length_of rs).
  fold (runs_length rs). destruct (negb _); [done|]. apply bind_ok in H as (al & _ & H). apply bind_ok in H as (ds & E' & H). rewrite E'. cbn [mbind result_bind]. apply bind_ok in H as (ini & _ & H).
  by injection H as <-.
Qed.

Lemma attribute_loop_agrees record in_use : wf_bytes record -> forall fuel pos, raised (attributes_loop fuel record in_use pos) = None ->
  attribute_loop fuel record in_use pos = Generated (map seen_by_map (yielded (attributes_loop fuel record in_use pos))) None.
Proof.
  intros Hw. induction fuel as [|fuel IH]; intros pos H; cbn [attributes_loop attribute_loop] in *; destruct (_ <=? in_use); try done.
  destruct (parse_attribute record in_use pos) as [[a|]|e] eqn:E; [| |done]; apply (next_attribute_agrees _ _ _ _ Hw) in E; rewrite E; cbn [fmap option_fmap option_map]; [|done].
  cbn [gen_cons raised yielded map] in *. change (a_length (seen_by_map a)) with (alength a). by rewrite IH.
Qed.

(** The fields behind a parsed attribute. *)
Lemma parse_attribute_reads record in_use pos a : wf_bytes record -> 0 <= pos -> in_use <= py_len record -> parse_attribute record in_use pos = Ok (Some a) ->
  exists nr nl, u32le record pos = Ok (atype a) /\ (atype a =? 4294967295) = false /\ u32le record (pos + 4) = Ok (alength a) /\ py_get record (pos + 8) = Ok nr /\
    nonresident a = negb (nr =? 0) /\ py_get record (pos + 9) = Ok nl /\ (nl =? 0) = bool_decide (name a = []) /\
    (nonresident a = true -> u16le record (pos + 32) = Ok (run_offset a) /\ u64le record (pos + 48) = Ok (data_size a) /\
       _decode_runlist (py_slice record (pos + run_offset a) (pos + alength a)) = Ok (runs a)).
Proof.
  intros Hw Hp Hu H. pose proof H as Hf. apply parse_attribute_facts in Hf as (_ & _ & Hend & _); [|done..]. unfold parse_attribute in H.
  apply bind_ok in H as (ty & E0 & H). destruct (ty =? 4294967295) eqn:Ety; [done|]. apply bind_ok in H as (len & E1 & H). destruct (_ || _) eqn:C1; [done|].
  apply bind_ok in H as (nr & E2 & H). apply bind_ok in H as (nl & E3 & H). apply bind_ok in H as (no & E4 & H). apply bind_ok in H as (fl & _ & H). apply bind_ok in H as (nm & E5 & H).
  assert ((nl =? 0) = bool_decide (nm = [])) as Hname.
  { destruct (Z.eqb_spec nl 0) as [->|Hne]; cbn [negb] in E5; [injection E5 as <-; by rewrite bool_decide_eq_true_2|]. destruct (_ || _) eqn:C2 in E5; [done|]. injection E5 as <-.
    rewrite bool_decide_eq_false_2; [done|]. intros Hn%(f_equal py_len). bool_to_prop. assert (0 <= nl) by (eapply py_get_nonneg in E3; (done || lia)).
    rewrite py_len_slice in Hn by lia. change (py_len []) with 0 in Hn. lia. }
  exists nr, nl. destruct (negb (nr =? 0)) eqn:Enr; [|by injection H as <-]. destruct (len <? 64) in H; [done|].
  apply bind_ok in H as (lo & _ & H). apply bind_ok in H as (hi & _ & H). apply bind_ok in H as (ro & E6 & H). destruct (_ || _) in H; [done|]. apply bind_ok in H as (rs & E7 & H).
  cbv zeta in H. destruct (negb (_ =? _)) in H; [done|]. apply bind_ok in H as (al & _ & H). apply bind_ok in H as (ds & E8 & H). apply bind_ok in H as (ini & _ & H). by injection H as <-.
Qed.

(** The unnamed data of a record never lies in the record itself. *)
Definition resident_data (a : Attribute) : bool := (atype a =? ATTR_DATA) && bool_decide (name a = []) && negb (nonresident a).

Lemma find_bitmap_agrees record in_use battr rest : wf_bytes record -> in_use <= py_len record -> forall fuel pos attrs,
  0 <= pos -> attributes_loop fuel record in_use pos = Generated attrs None -> List.filter is_data attrs = battr :: rest -> existsb resident_data attrs = false ->
  find_bitmap fuel record pos = Ok (Some (Nonresident (map run_pair (runs battr)) (data_size battr))).
Proof.
  intros Hw Hu. induction fuel as [|fuel IH]; intros pos attrs Hp H Hd Hr; cbn [attributes_loop find_bitmap] in *; destruct (Z.leb_spec (pos + 16) in_use); try done; try (injection H as <-; done).
  rewrite (proj2 (Z.leb_le _ _)) by lia. destruct (parse_attribute record in_use pos) as [[a|]|e] eqn:E; [|injection H as <-; done|done].
  destruct (attributes_loop fuel record in_use (pos + alength a)) as [ys er] eqn:El. injection H as <- ->. cbn [List.filter existsb] in Hd, Hr. apply orb_false_iff in Hr as [Hra Hr].
  pose proof (parse_attribute_facts _ _ _ _ Hw Hp Hu E) as (_ & Hlen & Hend & _). destruct (parse_attribute_reads _ _ _ _ Hw Hp Hu E) as (nr & nl & -> & Ety & -> & -> & Enr & -> & Enl & Hnr).
  cbn [mbind result_bind]. rewrite Ety. rewrite (proj2 (Z.ltb_ge (alength a) 24)), (proj2 (Z.ltb_ge (py_len record) _)) by lia. cbn [orb mbind result_bind]. rewrite Enl, <- Enr.
  unfold resident_data in Hra. unfold is_data in Hd at 1. change _ATTR_DATA with ATTR_DATA. destruct ((atype a =? ATTR_DATA) && bool_decide (name a = [])); cbn [andb] in *; [|by eapply IH; [lia|..]].
  destruct (nonresident a) eqn:Ea; [|done]. destruct Hnr as (-> & -> & Hruns); [done|]. injection Hd as <- _. cbn [mbind result_bind]. by rewrite (runlist_agrees _ (runs a)) by (done || by apply Forall_py_slice).
Qed.

(** ** Streams *)

Section engine.
Context {J : Type}.

Lemma pread_exact_inv len off d t data : 0 < len -> _pread_exact (J:=J) len off d = (t, Ok data) -> t = [] /\ data = py_slice d off (off + len) /\ 0 <= off /\ off + len <= py_len d.
Proof.
  intros Hl H. unfold _pread_exact, pbind, os_pread in H. destruct (Z.ltb_spec off 0) as [|Ho]; [done|]. simpl replay in H.
  destruct (Z.eqb_spec (py_len (py_slice d off (off + len))) len) as [He|]; [|done]. cbn [negb pret app] in H. injection H as <- <-. repeat split; try done.
  destruct (Z.le_gt_cases (off + len) (py_len d)); [done|]. exfalso. rewrite (py_slice_trunc d off (off + len)) in He by lia.
  destruct (Z.le_gt_cases off (py_len d)); [rewrite py_len_slice in He by lia; lia|]. pose proof (py_len_nonneg d). rewrite py_slice_past in He by lia. change (py_len []) with 0 in He. lia.
Qed.

Lemma reader_read_inv d size off len data : 0 < len -> reader_read (mkReader d size) off len = Ok data -> data = py_slice d off (off + len) /\ 0 <= off /\ off + len <= py_len d.
Proof.
  intros Hl H. unfold reader_read, dev_read in H. cbn [reader_dev] in H. destruct (_ || _) eqn:E in H; [done|]. bool_to_prop. rewrite (proj2 (Z.eqb_neq len 0)) in H by lia.
  destruct (Z.leb_spec (off + len) (py_len d)); [|done]. by injection H as <-.
Qed.

Lemma read_bitmap_agrees d size cs rs : 0 < cs -> Forall (fun r => 0 < length_of r) rs -> forall cursor rem acc t x b, 0 < rem ->
  raised (segments_loop rs cs cursor rem cursor) = None ->
  pforeach (fun acc seg => let* chunk := _pread_exact seg.2 seg.1 in pret (acc ++ chunk)) acc (yielded (segments_loop rs cs cursor rem cursor)) d = (t : list (effect J), Ok x) ->
  read_bitmap (mkReader d size) cs (py_len acc + rem) (map run_pair rs) acc = Ok b -> py_slice b 0 (py_len acc + rem) = x.
Proof.
  intros Hcs Hrs. induction rs as [|r rs IH]; intros cursor rem acc t x b Hrem Hra H Hb; cbn [segments_loop] in *; [rewrite (proj2 (Z.eqb_neq rem 0)) in Hra by lia; done|].
  apply Forall_cons in Hrs as [Hr Hrs]. cbn [map read_bitmap run_pair] in Hb. rewrite (proj2 (Z.leb_gt _ cursor)) in Hra, H by nia. rewrite Z.sub_diag, Z.max_l, Z.sub_0_r in Hra, H by lia.
  set (rb := length_of r * cs) in *. assert (0 < rb) by (unfold rb; nia). set (take := Z.min rem rb) in *. destruct (lcn r) as [l|]; [|done]. cbn [gen_cons yielded raised pforeach fst snd] in H, Hra.
  rewrite Z.add_0_r in H. apply pbind_inv in H as (t1 & a & t2 & H1 & H2 & ->). apply pbind_inv in H1 as (t3 & chunk & t4 & H3 & H4 & ->). apply pread_exact_inv in H3 as (-> & -> & Hl0 & Hl1); [|lia].
  apply pret_inv in H4 as [-> <-]. cbn [app replay fold_left] in H2. apply bind_ok in Hb as (data & Hdata & Hb). apply reader_read_inv in Hdata as (-> & _ & Hl2); [|done].
  assert (forall n, 0 <= n <= rb -> py_len (py_slice d (l * cs) (l * cs + n)) = n) as Hlen by (intros; rewrite py_len_slice; lia).
  pose proof (py_len_nonneg acc). rewrite py_len_app, Hlen in Hb by lia. destruct (Z.eqb_spec (rem - take) 0) as [Hz|Hz].
  - assert (take = rem) as Ht by lia. rewrite (proj2 (Z.leb_le _ _)) in Hb by lia. injection Hb as <-. cbn [yielded pforeach] in H2. apply pret_inv in H2 as [-> <-]. rewrite Ht.
    rewrite <- (py_slice_app d (l * cs) (l * cs + rem) (l * cs + rb)), app_assoc by lia. rewrite py_slice_app_l by (rewrite ?py_len_app, ?Hlen; lia). apply py_slice_whole. rewrite py_len_app, Hlen; lia.
  - assert (take = rb) as Ht by lia. rewrite (proj2 (Z.leb_gt _ _)) in Hb by lia. rewrite Ht in *. replace (py_len acc + rem) with (py_len (acc ++ py_slice d (l * cs) (l * cs + rb)) + (rem - rb)) in Hb |- * by (rewrite py_len_app, Hlen; lia).
    refine (IH Hrs (cursor + rb) (rem - rb) _ _ _ _ _ Hra H2 Hb). lia.
Qed.
End engine.

(** ** The volume *)

(** What the map takes for granted: the first run of the MFT starts where the
    boot sector says and holds the first seven records. *)
Definition mft_head (layout : NtfsLayout) : bool :=
  let vol := volume layout in
  match mft_runs layout with
  | r :: _ => bool_decide (lcn r = Some (mft_lcn vol)) && (7 * mft_record_size vol <=? length_of r * cluster_size vol)
  | [] => false
  end.

Section engine.
Context {J : Type}.

(** The attributes of record 6, [$Bitmap]. *)
Definition bitmap_attributes (layout : NtfsLayout) (d : bytes) : list Attribute :=
  match (_read_mft_record (J:=J) (volume layout) (mft_runs layout) 6 d).2 with Ok (_, _, fixed) => yielded (NtfsRecord._attributes fixed) | Raise _ => [] end.

Lemma record_read_agrees vol r rs d t first raw fixed : 0 < cluster_size vol -> 0 < mft_record_size vol ->
  lcn r = Some (mft_lcn vol) -> 7 * mft_record_size vol <= length_of r * cluster_size vol -> _read_mft_record (J:=J) vol (r :: rs) 6 d = (t, Ok (first, raw, fixed)) ->
  t = [] /\ raw = py_slice d (mft_lcn vol * cluster_size vol + 6 * mft_record_size vol) (mft_lcn vol * cluster_size vol + 6 * mft_record_size vol + mft_record_size vol) /\
  _apply_fixups raw (bytes_per_sector vol) = Ok fixed /\ 0 <= mft_lcn vol * cluster_size vol + 6 * mft_record_size vol /\
  mft_lcn vol * cluster_size vol + 6 * mft_record_size vol + mft_record_size vol <= py_len d.
Proof.
  intros Hcs Hrs Hl Hfit H. set (cs := cluster_size vol) in *. set (mrs := mft_record_size vol) in *. unfold _read_mft_record in H. fold mrs cs in H. cbv zeta in H.
  apply pbind_inv in H as (t1 & raw' & t2 & H1 & H2 & ->). unfold _read_stream, _stream_segments in H1. fold cs in H1. rewrite !(proj2 (Z.ltb_ge _ 0)) in H1 by lia. cbn [orb segments_loop] in H1.
  rewrite (proj2 (Z.leb_gt _ _)) in H1 by lia. rewrite Z.sub_0_r, Z.max_r, (Z.min_l mrs), Z.sub_diag, Z.eqb_refl, Hl in H1 by lia. cbn [gen_cons yielded raised pforeach fst snd] in H1. unfold finish in H1. cbn [raised] in H1.
  apply pbind_inv in H1 as (u1 & a & u2 & R & H1 & ->). apply pret_inv in H1 as [-> <-]. apply pbind_inv in R as (u3 & b & u4 & R & R2 & ->). apply pret_inv in R2 as [-> <-].
  apply pbind_inv in R as (u5 & c & u6 & R & R2 & ->). apply pret_inv in R2 as [-> <-]. apply pread_exact_inv in R as (-> & -> & ? & ?); [|done]. cbn [app replay fold_left] in H2.
  apply pbind_inv in H2 as (u7 & e & u8 & R & H2 & ->). apply lift_inv in R as [-> R]. apply pbind_inv in H2 as (u9 & f & u10 & R3 & H2 & ->). apply pret_inv in H2 as [-> H2]. injection H2 as <- <- <-.
  unfold first_segment in R3. destruct (yielded _) in R3; [destruct (raised _) in R3; done|]. apply pret_inv in R3 as [-> _]. done.
Qed.

(** What [_read_layout] has read of the bitmap's record and of the bitmap. *)
Lemma layout_reads vol a b d t L : _read_layout (J:=J) vol a b d = (t, Ok L) ->
  volume L = vol /\ exists t1 first raw fixed attrs battr t2, _read_mft_record (J:=J) vol (mft_runs L) 6 d = (t1, Ok (first, raw, fixed)) /\
    list_of (NtfsRecord._attributes fixed) = Ok attrs /\ List.filter is_data attrs = [battr] /\ _read_stream (J:=J) vol (runs battr) 0 (data_size battr) d = (t2, Ok (bitmap L)) /\
    total_clusters vol <= py_len (bitmap L) * 8.
Proof.
  intros H. unfold _read_layout in H. apply silent_step in H as [(_ & e & [=])|([[r0 f0] mattr] & _ & H)]; [|unfold _record_zero; reads].
  apply silent_step in H as [(_ & e & [=])|([] & _ & H)]; [|destruct b; reads]. apply silent_step in H as [(_ & e & [=])|([[first raw] fixed] & R6 & H)]; [|reads].
  apply silent_step in H as [(_ & e & [=])|(attrs & Ra & H)]; [|reads]. destruct (List.filter is_data attrs) as [|battr [|]] eqn:Ef; [done| |done]. destruct (negb _) in H; [done|].
  apply silent_step in H as [(_ & e & [=])|(data & Rd & H)]; [|reads]. destruct (Z.ltb_spec (py_len data * 8) (total_clusters vol)); [done|]. apply pret_inv in H as [_ <-].
  apply lift_inv in Ra as [_ Ra]. split; [done|]. by exists [], first, raw, fixed, attrs, battr, [].
Qed.
End engine.

Lemma summary_same m scanned fm : _add_fragmentation_summary m scanned = Ok fm -> Forall2 same_counts (mr_cells m) (mr_cells (fm_map fm)).
Proof.
  intros H. unfold _add_fragmentation_summary in H. destruct scanned as [s|e]; [|destruct (is_backend_error e); [|done]; injection H as <-; apply same_counts_refl].
  unfold overlay_ranges in H. injection H as <-. cbn [fm_map with_cells mr_cells]. do 2 (eapply same_counts_trans; [|apply overlay_cells_same]). apply overlay_cells_same.
Qed.

(** The fields of the boot sector, as both sides read them. *)
Record boot_read (d : bytes) (vol : Volume) (boot : bytes) : Prop := mkBootRead {
  br_boot : boot = py_slice d 0 512;
  br_device : 512 <= py_len d;
  br_magic : py_slice boot 3 11 = of_string "NTFS    ";
  br_bps : u16le boot 11 = Ok (bytes_per_sector vol);
  br_spc : py_get boot 13 = Ok (sectors_per_cluster vol);
  br_bps_ok : (bytes_per_sector vol <? 256) || (4096 <? bytes_per_sector vol) || not_power_of_two (bytes_per_sector vol) = false;
  br_spc_ok : (sectors_per_cluster vol =? 0) || not_power_of_two (sectors_per_cluster vol) = false;
  br_cluster : cluster_size vol = bytes_per_sector vol * sectors_per_cluster vol;
  br_cluster_ok : (65536 <? cluster_size vol) = false;
  br_total : exists sectors, u64le boot 40 = Ok sectors /\ total_clusters vol = sectors / sectors_per_cluster vol;
  br_mft : u64le boot 48 = Ok (mft_lcn vol);
  br_record : mft_record_size vol = (let r := le_sint (py_slice boot 64 65) in if r <? 0 then Z.shiftl 1 (- r) else r * cluster_size vol);
  br_record_ok : (mft_record_size vol <? 512) || (1048576 <? mft_record_size vol) = false
}.

Lemma parse_boot_read path size d vol : parse_boot path size (py_slice d 0 512) = Ok vol -> boot_read d vol (py_slice d 0 512).
Proof.
  intros H. unfold parse_boot in H. destruct (_ || _) eqn:E in H; [done|]. rewrite !orb_false_iff, !negb_false_iff, !bool_decide_eq_true, Z.eqb_eq in E. destruct E as [[Hlen Hmagic] _].
  apply bind_ok in H as (bps & R1 & H). apply bind_ok in H as (spc & R2 & H). destruct (_ || _) eqn:C1 in H; [done|]. destruct (_ || _) eqn:C2 in H; [done|]. cbv zeta in H. destruct (65536 <? _) eqn:C3 in H; [done|].
  apply bind_ok in H as (sectors & R3 & H). destruct (_ <? _) in H; [done|]. apply bind_ok in H as (mft & R4 & H). apply bind_ok in H as (mirr & _ & H). destruct (_ || _) eqn:C4 in H; [done|]. injection H as <-.
  apply orb_false_iff in C4 as [C4 _]. split; cbn; try done; [|by eexists]. destruct (Z.le_gt_cases 512 (py_len d)); [done|]. rewrite py_slice_trunc, py_slice_whole in Hlen by lia. lia.
Qed.

(** The whole bitmap, with its last run read in full or in part. *)
Lemma bitmap_stream_agrees {J} d size vol rs n t x b : 0 < cluster_size vol -> Forall (fun r => 0 < length_of r) rs -> 0 < py_len x ->
  _read_stream (J:=J) vol rs 0 n d = (t, Ok x) -> read_bitmap (mkReader d size) (cluster_size vol) n (map run_pair rs) [] = Ok b -> py_slice b 0 n = x.
Proof.
  intros Hcs Hrs Hx H Hb. unfold _read_stream, _stream_segments in H. change (0 <? 0) with false in H. cbn [orb] in H. destruct (Z.ltb_spec n 0) as [Hn|Hn]; [done|]. cbv zeta in H.
  apply pbind_inv in H as (t1 & y & t2 & H1 & H2 & ->). unfold finish in H2. destruct (raised _) eqn:Er in H2; [done|]. apply pret_inv in H2 as [-> <-]. destruct (Z.eq_dec n 0) as [->|Hne].
  - exfalso. destruct rs as [|r rs]; cbn [segments_loop] in *; [apply pret_inv in H1 as [_ <-]; done|]. apply Forall_cons in Hrs as [Hr _]. rewrite (proj2 (Z.leb_gt _ _)) in H1, Er by nia.
    rewrite Z.min_l in H1, Er by nia. destruct (lcn r) as [l|]; [|done]. change (0 - 0 =? 0) with true in H1. cbn [gen_cons yielded pforeach fst snd] in H1. apply pbind_inv in H1 as (u1 & c & u2 & R & H1 & _). apply pret_inv in H1 as [_ ->].
    apply pbind_inv in R as (u3 & e & u4 & R & R2 & _). apply pret_inv in R2 as [_ <-]. unfold _pread_exact, pbind, os_pread in R. destruct (_ <? 0) in R; [done|]. cbn [replay fold_left] in R.
    destruct (negb _) eqn:E in R; [done|]. injection R as _ <-. apply negb_false_iff, Z.eqb_eq in E. cbn [app] in Hx. lia.
  - eapply (read_bitmap_agrees d size (cluster_size vol) rs Hcs Hrs 0 n []); [lia|done|exact H1|exact Hb].
Qed.

Lemma ntfs_map_reads {J} path d size vol a b t L cells m : wf_bytes d -> parse_boot path (py_len d) (py_slice d 0 512) = Ok vol -> _read_layout (J:=J) vol a b d = (t, Ok L) ->
  mft_head L = true -> existsb resident_data (bitmap_attributes (J:=J) L d) = false -> 1 <= total_clusters vol -> ntfs_map (Ok (mkReader d size)) cells = Ok m ->
  exists dets base, aggregate_bitmap (bitmap L) (total_clusters vol) cells (cluster_size vol) "ntfs" 0 dets = Ok base /\ Forall2 same_counts (mr_cells base) (mr_cells (fm_map m)).
Proof.
  intros Hw Hboot Hlayout Hhead Hres Htot H. apply parse_boot_read in Hboot as [_ Hd Hmagic R1 R2 C1 C2 Ecs C3 (sectors & R3 & Etot) R4 Ers C4].
  apply layout_reads in Hlayout as (Evol & t1 & first & raw & fixed & attrs & battr & t2 & R6 & Ha & Hf & Rb & Hbits).
  unfold ntfs_map in H. cbn [mbind result_bind] in H. assert (reader_read (mkReader d size) 0 512 = Ok (py_slice d 0 512)) as E.
  { unfold reader_read, dev_read. cbn [reader_dev]. change ((0 <? 0) || (512 <? 0)) with false. change (512 =? 0) with false. cbv iota. by rewrite (proj2 (Z.leb_le _ _)) by lia. }
  rewrite E in H. clear E. cbn [mbind result_bind] in H. set (boot := py_slice d 0 512) in *. rewrite Hmagic, bool_decide_eq_true_2 in H by done. cbn [negb] in H. rewrite R1 in H. cbn [mbind result_bind] in H.
  rewrite R2 in H. cbn [mbind result_bind] in H. unfold not_power_of_two in C1, C2. rewrite C1, C2 in H. cbv zeta in H. rewrite <- Ecs in H. change (64 * 1024) with 65536 in H. rewrite C3, R3 in H. cbn [mbind result_bind] in H.
  rewrite <- Etot, R4 in H. cbn [mbind result_bind] in H. cbv zeta in Ers. rewrite <- Ers in H. change (1024 * 1024) with 1048576 in H. rewrite C4 in H.
  assert (256 <= bytes_per_sector vol /\ 512 <= mft_record_size vol) as [Hbps Hmrs] by (bool_to_prop; lia).
  assert (0 < cluster_size vol) as Hcs by (assert (0 <= sectors_per_cluster vol) by (eapply py_get_nonneg in R2; [done|by apply Forall_py_slice|lia]); bool_to_prop; nia).
  unfold mft_head in Hhead. unfold bitmap_attributes in Hres. rewrite Evol, R6 in Hres. cbn [snd] in Hres. rewrite Evol in Hhead. destruct (mft_runs L) as [|r rs]; [done|]. apply andb_true_iff in Hhead as [Hl%bool_decide_eq_true Hfit%Z.leb_le].
  apply record_read_agrees in R6 as (_ & Eraw & Hfix & Hp0 & Hp1); [|done|lia|done|done]. apply bind_ok in H as (raw' & E & H). apply reader_read_inv in E as (-> & _ & _); [|lia]. rewrite <- Eraw in H.
  destruct (negb _) in H; [done|]. assert (wf_bytes raw) as Hwr by (rewrite Eraw; by apply Forall_py_slice). rewrite (fixup_agrees raw _ fixed) in H by (done || lia). cbn [mbind result_bind] in H.
  assert (wf_bytes fixed) as Hwf by (eapply apply_fixups_wf; eassumption). pose proof (attributes_ok fixed attrs Hwf Ha) as Hat. unfold NtfsRecord._attributes in Ha, Hres. apply bind_ok in H as (pos & Rp & H). rewrite Rp in Ha, Hres.
  destruct (u32le fixed 24) as [used|] eqn:Ru; [|done]. unfold list_of in Ha. destruct (attributes_loop _ _ _ _) as [ys er] eqn:El. cbn [raised yielded] in Ha, Hres. destruct er; [done|]. injection Ha as ->.
  assert (0 <= pos) as Hpos by (eapply (unpack_le_bounds 2) in Rp; [lia|done|lia|lia]).
  rewrite (find_bitmap_agrees fixed _ battr [] Hwf (Z.le_min_l _ _) _ _ _ Hpos El Hf Hres) in H. cbn [mbind result_bind] in H.
  apply bind_ok in H as (bm & Hbm & H).
  assert (py_slice bm 0 (data_size battr) = bitmap L) as Ebm.
  { eapply (bitmap_stream_agrees d size vol (runs battr)); [done| |lia|exact Rb|exact Hbm].
    assert (battr ∈ List.filter is_data attrs) as [Hin Hda]%list_elem_of_In%filter_In by (rewrite Hf; by left). rewrite Forall_forall in Hat. eapply Forall_impl; [apply (Hat battr)|by intros ? []].
    - by apply list_elem_of_In.
    - unfold is_data in Hda. by destruct (nonresident battr); [|rewrite andb_false_r in Hda]. }
  rewrite Ebm, (proj2 (Z.ltb_ge _ _)) in H by lia. apply bind_ok in H as (base & Hagg & H). exists [("cluster_size", JInt (cluster_size vol))]%string, base. split; [exact Hagg|]. by eapply summary_same.
Qed.

(** C28. On a volume that the engine opens, whose MFT starts with its first seven
    records in one run and whose bitmap is not resident, the cells of the NTFS
    map cut the clusters into consecutive ranges, and a cell's used and free
    counts are the numbers of its clusters that the engine takes for allocated
    and for free. *)
Theorem ntfs_map_agrees_with_engine path d size vol a b t L cells m
    (Hw : wf_bytes d) (Hboot : parse_boot path (py_len d) (py_slice d 0 512) = Ok vol) (Hlayout : _read_layout (J:=journal_state) vol a b d = (t, Ok L))
    (Hhead : mft_head L = true) (Hres : existsb resident_data (bitmap_attributes (J:=journal_state) L d) = false) (Htot : 1 <= total_clusters vol)
    (Hm : ntfs_map (Ok (mkReader d size)) cells = Ok m) :
  exists bounds, chained 0 (total_clusters vol) bounds /\
    Forall2 (counted (fun x => bool_decide (_bit (bitmap L) x = Ok true)) (fun x => bool_decide (_bit (bitmap L) x = Ok false))) bounds (mr_cells (fm_map m)).
Proof.
  destruct (ntfs_map_reads path d size vol a b t L cells m Hw Hboot Hlayout Hhead Hres Htot Hm) as (dets & base & Hagg & Hsame).
  assert (wf_bytes (bitmap L)) as Hwb.
  { apply layout_reads in Hlayout as (_ & t1 & first & raw & fixed & attrs & battr & t2 & _ & _ & _ & Rb & _). by apply (read_stream_wf d Hw) in Rb as [_ ?]. }
  apply (bitmap_map_counts _ _ _ _ _ _ _ _ _ _ Hwb Htot Hagg Hsame). intros x Hx.
  assert (py_len (bitmap L) * 8 >= total_clusters vol) as Hl by (unfold aggregate_bitmap in Hagg; destruct (Z.ltb_spec (py_len (bitmap L) * 8) (total_clusters vol - 0)); [done|lia]).
  rewrite bit_spec by (done || lia). by destruct (bit_at _ x).
Qed.

(** Twelve clusters of 512 bytes: the boot sector, seven MFT records, the
    bitmap in cluster 8, and the file of record 5 in clusters 9 and 11. *)
Module MapSample.
Definition boot : bytes :=
  image_of 512 [(3, of_string "NTFS    "); lefield 11 2 512; lefield 13 1 1; lefield 40 8 12; lefield 48 8 1; lefield 56 8 8; lefield 64 1 247; lefield 510 2 43605].

Definition record (fields : list (Z * bytes)) : bytes :=
  image_of 512 ([(0, of_string "FILE"); lefield 4 2 40; lefield 6 2 2; lefield 20 2 48; lefield 22 2 1; lefield 24 4 160; lefield 40 2 1; lefield 510 2 1] ++ fields).

Definition stream (clusters size : Z) (pairs : bytes) : bytes :=
  record [lefield 48 4 128; lefield 52 4 80; lefield 56 1 1; lefield 72 8 (clusters - 1); lefield 80 2 64; lefield 96 8 size; (112, pairs); lefield 128 4 4294967295].

Definition volume_record : bytes :=
  record [lefield 48 4 112; lefield 52 4 40; lefield 64 4 12; lefield 68 2 24; lefield 88 4 4294967295].

Definition device : bytes :=
  Eval vm_compute in
  (boot ++ stream 7 3584 [17; 7; 1] ++ py_zeros 1024 ++ volume_record ++ py_zeros 512 ++ stream 2 1024 [17; 1; 9; 17; 1; 2] ++ stream 1 2 [17; 1; 8] ++
   image_of 512 [lefield 0 2 3071] ++ py_zeros 1536).

Definition no_volume : Volume := mkVolume "" 0 0 0 0 0 0 0 0 [].
Definition volume : Volume := Eval vm_compute in match parse_boot "image" 6144 (py_slice device 0 512) with Ok v => v | Raise _ => no_volume end.
Definition layout : NtfsLayout :=
  Eval vm_compute in match (_read_layout (J:=journal_state) volume false true device).2 with Ok l => l | Raise _ => mkLayout no_volume [] 0 [] 0 [] end.
End MapSample.

Lemma ntfs_map_agrees_with_engine_witness :
  exists m, ntfs_map (Ok (mkReader MapSample.device 6144)) 5 = Ok m /\
    exists bounds, chained 0 12 bounds /\
      Forall2 (counted (fun x => bool_decide (_bit (bitmap MapSample.layout) x = Ok true)) (fun x => bool_decide (_bit (bitmap MapSample.layout) x = Ok false)))
        bounds (mr_cells (fm_map m)).
Proof.
  eexists. split; [vm_compute; reflexivity|].
  refine (ntfs_map_agrees_with_engine "image" MapSample.device 6144 MapSample.volume false true [] MapSample.layout 5 _ _ _ _ _ _ _ _).
  - apply (bool_decide_unpack _). vm_compute. exact I.
  - vm_compute. reflexivity.
  - vm_compute. reflexivity.
  - reflexivity.
  - vm_compute. reflexivity.
  - vm_compute. discriminate.
  - vm_compute. reflexivity.
Defined.

(** ** Fragments *)

(** The map's walk and the engine's coalescing at the same place. *)
Definition walk_state (merged : list Run) (w : extent_walk) : Prop :=
  w_fragments w = py_len (filter is_physical merged) /\
  match merged with
  | r :: _ => match lcn r with
              | Some l => w_broken w = false /\ w_previous_lcn_end w = Some (l + length_of r)
              | None => w_broken w = true
              end
  | [] => w_broken w = true
  end.

Lemma filter_physical_cons r l : py_len (filter is_physical (r :: l)) = (match lcn r with Some _ => 1 | None => 0 end) + py_len (filter is_physical l).
Proof.
  rewrite filter_cons. destruct (decide (is_physical r)) as [H|H]; unfold is_physical in H; destruct (lcn r); cbn in H; try done; try tauto; rewrite ?py_len_cons; lia.
Qed.

Lemma walk_run_state merged w r : 0 < length_of r -> walk_state merged w -> walk_state (coalesce_push merged r) (walk_run w (run_pair r)).
Proof.
  intros Hr [Hf Hm]. unfold coalesce_push. rewrite (proj2 (Z.leb_gt _ 0)) by lia. unfold walk_run, run_pair, walk_state. cbn [fst snd].
  destruct merged as [|q older]; [|rewrite filter_physical_cons in Hf; destruct (lcn q) as [p|] eqn:Eq]; destruct (lcn r) as [l|] eqn:Er; cbn [w_fragments w_broken w_previous_lcn_end];
    rewrite ?filter_physical_cons, ?Er, ?Eq; cbn [lcn length_of].
  - rewrite Hm. cbn [orb]. split; [lia|done].
  - split; [lia|done].
  - destruct Hm as [Hb Hp]. rewrite Hb, Hp. cbn [orb]. destruct (Z.eqb_spec (p + length_of q) l) as [Heq|Hne].
    + subst l. rewrite bool_decide_eq_true_2 by done. rewrite filter_physical_cons. cbn [negb lcn length_of]. split; [lia|]. split; [done|]. f_equal. lia.
    + rewrite bool_decide_eq_false_2 by congruence. rewrite !filter_physical_cons, Er, Eq. cbn [negb]. split; [lia|done].
  - split; [lia|done].
  - rewrite Hm. cbn [orb]. split; [lia|done].
  - split; [lia|done].
Qed.

(** The number of extents that the map counts for a stream in one piece is
    the number of fragments that the engine counts for it. *)
Theorem stream_fragments_agree (first_vcn : Z) (rs : list Run) (Hrs : Forall (fun r => 0 < length_of r) rs) :
  _stream_fragments [(first_vcn, map run_pair rs)] = _physical_fragment_count rs.
Proof.
  unfold _stream_fragments, _physical_fragment_count, _coalesce_runs. cbn [py_sorted foldr sort_insert fold_left walk_segment fst snd]. rewrite bool_decide_eq_false_2 by done. cbn [negb w_fragments w_previous_lcn_end].
  assert (forall merged w, walk_state merged w -> walk_state (fold_left coalesce_push rs merged) (fold_left walk_run (map run_pair rs) w)) as Hfold.
  { induction Hrs as [|r l Hr _ IH]; intros merged w Hs; [done|]. cbn [fold_left map]. by apply IH, walk_run_state. }
  destruct (Hfold [] (mkWalk 0 None true)) as [-> _]; [done|]. unfold py_len. rewrite <- (Permutation_rev (fold_left coalesce_push rs [])). done.
Qed.

Lemma stream_fragments_agree_witness :
  _stream_fragments [(5, map run_pair [mkRun (Some 4) 2; mkRun (Some 6) 1; mkRun None 3; mkRun (Some 7) 1])] = 2 /\
  _physical_fragment_count [mkRun (Some 4) 2; mkRun (Some 6) 1; mkRun None 3; mkRun (Some 7) 1] = 2.
Proof.
  rewrite <- (stream_fragments_agree 5); [split; vm_compute; reflexivity|]. repeat (apply Forall_cons; split; [cbn; lia|]). by apply Forall_nil.
Defined.
