(* ===== verification/Devices.v ===== *)
(** * Mount checks

    Models [src/gui/core/devices.py], the guard every engine asks before it
    opens a volume for writing: parsing [/proc/self/mountinfo], comparing
    device numbers and resolved paths, and [require_unmounted].  The kernel's
    text, [os.stat] and [os.path.realpath] are parameters.

    The theorems show that the parser recovers exactly the device numbers and
    sources of a mount table the kernel prints, and that [is_mounted] answers
    whether such a table has an entry for the target. *)

From S2P Require Import Prelude Text.
From stdpp Require Import pretty.

Local Open Scope Z_scope.

(** ** Python text operations *)

(** Characters [str.split()] splits at. *)
Definition is_space (c : Z) : bool :=
  ((9 <=? c) && (c <=? 13)) || ((28 <=? c) && (c <=? 32)) || (c =? 133) || (c =? 160) || (c =? 5760) ||
  ((8192 <=? c) && (c <=? 8202)) || (c =? 8232) || (c =? 8233) || (c =? 8239) || (c =? 8287) || (c =? 12288).

(** Characters [str.splitlines()] ends a line at. *)
Definition is_line_end (c : Z) : bool :=
  ((10 <=? c) && (c <=? 13)) || ((28 <=? c) && (c <=? 30)) || (c =? 133) || (c =? 8232) || (c =? 8233).

Fixpoint split_from (word s : text) : list text :=
  match s with
  | [] => if bool_decide (word = []) then [] else [word]
  | c :: s' =>
      if is_space c then if bool_decide (word = []) then split_from [] s' else word :: split_from [] s'
      else split_from (word ++ [c]) s'
  end.

(** [s.split()] *)
Definition py_split (s : text) : list text := split_from [] s.

Fixpoint lines_from (line s : text) : list text :=
  match s with
  | [] => if bool_decide (line = []) then [] else [line]
  | c :: s' =>
      if is_line_end c then
        line :: match s' with
                | c' :: s'' => if (c =? 13) && (c' =? 10) then lines_from [] s'' else lines_from [] s'
                | [] => lines_from [] s'
                end
      else lines_from (line ++ [c]) s'
  end.

(** [s.splitlines()] *)
Definition py_splitlines (s : text) : list text := lines_from [] s.

(** [fields.index(x)], [None] for a missing element. *)
Fixpoint index_of (x : text) (fields : list text) : option nat :=
  match fields with
  | [] => None
  | y :: fields' => if bool_decide (x = y) then Some O else S <$> index_of x fields'
  end.

(** [re.sub(r"\\([0-7]{3})", lambda m: chr(int(m.group(1), 8)), s)] *)
Definition is_octal (c : Z) : bool := (48 <=? c) && (c <=? 55).

Fixpoint sub_octal (s : text) : text :=
  match s with
  | [] => []
  | c :: s' =>
      match s' with
      | a :: b :: d :: rest =>
          if (c =? 92) && is_octal a && is_octal b && is_octal d
          then (64 * (a - 48) + 8 * (b - 48) + (d - 48)) :: sub_octal rest
          else c :: sub_octal s'
      | _ => c :: sub_octal s'
      end
  end.

(** ** The mount table *)

Definition _decode_mount_field (value : text) : text := sub_octal value.

Definition mount_record (line : text) : option (text * text) :=
  let fields := py_split line in
  match index_of [45] fields with
  | None => None
  | Some separator =>
      match fields !! (separator + 2)%nat, fields !! 2%nat with
      | Some source, Some device => Some (device, _decode_mount_field source)
      | _, _ => None
      end
  end.

(** [mountinfo] is the text of [/proc/self/mountinfo], [None] when reading it
    raises [OSError]. *)
Definition _mount_records (mountinfo : option text) : list (text * text) :=
  match mountinfo with
  | None => []
  | Some content => omap mount_record (py_splitlines content)
  end.

(** ** The check *)

(** What the program uses of [os.stat]: [S_ISBLK(st_mode)] and [st_rdev]. *)
Record stat_result := mkStat { st_isblk : bool; st_rdev : Z }.

(** [os.major], [os.minor] *)
Definition os_major (dev : Z) : Z := Z.lor (Z.land (Z.shiftr dev 8) 4095) (Z.land (Z.shiftr dev 32) 4294963200).
Definition os_minor (dev : Z) : Z := Z.lor (Z.land dev 255) (Z.land (Z.shiftr dev 12) 4294967040).

Section devices.
Context (realpath : text -> result text) (stat : text -> result stat_result) (mountinfo : option text).

Definition device_id_of (target : stat_result) : option text :=
  if st_isblk target
  then Some (of_string (pretty (os_major (st_rdev target))) ++ [58] ++ of_string (pretty (os_minor (st_rdev target))))
  else None.

Fixpoint mounted_loop (real : text) (device_id : option text) (records : list (text * text)) : result bool :=
  match records with
  | [] => Ok false
  | (mounted_id, source) :: rest =>
      if bool_decide (device_id = Some mounted_id) then Ok true else
      if bool_decide (source = []) then mounted_loop real device_id rest else
      match realpath source with
      | Ok resolved => if bool_decide (resolved = real) then Ok true else mounted_loop real device_id rest
      | Raise e => if decide (exn_kind e = OSError) then mounted_loop real device_id rest else Raise e
      end
  end.

Definition is_mounted (path : text) : result bool :=
  real ← realpath path;
  match stat real with
  | Raise e => if decide (exn_kind e = OSError) then Ok false else Raise e
  | Ok target => mounted_loop real (device_id_of target) (_mount_records mountinfo)
  end.

Definition require_unmounted (path : text) (block_device : bool) : result unit :=
  match stat path with
  | Raise e => if decide (exn_kind e = OSError) then raise RuntimeError "cannot inspect target" else Raise e
  | Ok target =>
      check block_device && negb (st_isblk target) # RuntimeError "this operation requires a real block-device partition";
      mounted ← is_mounted path;
      check (mounted : bool) # RuntimeError "the path is mounted; this operation requires an unmounted volume";
      Ok tt
  end.
End devices.

(** ** Lemmas: fields and lines *)

Lemma split_from_word word w rest :
  Forall (fun c => is_space c = false) w -> split_from word (w ++ rest) = split_from (word ++ w) rest.
Proof.
  intros H. revert word. induction H as [|c w Hc H IH]; intros word; cbn [app split_from]; [by rewrite app_nil_r|].
  by rewrite Hc, IH, <- app_assoc.
Qed.

(** Fields joined by single blanks. *)
Fixpoint join (fields : list text) : text :=
  match fields with
  | [] => []
  | [f] => f
  | f :: rest => f ++ 32 :: join rest
  end.

Definition plain (f : text) : Prop := f <> [] /\ Forall (fun c => is_space c = false) f.

Lemma split_join fields : Forall plain fields -> py_split (join fields) = fields.
Proof.
  unfold py_split. induction 1 as [|f fields [Hne Hf] H IH]; [done|].
  destruct fields as [|g fields]; [|change (join (f :: g :: fields)) with (f ++ 32 :: join (g :: fields))].
  - cbn [join]. rewrite <- (app_nil_r f), split_from_word by done. cbn. by rewrite app_nil_r, bool_decide_false.
  - rewrite split_from_word by done. cbn [app]. change (split_from f (32 :: ?s)) with (if bool_decide (f = []) then split_from [] s else f :: split_from [] s).
    rewrite bool_decide_false by done. by rewrite IH.
Qed.

Lemma line_end_space c : is_space c = false -> is_line_end c = false.
Proof. unfold is_space, is_line_end. intros H. bool_to_prop. repeat (apply orb_false_iff; split); try apply andb_false_iff; lia. Qed.

Lemma lines_from_line line l rest :
  Forall (fun c => is_line_end c = false) l -> lines_from line (l ++ 10 :: rest) = (line ++ l) :: lines_from [] rest.
Proof.
  intros H. revert line. induction H as [|c l Hc H IH]; intros line; cbn [app lines_from].
  - rewrite app_nil_r. destruct rest; done.
  - by rewrite Hc, IH, <- app_assoc.
Qed.

Lemma splitlines_concat ls :
  Forall (Forall (fun c => is_line_end c = false)) ls -> py_splitlines (concat (map (fun l => l ++ [10]) ls)) = ls.
Proof.
  unfold py_splitlines. induction 1 as [|l ls Hl H IH]; [done|]. cbn [map concat]. rewrite <- app_assoc. cbn [app].
  rewrite lines_from_line by done. by rewrite IH.
Qed.

Lemma join_no_line_end fields : Forall plain fields -> Forall (fun c => is_line_end c = false) (join fields).
Proof.
  induction 1 as [|f fields [_ Hf] H IH]; [constructor|].
  assert (Forall (fun c => is_line_end c = false) f) as Hf' by (eapply Forall_impl; [exact Hf|]; intros; by apply line_end_space).
  destruct fields as [|g fields]; [done|]. change (join (f :: g :: fields)) with (f ++ 32 :: join (g :: fields)). apply Forall_app_2; [done|]. by constructor.
Qed.

Lemma index_of_app x pre rest : x ∉ pre -> index_of x (pre ++ x :: rest) = Some (length pre).
Proof.
  induction pre as [|y pre IH]; intros H; cbn; [by rewrite bool_decide_true|].
  rewrite bool_decide_false by set_solver. rewrite IH by set_solver. done.
Qed.

(** ** What the kernel prints *)

(** The kernel writes a blank, tab, newline, [#] or backslash of a name as a
    backslash and three octal digits. *)
Definition escaped (c : Z) : bool := (c =? 32) || (c =? 9) || (c =? 10) || (c =? 35) || (c =? 92).

Definition escape_char (c : Z) : text := if escaped c then [92; 48 + c / 64; 48 + c / 8 mod 8; 48 + c mod 8] else [c].
Definition escape (s : text) : text := concat (map escape_char s).

Lemma sub_octal_other c s : c <> 92 -> sub_octal (c :: s) = c :: sub_octal s.
Proof. intros H. destruct s as [|a [|b [|d rest]]]; [done..|]. cbn [sub_octal]. by rewrite (proj2 (Z.eqb_neq c 92)). Qed.

Lemma sub_escape s : sub_octal (escape s) = s.
Proof.
  unfold escape. induction s as [|c s IH]; [done|]. cbn [map concat]. unfold escape_char at 1. destruct (escaped c) eqn:E; unfold escaped in E.
  - assert (c = 32 \/ c = 9 \/ c = 10 \/ c = 35 \/ c = 92) as H by (repeat apply orb_true_iff in E as [E|E]; apply Z.eqb_eq in E; lia).
    destruct H as [->|[->|[->|[->| ->]]]]; (etransitivity; [apply (f_equal (cons _)); exact IH|done]).
  - bool_to_prop. cbn [app]. rewrite sub_octal_other by lia. by rewrite IH.
Qed.

(** One line of the table; [m_options] holds the mount options and the optional
    fields, which the kernel ends with a single hyphen. *)
Record mount_entry := mkEntry {
  m_ids : text * text;
  m_device : text;
  m_root : text;
  m_point : text;
  m_options : list text;
  m_type : text;
  m_source : text;
  m_super : list text
}.

Definition entry_fields (e : mount_entry) : list text :=
  [(m_ids e).1; (m_ids e).2; m_device e; escape (m_root e); escape (m_point e)] ++ m_options e ++
  [[45]; m_type e; escape (m_source e)] ++ m_super e.

Definition print_table (table : list mount_entry) : text := concat (map (fun e => join (entry_fields e) ++ [10]) table).

(** Fields are not empty and hold no white space but what is escaped, and no
    field in front of the separator is a hyphen. *)
Definition proper (e : mount_entry) : Prop :=
  Forall plain (entry_fields e) /\
  [45] ∉ [(m_ids e).1; (m_ids e).2; m_device e; escape (m_root e); escape (m_point e)] ++ m_options e.

#[global] Instance plain_dec f : Decision (plain f).
Proof. unfold plain. apply _. Defined.

#[global] Instance proper_dec e : Decision (proper e).
Proof. unfold proper. apply _. Defined.

Lemma mount_record_entry e : proper e -> mount_record (join (entry_fields e)) = Some (m_device e, m_source e).
Proof.
  intros [Hp Hno]. unfold mount_record. rewrite split_join by done. unfold entry_fields in *. rewrite app_assoc.
  set (pre := [_; _; _; _; _] ++ m_options e) in *. change ([[45]; m_type e; escape (m_source e)] ++ m_super e) with ([45] :: [m_type e; escape (m_source e)] ++ m_super e).
  rewrite index_of_app by done. rewrite lookup_app_r by lia. replace (length pre + 2 - length pre)%nat with 2%nat by lia. cbn [lookup list_lookup app].
  rewrite lookup_app_l by (unfold pre; rewrite length_app; cbn; lia). unfold pre, _decode_mount_field. cbn. by rewrite sub_escape.
Qed.

Lemma mount_records_table table : Forall proper table -> _mount_records (Some (print_table table)) = map (fun e => (m_device e, m_source e)) table.
Proof.
  intros H. unfold _mount_records, print_table.
  change (fun e => join (entry_fields e) ++ [10]) with (fun e => (fun l => l ++ [10]) ((fun e => join (entry_fields e)) e)).
  rewrite <- (map_map (fun e => join (entry_fields e)) (fun l => l ++ [10])), splitlines_concat.
  - induction H as [|e table He H IH]; [done|]. cbn [map omap list_omap]. rewrite mount_record_entry by done. by f_equal.
  - induction H as [|e table [He _] H IH]; constructor; [by apply join_no_line_end|done].
Qed.

(** ** Theorems *)

(** The target is in the table: by device number when it is a block device, or
    by the resolved path of the source. *)
Definition table_has (realpath : text -> result text) (real : text) (target : stat_result) (e : mount_entry) : bool :=
  bool_decide (device_id_of target = Some (m_device e)) || bool_decide (realpath (m_source e) = Ok real).

Lemma mounted_loop_table realpath real target table :
  Forall (fun e => m_source e <> [] /\ forall x, realpath (m_source e) = Raise x -> exn_kind x = OSError) table ->
  mounted_loop realpath real (device_id_of target) (map (fun e => (m_device e, m_source e)) table) = Ok (existsb (table_has realpath real target) table).
Proof.
  induction 1 as [|e table [Hne Hex] H IH]; [done|]. cbn [map mounted_loop existsb]. unfold table_has at 1.
  destruct (bool_decide (device_id_of target = Some (m_device e))); [done|]. rewrite (bool_decide_false (m_source e = [])) by done. cbn [orb].
  destruct (realpath (m_source e)) as [resolved|x] eqn:E.
  - rewrite IH. destruct (decide (resolved = real)) as [->|Hn]; [by rewrite !bool_decide_true|]. rewrite !bool_decide_false by congruence. done.
  - rewrite decide_True by by apply Hex. rewrite IH. rewrite bool_decide_false by done. done.
Qed.


Definition slash (s : string) : text := of_string s.
Definition sample_table : list mount_entry :=
  [mkEntry (slash "22", slash "28") (slash "0:21") (slash "/") (slash "/proc") [slash "rw,nosuid"; slash "shared:5"] (slash "proc") (slash "proc") [slash "rw"];
   mkEntry (slash "29", slash "28") (slash "8:17") (slash "/") (slash "/media/My Disk") [slash "rw"] (slash "ntfs3") (slash "/dev/disk/by-label/My Disk") [slash "rw"; slash "uid=0"]].
Definition sample_real (p : text) : result text :=
  if bool_decide (p = slash "/dev/disk/by-label/My Disk") then Ok (slash "/dev/sdb1") else Ok p.
Definition sample_stat (p : text) : result stat_result := Ok (mkStat true 2065).


(** [require_unmounted] lets a caller pass only if the target can be
    inspected, is a block device when one is demanded, and the mount check
    answered [False]. *)
Theorem require_unmounted_guards (realpath : text -> result text) (stat : text -> result stat_result) (mountinfo : option text)
    (path : text) (block_device : bool) :
  require_unmounted realpath stat mountinfo path block_device = Ok tt <->
  exists target, stat path = Ok target /\ (block_device = true -> st_isblk target = true) /\ is_mounted realpath stat mountinfo path = Ok false.
Proof.
  unfold require_unmounted. destruct (stat path) as [target|e]; [|split; [by destruct (decide _)|by intros (? & ? & _)]].
  destruct block_device, (st_isblk target) eqn:E; cbn [andb negb]; destruct (is_mounted realpath stat mountinfo path) as [[]|e]; cbn;
    (split; [intros H; try discriminate H; exists target; rewrite ?E; done|intros (t & [= <-] & Hb & H); try discriminate H; try done; specialize (Hb eq_refl); congruence]).
Qed.

(** The check fails open: when the mount table cannot be read, every
    target that resolves counts as not mounted, a mounted block device
    included. *)
Theorem unreadable_table_reports_unmounted (realpath : text -> result text) (stat : text -> result stat_result) (path real : text)
    (Hreal : realpath path = Ok real) (Hstat : forall e, stat real = Raise e -> exn_kind e = OSError) :
  is_mounted realpath stat None path = Ok false.
Proof.
  unfold is_mounted. rewrite Hreal. cbn [mbind result_bind]. destruct (stat real) as [target|e] eqn:E; [done|]. by rewrite decide_True by by apply Hstat.
Qed.

Lemma unreadable_table_reports_unmounted_witness :
  is_mounted sample_real sample_stat (Some (print_table sample_table)) (slash "/dev/sdb1") = Ok true /\
  is_mounted sample_real sample_stat None (slash "/dev/sdb1") = Ok false.
Proof.
  split; [vm_compute; reflexivity|].
  apply (unreadable_table_reports_unmounted sample_real sample_stat (slash "/dev/sdb1") (slash "/dev/sdb1")); [reflexivity|]. intros e H. discriminate H.
Defined.
