(* ===== verification/Swap.v ===== *)
(** * The swap map backend

    Models [src/gui/backends/swap.py]: recognising a swap area, its bad-page
    list, the running kernel's usage figures in [/proc/swaps], and the map.
    The kernel's text and [os.path.realpath] are parameters.

    The theorems show that the page ranges tile the area with exactly the bad
    pages marked bad, that a recognised area always gets a map, and that the
    byte totals of an inactive area add up to its size. *)

From S2P Require Import Prelude Text Bytes Ranges RangesFacts AggregateFacts Devices.

Local Open Scope string_scope.
Local Open Scope list_scope.
Local Open Scope Z_scope.

Definition _PAGE_SIZES : list Z := [4096; 8192; 16384; 32768; 65536].
Definition _SIGS : list bytes := [of_string "SWAPSPACE2"; of_string "SWAP-SPACE"].
Definition _PROC_SWAPS : string := "/proc/swaps".
Definition _BADPAGES_OFFSET : Z := 1536.

(** ** Usage reported by the kernel *)

Definition _decode_proc_path (value : text) : text := sub_octal value.

(** The lines of a file opened in text mode, without their ends. *)
Fixpoint file_lines_from (line s : text) : list text :=
  match s with
  | [] => if bool_decide (line = []) then [] else [line]
  | c :: s' =>
      if (c =? 10) || (c =? 13) then
        line :: match s' with
                | c' :: s'' => if (c =? 13) && (c' =? 10) then file_lines_from [] s'' else file_lines_from [] s'
                | [] => file_lines_from [] s'
                end
      else file_lines_from (line ++ [c]) s'
  end.

Section usage.
Context (realpath : text -> result text).

(** The loop over the lines; [OSError] ends it as [pass] does. *)
Fixpoint usage_loop (wanted : text) (lines : list text) : result (option (Z * Z)) :=
  match lines with
  | [] => Ok None
  | line :: rest =>
      match py_split line with
      | f0 :: _ :: f2 :: f3 :: _ :: _ =>
          match realpath (_decode_proc_path f0) with
          | Raise e => if decide (exn_kind e = OSError) then Ok None else Raise e
          | Ok candidate =>
              if negb (bool_decide (candidate = wanted)) then usage_loop wanted rest else
              match py_int f2, py_int f3 with
              | Some a, Some b =>
                  let total := Z.max 0 a * 1024 in
                  let used := Z.max 0 b * 1024 in
                  Ok (Some (total, Z.min used total))
              | _, _ => usage_loop wanted rest
              end
          end
      | _ => usage_loop wanted rest
      end
  end.

(** [proc_swaps] is the text of [/proc/swaps], [None] when opening it fails. *)
Definition _runtime_usage (proc_swaps : option text) (path : text) : result (option (Z * Z)) :=
  wanted ← realpath path;
  match proc_swaps with
  | None => Ok None
  | Some content => usage_loop wanted (tail (file_lines_from [] content))
  end.
End usage.

(** ** Page ranges *)

(** [{p for p in bad_pages if 1 <= p < total_units}], in the order of first
    appearance. *)
Definition bad_set (total_units : Z) (bad_pages : list Z) : list Z :=
  remove_dups (filter (fun p => 1 <= p < total_units) bad_pages).

Fixpoint bad_loop (slot_state cursor : Z) (pages : list Z) : list state_range * Z :=
  match pages with
  | [] => ([], cursor)
  | page_no :: rest =>
      let '(ranges, last) := bad_loop slot_state (page_no + 1) rest in
      ((if cursor <? page_no then [(cursor, page_no, slot_state)] else []) ++ (page_no, page_no + 1, 3) :: ranges, last)
  end.

Definition _state_ranges (total_units : Z) (bad_pages : list Z) (active : bool) : list state_range :=
  if total_units <=? 0 then [(0, 1, 2)] else
  let slot_state := if active then 2 else 0 in
  let '(ranges, cursor) := bad_loop slot_state 1 (py_sorted Z.leb (bad_set total_units bad_pages)) in
  (0, 1, 2) :: ranges ++ (if cursor <? total_units then [(cursor, total_units, slot_state)] else []).

(** ** The header *)

Record swap_header := mkHeader {
  h_page_size : Z;
  h_signature : bytes;
  h_version : Z;
  h_last_page : Z;
  h_bad_pages : list Z;
  h_label : text
}.

Fixpoint until_zero (data : bytes) : bytes :=
  match data with
  | [] => []
  | b :: rest => if b =? 0 then [] else b :: until_zero rest
  end.

Definition parse_header (page_size : Z) (signature header : bytes) : result swap_header :=
  version ← (if 1028 <=? page_size then u32le header 1024 else Ok 0);
  last_page ← (if 1032 <=? page_size then u32le header 1028 else Ok 0);
  badpage_count ← (if 1036 <=? page_size then u32le header 1032 else Ok 0);
  let label := if 1068 <=? page_size then utf8_decode (until_zero (py_slice header 1052 1068)) else [] in
  let max_badpages := Z.max 0 ((page_size - _BADPAGES_OFFSET) / 4) in
  let badpage_count := Z.min badpage_count max_badpages in
  bad_pages ← mapM_result (fun index => u32le header (_BADPAGES_OFFSET + index * 4)) (py_range 0 badpage_count);
  Ok (mkHeader page_size signature version last_page bad_pages label).

Fixpoint header_loop (r : reader) (sizes : list Z) : result swap_header :=
  match sizes with
  | [] => raise BackendError "not a recognised swap area"
  | page_size :: rest =>
      if negb (reader_size r =? 0) && (reader_size r <? page_size) then header_loop r rest else
      match reader_read r (page_size - 10) 10 with
      | Raise e => if decide (exn_kind e = BackendError) then header_loop r rest else Raise e
      | Ok signature =>
          if negb (bool_decide (signature ∈ _SIGS)) then header_loop r rest else
          header ← reader_read r 0 page_size;
          parse_header page_size signature header
      end
  end.

Definition _header (r : reader) : result swap_header := header_loop r _PAGE_SIZES.

(** [opened] is [Reader(path)], which may raise [OSError]. *)
Definition probe (opened : result reader) : result bool :=
  match (r ← opened; _header r) with
  | Ok _ => Ok true
  | Raise e => if decide (exn_kind e = OSError \/ exn_kind e = BackendError) then Ok false else Raise e
  end.

(** ** The map *)

Definition with_bytes (m : map_result) (total used free unknown : Z) (dets : details) : map_result :=
  MapResult (mr_schema m) (mr_backend m) (mr_filesystem m) (mr_accuracy m) (mr_unit_size m) (mr_total_units m) (mr_cell_count m)
    total free used unknown (mr_cells m) dets.

Definition physical_bytes_of (r : reader) (h : swap_header) : Z :=
  if negb (reader_size r =? 0) then reader_size r
  else if negb (h_last_page h =? 0) then (h_last_page h + 1) * h_page_size h else h_page_size h.

Definition map_area (r : reader) (h : swap_header) (cells : Z) (runtime : option (Z * Z)) : result map_result :=
  let page_size := h_page_size h in
  let physical_bytes := physical_bytes_of r h in
  let total_units := Z.max 1 ((physical_bytes + page_size - 1) / page_size) in
  let active := match runtime with Some _ => true | None => false end in
  let ranges := _state_ranges total_units (h_bad_pages h) active in
  result ← aggregate_ranges total_units cells page_size "swap" ranges "summary"
    [("signature", JText (h_signature h)); ("version", JInt (h_version h)); ("last_page", JInt (h_last_page h));
     ("bad_pages", JInt (py_len (h_bad_pages h))); ("label", JText (h_label h)); ("active", JBool active)];
  match runtime with
  | Some (runtime_total, runtime_used) =>
      Ok (with_bytes result runtime_total runtime_used (Z.max 0 (runtime_total - runtime_used)) runtime_total
            (mr_details result ++
             [("usage_source", JStr _PROC_SWAPS); ("used_pages", JInt ((runtime_used + page_size - 1) / page_size));
              ("free_pages", JInt (Z.max 0 (runtime_total - runtime_used) / page_size));
              ("note", JStr "aggregate usage comes from the running kernel; Linux does not expose the physical locations of occupied swap slots")]))
  | None =>
      let bad_bytes := py_len (bad_set total_units (h_bad_pages h)) * page_size in
      Ok (with_bytes result (mr_total_bytes result) 0 (Z.max 0 (physical_bytes - page_size - bad_bytes)) (Z.min (page_size + bad_bytes) physical_bytes)
            (mr_details result ++
             [("usage_source", JStr "inactive swap area"); ("used_pages", JInt 0);
              ("free_pages", JInt (Z.max 0 (total_units - 1 - py_len (h_bad_pages h))));
              ("note", JStr "inactive swap has no occupied slots; the header and bad pages remain reserved")]))
  end.

Definition swap_map (realpath : text -> result text) (proc_swaps : option text) (opened : result reader) (path : text) (cells : Z) : result map_result :=
  r ← opened;
  h ← _header r;
  runtime ← _runtime_usage realpath proc_swaps path;
  map_area r h cells runtime.

(** ** Lemmas: the ranges tile the area *)

Definition slot_of (active : bool) : Z := if active then 2 else 0.

Definition page_state (total_units : Z) (bad_pages : list Z) (active : bool) (x : Z) : Z :=
  if x =? 0 then 2 else if bool_decide (x ∈ bad_set total_units bad_pages) then 3 else slot_of active.

Lemma bad_loop_tiles f slot pages : forall cursor ranges last,
  0 <= slot <= 3 -> StronglySorted Z.lt pages -> Forall (fun p => cursor <= p) pages ->
  (forall x, cursor <= x -> f x = if bool_decide (x ∈ pages) then 3 else slot) ->
  bad_loop slot cursor pages = (ranges, last) -> tiles f cursor last ranges /\ forall x, last <= x -> f x = slot.
Proof.
  induction pages as [|p pages IH]; intros cursor ranges last Hslot Hs Hc Hf H; cbn [bad_loop] in H.
  - injection H as <- <-. split; [done|]. intros x Hx. rewrite Hf, bool_decide_false by (done || apply not_elem_of_nil). done.
  - apply StronglySorted_inv in Hs as [Hs Hp]. apply Forall_cons in Hc as [Hcp Hc]. destruct (bad_loop slot (p + 1) pages) as [rs l] eqn:E. injection H as <- <-.
    rewrite Forall_forall in Hp. destruct (IH (p + 1) rs l Hslot Hs) as [Ht Hl]; [| |done|].
    + apply Forall_forall. intros q Hq. specialize (Hp q Hq). lia.
    + intros x Hx. rewrite Hf by lia. rewrite (bool_decide_ext (x ∈ p :: pages) (x ∈ pages)); [done|]. rewrite elem_of_cons. intuition lia.
    + split; [|done]. apply (tiles_app f cursor p); [|split; [done|]; split; [lia|]; split; [lia|]; split; [|done]].
      * destruct (Z.ltb_spec cursor p); [|cbn; lia]. apply tiles_one; [done|lia|]. intros x Hx. rewrite Hf, bool_decide_false; [done| |lia].
        rewrite elem_of_cons. intros [->|Hq]; [lia|]. specialize (Hp x Hq). lia.
      * intros x Hx. assert (x = p) as -> by lia. rewrite Hf by lia. by rewrite bool_decide_true by set_solver.
Qed.

Lemma bad_loop_last slot limit pages : forall cursor ranges last,
  Forall (fun p => p < limit) pages -> cursor <= limit -> bad_loop slot cursor pages = (ranges, last) -> last <= limit.
Proof.
  induction pages as [|p pages IH]; intros cursor ranges last Hp Hc H; cbn [bad_loop] in H; [by injection H as _ <-|].
  apply Forall_cons in Hp as [Hp Hps]. destruct (bad_loop slot (p + 1) pages) as [r l] eqn:E. injection H as _ <-. eapply IH; [done| |exact E]. lia.
Qed.

Lemma sorted_set_strict l : NoDup l -> StronglySorted Z.lt (py_sorted Z.leb l).
Proof.
  intros Hn. assert (StronglySorted (fun a b => (a <=? b) = true) (py_sorted Z.leb l)) as Hs by (apply py_sorted_sorted; intros; lia).
  assert (NoDup (py_sorted Z.leb l)) as Hnd by by rewrite py_sorted_perm. induction Hs as [|x k Hs IH Hx]; constructor; apply NoDup_cons in Hnd as [Hni Hnd]; [by apply IH|].
  rewrite Forall_forall in Hx |- *. intros y Hy. specialize (Hx y Hy). apply Z.leb_le in Hx. assert (x <> y) by (by intros ->). lia.
Qed.

Lemma state_ranges_tile total_units bad_pages active :
  1 <= total_units -> tiles (page_state total_units bad_pages active) 0 total_units (_state_ranges total_units bad_pages active).
Proof.
  intros Ht. unfold _state_ranges. rewrite (proj2 (Z.leb_gt total_units 0)) by lia. fold (slot_of active).
  assert (0 <= slot_of active <= 3) as Hslot by (destruct active; cbn; lia). set (pages := py_sorted Z.leb (bad_set total_units bad_pages)).
  assert (forall p, p ∈ pages <-> p ∈ bad_set total_units bad_pages) as Hin by (intros p; unfold pages; by rewrite py_sorted_perm).
  assert (forall p, p ∈ bad_set total_units bad_pages -> 1 <= p < total_units) as Hb.
  { intros p Hp. unfold bad_set in Hp. rewrite elem_of_remove_dups in Hp. by apply list_elem_of_filter in Hp as [? _]. }
  destruct (bad_loop (slot_of active) 1 pages) as [ranges last] eqn:E.
  destruct (bad_loop_tiles (page_state total_units bad_pages active) _ pages 1 ranges last Hslot) as [Htl Hl]; [| | |done|].
  - apply sorted_set_strict, NoDup_remove_dups.
  - apply Forall_forall. intros p Hp%Hin%Hb. lia.
  - intros x Hx. unfold page_state. rewrite (proj2 (Z.eqb_neq x 0)) by lia. by rewrite (bool_decide_ext _ _ (Hin x)).
  - assert (last <= total_units) as Hle.
    { eapply bad_loop_last; [|exact Ht|exact E]. apply Forall_forall. intros p Hp%Hin%Hb. lia. }
    change ((0, 1, 2) :: ?r) with ([(0, 1, 2)] ++ r). apply (tiles_app _ 0 1).
    { apply tiles_one; [lia|lia|]. intros x Hx. assert (x = 0) as -> by lia. done. }
    apply (tiles_app _ 1 last); [done|]. pose proof (tiles_le _ _ _ _ Htl). destruct (Z.ltb_spec last total_units); [|cbn; lia].
    apply tiles_one; [done|done|]. intros x Hx. apply Hl. lia.
Qed.

(** A recognised header has one of the page sizes. *)
Lemma header_page_size r sizes h : header_loop r sizes = Ok h -> h_page_size h ∈ sizes.
Proof.
  induction sizes as [|page_size rest IH]; intros H; cbn [header_loop] in H; [done|]. apply elem_of_cons.
  destruct (_ && _); [right; by apply IH|]. destruct (reader_read r (page_size - 10) 10) as [signature|e]; [|destruct (decide _); [right; by apply IH|done]].
  destruct (negb _); [right; by apply IH|]. apply bind_ok in H as (header & _ & H). unfold parse_header in H. inv_ok. by left.
Qed.

Lemma page_size_pos r h : _header r = Ok h -> 4096 <= h_page_size h.
Proof. intros H%header_page_size. unfold _PAGE_SIZES in H. rewrite !elem_of_cons in H. destruct H as [->|[->|[->|[->|[->|H]]]]]; try lia. by apply elem_of_nil in H. Qed.

(** ** Theorems *)

(** A recognised swap area always gets a map, and the map is exact: every
    cell counts page 0 as reserved, the listed bad pages of the area as bad,
    and every other page as free, or as unknown while the area is in use; the
    cells tile the area.  For an area not in use the used bytes are 0 and the
    free and unknown bytes add up to its physical size. *)
Theorem swap_map_exact (r : reader) (h : swap_header) (cells : Z) (runtime : option (Z * Z))
    (Hheader : _header r = Ok h) (Hsize : 0 <= reader_size r) (Hlast : 0 <= h_last_page h) :
  exists m bounds, map_area r h cells runtime = Ok m /\
    let physical := physical_bytes_of r h in
    let total := Z.max 1 ((physical + h_page_size h - 1) / h_page_size h) in
    let active := match runtime with Some _ => true | None => false end in
    chained 0 total bounds /\ py_len bounds = clamp_cells cells total /\
    mr_cells m = map (fun b => counts_cell b (counts_of (page_state total (h_bad_pages h) active) b.1 b.2)) bounds /\
    match runtime with
    | None => mr_used_bytes m = 0 /\ mr_free_bytes m + mr_unknown_bytes m = physical
    | Some (all, used) => mr_total_bytes m = all /\ mr_used_bytes m = used
    end.
Proof.
  pose proof (page_size_pos r h Hheader) as Hp. unfold map_area. cbv zeta. set (physical := physical_bytes_of r h). set (total := Z.max 1 _).
  assert (0 <= physical) as Hph.
  { unfold physical, physical_bytes_of. destruct (Z.eqb_spec (reader_size r) 0); cbn; [|lia]. destruct (Z.eqb_spec (h_last_page h) 0); cbn; nia. }
  set (active := match runtime with Some _ => true | None => false end).
  destruct (aggregate_tiles (page_state total (h_bad_pages h) active) total cells (h_page_size h) "swap" (_state_ranges total (h_bad_pages h) active) "summary"
    [("signature", JText (h_signature h)); ("version", JInt (h_version h)); ("last_page", JInt (h_last_page h));
     ("bad_pages", JInt (py_len (h_bad_pages h))); ("label", JText (h_label h)); ("active", JBool active)])
    as (m & bounds & Hm & Hch & Hlen & Hcells & _); [lia|apply state_ranges_tile; lia|]. rewrite Hm. cbn [mbind result_bind].
  destruct runtime as [[all used]|]; (eexists _, bounds; split; [reflexivity|]; split; [done|]; split; [done|]; split; [done|]); [done|].
  cbn. split; [done|]. lia.
Qed.

Definition swap_image : bytes :=
  py_zeros 1024 ++ [1; 0; 0; 0; 5; 0; 0; 0; 3; 0; 0; 0] ++ py_zeros 500 ++ [2; 0; 0; 0; 4; 0; 0; 0; 2; 0; 0; 0] ++ py_zeros 2538 ++ of_string "SWAPSPACE2" ++ py_zeros 20480.
Definition swap_reader : reader := mkReader swap_image (py_len swap_image).
Definition swap_area : swap_header := mkHeader 4096 (of_string "SWAPSPACE2") 1 5 [2; 4; 2] [].

Lemma swap_map_exact_witness :
  _header swap_reader = Ok swap_area /\
  exists m bounds, map_area swap_reader swap_area 3 None = Ok m /\ chained 0 6 bounds /\ py_len bounds = clamp_cells 3 6 /\
    mr_cells m = map (fun b => counts_cell b (counts_of (page_state 6 [2; 4; 2] false) b.1 b.2)) bounds /\
    mr_used_bytes m = 0 /\ mr_free_bytes m + mr_unknown_bytes m = 24576.
Proof.
  assert (_header swap_reader = Ok swap_area) as Hh by (vm_compute; reflexivity). split; [exact Hh|].
  destruct (swap_map_exact swap_reader swap_area 3 None Hh) as (m & bounds & Hm & H); [vm_compute; discriminate..|].
  exists m, bounds. split; [exact Hm|]. replace (physical_bytes_of swap_reader swap_area) with 24576 in H by (vm_compute; reflexivity). exact H.
Defined.

(** The page figures of an inactive area disagree with its bytes when the
    bad-page list repeats a page: the free bytes leave out each bad page once,
    the [free_pages] detail once for every time it is listed. *)
Theorem swap_free_pages_disagree :
  exists m, map_area swap_reader swap_area 3 None = Ok m /\
    mr_free_bytes m = 3 * 4096 /\ ("free_pages", JInt 2) ∈ mr_details m.
Proof.
  eexists. split; [vm_compute; reflexivity|]. split; [reflexivity|]. cbn [mr_details]. rewrite !elem_of_cons. tauto.
Qed.
