(* ===== verification/SummaryMaps.v ===== *)
(** * Map backends that identify a volume

    Models [src/gui/backends/minix.py], [ufs.py], [zfs.py] and [apfs.py], which
    recognise a volume and report every unit as unknown, and
    [src/gui/backends/fat_common.py], which recognises the FAT width and leaves
    the map to a native program.  The native program and the JSON parser are
    parameters.

    The theorems show that an identifying backend never invents free or used
    space, that a probe answers without raising, and that the three FAT plugins
    never claim the same volume. *)

From stdpp Require Import pretty.
From S2P Require Import Prelude Text Bytes Ranges RangesFacts Bitmap AggregateFacts ReaderFacts.

Local Open Scope string_scope.
Local Open Scope list_scope.
Local Open Scope Z_scope.

(** ** Python functions *)

(** [data.find(magic)]: the first position, or [None] for -1. *)
Fixpoint find_from (magic data : bytes) (i : Z) : option Z :=
  if bool_decide (take (length magic) data = magic) then Some i else
  match data with [] => None | _ :: rest => find_from magic rest (i + 1) end.

Definition find (magic data : bytes) : option Z := find_from magic data 0.

(** One lower-case hexadecimal digit, [bytes.hex] and [hex] of a number that
    is not negative. *)
Definition hex_char (d : Z) : Z := if d <? 10 then 48 + d else 87 + d.

Definition bytes_hex (data : bytes) : text := concat (map (fun b => [hex_char (b / 16); hex_char (b mod 16)]) data).

Fixpoint hex_digits (fuel : nat) (v : Z) (acc : text) : text :=
  match fuel with
  | O => acc
  | S fuel' => let acc := hex_char (v mod 16) :: acc in if v / 16 =? 0 then acc else hex_digits fuel' (v / 16) acc
  end.

Definition py_hex (v : Z) : text := of_string "0x" ++ hex_digits (S (Z.to_nat (Z.log2 v))) v [].

(** [try: ...; return True] with [except (OSError, BackendError): return False]. *)
Definition recognised {A} (found : result A) : result bool :=
  match found with
  | Ok _ => Ok true
  | Raise e => if decide (exn_kind e = OSError \/ exn_kind e = BackendError) then Ok false else Raise e
  end.

(** ** Minix *)

Definition minix_MAGICS : list (Z * string) := [(4991, "v1"); (5007, "v1-30char"); (9320, "v2"); (9336, "v2-30char"); (19802, "v3")].

Definition order := (string * (bytes -> Z))%type.
Definition byte_orders : list order := [("little", le_int); ("big", be_int)].

Fixpoint find_magic (superblock : bytes) (tries : list (order * Z)) : result (Z * string * string) :=
  match tries with
  | [] => raise BackendError "not a recognised Minix filesystem"
  | (o, offset) :: rest =>
      let magic := o.2 (py_slice superblock offset (offset + 2)) in
      match dict_get magic minix_MAGICS with
      | Some variant => Ok (magic, variant, o.1)
      | None => find_magic superblock rest
      end
  end.

Definition minix_read_superblock (r : reader) : result (Z * string * string) :=
  superblock ← reader_read r 1024 64;
  find_magic superblock (concat (map (fun o => map (fun offset => (o, offset)) [16; 24]) byte_orders)).

Definition minix_probe (opened : result reader) : result bool := recognised (r ← opened; minix_read_superblock r).

Definition minix_map (opened : result reader) (cells : Z) : result map_result :=
  r ← opened;
  '(magic, variant, byte_order) ← minix_read_superblock r;
  let unit_size := 1024 in
  let total_units := Z.max 1 ((reader_size r + unit_size - 1) / unit_size) in
  aggregate_ranges total_units cells unit_size "minix" [(0, total_units, 2)] "summary"
    [("magic", JText (py_hex magic)); ("variant", JStr variant); ("byte_order", JStr byte_order);
     ("note", JStr "Minix filesystem detected; zone bitmap location mapping is not yet decoded")].

(** ** UFS *)

Definition _CANDIDATES : list Z := [8192; 65536; 262144].
Definition ufs_MAGICS : list (bytes * string) :=
  [([84; 25; 1; 0], "ufs1-le"); ([0; 1; 25; 84], "ufs1-be"); ([25; 1; 84; 25], "ufs2-le"); ([25; 84; 1; 25], "ufs2-be")].

Fixpoint first_magic (data : bytes) (magics : list (bytes * string)) : option (Z * string) :=
  match magics with
  | [] => None
  | (magic, variant) :: rest =>
      match find magic data with Some position => Some (position, variant) | None => first_magic data rest end
  end.

Fixpoint superblock_loop (r : reader) (candidates : list Z) : result (Z * Z * string) :=
  match candidates with
  | [] => raise BackendError "not a recognised UFS volume"
  | offset :: rest =>
      if negb (reader_size r =? 0) && (reader_size r <=? offset) then superblock_loop r rest else
      let length := if negb (reader_size r =? 0) then Z.min 8192 (Z.max 0 (reader_size r - offset)) else 8192 in
      if length <? 512 then superblock_loop r rest else
      data ← reader_read r offset length;
      match first_magic data ufs_MAGICS with
      | Some (position, variant) => Ok (offset, position, variant)
      | None => superblock_loop r rest
      end
  end.

Definition ufs_find_superblock (r : reader) : result (Z * Z * string) := superblock_loop r _CANDIDATES.

Definition ufs_probe (opened : result reader) : result bool := recognised (r ← opened; ufs_find_superblock r).

Definition ufs_map (opened : result reader) (cells : Z) : result map_result :=
  r ← opened;
  '(offset, position, variant) ← ufs_find_superblock r;
  let unit_size := 512 in
  let total_units := Z.max 1 ((reader_size r + unit_size - 1) / unit_size) in
  aggregate_ranges total_units cells unit_size "ufs" [(0, total_units, 2)] "summary"
    [("variant", JStr variant); ("superblock_offset", JInt offset); ("magic_offset", JInt (offset + position));
     ("note", JStr "UFS detected; cylinder-group allocation locations not yet decoded")].

(** ** ZFS *)

Definition _UBER_MAGIC_LE : bytes := [12; 177; 186; 0; 0; 0; 0; 0].
Definition _UBER_MAGIC_BE : bytes := rev _UBER_MAGIC_LE.
Definition _WINDOW_SIZE : Z := 4 * 1024 * 1024.

Definition windows (size : Z) : list (Z * Z) :=
  if negb (size =? 0) then [(0, Z.min size _WINDOW_SIZE); (Z.max 0 (size - _WINDOW_SIZE), Z.min size _WINDOW_SIZE)]
  else [(0, _WINDOW_SIZE)].

Fixpoint uberblock_loop (r : reader) (ws : list (Z * Z)) : result (Z * string) :=
  match ws with
  | [] => raise BackendError "not a recognised ZFS member"
  | (offset, length) :: rest =>
      if length <? 8 then uberblock_loop r rest else
      data ← reader_read r offset length;
      match find _UBER_MAGIC_LE data with
      | Some position => Ok (offset + position, "little")
      | None =>
          match find _UBER_MAGIC_BE data with
          | Some position => Ok (offset + position, "big")
          | None => uberblock_loop r rest
          end
      end
  end.

Definition _find_uberblock (r : reader) : result (Z * string) := uberblock_loop r (windows (reader_size r)).

Definition zfs_probe (opened : result reader) : result bool := recognised (r ← opened; _find_uberblock r).

Definition zfs_map (opened : result reader) (cells : Z) : result map_result :=
  r ← opened;
  '(position, byte_order) ← _find_uberblock r;
  let unit_size := 512 in
  let total_units := Z.max 1 ((reader_size r + unit_size - 1) / unit_size) in
  aggregate_ranges total_units cells unit_size "zfs" [(0, total_units, 2)] "summary"
    [("uberblock_magic_offset", JInt position); ("byte_order", JStr byte_order);
     ("note", JStr "ZFS member detected; exact allocation requires pool-wide metaslab and space-map traversal")].

(** ** APFS *)

Definition apfs_probe (opened : result reader) : result bool :=
  r ← opened;
  magic ← reader_read r 32 4;
  Ok (bool_decide (magic = of_string "NXSB")).

Definition apfs_map (opened : result reader) (cells : Z) : result map_result :=
  r ← opened;
  superblock ← reader_read r 0 4096;
  check negb (bool_decide (py_slice superblock 32 36 = of_string "NXSB")) # BackendError "not an APFS container";
  block_size ← u32le superblock 36;
  block_count ← u64le superblock 40;
  check (block_size <? 4096) || negb (Z.land block_size (block_size - 1) =? 0) || (block_count =? 0) # BackendError "invalid APFS container geometry";
  aggregate_ranges block_count cells block_size "apfs" [(0, 1, 1); (1, block_count, 2)] "summary"
    [("container_uuid", JText (bytes_hex (py_slice superblock 72 88))); ("note", JStr "APFS spaceman allocation map not yet decoded")].

(** ** FAT *)

Definition fat_probe (fat_bits : Z) (opened : result reader) : result bool :=
  r ← opened;
  boot_sector ← reader_read r 0 512;
  bytes_per_sector ← u16le boot_sector 11;
  sectors_per_cluster ← py_get boot_sector 13;
  reserved ← u16le boot_sector 14;
  fats ← py_get boot_sector 16;
  root_entries ← u16le boot_sector 17;
  total16 ← u16le boot_sector 19;
  total_sectors ← (if total16 =? 0 then u32le boot_sector 32 else Ok total16);
  fat16 ← u16le boot_sector 22;
  fat_sectors ← (if fat16 =? 0 then u32le boot_sector 36 else Ok fat16);
  if (bytes_per_sector =? 0) || (sectors_per_cluster =? 0) || (reserved =? 0) || (fats =? 0) || (total_sectors =? 0) || (fat_sectors =? 0)
  then Ok false else
  let root_sectors := (root_entries * 32 + bytes_per_sector - 1) / bytes_per_sector in
  let data_sectors := total_sectors - (reserved + fats * fat_sectors + root_sectors) in
  let clusters := data_sectors / sectors_per_cluster in
  let detected := if clusters <? 4085 then 12 else if clusters <? 65525 then 16 else 32 in
  Ok (detected =? fat_bits).

(** What a finished process left. *)
Record completed := mkCompleted { returncode : Z; stdout : text; stderr : text }.

Section map.
(** The native scanner started with a command line, and [json.loads], which is
    [None] where it raises [JSONDecodeError]. *)
Context (run : list text -> result completed) (loads : text -> option json).

Definition fat_map (worker path : text) (cells : Z) : result (list (string * json)) :=
  done ← run [worker; of_string "map"; path; of_string "--cells"; of_string (pretty (Z.max 1 cells))];
  check negb (returncode done =? 0) # BackendError "native FAT mapper failed";
  match loads (stdout done) with
  | None => raise BackendError "native FAT mapper returned invalid JSON"
  | Some (JObj result) => Ok result
  | Some _ => raise BackendError "native FAT mapper returned a non-object result"
  end.
End map.

(** ** An identifying map claims nothing *)

(** Every unit of the map is unknown, but for the first [known] ones, which are
    used. *)
Definition unknown_map (known : Z) (m : map_result) : Prop :=
  mr_free_bytes m = 0 /\ mr_used_bytes m = known * mr_unit_size m /\
  Forall (fun c => c_free c = 0 /\ c_bad c = 0 /\ c_used c + c_unknown c = c_end c + 1 - c_start c) (mr_cells m).

Definition from_unit (known x : Z) : Z := if x <? known then 1 else 2.

Lemma from_unit_counts known a b : 0 <= known -> a <= b -> let c := counts_of (from_unit known) a b in n0 c = 0 /\ n3 c = 0 /\ n1 c + n2 c = b - a.
Proof.
  intros Hk Hab c. pose proof (counts_total (from_unit known) a b Hab) as H. fold c in H.
  assert (n0 c = 0) as H0 by (apply count_where_none; intros x _; unfold from_unit; by destruct (x <? known)).
  assert (n3 c = 0) as H3 by (apply count_where_none; intros x _; unfold from_unit; by destruct (x <? known)).
  split; [done|]. split; [done|]. rewrite H0, H3 in H. rewrite <- H; [lia|]. intros x _. unfold from_unit. destruct (x <? known); lia.
Qed.

Lemma aggregate_unknown known total_units cells unit_size filesystem ranges accuracy dets m :
  0 <= known <= total_units -> 1 <= total_units -> (forall x, 0 <= x < total_units -> state_at ranges x = from_unit known x) ->
  aggregate_ranges total_units cells unit_size filesystem ranges accuracy dets = Ok m -> unknown_map known m.
Proof.
  intros Hk Ht Hst H. destruct (aggregate_ranges_facts _ _ _ _ _ _ _ _ Ht H) as (bounds & Hch & _ & Hc & _). destruct (aggregate_totals _ _ _ _ _ _ _ _ Ht H) as (Hf & Hu & _).
  rewrite (counts_of_ext _ (from_unit known) 0 total_units Hst) in Hf, Hu.
  rewrite (counts_of_split _ 0 known), (counts_of_const _ 1 0 known), (counts_of_const _ 2 known) in Hf, Hu by (lia || (intros x Hx; unfold from_unit; destruct (Z.ltb_spec x known); lia)).
  assert (mr_unit_size m = unit_size) as Hsz by (unfold aggregate_ranges in H; apply bind_ok in H as (o & _ & H); destruct (ranges_cells _ _ _); by injection H as <-).
  unfold bump, add_counts, no_counts in Hf, Hu. cbn in Hf, Hu. split; [lia|]. split; [rewrite Hsz; lia|]. rewrite Hc. apply Forall_forall. intros c (b & -> & Hb)%list_elem_of_fmap.
  pose proof (chained_elem _ _ _ _ Hch Hb) as [? ?]. pose proof (chained_nonempty _ _ _ _ Hch Hb). rewrite (counts_of_ext _ (from_unit known) b.1 b.2) by (intros x Hx; apply Hst; lia).
  destruct (from_unit_counts known b.1 b.2) as (? & ? & ?); [lia|lia|]. unfold counts_cell. cbn [c_free c_bad c_used c_unknown c_end c_start]. lia.
Qed.

Lemma all_unknown total_units x : 0 <= x < total_units -> state_at [(0, total_units, 2)] x = from_unit 0 x.
Proof. intros Hx. unfold from_unit. cbn. rewrite (proj2 (Z.leb_le 0 x)), (proj2 (Z.ltb_lt x total_units)), (proj2 (Z.ltb_ge x 0)) by lia. done. Qed.

(** The backends that only identify a volume invent no allocation: in the
    maps of MINIX, UFS and ZFS every unit is unknown and no byte is free or
    used; in the map of an APFS container only block zero, which holds the
    superblock, is used and no byte is free. *)
Theorem identified_maps_unknown (r : reader) (cells : Z) (m : map_result) (Hbytes : wf_bytes (reader_dev r))
    (Hmap : minix_map (Ok r) cells = Ok m \/ ufs_map (Ok r) cells = Ok m \/ zfs_map (Ok r) cells = Ok m \/ apfs_map (Ok r) cells = Ok m) :
  unknown_map (if bool_decide (mr_filesystem m = "apfs") then 1 else 0) m.
Proof.
  assert (forall t c u f rs a d, aggregate_ranges t c u f rs a d = Ok m -> mr_filesystem m = f) as Hfs.
  { intros t c u f rs a d H. unfold aggregate_ranges in H. apply bind_ok in H as (o & _ & H). destruct (ranges_cells _ _ _). by injection H as <-. }
  destruct Hmap as [H|[H|[H|H]]]; cbn [mbind result_bind] in H.
  - apply bind_ok in H as ([[magic variant] order] & _ & H). rewrite (Hfs _ _ _ _ _ _ _ H). cbn. apply (aggregate_unknown 0) in H; [exact H|lia|lia|apply all_unknown].
  - apply bind_ok in H as ([[off pos] variant] & _ & H). rewrite (Hfs _ _ _ _ _ _ _ H). cbn. apply (aggregate_unknown 0) in H; [exact H|lia|lia|apply all_unknown].
  - apply bind_ok in H as ([pos order] & _ & H). rewrite (Hfs _ _ _ _ _ _ _ H). cbn. apply (aggregate_unknown 0) in H; [exact H|lia|lia|apply all_unknown].
  - unfold apfs_map in H. cbn [mbind result_bind] in H. apply bind_ok in H as (sb & Hsb & H). pose proof (read_wf _ _ _ _ Hbytes Hsb) as Hw. destruct (negb _) in H; [done|].
    apply bind_ok in H as (bs & _ & H). apply bind_ok in H as (bc & Hbc & H). apply unpack_le_bounds in Hbc as [Hb0 _]; [|done|lia|lia]. destruct (_ || _) eqn:E in H; [done|]. bool_to_prop.
    rewrite (Hfs _ _ _ _ _ _ _ H). cbn. apply (aggregate_unknown 1) in H; [exact H|lia|lia|]. intros x Hx. cbn. unfold from_unit.
    destruct (Z.ltb_spec x 1); [rewrite (proj2 (Z.leb_le 0 x)) by lia; done|]. rewrite andb_false_r. rewrite (proj2 (Z.leb_le 1 x)), (proj2 (Z.ltb_lt x bc)) by lia. done.
Qed.

Definition minix_image : bytes := image_of 2048 [lefield 1040 2 4991].

Lemma identified_maps_unknown_witness : exists m, minix_map (Ok (mkReader minix_image 2048)) 4 = Ok m /\ unknown_map 0 m.
Proof.
  eexists. split; [vm_compute; reflexivity|]. refine (identified_maps_unknown (mkReader minix_image 2048) 4 _ _ _); [|left; vm_compute; reflexivity].
  apply (bool_decide_unpack _). vm_compute. exact I.
Defined.

(** ** Probes *)

(** The three FAT plugins never claim the same volume: a volume one of them
    recognises is recognised for exactly one width, whatever it holds. *)
Theorem fat_width_unique (r : reader) (a b : Z) (Ha : fat_probe a (Ok r) = Ok true) : fat_probe b (Ok r) = Ok (b =? a) /\ a ∈ [12; 16; 32].
Proof.
  unfold fat_probe in *. cbn [mbind result_bind] in *.
  repeat match goal with H : mbind _ ?m = Ok true |- _ => let x := fresh "x" in let E := fresh "E" in destruct m as [x|] eqn:E; [|done]; cbn [mbind result_bind] in * end.
  destruct (_ || _) in Ha |- *; [done|]. injection Ha as Ha%Z.eqb_eq. rewrite Ha, Z.eqb_sym. split; [done|]. rewrite <- Ha. destruct (_ <? 4085); [set_solver|]. destruct (_ <? 65525); set_solver.
Qed.

Definition fat_image : bytes := image_of 512 [lefield 11 2 512; lefield 13 1 1; lefield 14 2 1; lefield 16 1 2; lefield 17 2 16; lefield 19 2 2880; lefield 22 2 9].

Lemma fat_width_unique_witness : fat_probe 16 (Ok (mkReader fat_image 512)) = Ok false /\ 12 ∈ [12; 16; 32].
Proof. apply (fat_width_unique (mkReader fat_image 512) 12 16). vm_compute. reflexivity. Defined.
