(* ===== verification/Xfs.v ===== *)
(** * The XFS map backend

    Models [src/gui/backends/xfs.py]: the superblock geometry, the walks of the
    free-space, inode and extent B+trees, the decoding of extent records, the
    scan of all inodes and the map.

    A device is read through [reader_read].  A walker of extent trees keeps a
    counter of the blocks it has read, also when it raises, so its operations
    pass the counter along ([counted]). *)

From S2P Require Import Prelude Text Bytes Ranges.

Local Open Scope string_scope.
Local Open Scope list_scope.
Local Open Scope Z_scope.

Definition _XFS_SB_MAGIC : bytes := of_string "XFSB".
Definition _XFS_AGF_MAGIC : bytes := of_string "XAGF".
Definition _XFS_AGI_MAGIC : bytes := of_string "XAGI".
Definition _XFS_ABTB_MAGIC : bytes := of_string "ABTB".
Definition _XFS_ABTB_CRC_MAGIC : bytes := of_string "AB3B".
Definition _XFS_IBT_MAGIC : bytes := of_string "IABT".
Definition _XFS_IBT_CRC_MAGIC : bytes := of_string "IAB3".
Definition _XFS_BMAP_MAGIC : bytes := of_string "BMAP".
Definition _XFS_BMAP_CRC_MAGIC : bytes := of_string "BMA3".
Definition _XFS_DINODE_MAGIC : Z := 18766.

Definition _XFS_DINODE_FMT_LOCAL : Z := 1.
Definition _XFS_DINODE_FMT_EXTENTS : Z := 2.
Definition _XFS_DINODE_FMT_BTREE : Z := 3.
Definition _XFS_DIFLAG_REALTIME : Z := 1.
Definition _XFS_DIFLAG2_NREXT64 : Z := 16.
Definition _XFS_SB_FEAT_INCOMPAT_SPINODES : Z := 2.

Definition _MAX_BTREE_LEVEL : Z := 16.
Definition _MAX_BTREE_BLOCKS : Z := 8000000.
Definition _MAX_INODES : Z := 100000000.
Definition _MAX_EXTENTS_PER_INODE : Z := 16000000.

Definition S_IFMT (mode : Z) : Z := Z.land mode 61440.
Definition S_IFREG : Z := 32768.
Definition S_IFDIR : Z := 16384.

(** ** Extent records *)

Record Extent := mkExtent { e_logical : Z; e_physical : Z; e_length : Z; e_unwritten : bool }.

#[global] Instance Extent_eq_dec : EqDecision Extent.
Proof. solve_decision. Defined.

Definition _decode_bmbt_record (data : bytes) (offset agblocks agblklog dblocks : Z) : result Extent :=
  check (offset <? 0) || (py_len data <? offset + 16) # BackendError "truncated XFS extent record";
  l0 ← u64be data offset;
  l1 ← u64be data (offset + 8);
  let unwritten := negb (Z.shiftr l0 63 =? 0) in
  let logical := Z.shiftr (Z.land l0 (Z.shiftl 1 63 - 1)) 9 in
  let fsblock := Z.lor (Z.shiftl (Z.land l0 511) 43) (Z.shiftr l1 21) in
  let len := Z.land l1 (Z.shiftl 1 21 - 1) in
  let agno := Z.shiftr fsblock agblklog in
  let agbno := Z.land fsblock (Z.shiftl 1 agblklog - 1) in
  let physical := agno * agblocks + agbno in
  check (len <=? 0) || (physical <? 0) || (dblocks <? physical + len) || (agblocks <=? agbno)
    # BackendError "XFS extent points outside the data device";
  Ok (mkExtent logical physical len unwritten).

(** [output] is kept reversed. *)
Definition coalesce_extent (acc : list Extent * Z) (extent : Extent) : result (list Extent * Z) :=
  let '(output, previous_logical_end) := acc in
  check e_logical extent <? previous_logical_end # BackendError "overlapping XFS file extents";
  let output :=
    match output with
    | old :: rest =>
        if (e_logical old + e_length old =? e_logical extent) && (e_physical old + e_length old =? e_physical extent) &&
           Bool.eqb (e_unwritten old) (e_unwritten extent)
        then mkExtent (e_logical old) (e_physical old) (e_length old + e_length extent) (e_unwritten old) :: rest
        else extent :: output
    | [] => [extent]
    end in
  Ok (output, e_logical extent + e_length extent).

Definition logical_leb (a b : Extent) : bool := e_logical a <=? e_logical b.

Definition _coalesce_extents (extents : list Extent) : result (list Extent) :=
  acc ← foldM coalesce_extent ([], -1) (py_sorted logical_leb extents);
  Ok (reverse acc.1).

(** ** Geometry *)

Record XfsGeometry := mkGeometry {
  block_size : Z; dblocks : Z; rblocks : Z; agblocks : Z; agcount : Z; version : Z; sector_size : Z; inode_size : Z;
  inopblock : Z; blocklog : Z; sectlog : Z; inodelog : Z; inopblog : Z; agblklog : Z; icount : Z; ifree : Z; fdblocks : Z;
  incompat : Z
}.

Definition v5 (g : XfsGeometry) : bool := version g =? 5.
Definition sparse_inodes (g : XfsGeometry) : bool := negb (Z.land (incompat g) _XFS_SB_FEAT_INCOMPAT_SPINODES =? 0).
Definition has_realtime_device (g : XfsGeometry) : bool := negb (rblocks g =? 0).

(** [n & (n - 1)] *)
Definition mixed_bits (n : Z) : bool := negb (Z.land n (n - 1) =? 0).

Definition geometry_check (g : XfsGeometry) (reader_size : Z) : result unit :=
  check (block_size g <? 512) || (65536 <? block_size g) || mixed_bits (block_size g) # BackendError "unsupported XFS block size";
  check (dblocks g <=? 0) || ((0 <? reader_size) && (reader_size <? dblocks g * block_size g)) # BackendError "invalid XFS data-device size";
  check (agblocks g <=? 0) || (agcount g <=? 0) # BackendError "invalid XFS allocation-group geometry";
  check (sector_size g <? 512) || (block_size g <? sector_size g) || mixed_bits (sector_size g) # BackendError "unsupported XFS sector size";
  check (inode_size g <? 256) || (block_size g <? inode_size g) || mixed_bits (inode_size g) # BackendError "unsupported XFS inode size";
  check negb (inopblock g =? block_size g / inode_size g) # BackendError "inconsistent XFS inode geometry";
  check negb (Z.shiftl 1 (blocklog g) =? block_size g) || negb (Z.shiftl 1 (inopblog g) =? inopblock g)
    # BackendError "inconsistent XFS logarithmic geometry";
  check (agblklog g <=? 0) || (32 <? agblklog g) # BackendError "unsupported XFS allocation-group address width";
  Ok tt.

Definition XfsGeometry_init (superblock : bytes) (reader_size : Z) : result XfsGeometry :=
  block_size ← u32be superblock 4;
  dblocks ← u64be superblock 8;
  rblocks ← u64be superblock 16;
  agblocks ← u32be superblock 84;
  agcount ← u32be superblock 88;
  version ← u16be superblock 100;
  sector_size ← u16be superblock 102;
  inode_size ← u16be superblock 104;
  inopblock ← u16be superblock 106;
  blocklog ← py_get superblock 120;
  sectlog ← py_get superblock 121;
  inodelog ← py_get superblock 122;
  inopblog ← py_get superblock 123;
  agblklog ← py_get superblock 124;
  icount ← u64be superblock 128;
  ifree ← u64be superblock 136;
  fdblocks ← u64be superblock 144;
  incompat ← (if 220 <=? py_len superblock then u32be superblock 216 else Ok 0);
  let g := mkGeometry block_size dblocks rblocks agblocks agcount (Z.land version 15) sector_size inode_size inopblock blocklog sectlog
             inodelog inopblog agblklog icount ifree fdblocks incompat in
  _ ← geometry_check g reader_size;
  Ok g.

Definition ag_length (g : XfsGeometry) (agno : Z) : Z := Z.max 0 (Z.min (agblocks g) (dblocks g - agno * agblocks g)).
Definition ag_offset (g : XfsGeometry) (agno agbno : Z) : Z := (agno * agblocks g + agbno) * block_size g.

(** ** Short-pointer B+trees *)

Section short_btree.
Context (r : reader) (g : XfsGeometry) (agno : Z) (magics : bytes * bytes) (key_size ptr_size record_size : Z).

Definition child_pointer (raw : bytes) (ptr_base index : Z) : result Z :=
  let pos := ptr_base + index * ptr_size in
  child ← (if ptr_size =? 4 then u32be raw pos else u64be raw pos);
  check (child <=? 0) || (ag_length g agno <=? child) # BackendError "XFS B+tree child points outside its allocation group";
  Ok child.

(** One block: the records of a leaf or the children of a node. *)
Definition btree_block (blocks_read agbno : Z) : result (bytes + list Z) :=
  raw ← reader_read r (ag_offset g agno agbno) (block_size g);
  let magic := py_slice raw 0 4 in
  check negb (bool_decide (magic = magics.1 \/ magic = magics.2)) # BackendError "invalid XFS allocation-group B+tree magic";
  let header := if bool_decide (magic = magics.2) then 56 else 16 in
  level ← u16be raw 4;
  nrecs ← u16be raw 6;
  check _MAX_BTREE_LEVEL <? level # BackendError "invalid XFS B+tree level";
  check _MAX_BTREE_BLOCKS <? blocks_read + 1 # BackendError "XFS B+tree traversal exceeded the safety limit";
  if level =? 0 then
    check block_size g <? header + nrecs * record_size # BackendError "truncated XFS B+tree leaf";
    Ok (inl (py_slice raw header (header + nrecs * record_size)))
  else
    let maxrecs := (block_size g - header) / (key_size + ptr_size) in
    check (nrecs <=? 0) || (maxrecs <? nrecs) # BackendError "invalid XFS B+tree node record count";
    let ptr_base := header + maxrecs * key_size in
    children ← mapM_result (child_pointer raw ptr_base) (py_range 0 nrecs);
    Ok (inr children).

(** [stack] has its top at the head; [output] is kept reversed. *)
Fixpoint leaves_loop (fuel : nat) (output : list bytes) (stack visited : list Z) (blocks_read : Z) : result (list bytes * Z) :=
  match stack with
  | [] => Ok (reverse output, blocks_read)
  | agbno :: stack =>
      match fuel with
      | O => raise OutOfFuel "leaves"
      | S fuel' =>
          check bool_decide (agbno ∈ visited) # BackendError "loop in XFS allocation-group B+tree";
          block ← btree_block blocks_read agbno;
          match block with
          | inl leaf => leaves_loop fuel' (leaf :: output) stack (agbno :: visited) (blocks_read + 1)
          | inr children => leaves_loop fuel' output (children ++ stack) (agbno :: visited) (blocks_read + 1)
          end
      end
  end.

(** Blocks are visited once and lie in the group: its length bounds the loop. *)
Definition leaves (root : Z) : result (list bytes * Z) :=
  check (root <=? 0) || (ag_length g agno <=? root) # BackendError "XFS B+tree root points outside its allocation group";
  leaves_loop (Z.to_nat (ag_length g agno)) [] [root] [] 0.
End short_btree.

(** ** Extent trees *)

(** Operations of [_BmapWalker]: the counter survives an exception. *)
Definition counted (A : Type) : Type := Z -> Z * result A.

Definition cret {A} (a : A) : counted A := fun n => (n, Ok a).
Definition clift {A} (x : result A) : counted A := fun n => (n, x).
Definition cbind {A B} (m : counted A) (k : A -> counted B) : counted B :=
  fun n => match m n with (n', Ok a) => k a n' | (n', Raise e) => (n', Raise e) end.

Notation "'let+' x ':=' m 'in' k" := (cbind m (fun x => k))
  (at level 200, x pattern, m at level 100, k at level 200, right associativity) : py_scope.

Fixpoint cflatmap {A B} (f : A -> counted (list B)) (l : list A) : counted (list B) :=
  match l with
  | [] => cret []
  | x :: l' => let+ ys := f x in let+ rest := cflatmap f l' in cret (ys ++ rest)
  end.

Section bmap.
Context (r : reader) (g : XfsGeometry).

(** [_external] with an expected level, as every call has it. *)
Fixpoint _external (expected_level : nat) (fsblock : Z) : counted (list Extent) :=
  let agno := Z.shiftr fsblock (agblklog g) in
  let agbno := Z.land fsblock (Z.shiftl 1 (agblklog g) - 1) in
  let physical := agno * agblocks g + agbno in
  if (agcount g <=? agno) || (ag_length g agno <=? agbno) || (dblocks g <=? physical)
  then clift (raise BackendError "XFS bmap B+tree block points outside the filesystem") else
  let+ raw := clift (reader_read r (physical * block_size g) (block_size g)) in
  let magic := py_slice raw 0 4 in
  if negb (bool_decide (magic = _XFS_BMAP_MAGIC \/ magic = _XFS_BMAP_CRC_MAGIC))
  then clift (raise BackendError "invalid XFS bmap B+tree magic") else
  let header := if bool_decide (magic = _XFS_BMAP_CRC_MAGIC) then 72 else 24 in
  let+ level := clift (u16be raw 4) in
  let+ nrecs := clift (u16be raw 6) in
  if (_MAX_BTREE_LEVEL <? level) || negb (level =? Z.of_nat expected_level)
  then clift (raise BackendError "invalid XFS bmap tree level") else
  let+ _ := (fun n => (n + 1, if _MAX_BTREE_BLOCKS <? n + 1 then raise BackendError "XFS bmap traversal exceeded the safety limit" else Ok tt)) in
  match expected_level with
  | O =>
      if block_size g <? header + nrecs * 16 then clift (raise BackendError "truncated XFS bmap leaf") else
      clift (mapM_result (fun index => _decode_bmbt_record raw (header + index * 16) (agblocks g) (agblklog g) (dblocks g)) (py_range 0 nrecs))
  | S level' =>
      let maxrecs := (block_size g - header) / 16 in
      if (nrecs <=? 0) || (maxrecs <? nrecs) then clift (raise BackendError "invalid XFS bmap node record count") else
      let ptr_base := header + maxrecs * 8 in
      cflatmap (fun index => let+ child := clift (u64be raw (ptr_base + index * 8)) in _external level' child) (py_range 0 nrecs)
  end.

Definition inode_fork (inode : bytes) (core_size fork_size data_format nextents : Z) : counted (list Extent) :=
  if (fork_size <? 0) || (py_len inode <? core_size + fork_size) then clift (raise BackendError "invalid XFS inode fork geometry") else
  let fork := py_slice inode core_size (core_size + fork_size) in
  if data_format =? _XFS_DINODE_FMT_LOCAL then cret [] else
  if data_format =? _XFS_DINODE_FMT_EXTENTS then
    if (_MAX_EXTENTS_PER_INODE <? nextents) || (py_len fork <? nextents * 16) then clift (raise BackendError "invalid XFS direct extent count") else
    clift (extents ← mapM_result (fun index => _decode_bmbt_record fork (index * 16) (agblocks g) (agblklog g) (dblocks g)) (py_range 0 nextents);
           _coalesce_extents extents)
  else if negb (data_format =? _XFS_DINODE_FMT_BTREE) then clift (raise BackendError "unsupported XFS inode data-fork format") else
  if py_len fork <? 4 then clift (raise BackendError "truncated XFS inode bmap root") else
  let+ level := clift (u16be fork 0) in
  let+ nrecs := clift (u16be fork 2) in
  if (level <=? 0) || (_MAX_BTREE_LEVEL <? level) then clift (raise BackendError "invalid XFS inode bmap root level") else
  let maxrecs := (py_len fork - 4) / 16 in
  if (nrecs <=? 0) || (maxrecs <? nrecs) then clift (raise BackendError "invalid XFS inode bmap root count") else
  let ptr_base := 4 + maxrecs * 8 in
  let+ extents := cflatmap (fun index => let+ child := clift (u64be fork (ptr_base + index * 8)) in _external (Z.to_nat (level - 1)) child) (py_range 0 nrecs) in
  let+ extents := clift (_coalesce_extents extents) in
  if negb (nextents =? 0) && (nextents <? py_len extents)
  then clift (raise BackendError "XFS inode extent tree exceeds its recorded extent count") else
  cret extents.
End bmap.

(** ** Free space *)

Record ag_detail := mkAg {
  ag_number : Z; ag_blocks : Z; ag_free_blocks : Z; ag_recorded_free_blocks : Z; ag_longest_free_extent : Z; ag_free_extents : Z;
  ag_free_count_matches_agf : bool
}.

(** Free ranges (in order), free blocks, end of the last record and count. *)
Record free_acc := mkFree { f_ranges : list range; f_free : Z; f_previous_end : Z; f_extents : Z }.

Definition free_record (g : XfsGeometry) (agno ag_len : Z) (block : bytes) (acc : free_acc) (pos : Z) : result free_acc :=
  start ← u32be block pos;
  len ← u32be block (pos + 4);
  check (len <=? 0) || (start <? 0) || (ag_len <? start + len) || (start <? f_previous_end acc)
    # BackendError "invalid XFS free-space record in allocation group";
  Ok (mkFree (f_ranges acc ++ [(agno * agblocks g + start, agno * agblocks g + start + len)])
        (f_free acc + len) (start + len) (f_extents acc + 1)).

(** [range(0, len(block), step)] *)
Definition positions (block : bytes) (step : Z) : list Z := map (fun i => i * step) (py_range 0 ((py_len block + step - 1) / step)).

Definition free_records (g : XfsGeometry) (agno ag_len : Z) (ranges : list range) (records : list bytes) : result free_acc :=
  foldM (fun acc block => foldM (free_record g agno ag_len block) acc (positions block 8)) (mkFree ranges 0 (-1) 0) records.

Definition ag_free_space (r : reader) (g : XfsGeometry) (agno ag_len : Z) (ranges : list range) : result (list range * ag_detail * Z) :=
  agf ← reader_read r (ag_offset g agno 0 + sector_size g) (sector_size g);
  number ← (if bool_decide (py_slice agf 0 4 = _XFS_AGF_MAGIC) then u32be agf 8 else Ok 0);
  check negb (bool_decide (py_slice agf 0 4 = _XFS_AGF_MAGIC)) || negb (number =? agno) # BackendError "invalid XFS AGF header for allocation group";
  recorded_len ← u32be agf 12;
  root ← u32be agf 16;
  freeblks ← u32be agf 52;
  longest ← u32be agf 56;
  check negb (recorded_len =? ag_len) # BackendError "XFS allocation group has inconsistent length";
  '(records, blocks) ← leaves r g agno (_XFS_ABTB_MAGIC, _XFS_ABTB_CRC_MAGIC) 8 4 8 root;
  acc ← free_records g agno ag_len ranges records;
  Ok (f_ranges acc, mkAg agno ag_len (f_free acc) freeblks longest (f_extents acc) (f_free acc =? freeblks), blocks).

(** The groups, until one is empty. *)
Fixpoint free_space_loop (r : reader) (g : XfsGeometry) (ranges : list range) (ags : list ag_detail) (btree_blocks : Z) (agnos : list Z)
    : result (list range * list ag_detail * Z) :=
  match agnos with
  | [] => Ok (ranges, ags, btree_blocks)
  | agno :: rest =>
      let ag_len := ag_length g agno in
      if ag_len <=? 0 then Ok (ranges, ags, btree_blocks) else
      '(ranges, ag, blocks) ← ag_free_space r g agno ag_len ranges;
      free_space_loop r g ranges (ags ++ [ag]) (btree_blocks + blocks) rest
  end.

Definition _free_space (r : reader) (g : XfsGeometry) : result (list range * list ag_detail * Z) :=
  '(free_ranges, ags, btree_blocks) ← free_space_loop r g [] [] 0 (py_range 0 (agcount g));
  Ok (merge_ranges free_ranges, ags, btree_blocks).

(** ** Inodes *)

Definition inode_record (g : XfsGeometry) (block : bytes) (pos : Z) : result (Z * Z * Z) :=
  startino ← u32be block pos;
  '(holemask, count) ← (if sparse_inodes g
                        then (holemask ← u16be block (pos + 4); count ← py_get block (pos + 6); Ok (holemask, count))
                        else Ok (0, 64));
  free_mask ← u64be block (pos + 8);
  check 64 <? count # BackendError "invalid XFS inode-chunk count";
  Ok (startino, holemask, free_mask).

Definition _inode_records (r : reader) (g : XfsGeometry) (agno : Z) : result (list (Z * Z * Z) * Z) :=
  agi ← reader_read r (ag_offset g agno 0 + 2 * sector_size g) (sector_size g);
  number ← (if bool_decide (py_slice agi 0 4 = _XFS_AGI_MAGIC) then u32be agi 8 else Ok 0);
  check negb (bool_decide (py_slice agi 0 4 = _XFS_AGI_MAGIC)) || negb (number =? agno) # BackendError "invalid XFS AGI header for allocation group";
  root ← u32be agi 20;
  '(blocks, blocks_read) ← leaves r g agno (_XFS_IBT_MAGIC, _XFS_IBT_CRC_MAGIC) 4 4 16 root;
  records ← mapM_result (fun block => mapM_result (inode_record g block) (positions block 16)) blocks;
  Ok (concat records, blocks_read).

Record scan := mkScan {
  x_regular_files : Z; x_directories : Z; x_fragmented_files : Z; x_fragmented_directories : Z;
  x_inodes_scanned : Z; x_malformed_inodes : Z; x_realtime_inodes : Z; x_inobt_blocks : Z;
  x_fragmented_ranges : list range; x_directory_ranges : list range
}.

Definition scan_start : scan := mkScan 0 0 0 0 0 0 0 0 [] [].

Definition count_malformed (s : scan) : scan :=
  mkScan (x_regular_files s) (x_directories s) (x_fragmented_files s) (x_fragmented_directories s) (x_inodes_scanned s)
    (x_malformed_inodes s + 1) (x_realtime_inodes s) (x_inobt_blocks s) (x_fragmented_ranges s) (x_directory_ranges s).

Definition count_type (file_type scanned realtime : Z) (s : scan) : scan :=
  mkScan (if file_type =? S_IFREG then x_regular_files s + 1 else x_regular_files s)
    (if file_type =? S_IFREG then x_directories s else x_directories s + 1)
    (x_fragmented_files s) (x_fragmented_directories s) (x_inodes_scanned s + scanned) (x_malformed_inodes s)
    (x_realtime_inodes s + realtime) (x_inobt_blocks s) (x_fragmented_ranges s) (x_directory_ranges s).

Definition count_extents (file_type : Z) (extents : list Extent) (s : scan) : scan :=
  let physical := map (fun e => (e_physical e, e_physical e + e_length e)) extents in
  let fragmented := 1 <? py_len extents in
  let dir := file_type =? S_IFDIR in
  mkScan (x_regular_files s) (x_directories s)
    (if negb dir && fragmented then x_fragmented_files s + 1 else x_fragmented_files s)
    (if dir && fragmented then x_fragmented_directories s + 1 else x_fragmented_directories s)
    (x_inodes_scanned s) (x_malformed_inodes s) (x_realtime_inodes s) (x_inobt_blocks s)
    (if fragmented then x_fragmented_ranges s ++ physical else x_fragmented_ranges s)
    (if dir then x_directory_ranges s ++ physical else x_directory_ranges s).

Definition add_inobt (blocks : Z) (s : scan) : scan :=
  mkScan (x_regular_files s) (x_directories s) (x_fragmented_files s) (x_fragmented_directories s) (x_inodes_scanned s)
    (x_malformed_inodes s) (x_realtime_inodes s) (x_inobt_blocks s + blocks) (x_fragmented_ranges s) (x_directory_ranges s).

(** One inode image. *)
Definition scan_inode (r : reader) (g : XfsGeometry) (inode : bytes) (s : scan) : counted scan :=
  let+ magic := clift (u16be inode 0) in
  if negb (magic =? _XFS_DINODE_MAGIC) then cret (count_malformed s) else
  let+ mode := clift (u16be inode 2) in
  let file_type := S_IFMT mode in
  if negb ((file_type =? S_IFREG) || (file_type =? S_IFDIR)) then cret s else
  let+ version := clift (py_get inode 4) in
  let+ data_format := clift (py_get inode 5) in
  if negb (bool_decide (version ∈ [1; 2; 3])) then cret (count_malformed s) else
  let core_size := if version =? 3 then 176 else 100 in
  let+ forkoff := clift (py_get inode 82) in
  let fork_end := if negb (forkoff =? 0) then forkoff * 8 else inode_size g in
  let fork_size := fork_end - core_size in
  let+ flags := clift (u16be inode 90) in
  let+ flags2 := clift (if version =? 3 then u64be inode 120 else Ok 0) in
  if negb (Z.land flags _XFS_DIFLAG_REALTIME =? 0) then cret (count_type file_type 0 1 s) else
  let+ nextents := clift (if negb (Z.land flags2 _XFS_DIFLAG2_NREXT64 =? 0) then u64be inode 24 else u32be inode 76) in
  let s := count_type file_type 1 0 s in
  fun n =>
    match inode_fork r g inode core_size fork_size data_format nextents n with
    | (n', Ok extents) => (n', Ok (count_extents file_type extents s))
    | (n', Raise e) =>
        if decide (exn_kind e = BackendError \/ exn_kind e = ValueError) then (n', Ok (count_malformed s)) else (n', Raise e)
    end.

Definition bit_set (mask i : Z) : bool := negb (Z.land mask (Z.shiftl 1 i) =? 0).

(** One index of an inode chunk. *)
Definition scan_index (r : reader) (g : XfsGeometry) (agno ag_len : Z) (record : Z * Z * Z) (s : scan) (index : Z) : counted scan :=
  let '(startino, holemask, free_mask) := record in
  if bit_set holemask (index / 4) then cret s else
  if bit_set free_mask index then cret s else
  let agino := startino + index in
  let agbno := Z.shiftr agino (inopblog g) in
  let inode_index := Z.land agino (inopblock g - 1) in
  if ag_len <=? agbno then cret (count_malformed s) else
  let offset := ag_offset g agno agbno + inode_index * inode_size g in
  let+ inode := clift (reader_read r offset (inode_size g)) in
  scan_inode r g inode s.

Fixpoint cfold {A S} (body : S -> A -> counted S) (s : S) (l : list A) : counted S :=
  match l with
  | [] => cret s
  | x :: l' => let+ s' := body s x in cfold body s' l'
  end.

Definition scan_group (r : reader) (g : XfsGeometry) (s : scan) (agno : Z) : counted scan :=
  let+ (records, blocks) := clift (_inode_records r g agno) in
  cfold (fun s record => cfold (scan_index r g agno (ag_length g agno) record) s (py_range 0 64)) (add_inobt blocks s) records.

(** The scan and the final count of extent-tree blocks. *)
Definition _scan_inodes (r : reader) (g : XfsGeometry) : result (scan * Z) :=
  check _MAX_INODES <? Z.max 0 (icount g - ifree g) # BackendError "XFS allocated-inode count exceeds the native analyser safety limit";
  let '(bmap_blocks, x) := cfold (scan_group r g) scan_start (py_range 0 (agcount g)) 0 in
  s ← x;
  Ok (mkScan (x_regular_files s) (x_directories s) (x_fragmented_files s) (x_fragmented_directories s) (x_inodes_scanned s)
        (x_malformed_inodes s) (x_realtime_inodes s) (x_inobt_blocks s) (merge_ranges (x_fragmented_ranges s)) (merge_ranges (x_directory_ranges s)),
      bmap_blocks).

(** ** The backend *)

Definition probe (opened : result reader) : result bool :=
  r ← opened;
  head ← reader_read r 0 4;
  Ok (bool_decide (head = _XFS_SB_MAGIC)).

Definition ag_json (a : ag_detail) : json :=
  JObj [("ag", JInt (ag_number a)); ("blocks", JInt (ag_blocks a)); ("free_blocks", JInt (ag_free_blocks a));
        ("recorded_free_blocks", JInt (ag_recorded_free_blocks a)); ("longest_free_extent", JInt (ag_longest_free_extent a));
        ("free_extents", JInt (ag_free_extents a)); ("free_count_matches_agf", JBool (ag_free_count_matches_agf a))].

Definition geometry_details (g : XfsGeometry) (ags : list ag_detail) (bnobt_blocks : Z) : details :=
  [("block_size", JInt (block_size g)); ("sector_size", JInt (sector_size g)); ("inode_size", JInt (inode_size g));
   ("allocation_group_blocks", JInt (agblocks g)); ("allocation_groups", JList (map ag_json ags)); ("bnobt_blocks", JInt bnobt_blocks);
   ("superblock_free_blocks", JInt (fdblocks g)); ("free_space_basis", JStr "XFS per-allocation-group block-number free-space B+trees")].

Definition scan_details (s : scan) (bmap_blocks fragmented_blocks directory_blocks : Z) : details :=
  [("fragmentation_available", JBool true); ("fragmentation_basis", JStr "XFS inode B+trees and data-fork extent maps");
   ("inodes_scanned", JInt (x_inodes_scanned s)); ("malformed_inodes", JInt (x_malformed_inodes s));
   ("realtime_inodes_not_mapped", JInt (x_realtime_inodes s)); ("inobt_blocks", JInt (x_inobt_blocks s)); ("bmap_blocks", JInt bmap_blocks);
   ("fragmented_blocks_mapped", JInt fragmented_blocks); ("directory_blocks_mapped", JInt directory_blocks)].

(** The part of [map] behind the free-space walk. *)
Definition finish_map (m : map_result) (scanned : result (scan * Z)) : result files_map :=
  match scanned with
  | Raise e =>
      if decide (exn_kind e = BackendError)
      then Ok (FilesMap (with_cells m (mr_cells m) (mr_details m ++ [("fragmentation_available", JBool false); ("fragmentation_note", JStr (exn_msg e))])) None)
      else Raise e
  | Ok (s, bmap_blocks) =>
      let '(cells1, fragmented_blocks) := overlay_ranges (mr_cells m) (x_fragmented_ranges s) FFragmented in
      let '(cells2, directory_blocks) := overlay_ranges cells1 (x_directory_ranges s) FDirectory in
      Ok (FilesMap (with_cells m cells2 (mr_details m ++ scan_details s bmap_blocks fragmented_blocks directory_blocks))
            (Some (FileCounts (x_regular_files s) (x_directories s) (x_fragmented_files s) (x_fragmented_directories s)
                     (100 * x_fragmented_files s, Z.max 1 (x_regular_files s)))))
  end.

Definition state_ranges (free_ranges used_ranges : list range) : list state_range :=
  map (fun x => (x.1, x.2, 0)) free_ranges ++ map (fun x => (x.1, x.2, 1)) used_ranges.

Definition xfs_map (opened : result reader) (cells : Z) : result files_map :=
  r ← opened;
  superblock ← reader_read r 0 512;
  check negb (bool_decide (py_slice superblock 0 4 = _XFS_SB_MAGIC)) # BackendError "not an XFS volume";
  g ← XfsGeometry_init superblock (reader_size r);
  '(free_ranges, ags, bnobt_blocks) ← _free_space r g;
  used_ranges ← complement_ranges (dblocks g) free_ranges;
  m ← aggregate_ranges (dblocks g) cells (block_size g) "xfs" (state_ranges free_ranges used_ranges) "exact" (geometry_details g ags bnobt_blocks);
  finish_map m (_scan_inodes r g).
