(* ===== verification/XfsFacts.v ===== *)
(** * Correctness of the XFS analysis

    Facts about [Xfs]: extent records decode what the disk format encodes, the
    B+tree walks terminate and return the leaves of the tree in order, merging
    extents keeps the mapping of every block, the free-space map counts every
    block exactly once, and whatever an XFS volume holds, the analysis raises
    nothing but [BackendError] once the free space is read. *)

From S2P Require Import Prelude Text Bytes Ranges RangesFacts AggregateFacts ReaderFacts Xfs.

Local Open Scope Z_scope.

(** ** Geometry *)

Record geometry_ok (g : XfsGeometry) : Prop := mkGeometryOk {
  go_block : 512 <= block_size g;
  go_dblocks : 0 < dblocks g;
  go_ag : 0 < agblocks g;
  go_sector : 512 <= sector_size g;
  go_inode : 256 <= inode_size g;
  go_inopblock : 0 < inopblock g;
  go_agblklog : 0 < agblklog g <= 32
}.

Lemma geometry_checked g size : geometry_check g size = Ok tt -> geometry_ok g.
Proof.
  unfold geometry_check. intros H. do 8 (match type of H with (if ?b then _ else _) = _ => destruct b eqn:?; [done|] end). bool_to_prop.
  assert (0 < inopblock g) as Hi.
  { match goal with H : inopblock g = _ |- _ => rewrite H end. apply Z.div_str_pos. lia. }
  constructor; lia.
Qed.

Lemma ag_length_bounds g agno : 0 <= ag_length g agno /\ (0 < agblocks g -> 0 < ag_length g agno -> ag_length g agno <= agblocks g /\ agno * agblocks g + ag_length g agno <= dblocks g).
Proof. unfold ag_length. lia. Qed.

(** ** Short-pointer B+trees *)

Section leaves.
Context (r : reader) (g : XfsGeometry) (agno : Z) (magics : bytes * bytes) (key_size ptr_size record_size : Z).
Hypothesis Hg : geometry_ok g.
Hypothesis Hw : wf_bytes (reader_dev r).
Hypothesis Hkey : 0 <= key_size.
Hypothesis Hptr : ptr_size = 4 \/ ptr_size = 8.
Hypothesis Hrec : 0 < record_size.

Local Notation block := (btree_block r g agno magics key_size ptr_size record_size).
Local Notation loop := (leaves_loop r g agno magics key_size ptr_size record_size).
Local Notation inside x := (0 < x < ag_length g agno).

Lemma child_inside raw base index c : child_pointer g agno ptr_size raw base index = Ok c -> inside c.
Proof. unfold child_pointer. intros H. inv_ok. bool_to_prop. lia. Qed.

(** What a block holds: records of full length, or pointers into the group. *)
(** What a block holds: records of full length, or pointers into the group. *)
Lemma block_facts n x y : block n x = Ok y ->
  match y with
  | inl leaf => wf_bytes leaf /\ exists k, 0 <= k /\ py_len leaf = k * record_size
  | inr children => Forall (fun c => inside c) children
  end.
Proof.
  pose proof (go_block g Hg) as Hb. unfold btree_block. intros H. apply bind_ok in H as (raw & Hraw & H). pose proof (read_wf _ _ _ _ Hw Hraw) as Hwr.
  apply read_len in Hraw; [|lia].
  set (header := if bool_decide (py_slice raw 0 4 = magics.2) then 56 else 16) in *. assert (0 <= header) by (unfold header; destruct (bool_decide _); lia).
  destruct (negb _); [done|]. apply bind_ok in H as (level & _ & H). apply bind_ok in H as (nrecs & Hn & H).
  apply unpack_be_bounds in Hn; [|done|lia|lia]. destruct (_ <? level); [done|]. destruct (_ <? n + 1); [done|]. destruct (level =? 0).
  - destruct (Z.ltb_spec (block_size g) (header + nrecs * record_size)); [done|]. injection H as <-. split; [by apply wf_bytes_slice|]. exists nrecs.
    split; [lia|]. rewrite py_len_slice by nia. lia.
  - destruct (_ || _); [done|]. apply bind_ok in H as (children & Hc & H). injection H as <-. apply mapM_result_Forall2 in Hc.
    apply Forall_forall. intros c Hin. apply list_elem_of_lookup in Hin as [i Hi]. eapply Forall2_lookup_r in Hi as (index & _ & Hp); [|exact Hc].
    eapply child_inside. exact Hp.
Qed.

Lemma block_raises n x : backend_only (block n x).
Proof.
  pose proof (go_block g Hg) as Hb. unfold btree_block. apply bo_bind; [auto with raises|]. intros raw Hraw. pose proof (read_wf _ _ _ _ Hw Hraw) as Hwr.
  apply read_len in Hraw; [|lia].
  set (header := if bool_decide (py_slice raw 0 4 = magics.2) then 56 else 16) in *. assert (0 <= header <= 56) by (unfold header; destruct (bool_decide _); lia).
  apply bo_if; intros _; [apply bo_raise|]. apply bo_bind; [apply bo_unpack; lia|]. intros level _. apply bo_bind; [apply bo_unpack; lia|]. intros nrecs Hn.
  repeat (apply bo_if; intros ?; [apply bo_raise || (apply bo_if; intros ?; [apply bo_raise|apply bo_ok])|]). bool_to_prop. apply bo_bind; [|intros; apply bo_ok]. apply bo_mapM. intros index Hi%elem_of_py_range.
  unfold child_pointer. apply bo_bind; [|intros; apply bo_if; intros _; [apply bo_raise|apply bo_ok]].
  assert (0 < key_size + ptr_size) by lia. pose proof (Z.mul_div_le (block_size g - header) (key_size + ptr_size)).
  destruct Hptr as [-> | ->]; cbn [Z.eqb Pos.eqb]; apply bo_unpack; nia.
Qed.

(** The loop visits every block of the group at most once. *)
Lemma loop_raises fuel : forall output stack visited n,
  NoDup visited -> Forall (fun c => inside c) visited -> Forall (fun c => inside c) stack ->
  ag_length g agno <= Z.of_nat fuel + py_len visited -> backend_only (loop fuel output stack visited n).
Proof.
  induction fuel as [|fuel IH]; intros output stack visited n Hnd Hv Hst Hf; destruct stack as [|x stack]; try (destruct output; apply bo_ok); cbn [leaves_loop].
  - exfalso. apply Forall_cons in Hst as [Hx _]. assert (visited ⊆+ py_range 1 (ag_length g agno)) as Hsub.
    { apply NoDup_submseteq; [done|]. rewrite Forall_forall in Hv. intros y Hy. apply elem_of_py_range. specialize (Hv y Hy). lia. }
    apply submseteq_length in Hsub. pose proof (py_len_range 1 (ag_length g agno)). unfold py_len in *. lia.
  - apply Forall_cons in Hst as [Hx Hst]. apply bo_if; intros Hin; [apply bo_raise|]. apply bool_decide_eq_false in Hin.
    apply bo_bind; [apply block_raises|]. intros y Hy. apply block_facts in Hy.
    assert (NoDup (x :: visited) /\ Forall (fun c => inside c) (x :: visited)) as [Hnd' Hv'] by (split; constructor; done).
    destruct y as [leaf|children]; apply IH; try done; rewrite ?py_len_cons; try lia. by apply Forall_app_2.
Qed.

Lemma leaves_raises root : backend_only (leaves r g agno magics key_size ptr_size record_size root).
Proof.
  unfold leaves. apply bo_if; intros H; [apply bo_raise|]. bool_to_prop. apply loop_raises; [constructor|constructor|by repeat constructor|].
  unfold py_len. cbn [length]. lia.
Qed.

(** ** The leaves of the tree, in order *)

(** [subtree x ls bs]: the tree below block [x] has the leaves [ls], from left
    to right, and occupies the blocks [bs]. *)
Inductive subtree : Z -> list bytes -> list Z -> Prop :=
  | subtree_leaf n x leaf : block n x = Ok (inl leaf) -> subtree x [leaf] [x]
  | subtree_node n x children parts :
      block n x = Ok (inr children) -> Forall2 (fun c part => subtree c part.1 part.2) children parts ->
      subtree x (concat (map fst parts)) (x :: concat (map snd parts)).

Lemma loop_walks fuel : forall output stack visited n ls n',
  loop fuel output stack visited n = Ok (ls, n') ->
  exists parts, Forall2 (fun c part => subtree c part.1 part.2) stack parts /\ ls = reverse output ++ concat (map fst parts) /\
    n' = n + py_len (concat (map snd parts)) /\ NoDup (concat (map snd parts)) /\ Forall (fun x => x ∉ visited) (concat (map snd parts)).
Proof.
  induction fuel as [|fuel IH]; intros output stack visited n ls n' H; destruct stack as [|x stack]; cbn [leaves_loop] in H; try done.
  1,2: injection H as <- <-; exists []; split; [constructor|]; split; [by rewrite app_nil_r|]; split; [unfold py_len; cbn; lia|]; split; constructor.
  destruct (bool_decide _) eqn:Hin; [done|]. apply bool_decide_eq_false in Hin. apply bind_ok in H as (y & Hy & H). destruct y as [leaf|children].
  - apply IH in H as (parts & HF & -> & -> & Hnd & Hv). exists (([leaf], [x]) :: parts). split; [constructor; [by econstructor|done]|].
    cbn [map concat fst snd app]. split; [by rewrite reverse_cons, <- app_assoc|]. split; [rewrite py_len_cons; lia|].
    split; [apply NoDup_cons|constructor; [done|]].
    + split; [|done]. intros Hx. rewrite Forall_forall in Hv. specialize (Hv x Hx). set_solver.
    + eapply Forall_impl; [exact Hv|]. cbn. set_solver.
  - apply IH in H as (parts & HF & -> & -> & Hnd & Hv). apply Forall2_app_inv_l in HF as (p1 & p2 & H1 & H2 & ->).
    exists ((concat (map fst p1), x :: concat (map snd p1)) :: p2). split; [constructor; [by econstructor|done]|].
    rewrite !map_app, !concat_app in *. cbn [map concat fst snd app]. split; [done|]. split; [rewrite !py_len_cons, !py_len_app; lia|].
    split; [apply NoDup_cons|constructor; [done|]].
    + split; [|done]. intros Hx. rewrite Forall_forall in Hv. specialize (Hv x Hx). set_solver.
    + eapply Forall_impl; [exact Hv|]. cbn. set_solver.
Qed.

Lemma leaves_walk root ls n : leaves r g agno magics key_size ptr_size record_size root = Ok (ls, n) ->
  exists bs, subtree root ls bs /\ NoDup bs /\ n = py_len bs.
Proof.
  unfold leaves. destruct (_ || _); [done|]. intros H. apply loop_walks in H as (parts & HF & -> & -> & Hnd & _).
  apply Forall2_cons_inv_l in HF as (part & rest & Hs & HF & ->). apply Forall2_nil_inv_l in HF as ->. exists part.2.
  cbn [map concat] in *. rewrite !app_nil_r in *. split; [done|]. split; [done|]. lia.
Qed.

(** Leaves hold whole records. *)
Lemma subtree_records x ls bs : subtree x ls bs -> Forall (fun l => wf_bytes l /\ exists k, 0 <= k /\ py_len l = k * record_size) ls.
Proof.
  revert x ls bs. fix IH 4. intros x ls bs [n x' leaf Hb|n x' children parts Hb HF].
  - apply Forall_singleton. exact (block_facts _ _ _ Hb).
  - clear Hb. induction HF as [|c part children parts Hc HF IHF]; [constructor|]. cbn [map concat]. apply Forall_app_2; [exact (IH _ _ _ Hc)|exact IHF].
Qed.
End leaves.

(** ** Extent records *)

(** The disk format: 1 bit unwritten, 54 bits logical block, 52 bits physical
    block (group and block in the group), 21 bits length, big-endian. *)
Definition encode_extent (logical fsblock len : Z) (unwritten : bool) : bytes :=
  be_digits 8 ((if unwritten then 2 ^ 63 else 0) + logical * 2 ^ 9 + fsblock / 2 ^ 43) ++ be_digits 8 (fsblock mod 2 ^ 43 * 2 ^ 21 + len).

Lemma u64be_at pre v post : 0 <= v < 2 ^ 64 -> u64be (pre ++ be_digits 8 v ++ post) (py_len pre) = Ok v.
Proof.
  intros H. pose proof (py_len_nonneg pre). unfold u64be. rewrite unpack_from_ok; [|lia|lia|rewrite !py_len_app, py_len_be_digits; pose proof (py_len_nonneg post); lia].
  f_equal. assert (py_slice (pre ++ be_digits 8 v ++ post) (py_len pre) (py_len pre + 8) = be_digits 8 v) as ->; [|by apply be_int_digits].
  rewrite py_slice_nonneg by lia. pose proof (py_len_be_digits 8 v) as Hl. unfold py_len in *. rewrite Nat2Z.id.
  replace (Z.to_nat (Z.of_nat (length pre) + 8) - length pre)%nat with (length (be_digits 8 v)) by lia.
  by rewrite drop_app_length, take_app_length.
Qed.

Lemma lor_shift a b k : 0 <= k -> 0 <= b < 2 ^ k -> Z.lor (Z.shiftl a k) b = a * 2 ^ k + b.
Proof.
  intros Hk Hb. rewrite <- Z.add_nocarry_lor; [by rewrite Z.shiftl_mul_pow2|]. apply Z.bits_inj'. intros i Hi. rewrite Z.land_spec, Z.bits_0.
  destruct (Z.lt_ge_cases i k); [by rewrite Z.shiftl_spec_low|]. assert (Z.testbit b i = false) as ->; [|by rewrite andb_false_r].
  apply Z.testbit_false; [lia|]. rewrite Z.div_small; [done|]. split; [lia|]. eapply Z.lt_le_trans; [apply Hb|]. apply Z.pow_le_mono_r; lia.
Qed.

Lemma decode_extent_at pre post logical fsblock len unwritten ab log db :
  0 <= logical < 2 ^ 54 -> 0 <= fsblock < 2 ^ 52 -> 0 <= len < 2 ^ 21 -> 0 <= log ->
  let agno := fsblock / 2 ^ log in
  let agbno := fsblock mod 2 ^ log in
  let physical := agno * ab + agbno in
  0 < len -> 0 <= physical -> physical + len <= db -> agbno < ab ->
  _decode_bmbt_record (pre ++ encode_extent logical fsblock len unwritten ++ post) (py_len pre) ab log db =
  Ok (mkExtent logical physical len unwritten).
Proof.
  intros Hl Hf Hn Hlog agno agbno physical Hn0 Hp Hend Hab. unfold _decode_bmbt_record, encode_extent. rewrite <- app_assoc.
  set (l0 := (if unwritten then 2 ^ 63 else 0) + logical * 2 ^ 9 + fsblock / 2 ^ 43). set (l1 := fsblock mod 2 ^ 43 * 2 ^ 21 + len).
  assert (0 <= fsblock / 2 ^ 43 < 2 ^ 9) as Hfh by (split; [apply Z.div_pos; lia|apply Z.div_lt_upper_bound; lia]).
  assert (0 <= fsblock mod 2 ^ 43 < 2 ^ 43) as Hfl by (apply Z.mod_pos_bound; lia).
  assert (0 <= l0 < 2 ^ 64) as H0 by (unfold l0; destruct unwritten; lia). assert (0 <= l1 < 2 ^ 64) as H1 by (unfold l1; lia).
  pose proof (py_len_nonneg pre). pose proof (py_len_nonneg post). rewrite (proj2 (Z.ltb_ge _ 0)), (proj2 (Z.ltb_ge _ (py_len pre + 16))); [|rewrite !py_len_app, !py_len_be_digits; lia|lia].
  cbn [orb]. rewrite u64be_at by done. cbn [mbind result_bind]. rewrite app_assoc.
  replace (py_len pre + 8) with (py_len (pre ++ be_digits 8 l0)) by (rewrite py_len_app, py_len_be_digits; lia). rewrite u64be_at by done. cbn [mbind result_bind]. cbv zeta.
  change (Z.shiftl 1 63 - 1) with (Z.ones 63). change (Z.shiftl 1 21 - 1) with (Z.ones 21). change 511 with (Z.ones 9).
  replace (Z.shiftl 1 log - 1) with (Z.ones log) by (rewrite Z.ones_equiv, Z.shiftl_1_l; lia).
  rewrite !Z.land_ones, !Z.shiftr_div_pow2 by lia.
  assert (l0 mod 2 ^ 9 = fsblock / 2 ^ 43) as ->.
  { symmetry. apply (Z.mod_unique _ _ ((if unwritten then 2 ^ 54 else 0) + logical)); [lia|]. unfold l0. destruct unwritten; lia. }
  assert (l1 / 2 ^ 21 = fsblock mod 2 ^ 43) as -> by (symmetry; apply (Z.div_unique _ _ _ len); [lia|unfold l1; lia]).
  rewrite lor_shift by lia. assert (fsblock / 2 ^ 43 * 2 ^ 43 + fsblock mod 2 ^ 43 = fsblock) as -> by (rewrite (Z.mul_comm _ (2 ^ 43)); symmetry; apply Z.div_mod; lia).
  assert (l1 mod 2 ^ 21 = len) as -> by (symmetry; apply (Z.mod_unique _ _ (fsblock mod 2 ^ 43)); [lia|unfold l1; lia]).
  assert (l0 mod 2 ^ 63 / 2 ^ 9 = logical) as ->.
  { assert (l0 mod 2 ^ 63 = logical * 2 ^ 9 + fsblock / 2 ^ 43) as ->
      by (symmetry; apply (Z.mod_unique _ _ (if unwritten then 1 else 0)); [lia|unfold l0; destruct unwritten; lia]).
    symmetry. apply (Z.div_unique _ _ _ (fsblock / 2 ^ 43)); lia. }
  assert (negb (l0 / 2 ^ 63 =? 0) = unwritten) as ->.
  { assert (l0 / 2 ^ 63 = if unwritten then 1 else 0) as -> by (symmetry; apply (Z.div_unique _ _ _ (logical * 2 ^ 9 + fsblock / 2 ^ 43)); [lia|unfold l0; destruct unwritten; lia]).
    by destruct unwritten. }
  fold agno agbno. fold physical. by rewrite (proj2 (Z.leb_gt len 0)), (proj2 (Z.ltb_ge physical 0)), (proj2 (Z.ltb_ge db _)), (proj2 (Z.leb_gt ab agbno)) by lia.
Qed.

(** ** Merging extents *)

(** The extents map the logical block [x] to the physical block and state [v]. *)
Definition maps (es : list Extent) (x : Z) (v : Z * bool) : Prop :=
  Exists (fun e => e_logical e <= x < e_logical e + e_length e /\ v = (e_physical e + (x - e_logical e), e_unwritten e)) es.

Definition extent_end (e : Extent) : Z := e_logical e + e_length e.

(** [b] continues [a], on disk as in the file. *)
Definition continues (a b : Extent) : Prop :=
  extent_end a = e_logical b /\ e_physical a + e_length a = e_physical b /\ e_unwritten a = e_unwritten b.

(** Neighbours in order, and none continues the one before. *)
Definition fragment_pair (a b : Extent) : Prop := extent_end a <= e_logical b /\ ~ continues a b.

Fixpoint linked {A} (R : A -> A -> Prop) (l : list A) : Prop :=
  match l with
  | a :: ((b :: _) as rest) => R a b /\ linked R rest
  | _ => True
  end.

Lemma linked_snoc {A} (R : A -> A -> Prop) l a b : linked R (l ++ [a]) -> R a b -> linked R ((l ++ [a]) ++ [b]).
Proof.
  induction l as [|x l IH]; [done|]. intros H Hab. destruct l as [|y l]; cbn [app linked] in *; [tauto|]. split; [tauto|]. apply IH; tauto.
Qed.

Lemma linked_replace {A} (R : A -> A -> Prop) l a b : linked R (l ++ [a]) -> (forall x, R x a -> R x b) -> linked R (l ++ [b]).
Proof.
  induction l as [|x l IH]; [done|]. intros H Hab. destruct l as [|y l]; cbn [app linked] in *; [split; [apply Hab; tauto|done]|].
  split; [tauto|]. apply IH; [tauto|done].
Qed.

Lemma maps_app a b x v : maps (a ++ b) x v <-> maps a x v \/ maps b x v.
Proof. apply Exists_app. Qed.

Lemma maps_cons e es x v : maps (e :: es) x v <-> (e_logical e <= x < extent_end e /\ v = (e_physical e + (x - e_logical e), e_unwritten e)) \/ maps es x v.
Proof. apply Exists_cons. Qed.

Record coalesce_inv (seen output : list Extent) (pend : Z) : Prop := mkCoalesce {
  ci_maps : forall x v, maps output x v <-> maps seen x v;
  ci_linked : linked fragment_pair (reverse output);
  ci_end : match output with [] => pend = -1 /\ seen = [] | e :: _ => extent_end e = pend /\ 0 < e_length e end
}.

Lemma coalesce_step seen output pend e output' pend' :
  coalesce_inv seen output pend -> 0 <= e_logical e -> 0 < e_length e -> coalesce_extent (output, pend) e = Ok (output', pend') ->
  coalesce_inv (seen ++ [e]) output' pend' /\ pend <= e_logical e /\ pend' = extent_end e.
Proof.
  intros [Hm Hl He] H0 Hlen H. unfold coalesce_extent in H. destruct (Z.ltb_spec (e_logical e) pend) as [|Hle]; [done|]. injection H as <- <-.
  split; [|done]. destruct output as [|old rest].
  { destruct He as [-> ->]. constructor; [done|done|]. by split. }
  destruct He as [He Hlo]. destruct ((_ =? _) && _ && _) eqn:E.
  - bool_to_prop. match goal with Hu : Bool.eqb _ _ = true |- _ => apply Bool.eqb_prop in Hu end. constructor.
    + intros x v. rewrite maps_app, <- Hm, !maps_cons. unfold extent_end in *. cbn [e_logical e_physical e_length e_unwritten].
      pose proof (Exists_nil (fun e => e_logical e <= x < e_logical e + e_length e /\ v = (e_physical e + (x - e_logical e), e_unwritten e))) as Hnil.
      fold (maps [] x v) in Hnil. split.
      * intros [[Hx ->]|Hr]; [|tauto]. destruct (Z.lt_ge_cases x (e_logical old + e_length old)); [left; left; split; [lia|done]|].
        right. left. split; [lia|]. f_equal; [lia|done].
      * intros [[[Hx ->]|Hr]|[[Hx ->]|Hr]]; [left; split; [lia|done]|tauto|left; split; [lia|]; f_equal; [lia|done]|tauto].
    + rewrite reverse_cons in Hl |- *. eapply linked_replace; [exact Hl|]. intros x [Hx Hn]. split; [done|]. intros (C1 & C2 & C3). by apply Hn.
    + unfold extent_end in *. cbn. lia.
  - constructor.
    + intros x v. rewrite maps_app, <- Hm, !maps_cons.
      pose proof (Exists_nil (fun e => e_logical e <= x < e_logical e + e_length e /\ v = (e_physical e + (x - e_logical e), e_unwritten e))) as Hnil.
      fold (maps [] x v) in Hnil. tauto.
    + rewrite (reverse_cons (old :: rest)), reverse_cons. apply linked_snoc; [by rewrite reverse_cons in Hl|]. split; [unfold extent_end in *; lia|].
      intros (C1 & C2 & C3). unfold extent_end in *. rewrite (proj2 (Z.eqb_eq _ _) C1), (proj2 (Z.eqb_eq _ _) C2), C3, Bool.eqb_reflx in E. done.
    + done.
Qed.

Definition extents_apart (a b : Extent) : Prop := extent_end a <= e_logical b \/ extent_end b <= e_logical a.

Lemma coalesce_fold es : forall seen output pend acc,
  Forall (fun e => 0 <= e_logical e /\ 0 < e_length e) es -> coalesce_inv seen output pend -> foldM coalesce_extent (output, pend) es = Ok acc ->
  coalesce_inv (seen ++ es) acc.1 acc.2 /\ Forall (fun e => pend <= e_logical e) es /\ StronglySorted (fun a b => extent_end a <= e_logical b) es.
Proof.
  induction es as [|e es IH]; intros seen output pend acc Hes Hinv H; cbn [foldM] in H.
  { injection H as <-. rewrite app_nil_r. split; [done|]. split; constructor. }
  apply Forall_cons in Hes as [[He0 Hel] Hes]. apply bind_ok in H as ([o' p'] & Hs & H).
  destruct (coalesce_step _ _ _ _ _ _ Hinv He0 Hel Hs) as (Hinv' & Hle & ->). destruct (IH _ _ _ _ Hes Hinv' H) as (Hfin & Hall & Hsrt).
  rewrite <- app_assoc in Hfin. split; [done|]. split; [|by constructor]. constructor; [done|]. eapply Forall_impl; [exact Hall|]. cbn. unfold extent_end. lia.
Qed.

Lemma coalesce_accepts es : forall output pend, Forall (fun e => pend <= e_logical e) es -> StronglySorted (fun a b => extent_end a <= e_logical b) es ->
  exists acc, foldM coalesce_extent (output, pend) es = Ok acc.
Proof.
  induction es as [|e es IH]; intros output pend Hp Hs; [by eexists|]. cbn [foldM]. apply Forall_cons in Hp as [Hp _]. apply StronglySorted_inv in Hs as [Hs He].
  unfold coalesce_extent at 2. rewrite (proj2 (Z.ltb_ge _ pend)) by lia. cbn [mbind result_bind]. by apply IH.
Qed.

Lemma logical_sorted es : StronglySorted (fun a b => e_logical a <= e_logical b) (py_sorted logical_leb es).
Proof.
  eapply StronglySorted_impl; [|apply (py_sorted_sorted logical_leb)]; unfold logical_leb; [intros a b H; by apply Z.leb_le|intros; lia|intros; lia].
Qed.

Lemma coalesce_facts es : Forall (fun e => 0 <= e_logical e /\ 0 < e_length e) es ->
  (StronglySorted extents_apart es -> exists out, _coalesce_extents es = Ok out) /\
  forall out, _coalesce_extents es = Ok out ->
    StronglySorted extents_apart es /\ (forall x v, maps out x v <-> maps es x v) /\ linked fragment_pair out.
Proof.
  intros Hes. unfold _coalesce_extents. set (l := py_sorted logical_leb es). assert (l ≡ₚ es) as Hperm by apply py_sorted_perm.
  assert (Forall (fun e => 0 <= e_logical e /\ 0 < e_length e) l) as Hl by by rewrite Hperm. split.
  - intros Ha. assert (StronglySorted extents_apart l) as Hal by (eapply (pairwise_perm extents_apart); [unfold extents_apart; lia|symmetry; exact Hperm|done]).
    destruct (coalesce_accepts l [] (-1)) as (acc & ->).
    + eapply Forall_impl; [exact Hl|]. cbn. lia.
    + pose proof (logical_sorted es) as Hs. fold l in Hs. clear -Hs Hal Hl. induction Hs as [|e k Hs IH He]; constructor; apply StronglySorted_inv in Hal as [Hal Hx];
        apply Forall_cons in Hl as [_ Hl]; [by apply IH|]. rewrite Forall_forall in He, Hx, Hl |- *. intros y Hy. specialize (He y Hy). specialize (Hx y Hy).
      destruct (Hl y Hy). unfold extents_apart, extent_end in *. lia.
    + by eexists.
  - intros out H. apply bind_ok in H as ([o p] & Hf & H). injection H as <-.
    destruct (coalesce_fold l [] [] (-1) (o, p) Hl) as ([Hm Hk _] & _ & Hs); [by constructor|done|]. split; [|split].
    + eapply (pairwise_perm extents_apart); [unfold extents_apart; lia|exact Hperm|]. eapply StronglySorted_impl; [|exact Hs]. intros a b ?. by left.
    + intros x v. cbn [fst app] in *. unfold maps. rewrite reverse_Permutation. change (maps o x v <-> maps es x v). rewrite Hm. unfold maps. by rewrite Hperm.
    + done.
Qed.

(** ** Free space *)

Fixpoint ascending (lo hi : Z) (rs : list range) : Prop :=
  match rs with
  | [] => lo <= hi
  | (s, e) :: rest => lo <= s /\ s < e /\ ascending e hi rest
  end.

Definition total_length (rs : list range) : Z := zsum (map (fun r => r.2 - r.1) rs).

Lemma ascending_le lo hi rs : ascending lo hi rs -> lo <= hi.
Proof. revert lo. induction rs as [|[s e] rs IH]; intros lo; cbn; [done|]. intros (? & ? & H). apply IH in H. lia. Qed.

Lemma ascending_snoc lo hi rs s e : ascending lo hi rs -> hi <= s -> s < e -> ascending lo e (rs ++ [(s, e)]).
Proof. revert lo. induction rs as [|[s' e'] rs IH]; intros lo; cbn; [lia|]. intros (? & ? & H) ? ?. split; [done|]. split; [done|]. by apply IH. Qed.

Lemma ascending_weaken lo hi hi' rs : ascending lo hi rs -> hi <= hi' -> ascending lo hi' rs.
Proof. revert lo. induction rs as [|[s e] rs IH]; intros lo; cbn; [lia|]. intros (? & ? & H) ?. split; [done|]. split; [done|]. by apply IH. Qed.

Lemma ascending_in lo hi rs r : ascending lo hi rs -> r ∈ rs -> lo <= r.1 /\ r.1 < r.2 /\ r.2 <= hi.
Proof.
  revert lo. induction rs as [|[s e] rs IH]; intros lo H Hin; [by apply elem_of_nil in Hin|]. cbn in H. destruct H as (H1 & H2 & H3).
  apply elem_of_cons in Hin as [->|Hin]; [apply ascending_le in H3; cbn; lia|]. destruct (IH _ H3 Hin). lia.
Qed.

(** Disjoint ranges cover as many units as their lengths say. *)
Lemma ascending_count lo hi rs : ascending lo hi rs -> count_where (covered rs) lo hi = total_length rs.
Proof.
  revert lo. induction rs as [|[s e] rs IH]; intros lo H; [by apply count_where_none|]. pose proof (ascending_le _ _ _ H) as Hlh. cbn in H.
  destruct H as (H1 & H2 & H3). pose proof (ascending_le _ _ _ H3). unfold total_length in *. cbn [map zsum foldr fst snd]. fold (zsum (map (fun r : range => r.2 - r.1) rs)).
  assert (forall x, covers rs x -> e <= x) as Hr.
  { intros x Hx. apply Exists_exists in Hx as (y & Hy & ?). destruct (ascending_in _ _ _ _ H3 Hy). lia. }
  rewrite (count_where_split _ lo s) by lia. rewrite (count_where_split _ s e) by lia. rewrite <- (IH e H3).
  rewrite (count_where_none _ lo s), (count_where_all _ s e), (count_where_ext _ (covered rs) e hi); [lia|..].
  - intros x Hx. unfold covered at 1. cbn [existsb fst snd]. by rewrite (proj2 (Z.ltb_ge x e)), andb_false_r by lia.
  - intros x Hx. apply covered_spec, covers_cons. left. cbn. lia.
  - intros x Hx. destruct (covered _ x) eqn:E; [|done]. apply covered_spec, covers_cons in E as [E|E]; [cbn in E; lia|]. specialize (Hr x E). lia.
Qed.

Section free.
Context (r : reader) (g : XfsGeometry).
Hypothesis Hg : geometry_ok g.
Hypothesis Hw : wf_bytes (reader_dev r).

Definition ag_inv (agno ag_len : Z) (old : list range) (acc : free_acc) : Prop :=
  exists new, f_ranges acc = old ++ new /\ f_free acc = total_length new /\ f_previous_end acc <= ag_len /\
    ascending 0 (agno * agblocks g + Z.max 0 (f_previous_end acc)) (f_ranges acc).

Lemma free_record_inv agno ag_len old block acc pos acc' :
  0 <= pos -> wf_bytes block -> ag_inv agno ag_len old acc -> free_record g agno ag_len block acc pos = Ok acc' -> ag_inv agno ag_len old acc'.
Proof.
  intros Hpos Hb (new & Hr & Hf & Hp & Ha) H. unfold free_record in H. apply bind_ok in H as (s & Hs & H). apply bind_ok in H as (len & Hlen & H).
  apply unpack_be_bounds in Hs; [|done|done|lia]. destruct (_ || _) eqn:E in H; [done|]. bool_to_prop. injection H as <-.
  exists (new ++ [(agno * agblocks g + s, agno * agblocks g + s + len)]). cbn. split; [by rewrite Hr, <- app_assoc|].
  split; [unfold total_length in *; rewrite map_app, zsum_app; cbn; lia|]. split; [lia|].
  eapply ascending_weaken; [eapply ascending_snoc; [exact Ha|lia|lia]|]. lia.
Qed.

Lemma free_records_inv agno ag_len old blocks acc :
  0 <= ag_len -> Forall wf_bytes blocks -> ascending 0 (agno * agblocks g) old -> free_records g agno ag_len old blocks = Ok acc -> ag_inv agno ag_len old acc.
Proof.
  intros Hl Hb Ha H. unfold free_records in H.
  assert (ag_inv agno ag_len old (mkFree old 0 (-1) 0)) as Hinv.
  { exists []. cbn [f_ranges f_free f_previous_end]. rewrite app_nil_r. split; [done|]. split; [done|]. split; [lia|]. eapply ascending_weaken; [exact Ha|lia]. }
  revert H Hinv. generalize (mkFree old 0 (-1) 0). induction Hb as [|b blocks Hwb Hb IH]; intros a H Hinv; cbn [foldM] in H; [by injection H as <-|].
  apply bind_ok in H as (a' & Hf & H). eapply IH; [exact H|]. clear H IH.
  assert (Forall (fun p => 0 <= p) (positions b 8)) as Hp.
  { apply Forall_forall. intros p (i & -> & Hi)%list_elem_of_fmap. apply elem_of_py_range in Hi. lia. }
  revert a Hf Hinv. induction Hp as [|p ps Hp0 Hp IH]; intros a Hf Hinv; cbn [foldM] in Hf; [by injection Hf as <-|].
  apply bind_ok in Hf as (a1 & H1 & Hf). eapply IH; [exact Hf|]. by eapply free_record_inv.
Qed.

Lemma leaf_blocks agno ms ks ps rs root ls n : 0 <= ks -> ps = 4 \/ ps = 8 -> 0 < rs -> leaves r g agno ms ks ps rs root = Ok (ls, n) -> Forall (fun l => wf_bytes l /\ exists k, 0 <= k /\ py_len l = k * rs) ls.
Proof. intros H1 H2 H3 H. eapply leaves_walk in H as (bs & Hs & _); [|done..]. by eapply subtree_records. Qed.

Lemma free_space_inv agnos : forall first ranges ags blocks ranges' ags' blocks',
  agnos = py_range first (agcount g) -> 0 <= first -> ascending 0 (Z.min (dblocks g) (first * agblocks g)) ranges -> total_length ranges = zsum (map ag_free_blocks ags) ->
  free_space_loop r g ranges ags blocks agnos = Ok (ranges', ags', blocks') ->
  ascending 0 (dblocks g) ranges' /\ total_length ranges' = zsum (map ag_free_blocks ags').
Proof.
  induction agnos as [|agno agnos IH]; intros first ranges ags blocks ranges' ags' blocks' Hag H0 Ha Ht H; cbn [free_space_loop] in H.
  { injection H as <- <- <-. split; [|done]. eapply ascending_weaken; [exact Ha|lia]. }
  pose proof (go_ag g Hg) as Hab. assert (first < agcount g) as Hlt.
  { destruct (Z.lt_ge_cases first (agcount g)); [done|]. by rewrite py_range_nil in Hag by lia. }
  rewrite py_range_cons in Hag by lia. injection Hag as -> Hag. destruct (Z.leb_spec (ag_length g first) 0) as [|Hlen].
  { injection H as <- <- <-. split; [|done]. eapply ascending_weaken; [exact Ha|lia]. }
  apply bind_ok in H as ([[rs ag] bl] & Hfs & H). unfold ag_free_space in Hfs. apply bind_ok in Hfs as (agf & _ & Hfs). apply bind_ok in Hfs as (num & _ & Hfs).
  destruct (_ || _) in Hfs; [done|]. do 4 apply bind_ok in Hfs as (? & _ & Hfs). destruct (negb _) in Hfs; [done|].
  apply bind_ok in Hfs as ([records nblocks] & Hlv & Hfs). apply bind_ok in Hfs as (acc & Hacc & Hfs). injection Hfs as <- <- <-.
  destruct (ag_length_bounds g first) as [_ Hbd]. destruct (Hbd Hab Hlen) as [Hbd1 Hbd2].
  apply leaf_blocks in Hlv; [|lia|by left|lia]. apply free_records_inv in Hacc as (new & Hr & Hf & Hp & Hasc); [|lia| |].
  2:{ eapply Forall_impl; [exact Hlv|]. by intros l [? _]. }
  2:{ eapply ascending_weaken; [exact Ha|lia]. }
  eapply (IH (first + 1)); [exact Hag|lia| | |exact H].
  - eapply ascending_weaken; [exact Hasc|]. lia.
  - rewrite map_app, zsum_app. cbn. rewrite Hr. unfold total_length in *. rewrite map_app, zsum_app. lia.
Qed.

Lemma free_space_facts free ags blocks : _free_space r g = Ok (free, ags, blocks) ->
  separated free /\ Forall (fun x : range => 0 <= x.1 /\ x.2 <= dblocks g) free /\
  count_where (covered free) 0 (dblocks g) = zsum (map ag_free_blocks ags).
Proof.
  intros H. unfold _free_space in H. apply bind_ok in H as ([[ranges ags'] bl] & Hl & H). injection H as <- <- <-. pose proof (go_dblocks g Hg).
  apply (free_space_inv _ 0) in Hl as [Ha Ht]; [|done|lia|cbn; lia|done]. destruct (merge_ranges_facts ranges) as [Hsep Hcov]. split; [done|].
  assert (forall x, covers (merge_ranges ranges) x <-> covers ranges x) as Hsame.
  { intros x. rewrite Hcov. unfold covers. rewrite Exists_exists. split.
    - intros (s & e & Hi & ?). exists (s, e). split; [done|]. cbn. lia.
    - intros ([s e] & Hi & Hx). exists s, e. split; [done|]. destruct (ascending_in _ _ _ _ Ha Hi). cbn in *. lia. }
  assert (forall x, covers ranges x -> 0 <= x < dblocks g) as Hin.
  { intros x Hx. apply Exists_exists in Hx as (y & Hy & Hx). destruct (ascending_in _ _ _ _ Ha Hy). lia. }
  split.
  - apply Forall_forall. intros x Hx. destruct Hsep as [Hp _]. rewrite Forall_forall in Hp. specialize (Hp x Hx).
    assert (covers ranges x.1) as H1 by (apply Hsame, Exists_exists; exists x; split; [done|lia]).
    assert (covers ranges (x.2 - 1)) as H2 by (apply Hsame, Exists_exists; exists x; split; [done|lia]). apply Hin in H1, H2. lia.
  - rewrite <- Ht, <- (ascending_count 0 (dblocks g) ranges Ha). apply count_where_ext. intros x _. apply eq_bool_prop_intro. rewrite !Is_true_true, !covered_spec. apply Hsame.
Qed.
End free.

(** ** The scan raises nothing but [BackendError] *)

Definition c_only {A} (m : counted A) : Prop := forall n, backend_only (m n).2.

Lemma co_ret {A} (a : A) : c_only (cret a).
Proof. intros n. apply bo_ok. Qed.

Lemma co_lift {A} (x : result A) : backend_only x -> c_only (clift x).
Proof. intros H n. exact H. Qed.

Lemma co_bind {A B} (m : counted A) (k : A -> counted B) :
  c_only m -> (forall n n' a, m n = (n', Ok a) -> backend_only (k a n').2) -> c_only (cbind m k).
Proof.
  intros Hm Hk n. specialize (Hm n). unfold cbind. destruct (m n) as [n' [a|e]] eqn:E; [by eapply Hk|].
  intros e' [= <-]. by apply Hm.
Qed.

Lemma co_lift_bind {A B} (x : result A) (k : A -> counted B) : backend_only x -> (forall a, x = Ok a -> c_only (k a)) -> c_only (cbind (clift x) k).
Proof. intros Hx Hk. apply co_bind; [by apply co_lift|]. intros n n' a [= <- Ha]. by apply Hk. Qed.

Lemma co_bind_any {A B} (m : counted A) (k : A -> counted B) : c_only m -> (forall a, c_only (k a)) -> c_only (cbind m k).
Proof. intros Hm Hk. apply co_bind; [done|]. intros. apply Hk. Qed.

Lemma co_if {A} (b : bool) (x y : counted A) : (b = true -> c_only x) -> (b = false -> c_only y) -> c_only (if b then x else y).
Proof. destruct b; auto. Qed.

Lemma co_flatmap {A B} (f : A -> counted (list B)) l : (forall x, x ∈ l -> c_only (f x)) -> c_only (cflatmap f l).
Proof.
  induction l as [|x l IH]; intros H; [apply co_ret|]. cbn [cflatmap]. apply co_bind_any; [apply H; set_solver|]. intros ys.
  apply co_bind_any; [apply IH; intros; apply H; set_solver|]. intros rest. apply co_ret.
Qed.

Lemma co_fold {A S} (body : S -> A -> counted S) l : (forall s x, x ∈ l -> c_only (body s x)) -> forall s, c_only (cfold body s l).
Proof.
  induction l as [|x l IH]; intros H s; [apply co_ret|]. cbn [cfold]. apply co_bind_any; [apply H; set_solver|]. intros s'. apply IH. intros; apply H; set_solver.
Qed.

Lemma bo_decode data off ab log db : backend_only (_decode_bmbt_record data off ab log db).
Proof.
  unfold _decode_bmbt_record. apply bo_if; intros H; [apply bo_raise|]. bool_to_prop. apply bo_bind; [apply bo_unpack; lia|]. intros l0 _.
  apply bo_bind; [apply bo_unpack; lia|]. intros l1 _. cbv zeta. apply bo_if; intros _; [apply bo_raise|apply bo_ok].
Qed.

Lemma bo_coalesce es : backend_only (_coalesce_extents es).
Proof.
  unfold _coalesce_extents. apply bo_bind; [|intros; apply bo_ok]. apply bo_foldM. intros [o p] e _. unfold coalesce_extent.
  apply bo_if; intros _; [apply bo_raise|apply bo_ok].
Qed.

Section scan.
Context (r : reader) (g : XfsGeometry).
Hypothesis Hg : geometry_ok g.
Hypothesis Hw : wf_bytes (reader_dev r).

Lemma co_external level : forall fsblock, c_only (_external r g level fsblock).
Proof.
  pose proof (go_block g Hg) as Hb. induction level as [|level IH]; intros fsblock; cbn [_external];
    (apply co_if; intros _; [apply co_lift, bo_raise|]); (apply co_lift_bind; [apply bo_read|]; intros raw Hraw; apply read_len in Hraw; [|lia]);
    (apply co_if; intros _; [apply co_lift, bo_raise|]); cbv zeta;
    (set (header := if bool_decide (py_slice raw 0 4 = _XFS_BMAP_CRC_MAGIC) then 72 else 24); assert (0 <= header <= 72) by (unfold header; destruct (bool_decide _); lia));
    (apply co_lift_bind; [apply bo_unpack; lia|]; intros lv _); (apply co_lift_bind; [apply bo_unpack; lia|]; intros nrecs _);
    (apply co_if; intros _; [apply co_lift, bo_raise|]); (apply co_bind_any; [intros n; cbn [snd]; apply bo_if; intros _; [apply bo_raise|apply bo_ok]|]; intros _);
    (apply co_if; intros Hn; [apply co_lift, bo_raise|]).
  - apply co_lift, bo_mapM. intros. apply bo_decode.
  - bool_to_prop. apply co_flatmap. intros index Hi%elem_of_py_range. pose proof (Z.mul_div_le (block_size g - header) 16).
    apply co_lift_bind; [apply bo_unpack; lia|]. intros child _. apply IH.
Qed.

Lemma co_fork inode core_size fork_size fmt nextents : 0 <= core_size -> c_only (inode_fork r g inode core_size fork_size fmt nextents).
Proof.
  intros Hc. unfold inode_fork. apply co_if; intros H; [apply co_lift, bo_raise|]. bool_to_prop. cbv zeta. set (fork := py_slice inode core_size (core_size + fork_size)).
  apply co_if; intros _; [apply co_ret|]. apply co_if; intros _.
  { apply co_if; intros _; [apply co_lift, bo_raise|]. apply co_lift, bo_bind; [apply bo_mapM; intros; apply bo_decode|]. intros es _. apply bo_coalesce. }
  do 2 (apply co_if; intros ?; [apply co_lift, bo_raise|]). bool_to_prop.
  apply co_lift_bind; [apply bo_unpack; lia|]. intros level _. apply co_lift_bind; [apply bo_unpack; lia|]. intros nrecs _.
  do 2 (apply co_if; intros ?; [apply co_lift, bo_raise|]). bool_to_prop. pose proof (Z.mul_div_le (py_len fork - 4) 16).
  apply co_bind_any.
  { apply co_flatmap. intros index Hi%elem_of_py_range. apply co_lift_bind; [apply bo_unpack; lia|]. intros child _. apply co_external. }
  intros es. apply co_lift_bind; [apply bo_coalesce|]. intros es' _. apply co_if; intros _; [apply co_lift, bo_raise|apply co_ret].
Qed.

Lemma co_inode inode s : py_len inode = inode_size g -> c_only (scan_inode r g inode s).
Proof.
  intros Hl. pose proof (go_inode g Hg) as Hi. unfold scan_inode. apply co_lift_bind; [apply bo_unpack; lia|]. intros magic _.
  apply co_if; intros _; [apply co_ret|]. apply co_lift_bind; [apply bo_unpack; lia|]. intros mode _. cbv zeta. apply co_if; intros _; [apply co_ret|].
  do 2 (apply co_lift_bind; [apply bo_get; lia|]; intros ? _). apply co_if; intros _; [apply co_ret|]. apply co_lift_bind; [apply bo_get; lia|]. intros forkoff _.
  apply co_lift_bind; [apply bo_unpack; lia|]. intros fl _. apply co_lift_bind; [apply bo_if; intros _; [apply bo_unpack; lia|apply bo_ok]|]. intros fl2 _.
  apply co_if; intros _; [apply co_ret|]. apply co_lift_bind; [apply bo_if; intros _; apply bo_unpack; lia|]. intros nextents _ n.
  match goal with |- context [inode_fork r g inode ?c ?f ?d ?e n] => pose proof (co_fork inode c f d e) as Hf; destruct (inode_fork r g inode c f d e n) as [n' [es|x]] eqn:E end; [apply bo_ok|].
  specialize (Hf ltac:(destruct (_ =? 3); lia) n). rewrite E in Hf. rewrite decide_True by (left; by apply Hf). apply bo_ok.
Qed.

Lemma bo_inode_record block pos : 0 <= pos -> pos + 16 <= py_len block -> backend_only (inode_record g block pos).
Proof.
  intros H0 Hl. unfold inode_record. apply bo_bind; [apply bo_unpack; lia|]. intros start _. apply bo_bind.
  { apply bo_if; intros _; [|apply bo_ok]. apply bo_bind; [apply bo_unpack; lia|]. intros hm _. apply bo_bind; [apply bo_get; lia|]. intros; apply bo_ok. }
  intros [hm count] _. apply bo_bind; [apply bo_unpack; lia|]. intros fm _. apply bo_if; intros _; [apply bo_raise|apply bo_ok].
Qed.

Lemma positions_fit block step k pos : 0 < step -> py_len block = k * step -> pos ∈ positions block step -> 0 <= pos /\ pos + step <= py_len block.
Proof.
  intros Hs Hl Hp. unfold positions in Hp. apply list_elem_of_fmap in Hp as (i & -> & Hi). apply elem_of_py_range in Hi. rewrite Hl in *.
  replace (k * step + step - 1) with (step - 1 + k * step) in Hi by lia. rewrite Z.div_add, Z.div_small in Hi by lia. nia.
Qed.

Lemma bo_inode_records agno : backend_only (_inode_records r g agno).
Proof.
  pose proof (go_sector g Hg) as Hsec. unfold _inode_records. apply bo_bind; [apply bo_read|]. intros agi Hagi. apply read_len in Hagi; [|lia].
  apply bo_bind; [apply bo_if; intros _; [apply bo_unpack; lia|apply bo_ok]|]. intros num _. apply bo_if; intros _; [apply bo_raise|].
  apply bo_bind; [apply bo_unpack; lia|]. intros root _. apply bo_bind; [apply leaves_raises; (done || lia || by left)|]. intros [blocks n] Hlv.
  apply leaf_blocks in Hlv; [|done|done|lia|by left|lia]. rewrite Forall_forall in Hlv. apply bo_bind; [|intros; apply bo_ok].
  apply bo_mapM. intros block Hb. apply bo_mapM. intros pos Hp. destruct (Hlv block Hb) as (_ & k & _ & Hk).
  destruct (positions_fit block 16 k pos ltac:(lia) Hk Hp). apply bo_inode_record; lia.
Qed.

Lemma bo_scan_inodes : backend_only (_scan_inodes r g).
Proof.
  pose proof (go_inode g Hg) as Hi. unfold _scan_inodes. apply bo_if; intros _; [apply bo_raise|].
  assert (c_only (cfold (scan_group r g) scan_start (py_range 0 (agcount g)))) as Hf.
  { apply co_fold. intros s agno _. unfold scan_group. apply co_lift_bind; [apply bo_inode_records|]. intros [records blocks] _.
    apply co_fold. intros s1 record _. apply co_fold. intros s2 index _. unfold scan_index. destruct record as [[startino holemask] free_mask].
    apply co_if; intros _; [apply co_ret|]. apply co_if; intros _; [apply co_ret|]. cbv zeta. apply co_if; intros _; [apply co_ret|].
    apply co_lift_bind; [apply bo_read|]. intros inode Hr. apply read_len in Hr; [|lia]. by apply co_inode. }
  specialize (Hf 0). destruct (cfold _ _ _ 0) as [n x]. apply bo_bind; [exact Hf|]. intros; apply bo_ok.
Qed.
End scan.

(** ** The map *)

(** What [overlay_ranges] may change in a cell. *)
Definition overlaid (c c' : cell) : Prop :=
  c_start c' = c_start c /\ c_end c' = c_end c /\ c_free c' = c_free c /\ c_used c' = c_used c /\ c_unknown c' = c_unknown c /\
  (c_fragmented c <= c_used c -> c_fragmented c' <= c_used c') /\ (c_directory c <= c_used c -> c_directory c' <= c_used c').

Lemma overlay_overlaid field cells : forall merged, Forall2 overlaid cells (overlay_cells field merged cells).
Proof.
  induction cells as [|c cells IH]; intros merged; cbn [overlay_cells]; constructor; [|by apply IH].
  destruct field; unfold overlaid; cbn; repeat split; try done; lia.
Qed.

Lemma overlaid_refl cells : Forall2 overlaid cells cells.
Proof. induction cells; constructor; [unfold overlaid; tauto|done]. Qed.

Lemma overlaid_trans a b c : Forall2 overlaid a b -> Forall2 overlaid b c -> Forall2 overlaid a c.
Proof.
  intros H. revert c. induction H as [|x y a b Hxy H IH]; intros c Hc; inversion_clear Hc as [|? z ? c' Hyz Hc']; constructor; [|by apply IH].
  unfold overlaid in *. intuition congruence.
Qed.

(** A cell of a volume whose free blocks are [free]. *)
Definition exact_cell (free : list range) (c : cell) (b : range) : Prop :=
  c_start c = b.1 /\ c_end c = b.2 - 1 /\ c_free c = count_where (covered free) b.1 b.2 /\ c_free c + c_used c = b.2 - b.1 /\ c_unknown c = 0 /\
  c_fragmented c <= c_used c /\ c_directory c <= c_used c.

Lemma exact_cells free bounds a b : chained a b bounds -> Forall2 (exact_cell free) (map (fun b => counts_cell b (counts_of (free_or_used free) b.1 b.2)) bounds) bounds.
Proof.
  revert a. induction bounds as [|[s e] bounds IH]; intros a H; cbn [map]; constructor; [|destruct H as (_ & _ & H); by eapply IH].
  destruct H as (-> & Hse & _). assert (forall p q, (forall x, p x = q x) -> count_where p a e = count_where q a e) as Hext by (intros p q H; apply count_where_ext; intros x _; apply H).
  unfold exact_cell, counts_cell, counts_of, free_or_used. cbn [c_start c_end c_free c_used c_unknown c_fragmented c_directory n0 n1 n2 fst snd].
  rewrite (Hext _ (covered free)) by (intros x; by destruct (covered free x)).
  rewrite (Hext (fun x => (if covered free x then 0 else 1) =? 1) (fun x => negb (covered free x))) by (intros x; by destruct (covered free x)).
  rewrite count_where_negb by lia.
  rewrite (count_where_none (fun x => (if covered free x then 0 else 1) =? 2)) by (intros x _; by destruct (covered free x)).
  pose proof (count_where_bounds (covered free) a e). lia.
Qed.

Lemma exact_overlaid free cells cells' bounds : Forall2 overlaid cells cells' -> Forall2 (exact_cell free) cells bounds -> Forall2 (exact_cell free) cells' bounds.
Proof.
  intros H. revert bounds. induction H as [|c c' cells cells' Hc H IH]; intros bounds Hb; inversion_clear Hb as [|? b ? bounds' He Hb']; constructor; [|by apply IH].
  unfold overlaid, exact_cell in *. destruct Hc as (-> & -> & -> & -> & -> & H1 & H2). tauto.
Qed.

(** The scan of the inodes decides only what is laid over the cells. *)
Lemma finish_map_total m x : backend_only x -> exists fm, finish_map m x = Ok fm /\ Forall2 overlaid (mr_cells m) (mr_cells (fm_map fm)) /\
  mr_free_bytes (fm_map fm) = mr_free_bytes m /\ mr_used_bytes (fm_map fm) = mr_used_bytes m /\ mr_unknown_bytes (fm_map fm) = mr_unknown_bytes m.
Proof.
  intros Hx. destruct x as [[s n]|e]; cbn [finish_map].
  - unfold overlay_ranges. eexists. split; [reflexivity|]. split; [|done]. cbn [fm_map with_cells mr_cells].
    eapply overlaid_trans; apply overlay_overlaid; done.
  - rewrite decide_True by by apply Hx. eexists. split; [reflexivity|]. split; [|done]. apply overlaid_refl.
Qed.

(** C21. The XFS map is exact and always delivered: once the superblock is
    accepted and the free-space trees are read, [map] returns whatever the
    inodes hold; every cell counts exactly the blocks that a free-space record
    covers as free and all others as used, fragmented and directory blocks are
    at most the used ones, and the free bytes are the sum of the groups' free
    blocks. *)
Theorem xfs_map_exact (r : reader) (cells : Z) (superblock : bytes) (g : XfsGeometry) (free : list range) (ags : list ag_detail) (blocks : Z)
    (Hbytes : wf_bytes (reader_dev r)) (Hread : reader_read r 0 512 = Ok superblock) (Hmagic : py_slice superblock 0 4 = _XFS_SB_MAGIC)
    (Hgeometry : XfsGeometry_init superblock (reader_size r) = Ok g) (Hfree : _free_space r g = Ok (free, ags, blocks)) :
  exists fm bounds, xfs_map (Ok r) cells = Ok fm /\
    chained 0 (dblocks g) bounds /\ py_len bounds = clamp_cells cells (dblocks g) /\
    Forall2 (exact_cell free) (mr_cells (fm_map fm)) bounds /\
    mr_free_bytes (fm_map fm) = zsum (map ag_free_blocks ags) * block_size g /\
    mr_free_bytes (fm_map fm) + mr_used_bytes (fm_map fm) = dblocks g * block_size g /\ mr_unknown_bytes (fm_map fm) = 0.
Proof.
  assert (geometry_ok g) as Hg.
  { unfold XfsGeometry_init in Hgeometry. do 18 apply bind_ok in Hgeometry as (? & _ & Hgeometry). cbv zeta in Hgeometry.
    apply bind_ok in Hgeometry as ([] & Hc & Hgeometry). injection Hgeometry as <-. by eapply geometry_checked. }
  destruct (free_space_facts r g Hg Hbytes free ags blocks Hfree) as (Hsep & Hin & Hcount). pose proof (go_dblocks g Hg).
  destruct (aggregate_partition (dblocks g) cells (block_size g) "xfs" free "exact" (geometry_details g ags blocks)) as
    (used & m & bounds & Hc & Hm & Hch & Hlen & Hcells & Hf & Hu & Hun & _); [lia|done|done|].
  destruct (finish_map_total m (_scan_inodes r g)) as (fm & Hfm & Hov & Ef & Eu & En); [by apply bo_scan_inodes|].
  exists fm, bounds. split.
  { unfold xfs_map, state_ranges. cbn [mbind result_bind]. rewrite Hread. cbn [mbind result_bind]. rewrite bool_decide_true by done. cbn [negb].
    rewrite Hgeometry. cbn [mbind result_bind]. rewrite Hfree. cbn [mbind result_bind]. rewrite Hc. cbn [mbind result_bind]. by rewrite Hm. }
  split; [done|]. split; [done|]. split; [|rewrite Ef, Eu, En; split; [by rewrite Hf, Hcount|done]].
  eapply exact_overlaid; [exact Hov|]. rewrite Hcells. by eapply exact_cells.
Qed.

(** ** A small volume

    Twelve blocks of 512 bytes in one group: superblock, AGF, AGI, one leaf of
    the free-space tree, one leaf of the inode tree, two inodes in block 5 (a
    file in blocks 6 and 8, a free slot), free blocks 7 and 9 to 11. *)
Definition xfs_device : bytes :=
  image_of 512 [(0, _XFS_SB_MAGIC); field 4 4 512; field 8 8 12; field 84 4 12; field 88 4 1; field 100 2 5; field 102 2 512; field 104 2 256;
                field 106 2 2; field 120 1 9; field 121 1 9; field 122 1 8; field 123 1 1; field 124 1 4; field 128 8 64; field 136 8 63; field 144 8 4] ++
  image_of 512 [(0, _XFS_AGF_MAGIC); field 12 4 12; field 16 4 3; field 52 4 4; field 56 4 3] ++
  image_of 512 [(0, _XFS_AGI_MAGIC); field 20 4 4] ++
  image_of 512 [(0, _XFS_ABTB_MAGIC); field 6 2 2; field 16 4 7; field 20 4 1; field 24 4 9; field 28 4 3] ++
  image_of 512 [(0, _XFS_IBT_MAGIC); field 6 2 1; field 16 4 10; field 24 8 (2 ^ 64 - 2)] ++
  image_of 512 [field 0 2 _XFS_DINODE_MAGIC; field 2 2 33188; field 4 1 2; field 5 1 2; field 76 4 2;
                (100, encode_extent 0 6 1 false); (116, encode_extent 1 8 1 false)] ++
  py_zeros 3072.
Definition xfs_reader : reader := mkReader xfs_device 6144.

Definition xfs_superblock : bytes := py_slice xfs_device 0 512.
Definition xfs_geometry : XfsGeometry := mkGeometry 512 12 0 12 1 5 512 256 2 9 9 8 1 4 64 63 4 0.
Definition xfs_group : ag_detail := mkAg 0 12 4 4 3 2 true.

Lemma xfs_device_wf : wf_bytes xfs_device.
Proof. apply (bool_decide_unpack _). vm_compute. exact I. Qed.

Lemma xfs_map_exact_witness :
  exists fm bounds, xfs_map (Ok xfs_reader) 3 = Ok fm /\ chained 0 12 bounds /\ py_len bounds = clamp_cells 3 12 /\
    Forall2 (exact_cell [(7, 8); (9, 12)]) (mr_cells (fm_map fm)) bounds /\ mr_free_bytes (fm_map fm) = 4 * 512 /\
    mr_free_bytes (fm_map fm) + mr_used_bytes (fm_map fm) = 12 * 512 /\ mr_unknown_bytes (fm_map fm) = 0.
Proof.
  apply (xfs_map_exact xfs_reader 3 xfs_superblock xfs_geometry [(7, 8); (9, 12)] [xfs_group] 1 xfs_device_wf); vm_compute; reflexivity.
Defined.

Example xfs_map_sees_the_file :
  (fm_files <$> xfs_map (Ok xfs_reader) 3) = Ok (Some (FileCounts 1 0 1 0 (100, 1))).
Proof. vm_compute. reflexivity. Qed.

(** C22. The walk of a short-pointer B+tree refines the tree: on every device
    it terminates without exhausting its bound and raises at most
    [BackendError]; when it returns, the blocks it read are distinct, form the
    tree below the root, and the result is the tree's leaves from left to
    right. *)
Theorem leaves_in_order (r : reader) (g : XfsGeometry) (agno : Z) (magics : bytes * bytes) (key_size ptr_size record_size root : Z)
    (Hgeometry : geometry_ok g) (Hbytes : wf_bytes (reader_dev r)) (Hkey : 0 <= key_size) (Hptr : ptr_size = 4 \/ ptr_size = 8) (Hrec : 0 < record_size) :
  match leaves r g agno magics key_size ptr_size record_size root with
  | Ok (ls, n) => exists bs, subtree r g agno magics key_size ptr_size record_size root ls bs /\ NoDup bs /\ n = py_len bs
  | Raise e => exn_kind e = BackendError
  end.
Proof.
  destruct (leaves r g agno magics key_size ptr_size record_size root) as [[ls n]|e] eqn:E.
  - by eapply leaves_walk.
  - by eapply (leaves_raises r g agno magics key_size ptr_size record_size Hgeometry Hbytes Hkey Hptr).
Qed.

Lemma xfs_geometry_ok : geometry_ok xfs_geometry.
Proof. constructor; cbn; lia. Qed.

Lemma leaves_in_order_witness :
  match leaves xfs_reader xfs_geometry 0 (_XFS_ABTB_MAGIC, _XFS_ABTB_CRC_MAGIC) 8 4 8 3 with
  | Ok (ls, n) => exists bs, subtree xfs_reader xfs_geometry 0 (_XFS_ABTB_MAGIC, _XFS_ABTB_CRC_MAGIC) 8 4 8 3 ls bs /\ NoDup bs /\ n = py_len bs
  | Raise e => exn_kind e = BackendError
  end.
Proof. apply (leaves_in_order xfs_reader xfs_geometry 0 _ 8 4 8 3 xfs_geometry_ok xfs_device_wf); [lia|by left|lia]. Defined.

(** Decoding inverts the disk format of an extent: a record with a logical
    block of 54 bits, a physical block of 52 bits and a length of 21 bits is
    read back field for field, wherever it lies in its buffer, with the
    physical address translated from group and block, if it lies on the
    device. *)
Theorem bmbt_record_roundtrip (pre post : bytes) (logical agno agbno len agblocks agblklog dblocks : Z) (unwritten : bool)
    (Hlogical : 0 <= logical < 2 ^ 54) (Hlog : 0 <= agblklog) (Hagno : 0 <= agno) (Hagbno : 0 <= agbno < agblocks)
    (Hfits : agblocks <= 2 ^ agblklog) (Hblock : agno * 2 ^ agblklog + agbno < 2 ^ 52) (Hlen : 0 < len < 2 ^ 21)
    (Hdevice : agno * agblocks + agbno + len <= dblocks) :
  _decode_bmbt_record (pre ++ encode_extent logical (agno * 2 ^ agblklog + agbno) len unwritten ++ post) (py_len pre) agblocks agblklog dblocks =
  Ok (mkExtent logical (agno * agblocks + agbno) len unwritten).
Proof.
  assert (agno = (agno * 2 ^ agblklog + agbno) / 2 ^ agblklog) as E1 by (apply (Z.div_unique _ _ _ agbno); lia).
  assert (agbno = (agno * 2 ^ agblklog + agbno) mod 2 ^ agblklog) as E2 by (apply (Z.mod_unique _ _ agno); lia).
  rewrite decode_extent_at; rewrite <- ?E1, <- ?E2; try done; try lia; nia.
Qed.

Lemma bmbt_record_roundtrip_witness :
  _decode_bmbt_record ([7; 7] ++ encode_extent 5 (3 * 2 ^ 4 + 9) 2 true ++ []) 2 12 4 60 = Ok (mkExtent 5 (3 * 12 + 9) 2 true).
Proof. apply (bmbt_record_roundtrip [7; 7] [] 5 3 9 2 12 4 60 true); lia. Defined.

(** Merging extents keeps the file: [_coalesce_extents] accepts exactly
    the extents that do not overlap in the file, and its result maps every
    logical block to the same physical block and state, in ascending order and
    with no extent that merely continues the one before, so its length is the
    number of fragments. *)
Theorem coalesce_extents_exact (es : list Extent) (Hes : Forall (fun e => 0 <= e_logical e /\ 0 < e_length e) es) :
  (StronglySorted extents_apart es -> exists out, _coalesce_extents es = Ok out) /\
  forall out, _coalesce_extents es = Ok out ->
    StronglySorted extents_apart es /\ (forall x v, maps out x v <-> maps es x v) /\ linked fragment_pair out.
Proof. exact (coalesce_facts es Hes). Qed.

Definition sample_extents : list Extent := [mkExtent 4 20 2 false; mkExtent 0 10 2 false; mkExtent 2 12 2 false].

Lemma coalesce_extents_exact_witness :
  _coalesce_extents sample_extents = Ok [mkExtent 0 10 4 false; mkExtent 4 20 2 false] /\ StronglySorted extents_apart sample_extents.
Proof.
  split; [reflexivity|]. destruct (coalesce_extents_exact sample_extents) as [_ H]; [repeat constructor; cbn; lia|].
  by destruct (H _ eq_refl) as [? _].
Defined.
