(* ===== verification/Ext4.v ===== *)
(** * The ext2/3/4 map backend

    Models [src/gui/backends/ext4.py]: superblock and group descriptors, the
    counting of block bitmaps per map cell, extent trees and indirect blocks,
    the scan of the inode tables and the map. *)

From S2P Require Import Prelude Text Bytes Ranges.

Local Open Scope string_scope.
Local Open Scope list_scope.
Local Open Scope Z_scope.

Definition _EXT4_EXTENTS_FL : Z := 524288.
Definition _EXT4_INLINE_DATA_FL : Z := 268435456.
Definition _EXT4_EXT_MAGIC : Z := 62218.
Definition _EXT4_FEATURE_COMPAT_HAS_JOURNAL : Z := 4.
Definition _EXT4_FEATURE_INCOMPAT_META_BG : Z := 16.
Definition _EXT4_FEATURE_INCOMPAT_EXTENTS : Z := 64.
Definition _EXT4_FEATURE_INCOMPAT_64BIT : Z := 128.
Definition _EXT4_FEATURE_RO_COMPAT_BIGALLOC : Z := 512.
Definition _EXT4_BG_INODE_UNINIT : Z := 1.
Definition _EXT4_S_IFMT : Z := 61440.
Definition _EXT4_S_IFDIR : Z := 16384.
Definition _EXT4_S_IFREG : Z := 32768.
Definition _INODE_READ_CHUNK : Z := 262144.
Definition _MAX_EXTENT_DEPTH : Z := 5.

Definition has_flag (flags bit : Z) : bool := negb (Z.land flags bit =? 0).

(** A run of blocks: logical block, physical block, length. *)
Abbreviation extent := (Z * Z * Z)%type.

(** ** Extent trees *)

Definition _extent_length (raw : Z) : Z := if 32768 <? raw then raw - 32768 else raw.

Section extent_tree.
Context (r : reader) (block_size total_blocks : Z).

(** One entry of a leaf; the state is the last logical block and the extents. *)
Definition leaf_entry (data : bytes) (acc : Z * list extent) (index : Z) : result (Z * list extent) :=
  let '(previous_logical, extents) := acc in
  let pos := 12 + index * 12 in
  logical ← u32le data pos;
  raw ← u16le data (pos + 4);
  let len := _extent_length raw in
  low ← u32le data (pos + 8);
  high ← u16le data (pos + 6);
  let physical := Z.lor low (Z.shiftl high 32) in
  check (len <=? 0) || (logical <=? previous_logical) # BackendError "invalid ext leaf extent";
  check (physical <=? 0) || (total_blocks <? physical + len) # BackendError "ext extent points outside the filesystem";
  Ok (logical, extents ++ [(logical, physical, len)]).

(** [visited] is the set of child blocks read so far.  [levels] bounds the
    depth: a child's depth is one less than its parent's, which is at most
    [_MAX_EXTENT_DEPTH]. *)
Fixpoint _parse_extent_node (levels : nat) (data : bytes) (expected_depth : option Z) (visited : list Z) : result (list extent * list Z) :=
  magic ← (if py_len data <? 12 then Ok 0 else u16le data 0);
  check (py_len data <? 12) || negb (magic =? _EXT4_EXT_MAGIC) # BackendError "invalid ext extent-tree header";
  entries ← u16le data 2;
  maximum ← u16le data 4;
  depth ← u16le data 6;
  check (match expected_depth with Some e => negb (depth =? e) | None => false end) # BackendError "inconsistent ext extent-tree depth";
  check (_MAX_EXTENT_DEPTH <? depth) || (maximum <? entries) # BackendError "invalid ext extent-tree geometry";
  check py_len data <? 12 + entries * 12 # BackendError "truncated ext extent-tree node";
  if depth =? 0 then
    acc ← foldM (leaf_entry data) (-1, []) (py_range 0 entries);
    Ok (acc.2, visited)
  else
    match levels with
    | O => raise OutOfFuel "_parse_extent_node"
    | S levels' =>
        acc ← foldM (fun (acc : Z * list extent * list Z) index =>
            let '(previous_logical, extents, visited) := acc in
            let pos := 12 + index * 12 in
            logical ← u32le data pos;
            low ← u32le data (pos + 4);
            high ← u16le data (pos + 8);
            let child := Z.lor low (Z.shiftl high 32) in
            check (logical <=? previous_logical) || (child <=? 0) || (total_blocks <=? child) # BackendError "invalid ext extent index";
            check bool_decide (child ∈ visited) # BackendError "loop in ext extent tree";
            child_data ← reader_read r (child * block_size) block_size;
            '(more, visited) ← _parse_extent_node levels' child_data (Some (depth - 1)) (child :: visited);
            Ok (logical, extents ++ more, visited))
          (-1, [], visited) (py_range 0 entries);
        Ok (acc.1.2, acc.2)
    end.

Definition _extent_inode_blocks (inode : bytes) : result (list extent) :=
  '(extents, _) ← _parse_extent_node (Z.to_nat _MAX_EXTENT_DEPTH) (py_slice inode 40 100) None [];
  Ok extents.

(** ** Indirect blocks *)

(** [struct.unpack_from("<nI", data, offset)] *)
Definition unpack_words (data : bytes) (offset count : Z) : result (list Z) :=
  check py_len data <? offset + 4 * count # StructError "unpack_from requires a larger buffer";
  mapM_result (fun i => u32le data (offset + 4 * i)) (py_range 0 count).

Definition _pointer_block (block : Z) (visited : list Z) : result (list Z * list Z) :=
  check (block <=? 0) || (total_blocks <=? block) # BackendError "ext indirect block points outside the filesystem";
  check bool_decide (block ∈ visited) # BackendError "loop in ext indirect block tree";
  data ← reader_read r (block * block_size) block_size;
  check negb (py_len data =? 4 * (block_size / 4)) # StructError "unpack requires a buffer";
  words ← unpack_words data 0 (block_size / 4);
  Ok (words, block :: visited).

Definition enumerate {A} (l : list A) : list (Z * A) := zip (py_range 0 (py_len l)) l.

Definition add_data (extents : list extent) (logical physical : Z) : result (list extent) :=
  if physical =? 0 then Ok extents else
  check total_blocks <=? physical # BackendError "ext data block points outside the filesystem";
  Ok (extents ++ [(logical, physical, 1)]).

Definition add_words (base : Z) (extents : list extent) (words : list Z) : result (list extent) :=
  foldM (fun extents item => add_data extents (base + item.1) item.2) extents (enumerate words).

(** Data below a pointer block of the given height: 1 for a block of data
    pointers, 2 and 3 for the double and triple indirect trees. *)
Fixpoint add_tree (per_block : Z) (height : nat) (base : Z) (acc : list extent * list Z) (block : Z) : result (list extent * list Z) :=
  let '(extents, visited) := acc in
  '(words, visited) ← _pointer_block block visited;
  match height with
  | O => extents ← add_words base extents words; Ok (extents, visited)
  | S height' =>
      foldM (fun (acc : list extent * list Z) (item : Z * Z) =>
          if item.2 =? 0 then Ok acc
          else add_tree per_block height' (base + item.1 * per_block ^ Z.of_nat height) acc item.2)
        (extents, visited) (enumerate words)
  end.

Definition _indirect_inode_blocks (inode : bytes) : result (list extent) :=
  pointers ← unpack_words inode 40 15;
  let per_block := block_size / 4 in
  let pointer i := default 0 (nthZ pointers i) in
  extents ← add_words 0 [] (py_slice pointers 0 12);
  acc ← (if negb (pointer 12 =? 0) then add_tree per_block 0 12 (extents, []) (pointer 12) else Ok (extents, []));
  let double_base := 12 + per_block in
  acc ← (if negb (pointer 13 =? 0) then add_tree per_block 1 double_base acc (pointer 13) else Ok acc);
  let triple_base := double_base + per_block * per_block in
  acc ← (if negb (pointer 14 =? 0) then add_tree per_block 2 triple_base acc (pointer 14) else Ok acc);
  Ok acc.1.

(** ** Merging *)

Definition extent_leb (a b : extent) : bool :=
  let '(l1, p1, n1) := a in let '(l2, p2, n2) := b in
  (l1 <? l2) || ((l1 =? l2) && ((p1 <? p2) || ((p1 =? p2) && (n1 <=? n2)))).

(** [result] is kept reversed. *)
Definition coalesce_extent (acc : list extent * Z) (e : extent) : result (list extent * Z) :=
  let '(result, previous_logical_end) := acc in
  let '(logical, physical, len) := e in
  if len <=? 0 then Ok acc else
  check logical <? previous_logical_end # BackendError "overlapping ext file extents";
  let result :=
    match result with
    | (old_logical, old_physical, old_length) :: rest =>
        if (old_logical + old_length =? logical) && (old_physical + old_length =? physical)
        then (old_logical, old_physical, old_length + len) :: rest
        else e :: result
    | [] => [e]
    end in
  Ok (result, logical + len).

Definition _coalesce_extents (extents : list extent) : result (list extent) :=
  acc ← foldM coalesce_extent ([], -1) (py_sorted extent_leb extents);
  Ok (reverse acc.1).

Definition _inode_extents (inode : bytes) : result (list extent) :=
  flags ← u32le inode 32;
  if has_flag flags _EXT4_INLINE_DATA_FL then Ok [] else
  if has_flag flags _EXT4_EXTENTS_FL then (extents ← _extent_inode_blocks inode; _coalesce_extents extents)
  else (extents ← _indirect_inode_blocks inode; _coalesce_extents extents).
End extent_tree.

Definition _filesystem_name (compat incompat : Z) : string :=
  if has_flag incompat _EXT4_FEATURE_INCOMPAT_EXTENTS then "ext4"
  else if has_flag compat _EXT4_FEATURE_COMPAT_HAS_JOURNAL then "ext3" else "ext2".

(** ** Inode tables *)

Record descriptor := mkDescriptor { d_block_bitmap : Z; d_inode_bitmap : Z; d_inode_table : Z; d_flags : Z }.

(** The numbers the superblock gives. *)
Record geometry := mkGeometry {
  g_total_inodes : Z; g_block_size : Z; g_total_blocks : Z; g_physical_blocks : Z; g_first_data : Z; g_blocks_per_group : Z;
  g_inodes_per_group : Z; g_first_normal_inode : Z; g_inode_size : Z; g_desc_size : Z; g_has_64bit : bool;
  g_compat : Z; g_incompat : Z; g_ro_compat : Z
}.

Record scan := mkScan {
  s_regular_files : Z; s_directories : Z; s_fragmented_files : Z; s_fragmented_directories : Z;
  s_inodes_scanned : Z; s_malformed_inodes : Z;
  s_fragmented_ranges : list range; s_directory_ranges : list range; s_reserved_inode_ranges : list range
}.

Definition scan_start : scan := mkScan 0 0 0 0 0 0 [] [] [].

Definition add_malformed (n : Z) (s : scan) : scan :=
  mkScan (s_regular_files s) (s_directories s) (s_fragmented_files s) (s_fragmented_directories s) (s_inodes_scanned s) (s_malformed_inodes s + n)
    (s_fragmented_ranges s) (s_directory_ranges s) (s_reserved_inode_ranges s).

Definition add_scanned (s : scan) : scan :=
  mkScan (s_regular_files s) (s_directories s) (s_fragmented_files s) (s_fragmented_directories s) (s_inodes_scanned s + 1) (s_malformed_inodes s)
    (s_fragmented_ranges s) (s_directory_ranges s) (s_reserved_inode_ranges s).

Definition add_reserved (ranges : list range) (s : scan) : scan :=
  mkScan (s_regular_files s) (s_directories s) (s_fragmented_files s) (s_fragmented_directories s) (s_inodes_scanned s) (s_malformed_inodes s)
    (s_fragmented_ranges s) (s_directory_ranges s) (s_reserved_inode_ranges s ++ ranges).

Definition add_file (is_directory fragmented : bool) (ranges : list range) (s : scan) : scan :=
  mkScan (if is_directory then s_regular_files s else s_regular_files s + 1) (if is_directory then s_directories s + 1 else s_directories s)
    (if negb is_directory && fragmented then s_fragmented_files s + 1 else s_fragmented_files s)
    (if is_directory && fragmented then s_fragmented_directories s + 1 else s_fragmented_directories s)
    (s_inodes_scanned s) (s_malformed_inodes s)
    (if fragmented then s_fragmented_ranges s ++ ranges else s_fragmented_ranges s)
    (if is_directory then s_directory_ranges s ++ ranges else s_directory_ranges s) (s_reserved_inode_ranges s).

Section backend.
Context (r : reader) (g : geometry).

(** One allocated inode. *)
Definition scan_inode (inode : bytes) (inode_number : Z) (s : scan) : result scan :=
  raw_mode ← u16le inode 0;
  let mode := Z.land raw_mode _EXT4_S_IFMT in
  if negb ((mode =? _EXT4_S_IFREG) || (mode =? _EXT4_S_IFDIR)) then Ok s else
  let s := add_scanned s in
  let is_directory := mode =? _EXT4_S_IFDIR in
  match _inode_extents r (g_block_size g) (g_total_blocks g) inode with
  | Raise e => if decide (exn_kind e = BackendError \/ exn_kind e = StructError) then Ok (add_malformed 1 s) else Raise e
  | Ok extents =>
      let ranges := map (fun e : extent => (e.1.2, e.1.2 + e.2)) extents in
      if (inode_number <? g_first_normal_inode g) && negb (inode_number =? 2) then Ok (add_reserved ranges s)
      else Ok (add_file is_directory (1 <? py_len extents) ranges s)
  end.

Definition chunk_inodes : Z :=
  let n := Z.max 8 (_INODE_READ_CHUNK / g_inode_size g) in n - n mod 8.

(** [range(0, n, step)] *)
Definition steps (n step : Z) : list Z := map (fun i => i * step) (py_range 0 ((n + step - 1) / step)).

(** One chunk of an inode table. *)
Definition scan_chunk (bitmap : bytes) (inode_table first_inode valid_inodes : Z) (s : scan) (chunk_start : Z) : result scan :=
  let count := Z.min chunk_inodes (valid_inodes - chunk_start) in
  let byte_start := chunk_start / 8 in
  let byte_end := (chunk_start + count + 7) / 8 in
  if negb (existsb (fun b => negb (b =? 0)) (py_slice bitmap byte_start byte_end)) then Ok s else
  let table_offset := inode_table * g_block_size g + chunk_start * g_inode_size g in
  raw ← reader_read r table_offset (count * g_inode_size g);
  foldM (fun s local =>
      let bit := chunk_start + local in
      byte ← py_get bitmap (Z.shiftr bit 3);
      if negb (has_flag byte (Z.shiftl 1 (Z.land bit 7))) then Ok s else
      let inode := py_slice raw (local * g_inode_size g) ((local + 1) * g_inode_size g) in
      scan_inode inode (first_inode + bit + 1) s)
    s (py_range 0 count).

Definition scan_group (s : scan) (item : Z * descriptor) : result scan :=
  let '(group, d) := item in
  let first_inode := group * g_inodes_per_group g in
  let valid_inodes := Z.min (g_inodes_per_group g) (Z.max 0 (g_total_inodes g - first_inode)) in
  if (valid_inodes <=? 0) || has_flag (d_flags d) _EXT4_BG_INODE_UNINIT then Ok s else
  if (d_inode_bitmap d <=? 0) || (g_total_blocks g <=? d_inode_bitmap d) || (d_inode_table d <=? 0) || (g_total_blocks g <=? d_inode_table d)
  then Ok (add_malformed valid_inodes s) else
  bitmap ← reader_read r (d_inode_bitmap d * g_block_size g) (g_block_size g);
  check py_len bitmap * 8 <? valid_inodes # BackendError "ext inode bitmap is shorter than its block group";
  foldM (scan_chunk bitmap (d_inode_table d) first_inode valid_inodes) s (steps valid_inodes chunk_inodes).

Definition _scan_fragmentation (descriptors : list descriptor) : result scan :=
  s ← foldM scan_group scan_start (enumerate descriptors);
  Ok (mkScan (s_regular_files s) (s_directories s) (s_fragmented_files s) (s_fragmented_directories s) (s_inodes_scanned s) (s_malformed_inodes s)
        (merge_ranges (s_fragmented_ranges s)) (merge_ranges (s_directory_ranges s)) (merge_ranges (s_reserved_inode_ranges s))).

(** ** Group descriptors *)

Definition groups : Z := (g_total_blocks g - g_first_data g + g_blocks_per_group g - 1) / g_blocks_per_group g.
Definition desc_table_block : Z := if g_block_size g =? 1024 then 2 else 1.
Definition inode_table_blocks : Z := (g_inodes_per_group g * g_inode_size g + g_block_size g - 1) / g_block_size g.
Definition descriptor_blocks : Z := (groups * g_desc_size g + g_block_size g - 1) / g_block_size g.

(** Descriptors, bitmaps, lengths and reserved ranges of the groups so far. *)
Record group_tables := mkTables {
  t_descriptors : list descriptor; t_bitmaps : list (option bytes); t_lengths : list Z; t_reserved : list range
}.

Definition inside (block : Z) : bool := (0 <? block) && (block <? g_total_blocks g).

Definition read_group (t : group_tables) (group : Z) : result group_tables :=
  raw ← reader_read r (desc_table_block * g_block_size g + group * g_desc_size g) (g_desc_size g);
  bb ← u32le raw 0;
  ib ← u32le raw 4;
  it ← u32le raw 8;
  '(block_bitmap, inode_bitmap, inode_table) ←
    (if g_has_64bit g && (64 <=? g_desc_size g) then
       bh ← u32le raw 32; ih ← u32le raw 36; th ← u32le raw 40;
       Ok (Z.lor bb (Z.shiftl bh 32), Z.lor ib (Z.shiftl ih 32), Z.lor it (Z.shiftl th 32))
     else Ok (bb, ib, it));
  flags ← u16le raw 18;
  let group_start := g_first_data g + group * g_blocks_per_group g in
  let group_count := Z.min (g_blocks_per_group g) (g_total_blocks g - group_start) in
  let total := g_total_blocks g in
  let reserved :=
    t_reserved t ++ (if inside block_bitmap then [(block_bitmap, Z.min total (block_bitmap + 1))] else [])
      ++ (if inside inode_bitmap then [(inode_bitmap, Z.min total (inode_bitmap + 1))] else [])
      ++ (if inside inode_table then [(inode_table, Z.min total (inode_table + inode_table_blocks))] else []) in
  bitmap ← (if inside block_bitmap then (data ← reader_read r (block_bitmap * g_block_size g) (g_block_size g); Ok (Some data)) else Ok None);
  Ok (mkTables (t_descriptors t ++ [mkDescriptor block_bitmap inode_bitmap inode_table flags]) (t_bitmaps t ++ [bitmap])
        (t_lengths t ++ [group_count]) reserved).

Definition read_groups : result group_tables :=
  foldM read_group (mkTables [] [] [] [(0, Z.min (g_total_blocks g) (desc_table_block + descriptor_blocks))]) (py_range 0 groups).

(** ** Map cells *)

(** Free, used, unknown and outside blocks of a cell. *)
Record tally := mkTally { y_free : Z; y_used : Z; y_unknown : Z; y_outside : Z }.

(** [while position < filesystem_end]; every round takes at least one block. *)
Fixpoint bitmap_loop (fuel : nat) (t : group_tables) (filesystem_end position : Z) (y : tally) : result (tally * Z) :=
  if filesystem_end <=? position then Ok (y, position) else
  match fuel with
  | O => raise OutOfFuel "bitmap_loop"
  | S fuel' =>
      let relative := position - g_first_data g in
      let group := relative / g_blocks_per_group g in
      let within := relative mod g_blocks_per_group g in
      len ← py_get (t_lengths t) group;
      let take := Z.min (filesystem_end - position) (len - within) in
      bitmap ← py_get (t_bitmaps t) group;
      y ← match bitmap with
          | None => Ok (mkTally (y_free y) (y_used y) (y_unknown y + take) (y_outside y))
          | Some data =>
              set_bits ← count_set_bits data within (within + take);
              Ok (mkTally (y_free y + (take - set_bits)) (y_used y + set_bits) (y_unknown y) (y_outside y))
          end;
      bitmap_loop fuel' t filesystem_end (position + take) y
  end.

Definition map_cell (t : group_tables) (cell_count cell_index : Z) : result (cell * Z) :=
  let start := (cell_index * g_physical_blocks g) / cell_count in
  let end_ex := ((cell_index + 1) * g_physical_blocks g) / cell_count in
  let skipped := if start <? g_first_data g then Z.min end_ex (g_first_data g) - start else 0 in
  let position := start + skipped in
  let filesystem_end := Z.min end_ex (g_total_blocks g) in
  '(y, position) ← bitmap_loop (Z.to_nat (filesystem_end - position)) t filesystem_end position (mkTally 0 0 skipped 0);
  let outside := y_outside y + (if position <? end_ex then end_ex - position else 0) in
  Ok (Cell start (end_ex - 1) (y_free y) (y_used y) (y_unknown y) 0 0 0, outside).

Record ext_map := mkExtMap {
  em_filesystem : string; em_unit_size : Z; em_total_units : Z; em_filesystem_units : Z; em_cell_count : Z;
  em_total_bytes : Z; em_filesystem_bytes : Z; em_outside_bytes : Z; em_free_bytes : Z; em_used_bytes : Z; em_unknown_bytes : Z;
  em_cells : list (cell * Z); em_details : details; em_files : option file_counts
}.

Definition map_cells (t : group_tables) (cells : Z) : result (list (cell * Z)) :=
  let cell_count := Z.max 1 (Z.min cells (g_physical_blocks g)) in
  mapM_result (map_cell t cell_count) (py_range 0 cell_count).

Definition base_map (out : list (cell * Z)) : ext_map :=
  let unit := g_block_size g in
  let outside_total := zsum (map snd out) in
  mkExtMap (_filesystem_name (g_compat g) (g_incompat g)) unit (g_physical_blocks g) (g_total_blocks g) (py_len out)
    (g_physical_blocks g * unit) (g_total_blocks g * unit) (outside_total * unit)
    (zsum (map (fun c => c_free c.1) out) * unit) (zsum (map (fun c => c_used c.1) out) * unit) (zsum (map (fun c => c_unknown c.1) out) * unit)
    out
    [("block_size", JInt unit); ("groups", JInt groups); ("physical_blocks", JInt (g_physical_blocks g)); ("filesystem_blocks", JInt (g_total_blocks g));
     ("outside_filesystem_blocks", JInt outside_total); ("inode_size", JInt (g_inode_size g))]
    None.

Definition with_details (m : ext_map) (cells : list cell) (dets : details) (files : option file_counts) : ext_map :=
  mkExtMap (em_filesystem m) (em_unit_size m) (em_total_units m) (em_filesystem_units m) (em_cell_count m) (em_total_bytes m)
    (em_filesystem_bytes m) (em_outside_bytes m) (em_free_bytes m) (em_used_bytes m) (em_unknown_bytes m)
    (zip cells (map snd (em_cells m))) (em_details m ++ dets) files.

Definition no_scan (m : ext_map) (note : string) : ext_map :=
  with_details m (map fst (em_cells m)) [("fragmentation_available", JBool false); ("fragmentation_note", JStr note)] None.

Definition finish_map (m : ext_map) (t : group_tables) : result ext_map :=
  if has_flag (g_ro_compat g) _EXT4_FEATURE_RO_COMPAT_BIGALLOC then Ok (no_scan m "ext bigalloc fragmentation scanning is not yet supported") else
  if has_flag (g_incompat g) _EXT4_FEATURE_INCOMPAT_META_BG then Ok (no_scan m "ext meta_bg fragmentation scanning is not yet supported") else
  match _scan_fragmentation (t_descriptors t) with
  | Raise e => if decide (exn_kind e = BackendError) then Ok (no_scan m (exn_msg e)) else Raise e
  | Ok s =>
      let '(cells1, fragmented_blocks) := overlay_ranges (map fst (em_cells m)) (s_fragmented_ranges s) FFragmented in
      let '(cells2, directory_blocks) := overlay_ranges cells1 (s_directory_ranges s) FDirectory in
      let '(cells3, reserved_blocks) := overlay_ranges cells2 (t_reserved t ++ s_reserved_inode_ranges s) FBad in
      Ok (with_details m cells3
            [("fragmentation_available", JBool true); ("fragmentation_basis", JStr "ext inode allocation and physical extent trees");
             ("inodes_scanned", JInt (s_inodes_scanned s)); ("malformed_inodes", JInt (s_malformed_inodes s));
             ("fragmented_blocks_mapped", JInt fragmented_blocks); ("directory_blocks_mapped", JInt directory_blocks);
             ("reserved_blocks_mapped", JInt reserved_blocks); ("reserved_inode_extents", JInt (py_len (s_reserved_inode_ranges s)))]
            (Some (FileCounts (s_regular_files s) (s_directories s) (s_fragmented_files s) (s_fragmented_directories s)
                     (100 * s_fragmented_files s, Z.max 1 (s_regular_files s)))))
  end.
End backend.

(** ** The backend *)

Definition probe (opened : result reader) : result bool :=
  r ← opened;
  superblock ← reader_read r 1024 1024;
  magic ← u16le superblock 56;
  Ok (magic =? 61267).

(** [x or y] on integers. *)
Definition py_or (x y : Z) : Z := if x =? 0 then y else x.

Definition read_geometry (superblock : bytes) (reader_size : Z) : result geometry :=
  total_inodes ← u32le superblock 0;
  log ← u32le superblock 24;
  let block_size := Z.shiftl 1024 log in
  blocks_lo ← u32le superblock 4;
  compat ← u32le superblock 92;
  incompat ← u32le superblock 96;
  ro_compat ← u32le superblock 100;
  let has_64bit := has_flag incompat _EXT4_FEATURE_INCOMPAT_64BIT in
  blocks_hi ← (if has_64bit then u32le superblock 336 else Ok 0);
  let total_blocks := Z.lor blocks_lo (Z.shiftl blocks_hi 32) in
  let physical_blocks := Z.max total_blocks (reader_size / block_size) in
  first_data ← u32le superblock 20;
  blocks_per_group ← u32le superblock 32;
  inodes_per_group ← u32le superblock 40;
  first_normal ← u32le superblock 84;
  isize ← u16le superblock 88;
  let inode_size := py_or isize 128 in
  dsize ← (if has_64bit then u16le superblock 254 else Ok 32);
  check (total_blocks =? 0) || (blocks_per_group =? 0) || (total_inodes =? 0) || (inodes_per_group =? 0) # BackendError "invalid ext geometry";
  check (block_size <? 1024) || (65536 <? block_size) || negb (Z.land block_size (block_size - 1) =? 0) # BackendError "unsupported ext block size";
  check (inode_size <? 128) || (block_size <? inode_size) || has_flag inode_size 3 # BackendError "unsupported ext inode size";
  Ok (mkGeometry total_inodes block_size total_blocks physical_blocks first_data blocks_per_group inodes_per_group (py_or first_normal 11)
        inode_size (Z.max 32 dsize) has_64bit compat incompat ro_compat).

Definition ext_map_volume (opened : result reader) (cells : Z) : result ext_map :=
  r ← opened;
  superblock ← reader_read r 1024 1024;
  magic ← u16le superblock 56;
  check negb (magic =? 61267) # BackendError "not an ext filesystem";
  g ← read_geometry superblock (reader_size r);
  t ← read_groups r g;
  out ← map_cells g t cells;
  finish_map r g (base_map g out) t.
