(* ===== verification/Ext4Facts.v ===== *)
(** * Correctness of the ext2/3/4 analysis

    Facts about [Ext4]: every map cell counts the bits of the group bitmaps
    exactly, one block at a time; extent trees and indirect blocks are walked
    to the end on every device; and once the group tables are read, the map is
    delivered whatever the inodes hold. *)

From S2P Require Import Prelude Text Bytes Ranges RangesFacts Bitmap AggregateFacts ReaderFacts Xfs XfsFacts Ext4.

Local Open Scope Z_scope.

(** ** Geometry *)

Record geometry_ok (g : geometry) : Prop := mkGeometryOk {
  go_block : 1024 <= g_block_size g;
  go_words : g_block_size g = 4 * (g_block_size g / 4);
  go_total : 0 < g_total_blocks g;
  go_physical : g_total_blocks g <= g_physical_blocks g;
  go_first : 0 <= g_first_data g;
  go_group : 0 < g_blocks_per_group g;
  go_inodes : 0 < g_inodes_per_group g;
  go_inode : 128 <= g_inode_size g;
  go_desc : 32 <= g_desc_size g
}.

Lemma power_words n : 1024 <= n -> Z.land n (n - 1) = 0 -> n = 4 * (n / 4).
Proof.
  intros Hn H. assert (n mod 4 = 0) as Hm; [|pose proof (Z.div_mod n 4 ltac:(lia)); lia].
  destruct (Z.eq_dec (n mod 4) 0) as [|Hne]; [done|]. exfalso.
  (* a set bit above bit 1 survives [n & (n - 1)] *)
  assert (forall i, 2 <= i -> Z.testbit n i = Z.testbit (n - 1) i) as Hbits.
  { intros i Hi. pose proof (Z.div_mod n 4 ltac:(lia)). pose proof (Z.mod_pos_bound n 4 ltac:(lia)).
    replace i with ((i - 2) + 2) by lia. rewrite <- !Z.shiftr_spec, !Z.shiftr_div_pow2 by lia. f_equal.
    apply (Z.div_unique (n - 1) (2 ^ 2) (n / 2 ^ 2) (n mod 4 - 1)); [lia|]. change (2 ^ 2) with 4. lia. }
  assert (Z.testbit n (Z.log2 n) = true) as Htop by (apply Z.bit_log2; lia).
  assert (2 <= Z.log2 n) as Hlog by (pose proof (Z.log2_le_mono 4 n ltac:(lia)); change (Z.log2 4) with 2 in *; lia).
  assert (Z.testbit (Z.land n (n - 1)) (Z.log2 n) = true) as Hand by (rewrite Z.land_spec, <- (Hbits _ Hlog), Htop; done).
  rewrite H, Z.bits_0 in Hand. done.
Qed.

Lemma geometry_read superblock size g : wf_bytes superblock -> read_geometry superblock size = Ok g -> geometry_ok g.
Proof.
  intros Hw H. unfold read_geometry in H. apply bind_ok in H as (total_inodes & H1 & H). apply bind_ok in H as (log & H2 & H). cbv zeta in H.
  apply bind_ok in H as (lo & H3 & H). apply bind_ok in H as (compat & _ & H). apply bind_ok in H as (incompat & _ & H). apply bind_ok in H as (ro & _ & H).
  apply bind_ok in H as (hi & H4 & H). apply bind_ok in H as (first & H5 & H). apply bind_ok in H as (bpg & H6 & H). apply bind_ok in H as (ipg & H7 & H).
  apply bind_ok in H as (fn & _ & H). apply bind_ok in H as (isize & _ & H). apply bind_ok in H as (dsize & _ & H).
  do 3 (match type of H with (if ?b then _ else _) = _ => destruct b eqn:?; [done|] end). bool_to_prop. injection H as <-.
  apply unpack_le_bounds in H3, H5, H6, H7; [|done|lia|lia..|done|lia|lia|done|lia|lia|done|lia|lia].
  assert (0 <= hi) as Hhi by (destruct (has_flag incompat _); [apply unpack_le_bounds in H4; [lia|done|lia|lia]|injection H4 as <-; lia]).
  set (total := Z.lor lo (Z.shiftl hi 32)) in *.
  assert (0 <= total) as Ht by (apply Z.lor_nonneg; split; [lia|by apply Z.shiftl_nonneg]).
  constructor; cbn; try lia. by apply power_words.
Qed.

(** ** The group tables *)

Section tables.
Context (r : reader) (g : geometry).
Hypothesis Hg : geometry_ok g.
Hypothesis Hw : wf_bytes (reader_dev r).

Definition group_length (group : Z) : Z := Z.min (g_blocks_per_group g) (g_total_blocks g - (g_first_data g + group * g_blocks_per_group g)).

Definition bitmap_ok (b : option bytes) : Prop :=
  match b with Some data => wf_bytes data /\ py_len data = g_block_size g | None => True end.

Definition tables_inv (n : Z) (t : group_tables) : Prop :=
  t_lengths t = map group_length (py_range 0 n) /\ py_len (t_bitmaps t) = Z.max 0 n /\ Forall bitmap_ok (t_bitmaps t).

Lemma read_group_inv n t t' : 0 <= n -> tables_inv n t -> read_group r g t n = Ok t' -> tables_inv (n + 1) t'.
Proof.
  intros Hn (Hl & Hb & Hf) H. pose proof (go_block g Hg). unfold read_group in H. apply bind_ok in H as (raw & _ & H). do 3 apply bind_ok in H as (? & _ & H).
  apply bind_ok in H as ([[bb ib] it] & _ & H). apply bind_ok in H as (fl & _ & H). cbv zeta in H. apply bind_ok in H as (bitmap & Hbm & H). injection H as <-.
  unfold tables_inv. cbn [t_lengths t_bitmaps]. split; [|split].
  - rewrite Hl. rewrite (py_range_snoc 0 (n + 1)) by lia. replace (n + 1 - 1) with n by lia. by rewrite map_app.
  - rewrite py_len_app, Hb. unfold py_len. cbn. lia.
  - apply Forall_app_2; [done|]. apply Forall_singleton. destruct (inside g bb); [|by injection Hbm as <-].
    apply bind_ok in Hbm as (data & Hd & Hbm). injection Hbm as <-. split; [by eapply read_wf|]. eapply read_len; [|exact Hd]. lia.
Qed.

Lemma read_groups_inv t : read_groups r g = Ok t -> tables_inv (Z.max 0 (groups g)) t.
Proof.
  intros H. unfold read_groups in H.
  assert (forall k n t0, n = groups g - Z.of_nat k -> 0 <= n -> tables_inv n t0 -> foldM (read_group r g) t0 (py_range n (groups g)) = Ok t -> tables_inv (groups g) t) as Hgen.
  { induction k as [|k IH]; intros n t0 En Hn Hinv Hf.
    - rewrite py_range_nil in Hf by lia. injection Hf as <-. by replace (groups g) with n by lia.
    - rewrite py_range_cons in Hf by lia. cbn [foldM] in Hf. apply bind_ok in Hf as (t1 & H1 & Hf). eapply IH; [|..|exact Hf]; [lia|lia|]. by eapply read_group_inv. }
  set (t0 := mkTables [] [] [] _) in H. assert (tables_inv 0 t0) as H0 by (split; [done|]; split; [done|constructor]).
  destruct (Z.le_gt_cases (groups g) 0) as [Hle|Hgt]; [|rewrite Z.max_r by lia; eapply (Hgen (Z.to_nat (groups g)) 0 t0); (done || lia)].
  rewrite py_range_nil in H by lia. injection H as <-. by rewrite Z.max_l by lia.
Qed.

(** ** The states of blocks *)

(** 0 free, 1 used, 2 unknown, 3 outside the filesystem. *)
Definition block_state (t : group_tables) (x : Z) : Z :=
  if x <? g_first_data g then 2
  else if x <? g_total_blocks g then
    match t_bitmaps t !! Z.to_nat ((x - g_first_data g) / g_blocks_per_group g) with
    | Some (Some data) => if bit_at data ((x - g_first_data g) mod g_blocks_per_group g) then 1 else 0
    | _ => 2
    end
  else 3.

Definition add_tally (y : tally) (c : counts) : tally := mkTally (y_free y + n0 c) (y_used y + n1 c) (y_unknown y + n2 c) (y_outside y + n3 c).

Lemma group_range t x : tables_inv (Z.max 0 (groups g)) t -> g_first_data g <= x < g_total_blocks g ->
  let group := (x - g_first_data g) / g_blocks_per_group g in
  0 <= group /\ py_get (t_lengths t) group = Ok (group_length group) /\
  exists b, t_bitmaps t !! Z.to_nat group = Some b /\ py_get (t_bitmaps t) group = Ok b /\ bitmap_ok b.
Proof.
  intros (Hl & Hb & Hf) Hx group. pose proof (go_group g Hg) as Hbpg. assert (0 <= group) as H0 by (apply Z.div_pos; lia).
  assert (group < groups g) as Hlt.
  { unfold group, groups. apply Z.div_lt_upper_bound; [lia|]. pose proof (Z.mul_succ_div_gt (g_total_blocks g - g_first_data g + g_blocks_per_group g - 1) (g_blocks_per_group g) Hbpg). lia. }
  split; [done|]. unfold py_get. rewrite (proj2 (Z.ltb_ge group 0)) by lia. rewrite (proj2 (Z.ltb_ge group 0)) by lia. split.
  - rewrite Hl. change (map group_length) with (fmap (M:=list) group_length). rewrite list_lookup_fmap. unfold py_range.
    rewrite lookup_seqZ_lt by lia. cbn. do 2 f_equal. lia.
  - destruct (t_bitmaps t !! Z.to_nat group) as [b|] eqn:E; [|apply lookup_ge_None in E; unfold py_len in Hb; lia].
    exists b. split; [done|]. split; [done|]. rewrite Forall_forall in Hf. apply Hf. by eapply list_elem_of_lookup_2.
Qed.

(** One round of the loop: the rest of the group or of the cell. *)
Lemma round_counts t pos take data :
  g_first_data g <= pos -> 0 <= take -> pos + take <= g_total_blocks g ->
  (pos - g_first_data g) mod g_blocks_per_group g + take <= g_blocks_per_group g ->
  t_bitmaps t !! Z.to_nat ((pos - g_first_data g) / g_blocks_per_group g) = Some data ->
  let within := (pos - g_first_data g) mod g_blocks_per_group g in
  counts_of (block_state t) pos (pos + take) =
  match data with
  | Some d => let n := count_where (bit_at d) within (within + take) in Counts (take - n) n 0 0
  | None => Counts 0 0 take 0
  end.
Proof.
  intros Hp Ht Hend Hw' Hd within. pose proof (go_group g Hg) as Hbpg. set (bpg := g_blocks_per_group g) in *. set (first := g_first_data g) in *.
  assert (forall x, pos <= x < pos + take -> block_state t x = match data with Some d => if bit_at d (within + (x - pos)) then 1 else 0 | None => 2 end) as Hst.
  { intros x Hx. unfold block_state. fold first bpg. rewrite (proj2 (Z.ltb_ge x first)), (proj2 (Z.ltb_lt x (g_total_blocks g))) by lia.
    pose proof (Z.div_mod (pos - first) bpg ltac:(lia)) as Hdm. pose proof (Z.mod_pos_bound (pos - first) bpg Hbpg) as Hmb.
    assert ((x - first) / bpg = (pos - first) / bpg) as -> by (symmetry; apply (Z.div_unique _ _ _ (within + (x - pos))); unfold within in *; lia).
    assert ((x - first) mod bpg = within + (x - pos)) as -> by (symmetry; apply (Z.mod_unique _ _ ((pos - first) / bpg)); unfold within in *; lia).
    rewrite Hd. by destruct data. }
  rewrite (counts_of_ext _ _ _ _ Hst). destruct data as [d|]; unfold counts_of; cbv zeta.
  - assert (forall q, count_where (fun x => q (bit_at d (within + (x - pos)))) pos (pos + take) = count_where (fun x => q (bit_at d x)) within (within + take)) as Hsh.
    { intros q. pose proof (count_where_shift (fun x => q (bit_at d (within + (x - pos)))) 0 take pos) as E. rewrite Z.add_0_l in E.
      rewrite (Z.add_comm take pos) in E. rewrite E. pose proof (count_where_shift (fun x => q (bit_at d x)) 0 take within) as E2. rewrite Z.add_0_l, (Z.add_comm take within) in E2. rewrite E2.
      apply count_where_ext. intros x _. do 2 f_equal. lia. }
    rewrite (Hsh (fun b => (if b then 1 else 0) =? 0)), (Hsh (fun b => (if b then 1 else 0) =? 1)), (Hsh (fun b => (if b then 1 else 0) =? 2)), (Hsh (fun b => (if b then 1 else 0) =? 3)).
    rewrite (count_where_ext _ (fun x => negb (bit_at d x))), count_where_negb by (lia || (intros x _; by destruct (bit_at d x))).
    rewrite (count_where_ext (fun x => (if bit_at d x then 1 else 0) =? 1) (bit_at d)) by (intros x _; by destruct (bit_at d x)).
    rewrite (count_where_none (fun x => (if bit_at d x then 1 else 0) =? 2)), (count_where_none (fun x => (if bit_at d x then 1 else 0) =? 3)) by (intros x _; by destruct (bit_at d x)).
    f_equal. lia.
  - rewrite !(count_where_none (fun _ => false)) by done. f_equal. rewrite count_where_all by done. lia.
Qed.

Lemma add_tally_counts y c d : add_tally (add_tally y c) d = add_tally y (add_counts c d).
Proof. destruct y, c, d. unfold add_tally, add_counts. cbn. f_equal; lia. Qed.

Lemma add_no_tally y : add_tally y no_counts = y.
Proof. destruct y. unfold add_tally. cbn. f_equal; lia. Qed.

(** A bitmap block has a bit for every block of its group. *)
Hypothesis Hbits : g_blocks_per_group g <= 8 * g_block_size g.

Lemma bitmap_loop_counts t (Ht : tables_inv (Z.max 0 (groups g)) t) filesystem_end (Hend : filesystem_end <= g_total_blocks g) fuel : forall pos y,
  g_first_data g <= pos -> filesystem_end - pos <= Z.of_nat fuel ->
  bitmap_loop g fuel t filesystem_end pos y = Ok (add_tally y (counts_of (block_state t) pos filesystem_end), Z.max pos filesystem_end).
Proof.
  pose proof (go_group g Hg) as Hbpg. induction fuel as [|fuel IH]; intros pos y Hp Hf; cbn [bitmap_loop].
  all: destruct (Z.leb_spec filesystem_end pos) as [Hle|Hlt]; [rewrite counts_of_nil, add_no_tally by lia; do 2 f_equal; lia|]. { lia. }
  cbv zeta. set (group := (pos - g_first_data g) / g_blocks_per_group g). set (within := (pos - g_first_data g) mod g_blocks_per_group g).
  destruct (group_range t pos Ht ltac:(lia)) as (H0 & Hlen & b & Hlook & Hget & Hb). fold group in H0, Hlen, Hlook, Hget. rewrite Hlen. cbn [mbind result_bind].
  pose proof (Z.div_mod (pos - g_first_data g) (g_blocks_per_group g) ltac:(lia)) as Hdm. pose proof (Z.mod_pos_bound (pos - g_first_data g) _ Hbpg) as Hmb.
  fold group within in Hdm, Hmb. set (take := Z.min (filesystem_end - pos) (group_length group - within)).
  assert (0 < take /\ within + take <= g_blocks_per_group g /\ pos + take <= filesystem_end) as (Htk & Hwt & Hpt) by (unfold take, group_length; lia).
  rewrite Hget. cbn [mbind result_bind].
  pose proof (round_counts t pos take b Hp ltac:(lia) ltac:(lia) Hwt Hlook) as Hrc. fold within in Hrc. cbv zeta in Hrc.
  assert (forall y', y' = add_tally y (counts_of (block_state t) pos (pos + take)) -> bitmap_loop g fuel t filesystem_end (pos + take) y' =
    Ok (add_tally y (counts_of (block_state t) pos filesystem_end), Z.max pos filesystem_end)) as Hnext.
  { intros y' ->. rewrite IH by lia. rewrite add_tally_counts, <- counts_of_split by lia. do 2 f_equal. lia. }
  destruct b as [data|]; cbn [mbind result_bind].
  - destruct Hb as [Hwd Hld]. rewrite count_set_bits_spec by (done || lia). cbn [mbind result_bind]. apply Hnext. rewrite Hrc.
    unfold add_tally. cbn [n0 n1 n2 n3]. f_equal; lia.
  - apply Hnext. rewrite Hrc. unfold add_tally. cbn [n0 n1 n2 n3]. f_equal; lia.
Qed.

(** The cell of the blocks [b] and the blocks of it outside the filesystem. *)
Definition tally_cell (t : group_tables) (b : range) : cell * Z :=
  let c := counts_of (block_state t) b.1 b.2 in (Cell b.1 (b.2 - 1) (n0 c) (n1 c) (n2 c) 0 0 0, n3 c).

Lemma map_cell_counts t cell_count i : tables_inv (Z.max 0 (groups g)) t -> 0 <= i < cell_count -> cell_count <= g_physical_blocks g ->
  let start := i * g_physical_blocks g / cell_count in let end_ex := (i + 1) * g_physical_blocks g / cell_count in
  start < end_ex /\ map_cell g t cell_count i = Ok (tally_cell t (start, end_ex)).
Proof.
  intros Ht Hi Hc start end_ex. pose proof (go_first g Hg) as Hfirst. pose proof (go_total g Hg) as Htot. set (P := g_physical_blocks g) in *.
  assert (start + 1 <= end_ex) as Hse.
  { unfold start, end_ex. rewrite <- (Z.div_add (i * P) 1 cell_count) by lia. apply Z.div_le_mono; lia. }
  assert (0 <= start) as Hs0 by (apply Z.div_pos; nia). split; [lia|]. unfold map_cell. fold P. fold start end_ex. cbv zeta.
  set (skipped := if start <? g_first_data g then _ else 0). set (first := g_first_data g) in *. set (total := g_total_blocks g) in *. set (fe := Z.min end_ex total).
  assert (start + skipped = Z.max start (Z.min end_ex first)) as Hpos by (unfold skipped; destruct (Z.ltb_spec start first); lia).
  set (st := block_state t). set (pos := start + skipped) in *.
  assert (counts_of st start pos = Counts 0 0 skipped 0) as Hskip.
  { rewrite (counts_of_const st 2) by (lia || (intros x Hx; unfold st, block_state; fold first; rewrite (proj2 (Z.ltb_lt x first)) by lia; done)).
    unfold pos. replace (start + skipped - start) with skipped by lia. done. }
  assert (exists y, bitmap_loop g (Z.to_nat (fe - pos)) t fe pos (mkTally 0 0 skipped 0) = Ok (add_tally (mkTally 0 0 skipped 0) y, Z.max pos fe) /\
    y = counts_of st pos (Z.max pos fe)) as (y & -> & Ey).
  { destruct (Z.le_gt_cases fe pos) as [Hle|Hgt].
    - exists no_counts. rewrite Z2Nat.nonpos by lia. cbn [bitmap_loop]. rewrite (proj2 (Z.leb_le fe pos)), add_no_tally by lia. rewrite Z.max_l by lia. split; [done|].
      by rewrite counts_of_nil by lia.
    - exists (counts_of st pos fe). rewrite bitmap_loop_counts by (done || lia). rewrite Z.max_r by lia. done. }
  cbn [mbind result_bind]. set (q := Z.max pos fe) in *. assert (q <= end_ex) as Hq by lia.
  assert (counts_of st q end_ex = Counts 0 0 0 (end_ex - q)) as Hout.
  { rewrite (counts_of_const st 3); [done|lia|lia|]. intros x Hx. unfold st, block_state. fold first total.
    rewrite (proj2 (Z.ltb_ge x first)), (proj2 (Z.ltb_ge x total)) by lia. done. }
  unfold tally_cell. cbn [fst snd]. fold st. rewrite (counts_of_split st start pos end_ex), (counts_of_split st pos q end_ex) by lia. rewrite <- Ey, Hskip, Hout.
  unfold add_counts, add_tally. cbn [n0 n1 n2 n3 y_free y_used y_unknown y_outside]. do 2 f_equal; [f_equal; lia|]. destruct (Z.ltb_spec q end_ex); lia.
Qed.

Lemma map_cells_counts t cells : tables_inv (Z.max 0 (groups g)) t ->
  exists bounds, chained 0 (g_physical_blocks g) bounds /\ py_len bounds = clamp_cells cells (g_physical_blocks g) /\ map_cells g t cells = Ok (map (tally_cell t) bounds).
Proof.
  intros Ht. pose proof (go_total g Hg). pose proof (go_physical g Hg). set (P := g_physical_blocks g) in *. set (n := clamp_cells cells P).
  pose proof (clamp_cells_range cells P ltac:(lia)) as Hn. fold n in Hn. exists (cell_bounds P n). split; [by apply cell_bounds_chained|].
  split; [unfold cell_bounds; unfold py_len; rewrite length_map; pose proof (py_len_range 0 n); unfold py_len in *; lia|]. unfold map_cells. fold P.
  replace (Z.max 1 (Z.min cells P)) with n by (unfold n, clamp_cells; lia).
  unfold cell_bounds. rewrite map_map. erewrite mapM_result_ext; [apply mapM_result_pure|]. intros i Hi%elem_of_py_range.
  destruct (map_cell_counts t n i Ht) as [Hlt ->]; [lia|lia|]. fold P in Hlt |- *. rewrite Z.max_r by lia. done.
Qed.
End tables.

(** ** The files: every walk ends, and raises at most [BackendError] *)

Section walks.
Context (r : reader) (block_size total_blocks : Z).
Hypothesis Hwords : block_size = 4 * (block_size / 4).
Hypothesis Hbs : 0 <= block_size.
Hypothesis Hw : wf_bytes (reader_dev r).

Lemma leaf_entry_raises data acc index entries :
  12 + entries * 12 <= py_len data -> 0 <= index < entries -> backend_only (leaf_entry total_blocks data acc index).
Proof.
  intros Hl Hi. destruct acc as [p es]. unfold leaf_entry. repeat (apply bo_bind; [apply bo_unpack; lia|intros ? _]). cbv zeta.
  repeat (apply bo_if; intros _; [apply bo_raise|]). apply bo_ok.
Qed.

(** A node of depth [d] needs [d] levels below it. *)
Lemma extent_node_raises levels : forall data expected visited,
  wf_bytes data -> match expected with Some e => e <= Z.of_nat levels | None => _MAX_EXTENT_DEPTH <= Z.of_nat levels end ->
  backend_only (_parse_extent_node r block_size total_blocks levels data expected visited).
Proof.
  induction levels as [|levels IH]; intros data expected visited Hd He; cbn [_parse_extent_node].
  all: apply bo_bind; [destruct (Z.ltb_spec (py_len data) 12); [apply bo_ok|apply bo_unpack; lia]|intros magic _];
    apply bo_if; intros Hm; [apply bo_raise|]; apply orb_false_iff in Hm as [Hm _]; bool_to_prop;
    do 2 (apply bo_bind; [apply bo_unpack; lia|intros ? _]); apply bo_bind; [apply bo_unpack; lia|]; intros depth Hdepth;
    apply unpack_le_bounds in Hdepth; [|done|lia|lia];
    apply bo_if; intros Hexp; [apply bo_raise|]; apply bo_if; intros Hgeo; [apply bo_raise|]; apply bo_if; intros Hlen; [apply bo_raise|]; bool_to_prop;
    destruct (Z.eqb_spec depth 0) as [->|Hd0];
    [apply bo_bind; [apply bo_foldM; intros acc i Hi%elem_of_py_range; by eapply leaf_entry_raises|intros; apply bo_ok]|].
  - exfalso. destruct expected as [e|]; bool_to_prop; unfold _MAX_EXTENT_DEPTH in *; lia.
  - apply bo_bind; [|intros; apply bo_ok]. apply bo_foldM. intros [[p es] v] i Hi%elem_of_py_range. do 3 (apply bo_bind; [apply bo_unpack; lia|intros ? _]). cbv zeta.
    do 2 (apply bo_if; intros _; [apply bo_raise|]). apply bo_bind; [apply bo_read|]. intros child Hc. pose proof (read_wf _ _ _ _ Hw Hc) as Hwc.
    apply bo_bind; [|intros [more v'] _; apply bo_ok]. apply IH; [done|]. destruct expected as [e|]; bool_to_prop; unfold _MAX_EXTENT_DEPTH in *; lia.
Qed.

Lemma unpack_words_raises data offset count : 0 <= offset -> offset + 4 * count <= py_len data -> backend_only (unpack_words data offset count).
Proof.
  intros Ho Hl. unfold unpack_words. rewrite (proj2 (Z.ltb_ge _ _)) by lia. apply bo_mapM. intros i Hi%elem_of_py_range. apply bo_unpack; lia.
Qed.

Lemma pointer_block_raises block visited : backend_only (_pointer_block r block_size total_blocks block visited).
Proof.
  unfold _pointer_block. do 2 (apply bo_if; intros _; [apply bo_raise|]). apply bo_bind; [apply bo_read|]. intros data Hd. apply read_len in Hd; [|done].
  rewrite (proj2 (Z.eqb_eq _ _)) by lia. cbn [negb]. apply bo_bind; [apply unpack_words_raises; lia|]. intros; apply bo_ok.
Qed.

Lemma add_words_raises base es words : backend_only (add_words total_blocks base es words).
Proof.
  apply bo_foldM. intros acc item _. unfold add_data. apply bo_if; intros _; [apply bo_ok|]. apply bo_if; intros _; [apply bo_raise|apply bo_ok].
Qed.

Lemma add_tree_raises per_block height : forall base acc block, backend_only (add_tree r block_size total_blocks per_block height base acc block).
Proof.
  induction height as [|height IH]; intros base [es v] block; cbn [add_tree]; (apply bo_bind; [apply pointer_block_raises|intros [words v'] _]).
  - apply bo_bind; [apply add_words_raises|]. intros; apply bo_ok.
  - apply bo_foldM. intros acc item _. apply bo_if; intros _; [apply bo_ok|]. apply IH.
Qed.

Lemma coalesce_raises es : backend_only (_coalesce_extents es).
Proof.
  unfold _coalesce_extents. apply bo_bind; [|intros; apply bo_ok]. apply bo_foldM. intros [out p] [[l ph] n] _. unfold coalesce_extent.
  apply bo_if; intros _; [apply bo_ok|]. apply bo_if; intros _; [apply bo_raise|apply bo_ok].
Qed.

Lemma inode_extents_raises inode : wf_bytes inode -> 128 <= py_len inode -> backend_only (_inode_extents r block_size total_blocks inode).
Proof.
  intros Hi Hl. unfold _inode_extents. apply bo_bind; [apply bo_unpack; lia|]. intros flags _. apply bo_if; intros _; [apply bo_ok|].
  apply bo_if; intros _; (apply bo_bind; [|intros; apply coalesce_raises]).
  - unfold _extent_inode_blocks. apply bo_bind; [|intros []; intros; apply bo_ok]. apply extent_node_raises; [by apply wf_bytes_slice|done].
  - unfold _indirect_inode_blocks. apply bo_bind; [apply unpack_words_raises; lia|]. intros pointers _. cbv zeta.
    apply bo_bind; [apply add_words_raises|]. intros es _.
    repeat (apply bo_bind; [apply bo_if; intros _; [apply add_tree_raises|apply bo_ok]|intros ? _]). apply bo_ok.
Qed.
End walks.

Section scanning.
Context (r : reader) (g : geometry).
Hypothesis Hg : geometry_ok g.
Hypothesis Hw : wf_bytes (reader_dev r).

Lemma scan_inode_raises inode number s : wf_bytes inode -> 128 <= py_len inode -> backend_only (scan_inode r g inode number s).
Proof.
  intros Hi Hl. pose proof (go_block g Hg). unfold scan_inode. apply bo_bind; [apply bo_unpack; lia|]. intros mode _. cbv zeta. apply bo_if; intros _; [apply bo_ok|].
  pose proof (inode_extents_raises r (g_block_size g) (g_total_blocks g) (go_words g Hg) ltac:(lia) Hw inode Hi Hl) as He.
  destruct (_inode_extents _ _ _ _) as [es|e].
  - apply bo_if; intros _; apply bo_ok.
  - rewrite decide_True by (left; by apply He). apply bo_ok.
Qed.

Lemma chunk_inodes_pos : 0 < chunk_inodes g.
Proof. unfold chunk_inodes. cbv zeta. set (n := Z.max 8 _). pose proof (Z.mod_pos_bound n 8 ltac:(lia)). lia. Qed.

Lemma elem_of_steps n step x : 0 < step -> x ∈ steps n step -> 0 <= x < n.
Proof.
  intros Hs (i & -> & Hi%elem_of_py_range)%list_elem_of_fmap. split; [nia|]. pose proof (Z.mul_div_le (n + step - 1) step Hs). nia.
Qed.

Lemma scan_chunk_raises bitmap table first valid s start :
  0 <= start < valid -> valid <= 8 * py_len bitmap -> backend_only (scan_chunk r g bitmap table first valid s start).
Proof.
  intros Hs Hv. pose proof (go_inode g Hg) as Hisz. unfold scan_chunk. cbv zeta. set (count := Z.min _ _). pose proof chunk_inodes_pos. assert (0 <= count) as Hc by (unfold count; lia).
  apply bo_if; intros _; [apply bo_ok|]. apply bo_bind; [apply bo_read|]. intros raw Hraw. pose proof (read_wf _ _ _ _ Hw Hraw) as Hwr. apply read_len in Hraw; [|nia].
  apply bo_foldM. intros acc i Hi%elem_of_py_range. apply bo_bind.
  - apply bo_get. rewrite Z.shiftr_div_pow2 by lia. change (2 ^ 3) with 8. split; [apply Z.div_pos; lia|]. apply Z.div_lt_upper_bound; unfold count in *; lia.
  - intros byte _. apply bo_if; intros _; [apply bo_ok|]. apply scan_inode_raises; [by apply wf_bytes_slice|]. rewrite py_len_slice by nia. nia.
Qed.

Lemma scan_raises descriptors : backend_only (_scan_fragmentation r g descriptors).
Proof.
  unfold _scan_fragmentation. apply bo_bind; [|intros; apply bo_ok]. apply bo_foldM. intros s [group d] _. unfold scan_group. cbv zeta.
  set (valid := Z.min _ _). do 2 (apply bo_if; intros _; [apply bo_ok|]). apply bo_bind; [apply bo_read|]. intros bitmap _.
  apply bo_if; intros Hv; [apply bo_raise|]. bool_to_prop. apply bo_foldM. intros acc start Hs. apply elem_of_steps in Hs; [|apply chunk_inodes_pos].
  apply scan_chunk_raises; lia.
Qed.

(** The scan decides only what is laid over the cells. *)
Lemma ext_finish_map_total m t : exists m', finish_map r g m t = Ok m' /\
  Forall2 overlaid (map fst (em_cells m)) (map fst (em_cells m')) /\ map snd (em_cells m') = map snd (em_cells m) /\
  em_free_bytes m' = em_free_bytes m /\ em_used_bytes m' = em_used_bytes m /\ em_unknown_bytes m' = em_unknown_bytes m /\ em_outside_bytes m' = em_outside_bytes m.
Proof.
  assert (forall cells dets files, Forall2 overlaid (map fst (em_cells m)) cells -> let m' := with_details m cells dets files in
    Forall2 overlaid (map fst (em_cells m)) (map fst (em_cells m')) /\ map snd (em_cells m') = map snd (em_cells m) /\
    em_free_bytes m' = em_free_bytes m /\ em_used_bytes m' = em_used_bytes m /\ em_unknown_bytes m' = em_unknown_bytes m /\ em_outside_bytes m' = em_outside_bytes m) as Hkeep.
  { intros cells dets files Ho m'. pose proof (Forall2_length _ _ _ Ho) as Hl. rewrite length_map in Hl. unfold m', with_details. cbn [em_cells em_free_bytes em_used_bytes em_unknown_bytes em_outside_bytes].
    change (map fst) with (fmap (M:=list) (@fst cell Z)). change (map snd) with (fmap (M:=list) (@snd cell Z)).
    rewrite fst_zip, snd_zip by (rewrite length_fmap; lia). tauto. }
  assert (forall note, exists m', Ok (no_scan m note) = Ok m' /\ Forall2 overlaid (map fst (em_cells m)) (map fst (em_cells m')) /\ map snd (em_cells m') = map snd (em_cells m) /\
    em_free_bytes m' = em_free_bytes m /\ em_used_bytes m' = em_used_bytes m /\ em_unknown_bytes m' = em_unknown_bytes m /\ em_outside_bytes m' = em_outside_bytes m) as Hno.
  { intros note. eexists. split; [reflexivity|]. apply Hkeep, overlaid_refl. }
  unfold finish_map. destruct (has_flag _ _); [apply Hno|]. destruct (has_flag _ _); [apply Hno|].
  pose proof (scan_raises (t_descriptors t)) as Hs. destruct (_scan_fragmentation r g (t_descriptors t)) as [s|e]; [|rewrite decide_True by (by apply Hs); apply Hno].
  unfold overlay_ranges. eexists. split; [reflexivity|]. apply Hkeep.
  eapply overlaid_trans; [eapply overlaid_trans|]; apply overlay_overlaid.
Qed.
End scanning.

(** ** The map *)

(** What a cell of the map and its count of outside blocks say of the blocks
    [b] it stands for. *)
Definition exact_ext_cell (g : geometry) (t : group_tables) (c : cell * Z) (b : range) : Prop :=
  c_start c.1 = b.1 /\ c_end c.1 = b.2 - 1 /\
  Counts (c_free c.1) (c_used c.1) (c_unknown c.1) c.2 = counts_of (block_state g t) b.1 b.2 /\
  c_fragmented c.1 <= c_used c.1 /\ c_directory c.1 <= c_used c.1.

Lemma exact_ext_cells g t bounds cells : Forall2 overlaid (map fst (map (tally_cell g t) bounds)) (map fst cells) ->
  map snd cells = map snd (map (tally_cell g t) bounds) -> Forall2 (exact_ext_cell g t) cells bounds.
Proof.
  revert cells. induction bounds as [|b bounds IH]; intros [|[c o] cells] Ho Hs; [constructor|discriminate Hs|discriminate Hs|]. cbn [map] in Ho, Hs.
  inversion_clear Ho as [|? ? ? ? Hc Ho']. cbn [fst snd] in *. injection Hs as E1 E2. constructor; [|by apply IH].
  unfold overlaid, exact_ext_cell, tally_cell in *. cbn [fst snd c_start c_end c_free c_used c_unknown c_fragmented c_directory] in *.
  destruct Hc as (-> & -> & -> & Eu & -> & H1 & H2). rewrite Eu in *. rewrite E1. cbn [c_free c_used c_unknown c_start c_end fst snd]. split; [done|]. split; [done|].
  split; [reflexivity|]. unfold counts_of in *. cbn [n1] in *. pose proof (count_where_bounds (fun x => block_state g t x =? 1) b.1 b.2). split; [apply H1|apply H2]; lia.
Qed.

Lemma tally_total (get : cell * Z -> Z) (n : counts -> Z) g t bounds total :
  (forall b, get (tally_cell g t b) = n (counts_of (block_state g t) b.1 b.2)) -> n no_counts = 0 -> (forall x y, n (add_counts x y) = n x + n y) ->
  chained 0 total bounds -> zsum (map get (map (tally_cell g t) bounds)) = n (counts_of (block_state g t) 0 total).
Proof. intros Hget H0 Ha Hc. rewrite map_map, <- (chained_counts n _ _ _ _ H0 Ha Hc). f_equal. apply map_ext. intros b. apply Hget. Qed.

(** C20. The ext2/3/4 map is exact and always delivered: once the superblock is
    accepted and the group tables are read, with a bitmap bit for every block
    of a group, [map] returns whatever inodes, extent trees and indirect
    blocks hold (the walks end and their errors are counted, not raised);
    every cell counts its blocks as the bitmaps say, one by one, into free,
    used, unknown and outside, laid-over fragmented and directory blocks are
    at most the used ones, and the byte totals are those of the whole
    device. *)
Theorem ext_map_exact (r : reader) (cells : Z) (superblock : bytes) (g : geometry) (t : group_tables)
    (Hbytes : wf_bytes (reader_dev r)) (Hread : reader_read r 1024 1024 = Ok superblock) (Hmagic : u16le superblock 56 = Ok 61267)
    (Hgeometry : read_geometry superblock (reader_size r) = Ok g) (Htables : read_groups r g = Ok t) (Hbits : g_blocks_per_group g <= 8 * g_block_size g) :
  let total := counts_of (block_state g t) 0 (g_physical_blocks g) in
  exists m bounds, ext_map_volume (Ok r) cells = Ok m /\
    chained 0 (g_physical_blocks g) bounds /\ py_len bounds = clamp_cells cells (g_physical_blocks g) /\
    Forall2 (exact_ext_cell g t) (em_cells m) bounds /\
    em_free_bytes m = n0 total * g_block_size g /\ em_used_bytes m = n1 total * g_block_size g /\
    em_unknown_bytes m = n2 total * g_block_size g /\ em_outside_bytes m = n3 total * g_block_size g.
Proof.
  intros total. assert (geometry_ok g) as Hg by (eapply geometry_read; [|exact Hgeometry]; exact (read_wf _ _ _ _ Hbytes Hread)).
  pose proof (read_groups_inv r g Hg Hbytes t Htables) as Hinv. destruct (map_cells_counts g Hg Hbits t cells Hinv) as (bounds & Hch & Hlen & Hcells).
  destruct (ext_finish_map_total r g Hg Hbytes (base_map g (map (tally_cell g t) bounds)) t) as (m & Hm & Ho & Hs & Ef & Eu & En & Eo).
  exists m, bounds. split.
  { unfold ext_map_volume. cbn [mbind result_bind]. rewrite Hread. cbn [mbind result_bind]. rewrite Hmagic. cbn [mbind result_bind]. rewrite Z.eqb_refl. cbn [negb].
    rewrite Hgeometry. cbn [mbind result_bind]. rewrite Htables. cbn [mbind result_bind]. by rewrite Hcells. }
  split; [done|]. split; [done|]. split; [by apply exact_ext_cells|]. rewrite Ef, Eu, En, Eo. cbn [base_map em_free_bytes em_used_bytes em_unknown_bytes em_outside_bytes].
  repeat split; f_equal; [apply (tally_total (fun c => c_free c.1) n0)|apply (tally_total (fun c => c_used c.1) n1)|apply (tally_total (fun c => c_unknown c.1) n2)|apply (tally_total snd n3)]; done.
Qed.

(** ** A small volume

    Twenty blocks of 1024 bytes, sixteen of them in the filesystem, in two
    groups of eight blocks: superblock, descriptors (block 2), block bitmaps (3
    and 7), inode bitmap (4), inode table (5 and 6); inode 12 is a file in the
    blocks 8 and 10, inode 13 a directory in block 9, both with an extent tree. *)
Definition leaf_fields (base : Z) (extents : list (Z * Z)) : list (Z * bytes) :=
  [lefield base 2 _EXT4_EXT_MAGIC; lefield (base + 2) 2 (py_len extents); lefield (base + 4) 2 4] ++
  concat (map (fun e : Z * (Z * Z) => let at_ := base + 12 + 12 * e.1 in [lefield at_ 4 e.1; lefield (at_ + 4) 2 e.2.2; lefield (at_ + 8) 4 e.2.1]) (enumerate extents)).

Definition ext_device (total_blocks blocks_per_group ro_compat : Z) : bytes :=
  py_zeros 1024 ++
  image_of 1024 [lefield 0 4 16; lefield 4 4 total_blocks; lefield 20 4 1; lefield 32 4 blocks_per_group; lefield 40 4 16; lefield 56 2 61267; lefield 88 2 128; lefield 96 4 64;
                 lefield 100 4 ro_compat] ++
  image_of 1024 [lefield 0 4 3; lefield 4 4 4; lefield 8 4 5; lefield 32 4 7; lefield 36 4 4; lefield 40 4 5] ++
  image_of 1024 [lefield 0 1 255] ++
  image_of 1024 [lefield 0 2 6146] ++
  py_zeros 1024 ++
  image_of 1024 ([lefield 384 2 33188; lefield 416 4 _EXT4_EXTENTS_FL] ++ leaf_fields 424 [(8, 1); (10, 1)] ++
                 [lefield 512 2 16877; lefield 544 4 _EXT4_EXTENTS_FL] ++ leaf_fields 552 [(9, 1)]) ++
  image_of 1024 [lefield 0 1 3] ++
  py_zeros 12288.
Definition ext_reader : reader := mkReader (ext_device 16 8 0) 20480.

Definition ext_superblock : bytes := py_slice (ext_device 16 8 0) 1024 2048.
Definition ext_geometry : geometry := mkGeometry 16 1024 16 20 1 8 16 11 128 32 false 0 64 0.
Definition ext_tables : group_tables :=
  Eval vm_compute in (match read_groups ext_reader ext_geometry with Ok t => t | Raise _ => mkTables [] [] [] [] end).

Lemma ext_device_wf : wf_bytes (ext_device 16 8 0).
Proof. apply (bool_decide_unpack _). vm_compute. exact I. Qed.

Lemma ext_map_exact_witness :
  let total := counts_of (block_state ext_geometry ext_tables) 0 20 in
  exists m bounds, ext_map_volume (Ok ext_reader) 4 = Ok m /\ chained 0 20 bounds /\ py_len bounds = clamp_cells 4 20 /\
    Forall2 (exact_ext_cell ext_geometry ext_tables) (em_cells m) bounds /\ em_free_bytes m = n0 total * 1024 /\ em_used_bytes m = n1 total * 1024 /\
    em_unknown_bytes m = n2 total * 1024 /\ em_outside_bytes m = n3 total * 1024.
Proof.
  apply (ext_map_exact ext_reader 4 ext_superblock ext_geometry ext_tables ext_device_wf); [vm_compute; reflexivity..|cbn; lia].
Defined.

Example ext_map_sees_the_files :
  (fun m => (em_free_bytes m, em_used_bytes m, em_unknown_bytes m, em_outside_bytes m, em_files m)) <$> ext_map_volume (Ok ext_reader) 4 =
  Ok (5120, 10240, 1024, 4096, Some (FileCounts 1 1 1 0 (100, 1))).
Proof. vm_compute. reflexivity. Qed.

(** A bigalloc filesystem, whose groups hold more blocks than a bitmap
    block has bits because a bit stands for a cluster, is not mapped without
    its fragmentation as the code announces: the cells are counted first, block
    by block, and the map fails with an [IndexError]. *)
Theorem bigalloc_map_fails :
  let r := mkReader (ext_device 10002 16384 _EXT4_FEATURE_RO_COMPAT_BIGALLOC) 20480 in
  probe (Ok r) = Ok true /\ exists e, ext_map_volume (Ok r) 4 = Raise e /\ exn_kind e = IndexError.
Proof. split; [vm_compute; reflexivity|]. eexists. split; [vm_compute; reflexivity|reflexivity]. Qed.
