(* ===== verification/Apple.v ===== *)
(** * The HFS+/HFSX relocation engine

    Models [src/gui/apple_engine.py]: fork maps, B-tree leaf records, the
    volume with its allocation bitmap and overflow extents, the files' forks,
    the journalled move of a fork, recovery, and the compact and defragment
    loop.  The engine runs on a device as in [Device]; printed text, the live
    map and the command line are left out. *)

From stdpp Require Import pretty.
From S2P Require Import Prelude Text Bytes Device.

Local Open Scope string_scope.
Local Open Scope list_scope.
Local Open Scope Z_scope.

Definition be16 : bytes -> Z -> result Z := u16be.
Definition be32 : bytes -> Z -> result Z := u32be.
Definition be64 : bytes -> Z -> result Z := u64be.

(** [struct.pack(">I", value)] *)
Definition pack32 (value : Z) : result bytes :=
  check (value <? 0) || (4294967296 <=? value) # StructError "argument out of range";
  Ok (be_digits 4 value).

Record Extent := mkExtent { e_start : Z; e_count : Z }.

Record Patch := mkPatch { p_offset : Z; p_old : bytes; p_new : bytes }.

(** The journal object; the base64 fields are decoded. *)
Record transaction := mkTransaction {
  x_schema : Z; x_filesystem : string; x_device : string; x_signature : bytes; x_create_date : Z; x_block_size : Z; x_total_blocks : Z;
  x_path : text; x_file_id : Z; x_fork_type : Z; x_src : list Z; x_dst : list Z; x_stage : string;
  x_bitmap_stage : list Patch; x_bitmap_final : list Patch; x_metadata : list Patch; x_headers_stage : list Patch; x_headers_final : list Patch
}.

Definition set_stage (x : transaction) (stage : string) : transaction :=
  mkTransaction (x_schema x) (x_filesystem x) (x_device x) (x_signature x) (x_create_date x) (x_block_size x) (x_total_blocks x)
    (x_path x) (x_file_id x) (x_fork_type x) (x_src x) (x_dst x) stage
    (x_bitmap_stage x) (x_bitmap_final x) (x_metadata x) (x_headers_stage x) (x_headers_final x).

Notation aprog := (Device.prog transaction).

(** [Volume.read] and [Volume.write] *)
Definition volume_read (offset count : Z) : aprog bytes :=
  let* data := os_pread count offset in
  pcheck negb (py_len data =? count) # EngineError "short read";
  pret data.

Definition volume_write (writable : bool) (offset : Z) (data : bytes) : aprog unit :=
  pcheck negb writable # EngineError "volume is open read-only";
  os_pwrite data offset.

(** [os.lseek(fd, 0, SEEK_END)] *)
Definition os_size : aprog Z := fun d => ([], Ok (py_len d)).

(** ** Fork maps *)

(** A segment is (first logical byte, end, first physical byte). *)
Record ForkMap := mkForkMap {
  f_logical_size : Z; f_total_blocks : Z; f_extents : list Extent; f_segments : list (Z * Z * Z)
}.

Fixpoint segments_from (block_size logical : Z) (extents : list Extent) : list (Z * Z * Z) :=
  match extents with
  | [] => []
  | e :: rest =>
      let len := e_count e * block_size in
      (logical, logical + len, e_start e * block_size) :: segments_from block_size (logical + len) rest
  end.

Definition ForkMap_init (block_size : Z) (fork : Z * Z * list Extent) : result ForkMap :=
  let '(logical_size, total_blocks, extents) := fork in
  let extents := List.filter (fun e => negb (e_count e =? 0)) extents in
  check zsum (map e_count extents) <? total_blocks # EngineError "special HFS+ fork uses unresolved overflow extents";
  Ok (mkForkMap logical_size total_blocks extents (segments_from block_size 0 extents)).

Fixpoint pieces_loop (segments : list (Z * Z * Z)) (pos left_ : Z) (out : list (Z * Z)) : result (list (Z * Z) * Z) :=
  match segments with
  | [] => Ok (out, left_)
  | (lo, hi, physical) :: rest =>
      if left_ =? 0 then Ok (out, left_) else
      if hi <=? pos then pieces_loop rest pos left_ out else
      check pos <? lo # EngineError "fork has an unrepresented logical hole";
      let take := Z.min left_ (hi - pos) in
      pieces_loop rest (pos + take) (left_ - take) (out ++ [(physical + (pos - lo), take)])
  end.

Definition pieces (f : ForkMap) (offset len : Z) : result (list (Z * Z)) :=
  check (offset <? 0) || (len <? 0) || (f_logical_size f <? offset + len) # EngineError "fork access is outside its logical size";
  '(out, left_) ← pieces_loop (f_segments f) offset len [];
  check negb (left_ =? 0) # EngineError "fork extents do not cover requested bytes";
  Ok out.

Definition fork_read (f : ForkMap) (offset len : Z) : aprog bytes :=
  let* ps := lift (pieces f offset len) in
  pforeach (fun out p => let* chunk := volume_read p.1 p.2 in pret (out ++ chunk)) [] ps.

Definition fork_write (writable : bool) (f : ForkMap) (offset : Z) (data : bytes) : aprog unit :=
  let* ps := lift (pieces f offset (py_len data)) in
  let* _ := pforeach (fun pos p => volume_write writable p.1 (py_slice data pos (pos + p.2)) ;;* pret (pos + p.2)) 0 ps in
  pret tt.

Definition patch_piece (new_data : bytes) (acc : list Patch * Z) (p : Z * Z) : aprog (list Patch * Z) :=
  let '(patches, pos) := acc in
  let* old := volume_read p.1 p.2 in
  let new := py_slice new_data pos (pos + p.2) in
  pret (if bool_decide (old = new) then patches else patches ++ [mkPatch p.1 old new], pos + p.2).

Definition fork_patches (f : ForkMap) (offset : Z) (new_data : bytes) : aprog (list Patch) :=
  let* ps := lift (pieces f offset (py_len new_data)) in
  let* acc := pforeach (patch_piece new_data) ([], 0) ps in
  pret acc.1.

Definition parse_extent (data : bytes) (offset : Z) : result Extent :=
  start ← be32 data offset;
  count ← be32 data (offset + 4);
  Ok (mkExtent start count).

Definition parse_fork (data : bytes) (offset : Z) : result (Z * Z * list Extent) :=
  logical_size ← be64 data offset;
  total_blocks ← be32 data (offset + 12);
  extents ← mapM_result (fun i => parse_extent data (offset + 16 + i * 8)) (py_range 0 8);
  Ok (logical_size, total_blocks, extents).

(** ** Leaf records of a B-tree *)

(** The record table at the end of a node, the free-space offset last. *)
Definition table_values (node : bytes) (count : Z) : result (list Z) :=
  mapM_result (fun i => be16 node (py_len node - 2 * (i + 1))) (py_range 0 (count + 1)).

Definition record_offsets (node : bytes) (count : Z) : result (list Z) :=
  values ← table_values node count;
  let starts := py_sorted Z.leb (remove_dups (py_slice values 0 (-1))) in
  Ok (List.filter (fun v => (14 <=? v) && (v <? py_len node)) starts).

Record TreeRecord := mkRecord { r_fork : ForkMap; r_logical_offset : Z; r_raw : bytes }.

Definition record_patch (r : TreeRecord) (relative : Z) (data : bytes) : aprog (list Patch) :=
  fork_patches (r_fork r) (r_logical_offset r + relative) data.

(** [min(greater, default=...)] *)
Definition min_default (l : list Z) (d : Z) : Z := match l with [] => d | x :: rest => fold_left Z.min rest x end.

Fixpoint node_records (fork : ForkMap) (node_logical : Z) (node : bytes) (table : list Z) (count : Z) (starts : list Z) : list TreeRecord :=
  match starts with
  | [] => []
  | start :: rest =>
      let end_ := match rest with
                  | next :: _ => next
                  | [] => min_default (List.filter (fun v => start <? v) table) (py_len node - 2 * (count + 1))
                  end in
      (if start <? end_ then [mkRecord fork (node_logical + start) (py_slice node start end_)] else []) ++
      node_records fork node_logical node table count rest
  end.

Section walk.
Context {A : Type} (fork : ForkMap) (body : A -> TreeRecord -> aprog A).

(** The leaf chain; [body] is the loop over the generator.  Every node is
    visited once and its number is below [total_nodes]. *)
Fixpoint leaf_loop (fuel : nat) (node_size total_nodes node_number : Z) (seen : list Z) (s : A) : aprog A :=
  if node_number =? 0 then pret s else
  match fuel with
  | O => lift (raise OutOfFuel "walk_leaf_records")
  | S fuel' =>
      pcheck bool_decide (node_number ∈ seen) || (total_nodes <=? node_number) # EngineError "HFS+ B-tree leaf chain is invalid";
      let node_logical := node_number * node_size in
      let* node := fork_read fork node_logical node_size in
      let* next_node := lift (be32 node 0) in
      let* kind := lift (py_get node 8) in
      let* count := lift (be16 node 10) in
      pcheck negb (kind =? 255) # EngineError "HFS+ B-tree leaf chain points to a non-leaf node";
      let* starts := lift (record_offsets node count) in
      let* table := lift (table_values node count) in
      let* s := pforeach body s (node_records fork node_logical node table count starts) in
      leaf_loop fuel' node_size total_nodes next_node (node_number :: seen) s
  end.

Definition walk_leaf_records (s : A) : aprog A :=
  let* prefix := fork_read fork 0 (Z.min (f_logical_size fork) 512) in
  pcheck py_len prefix <? 40 # EngineError "HFS+ B-tree header is truncated";
  let* node_size := lift (be16 prefix 32) in
  let* first_leaf := lift (be32 prefix 24) in
  let* total_nodes := lift (be32 prefix 36) in
  pcheck (node_size <? 512) || (65536 <? node_size) || negb (Z.land node_size (node_size - 1) =? 0) # EngineError "invalid HFS+ B-tree node size";
  leaf_loop (S (Z.to_nat total_nodes)) node_size total_nodes first_leaf [] s.
End walk.

(** ** Forks of files *)

Record DescriptorRef := mkRef { d_record : TreeRecord; d_relative : Z; d_extent : Extent }.

Record ForkObject := mkObject {
  o_path : text; o_file_id : Z; o_fork_type : Z; o_logical_size : Z; o_total_blocks : Z; o_descriptors : list DescriptorRef
}.

Definition o_extents (o : ForkObject) : list Extent :=
  List.filter (fun e => negb (e_count e =? 0)) (map d_extent (o_descriptors o)).

Fixpoint breaks (l : list Extent) : Z :=
  match l with
  | a :: ((b :: _) as rest) => (if e_start a + e_count a =? e_start b then 0 else 1) + breaks rest
  | _ => 0
  end.

Definition fragments (o : ForkObject) : Z :=
  match o_extents o with [] => 0 | values => 1 + breaks values end.

Definition extent_blocks (e : Extent) : list Z := py_range (e_start e) (e_start e + e_count e).

Definition source_blocks (o : ForkObject) : list Z := concat (map extent_blocks (o_extents o)).

(** ** The volume *)

Record Volume := mkVolume {
  v_path : string; v_writable : bool; v_size : Z; v_signature : bytes; v_version : Z; v_attributes : Z; v_block_size : Z; v_total_blocks : Z;
  v_free_blocks : Z; v_create_date : Z; v_write_count : Z; v_allocation_fork : ForkMap; v_extents_fork : ForkMap; v_catalog_fork : ForkMap;
  v_bitmap : bytes; v_overflow : list ((Z * Z) * list DescriptorRef)
}.

Definition primary_offset : Z := 1024.
Definition alternate_offset (v : Volume) : Z := v_size v - 1024.

Definition bit (v : Volume) (block : Z) : result bool :=
  check (block <? 0) || (v_total_blocks v <=? block) # EngineError "invalid HFS+ allocation block";
  b ← py_get (v_bitmap v) (Z.shiftr block 3);
  Ok (negb (Z.land b (Z.shiftr 128 (Z.land block 7)) =? 0)).

(** The eight descriptors at [base] of a record that are in use. *)
Definition descriptor_refs (record : TreeRecord) (base : Z) : result (list DescriptorRef) :=
  refs ← mapM_result (fun index => let relative := base + index * 8 in
                                   extent ← parse_extent (r_raw record) relative; Ok (mkRef record relative extent)) (py_range 0 8);
  Ok (List.filter (fun r => negb (e_count (d_extent r) =? 0)) refs).

(** Where the data of a record starts, behind its key. *)
Definition data_offset (key_len : Z) : Z := let o := 2 + key_len in if Z.odd o then o + 1 else o.

Abbreviation part := (Z * list DescriptorRef)%type.

Definition overflow_record (grouped : list ((Z * Z) * list part)) (record : TreeRecord) : result (list ((Z * Z) * list part)) :=
  let raw := r_raw record in
  if py_len raw <? 12 then Ok grouped else
  key_len ← be16 raw 0;
  let data_off := data_offset key_len in
  if (key_len <? 10) || (py_len raw <? data_off + 64) then Ok grouped else
  fork_type ← py_get raw 2;
  file_id ← be32 raw 4;
  start_block ← be32 raw 8;
  refs ← descriptor_refs record data_off;
  let key := (file_id, fork_type) in
  Ok (dict_set key (default [] (dict_get key grouped) ++ [(start_block, refs)]) grouped).

(** [sorted(parts)]: lists of descriptors with the same start block are
    compared next; two that are not empty come from different records, so
    their first descriptors differ, and descriptors have no order. *)
Fixpoint unordered (parts : list part) : bool :=
  match parts with
  | [] => false
  | (start, refs) :: rest =>
      existsb (fun p : part => (p.1 =? start) && negb (bool_decide (p.2 = [])) && negb (bool_decide (refs = []))) rest || unordered rest
  end.

Definition part_leb (a b : part) : bool := (a.1 <? b.1) || ((a.1 =? b.1) && (py_len a.2 <=? py_len b.2)).

Definition sort_parts (parts : list part) : result (list part) :=
  check unordered parts # TypeError "'<' not supported between instances of 'DescriptorRef' and 'DescriptorRef'";
  Ok (py_sorted part_leb parts).

Definition _parse_overflow (extents_fork : ForkMap) : aprog (list ((Z * Z) * list DescriptorRef)) :=
  if f_logical_size extents_fork =? 0 then pret [] else
  let* grouped := walk_leaf_records extents_fork (fun g r => lift (overflow_record g r)) [] in
  lift (mapM_result (fun item => parts ← sort_parts item.2; Ok (item.1, concat (map snd parts))) grouped).

(** [Volume.__init__] *)
Definition open_volume (path : string) (writable allow_inconsistent : bool) : aprog Volume :=
  let* size := os_size in
  let* header := volume_read primary_offset 512 in
  let signature := py_slice header 0 2 in
  pcheck negb (bool_decide (signature = of_string "H+")) && negb (bool_decide (signature = of_string "HX")) # EngineError "not an HFS+ or HFSX volume";
  let* version := lift (be16 header 2) in
  let* attributes := lift (be32 header 4) in
  let* block_size := lift (be32 header 40) in
  let* total_blocks := lift (be32 header 44) in
  let* free_blocks := lift (be32 header 48) in
  let* create_date := lift (be32 header 16) in
  let* write_count := lift (be32 header 68) in
  pcheck (block_size <? 512) || negb (Z.land block_size (block_size - 1) =? 0) # EngineError "invalid HFS+ allocation block size";
  pcheck (total_blocks =? 0) || (size <? total_blocks * block_size) # EngineError "HFS+ geometry exceeds the device";
  pcheck negb (Z.land attributes 2048 =? 0) && negb allow_inconsistent # EngineError "HFS+ volume is marked inconsistent";
  let* allocation := lift (parse_fork header 112) in
  let* extents := lift (parse_fork header 192) in
  let* catalog := lift (parse_fork header 272) in
  let* allocation_fork := lift (ForkMap_init block_size allocation) in
  let* extents_fork := lift (ForkMap_init block_size extents) in
  let* catalog_fork := lift (ForkMap_init block_size catalog) in
  let bitmap_len := (total_blocks + 7) / 8 in
  pcheck f_logical_size allocation_fork <? bitmap_len # EngineError "HFS+ allocation file is too short";
  let* bitmap := fork_read allocation_fork 0 bitmap_len in
  let* overflow := _parse_overflow extents_fork in
  pret (mkVolume path writable size signature version attributes block_size total_blocks free_blocks create_date write_count
          allocation_fork extents_fork catalog_fork bitmap overflow).

(** [bytearray[i] = f bytearray[i]] *)
Definition update_byte (b : bytes) (i : Z) (f : Z -> Z) : result bytes := v ← py_get b i; py_set b i (f v).

Definition set_in (b : bytes) (block : Z) : result bytes := update_byte b (Z.shiftr block 3) (fun v => Z.lor v (Z.shiftr 128 (Z.land block 7))).
Definition clear_in (b : bytes) (block : Z) : result bytes := update_byte b (Z.shiftr block 3) (fun v => Z.land v (Z.lnot (Z.shiftr 128 (Z.land block 7)))).

(** [Volume.set_bit], on the bitmap. *)
Definition set_bit (b : bytes) (block : Z) (value : bool) : result bytes := if value then set_in b block else clear_in b block.

Definition _inline_refs (record : TreeRecord) (fork_offset : Z) : result (Z * Z * list DescriptorRef) :=
  let raw := r_raw record in
  logical_size ← be64 raw fork_offset;
  total_blocks ← be32 raw (fork_offset + 12);
  refs ← descriptor_refs record (fork_offset + 16);
  Ok (logical_size, total_blocks, refs).

(** What the first loop of [objects] collects: file records with their data
    offset, parent, name and id, and the folders. *)
Record file_record := mkFile { fr_record : TreeRecord; fr_data_off : Z; fr_parent : Z; fr_name : text; fr_id : Z }.

Abbreviation folders := (list (Z * (Z * text))).

Definition catalog_record (acc : list file_record * folders) (record : TreeRecord) : result (list file_record * folders) :=
  let '(records, folder_names) := acc in
  let raw := r_raw record in
  if py_len raw <? 4 then Ok acc else
  key_len ← be16 raw 0;
  let data_off := data_offset key_len in
  if (key_len <? 6) || (py_len raw <? data_off + 2) then Ok acc else
  parent_id ← be32 raw 2;
  name_len ← be16 raw 6;
  let name_end := 8 + name_len * 2 in
  if py_len raw <? name_end then Ok acc else
  let name := utf16be_decode (py_slice raw 8 name_end) in
  record_type ← be16 raw data_off;
  if (record_type =? 1) && (data_off + 12 <=? py_len raw) then
    folder_id ← be32 raw (data_off + 8);
    Ok (records, dict_set folder_id (parent_id, name) folder_names)
  else if (record_type =? 2) && (data_off + 248 <=? py_len raw) then
    file_id ← be32 raw (data_off + 8);
    Ok (records ++ [mkFile record data_off parent_id name file_id], folder_names)
  else Ok acc.

(** Names from the folder up to the root; a folder outside [folder_names] has
    the root as parent, so the table's length and one more bound the loop. *)
Fixpoint folder_parts (fuel : nat) (folder_names : folders) (seen : list Z) (current : Z) : result (list text) :=
  if (current =? 0) || (current =? 1) || (current =? 2) || bool_decide (current ∈ seen) then Ok [] else
  match fuel with
  | O => raise OutOfFuel "folder_path"
  | S fuel' =>
      let '(parent, name) := default (2, of_string ("#" +:+ pretty current)) (dict_get current folder_names) in
      rest ← folder_parts fuel' folder_names (current :: seen) parent;
      Ok (if bool_decide (name = []) then rest else name :: rest)
  end.

Fixpoint join_slash (parts : list text) : text :=
  match parts with
  | [] => []
  | [p] => p
  | p :: rest => p ++ [47] ++ join_slash rest
  end.

Definition folder_path (folder_names : folders) (folder_id : Z) : result text :=
  parts ← folder_parts (S (length folder_names)) folder_names [] folder_id;
  Ok (join_slash (reverse parts)).

Definition blocks_of (refs : list DescriptorRef) : Z := zsum (map (fun r => e_count (d_extent r)) refs).

Definition fork_object (overflow : list ((Z * Z) * list DescriptorRef)) (path : text) (file : file_record) (out : list ForkObject) (fork : Z * Z)
    : result (list ForkObject) :=
  let '(fork_type, fork_relative) := fork in
  '(logical, total, refs) ← _inline_refs (fr_record file) fork_relative;
  let refs := if blocks_of refs <? total then refs ++ default [] (dict_get (fr_id file, fork_type) overflow) else refs in
  check (blocks_of refs <? total) && negb (logical =? 0) # EngineError "HFS+ file has unresolved overflow extents";
  Ok (if total =? 0 then out else out ++ [mkObject path (fr_id file) fork_type logical total refs]).

Definition file_forks (overflow : list ((Z * Z) * list DescriptorRef)) (folder_names : folders) (out : list ForkObject) (file : file_record)
    : result (list ForkObject) :=
  base ← folder_path folder_names (fr_parent file);
  let path := if bool_decide (base = []) then fr_name file else base ++ [47] ++ fr_name file in
  foldM (fork_object overflow path file) out [(0, fr_data_off file + 88); (255, fr_data_off file + 168)].

Definition objects (v : Volume) : aprog (list ForkObject) :=
  let* (records, folder_names) := walk_leaf_records (v_catalog_fork v) (fun acc r => lift (catalog_record acc r)) ([], [(2, (1, []))]) in
  lift (foldM (file_forks (v_overflow v) folder_names) [] records).

(** ** Free space *)

Fixpoint free_run_loop (v : Volume) (exclude : list Z) (low : bool) (count : Z) (order : list Z) (run : Z) (start previous : option Z) : result (option Z) :=
  match order with
  | [] => Ok None
  | block :: order' =>
      let adjacent := match previous with Some p => if low then block =? p + 1 else block =? p - 1 | None => true end in
      used ← bit v block;
      if negb used && negb (bool_decide (block ∈ exclude)) && adjacent then
        let start := match start with None => Some block | s => s end in
        if count <=? run + 1 then Ok (if low then start else Some block)
        else free_run_loop v exclude low count order' (run + 1) start (Some block)
      else free_run_loop v exclude low count order' 0 None (Some block)
  end.

Definition free_run (v : Volume) (count : Z) (low : bool) (exclude : list Z) : result (option Z) :=
  let blocks := py_range 0 (v_total_blocks v) in
  free_run_loop v exclude low count (if low then blocks else reverse blocks) 0 None None.

(** ** Patches *)

Fixpoint slice_patches (ps : list (Z * Z)) (old new : bytes) (pos : Z) : list Patch :=
  match ps with
  | [] => []
  | (physical, count) :: rest => mkPatch physical (py_slice old pos (pos + count)) (py_slice new pos (pos + count)) :: slice_patches rest old new (pos + count)
  end.

(** The runs of bytes in which two bitmaps of the same length differ:
    first byte and end.  [start] is the run the walk is in. *)
Fixpoint changed_runs (before after : bytes) (index : Z) (start : option Z) : list (Z * Z) :=
  match before, after with
  | b :: before', a :: after' =>
      if b =? a then (match start with Some s => [(s, index)] | None => [] end) ++ changed_runs before' after' (index + 1) None
      else changed_runs before' after' (index + 1) (Some (default index start))
  | _, _ => match start with Some s => [(s, index)] | None => [] end
  end.

Definition run_patches (f : ForkMap) (before after : bytes) (run : Z * Z) : result (list Patch) :=
  let old_data := py_slice before run.1 run.2 in
  let new_data := py_slice after run.1 run.2 in
  ps ← pieces f run.1 (py_len new_data);
  Ok (slice_patches ps old_data new_data 0).

Definition bitmap_patches (v : Volume) (before after : bytes) : result (list Patch) :=
  parts ← mapM_result (run_patches (v_allocation_fork v) before after) (changed_runs before after 0 None);
  Ok (concat parts).

Definition header_patches (v : Volume) (free_blocks : Z) : aprog (list Patch) :=
  let* new := lift (pack32 free_blocks) in
  let* old1 := volume_read (primary_offset + 48) 4 in
  let* old2 := volume_read (alternate_offset v + 48) 4 in
  pret [mkPatch (primary_offset + 48) old1 new; mkPatch (alternate_offset v + 48) old2 new].

Definition apply_patches (v : Volume) (patches : list Patch) (use_new : bool) : aprog unit :=
  pforeach (fun _ p => volume_write (v_writable v) (p_offset p) (if use_new then p_new p else p_old p)) tt patches.

Definition descriptor_patch (acc : list Patch * Z) (ref : DescriptorRef) : aprog (list Patch * Z) :=
  let '(patches, cursor) := acc in
  let* start := lift (pack32 cursor) in
  let* count := lift (pack32 (e_count (d_extent ref))) in
  let* more := record_patch (d_record ref) (d_relative ref) (start ++ count) in
  pret (patches ++ more, cursor + e_count (d_extent ref)).

Definition descriptor_patches (o : ForkObject) (destination_start : Z) : aprog (list Patch) :=
  let* (patches, cursor) := pforeach descriptor_patch ([], destination_start) (o_descriptors o) in
  pcheck negb (cursor =? destination_start + o_total_blocks o) # EngineError "HFS+ extent descriptors do not match the fork block count";
  pret patches.

(** ** Moving a fork *)

Definition read_blocks (v : Volume) (blocks : list Z) : aprog bytes :=
  pforeach (fun out block => let* data := volume_read (block * v_block_size v) (v_block_size v) in pret (out ++ data)) [] blocks.

Definition write_blocks (v : Volume) (blocks : list Z) (data : bytes) : aprog unit :=
  let size := v_block_size v in
  pcheck negb (py_len data =? py_len blocks * size) # EngineError "HFS+ relocation buffer size mismatch";
  let* _ := pforeach (fun index block =>
      volume_write (v_writable v) (block * size) (py_slice data (index * size) ((index + 1) * size)) ;;* pret (index + 1)) 0 blocks in
  pret tt.

Definition make_bitmap_states (v : Volume) (src dst : list Z) : result (bytes * bytes * bytes) :=
  let old := v_bitmap v in
  stage ← foldM set_in old dst;
  final ← foldM clear_in stage src;
  Ok (old, stage, final).

(** [any(volume.bit(block) for block in dst)] *)
Fixpoint any_used (v : Volume) (blocks : list Z) : result bool :=
  match blocks with
  | [] => Ok false
  | b :: rest => used ← bit v b; if (used : bool) then Ok true else any_used v rest
  end.

Section moving.
(** The environment variable of the recovery tests. *)
Context (fail_stage : option string).

Definition failpoint (stage : string) : aprog unit :=
  if bool_decide (fail_stage = Some stage) then lift (raise EngineError "simulated interruption") else pret tt.

Definition journal_write (x : transaction) : aprog unit := put_journal (Some x).

Definition move_one (v : Volume) (o : ForkObject) (destination_start : Z) : aprog unit :=
  let src := source_blocks o in
  let dst := py_range destination_start (destination_start + o_total_blocks o) in
  let* used := lift (any_used v dst) in
  pcheck (used : bool) # EngineError "HFS+ destination is not free";
  let* (old_bitmap, stage_bitmap, final_bitmap) := lift (make_bitmap_states v src dst) in
  let* stage_bitmap_patches := lift (bitmap_patches v old_bitmap stage_bitmap) in
  let* final_bitmap_patches := lift (bitmap_patches v old_bitmap final_bitmap) in
  let* metadata_patches := descriptor_patches o destination_start in
  let* stage_headers := header_patches v (v_free_blocks v - o_total_blocks o) in
  let* final_headers := header_patches v (v_free_blocks v) in
  let x := mkTransaction 1 "hfsplus" (v_path v) (v_signature v) (v_create_date v) (v_block_size v) (v_total_blocks v)
             (o_path o) (o_file_id o) (o_fork_type o) src dst "prepared"
             stage_bitmap_patches final_bitmap_patches metadata_patches stage_headers final_headers in
  journal_write x ;;*
  let* payload := read_blocks v src in
  write_blocks v dst payload ;;*
  os_fsync ;;*
  journal_write (set_stage x "copied") ;;*
  failpoint "copied" ;;*
  apply_patches v stage_bitmap_patches true ;;*
  apply_patches v stage_headers true ;;*
  os_fsync ;;*
  journal_write (set_stage x "destination-ready") ;;*
  failpoint "destination-ready" ;;*
  journal_write (set_stage x "switching") ;;*
  apply_patches v metadata_patches true ;;*
  os_fsync ;;*
  journal_write (set_stage x "switched") ;;*
  failpoint "switched" ;;*
  apply_patches v final_bitmap_patches true ;;*
  apply_patches v final_headers true ;;*
  os_fsync ;;*
  journal_write (set_stage x "complete") ;;*
  put_journal None.
End moving.

(** ** Recovery *)

(** [volume.read(p.offset, len(p.new))] over the patches. *)
Definition read_current (patches : list Patch) : aprog (list bytes) :=
  pforeach (fun acc p => let* data := volume_read (p_offset p) (py_len (p_new p)) in pret (acc ++ [data])) [] patches.

Definition all_new (current : list bytes) (metadata : list Patch) : bool :=
  negb (bool_decide (metadata = [])) && forallb (fun c => bool_decide (c.1 = p_new c.2)) (zip current metadata).

Definition recover (mounted : bool) (path : string) (journal : option transaction) : aprog unit :=
  pcheck mounted # EngineError "refusing to recover a mounted Apple volume";
  match journal with
  | None => lift (raise EngineError "no recovery journal")
  | Some x =>
      pcheck negb (bool_decide (x_filesystem x = "hfsplus")) # EngineError "journal is not an HFS+ transaction";
      let* v := open_volume path true true in
      pcheck negb (bool_decide (v_signature v = x_signature x)) || negb (v_create_date v =? x_create_date x)
             || negb (v_block_size v =? x_block_size x) || negb (v_total_blocks v =? x_total_blocks x)
        # EngineError "journal does not match this HFS+ volume";
      let metadata := x_metadata x in
      let* current := read_current metadata in
      (if all_new current metadata || bool_decide (x_stage x = "switched") || bool_decide (x_stage x = "complete") then
         apply_patches v metadata true ;;*
         apply_patches v (x_bitmap_final x) true ;;*
         apply_patches v (x_headers_final x) true
       else
         apply_patches v metadata false ;;*
         apply_patches v (x_bitmap_stage x) false ;;*
         apply_patches v (x_headers_stage x) false) ;;*
      os_fsync ;;*
      put_journal None
  end.

(** ** Compact and defragment *)

Definition fragmentation (objs : list ForkObject) : Z * Z :=
  let files := fold_left (fun files o => dict_set (o_file_id o) (default false (dict_get (o_file_id o) files) || (1 <? fragments o)) files) objs [] in
  (zsum (map (fun f : Z * bool => Z.b2z f.2) files), 0).

(** [min(obj.source_blocks)] *)
Definition lowest_block (o : ForkObject) : result Z :=
  match source_blocks o with [] => raise ValueError "min() iterable argument is empty" | b :: rest => Ok (fold_left Z.min rest b) end.

Definition path_leb (a b : ForkObject) : bool :=
  text_ltb (o_path a) (o_path b) || (bool_decide (o_path a = o_path b) && (o_fork_type a <=? o_fork_type b)).

(** [(-fragments, -total_blocks, path, fork_type)] *)
Definition defrag_leb (a b : ForkObject) : bool :=
  (fragments b <? fragments a) || ((fragments a =? fragments b) &&
    ((o_total_blocks b <? o_total_blocks a) || ((o_total_blocks a =? o_total_blocks b) && path_leb a b))).

(** [(min(source_blocks), path, fork_type)], the minimum computed before. *)
Definition compact_leb (a b : Z * ForkObject) : bool := (a.1 <? b.1) || ((a.1 =? b.1) && path_leb a.2 b.2).

Fixpoint select_fragmented (v : Volume) (candidates : list ForkObject) : result (option (ForkObject * Z)) :=
  match candidates with
  | [] => Ok None
  | o :: rest =>
      run ← free_run v (o_total_blocks o) true (source_blocks o);
      match run with Some r => Ok (Some (o, r)) | None => select_fragmented v rest end
  end.

Fixpoint select_lower (v : Volume) (candidates : list (Z * ForkObject)) : result (option (ForkObject * Z)) :=
  match candidates with
  | [] => Ok None
  | (lowest, o) :: rest =>
      run ← free_run v (o_total_blocks o) true (source_blocks o);
      match run with Some r => if r <? lowest then Ok (Some (o, r)) else select_lower v rest | None => select_lower v rest end
  end.

Inductive mode := Defrag | Compact.

Definition select_move (m : mode) (v : Volume) (objs : list ForkObject) : result (option (ForkObject * Z)) :=
  match m with
  | Defrag => select_fragmented v (py_sorted defrag_leb (List.filter (fun o => 1 <? fragments o) objs))
  | Compact =>
      keyed ← mapM_result (fun o => lowest ← lowest_block o; Ok (lowest, o)) objs;
      select_lower v (py_sorted compact_leb keyed)
  end.

(** One round: [None] is [break]. *)
Definition operation_step (fail_stage : option string) (path : string) (m : mode) : aprog (option unit) :=
  let* v := open_volume path true false in
  let* objs := objects v in
  let* selected := lift (select_move m v objs) in
  match selected with
  | None => pret None
  | Some (o, destination) => move_one fail_stage v o destination ;;* pret (Some tt)
  end.

(** The loop; [stop i] is the flag read before round [i], the result the number
    of moves. *)
Fixpoint operation_loop (fuel : nat) (fail_stage : option string) (path : string) (m : mode) (stop : nat -> bool) (max_files : option Z) (i : nat) (moved : Z)
    : aprog Z :=
  if stop i then pret moved else
  match fuel with
  | O => lift (raise OutOfFuel "operation")
  | S fuel' =>
      let* r := operation_step fail_stage path m in
      match r with
      | None => pret moved
      | Some _ =>
          let moved := moved + 1 in
          if match max_files with Some n => negb (n =? 0) && (n <=? moved) | None => false end then pret moved
          else operation_loop fuel' fail_stage path m stop max_files (S i) moved
      end
  end.

Definition operation (fuel : nat) (fail_stage : option string) (mounted journal_exists : bool) (path : string) (m : mode) (stop : nat -> bool) (max_files : option Z)
    : aprog Z :=
  pcheck mounted # EngineError "refusing to modify a mounted HFS+ volume";
  pcheck journal_exists # EngineError "unfinished journal exists; run Recover first";
  operation_loop fuel fail_stage path m stop max_files 0 0.
