(* ===== verification/AppleTxn.v ===== *)
(** * The patch transaction of the HFS+ engine

    A move of [Apple] writes a copy into free blocks and then four lists of
    patches under a journal.  This file proves the protocol crash-safe for any
    patches that were read from the device and do not overlap: whatever bytes
    a power failure leaves, [all_new] decides correctly between rolling back
    and completing. *)

From S2P Require Import Prelude Text Bytes Device Addresses Apple.

Local Open Scope string_scope.
Local Open Scope list_scope.
Local Open Scope Z_scope.

(** ** Traces that overwrite *)

Section overwrite.
Context {J : Type}.
Implicit Types (t : list (effect J)).

(** An address a trace writes ends with one of the values written there. *)
Lemma peek_replay_in d t a :
  Forall (inside (py_len d)) t -> 0 <= a -> a ∈ map fst (pairs t) -> exists v, (a, v) ∈ pairs t /\ peek (replay d t) a = v.
Proof.
  revert d. induction t as [|e t IH] using rev_ind; intros d Hin Ha Hp; [by apply elem_of_nil in Hp|].
  apply Forall_app in Hin as [Hin He]. apply Forall_cons in He as [He _]. rewrite pairs_app, map_app in Hp. rewrite replay_app, pairs_app.
  pose proof (replay_len d t Hin) as Hl. change (replay (replay d t) [e]) with (apply_effect (replay d t) e).
  destruct (decide (a ∈ map fst (pairs [e]))) as [Hl2|Hn].
  - apply list_elem_of_fmap in Hl2 as ([a' v] & Ea & Hv). cbn [fst] in Ea. subst a'. exists v. split; [set_solver|]. unfold pairs in Hv. cbn [map concat] in Hv. rewrite app_nil_r in Hv.
    destruct e as [off data| |]; [|by apply elem_of_nil in Hv..]. apply elem_of_zip_range in Hv as [Hr Hv]. cbn [fst] in *. unfold peek.
    rewrite apply_effect_nth; [|by rewrite Hl|done]. by rewrite (proj2 (Z.leb_le _ _)), (proj2 (Z.ltb_lt _ _)), Hv by lia.
  - apply elem_of_app in Hp as [Hp|Hp]; [|done]. destruct (IH d Hin Ha Hp) as (v & Hv & <-). exists (peek (replay d t) a). split; [set_solver|].
    apply (peek_untouched (replay d t) [e] a); [rewrite Hl; by constructor|done|]. intros u Hu. apply Hn. apply list_elem_of_fmap. by exists (a, u).
Qed.
End overwrite.

(** ** Patches *)

Definition prange (p : Patch) : list Z := py_range (p_offset p) (p_offset p + py_len (p_new p)).
Definition paddrs (ps : list Patch) : list Z := concat (map prange ps).
Definition pvals (u : bool) (ps : list Patch) : bytes := concat (map (fun p => if u then p_new p else p_old p) ps).
Definition ptrace (u : bool) (ps : list Patch) : list (effect transaction) := map (fun p => EWrite (p_offset p) (if u then p_new p else p_old p)) ps.

(** The address and value pairs of the new bytes. *)
Definition np (ps : list Patch) : list (Z * Z) := zip (paddrs ps) (pvals true ps).

(** A patch read from the device [d0]. *)
Definition good_patch (d0 : bytes) (p : Patch) : Prop :=
  py_len (p_old p) = py_len (p_new p) /\ 0 <= p_offset p /\ p_offset p + py_len (p_new p) <= py_len d0 /\ p_old p = gather d0 (prange p).

Lemma patch_len d0 (u : bool) p : good_patch d0 p -> py_len (if u then p_new p else p_old p) = py_len (prange p).
Proof. intros (Hl & H0 & _ & _). unfold prange. rewrite py_len_range. pose proof (py_len_nonneg (p_new p)). destruct u; lia. Qed.

Lemma patches_len d0 u ps : Forall (good_patch d0) ps -> length (paddrs ps) = length (pvals u ps).
Proof.
  induction 1 as [|p ps Hp _ IH]; [done|]. unfold paddrs, pvals in *. cbn [map concat]. rewrite !length_app, IH.
  pose proof (patch_len d0 u p Hp) as H. unfold py_len in H. lia.
Qed.

Lemma pvals_old d0 ps : Forall (good_patch d0) ps -> pvals false ps = gather d0 (paddrs ps).
Proof. induction 1 as [|p ps (_ & _ & _ & Hp) _ IH]; [done|]. unfold pvals, paddrs in *. cbn [map concat]. by rewrite gather_app, <- IH, <- Hp. Qed.

Lemma ptrace_writes d0 u ps : Forall (good_patch d0) ps -> writes (py_len d0) (ptrace u ps) (paddrs ps) (pvals u ps).
Proof.
  induction 1 as [|p ps Hp Hps IH]; [split; [done|]; split; constructor|]. change (ptrace u (p :: ps)) with ([EWrite (J:=transaction) (p_offset p) (if u then p_new p else p_old p)] ++ ptrace u ps).
  unfold paddrs, pvals. cbn [map concat]. apply writes_app; [|exact IH|].
  - pose proof (patch_len d0 u p Hp) as Hl. destruct Hp as (Ho & H0 & H1 & _). unfold prange in *. rewrite py_len_range in Hl. pose proof (py_len_nonneg (p_new p)).
    split; [|split; apply Forall_singleton; [cbn; destruct u; lia|eauto]]. unfold pairs. cbn. rewrite app_nil_r. do 2 f_equal. destruct u; lia.
  - pose proof (patch_len d0 u p Hp) as H. unfold py_len in H. lia.
Qed.

Lemma volume_write_run off data d : 0 <= off -> off + py_len data <= py_len d -> volume_write true off data d = ([EWrite off data], Ok tt).
Proof. intros. unfold volume_write. cbn [negb]. by apply os_pwrite_run. Qed.

Lemma apply_run v u ps d0 d : v_writable v = true -> Forall (good_patch d0) ps -> py_len d = py_len d0 -> apply_patches v ps u d = (ptrace u ps, Ok tt).
Proof.
  intros Hwr Hps. revert d. unfold apply_patches. rewrite Hwr. induction Hps as [|p ps Hp Hps IH]; intros d Hl; [done|]. cbn [pforeach].
  pose proof Hp as (Ho & H0 & H1 & _). unfold pbind at 1. rewrite volume_write_run by (destruct u; lia). rewrite IH; [done|].
  rewrite <- Hl. apply (replay_len (J:=transaction) d [_]). apply Forall_singleton. cbn. destruct u; lia.
Qed.

Lemma np_addr ps a v : (a, v) ∈ np ps -> a ∈ paddrs ps.
Proof. intros H. apply list_elem_of_lookup in H as [i Hi]. apply lookup_zip_with_Some in Hi as (x & y & [= <- <-] & Hx & _). by eapply list_elem_of_lookup_2. Qed.

Lemma zip_gather d addrs a v : (a, v) ∈ zip addrs (gather d addrs) -> v = peek d a.
Proof.
  intros H. apply list_elem_of_lookup in H as [i Hi]. apply lookup_zip_with_Some in Hi as (x & y & [= <- <-] & Hx & Hy).
  unfold gather in Hy. rewrite list_lookup_fmap, Hx in Hy. by injection Hy.
Qed.

Lemma elem_of_paddrs ps a : a ∈ paddrs ps <-> exists p, p ∈ ps /\ a ∈ prange p.
Proof.
  unfold paddrs. induction ps as [|p ps IH]; cbn [map concat]; [split; [intros H; by apply elem_of_nil in H|intros (? & H & _); by apply elem_of_nil in H]|].
  rewrite elem_of_app, IH. setoid_rewrite elem_of_cons. naive_solver.
Qed.

Lemma paddrs_on d0 ps : Forall (good_patch d0) ps -> on_device (py_len d0) (paddrs ps).
Proof.
  intros H. apply Forall_forall. intros a (p & Hp & Ha)%elem_of_paddrs. rewrite Forall_forall in H. destruct (H p Hp) as (_ & ? & ? & _).
  apply elem_of_py_range in Ha. lia.
Qed.

(** ** The protocol *)

Section protocol.
Context (d0 : bytes) (SB FB M SH FH : list Patch) (D : list Z) (payload : bytes).

Record txn_ok : Prop := mkTxnOk {
  tx_sb : Forall (good_patch d0) SB;
  tx_fb : Forall (good_patch d0) FB;
  tx_m : Forall (good_patch d0) M;
  tx_sh : Forall (good_patch d0) SH;
  tx_fh : Forall (good_patch d0) FH;
  tx_apart : NoDup (D ++ paddrs M ++ paddrs FB ++ paddrs FH);
  tx_stage_bitmap : forall a, a ∈ paddrs SB -> a ∈ paddrs FB;
  tx_stage_header : paddrs SH = paddrs FH;
  tx_on : on_device (py_len d0) D;
  tx_payload : length D = length payload;
  tx_changes : exists a w, (a, w) ∈ np M /\ w <> peek d0 a
}.
Hypothesis Hok : txn_ok.
Local Notation n := (py_len d0).

(** ** Values a power failure can leave *)

Definition allowed_back (a v : Z) : Prop := a ∈ D \/ v = peek d0 a \/ (a, v) ∈ np M ++ np SB ++ np SH.

(** Before the switch is complete: some byte of the metadata is still old. *)
Definition backward (d : bytes) : Prop :=
  py_len d = n /\ holds allowed_back d /\ exists a w, (a, w) ∈ np M /\ w <> peek d0 a /\ peek d a = peek d0 a.

Definition allowed_fwd (a v : Z) : Prop :=
  (a ∈ D -> (a, v) ∈ zip D payload) /\ (a ∈ paddrs M -> (a, v) ∈ np M) /\
  (a ∉ D -> a ∉ paddrs M -> v = peek d0 a \/ (a, v) ∈ np SB ++ np FB ++ np SH ++ np FH).

(** Behind the switch: the copy and the new metadata are on the device. *)
Definition forward (d : bytes) : Prop := py_len d = n /\ holds allowed_fwd d.

Definition is_old (d : bytes) : Prop := py_len d = n /\ forall a, 0 <= a < n -> a ∉ D -> peek d a = peek d0 a.

Definition new_value (a v : Z) : Prop :=
  (a, v) ∈ zip D payload \/ (a, v) ∈ np M ++ np FB ++ np FH \/ (a ∉ D ++ paddrs M ++ paddrs FB ++ paddrs FH /\ v = peek d0 a).

Definition is_new (d : bytes) : Prop := py_len d = n /\ forall a, 0 <= a < n -> new_value a (peek d a).

Lemma holds_peek (P : Z -> Z -> Prop) d a : holds P d -> 0 <= a < py_len d -> P a (peek d a).
Proof. intros H Ha. apply H; [lia|]. by apply nthZ_peek. Qed.

Lemma apart_facts a :
  (a ∈ D -> a ∉ paddrs M /\ a ∉ paddrs FB /\ a ∉ paddrs FH) /\ (a ∈ paddrs M -> a ∉ D /\ a ∉ paddrs FB /\ a ∉ paddrs FH) /\
  (a ∈ paddrs FB -> a ∉ D /\ a ∉ paddrs M /\ a ∉ paddrs FH) /\ (a ∈ paddrs FH -> a ∉ D /\ a ∉ paddrs M /\ a ∉ paddrs FB).
Proof.
  pose proof (tx_apart Hok) as H. apply NoDup_app in H as (_ & H1 & H). apply NoDup_app in H as (_ & H2 & H). apply NoDup_app in H as (_ & H3 & _).
  specialize (H1 a). specialize (H2 a). specialize (H3 a). rewrite !elem_of_app in *. tauto.
Qed.

Lemma new_inside : Forall (inside n) (ptrace true M) /\ Forall (inside n) (ptrace true SB) /\ Forall (inside n) (ptrace true FB) /\
  Forall (inside n) (ptrace true SH) /\ Forall (inside n) (ptrace true FH).
Proof. destruct Hok as [H1 H2 H3 H4 H5]. repeat split; by eapply ptrace_writes. Qed.

Lemma np_pairs ps : Forall (good_patch d0) ps -> pairs (ptrace true ps) = np ps.
Proof. intros H. apply (ptrace_writes d0 true ps H). Qed.

Lemma old_pairs ps a v : Forall (good_patch d0) ps -> (a, v) ∈ pairs (ptrace false ps) -> v = peek d0 a.
Proof. intros H Hp. destruct (ptrace_writes d0 false ps H) as (E & _). rewrite E, (pvals_old d0) in Hp by done. by eapply zip_gather. Qed.

Lemma pairs_addr u ps a : Forall (good_patch d0) ps -> a ∈ paddrs ps -> a ∈ map fst (pairs (ptrace u ps)).
Proof.
  intros H Ha. destruct (ptrace_writes d0 u ps H) as (-> & _). change (map fst) with (fmap (M:=list) (@fst Z Z)). rewrite fst_zip; [done|].
  by rewrite (patches_len d0 u ps H).
Qed.

(** ** Rolling back *)

Definition roll_back : list (effect transaction) := ptrace false M ++ ptrace false SB ++ ptrace false SH.

Lemma roll_back_inside : Forall (inside n) roll_back.
Proof. destruct Hok as [H1 H2 H3 H4 H5]. unfold roll_back. repeat apply Forall_app_2; by eapply ptrace_writes. Qed.

Lemma roll_back_values a v : (a, v) ∈ pairs roll_back -> v = peek d0 a.
Proof. destruct Hok as [H1 H2 H3 H4 H5]. unfold roll_back. rewrite !pairs_app, !elem_of_app. intros [H|[H|H]]; by eapply old_pairs in H. Qed.

Lemma roll_back_old d : backward d -> is_old (replay d roll_back).
Proof.
  intros (Hl & Hh & _). pose proof roll_back_inside as Hin. rewrite <- Hl in Hin. split; [by rewrite replay_len|]. intros a Ha HD.
  destruct (decide (a ∈ map fst (pairs roll_back))) as [Hw|Hw].
  - destruct (peek_replay_in d roll_back a Hin ltac:(lia) Hw) as (v & Hv & ->). by eapply roll_back_values.
  - rewrite peek_untouched; [|done|lia|intros v Hv; apply Hw; apply list_elem_of_fmap; by exists (a, v)].
    destruct (holds_peek _ d a Hh ltac:(lia)) as [?|[?|Hn]]; [done|done|]. exfalso. apply Hw. unfold roll_back. rewrite !pairs_app, !map_app, !elem_of_app.
    rewrite !elem_of_app in Hn. destruct Hok as [H1 H2 H3 H4 H5]. destruct Hn as [Hn|[Hn|Hn]]; apply np_addr in Hn; [left|right; left|right; right]; by apply pairs_addr.
Qed.

(** A failure while rolling back leaves something to roll back. *)
Lemma roll_back_crash d p s d' : backward d -> roll_back = p ++ s -> crash d p d' -> backward d'.
Proof.
  intros (Hl & Hh & a & w & Hw & Hne & Hold) Hp Hc. pose proof roll_back_inside as Hin. rewrite <- Hl in Hin.
  assert (Forall (inside (py_len d)) p) as Hip by (by eapply Forall_prefix).
  assert (forall b v, (b, v) ∈ pairs p -> v = peek d0 b) as Hv by (intros b v H; apply roll_back_values; rewrite Hp, pairs_app; set_solver).
  assert (py_len d' = py_len d) as Hl' by by destruct Hc. split; [lia|]. split.
  - eapply holds_crash; [exact Hip|exact Hh| |exact Hc]. apply safe_pairs. intros b v H. right. left. by apply Hv.
  - exists a, w. split; [done|]. split; [done|].
    assert (a < n /\ 0 <= a) as [Han Ha0].
    { apply np_addr in Hw. pose proof (paddrs_on d0 M (tx_m Hok)) as Hm. unfold on_device in Hm. rewrite Forall_forall in Hm. specialize (Hm a Hw). lia. }
    assert (holds (fun b v => b = a -> v = peek d0 a) d') as Hh'.
    { eapply holds_crash; [exact Hip| | |exact Hc].
      - intros b v Hb Hn ->. rewrite <- Hold. unfold peek. by rewrite Hn.
      - apply safe_pairs. intros b v H ->. by apply Hv. }
    apply (holds_peek _ d' a Hh'); [lia|done].
Qed.

(** ** Completing *)

(** Writes that finish the move: new bytes only, every byte of the final
    bitmap and headers. *)
Definition finishing (t : list (effect transaction)) : Prop :=
  Forall (inside n) t /\ (forall a v, (a, v) ∈ pairs t -> (a, v) ∈ np M ++ np FB ++ np FH) /\
  forall a, a ∈ paddrs FB \/ a ∈ paddrs FH -> a ∈ map fst (pairs t).

Lemma new_safe a v : (a, v) ∈ np M ++ np FB ++ np FH -> allowed_fwd a v.
Proof.
  rewrite !elem_of_app. intros H. assert (a ∈ paddrs M \/ a ∈ paddrs FB \/ a ∈ paddrs FH) as Ha by (destruct H as [H|[H|H]]; apply np_addr in H; tauto).
  pose proof (apart_facts a) as Hap. split; [tauto|]. split; [|intros _ HnM; rewrite !elem_of_app].
  - intros HM. destruct H as [H|[H|H]]; [done|apply np_addr in H; tauto|apply np_addr in H; tauto].
  - destruct H as [H|[H|H]]; [apply np_addr in H; tauto|tauto|tauto].
Qed.

Lemma finishing_new d t : forward d -> finishing t -> is_new (replay d t).
Proof.
  intros (Hl & Hh) (Hin & Hv & Hcov). rewrite <- Hl in Hin. split; [by rewrite replay_len|]. intros a Ha. pose proof (apart_facts a) as Hap.
  destruct (decide (a ∈ map fst (pairs t))) as [Hw|Hw].
  - destruct (peek_replay_in d t a Hin ltac:(lia) Hw) as (v & Hp & ->). right. left. by apply Hv.
  - rewrite peek_untouched; [|done|lia|intros v Hp; apply Hw; apply list_elem_of_fmap; by exists (a, v)].
    destruct (holds_peek _ d a Hh ltac:(lia)) as (HD & HM & Ho). specialize (Hcov a). unfold new_value. rewrite !elem_of_app.
    destruct (decide (a ∈ D)) as [Hd|Hd]; [left; by apply HD|]. destruct (decide (a ∈ paddrs M)) as [Hm|Hm]; [right; left; left; by apply HM|].
    destruct (Ho Hd Hm) as [He|He]; [right; right; split; [|done]; tauto|]. exfalso. rewrite !elem_of_app in He.
    destruct He as [He|[He|[He|He]]]; apply np_addr in He.
    + apply (tx_stage_bitmap Hok) in He. tauto.
    + tauto.
    + rewrite (tx_stage_header Hok) in He. tauto.
    + tauto.
Qed.

Lemma finishing_crash d t p s d' : forward d -> finishing t -> t = p ++ s -> crash d p d' -> forward d'.
Proof.
  intros (Hl & Hh) (Hin & Hv & _) Hp Hc. rewrite <- Hl in Hin. assert (py_len d' = py_len d) as Hl' by by destruct Hc. split; [lia|].
  eapply holds_crash; [by eapply Forall_prefix|exact Hh| |exact Hc]. apply safe_pairs. intros a v H. apply new_safe, Hv. rewrite Hp, pairs_app. set_solver.
Qed.

Definition complete_ : list (effect transaction) := ptrace true M ++ ptrace true FB ++ ptrace true FH.
Definition release : list (effect transaction) := ptrace true FB ++ ptrace true FH.

Lemma complete_finishing : finishing complete_.
Proof.
  destruct new_inside as (I1 & I2 & I3 & I4 & I5). destruct Hok as [H1 H2 H3 H4 H5]. unfold complete_. split; [by repeat apply Forall_app_2|].
  rewrite !pairs_app, !map_app. split; [by rewrite !np_pairs|]. intros a Ha. rewrite !elem_of_app. destruct Ha; [right; left|right; right]; by apply pairs_addr.
Qed.

Lemma release_finishing : finishing release.
Proof.
  destruct new_inside as (I1 & I2 & I3 & I4 & I5). destruct Hok as [H1 H2 H3 H4 H5]. unfold release. split; [by repeat apply Forall_app_2|].
  rewrite !pairs_app, !map_app. split; [rewrite !np_pairs by done; set_solver|]. intros a Ha. rewrite !elem_of_app. destruct Ha; [left|right]; by apply pairs_addr.
Qed.

(** ** The switch *)

Definition allowed_mid (a v : Z) : Prop :=
  (a ∈ D -> (a, v) ∈ zip D payload) /\ (a ∈ paddrs M -> v = peek d0 a \/ (a, v) ∈ np M) /\
  (a ∉ D -> a ∉ paddrs M -> v = peek d0 a \/ (a, v) ∈ np SB ++ np SH).

Lemma np_functional ps a v w : NoDup (paddrs ps) -> (a, v) ∈ np ps -> (a, w) ∈ np ps -> v = w.
Proof.
  intros Hnd Hv Hw. apply list_elem_of_lookup in Hv as [i Hi], Hw as [j Hj]. apply lookup_zip_with_Some in Hi as (x & y & [= <- <-] & Hx & Hy).
  apply lookup_zip_with_Some in Hj as (x & z & [= <- <-] & Hx' & Hz). rewrite (NoDup_lookup _ _ _ _ Hnd Hx Hx') in Hy. congruence.
Qed.

Lemma np_value ps a : Forall (good_patch d0) ps -> a ∈ paddrs ps -> exists v, (a, v) ∈ np ps.
Proof. intros H Ha. apply (pairs_addr true ps a H) in Ha. rewrite np_pairs in Ha by done. apply list_elem_of_fmap in Ha as ([b v] & -> & ?). eauto. Qed.

Lemma metadata_nodup : NoDup (paddrs M).
Proof. pose proof (tx_apart Hok) as H. apply NoDup_app in H as (_ & _ & H). by apply NoDup_app in H as (H & _ & _). Qed.

Definition switched (d : bytes) : Prop := Forall (fun c => peek d c.1 = c.2) (np M).

Lemma mid_cases d : py_len d = n -> holds allowed_mid d -> (switched d /\ forward d) \/ (~ switched d /\ backward d).
Proof.
  intros Hl Hh. assert (forall c : Z * Z, Decision (peek d c.1 = c.2)) as Hdec by (intros c; apply _).
  destruct (decide (switched d)) as [Hs|Hs]; [left|right]; (split; [done|]); (split; [done|]).
  - intros a v Ha Hv. destruct (Hh a v Ha Hv) as (H1 & H2 & H3). split; [done|]. split.
    + intros HM. destruct (np_value M a (tx_m Hok) HM) as (w & Hw). unfold switched in Hs. rewrite Forall_forall in Hs. specialize (Hs (a, w) Hw). cbn in Hs.
      unfold peek in Hs. rewrite Hv in Hs. cbn in Hs. by subst w.
    + intros HD HM. destruct (H3 HD HM) as [?|Hp]; [by left|right]. rewrite !elem_of_app in *. tauto.
  - split.
    + intros a v Ha Hv. destruct (Hh a v Ha Hv) as (H1 & H2 & H3). unfold allowed_back. rewrite !elem_of_app in *.
      destruct (decide (a ∈ D)); [tauto|]. destruct (decide (a ∈ paddrs M)); tauto.
    + apply not_Forall_Exists in Hs; [|done]. apply Exists_exists in Hs as ([a w] & Hw & Hne). cbn in Hne. pose proof (np_addr _ _ _ Hw) as Ha.
      pose proof (paddrs_on d0 M (tx_m Hok)) as Hon. unfold on_device in Hon. rewrite Forall_forall in Hon. specialize (Hon a Ha).
      destruct (holds_peek _ d a Hh ltac:(lia)) as (_ & H2 & _). destruct (H2 Ha) as [He|He]; [|by pose proof (np_functional M a _ _ metadata_nodup He Hw)].
      exists a, w. split; [done|]. split; [congruence|done].
Qed.

(** ** The move *)

Context (X : transaction) (copy : list (effect transaction)).
Hypothesis Hcopy : writes n copy D payload.

Local Notation at_ st := (EJournal (Some (set_stage X st))).
Definition phase_copy : list (effect transaction) := at_ "prepared" :: copy.
Definition phase_stage : list (effect transaction) := at_ "copied" :: ptrace true SB ++ ptrace true SH.
Definition phase_switch : list (effect transaction) := at_ "destination-ready" :: at_ "switching" :: ptrace true M.
Definition phase_release : list (effect transaction) := at_ "switched" :: release.
Definition phase_end : list (effect transaction) := [at_ "complete"; EJournal None].
Definition move_trace : list (effect transaction) :=
  phase_copy ++ EFsync :: phase_stage ++ EFsync :: phase_switch ++ EFsync :: phase_release ++ EFsync :: phase_end.

(** What a device and journal left by a power failure satisfy. *)
Definition left_behind (d : bytes) (j : option transaction) : Prop :=
  match j with
  | None => is_old d \/ is_new d
  | Some x => exists st, x = set_stage X st /\ ((backward d /\ st <> "switched" /\ st <> "complete") \/ forward d)
  end.

Lemma prefix_phase (t q p s : list (effect transaction)) : t ++ EFsync :: q = p ++ s -> (exists s', t = p ++ s') \/ (exists p', p = t ++ EFsync :: p' /\ q = p' ++ s).
Proof.
  intros H. symmetry in H. apply prefix_app in H as [?|([|e p'] & -> & Hq)]; [by left|left; exists []; by rewrite !app_nil_r|].
  right. injection Hq as <- ->. eauto.
Qed.

(** The journal after the marks and writes of one phase. *)
Lemma journal_writes (j : option transaction) (t : list (effect transaction)) : Forall (fun e => exists off ch, e = EWrite off ch) t -> journal_after j t = j.
Proof. induction 1 as [|e t (off & ch & ->) _ IH]; [done|]. exact IH. Qed.

Lemma mark_writes (j : option transaction) y (t : list (effect transaction)) :
  Forall (fun e => exists off ch, e = EWrite off ch) t -> journal_after j (EJournal y :: t) = y.
Proof. intros H. cbn [journal_after fold_left journal_step]. by apply journal_writes. Qed.

Lemma journal_prefix (j : option transaction) st p s (t : list (effect transaction)) :
  at_ st :: t = p ++ s -> Forall (fun e => exists off ch, e = EWrite off ch) t -> p = [] \/ journal_after j p = Some (set_stage X st).
Proof.
  intros Hp Ht. destruct p as [|e p]; [by left|right]. injection Hp as <- Hp. cbn [journal_after fold_left journal_step]. apply journal_writes. by eapply Forall_prefix.
Qed.

Lemma ptrace_only_writes u ps : Forall (fun e => exists off ch, e = EWrite off ch) (ptrace u ps).
Proof. apply Forall_forall. intros e (p & -> & _)%list_elem_of_fmap. eauto. Qed.

Lemma replay_mark (j : option transaction) d (t : list (effect transaction)) : replay d (EJournal j :: t) = replay d t.
Proof. done. Qed.

Lemma mark_inside (j : option transaction) (t : list (effect transaction)) : Forall (inside n) t -> Forall (inside n) (EJournal j :: t).
Proof. by constructor. Qed.

Lemma mark_safe (P : Z -> Z -> Prop) (j : option transaction) (t : list (effect transaction)) : Forall (safe P) t -> Forall (safe P) (EJournal j :: t).
Proof. intros. constructor; [by intros ? ? []|done]. Qed.

(** The metadata byte that changes is outside the copy. *)
Lemma untouched_back d : py_len d = n -> holds allowed_back d -> (forall a, a ∈ paddrs M -> 0 <= a < n -> peek d a = peek d0 a) -> backward d.
Proof.
  intros Hl Hh Hm. destruct (tx_changes Hok) as (a & w & Hw & Hne). split; [done|]. split; [done|]. exists a, w. split; [done|]. split; [done|].
  pose proof (np_addr _ _ _ Hw) as Ha. apply Hm; [done|]. pose proof (paddrs_on d0 M (tx_m Hok)) as Hon. unfold on_device in Hon. rewrite Forall_forall in Hon. by apply Hon.
Qed.

Definition allowed_stage (a v : Z) : Prop := allowed_mid a v /\ (a ∈ paddrs M -> v = peek d0 a).

Lemma stage_back d : py_len d = n -> holds allowed_stage d -> backward d.
Proof.
  intros Hl Hh. apply untouched_back; [done| |].
  - intros a v Ha Hv. destruct (Hh a v Ha Hv) as ((H1 & H2 & H3) & H4). unfold allowed_back. rewrite !elem_of_app in *.
    destruct (decide (a ∈ D)); [tauto|]. destruct (decide (a ∈ paddrs M)); tauto.
  - intros a Ha Hb. destruct (holds_peek _ d a Hh ltac:(lia)) as [_ H]. by apply H.
Qed.

Definition D1 : bytes := replay d0 phase_copy.
Definition D2 : bytes := replay D1 phase_stage.
Definition D3 : bytes := replay D2 phase_switch.
Definition D4 : bytes := replay D3 phase_release.

Lemma copy_safe (P : Z -> Z -> Prop) : (forall a v, (a, v) ∈ zip D payload -> P a v) -> Forall (safe P) phase_copy.
Proof. intros H. apply mark_safe, safe_pairs. destruct Hcopy as (-> & _). done. Qed.

Lemma copy_inside : Forall (inside n) phase_copy.
Proof. apply mark_inside. apply Hcopy. Qed.

Lemma stage_inside : Forall (inside n) phase_stage.
Proof. destruct new_inside as (I1 & I2 & I3 & I4 & I5). apply mark_inside. by apply Forall_app_2. Qed.

Lemma switch_inside : Forall (inside n) phase_switch.
Proof. destruct new_inside as (I1 & I2 & I3 & I4 & I5). by do 2 apply mark_inside. Qed.

Lemma release_inside : Forall (inside n) phase_release.
Proof. apply mark_inside. apply release_finishing. Qed.

Lemma zip_elem {A B} (l : list A) (k : list B) a v : (a, v) ∈ zip l k -> a ∈ l.
Proof. intros H. apply list_elem_of_lookup in H as [i Hi]. apply lookup_zip_with_Some in Hi as (x & y & [= <- <-] & Hx & _). by eapply list_elem_of_lookup_2. Qed.

Lemma D1_facts : py_len D1 = n /\ holds allowed_stage D1.
Proof.
  assert (py_len D1 = n) as Hl by (apply replay_len, copy_inside). split; [done|]. intros a v Ha Hv. pose proof (apart_facts a) as Hap.
  assert (v = peek D1 a) as -> by (unfold peek; by rewrite Hv).
  assert (D1 = replay d0 copy) as -> by done. destruct (decide (a ∈ D)) as [Hd|Hd].
  - destruct (peek_replay_in d0 copy a) as (w & Hw & ->); [apply Hcopy|done| |].
    { destruct Hcopy as (-> & _). change (map fst) with (fmap (M:=list) (@fst Z Z)). by rewrite fst_zip by (rewrite (tx_payload Hok); done). }
    destruct Hcopy as (E & _). rewrite E in Hw. unfold allowed_stage, allowed_mid. tauto.
  - rewrite (writes_elsewhere _ _ _ _ _ Hcopy Ha Hd). unfold allowed_stage, allowed_mid. tauto.
Qed.

Lemma stage_safe (P : Z -> Z -> Prop) : (forall a v, allowed_stage a v -> P a v) -> Forall (safe P) phase_stage.
Proof.
  intros HP. apply mark_safe, safe_pairs. intros a v H. apply HP. rewrite pairs_app, elem_of_app, !np_pairs in H by apply Hok. pose proof (apart_facts a) as Hap.
  assert (a ∈ paddrs FB \/ a ∈ paddrs FH) as Ha.
  { destruct H as [H|H]; apply np_addr in H; [left; by apply (tx_stage_bitmap Hok)|right; by rewrite <- (tx_stage_header Hok)]. }
  unfold allowed_stage, allowed_mid. rewrite elem_of_app. tauto.
Qed.

Lemma D2_facts : py_len D2 = n /\ holds allowed_stage D2.
Proof.
  destruct D1_facts as [Hl Hh]. pose proof stage_inside as Hi. rewrite <- Hl in Hi. split; [unfold D2; by rewrite replay_len|].
  apply holds_replay; [done|done|]. by apply stage_safe.
Qed.

Lemma switch_safe : Forall (safe allowed_mid) phase_switch.
Proof.
  do 2 apply mark_safe. apply safe_pairs. intros a v H. rewrite np_pairs in H by apply Hok. pose proof (apart_facts a) as Hap. pose proof (np_addr _ _ _ H). unfold allowed_mid. tauto.
Qed.

Lemma stage_mid d : holds allowed_stage d -> holds allowed_mid d.
Proof. intros H a v Ha Hv. by apply H. Qed.

Lemma D3_facts : forward D3.
Proof.
  destruct D2_facts as [Hl Hh]. pose proof switch_inside as Hi. rewrite <- Hl in Hi. assert (py_len D3 = n) as Hl3 by (unfold D3; by rewrite replay_len).
  destruct (mid_cases D3 Hl3) as [[_ ?]|[Hs _]]; [apply holds_replay; [done|by apply stage_mid|apply switch_safe]|done|]. destruct Hs. apply Forall_forall. intros [a w] Hw. cbn [fst snd].
  assert (D3 = replay D2 (ptrace true M)) as -> by done. pose proof (ptrace_writes d0 true M (tx_m Hok)) as (E & Hin & _). rewrite <- Hl in Hin.
  apply peek_written; [done| |by rewrite E|].
  - rewrite E. change (map fst) with (fmap (M:=list) (@fst Z Z)). rewrite fst_zip by (by rewrite (patches_len d0 true M (tx_m Hok))). apply metadata_nodup.
  - apply np_addr in Hw. pose proof (paddrs_on d0 M (tx_m Hok)) as Hon. unfold on_device in Hon. rewrite Forall_forall in Hon. specialize (Hon a Hw). lia.
Qed.

Lemma D4_new : is_new D4.
Proof. apply (finishing_new D3 release); [apply D3_facts|apply release_finishing]. Qed.

Lemma forward_release : forward D4.
Proof.
  destruct D3_facts as [Hl Hh]. destruct release_finishing as (Hi & Hv & _). rewrite <- Hl in Hi. split; [unfold D4, phase_release; rewrite replay_mark, replay_len; done|].
  apply holds_replay; [by constructor|done|]. apply mark_safe, safe_pairs. intros a v H. by apply new_safe, Hv.
Qed.

Lemma move_trace_end : replay d0 move_trace = D4.
Proof.
  unfold move_trace. repeat (rewrite replay_app; match goal with |- replay ?x (EFsync :: ?t) = _ => change (replay x (EFsync :: t)) with (replay x t) end). done.
Qed.

(** ** Crashes of the move *)

Lemma left_back d st : backward d -> st <> "switched" -> st <> "complete" -> left_behind d (Some (set_stage X st)).
Proof. intros. exists st. split; [done|]. by left. Qed.

Lemma left_forward d st : forward d -> left_behind d (Some (set_stage X st)).
Proof. intros. exists st. split; [done|]. by right. Qed.

Lemma crash_holds (P : Z -> Z -> Prop) d (t p s : list (effect transaction)) d' :
  py_len d = n -> Forall (inside n) t -> holds P d -> Forall (safe P) t -> t = p ++ s -> crash d p d' -> py_len d' = n /\ holds P d'.
Proof.
  intros Hl Hi Hh Hs Hp Hc. rewrite <- Hl in Hi. split; [destruct Hc; lia|]. eapply holds_crash; [by eapply Forall_prefix|exact Hh|by eapply Forall_prefix|exact Hc].
Qed.

Lemma crash_copy p s d : phase_copy = p ++ s -> crash d0 p d -> left_behind d (journal_after None p).
Proof.
  intros Hp Hc. destruct (journal_prefix None "prepared" p s copy Hp) as [-> | ->]; [apply Hcopy| |].
  - apply crash_nil in Hc as ->. by left.
  - destruct (crash_holds (fun a v => a ∈ D \/ v = peek d0 a) d0 phase_copy p s d eq_refl copy_inside) as [Hl Hh]; [..|done|done|].
    + intros a v Ha Hv. right. unfold peek. by rewrite Hv.
    + apply copy_safe. intros a v Hv. left. by eapply zip_elem.
    + apply left_back; [|done|done]. apply untouched_back; [done| |].
      * intros a v Ha Hv. destruct (Hh a v Ha Hv); unfold allowed_back; tauto.
      * intros a HM Ha. pose proof (apart_facts a). destruct (holds_peek _ d a Hh ltac:(lia)) as [?|?]; [tauto|done].
Qed.

Lemma crash_stage p s d : phase_stage = p ++ s -> crash D1 p d -> left_behind d (journal_after (Some (set_stage X "prepared")) p).
Proof.
  intros Hp Hc. destruct D1_facts as [Hl1 Hh1].
  destruct (crash_holds allowed_stage D1 phase_stage p s d Hl1 stage_inside Hh1) as [Hl Hh]; [by apply stage_safe|done|done|]. pose proof (stage_back d Hl Hh) as Hb.
  destruct (journal_prefix (Some (set_stage X "prepared")) "copied" p s (ptrace true SB ++ ptrace true SH) Hp) as [-> | ->];
    [apply Forall_app_2; apply ptrace_only_writes|by apply left_back..].
Qed.

Lemma crash_switch p s d : phase_switch = p ++ s -> crash D2 p d -> left_behind d (journal_after (Some (set_stage X "copied")) p).
Proof.
  intros Hp Hc. destruct D2_facts as [Hl2 Hh2].
  destruct (crash_holds allowed_mid D2 phase_switch p s d Hl2 switch_inside (stage_mid _ Hh2) switch_safe Hp Hc) as [Hl Hh].
  assert (exists st, journal_after (Some (set_stage X "copied")) p = Some (set_stage X st) /\ st <> "switched" /\ st <> "complete") as (st & -> & H1 & H2).
  { destruct p as [|e p]; [by eexists|]. injection Hp as <- Hp. destruct p as [|e p]; [by eexists|]. injection Hp as <- Hp. cbn [journal_after fold_left journal_step].
    exists "switching". split; [|done]. apply journal_writes. eapply Forall_prefix; [exact Hp|apply ptrace_only_writes]. }
  destruct (mid_cases d Hl Hh) as [[_ Hf]|[_ Hb]]; [by apply left_forward|by apply left_back].
Qed.

Lemma crash_release p s d : phase_release = p ++ s -> crash D3 p d -> left_behind d (journal_after (Some (set_stage X "switching")) p).
Proof.
  intros Hp Hc. destruct D3_facts as [Hl3 Hh3]. destruct release_finishing as (Hi & Hv & _).
  destruct (crash_holds allowed_fwd D3 phase_release p s d Hl3 release_inside Hh3) as [Hl Hh]; [|done|done|].
  { apply mark_safe, safe_pairs. intros a v H. by apply new_safe, Hv. }
  destruct (journal_prefix (Some (set_stage X "switching")) "switched" p s release Hp) as [-> | ->];
    [apply Forall_app_2; apply ptrace_only_writes|apply left_forward; by split..].
Qed.

Lemma crash_end p s d : phase_end = p ++ s -> crash D4 p d -> left_behind d (journal_after (Some (set_stage X "switched")) p).
Proof.
  intros Hp Hc. apply crash_quiet in Hc as ->; [|eapply Forall_prefix; [exact Hp|by repeat constructor]]. pose proof forward_release as Hf.
  destruct p as [|e p]; [by apply left_forward|]. injection Hp as <- Hp. destruct p as [|e p]; [by apply left_forward|]. injection Hp as <- Hp.
  destruct p; [|done]. right. apply D4_new.
Qed.

(** Whenever power fails during the move. *)
Lemma move_trace_crash p s d : move_trace = p ++ s -> crash d0 p d -> left_behind d (journal_after None p).
Proof.
  intros Hp Hc. pose proof (ptrace_only_writes true) as Hw. destruct D1_facts as [L1 _]. destruct D2_facts as [L2 _]. destruct D3_facts as [L3 _].
  unfold move_trace in Hp. apply prefix_phase in Hp as [(s' & Hp)|(p1 & -> & Hp)]; [by eapply crash_copy|].
  apply crash_after_fsync in Hc; [|apply copy_inside]. fold D1 in Hc.
  rewrite journal_after_app. replace (journal_after None phase_copy) with (Some (set_stage X "prepared")) by (symmetry; apply mark_writes, Hcopy).
  change (journal_after ?j (EFsync :: ?t)) with (journal_after j t).
  apply prefix_phase in Hp as [(s' & Hp)|(p2 & -> & Hp)]; [by eapply crash_stage|].
  apply crash_after_fsync in Hc; [|rewrite L1; apply stage_inside]. fold D2 in Hc. rewrite journal_after_app.
  replace (journal_after _ phase_stage) with (Some (set_stage X "copied")) by (symmetry; apply mark_writes, Forall_app_2; apply Hw).
  change (journal_after ?j (EFsync :: ?t)) with (journal_after j t).
  apply prefix_phase in Hp as [(s' & Hp)|(p3 & -> & Hp)]; [by eapply crash_switch|].
  apply crash_after_fsync in Hc; [|rewrite L2; apply switch_inside]. fold D3 in Hc. rewrite journal_after_app.
  replace (journal_after _ phase_switch) with (Some (set_stage X "switching")) by (symmetry; exact (mark_writes (Some (set_stage X "destination-ready")) (Some (set_stage X "switching")) _ (Hw M))).
  change (journal_after ?j (EFsync :: ?t)) with (journal_after j t).
  apply prefix_phase in Hp as [(s' & Hp)|(p4 & -> & Hp)]; [by eapply crash_release|].
  apply crash_after_fsync in Hc; [|rewrite L3; apply release_inside]. fold D4 in Hc. rewrite journal_after_app.
  replace (journal_after _ phase_release) with (Some (set_stage X "switched")) by (symmetry; apply mark_writes, Forall_app_2; apply Hw).
  change (journal_after ?j (EFsync :: ?t)) with (journal_after j t). by eapply crash_end.
Qed.

(** ** Crashes of a recovery *)

(** The decision of the recovery and what it writes. *)
Definition decision (d : bytes) (st : string) : bool := bool_decide (switched d) || bool_decide (st = "switched") || bool_decide (st = "complete").
Definition repair (d : bytes) (st : string) : list (effect transaction) := if decision d st then complete_ else roll_back.

Lemma decision_cases d st : left_behind d (Some (set_stage X st)) -> x_stage (set_stage X st) = st -> (decision d st = true /\ forward d) \/ (decision d st = false /\ backward d).
Proof.
  intros (st' & Hx & Hc) Hst. assert (st' = st) as -> by (apply (f_equal x_stage) in Hx; cbn in Hx; done). unfold decision. destruct Hc as [(Hb & H1 & H2)|Hf].
  - right. split; [|done]. destruct Hb as (_ & _ & a & w & Hw & Hne & Ho). rewrite !bool_decide_eq_false_2; [done|done|done|].
    unfold switched. rewrite Forall_forall. intros H. specialize (H (a, w) Hw). cbn in H. congruence.
  - left. split; [|done]. rewrite bool_decide_eq_true_2; [done|]. apply Forall_forall. intros [a w] Hw. cbn. pose proof (np_addr _ _ _ Hw) as Ha.
    destruct Hf as [Hl Hh]. pose proof (paddrs_on d0 M (tx_m Hok)) as Hon. unfold on_device in Hon. rewrite Forall_forall in Hon. specialize (Hon a Ha).
    destruct (holds_peek _ d a Hh ltac:(lia)) as (_ & H2 & _). by eapply np_functional; [apply metadata_nodup|apply H2|].
Qed.

Lemma repair_done d st : left_behind d (Some (set_stage X st)) -> is_old (replay d (repair d st)) \/ is_new (replay d (repair d st)).
Proof.
  intros H. unfold repair. destruct (decision_cases d st H eq_refl) as [[-> Hf]|[-> Hb]].
  - right. apply finishing_new; [done|apply complete_finishing].
  - left. by apply roll_back_old.
Qed.

Lemma repair_inside d st : Forall (inside n) (repair d st).
Proof. unfold repair. destruct (decision d st); [apply complete_finishing|apply roll_back_inside]. Qed.

Lemma repair_only_writes d st : Forall (fun e => exists off ch, e = EWrite off ch) (repair d st).
Proof. unfold repair. destruct (decision d st); repeat apply Forall_app_2; apply ptrace_only_writes. Qed.

Lemma crash_all d (t : list (effect transaction)) : Forall (inside (py_len d)) t -> Forall (fun e => exists off ch, e = EWrite off ch) t -> crash d t (replay d t).
Proof.
  intros Hi Hw. split; [by apply replay_len|]. exists [], t. split; [done|]. split; [by left|]. split.
  - eapply Forall_impl; [exact Hw|]. intros e (? & ? & ->) [].
  - intros a v Ha Hv. by apply replay_cases.
Qed.

Lemma repair_crash d st p s d' :
  left_behind d (Some (set_stage X st)) -> repair d st ++ [EFsync; EJournal None] = p ++ s -> crash d p d' -> left_behind d' (journal_after (Some (set_stage X st)) p).
Proof.
  intros Hleft Hp Hc. assert (py_len d = n) as Hl by (destruct Hleft as (? & _ & [[[H _] _]|[H _]]); exact H).
  apply prefix_phase in Hp as [(s' & Hp)|(q & -> & Hp)].
  - rewrite journal_writes by (eapply Forall_prefix; [exact Hp|apply repair_only_writes]). unfold repair in Hp.
    destruct (decision_cases d st Hleft eq_refl) as [[Hd Hf]|[Hd Hb]]; rewrite Hd in Hp.
    + apply left_forward. eapply finishing_crash; [exact Hf|apply complete_finishing|exact Hp|exact Hc].
    + unfold decision in Hd. rewrite !orb_false_iff, !bool_decide_eq_false in Hd. apply left_back; [by eapply roll_back_crash|tauto|tauto].
  - apply crash_after_fsync in Hc; [|rewrite Hl; apply repair_inside]. rewrite journal_after_app, (journal_writes _ (repair d st)) by apply repair_only_writes.
    apply crash_quiet in Hc as ->; [|eapply Forall_prefix; [exact Hp|by repeat constructor]].
    destruct q as [|e q].
    + cbn [journal_after fold_left journal_step]. pose proof (crash_all d (repair d st)) as Hall. rewrite Hl in Hall.
      specialize (Hall (repair_inside d st) (repair_only_writes d st)). unfold repair in *.
      destruct (decision_cases d st Hleft eq_refl) as [[Hd Hf]|[Hd Hb]]; rewrite Hd in *.
      * apply left_forward. eapply finishing_crash; [exact Hf|apply complete_finishing|symmetry; apply app_nil_r|exact Hall].
      * unfold decision in Hd. rewrite !orb_false_iff, !bool_decide_eq_false in Hd.
        apply left_back; [eapply roll_back_crash; [exact Hb|symmetry; apply app_nil_r|exact Hall]|tauto|tauto].
    + injection Hp as <- Hp. destruct q; [|done]. cbn [journal_after fold_left journal_step]. by apply repair_done.
Qed.
End protocol.
