(* ===== verification/AppleFacts.v ===== *)
(** * Correctness of the HFS+ engine

    Facts about [Apple]: fork maps address the bytes they should, patches
    describe exactly what changes, the bitmap states differ in the moved blocks
    only, and the journalled move is crash-safe on every sound volume. *)

From S2P Require Import Prelude Text Bytes Bitmap Device Addresses Apple AppleTxn.

Local Open Scope string_scope.
Local Open Scope list_scope.
Local Open Scope Z_scope.

(** ** Fork maps *)

Definition segment_range (s : Z * Z * Z) : list Z := py_range s.2 (s.2 + (s.1.2 - s.1.1)).
Definition fork_addrs (f : ForkMap) : list Z := concat (map segment_range (f_segments f)).

(** The addresses of the bytes [off, off+len) of a fork. *)
Definition fspan (f : ForkMap) (off len : Z) : list Z := py_slice (fork_addrs f) off (off + len).

Definition extent_ok (e : Extent) : Prop := 0 <= e_start e /\ 0 < e_count e.

(** A fork map as [ForkMap_init] makes it from unsigned fields. *)
Definition fork_ok (bs : Z) (f : ForkMap) : Prop :=
  0 < bs /\ exists extents, f_segments f = segments_from bs 0 extents /\ Forall extent_ok extents.

Lemma pieces_loop_spec bs extents (Hbs : 0 < bs) (He : Forall extent_ok extents) : forall lo pos left_ out,
  0 <= left_ -> lo <= pos \/ left_ = 0 ->
  let addrs := concat (map segment_range (segments_from bs lo extents)) in
  let part := if left_ =? 0 then [] else py_slice addrs (pos - lo) (pos - lo + left_) in
  exists ps, pieces_loop (segments_from bs lo extents) pos left_ out = Ok (out ++ ps, left_ - py_len part) /\ segment_addrs ps = part /\
    Forall (fun p => 0 < p.2 /\ 0 <= p.1) ps.
Proof.
  induction He as [|e extents [Hs Hc] He IH]; intros lo pos left_ out Hl Hpos addrs part.
  { exists []. cbn [segments_from pieces_loop]. rewrite app_nil_r. assert (part = []) as -> by (unfold part, addrs; destruct (left_ =? 0); [done|]; cbn; unfold py_slice; by rewrite drop_nil, take_nil).
    split; [do 2 f_equal; unfold py_len; cbn; lia|]. split; [done|constructor]. }
  cbn [segments_from pieces_loop]. destruct (Z.eqb_spec left_ 0) as [->|Hne].
  { exists []. rewrite app_nil_r. split; [done|]. split; [done|constructor]. }
  destruct Hpos as [Hpos|]; [|done]. set (hi := lo + e_count e * bs) in *. assert (lo < hi) as Hhi by (unfold hi; nia).
  assert (addrs = py_range (e_start e * bs) (e_start e * bs + (hi - lo)) ++ concat (map segment_range (segments_from bs hi extents))) as Ea by done.
  set (rest := concat (map segment_range (segments_from bs hi extents))) in *. set (first := py_range (e_start e * bs) (e_start e * bs + (hi - lo))) in *.
  assert (py_len first = hi - lo) as Hfl by (unfold first; rewrite py_len_range; lia). pose proof (py_len_nonneg rest) as Hr0.
  destruct (Z.leb_spec hi pos) as [Hskip|Hin].
  - destruct (IH hi pos left_ out Hl ltac:(lia)) as (ps & Hrun & Ha & Hf). fold rest in Hrun, Ha. rewrite (proj2 (Z.eqb_neq left_ 0)) in Hrun, Ha by done.
    assert (part = py_slice rest (pos - hi) (pos - hi + left_)) as -> by (unfold part; rewrite Ea, py_slice_app_r by lia; f_equal; lia). eauto.
  - rewrite (proj2 (Z.ltb_ge pos lo)) by lia. cbv zeta. set (take := Z.min left_ (hi - pos)). assert (0 < take /\ take <= left_ /\ take <= hi - pos /\ (take = left_ \/ take = hi - pos)) as (Ht0 & Ht1 & Ht2 & Ht3) by (unfold take; lia). clearbody take.
    assert (py_range (e_start e * bs + (pos - lo)) (e_start e * bs + (pos - lo) + take) = py_slice first (pos - lo) (pos - lo + take)) as Hseg.
    { unfold first. rewrite py_slice_range by lia. f_equal; lia. }
    destruct (IH hi (pos + take) (left_ - take) (out ++ [(e_start e * bs + (pos - lo), take)]) ltac:(lia) ltac:(lia)) as (ps & Hrun & Ha & Hf). fold rest in Hrun, Ha.
    assert (part = py_slice first (pos - lo) (pos - lo + take) ++ segment_addrs ps) as Hpart.
    { rewrite Ha. unfold part. rewrite Ea. destruct (Z.eqb_spec (left_ - take) 0) as [H0|H0].
      - rewrite app_nil_r. assert (take = left_) as -> by lia. by rewrite py_slice_app_l by lia.
      - assert (take = hi - pos) as -> by lia. replace (pos - lo + (hi - pos)) with (hi - lo) by lia.
        pose proof (py_slice_app (first ++ rest) (pos - lo) (hi - lo) (Z.min (pos - lo + left_) (py_len (first ++ rest)))) as Hsp. rewrite py_len_app in Hsp.
        assert (py_slice (first ++ rest) (pos - lo) (pos - lo + left_) = py_slice (first ++ rest) (pos - lo) (Z.min (pos - lo + left_) (hi - lo + py_len rest))) as ->.
        { destruct (Z.le_gt_cases (pos - lo + left_) (hi - lo + py_len rest)); [by rewrite Z.min_l by lia|]. rewrite Z.min_r by lia.
          rewrite py_slice_trunc by (rewrite ?py_len_app; lia). by rewrite py_len_app, Hfl. }
        rewrite Hfl in Hsp. rewrite <- Hsp by lia. f_equal; [by rewrite py_slice_app_l by lia|]. rewrite py_slice_app_r by lia. rewrite Hfl.
        destruct (Z.le_gt_cases (pos - lo + left_) (hi - lo + py_len rest)); [rewrite Z.min_l by lia; f_equal; lia|].
        rewrite Z.min_r by lia. rewrite (py_slice_trunc rest _ (pos + (hi - pos) - hi + _)) by lia. f_equal; lia. }
    exists ((e_start e * bs + (pos - lo), take) :: ps). split; [|split].
    + rewrite Hrun. rewrite <- app_assoc. do 2 f_equal. rewrite Hpart, py_len_app, Ha, py_len_slice by lia. lia.
    + rewrite Hpart, <- Hseg. done.
    + constructor; [cbn; nia|done].
Qed.

Lemma pieces_spec bs f off len ps : fork_ok bs f -> pieces f off len = Ok ps ->
  0 <= off /\ 0 <= len /\ off + len <= f_logical_size f /\ segment_addrs ps = fspan f off len /\ py_len (fspan f off len) = len /\
  Forall (fun p => 0 <= p.2 /\ 0 <= p.1) ps /\ Forall (fun p => 0 < p.2) ps.
Proof.
  intros (Hbs & extents & Hseg & He) H. unfold pieces in H. destruct (_ || _) eqn:E in H; [done|]. bool_to_prop.
  destruct (pieces_loop_spec bs extents Hbs He 0 off len [] ltac:(lia) ltac:(lia)) as (ps' & Hrun & Ha & Hf). rewrite Hseg, Hrun in H. cbn [mbind result_bind app] in H.
  destruct (negb _) eqn:Ez in H; [done|]. bool_to_prop. injection H as <-. rewrite Z.sub_0_r in *. unfold fspan, fork_addrs. rewrite Hseg.
  assert (Forall (fun p => 0 <= p.2 /\ 0 <= p.1) ps' /\ Forall (fun p => 0 < p.2) ps') as [Hf1 Hf2] by (split; eapply Forall_impl; [exact Hf| |exact Hf|]; cbn; lia).
  destruct (Z.eqb_spec len 0) as [->|Hne].
  - rewrite Z.add_0_r, py_slice_nil by lia. rewrite Ha. repeat split; try done; lia.
  - rewrite Ha. repeat split; try done; lia.
Qed.

(** ** Reading *)

Lemma volume_read_run d off len : 0 <= off -> 0 <= len -> off + len <= py_len d -> volume_read off len d = ([], Ok (gather d (py_range off (off + len)))).
Proof.
  intros. unfold volume_read, pbind, os_pread. rewrite (proj2 (Z.ltb_ge off 0)) by lia. simpl replay.
  rewrite py_len_slice by lia. replace (off + len - off) with len by lia. rewrite Z.eqb_refl. simpl. by rewrite gather_range by lia.
Qed.

Lemma volume_read_inv d off len t data : 0 <= len -> volume_read off len d = (t, Ok data) ->
  t = [] /\ data = gather d (py_range off (off + len)) /\ 0 <= off /\ (0 < len -> off + len <= py_len d) /\ py_len data = len.
Proof.
  intros Hl H. unfold volume_read, pbind, os_pread in H. destruct (Z.ltb_spec off 0) as [|Ho]; [done|]. simpl replay in H.
  destruct (Z.eqb_spec (py_len (py_slice d off (off + len))) len) as [He|]; [|done]. cbn [negb pret app] in H. injection H as <- <-.
  destruct (Z.eq_dec len 0) as [->|Hne].
  { rewrite Z.add_0_r, py_slice_nil, py_range_nil by lia. repeat split; (done || lia). }
  assert (off + len <= py_len d) as Hf.
  { destruct (Z.le_gt_cases (off + len) (py_len d)); [done|]. exfalso. rewrite (py_slice_trunc d off (off + len)) in He by lia.
    destruct (Z.le_gt_cases off (py_len d)); [rewrite py_len_slice in He by lia; lia|]. pose proof (py_len_nonneg d). rewrite py_slice_past in He by lia. unfold py_len in He. cbn in He. lia. }
  rewrite gather_range by lia. repeat split; try done. rewrite py_len_gather, py_len_range. lia.
Qed.

Lemma read_pieces_run d ps : forall acc, Forall (fun p => 0 <= p.2 /\ 0 <= p.1) ps -> on_device (py_len d) (segment_addrs ps) ->
  pforeach (fun out p => let* chunk := volume_read p.1 p.2 in pret (out ++ chunk)) acc ps d = ([], Ok (acc ++ gather d (segment_addrs ps))).
Proof.
  induction ps as [|[p k] ps IH]; intros acc Hs Hon; [by rewrite app_nil_r|]. apply Forall_cons in Hs as [[Hk Hp] Hs]. cbn [fst snd] in *. cbn [pforeach].
  assert (volume_read p k d = ([], Ok (gather d (py_range p (p + k))))) as Hread.
  { destruct (decide (0 < k)); [apply on_device_segment in Hon as [? ?]; [|done]; by apply volume_read_run|]. assert (k = 0) as -> by lia.
    unfold volume_read, pbind, os_pread. rewrite (proj2 (Z.ltb_ge p 0)) by lia. simpl replay. rewrite Z.add_0_r, py_slice_nil by lia. by rewrite py_range_nil by lia. }
  unfold pbind. cbn [fst snd]. rewrite Hread. simpl replay. cbn [pret app]. unfold on_device, segment_addrs in *. cbn [map concat fst snd] in *. apply Forall_app in Hon as [_ Hon].
  rewrite IH by done. by rewrite gather_app, app_assoc.
Qed.

(** Reads succeed on the device the pieces lie on. *)
Lemma read_pieces_inv d ps : forall acc t data, Forall (fun p => 0 <= p.2 /\ 0 <= p.1) ps ->
  pforeach (fun out p => let* chunk := volume_read p.1 p.2 in pret (out ++ chunk)) acc ps d = (t, Ok data) -> t = [] /\ on_device (py_len d) (segment_addrs ps).
Proof.
  induction ps as [|[p k] ps IH]; intros acc t data Hs H; cbn [pforeach] in H; [apply pret_inv in H as [-> _]; split; [done|constructor]|].
  apply Forall_cons in Hs as [[Hk Hp] Hs]. cbn [fst snd] in *. apply pbind_inv in H as (t1 & a & t2 & H1 & H2 & ->). apply pbind_inv in H1 as (t3 & b & t4 & H3 & H4 & ->).
  apply volume_read_inv in H3 as (-> & _ & _ & Hf & _); [|done]. apply pret_inv in H4 as [-> _]. apply IH in H2 as [-> Hon]; [|done]. split; [done|].
  unfold on_device, segment_addrs. cbn [map concat fst snd]. apply Forall_app_2; [|done]. apply Forall_forall. intros x Hx%elem_of_py_range. cbn [app replay fold_left] in *. lia.
Qed.

Lemma fork_read_inv bs f off len d t data : fork_ok bs f -> fork_read f off len d = (t, Ok data) ->
  t = [] /\ data = gather d (fspan f off len) /\ on_device (py_len d) (fspan f off len) /\ py_len data = len /\ 0 <= off /\ 0 <= len /\
  forall d', py_len d' = py_len d -> fork_read f off len d' = ([], Ok (gather d' (fspan f off len))).
Proof.
  intros Hf H. unfold fork_read in H. apply pbind_inv in H as (t1 & ps & t2 & H1 & H2 & ->). apply lift_inv in H1 as [-> Hps]. simpl replay in H2.
  destruct (pieces_spec bs f off len ps Hf Hps) as (H0 & Hl & _ & Ha & Hlen & Hpos & _). destruct (read_pieces_inv d ps [] t2 data Hpos H2) as [-> Hon].
  rewrite read_pieces_run in H2 by done. injection H2 as <-. rewrite Ha in *. repeat split; try done.
  - by rewrite py_len_gather.
  - intros d' Hl'. unfold fork_read. unfold pbind, lift. rewrite Hps. simpl replay. rewrite read_pieces_run by (rewrite ?Ha, ?Hl'; done). by rewrite Ha.
Qed.

(** ** Patches describe what changes *)

(** The patches [ps] turn the bytes at [addrs] of [d0] into [vals]. *)
Record patching (d0 : bytes) (addrs : list Z) (vals : bytes) (ps : list Patch) : Prop := mkPatching {
  pa_good : Forall (good_patch d0) ps;
  pa_sub : sublist (paddrs ps) addrs;
  pa_new : forall a w, (a, w) ∈ np ps -> (a, w) ∈ zip addrs vals;
  pa_rest : forall a w, (a, w) ∈ zip addrs vals -> (a, w) ∈ np ps \/ w = peek d0 a
}.

Lemma np_app d0 ps qs : Forall (good_patch d0) ps -> np (ps ++ qs) = np ps ++ np qs.
Proof. intros H. unfold np, paddrs, pvals. rewrite !map_app, !concat_app. apply zip_app_same. exact (patches_len d0 true ps H). Qed.

Lemma paddrs_app ps qs : paddrs (ps ++ qs) = paddrs ps ++ paddrs qs.
Proof. unfold paddrs. by rewrite map_app, concat_app. Qed.

Lemma patching_nil d0 : patching d0 [] [] [].
Proof. split; [apply Forall_nil; done|apply sublist_nil_l|intros a w H; by apply elem_of_nil in H..]. Qed.

Lemma patching_app d0 a1 a2 v1 v2 p1 p2 : length a1 = length v1 -> patching d0 a1 v1 p1 -> patching d0 a2 v2 p2 -> patching d0 (a1 ++ a2) (v1 ++ v2) (p1 ++ p2).
Proof.
  intros Hl [G1 S1 N1 R1] [G2 S2 N2 R2]. constructor.
  - by apply Forall_app_2.
  - rewrite paddrs_app. by apply sublist_app.
  - intros a w. rewrite (np_app d0), zip_app_same, !elem_of_app by done. naive_solver.
  - intros a w. rewrite (np_app d0), zip_app_same, !elem_of_app by done. naive_solver.
Qed.

Lemma np_one p : np [p] = zip (prange p) (p_new p).
Proof. unfold np, paddrs, pvals. cbn. by rewrite !app_nil_r. Qed.

(** One patch over a range of the device. *)
Lemma patching_one d0 off new : 0 <= off -> (0 < py_len new -> off + py_len new <= py_len d0) -> 0 < py_len new ->
  patching d0 (py_range off (off + py_len new)) new [mkPatch off (gather d0 (py_range off (off + py_len new))) new].
Proof.
  intros H0 H1 Hn. set (p := mkPatch _ _ _). assert (prange p = py_range off (off + py_len new)) as E by done. constructor.
  - apply Forall_singleton. split; [|split; [done|split; [cbn; lia|done]]]. cbn. rewrite py_len_gather, py_len_range. lia.
  - unfold paddrs. cbn [map concat]. by rewrite app_nil_r, E.
  - rewrite np_one, E. done.
  - rewrite np_one, E. by left.
Qed.

(** Bytes that are as they should be need no patch. *)
Lemma patching_same d0 addrs vals : vals = gather d0 addrs -> patching d0 addrs vals [].
Proof. intros ->. split; [apply Forall_nil; done|apply sublist_nil_l|intros a w H; by apply elem_of_nil in H|]. intros a w H. right. by eapply zip_gather. Qed.

Lemma patch_pieces_spec d0 new_data ps : forall pos acc acc' t,
  Forall (fun p => 0 <= p.2 /\ 0 <= p.1) ps -> 0 <= pos -> pos + zsum (map snd ps) <= py_len new_data ->
  pforeach (patch_piece new_data) (acc, pos) ps d0 = (t, Ok acc') ->
  t = [] /\ on_device (py_len d0) (segment_addrs ps) /\
  exists qs, acc'.1 = acc ++ qs /\ patching d0 (segment_addrs ps) (py_slice new_data pos (pos + zsum (map snd ps))) qs /\ Forall (fun q => p_old q <> p_new q) qs.
Proof.
  induction ps as [|[p k] ps IH]; intros pos acc acc' t Hs Hp Hfit H; cbn [pforeach] in H.
  { apply pret_inv in H as [-> <-]. split; [done|]. split; [constructor|]. exists []. cbn [map fst]. rewrite app_nil_r. split; [done|]. split; [|constructor]. change (zsum []) with 0. rewrite Z.add_0_r, py_slice_nil by lia. apply patching_nil. }
  apply Forall_cons in Hs as [[Hk Hp0] Hs]. cbn [fst snd] in Hk, Hp0. cbn [map] in Hfit |- *. change (zsum (snd (p, k) :: map snd ps)) with (k + zsum (map snd ps)) in *.
  assert (0 <= zsum (map snd ps)) by (rewrite <- py_len_segments by done; apply py_len_nonneg).
  apply pbind_inv in H as (t1 & s1 & t2 & H1 & H & ->). unfold patch_piece in H1. apply pbind_inv in H1 as (t3 & old & t4 & H3 & H4 & ->). cbn [fst snd] in H3.
  apply volume_read_inv in H3 as (-> & -> & _ & Hf & _); [|done]. apply pret_inv in H4 as [-> <-]. cbn [fst snd app replay fold_left] in H.
  set (new := py_slice new_data pos (pos + k)) in *. assert (py_len new = k) as Hnl by (unfold new; rewrite py_len_slice by lia; lia).
  apply IH in H as (-> & Hon & qs & Hacc & Hpat & Hch); [|done|lia|lia]. split; [done|].
  split; [unfold on_device, segment_addrs; cbn [map concat fst snd]; apply Forall_app_2; [|done]; apply Forall_forall; intros x Hx%elem_of_py_range; lia|].
  assert (py_slice new_data pos (pos + (k + zsum (map snd ps))) = new ++ py_slice new_data (pos + k) (pos + k + zsum (map snd ps))) as ->.
  { unfold new. rewrite (py_slice_app new_data pos (pos + k)) by lia. f_equal. lia. }
  change (segment_addrs ((p, k) :: ps)) with (py_range p (p + k) ++ segment_addrs ps).
  assert (length (py_range p (p + k)) = length new) as Hll by (pose proof (py_len_range p (p + k)); unfold py_len in *; lia).
  case_bool_decide as He.
  - exists ([] ++ qs). rewrite Hacc. split; [done|]. split; [|done]. apply patching_app; [done| |done]. by apply patching_same.
  - assert (0 < k) by (destruct (Z.eq_dec k 0) as [->|]; [|lia]; exfalso; apply He; rewrite Z.add_0_r, py_range_nil by lia; unfold py_len in Hnl; destruct new; [done|cbn in Hnl; lia]).
    exists ([mkPatch p (gather d0 (py_range p (p + k))) new] ++ qs). rewrite Hacc, <- app_assoc. split; [done|]. split; [|by constructor].
    apply patching_app; [done| |done]. rewrite <- Hnl at 1 2. apply patching_one; lia.
Qed.

Lemma fork_patches_spec bs f off new d0 t qs : fork_ok bs f -> fork_patches f off new d0 = (t, Ok qs) ->
  t = [] /\ patching d0 (fspan f off (py_len new)) new qs /\ Forall (fun q => p_old q <> p_new q) qs /\ py_len (fspan f off (py_len new)) = py_len new /\
  on_device (py_len d0) (fspan f off (py_len new)).
Proof.
  intros Hf H. unfold fork_patches in H. apply pbind_inv in H as (t1 & ps & t2 & H1 & H & ->). apply lift_inv in H1 as [-> Hps].
  apply pbind_inv in H as (t3 & acc & t4 & H & Hr & ->). apply pret_inv in Hr as [-> <-]. simpl replay in H.
  destruct (pieces_spec bs f off (py_len new) ps Hf Hps) as (H0 & _ & _ & Ha & Hlen & Hpos & _). pose proof (py_len_segments ps Hpos) as Hz. rewrite Ha, Hlen in Hz.
  destruct (patch_pieces_spec d0 new ps 0 [] acc t3 Hpos ltac:(lia) ltac:(lia) H) as (-> & Hon & qs & -> & Hpat & Hch). split; [done|]. cbn [app]. rewrite Ha in Hon. rewrite <- Hz, Ha in Hpat. split; [|done].
  pose proof (py_len_nonneg new). rewrite Z.add_0_l in Hpat. rewrite py_slice_nonneg in Hpat by lia. simpl in Hpat. rewrite Nat.sub_0_r, drop_0, take_ge in Hpat by (unfold py_len; lia). done.
Qed.

(** ** Allocation bits, most significant first *)

Definition msb_at (b : bytes) (x : Z) : bool :=
  match b !! Z.to_nat (x / 8) with Some v => Z.testbit v (7 - x mod 8) | None => false end.

Lemma mask_bit k j : 0 <= k < 8 -> 0 <= j -> Z.testbit (Z.shiftr 128 k) j = (j =? 7 - k).
Proof. intros Hk Hj. rewrite Z.shiftr_spec by lia. change 128 with (2 ^ 7). rewrite Z.pow2_bits_eqb by lia. apply eq_bool_prop_intro. rewrite !Is_true_true, !Z.eqb_eq. lia. Qed.

Lemma set_msb_spec b x (value : bool) b' : wf_bytes b -> 0 <= x -> set_bit b x value = Ok b' ->
  wf_bytes b' /\ py_len b' = py_len b /\ x < 8 * py_len b /\ forall y, 0 <= y -> msb_at b' y = if y =? x then value else msb_at b y.
Proof.
  intros Hw Hx H. pose proof (Z.mod_pos_bound x 8 ltac:(lia)) as Hm. pose proof (div8_bounds x) as Hd. assert (0 <= x / 8) as H0 by (apply Z.div_pos; lia).
  set (f := fun v => if value then Z.lor v (Z.shiftr 128 (Z.land x 7)) else Z.land v (Z.lnot (Z.shiftr 128 (Z.land x 7)))).
  assert (update_byte b (Z.shiftr x 3) f = Ok b') as Hu by (unfold set_bit, set_in, clear_in in H; unfold f; by destruct value).
  unfold update_byte in Hu. rewrite shiftr3 in Hu. apply bind_ok in Hu as (v & Hg & Hs).
  assert (x / 8 < py_len b) as Hlt.
  { unfold py_get in Hg. rewrite (proj2 (Z.ltb_ge (x / 8) 0)) in Hg by lia. rewrite (proj2 (Z.ltb_ge (x / 8) 0)) in Hg by lia.
    destruct (b !! Z.to_nat (x / 8)) eqn:E; [|done]. apply lookup_lt_Some in E. unfold py_len. lia. }
  destruct (lookup_byte b (x / 8) Hw ltac:(lia)) as (u & Hu & Hbu). rewrite (py_get_in b (x / 8) u) in Hg by (done || lia). injection Hg as <-.
  rewrite py_set_in in Hs by lia. injection Hs as <-.
  assert (forall j, 0 <= j -> Z.testbit (f u) j = if j =? 7 - x mod 8 then value else Z.testbit u j) as Hf.
  { intros j Hj. unfold f. rewrite land7. destruct value; [rewrite Z.lor_spec, mask_bit by lia|rewrite Z.land_spec, Z.lnot_spec, mask_bit by lia];
      destruct (j =? 7 - x mod 8); cbn; rewrite ?orb_true_r, ?orb_false_r, ?andb_false_r, ?andb_true_r; done. }
  assert (is_byte (f u)) as Hbf.
  { apply byte_of_bits.
    - unfold f. rewrite land7. destruct Hbu. assert (0 <= Z.shiftr 128 (x mod 8)) by by apply Z.shiftr_nonneg. destruct value; [by apply Z.lor_nonneg|apply Z.land_nonneg; lia].
    - intros j Hj. rewrite Hf by lia. rewrite (proj2 (Z.eqb_neq j _)) by lia. by apply byte_testbit_high. }
  split; [by apply Forall_insert|]. split; [apply py_len_insert|]. split; [lia|]. intros y Hy. unfold msb_at.
  pose proof (Z.mod_pos_bound y 8 ltac:(lia)). pose proof (div8_bounds y). pose proof (Z.div_mod y 8 ltac:(lia)). pose proof (Z.div_mod x 8 ltac:(lia)). assert (0 <= y / 8) by (apply Z.div_pos; lia).
  destruct (Z.eq_dec (y / 8) (x / 8)) as [E|E].
  - rewrite E, list_lookup_insert, Hu by (unfold py_len in Hlt; lia). rewrite decide_True by (split; [done|]; unfold py_len in Hlt; lia). rewrite Hf by lia.
    destruct (Z.eqb_spec y x), (Z.eqb_spec (7 - y mod 8) (7 - x mod 8)); (done || lia).
  - rewrite list_lookup_insert_ne by lia. rewrite (proj2 (Z.eqb_neq y x)) by lia. done.
Qed.

Lemma set_msbs_spec (value : bool) xs : forall b b', wf_bytes b -> Forall (fun x => 0 <= x) xs -> foldM (fun b x => set_bit b x value) b xs = Ok b' ->
  wf_bytes b' /\ py_len b' = py_len b /\ Forall (fun x => x < 8 * py_len b) xs /\ forall y, 0 <= y -> msb_at b' y = if bool_decide (y ∈ xs) then value else msb_at b y.
Proof.
  induction xs as [|x xs IH]; intros b b' Hw Hx H; cbn [foldM] in H.
  { injection H as <-. split; [done|]. split; [done|]. split; [apply Forall_nil; done|]. intros y Hy. rewrite bool_decide_eq_false_2; [done|]. by apply not_elem_of_nil. }
  apply Forall_cons in Hx as [Hx0 Hx]. apply bind_ok in H as (b1 & H1 & H). apply set_msb_spec in H1 as (Hw1 & Hl1 & Hlt & Hb1); [|done|done].
  apply IH in H as (Hw2 & Hl2 & Hlts & Hb2); [|done|done]. rewrite Hl1 in *. split; [done|]. split; [done|]. split; [by apply Forall_cons|]. intros y Hy. rewrite Hb2 by done.
  rewrite Hb1 by done. destruct (Z.eqb_spec y x) as [->|Hne].
  - rewrite (bool_decide_eq_true_2 (x ∈ x :: xs)) by set_solver. by destruct (bool_decide _).
  - rewrite (bool_decide_ext (y ∈ x :: xs) (y ∈ xs)) by set_solver. done.
Qed.

Lemma msb_ext b b' : wf_bytes b -> wf_bytes b' -> forall i, 0 <= i < py_len b -> i < py_len b' -> (forall y, 8 * i <= y < 8 * i + 8 -> msb_at b y = msb_at b' y) ->
  b !! Z.to_nat i = b' !! Z.to_nat i.
Proof.
  intros Hw Hw' i Hi Hi' Hb. destruct (lookup_byte b i Hw Hi) as (u & Hu & Hbu). destruct (lookup_byte b' i Hw' ltac:(lia)) as (u' & Hu' & Hbu'). rewrite Hu, Hu'. f_equal.
  apply byte_ext; [done|done|]. intros j Hj. specialize (Hb (8 * i + (7 - j)) ltac:(lia)). unfold msb_at in Hb.
  replace ((8 * i + (7 - j)) / 8) with i in Hb by (apply (Z.div_unique _ _ _ (7 - j)); lia). replace ((8 * i + (7 - j)) mod 8) with (7 - j) in Hb by (apply (Z.mod_unique _ _ i); lia).
  rewrite Hu, Hu' in Hb. by replace (7 - (7 - j)) with j in Hb by lia.
Qed.

(** ** The bitmap states of a move *)

Definition move_bits (old : bytes) (src dst : list Z) (final : bytes) : Prop :=
  wf_bytes final /\ py_len final = py_len old /\
  forall y, 0 <= y -> msb_at final y = if bool_decide (y ∈ src) then false else if bool_decide (y ∈ dst) then true else msb_at old y.

Lemma bitmap_states_spec v src dst old stage final : wf_bytes (v_bitmap v) -> Forall (fun x => 0 <= x) src -> Forall (fun x => 0 <= x) dst ->
  make_bitmap_states v src dst = Ok (old, stage, final) ->
  old = v_bitmap v /\ wf_bytes stage /\ py_len stage = py_len old /\ (forall y, 0 <= y -> msb_at stage y = if bool_decide (y ∈ dst) then true else msb_at old y) /\
  move_bits old src dst final.
Proof.
  intros Hw Hs Hd H. unfold make_bitmap_states in H. apply bind_ok in H as (st & H1 & H). apply bind_ok in H as (fi & H2 & H). injection H as <- <- <-.
  apply (set_msbs_spec true) in H1 as (Hw1 & Hl1 & _ & Hb1); [|done|done]. apply (set_msbs_spec false) in H2 as (Hw2 & Hl2 & _ & Hb2); [|done|done].
  repeat split; try done; [lia|]. intros y Hy. rewrite Hb2 by done. destruct (bool_decide (y ∈ src)); [done|]. by apply Hb1.
Qed.

(** ** Patches of the bitmap *)

Lemma gather_slice d addrs a b : 0 <= a -> 0 <= b -> py_slice (gather d addrs) a b = gather d (py_slice addrs a b).
Proof. intros Ha Hb. rewrite !py_slice_nonneg by lia. unfold gather. change (map (peek d)) with (fmap (M:=list) (peek d)). by rewrite fmap_take, fmap_drop. Qed.

Lemma slice_patches_spec d0 old new ps : forall pos,
  Forall (fun p => 0 <= p.2 /\ 0 <= p.1) ps -> Forall (fun p => 0 < p.2) ps -> on_device (py_len d0) (segment_addrs ps) -> 0 <= pos ->
  pos + zsum (map snd ps) <= py_len old -> py_len new = py_len old -> py_slice old pos (pos + zsum (map snd ps)) = gather d0 (segment_addrs ps) ->
  let qs := slice_patches ps old new pos in
  Forall (good_patch d0) qs /\ paddrs qs = segment_addrs ps /\ pvals true qs = py_slice new pos (pos + zsum (map snd ps)).
Proof.
  induction ps as [|[p k] ps IH]; intros pos Hs Hpos Hon H0 Hfit Hl Hold; cbn [slice_patches map] in *.
  { split; [apply Forall_nil; done|]. split; [done|]. change (zsum []) with 0. by rewrite Z.add_0_r, py_slice_nil by lia. }
  apply Forall_cons in Hs as [[_ Hp] Hs]. apply Forall_cons in Hpos as [Hk Hpos]. cbn [fst snd] in *. change (zsum (k :: map snd ps)) with (k + zsum (map snd ps)) in *.
  assert (0 <= zsum (map snd ps)) by (rewrite <- py_len_segments by done; apply py_len_nonneg).
  pose proof (on_device_segment _ _ _ _ Hon Hk) as [_ Hend]. unfold on_device, segment_addrs in Hon, Hold |- *. cbn [map concat fst snd] in Hon, Hold |- *. apply Forall_app in Hon as [_ Hon].
  rewrite gather_app in Hold. rewrite <- (py_slice_app old pos (pos + k)) in Hold by lia. replace (pos + (k + zsum (map snd ps))) with (pos + k + zsum (map snd ps)) in * by lia.
  apply app_inj_1 in Hold as [Hh Ht]; [|apply Nat2Z.inj; change (py_len (py_slice old pos (pos + k)) = py_len (gather d0 (py_range p (p + k)))); rewrite py_len_gather, py_len_range, py_len_slice by lia; lia].
  destruct (IH (pos + k) Hs Hpos Hon ltac:(lia) ltac:(lia) Hl Ht) as (Hg & Ha & Hv).
  assert (py_len (py_slice new pos (pos + k)) = k) as Hnl by (rewrite py_len_slice by lia; lia).
  split; [|split].
  - constructor; [|done]. unfold good_patch, prange. cbn [p_old p_new p_offset]. rewrite Hnl. split; [rewrite py_len_slice by lia; lia|]. split; [done|]. split; [lia|done].
  - unfold paddrs in *. cbn [map concat]. rewrite Ha. unfold prange. cbn [p_new p_offset]. by rewrite Hnl.
  - unfold pvals in *. cbn [map concat p_new]. rewrite Hv. rewrite py_slice_app by lia. done.
Qed.

Section bitmap.
Context (d0 : bytes) (bs : Z) (f : ForkMap) (before after : bytes).
Hypothesis Hf : fork_ok bs f.
Local Notation BM := (fspan f 0 (py_len before)).
Hypothesis Hbm : before = gather d0 BM.
Hypothesis Hon : on_device (py_len d0) BM.
Hypothesis Hlen : py_len after = py_len before.

Definition changed_at (i : Z) : Prop := nthZ before i <> nthZ after i.

Lemma bm_len : py_len BM = py_len before.
Proof. pose proof (f_equal py_len Hbm) as H. rewrite py_len_gather in H. done. Qed.

Lemma bm_slice s e : 0 <= s -> s <= e -> e <= py_len before -> fspan f s (e - s) = py_slice BM s e.
Proof.
  intros H0 Hse He. unfold fspan. replace (s + (e - s)) with e by lia. rewrite Z.add_0_l. rewrite !py_slice_nonneg by lia. unfold py_len in *. rewrite Nat.sub_0_r, drop_0.
  rewrite skipn_firstn_comm, take_take. f_equal. lia.
Qed.

Lemma run_patches_spec s e qs : 0 <= s -> s <= e -> e <= py_len before -> (forall i, s <= i < e -> changed_at i) -> run_patches f before after (s, e) = Ok qs ->
  patching d0 (py_slice BM s e) (py_slice after s e) qs /\ forall a w, (a, w) ∈ np qs -> w <> peek d0 a.
Proof.
  intros H0 Hse He Hch H. unfold run_patches in H. cbn [fst snd] in H. apply bind_ok in H as (ps & Hps & H). injection H as <-.
  assert (py_len (py_slice after s e) = e - s) as Hal by (rewrite py_len_slice by lia; lia). rewrite Hal in Hps.
  destruct (pieces_spec bs f s (e - s) ps Hf Hps) as (_ & _ & _ & Ha & Hl & Hp1 & Hp2). pose proof (py_len_segments ps Hp1) as Hz. rewrite Ha, Hl in Hz.
  rewrite bm_slice in Ha by lia.
  destruct (slice_patches_spec d0 (py_slice before s e) (py_slice after s e) ps 0 Hp1 Hp2) as (Hg & Haddr & Hval).
  - rewrite Ha. by apply Forall_py_slice.
  - lia.
  - rewrite py_len_slice by lia. lia.
  - rewrite Hal, py_len_slice by lia. lia.
  - rewrite Ha, <- Hz, Z.add_0_l, (py_slice_whole (py_slice before s e)) by (rewrite py_len_slice by lia; lia). rewrite Hbm at 1. apply gather_slice; lia.
  - rewrite <- Hz, Z.add_0_l, py_slice_whole in Hval by lia. rewrite Ha in Haddr.
    assert (np (slice_patches ps (py_slice before s e) (py_slice after s e) 0) = zip (py_slice BM s e) (py_slice after s e)) as Hnp by (unfold np; by rewrite Haddr, Hval).
    split; [split; [done|by rewrite Haddr|by rewrite Hnp|rewrite Hnp; by left]|]. intros a w Hw ->. rewrite Hnp in Hw.
    apply list_elem_of_lookup in Hw as [i Hi]. apply lookup_zip_with_Some in Hi as (x & y & [= <- <-] & Hx & Hy).
    assert (Z.of_nat i < e - s) as Hie by (apply lookup_lt_Some in Hy; unfold py_len in Hal; lia).
    assert (nthZ (py_slice BM s e) (Z.of_nat i) = Some a) as Hx' by (unfold nthZ; by rewrite Nat2Z.id).
    assert (nthZ (py_slice after s e) (Z.of_nat i) = Some (peek d0 a)) as Hy' by (unfold nthZ; by rewrite Nat2Z.id).
    rewrite nthZ_slice in Hx' by (rewrite ?bm_len; lia). rewrite nthZ_slice in Hy' by lia. apply (Hch (s + Z.of_nat i) ltac:(lia)). rewrite Hy'. rewrite Hbm at 1.
    unfold nthZ, gather in *. by rewrite list_lookup_fmap, Hx'.
Qed.

Lemma byte_patching i x y : nthZ before i = Some x -> nthZ after i = Some x -> 0 <= i -> y = py_slice after i (i + 1) ->
  patching d0 (py_slice BM i (i + 1)) y [].
Proof.
  intros Hb Ha Hi ->. apply patching_same. assert (i < py_len before) by (unfold nthZ in Hb; apply lookup_lt_Some in Hb; unfold py_len; lia).
  rewrite <- gather_slice, <- Hbm by lia. apply nthZ_ext; [rewrite !py_len_slice by lia; lia|]. rewrite py_len_slice by lia. intros j Hj. rewrite !nthZ_slice by lia.
  replace (i + j) with i by lia. congruence.
Qed.

(** The walk in front of byte [k]; a run that starts at [s] is open. *)
Lemma bitmap_patches_from m : forall k start parts, k = py_len before - Z.of_nat m -> 0 <= k ->
  (match start with Some s => 0 <= s < k /\ forall i, s <= i < k -> changed_at i | None => True end) ->
  mapM_result (run_patches f before after) (changed_runs (drop (Z.to_nat k) before) (drop (Z.to_nat k) after) k start) = Ok parts ->
  let s := default k start in
  patching d0 (py_slice BM s (py_len before)) (py_slice after s (py_len before)) (concat parts) /\ forall a w, (a, w) ∈ np (concat parts) -> w <> peek d0 a.
Proof.
  induction m as [|m IH]; intros k start parts Ek Hk Hst H s.
  - assert (k = py_len before) as Ekk by lia. rewrite !drop_ge in H by (unfold py_len in *; lia). cbn [changed_runs] in H. destruct start as [s0|]; cbn [mapM_result] in H.
    + apply bind_ok in H as (qs & Hq & H). injection H as <-. cbn [concat default from_option id] in *. rewrite app_nil_r. unfold s. rewrite Ekk in *. apply run_patches_spec; (done || lia || apply Hst).
    + injection H as <-. unfold s. cbn [default from_option concat]. rewrite Ekk. rewrite !py_slice_nil by lia. split; [apply patching_nil|]. intros a w Hw. by apply elem_of_nil in Hw.
  - assert (k < py_len before) as Hlt by lia. destruct (lookup_lt_is_Some_2 before (Z.to_nat k)) as [x Hx]; [unfold py_len in *; lia|].
    destruct (lookup_lt_is_Some_2 after (Z.to_nat k)) as [y Hy]; [unfold py_len in *; lia|].
    rewrite (drop_S _ _ _ Hx), (drop_S _ _ _ Hy) in H. replace (S (Z.to_nat k)) with (Z.to_nat (k + 1)) in H by lia. cbn [changed_runs] in H.
    destruct (Z.eqb_spec x y) as [Hxy|Hne]; [rewrite <- Hxy in Hy; clear Hxy|].
    + (* an equal byte ends the run *)
      assert (exists p1 p2, parts = p1 ++ p2 /\ patching d0 (py_slice BM s k) (py_slice after s k) (concat p1) /\ (forall a w, (a, w) ∈ np (concat p1) -> w <> peek d0 a) /\
        mapM_result (run_patches f before after) (changed_runs (drop (Z.to_nat (k + 1)) before) (drop (Z.to_nat (k + 1)) after) (k + 1) None) = Ok p2) as (p1 & p2 & -> & Hp1 & Hc1 & Hp2).
      { destruct start as [s0|]; cbn [app mapM_result] in H.
        - apply bind_ok in H as (qs & Hq & H). apply bind_ok in H as (ys & Hys & H). injection H as <-. exists [qs], ys. unfold s. cbn [default from_option id concat app]. rewrite app_nil_r.
          destruct (run_patches_spec s0 k qs) as [? ?]; try done; try lia; apply Hst.
        - exists [], parts. unfold s. cbn [default from_option concat app]. rewrite !py_slice_nil by lia. split; [done|]. split; [apply patching_nil|]. split; [|done]. intros a w Hw. by apply elem_of_nil in Hw. }
      destruct (IH (k + 1) None p2 ltac:(lia) ltac:(lia) I Hp2) as [Hp Hc]. cbn [default from_option] in Hp, Hc.
      pose proof (byte_patching k x (py_slice after k (k + 1)) Hx Hy Hk eq_refl) as Hb.
      assert (0 <= s <= k) as Hs by (unfold s; destruct start; cbn; lia).
      assert (forall l : bytes, py_len l = py_len before -> py_slice l s (py_len before) = py_slice l s k ++ py_slice l k (k + 1) ++ py_slice l (k + 1) (py_len before)) as Hsplit.
      { intros l Hl. rewrite (py_slice_app l k (k + 1)), (py_slice_app l s k) by lia. done. }
      rewrite concat_app. split.
      * rewrite (Hsplit BM bm_len), (Hsplit after Hlen). apply patching_app; [|done|].
        { apply Nat2Z.inj. change (py_len (py_slice BM s k) = py_len (py_slice after s k)). rewrite !py_len_slice by (rewrite ?bm_len; lia). lia. }
        change (concat p2) with ([] ++ concat p2). apply patching_app; [|done|done].
        apply Nat2Z.inj. change (py_len (py_slice BM k (k + 1)) = py_len (py_slice after k (k + 1))). rewrite !py_len_slice by (rewrite ?bm_len; lia). lia.
      * intros a w. rewrite (np_app d0) by apply Hp1. rewrite elem_of_app. intros [Hw|Hw]; [by apply Hc1|by apply Hc].
    + apply (IH (k + 1) (Some s)); [lia|lia| |done]. split; [unfold s; destruct start; cbn; lia|]. intros i Hi. destruct (Z.eq_dec i k) as [->|].
      * unfold changed_at, nthZ. rewrite Hx, Hy. congruence.
      * destruct start as [s0|]; [apply Hst; unfold s in Hi; cbn in Hi; lia|unfold s in Hi; cbn in Hi; lia].
Qed.

Lemma bitmap_patches_spec v qs : v_allocation_fork v = f -> bitmap_patches v before after = Ok qs ->
  patching d0 BM after qs /\ forall a w, (a, w) ∈ np qs -> w <> peek d0 a.
Proof.
  intros Hv H. unfold bitmap_patches in H. rewrite Hv in H. apply bind_ok in H as (parts & Hp & H). injection H as <-.
  destruct (bitmap_patches_from (length before) 0 None parts) as [H1 H2]; [unfold py_len; lia|lia|done|done|]. cbn [default from_option] in H1.
  rewrite !py_slice_whole in H1 by (rewrite ?bm_len; lia). done.
Qed.
End bitmap.

(** ** Patches of descriptors and headers *)

Definition ref_addrs (r : DescriptorRef) : list Z := fspan (r_fork (d_record r)) (r_logical_offset (d_record r) + d_relative r) 8.
Definition refs_addrs (refs : list DescriptorRef) : list Z := concat (map ref_addrs refs).

(** The descriptors of a fork laid out from [cursor] on. *)
Fixpoint encode_refs (cursor : Z) (refs : list DescriptorRef) : bytes :=
  match refs with
  | [] => []
  | r :: rest => (be_digits 4 cursor ++ be_digits 4 (e_count (d_extent r))) ++ encode_refs (cursor + e_count (d_extent r)) rest
  end.

Lemma pack32_inv v b : pack32 v = Ok b -> b = be_digits 4 v /\ 0 <= v < 2 ^ 32.
Proof. unfold pack32. destruct (_ || _) eqn:E; [done|]. intros [= <-]. bool_to_prop. split; [done|lia]. Qed.

Lemma descriptor_patches_from d0 bs refs : forall acc cursor acc' t,
  Forall (fun r => fork_ok bs (r_fork (d_record r))) refs -> pforeach descriptor_patch (acc, cursor) refs d0 = (t, Ok acc') ->
  t = [] /\ length (refs_addrs refs) = length (encode_refs cursor refs) /\ acc'.2 = cursor + blocks_of refs /\ (refs <> [] -> 0 <= cursor < 2 ^ 32) /\ on_device (py_len d0) (refs_addrs refs) /\
  exists qs, acc'.1 = acc ++ qs /\ patching d0 (refs_addrs refs) (encode_refs cursor refs) qs /\ Forall (fun q => p_old q <> p_new q) qs.
Proof.
  induction refs as [|r refs IH]; intros acc cursor acc' t Hf H; cbn [pforeach] in H.
  { apply pret_inv in H as [-> <-]. split; [done|]. split; [done|]. split; [cbn; lia|]. split; [done|]. split; [constructor|]. exists []. rewrite app_nil_r. split; [done|]. split; [apply patching_nil|apply Forall_nil; done]. }
  apply Forall_cons in Hf as [Hfr Hf]. apply pbind_inv in H as (t1 & s1 & t2 & H1 & H & ->). unfold descriptor_patch in H1.
  pure_step H1 b1 R1. pure_step H1 b2 R2. apply pbind_inv in H1 as (t3 & more & t4 & R3 & H1 & ->). apply pret_inv in H1 as [-> <-].
  apply pack32_inv in R1 as [-> Hcur]. apply pack32_inv in R2 as [-> _]. unfold record_patch in R3.
  apply (fork_patches_spec bs) in R3 as (-> & Hpat & Hch & Hlen & Hon); [|done]. cbn [app replay fold_left] in H.
  assert (py_len (be_digits 4 cursor ++ be_digits 4 (e_count (d_extent r))) = 8) as H8 by (rewrite py_len_app, !py_len_be_digits; lia). rewrite H8 in *.
  apply IH in H as (-> & Hl & Ec & _ & Hons & qs & -> & Hp & Hq); [|done]. split; [done|]. unfold refs_addrs in *. cbn [map concat encode_refs] in *.
  assert (length (ref_addrs r) = length (be_digits 4 cursor ++ be_digits 4 (e_count (d_extent r)))) as Hlr by (unfold ref_addrs, py_len in *; lia).
  split; [rewrite (length_app (ref_addrs r)), (length_app (_ ++ _)); lia|].
  split; [rewrite Ec, <- Z.add_assoc; done|]. split; [done|]. split; [by apply Forall_app_2|]. exists (more ++ qs). rewrite app_assoc. split; [done|]. split; [|by apply Forall_app_2].
  by apply patching_app.
Qed.

Lemma descriptor_patches_spec d0 bs o dest t qs : Forall (fun r => fork_ok bs (r_fork (d_record r))) (o_descriptors o) -> descriptor_patches o dest d0 = (t, Ok qs) ->
  t = [] /\ patching d0 (refs_addrs (o_descriptors o)) (encode_refs dest (o_descriptors o)) qs /\ Forall (fun q => p_old q <> p_new q) qs /\
  o_total_blocks o = blocks_of (o_descriptors o) /\ length (refs_addrs (o_descriptors o)) = length (encode_refs dest (o_descriptors o)) /\
  (o_descriptors o <> [] -> 0 <= dest < 2 ^ 32) /\ on_device (py_len d0) (refs_addrs (o_descriptors o)).
Proof.
  intros Hf H. unfold descriptor_patches in H. apply pbind_inv in H as (t1 & [ps cursor] & t2 & H1 & H & ->).
  apply (descriptor_patches_from d0 bs) in H1 as (-> & Hl & Ec & Hr & Hon & qs' & E & Hp & Hq); [|done]. cbn [fst snd app] in *.
  destruct (negb _) eqn:Ez in H; [by apply lift_inv in H as [_ ?]|]. bool_to_prop. apply pret_inv in H as [-> <-]. subst ps. split; [done|]. split; [done|]. split; [done|]. split; [lia|done].
Qed.

Definition header_addrs (v : Volume) : list Z := py_range 1072 1076 ++ py_range (alternate_offset v + 48) (alternate_offset v + 52).

Lemma header_patches_spec d0 v free t hs : header_patches v free d0 = (t, Ok hs) ->
  t = [] /\ Forall (good_patch d0) hs /\ paddrs hs = header_addrs v /\ pvals true hs = be_digits 4 free ++ be_digits 4 free.
Proof.
  intros H. unfold header_patches in H. pure_step H new R0. apply pack32_inv in R0 as [-> _].
  apply pbind_inv in H as (u1 & old1 & u2 & R1 & H & ->). apply volume_read_inv in R1 as (-> & E1 & P1 & F1 & L1); [|lia]. cbn [app replay fold_left] in H.
  apply pbind_inv in H as (u3 & old2 & u4 & R2 & H & ->). apply volume_read_inv in R2 as (-> & E2 & P2 & F2 & L2); [|lia]. apply pret_inv in H as [-> <-].
  split; [done|]. assert (py_len (be_digits 4 free) = 4) as H4 by (rewrite py_len_be_digits; lia). unfold primary_offset in *. split; [|split].
  - repeat (apply Forall_cons; split); [..|apply Forall_nil; done]; unfold good_patch, prange; cbn [p_offset p_old p_new]; rewrite H4; repeat split; (lia || done).
  - unfold paddrs, prange, header_addrs. cbn [map concat p_offset p_new]. rewrite H4, app_nil_r. unfold primary_offset. do 2 f_equal. lia.
  - unfold pvals. cbn [map concat p_new]. by rewrite app_nil_r.
Qed.

(** ** The copy *)

Definition block_addrs (bs b : Z) : list Z := py_range (b * bs) (b * bs + bs).
Definition blocks_addrs (bs : Z) (blocks : list Z) : list Z := concat (map (block_addrs bs) blocks).

Lemma blocks_addrs_len bs blocks : 0 <= bs -> py_len (blocks_addrs bs blocks) = py_len blocks * bs.
Proof.
  intros Hbs. induction blocks as [|b blocks IH]; [done|]. unfold blocks_addrs in *. cbn [map concat]. rewrite py_len_app, IH, py_len_cons. unfold block_addrs. rewrite py_len_range. lia.
Qed.

Lemma elem_of_blocks bs blocks a : 0 < bs -> a ∈ blocks_addrs bs blocks <-> a / bs ∈ blocks.
Proof.
  intros Hbs. unfold blocks_addrs. induction blocks as [|b blocks IH]; cbn [map concat]; [split; intros H; by apply elem_of_nil in H|].
  rewrite elem_of_app, elem_of_cons, IH. unfold block_addrs. rewrite elem_of_py_range. pose proof (Z.div_mod a bs ltac:(lia)). pose proof (Z.mod_pos_bound a bs Hbs).
  assert (b * bs <= a < b * bs + bs <-> a / bs = b) as ->; [|done]. split; [intros; symmetry; apply (Z.div_unique _ _ _ (a - b * bs)); lia|intros <-; lia].
Qed.

Lemma blocks_nodup bs blocks : 0 < bs -> NoDup blocks -> NoDup (blocks_addrs bs blocks).
Proof.
  intros Hbs. induction 1 as [|b blocks Hb Hnd IH]; [constructor|]. unfold blocks_addrs. cbn [map concat]. fold (blocks_addrs bs blocks). apply NoDup_app. split; [apply NoDup_seqZ|]. split; [|done].
  intros a Ha Hin. apply elem_of_blocks in Hin; [|done]. apply Hb. unfold block_addrs in Ha. apply elem_of_py_range in Ha.
  assert (a / bs = b) as <-; [|done]. symmetry. apply (Z.div_unique _ _ _ (a - b * bs)); lia.
Qed.

Lemma read_blocks_inv v blocks d : forall acc t data, 0 < v_block_size v ->
  pforeach (fun out block => let* data := volume_read (block * v_block_size v) (v_block_size v) in pret (out ++ data)) acc blocks d = (t, Ok data) ->
  t = [] /\ data = acc ++ gather d (blocks_addrs (v_block_size v) blocks) /\ on_device (py_len d) (blocks_addrs (v_block_size v) blocks).
Proof.
  induction blocks as [|b blocks IH]; intros acc t data Hbs H; cbn [pforeach] in H.
  { apply pret_inv in H as [-> <-]. rewrite app_nil_r. split; [done|]. split; [done|constructor]. }
  apply pbind_inv in H as (t1 & s1 & t2 & H1 & H & ->). apply pbind_inv in H1 as (t3 & chunk & t4 & R & H1 & ->). apply volume_read_inv in R as (-> & -> & H0 & Hf & _); [|lia].
  apply pret_inv in H1 as [-> <-]. cbn [app replay fold_left] in H. apply IH in H as (-> & -> & Hon); [|done]. unfold blocks_addrs in *. cbn [map concat]. split; [done|].
  split; [by rewrite gather_app, app_assoc|]. apply Forall_app_2; [|done]. apply Forall_forall. intros a Ha%elem_of_py_range. specialize (Hf Hbs). lia.
Qed.

Lemma read_blocks_run v blocks d : forall acc, 0 < v_block_size v -> on_device (py_len d) (blocks_addrs (v_block_size v) blocks) ->
  pforeach (fun out block => let* data := volume_read (block * v_block_size v) (v_block_size v) in pret (out ++ data)) acc blocks d = ([], Ok (acc ++ gather d (blocks_addrs (v_block_size v) blocks))).
Proof.
  induction blocks as [|b blocks IH]; intros acc Hbs Hon; cbn [pforeach]; [by rewrite app_nil_r|]. unfold on_device, blocks_addrs in *. cbn [map concat] in *. apply Forall_app in Hon as [Hb Hon].
  assert (0 <= b * v_block_size v /\ b * v_block_size v + v_block_size v <= py_len d) as [Hb0 Hb1].
  { rewrite Forall_forall in Hb. pose proof (Hb (b * v_block_size v)) as H1. pose proof (Hb (b * v_block_size v + v_block_size v - 1)) as H2. unfold block_addrs in *. rewrite elem_of_py_range in H1, H2. lia. }
  eapply read_run; [eapply read_run; [apply volume_read_run; lia|reflexivity]|]. rewrite IH by done. by rewrite gather_app, app_assoc.
Qed.

Lemma write_blocks_from v data blocks : forall d index, v_writable v = true -> 0 < v_block_size v -> on_device (py_len d) (blocks_addrs (v_block_size v) blocks) ->
  0 <= index -> (index + py_len blocks) * v_block_size v <= py_len data ->
  exists t, pforeach (fun index block => volume_write (v_writable v) (block * v_block_size v) (py_slice data (index * v_block_size v) ((index + 1) * v_block_size v)) ;;* pret (index + 1))
      index blocks d = (t, Ok (index + py_len blocks)) /\
    writes (py_len d) t (blocks_addrs (v_block_size v) blocks) (py_slice data (index * v_block_size v) ((index + py_len blocks) * v_block_size v)).
Proof.
  intros d index Hwr Hbs. rewrite Hwr. set (bs := v_block_size v) in *. revert d index. induction blocks as [|b blocks IH]; intros d index Hon Hi Hfit.
  { exists []. cbn [pforeach]. change (py_len []) with 0. rewrite Z.add_0_r. split; [done|]. rewrite py_slice_nil by nia. split; [done|]. split; constructor. }
  rewrite py_len_cons in *. pose proof (py_len_nonneg blocks). unfold on_device, blocks_addrs in Hon. cbn [map concat] in Hon. apply Forall_app in Hon as [Hb Hon]. fold (blocks_addrs bs blocks) in Hon.
  assert (0 <= b * bs /\ b * bs + bs <= py_len d) as [Hb0 Hb1].
  { rewrite Forall_forall in Hb. pose proof (Hb (b * bs)) as H1. pose proof (Hb (b * bs + bs - 1)) as H2. unfold block_addrs in *. rewrite elem_of_py_range in H1, H2. lia. }
  set (chunk := py_slice data (index * bs) ((index + 1) * bs)). assert (py_len chunk = bs) as Hcl by (unfold chunk; rewrite py_len_slice by nia; lia).
  pose proof (volume_write_run (b * bs) chunk d ltac:(lia) ltac:(lia)) as Hrun.
  assert (writes (py_len d) [EWrite (J:=transaction) (b * bs) chunk] (block_addrs bs b) chunk) as Hw.
  { split; [|split; apply Forall_singleton; [cbn; lia|eauto]]. unfold pairs. cbn. rewrite app_nil_r. unfold block_addrs. by rewrite Hcl. }
  pose proof (writes_len _ _ _ _ Hw) as Hl. destruct (IH (replay d [EWrite (J:=transaction) (b * bs) chunk]) (index + 1)) as (t2 & Hrun2 & Hw2); [by rewrite Hl|lia|nia|]. rewrite Hl in Hw2.
  exists ([EWrite (b * bs) chunk] ++ t2). split.
  - cbn [pforeach]. unfold pbind at 1 2. fold chunk. rewrite Hrun. cbn [pret]. rewrite app_nil_r. rewrite Hrun2. do 2 f_equal. lia.
  - rewrite <- (py_slice_app data (index * bs) ((index + 1) * bs)) by nia. replace (index + (1 + py_len blocks)) with (index + 1 + py_len blocks) by lia.
    apply (writes_app _ [EWrite (b * bs) chunk] t2 (block_addrs bs b)); [done|done|]. apply Nat2Z.inj. change (py_len (block_addrs bs b) = py_len chunk). unfold block_addrs. rewrite py_len_range. lia.
Qed.

Lemma write_blocks_run v blocks data d : v_writable v = true -> 0 < v_block_size v -> on_device (py_len d) (blocks_addrs (v_block_size v) blocks) ->
  py_len data = py_len blocks * v_block_size v ->
  exists t, write_blocks v blocks data d = (t, Ok tt) /\ writes (py_len d) t (blocks_addrs (v_block_size v) blocks) data.
Proof.
  intros Hwr Hbs Hon Hl. destruct (write_blocks_from v data blocks d 0 Hwr Hbs Hon ltac:(lia) ltac:(lia)) as (t & Hrun & Hw). rewrite Z.mul_0_l, Z.add_0_l, py_slice_whole in Hw by lia.
  exists t. split; [|done]. unfold write_blocks. rewrite Hl, Z.eqb_refl. cbn [negb]. cbv zeta. unfold pbind at 1. rewrite Hrun. cbn [pret]. by rewrite app_nil_r.
Qed.
