(* ===== verification/AppleMove.v ===== *)
(** * The journalled move of the HFS+ engine is crash-safe

    Connects [Apple.move_one] and [Apple.recover] to the protocol of
    [AppleTxn]: on a sound volume the patches of a move satisfy its conditions,
    the move issues its trace, and a recovery reopens the volume on whatever a
    power failure left and issues the repair. *)

From S2P Require Import Prelude Text Bytes Bitmap Device Addresses Apple AppleTxn AppleFacts.

Local Open Scope string_scope.
Local Open Scope list_scope.
Local Open Scope Z_scope.

(** ** Reading a tree *)

(** A walk reads the fork only: devices that agree on it give the same walk. *)
Section walk_agree.
Context {A : Type} (bs : Z) (f : ForkMap) (body : A -> TreeRecord -> result A) (d d' : bytes).
Hypothesis Hf : fork_ok bs f.
Hypothesis Hlen : py_len d' = py_len d.
Hypothesis Hsame : forall a, 0 <= a < py_len d -> a ∈ fork_addrs f -> peek d' a = peek d a.
Local Notation visit := (fun s r => lift (J:=transaction) (body s r)).

Lemma fspan_sub off len a : a ∈ fspan f off len -> a ∈ fork_addrs f.
Proof. unfold fspan. intros H. by eapply elem_of_py_slice. Qed.

Lemma fork_read_agree off len t data : fork_read f off len d = (t, Ok data) -> t = [] /\ fork_read f off len d' = ([], Ok data).
Proof.
  intros H. apply (fork_read_inv bs) in H as (-> & -> & Hon & _ & _ & _ & Hrun); [|done]. split; [done|]. rewrite Hrun by done.
  do 2 f_equal. apply gather_ext. intros a Ha. unfold on_device in Hon. rewrite Forall_forall in Hon. apply Hsame; [by apply Hon|by eapply fspan_sub].
Qed.

Lemma lift_loop (l : list TreeRecord) e : forall s t s', pforeach visit s l e = (t, Ok s') -> t = [] /\ forall e', pforeach visit s l e' = ([], Ok s').
Proof.
  induction l as [|r l IH]; intros s t s' H; cbn [pforeach] in *; [by apply pret_inv in H as [-> ->]|].
  pure_step H s1 R. apply IH in H as [-> H]. split; [done|]. intros e'. by eapply pure_run.
Qed.

Lemma leaf_loop_agree fuel ns tn : forall nn seen s t s',
  leaf_loop f visit fuel ns tn nn seen s d = (t, Ok s') -> t = [] /\ leaf_loop f visit fuel ns tn nn seen s d' = ([], Ok s').
Proof.
  induction fuel as [|fuel IH]; intros nn seen s t s' H; cbn [leaf_loop] in *; (destruct (nn =? 0); [by apply pret_inv in H as [-> ->]|]); [done|].
  destruct (_ || _); [done|]. apply pbind_inv in H as (t1 & node & t2 & R & H & ->). apply fork_read_agree in R as [-> R]. cbn [replay fold_left] in H.
  pure_step H nx R1. pure_step H kd R2. pure_step H ct R3. destruct (negb _) eqn:Ek in H; [done|]. pure_step H st R4. pure_step H tb R5.
  apply pbind_inv in H as (u1 & s1 & u2 & R6 & H & ->). apply lift_loop in R6 as [-> R6]. cbn [replay fold_left] in H. apply IH in H as [-> H]. split; [done|].
  eapply read_run; [exact R|]. do 3 (eapply pure_run; [eassumption|]). rewrite Ek. do 2 (eapply pure_run; [eassumption|]). eapply read_run; [apply R6|done].
Qed.

Lemma walk_agree s t s' : walk_leaf_records f visit s d = (t, Ok s') -> t = [] /\ walk_leaf_records f visit s d' = ([], Ok s').
Proof.
  intros H. unfold walk_leaf_records in *. apply pbind_inv in H as (t1 & prefix & t2 & R & H & ->). apply fork_read_agree in R as [-> R]. cbn [replay fold_left] in H.
  destruct (_ <? 40) eqn:E0 in H; [done|]. pure_step H ns R1. pure_step H fl R2. pure_step H tn R3. destruct (_ || _) eqn:E1 in H; [done|]. apply leaf_loop_agree in H as [-> H].
  split; [done|]. eapply read_run; [exact R|]. rewrite E0. do 3 (eapply pure_run; [eassumption|]). by rewrite E1.
Qed.
End walk_agree.

Lemma overflow_agree bs f d d' t ov : fork_ok bs f -> py_len d' = py_len d -> (forall a, 0 <= a < py_len d -> a ∈ fork_addrs f -> peek d' a = peek d a) ->
  _parse_overflow f d = (t, Ok ov) -> t = [] /\ _parse_overflow f d' = ([], Ok ov).
Proof.
  intros Hf Hl Hs H. unfold _parse_overflow in *. destruct (_ =? 0); [by apply pret_inv in H as [-> ->]|]. apply pbind_inv in H as (t1 & g & t2 & R & H & ->).
  apply (walk_agree bs f overflow_record d d' Hf Hl Hs) in R as [-> R]. apply lift_inv in H as [-> H]. split; [done|]. eapply read_run; [exact R|]. unfold lift. by rewrite H.
Qed.

(** ** Opening a volume *)

Lemma be_int_nonneg b : wf_bytes b -> 0 <= be_int b.
Proof. intros H. unfold be_int. apply le_int_bounds. by apply Forall_rev. Qed.

Lemma be32_nonneg b o v : wf_bytes b -> be32 b o = Ok v -> 0 <= v.
Proof.
  intros Hw H. unfold be32, u32be, unpack_from in H. destruct (_ || _) in H; [done|]. injection H as <-. apply be_int_nonneg. by apply Forall_py_slice.
Qed.

Lemma parse_fork_nonneg b o ls tb es : wf_bytes b -> parse_fork b o = Ok (ls, tb, es) -> Forall (fun e => 0 <= e_start e /\ 0 <= e_count e) es.
Proof.
  intros Hw H. unfold parse_fork in H. apply bind_ok in H as (x & _ & H). apply bind_ok in H as (y & _ & H). apply bind_ok in H as (l & Hl & H). injection H as _ _ <-.
  apply mapM_result_Forall2 in Hl. apply Forall_forall. intros e He. apply list_elem_of_lookup in He as [k Hk]. destruct (Forall2_lookup_r _ _ _ _ _ Hl Hk) as (i & _ & He). unfold parse_extent in He. apply bind_ok in He as (s & Hs & He). apply bind_ok in He as (c & Hc & He). injection He as <-.
  split; by eapply be32_nonneg.
Qed.

Lemma fork_init_ok bs ls tb es f : 0 < bs -> Forall (fun e => 0 <= e_start e /\ 0 <= e_count e) es -> ForkMap_init bs (ls, tb, es) = Ok f -> fork_ok bs f.
Proof.
  intros Hbs He H. unfold ForkMap_init in H. destruct (_ <? _) in H; [done|]. injection H as <-. split; [done|]. eexists. split; [reflexivity|].
  apply Forall_forall. intros e [Hne Hin]%list_elem_of_In%filter_In%and_comm. apply list_elem_of_In in Hin. rewrite Forall_forall in He. specialize (He e Hin). apply negb_true_iff, Z.eqb_neq in Hne. unfold extent_ok. lia.
Qed.

(** What [open_volume] establishes on a device [d]. *)
Record opened (w : bool) (d : bytes) (v : Volume) : Prop := mkOpened {
  op_writable : v_writable v = w;
  op_size : v_size v = py_len d;
  op_header : 1536 <= py_len d;
  op_block : 512 <= v_block_size v;
  op_blocks : v_total_blocks v * v_block_size v <= py_len d;
  op_allocation : fork_ok (v_block_size v) (v_allocation_fork v);
  op_extents : fork_ok (v_block_size v) (v_extents_fork v);
  op_catalog : fork_ok (v_block_size v) (v_catalog_fork v);
  op_bitmap : v_bitmap v = gather d (fspan (v_allocation_fork v) 0 ((v_total_blocks v + 7) / 8));
  op_bitmap_on : on_device (py_len d) (fspan (v_allocation_fork v) 0 ((v_total_blocks v + 7) / 8));
  op_bitmap_len : py_len (v_bitmap v) = (v_total_blocks v + 7) / 8
}.

Lemma range_on n a b : 0 <= a -> b <= n -> on_device n (py_range a b).
Proof. intros. apply Forall_forall. intros x Hx%elem_of_py_range. lia. Qed.

Lemma nthZ_gather_range d a n i : 0 <= i < n -> nthZ (gather d (py_range a (a + n))) i = Some (peek d (a + i)).
Proof. intros Hi. unfold nthZ, gather. change (map (peek d)) with (fmap (M:=list) (peek d)). rewrite list_lookup_fmap. unfold py_range. rewrite lookup_seqZ_lt by lia. cbn. do 2 f_equal. lia. Qed.

(** Parts of two headers that differ in the free count only. *)
Section headers.
Context (h h' : bytes).
Hypothesis Hl : py_len h = 512.
Hypothesis Hl' : py_len h' = 512.
Hypothesis Hagree : forall i, 0 <= i < 512 -> ~ (48 <= i < 52) -> nthZ h' i = nthZ h i.

Lemma unpack_agree dec k o : 0 <= k -> 0 <= o -> o + k <= 512 -> o + k <= 48 \/ 52 <= o -> unpack_from dec k h' o = unpack_from dec k h o.
Proof. intros. apply unpack_from_ext; try lia. intros i Hi. apply Hagree; lia. Qed.

Lemma parse_fork_agree o : 52 <= o -> o + 80 <= 512 -> parse_fork h' o = parse_fork h o.
Proof.
  intros Ho1 Ho2. unfold parse_fork, be64, u64be, be32, u32be. rewrite !unpack_agree by lia. destruct (unpack_from _ 8 h o); [|done]. cbn [mbind result_bind]. destruct (unpack_from _ 4 h _); [|done]. cbn [mbind result_bind].
  rewrite (mapM_result_ext _ (fun i => parse_extent h (o + 16 + i * 8))); [done|]. intros i Hi%elem_of_py_range. unfold parse_extent, be32, u32be. by rewrite !unpack_agree by lia.
Qed.
End headers.

(** Opening again on a device that differs elsewhere: outside the header, but
    for its free count, and outside the extents file. *)
Lemma open_inv path w allow d t v : wf_bytes d -> open_volume path w allow d = (t, Ok v) ->
  t = [] /\ opened w d v /\ v_path v = path /\
  forall d', py_len d' = py_len d -> (forall a, 1024 <= a < 1536 -> ~ (1072 <= a < 1076) -> peek d' a = peek d a) ->
    (forall a, 0 <= a < py_len d -> a ∈ fork_addrs (v_extents_fork v) -> peek d' a = peek d a) ->
    exists v', open_volume path w true d' = ([], Ok v') /\ v_writable v' = w /\ v_signature v' = v_signature v /\ v_create_date v' = v_create_date v /\
      v_block_size v' = v_block_size v /\ v_total_blocks v' = v_total_blocks v.
Proof.
  intros Hw H. unfold open_volume in H. apply pbind_inv in H as (u1 & size & u2 & R0 & H & ->). injection R0 as <- <-. cbn [replay fold_left] in H.
  apply pbind_inv in H as (u3 & header & u4 & R0 & H & ->). pose proof R0 as Hread. apply volume_read_inv in R0 as (-> & Eh & _ & Hsz & Hhl); [|lia]. cbn [replay fold_left] in H. specialize (Hsz ltac:(lia)).
  unfold primary_offset in *. change (1024 + 512) with 1536 in *.
  assert (wf_bytes header) as Hwh by (rewrite Eh; by apply wf_gather).
  destruct (_ && _) eqn:C0 in H; [done|]. pure_step H version R1. pure_step H attributes R2. pure_step H bs R3. pure_step H tb R4. pure_step H free R5. pure_step H create R6. pure_step H wc R7.
  destruct (_ || _) eqn:C1 in H; [done|]. destruct (_ || _) eqn:C2 in H; [done|]. destruct (_ && _) eqn:C3 in H; [done|].
  pure_step H allocation F1. pure_step H extents F2. pure_step H catalog F3. pure_step H af M1. pure_step H ef M2. pure_step H cf M3.
  destruct (_ <? _) eqn:C4 in H; [done|]. apply pbind_inv in H as (u5 & bitmap & u6 & B & H & ->). 
  assert (512 <= bs) as Hbs by (bool_to_prop; lia).
  destruct allocation as [[? ?] ?], extents as [[? ?] ?], catalog as [[? ?] ?].
  apply (fork_init_ok bs) in M1 as K1; [|lia|by eapply parse_fork_nonneg]. apply (fork_init_ok bs) in M2 as K2; [|lia|by eapply parse_fork_nonneg]. apply (fork_init_ok bs) in M3 as K3; [|lia|by eapply parse_fork_nonneg].
  apply (fork_read_inv bs) in B as (-> & -> & Hon & Hbl & _ & _ & Hrun); [|done]. cbn [replay fold_left] in H. apply pbind_inv in H as (u7 & ov & u8 & O & H & ->).
  assert (u7 = []) as -> by (by apply (overflow_agree bs ef d d) in O as [? _]). apply pret_inv in H as [-> <-]. split; [done|]. split; [|split; [done|]].
  { split; cbn; try done; bool_to_prop; lia. }
  intros d' Hl Hhd Hex. cbn [v_extents_fork v_signature v_create_date v_block_size v_total_blocks] in *. apply (overflow_agree bs ef d d') in O as [_ O]; [|done|done|done].
  set (header' := gather d' (py_range 1024 (1024 + 512))).
  assert (py_len header' = 512) as Hhl' by (unfold header'; rewrite py_len_gather, py_len_range; lia).
  assert (forall i, 0 <= i < 512 -> ~ (48 <= i < 52) -> nthZ header' i = nthZ header i) as Hag.
  { intros i Hi Hn. rewrite Eh. unfold header'. rewrite !(nthZ_gather_range _ 1024 512) by done. f_equal. apply Hhd; lia. }
  destruct (be32 header' 48) as [free'|e] eqn:R5'; [|unfold be32, u32be in R5'; by rewrite unpack_from_ok in R5' by lia].
  eexists. split.
  { unfold open_volume. eapply read_run; [done|]. eapply read_run; [apply volume_read_run; unfold primary_offset; lia|]. change (gather d' _) with header'.
    assert (py_slice header' 0 2 = py_slice header 0 2) as -> by (apply (py_slice_ext _ _ 0 0 2); try lia; intros i Hi; apply Hag; lia). rewrite C0.
    assert (forall dec k o, 0 <= k -> 0 <= o -> o + k <= 512 -> o + k <= 48 \/ 52 <= o -> unpack_from dec k header' o = unpack_from dec k header o) as Hu by (intros; by apply unpack_agree).
    eapply pure_run; [unfold be16, u16be; rewrite Hu by lia; exact R1|]. do 3 (eapply pure_run; [unfold be32, u32be; rewrite Hu by lia; eassumption|]). eapply pure_run; [exact R5'|].
    do 2 (eapply pure_run; [unfold be32, u32be; rewrite Hu by lia; eassumption|]). rewrite C1, Hl, C2. rewrite andb_false_r.
    do 3 (eapply pure_run; [rewrite (parse_fork_agree header header') by (done || lia); eassumption|]). do 3 (eapply pure_run; [eassumption|]). rewrite C4.
    eapply read_run; [apply Hrun; done|]. eapply read_run; [exact O|]. done. }
  done.
Qed.

(** ** Bits of the volume *)

Lemma bit_msb v b u : wf_bytes (v_bitmap v) -> bit v b = Ok u -> 0 <= b < v_total_blocks v /\ u = msb_at (v_bitmap v) b.
Proof.
  intros Hw H. unfold bit in H. destruct (_ || _) eqn:E in H; [done|]. bool_to_prop. apply bind_ok in H as (x & Hx & H). injection H as <-. split; [lia|].
  rewrite shiftr3 in Hx. assert (0 <= b / 8) by (apply Z.div_pos; lia). unfold py_get in Hx. rewrite !(proj2 (Z.ltb_ge (b / 8) 0)) in Hx by lia.
  unfold msb_at. destruct (v_bitmap v !! Z.to_nat (b / 8)) as [y|] eqn:Ey; [|done]. injection Hx as ->. assert (is_byte x) as Hb by (by eapply Forall_lookup_1 in Ey).
  rewrite land7. pose proof (Z.mod_pos_bound b 8 ltac:(lia)). destruct (Z.testbit x (7 - b mod 8)) eqn:Et.
  - apply negb_true_iff, Z.eqb_neq. intros Hz. apply (f_equal (fun z => Z.testbit z (7 - b mod 8))) in Hz. rewrite Z.land_spec, mask_bit, Z.eqb_refl, Et, Z.bits_0 in Hz by lia. done.
  - apply negb_false_iff, Z.eqb_eq. apply Z.bits_inj'. intros j Hj. rewrite Z.land_spec, mask_bit, Z.bits_0 by lia. destruct (Z.eqb_spec j (7 - b mod 8)) as [->|]; [by rewrite Et|apply andb_false_r].
Qed.

Lemma any_used_inv v l : any_used v l = Ok false -> Forall (fun b => bit v b = Ok false) l.
Proof.
  induction l as [|b l IH]; intros H; cbn [any_used] in H; [constructor|]. apply bind_ok in H as ([] & Hb & H); [done|]. constructor; [done|by apply IH].
Qed.

(** ** Runs that follow a trace *)

(** The program issues a part of [T] from its start, and all of it unless a
    fail point stops it. *)
Definition follows (fs : option string) (run : list (effect transaction) * result unit) (T : list (effect transaction)) : Prop :=
  exists s, T = run.1 ++ s /\ (fs = None -> s = [] /\ run.2 = Ok tt).

Section follows.
Context (fs : option string) (n : Z).

Lemma follows_step {A} (m : aprog A) (k : A -> aprog unit) d a t1 T :
  m d = (t1, Ok a) -> Forall (inside n) t1 -> py_len d = n -> (forall d', py_len d' = n -> follows fs (k a d') T) -> follows fs (pbind m k d) (t1 ++ T).
Proof.
  intros Hm Hi Hl Hk. rewrite <- Hl in Hi. destruct (Hk (replay d t1)) as (s & HT & Hend); [by rewrite replay_len|]. unfold pbind. rewrite Hm. destruct (k a (replay d t1)) as [t2 r].
  exists s. cbn [fst snd] in *. split; [by rewrite HT, app_assoc|done].
Qed.

Lemma follows_quiet {A} (m : aprog A) (k : A -> aprog unit) d a t1 T : m d = (t1, Ok a) -> Forall quiet t1 -> follows fs (k a d) T -> follows fs (pbind m k d) (t1 ++ T).
Proof.
  intros Hm Hq (s & HT & Hend). unfold pbind. rewrite Hm, quiet_replay by done. destruct (k a d) as [t2 r]. exists s. cbn [fst snd] in *. split; [by rewrite HT, app_assoc|done].
Qed.

Lemma follows_mark (x : transaction) (k : unit -> aprog unit) d T : follows fs (k tt d) T -> follows fs (pbind (journal_write x) k d) (EJournal (Some x) :: T).
Proof. apply (follows_quiet (journal_write x) k d tt [EJournal (Some x)]); [done|by repeat constructor]. Qed.

Lemma follows_fsync (k : unit -> aprog unit) d T : follows fs (k tt d) T -> follows fs (pbind os_fsync k d) (EFsync :: T).
Proof. apply (follows_quiet os_fsync k d tt [EFsync]); [done|by repeat constructor]. Qed.

Lemma follows_read {A} (m : aprog A) (k : A -> aprog unit) d a T : m d = ([], Ok a) -> follows fs (k a d) T -> follows fs (pbind m k d) T.
Proof. intros Hm. by apply (follows_quiet m k d a []). Qed.

Lemma follows_fail stage (k : unit -> aprog unit) d T : follows fs (k tt d) T -> follows fs (pbind (failpoint fs stage) k d) T.
Proof.
  intros Hk. unfold failpoint. case_bool_decide as Hf; [exists T; split; [done|intros E; by rewrite E in Hf]|]. by eapply follows_read.
Qed.

Lemma follows_patches v ps d0 (k : unit -> aprog unit) d T : v_writable v = true -> py_len d0 = n -> Forall (good_patch d0) ps -> py_len d = n ->
  (forall d', py_len d' = n -> follows fs (k tt d') T) -> follows fs (pbind (apply_patches v ps true) k d) (ptrace true ps ++ T).
Proof.
  intros Hw H0 Hps Hl Hk. eapply follows_step; [|rewrite <- H0; by apply (ptrace_writes d0 true ps)|done|done]. apply (apply_run v true ps d0 d); [done|done|congruence].
Qed.
End follows.

(** ** The question recovery asks *)

Lemma read_current_run d0 d ps : Forall (good_patch d0) ps -> py_len d = py_len d0 -> forall acc,
  pforeach (fun acc p => let* data := volume_read (p_offset p) (py_len (p_new p)) in pret (acc ++ [data])) acc ps d = ([], Ok (acc ++ map (fun p => gather d (prange p)) ps)).
Proof.
  intros Hps Hl. induction Hps as [|p ps (_ & H0 & H1 & _) _ IH]; intros acc; cbn [pforeach map]; [by rewrite app_nil_r|]. pose proof (py_len_nonneg (p_new p)).
  eapply read_run; [eapply read_run; [apply volume_read_run; lia|reflexivity]|]. rewrite IH. by rewrite <- app_assoc.
Qed.

Lemma gather_zip d (addrs : list Z) (vals : bytes) : length addrs = length vals -> gather d addrs = vals <-> Forall (fun c => peek d c.1 = c.2) (zip addrs vals).
Proof.
  revert vals. induction addrs as [|a addrs IH]; intros [|w vals] Hl; try done. cbn [gather map]. change (zip (a :: addrs) (w :: vals)) with ((a, w) :: zip addrs vals). rewrite Forall_cons. cbn [fst snd].
  specialize (IH vals ltac:(by injection Hl)). unfold gather in IH. rewrite <- IH. split; [by intros [= -> ->]|by intros [-> ->]].
Qed.

Lemma all_new_switched d0 d M : Forall (good_patch d0) M -> M <> [] -> all_new (map (fun p => gather d (prange p)) M) M = bool_decide (switched M d).
Proof.
  intros HM Hne. unfold all_new. rewrite bool_decide_eq_false_2 by done. cbn [negb andb]. clear Hne. apply eq_bool_prop_intro. rewrite Is_true_true, bool_decide_spec, forallb_forall. unfold switched.
  induction HM as [|p M Hp HM IH]; [split; [constructor|done]|]. change (p :: M) with ([p] ++ M) at 3. rewrite (np_app d0), Forall_app, <- IH, np_one by (by constructor).
  rewrite <- gather_zip by (apply Nat2Z.inj; apply (patch_len d0 true p) in Hp; symmetry; exact Hp). cbn [map]. change (zip (gather d (prange p) :: ?l) (p :: M)) with ((gather d (prange p), p) :: zip l M). split.
  - intros H. split; [exact (bool_decide_eq_true_1 _ (H _ (or_introl eq_refl)))|]. intros c Hc. by apply H; right.
  - intros [H1 H2] c [<-|Hc]; [by apply bool_decide_eq_true_2|by apply H2].
Qed.

Lemma repair_run v d0 d u ps qs rs : v_writable v = true -> py_len d = py_len d0 -> Forall (good_patch d0) ps -> Forall (good_patch d0) qs -> Forall (good_patch d0) rs ->
  ((apply_patches v ps u ;;* apply_patches v qs u ;;* apply_patches v rs u) ;;* os_fsync ;;* put_journal None) d =
  (ptrace u ps ++ ptrace u qs ++ ptrace u rs ++ [EFsync; EJournal None], Ok tt).
Proof.
  intros Hw Hl Hps Hqs Hrs.
  assert (forall d' l, py_len d' = py_len d0 -> Forall (good_patch d0) l -> py_len (replay d' (ptrace u l)) = py_len d0) as Hk.
  { intros d' l Hd Hg. rewrite replay_len; [done|]. rewrite Hd. by apply (ptrace_writes d0 u l). }
  rewrite !app_assoc. change [EFsync; EJournal None] with ([EFsync (J:=transaction)] ++ [EJournal None]). eapply pbind_run; [|reflexivity]. rewrite <- app_assoc.
  eapply pbind_run; [by apply (apply_run v u ps d0)|]. eapply pbind_run; [apply (apply_run v u qs d0); [done|done|by apply Hk]|].
  apply (apply_run v u rs d0); [done|done|]. apply Hk; [|done]. by apply Hk.
Qed.

(** ** Sound volumes *)

(** Where the structures the engine reads lie: the volume header, the free
    count of the alternate header and the three special files. *)
Definition system_addrs (v : Volume) : list Z :=
  py_range 1024 1536 ++ py_range (alternate_offset v + 48) (alternate_offset v + 52) ++
  fork_addrs (v_allocation_fork v) ++ fork_addrs (v_extents_fork v) ++ fork_addrs (v_catalog_fork v).

(** A descriptor in the catalog file that says what the engine read. *)
Definition ref_sound (d : bytes) (v : Volume) (r : DescriptorRef) : Prop :=
  r_fork (d_record r) = v_catalog_fork v /\ 0 <= e_start (d_extent r) < 2 ^ 32 /\ 0 < e_count (d_extent r) < 2 ^ 32 /\
  gather d (ref_addrs r) = be_digits 4 (e_start (d_extent r)) ++ be_digits 4 (e_count (d_extent r)).

(** A fork of a volume that a check would pass: the structures of the volume
    do not overlap and lie in used blocks (or behind the last block), the
    fork's blocks are used and its descriptors are separate fields of the
    catalog file. *)
Record move_sound (path : string) (d0 : bytes) (v : Volume) (o : ForkObject) : Prop := mkMoveSound {
  ms_bytes : wf_bytes d0;
  ms_open : open_volume path true false d0 = ([], Ok v);
  ms_apart : NoDup (system_addrs v);
  ms_system : forall a, a ∈ system_addrs v -> bit v (a / v_block_size v) <> Ok false;
  ms_used : Forall (fun b => bit v b = Ok true) (source_blocks o);
  ms_refs : Forall (ref_sound d0 v) (o_descriptors o);
  ms_refs_apart : NoDup (refs_addrs (o_descriptors o));
  ms_size : 0 < o_total_blocks o
}.

(** The blocks of a destination. *)
Definition dst_blocks (o : ForkObject) (dest : Z) : list Z := py_range dest (dest + o_total_blocks o).

Section sound.
Context (path : string) (d0 : bytes) (v : Volume) (o : ForkObject) (dest : Z).
Hypothesis Hs : move_sound path d0 v o.
Local Notation bs := (v_block_size v).
Local Notation n := (py_len d0).
Local Notation BM := (fspan (v_allocation_fork v) 0 (py_len (v_bitmap v))).
Local Notation src := (source_blocks o).
Local Notation dst := (dst_blocks o dest).
Local Notation refs := (o_descriptors o).

Lemma ms_opened : opened true d0 v.
Proof. destruct Hs as [Hw Ho _ _ _ _ _ _]. by apply (open_inv path true false) in Ho as (_ & Hop & _). Qed.

Lemma bm_gather : v_bitmap v = gather d0 BM.
Proof. rewrite (op_bitmap _ _ _ ms_opened) at 1. by rewrite <- (op_bitmap_len _ _ _ ms_opened). Qed.

Lemma bm_on : on_device n BM.
Proof. rewrite (op_bitmap_len _ _ _ ms_opened). apply (op_bitmap_on _ _ _ ms_opened). Qed.

Lemma bm_wf : wf_bytes (v_bitmap v).
Proof. rewrite bm_gather. apply wf_gather, (ms_bytes _ _ _ _ Hs). Qed.

Lemma system_parts : NoDup (header_addrs v ++ BM ++ fork_addrs (v_extents_fork v) ++ fork_addrs (v_catalog_fork v)).
Proof.
  eapply sublist_NoDup; [apply (ms_apart _ _ _ _ Hs)|]. unfold system_addrs, header_addrs. rewrite (py_range_split 1024 1072 1536), (py_range_split 1072 1076 1536) by lia.
  rewrite <- !app_assoc. apply sublist_inserts_l, sublist_app; [done|]. apply sublist_inserts_l. repeat (apply sublist_app; [|try done]); try done. apply sublist_py_slice.
Qed.

Lemma system_facts : NoDup (header_addrs v) /\ NoDup BM /\
  (forall a, a ∈ header_addrs v -> a ∉ BM /\ a ∉ fork_addrs (v_catalog_fork v)) /\ (forall a, a ∈ BM -> a ∉ fork_addrs (v_catalog_fork v)).
Proof.
  pose proof system_parts as H. apply NoDup_app in H as (N1 & A1 & H). apply NoDup_app in H as (N2 & A2 & _). split; [done|]. split; [done|]. split.
  - intros a Ha. split; intros Hb; apply (A1 a Ha); rewrite !elem_of_app; tauto.
  - intros a Ha Hb. apply (A2 a Ha). rewrite elem_of_app. tauto.
Qed.

Lemma system_covers a : a ∈ header_addrs v \/ a ∈ BM \/ a ∈ fork_addrs (v_catalog_fork v) -> a ∈ system_addrs v.
Proof.
  unfold system_addrs, header_addrs. rewrite !elem_of_app, !elem_of_py_range. pose proof (fspan_sub (v_allocation_fork v) 0 (py_len (v_bitmap v)) a) as Hsub.
  intros [[H|H]|[H|H]]; [left; lia|tauto|tauto|tauto].
Qed.

Lemma ref_in_catalog a : a ∈ refs_addrs refs -> a ∈ fork_addrs (v_catalog_fork v).
Proof.
  pose proof (ms_refs _ _ _ _ Hs) as H. unfold refs_addrs. induction H as [|r l (Hr & _) _ IH]; cbn [map concat]; [intros Ha; by apply elem_of_nil in Ha|].
  rewrite elem_of_app. intros [Ha|Ha]; [|by apply IH]. unfold ref_addrs in Ha. apply fspan_sub in Ha. by rewrite Hr in Ha.
Qed.

Lemma src_used b : b ∈ src -> 0 <= b < v_total_blocks v /\ msb_at (v_bitmap v) b = true.
Proof.
  intros Hb. pose proof (ms_used _ _ _ _ Hs) as H. rewrite Forall_forall in H. destruct (bit_msb v b true bm_wf (H b Hb)) as [? ?]. done.
Qed.

Lemma blocks_on blocks : (forall b, b ∈ blocks -> 0 <= b < v_total_blocks v) -> on_device n (blocks_addrs bs blocks).
Proof.
  intros H. pose proof ms_opened as Hop. pose proof (op_block _ _ _ Hop). pose proof (op_blocks _ _ _ Hop). apply Forall_forall. intros a Ha. apply elem_of_blocks in Ha; [|lia]. apply H in Ha.
  pose proof (Z.div_mod a bs ltac:(lia)). pose proof (Z.mod_pos_bound a bs ltac:(lia)). nia.
Qed.

Lemma ref_forks : Forall (fun r => fork_ok bs (r_fork (d_record r))) refs.
Proof. eapply Forall_impl; [apply (ms_refs _ _ _ _ Hs)|]. intros r (-> & _). apply (op_catalog _ _ _ ms_opened). Qed.

Lemma src_len : py_len src = blocks_of refs.
Proof.
  pose proof (ms_refs _ _ _ _ Hs) as H. unfold source_blocks, o_extents, blocks_of. induction H as [|r l (_ & _ & Hc & _) _ IH]; [done|]. cbn [map List.filter].
  rewrite (proj2 (Z.eqb_neq _ _)) by lia. cbn [negb map concat]. rewrite py_len_app, IH. unfold extent_blocks. rewrite py_len_range.
  change (zsum (e_count (d_extent r) :: map (fun r => e_count (d_extent r)) l)) with (e_count (d_extent r) + zsum (map (fun r => e_count (d_extent r)) l)). lia.
Qed.

Section prepared.
Hypothesis Hfree : Forall (fun b => bit v b = Ok false) dst.

Lemma dst_free b : b ∈ dst -> 0 <= b < v_total_blocks v /\ msb_at (v_bitmap v) b = false.
Proof. intros Hb. rewrite Forall_forall in Hfree. destruct (bit_msb v b false bm_wf (Hfree b Hb)) as [? ?]. done. Qed.

Lemma dst_not_system a : a ∈ blocks_addrs bs dst -> a ∉ system_addrs v.
Proof.
  intros Ha Hsys. apply elem_of_blocks in Ha; [|pose proof (op_block _ _ _ ms_opened); lia]. rewrite Forall_forall in Hfree. by apply (ms_system _ _ _ _ Hs a Hsys), Hfree.
Qed.

Context (st fi : bytes) (SB FB M SH FH : list Patch) (f1 f2 : Z) (t1 t2 t3 : list (effect transaction)).
Hypothesis Hstates : make_bitmap_states v src dst = Ok (v_bitmap v, st, fi).
Hypothesis Hsb : bitmap_patches v (v_bitmap v) st = Ok SB.
Hypothesis Hfb : bitmap_patches v (v_bitmap v) fi = Ok FB.
Hypothesis Hm : descriptor_patches o dest d0 = (t1, Ok M).
Hypothesis Hsh : header_patches v f1 d0 = (t2, Ok SH).
Hypothesis Hfh : header_patches v f2 d0 = (t3, Ok FH).

Lemma states : wf_bytes st /\ py_len st = py_len (v_bitmap v) /\ (forall y, 0 <= y -> msb_at st y = if bool_decide (y ∈ dst) then true else msb_at (v_bitmap v) y) /\
  move_bits (v_bitmap v) src dst fi.
Proof.
  apply (bitmap_states_spec v) in Hstates as (_ & H); [done|apply bm_wf|apply Forall_forall; intros b [H _]%src_used; lia|apply Forall_forall; intros b [H _]%dst_free; lia].
Qed.

Lemma sb_spec : patching d0 BM st SB /\ forall a w, (a, w) ∈ np SB -> w <> peek d0 a.
Proof. destruct states as (_ & Hl & _). by apply (bitmap_patches_spec d0 bs (v_allocation_fork v) (v_bitmap v) st (op_allocation _ _ _ ms_opened) bm_gather bm_on Hl v). Qed.

Lemma fb_spec : patching d0 BM fi FB /\ forall a w, (a, w) ∈ np FB -> w <> peek d0 a.
Proof. destruct states as (_ & _ & _ & _ & Hl & _). by apply (bitmap_patches_spec d0 bs (v_allocation_fork v) (v_bitmap v) fi (op_allocation _ _ _ ms_opened) bm_gather bm_on Hl v). Qed.

(** A bitmap byte the first step changes is changed at the end. *)
Lemma stage_in_final a : a ∈ paddrs SB -> a ∈ paddrs FB.
Proof.
  intros Ha. destruct sb_spec as [[Gs _ Ns _] Hch]. destruct fb_spec as [[_ _ _ Rf] _]. destruct states as (Hw1 & Hl1 & Hb1 & Hw2 & Hl2 & Hb2).
  destruct (np_value d0 SB a Gs Ha) as (w & Hw). pose proof (Hch a w Hw) as Hne. apply Ns, list_elem_of_lookup in Hw as [i Hi]. apply lookup_zip_with_Some in Hi as (x & y & [= <- <-] & Hx & Hy).
  pose proof (lookup_lt_Some _ _ _ Hy) as Hlt. destruct (lookup_lt_is_Some_2 fi i) as [z Hz]; [unfold py_len in *; lia|].
  assert (v_bitmap v !! i = Some (peek d0 a)) as Hold by (rewrite bm_gather at 1; unfold gather; change (map (peek d0)) with (fmap (M:=list) (peek d0)); by rewrite list_lookup_fmap, Hx).
  destruct (Rf a z) as [?|Hz0]; [apply list_elem_of_lookup; exists i; apply lookup_zip_with_Some; eauto|by eapply np_addr|]. exfalso. subst z. apply Hne.
  assert (st !! Z.to_nat (Z.of_nat i) = v_bitmap v !! Z.to_nat (Z.of_nat i)) as He; [|rewrite Nat2Z.id, Hy, Hold in He; congruence].
  apply msb_ext; [done|apply bm_wf|unfold py_len in *; lia|unfold py_len in *; lia|]. intros b Hb. rewrite Hb1 by lia. case_bool_decide as Hd; [|done]. exfalso.
  destruct (dst_free b Hd) as [_ Hf]. specialize (Hb2 b ltac:(lia)). rewrite bool_decide_eq_false_2, bool_decide_eq_true_2 in Hb2; [|done|intros Hsrc; apply src_used in Hsrc as [_ ?]; congruence].
  unfold msb_at in Hb2, Hf. replace (b / 8) with (Z.of_nat i) in Hb2, Hf by (apply (Z.div_unique _ _ _ (b - 8 * Z.of_nat i)); lia). rewrite Nat2Z.id in Hb2, Hf. rewrite Hz in Hb2. rewrite Hold in Hf. congruence.
Qed.

Lemma m_spec : patching d0 (refs_addrs refs) (encode_refs dest refs) M /\ o_total_blocks o = blocks_of refs /\ length (refs_addrs refs) = length (encode_refs dest refs) /\
  (refs <> [] -> 0 <= dest < 2 ^ 32) /\ on_device n (refs_addrs refs).
Proof. apply (descriptor_patches_spec d0 bs) in Hm as (_ & Hp & _ & Ht & Hl & Hr); [done|apply ref_forks]. Qed.

Lemma differ_at (l k : list Z) : length l = length k -> l <> k -> exists i x y, l !! i = Some x /\ k !! i = Some y /\ x <> y.
Proof.
  revert k. induction l as [|x l IH]; intros [|y k] Hl Hne; try done. destruct (decide (x = y)) as [->|Hxy]; [|by exists 0%nat, x, y].
  destruct (IH k) as (i & u & w & Hu & Hk & Hn); [by injection Hl|congruence|]. by exists (S i), u, w.
Qed.

(** The first descriptor names another block. *)
Lemma metadata_changes : exists a w, (a, w) ∈ np M /\ w <> peek d0 a.
Proof.
  destruct m_spec as ([_ _ _ Hrest] & Ht & Hlen & Hr & _). pose proof (ms_refs _ _ _ _ Hs) as Hrefs. pose proof (ms_size _ _ _ _ Hs) as Hz.
  destruct refs as [|r l] eqn:Er; [rewrite Ht in Hz; by unfold blocks_of in Hz|]. specialize (Hr ltac:(done)). apply Forall_cons in Hrefs as [(_ & Hst & Hc & Hg) _].
  assert (e_start (d_extent r) <> dest) as Hne.
  { intros He. assert (e_start (d_extent r) ∈ src) as Hsrc.
    { unfold source_blocks, o_extents. rewrite Er. cbn [map List.filter]. rewrite (proj2 (Z.eqb_neq _ _)) by lia. cbn [negb map concat]. apply elem_of_app. left. apply elem_of_py_range. lia. }
    apply src_used in Hsrc as [_ H1]. assert (dest ∈ dst) as Hd by (apply elem_of_py_range; lia). apply dst_free in Hd as [_ H2]. congruence. }
  unfold refs_addrs in Hlen, Hrest. cbn [map concat encode_refs] in Hlen, Hrest.
  assert (length (ref_addrs r) = length (be_digits 4 dest ++ be_digits 4 (e_count (d_extent r)))) as Hl.
  { pose proof (f_equal py_len Hg) as Hl. rewrite py_len_gather, py_len_app, !py_len_be_digits in Hl. rewrite length_app. pose proof (py_len_be_digits 4 dest). pose proof (py_len_be_digits 4 (e_count (d_extent r))). unfold py_len in *. lia. }
  destruct (differ_at (gather d0 (ref_addrs r)) (be_digits 4 dest ++ be_digits 4 (e_count (d_extent r)))) as (i & x & y & Hx & Hy & Hxy).
  { unfold gather. by rewrite length_map. }
  { rewrite Hg. intros He. apply app_inj_1 in He as [He _]; [|apply Nat2Z.inj; pose proof (py_len_be_digits 4 dest); pose proof (py_len_be_digits 4 (e_start (d_extent r))); unfold py_len in *; lia].
    apply Hne. apply (f_equal be_int) in He. by rewrite !be_int_digits in He by (change (256 ^ Z.of_nat 4) with (2 ^ 32); lia). }
  unfold gather in Hx. change (map (peek d0)) with (fmap (M:=list) (peek d0)) in Hx. rewrite list_lookup_fmap in Hx. destruct (ref_addrs r !! i) as [a|] eqn:Ea; [|done]. injection Hx as <-.
  exists a, y. split; [|congruence]. destruct (Hrest a y) as [?|?]; [|done|congruence]. rewrite zip_app_same by done. apply elem_of_app. left. apply list_elem_of_lookup. exists i. apply lookup_zip_with_Some. eauto.
Qed.

Local Notation D := (blocks_addrs bs dst).
Local Notation payload := (gather d0 (blocks_addrs bs src)).

Lemma patches_apart : NoDup (D ++ paddrs M ++ paddrs FB ++ paddrs FH).
Proof.
  destruct m_spec as ([_ Sm _ _] & _). destruct fb_spec as ([_ Sf _ _] & _). apply header_patches_spec in Hfh as (_ & _ & Hh & _). rewrite Hh.
  destruct system_facts as (N1 & N2 & A1 & A2). pose proof (sublist_submseteq _ _ Sm) as Sm'. pose proof (sublist_submseteq _ _ Sf) as Sf'.
  assert (forall a, a ∈ paddrs M -> a ∈ fork_addrs (v_catalog_fork v)) as HM by (intros a Ha; apply ref_in_catalog; by eapply elem_of_submseteq).
  assert (forall a, a ∈ paddrs FB -> a ∈ BM) as HB by (intros a Ha; by eapply elem_of_submseteq). pose proof (op_block _ _ _ ms_opened).
  apply NoDup_app. split; [apply blocks_nodup; [lia|apply NoDup_seqZ]|]. split.
  { intros a Ha%dst_not_system Hin. apply Ha, system_covers. rewrite !elem_of_app in Hin. destruct Hin as [?|[?|?]]; [right; right; by apply HM|right; left; by apply HB|by left]. }
  apply NoDup_app. split; [eapply sublist_NoDup; [apply (ms_refs_apart _ _ _ _ Hs)|done]|]. split.
  { intros a Ha%HM. rewrite elem_of_app. intros [Hb%HB|Hb]; [by apply (A2 a Hb)|]. destruct (A1 a Hb) as [_ ?]. done. }
  apply NoDup_app. split; [by eapply sublist_NoDup|]. split; [|done]. intros a Ha%HB Hb. destruct (A1 a Hb) as [? _]. done.
Qed.

Lemma prepared_txn : txn_ok d0 SB FB M SH FH D payload.
Proof.
  destruct sb_spec as [[Gs _ _ _] _]. destruct fb_spec as [[Gf _ _ _] _]. destruct m_spec as ([Gm _ _ _] & Ht & _).
  pose proof (header_patches_spec _ _ _ _ _ Hsh) as (_ & G1 & A1 & _). pose proof (header_patches_spec _ _ _ _ _ Hfh) as (_ & G2 & A2 & _).
  constructor; try done.
  - apply patches_apart.
  - apply stage_in_final.
  - congruence.
  - apply blocks_on. intros b Hb. by apply dst_free.
  - pose proof (op_block _ _ _ ms_opened). unfold gather. rewrite length_map. apply Nat2Z.inj. change (py_len D = py_len (blocks_addrs bs src)). rewrite !blocks_addrs_len by lia.
    rewrite src_len, <- Ht. unfold dst_blocks. rewrite py_len_range. pose proof (ms_size _ _ _ _ Hs). f_equal. lia.
  - apply metadata_changes.
Qed.

(** The journal of the move. *)
Definition the_txn : transaction :=
  mkTransaction 1 "hfsplus" (v_path v) (v_signature v) (v_create_date v) (v_block_size v) (v_total_blocks v)
    (o_path o) (o_file_id o) (o_fork_type o) src dst "prepared" SB FB M SH FH.

(** What [move_one] does behind its preparations. *)
Lemma move_body_follows fs : exists copy, writes n copy D payload /\
  follows fs ((let x := the_txn in
    journal_write x ;;* let* data := read_blocks v src in write_blocks v dst data ;;* os_fsync ;;*
    journal_write (set_stage x "copied") ;;* failpoint fs "copied" ;;* apply_patches v SB true ;;* apply_patches v SH true ;;* os_fsync ;;*
    journal_write (set_stage x "destination-ready") ;;* failpoint fs "destination-ready" ;;* journal_write (set_stage x "switching") ;;* apply_patches v M true ;;* os_fsync ;;*
    journal_write (set_stage x "switched") ;;* failpoint fs "switched" ;;* apply_patches v FB true ;;* apply_patches v FH true ;;* os_fsync ;;*
    journal_write (set_stage x "complete") ;;* put_journal None) d0) (move_trace SB FB M SH FH the_txn copy).
Proof.
  pose proof ms_opened as Hop. pose proof prepared_txn as Htx. assert (v_writable v = true) as Hw by apply (op_writable _ _ _ Hop). pose proof (op_block _ _ _ Hop) as Hb.
  destruct m_spec as (_ & Ht & _). pose proof (ms_size _ _ _ _ Hs) as Hz.
  assert (read_blocks v src d0 = ([], Ok payload)) as Hread.
  { unfold read_blocks. rewrite (read_blocks_run v src d0 []); [done|lia|]. apply blocks_on. intros b Hb'. by apply src_used. }
  destruct (write_blocks_run v dst payload d0) as (copy & Hcopy & Hwr); [done|lia|apply (tx_on _ _ _ _ _ _ _ _ Htx)| |].
  { rewrite py_len_gather, blocks_addrs_len, src_len, <- Ht by lia. unfold dst_blocks. rewrite py_len_range. f_equal. lia. }
  exists copy. split; [done|]. unfold move_trace, phase_copy, phase_stage, phase_switch, phase_release, phase_end, release. rewrite <- !app_comm_cons, <- !app_assoc. cbv zeta.
  destruct Htx as [Gsb Gfb Gm Gsh Gfh _ _ _ _ _ _]. apply (follows_mark fs the_txn). eapply follows_read; [exact Hread|].
  eapply (follows_step fs n); [exact Hcopy|apply Hwr|done|]. intros d1 L1. apply follows_fsync, follows_mark, follows_fail.
  apply (follows_patches fs n v SB d0); [done..|]. intros d2 L2. apply (follows_patches fs n v SH d0); [done..|]. intros d3 L3. apply follows_fsync, follows_mark, follows_fail, follows_mark.
  apply (follows_patches fs n v M d0); [done..|]. intros d4 L4. apply follows_fsync, follows_mark, follows_fail.
  apply (follows_patches fs n v FB d0); [done..|]. intros d5 L5. apply (follows_patches fs n v FH d0); [done..|]. intros d6 L6. apply follows_fsync, follows_mark. by exists [].
Qed.
End prepared.

(** What [move_one] computes before it writes. *)
Record prepared (st fi : bytes) (SB FB M SH FH : list Patch) : Prop := mkPrepared {
  pr_free : Forall (fun b => bit v b = Ok false) dst;
  pr_states : make_bitmap_states v src dst = Ok (v_bitmap v, st, fi);
  pr_sb : bitmap_patches v (v_bitmap v) st = Ok SB;
  pr_fb : bitmap_patches v (v_bitmap v) fi = Ok FB;
  pr_m : descriptor_patches o dest d0 = ([], Ok M);
  pr_sh : header_patches v (v_free_blocks v - o_total_blocks o) d0 = ([], Ok SH);
  pr_fh : header_patches v (v_free_blocks v) d0 = ([], Ok FH)
}.

Lemma patches_read : reads (descriptor_patches o dest) /\ forall f, reads (header_patches v f).
Proof.
  assert (forall off len, reads (volume_read off len)) as Hr.
  { intros off len. apply reads_pbind; [done|]. intros data. by destruct (negb _). }
  split.
  - apply reads_pbind; [|intros [ps c]; by destruct (negb _)]. apply reads_pforeach. intros [ps c] r. do 2 (apply reads_pbind; [done|intros ?]). apply reads_pbind; [|done].
    apply reads_pbind; [done|]. intros pcs. apply reads_pbind; [|done]. apply reads_pforeach. intros [? ?] pc. by apply reads_pbind.
  - intros f. apply reads_pbind; [done|]. intros ?. apply reads_pbind; [done|]. intros ?. by apply reads_pbind.
Qed.

(** The move fails before it writes, or it follows the protocol. *)
Lemma move_one_cases fs :
  (exists e, move_one fs v o dest d0 = ([], Raise e)) \/
  exists st fi SB FB M SH FH copy, prepared st fi SB FB M SH FH /\ writes n copy (blocks_addrs bs dst) (gather d0 (blocks_addrs bs src)) /\
    follows fs (move_one fs v o dest d0) (move_trace SB FB M SH FH (the_txn SB FB M SH FH) copy).
Proof.
  destruct patches_read as [Rd Rh]. specialize (Rd d0). pose proof (Rh (v_free_blocks v - o_total_blocks o) d0) as Rs. pose proof (Rh (v_free_blocks v) d0) as Rf.
  unfold move_one. cbv zeta. change (py_range dest (dest + o_total_blocks o)) with dst.
  destruct (any_used v dst) as [[]|e] eqn:Eu; [left; eexists; reflexivity| |left; exists e; reflexivity]. apply any_used_inv in Eu as Hfree. rewrite (pure_run (Ok false) _ d0 false _ eq_refl eq_refl). cbv beta.
  destruct (make_bitmap_states v src dst) as [[[ob st] fi]|e] eqn:Es; [|left; exists e; reflexivity]. rewrite (pure_run (Ok (ob, st, fi)) _ d0 _ _ eq_refl eq_refl). cbv beta iota.
  assert (ob = v_bitmap v) as ->. { unfold make_bitmap_states in Es. apply bind_ok in Es as (? & _ & Es). apply bind_ok in Es as (? & _ & Es). by injection Es. }
  destruct (bitmap_patches v (v_bitmap v) st) as [SB|e] eqn:Esb; [|left; exists e; reflexivity]. rewrite (pure_run (Ok SB) _ d0 _ _ eq_refl eq_refl). cbv beta.
  destruct (bitmap_patches v (v_bitmap v) fi) as [FB|e] eqn:Efb; [|left; exists e; reflexivity]. rewrite (pure_run (Ok FB) _ d0 _ _ eq_refl eq_refl). cbv beta.
  destruct (descriptor_patches o dest d0) as [t1 [M|e]] eqn:Em; cbn [fst] in Rd; subst t1; [|left; exists e; by rewrite (raise_run _ _ _ _ _ Em)]. rewrite (read_run _ _ d0 _ _ Em eq_refl). cbv beta.
  destruct (header_patches v (v_free_blocks v - o_total_blocks o) d0) as [t2 [SH|e]] eqn:Esh; cbn [fst] in Rs; subst t2; [|left; exists e; by rewrite (raise_run _ _ _ _ _ Esh)]. rewrite (read_run _ _ d0 _ _ Esh eq_refl). cbv beta.
  destruct (header_patches v (v_free_blocks v) d0) as [t3 [FH|e]] eqn:Efh; cbn [fst] in Rf; subst t3; [|left; exists e; by rewrite (raise_run _ _ _ _ _ Efh)]. rewrite (read_run _ _ d0 _ _ Efh eq_refl). cbv beta.
  right. destruct (move_body_follows Hfree st fi SB FB M SH FH _ _ _ _ _ Es Esb Efb Em Esh Efh fs) as (copy & Hc & Hf). exists st, fi, SB, FB, M, SH, FH, copy. split; [done|]. split; [exact Hc|exact Hf].
Qed.

(** ** Recovery *)

Section recovery.
Context (st fi : bytes) (SB FB M SH FH : list Patch).
Hypothesis Hp : prepared st fi SB FB M SH FH.
Local Notation D := (blocks_addrs bs dst).
Local Notation payload := (gather d0 (blocks_addrs bs src)).
Local Notation X := (the_txn SB FB M SH FH).
Local Notation left d j := (left_behind d0 SB FB M SH FH D payload X d j).

Lemma txn : txn_ok d0 SB FB M SH FH D payload.
Proof. destruct Hp as [H1 H2 H3 H4 H5 H6 H7]. by eapply prepared_txn. Qed.

(** What no patch names is as it was. *)
Lemma left_agree d x a : left d (Some x) -> 0 <= a < n -> a ∉ D -> a ∉ paddrs M -> a ∉ paddrs FB -> a ∉ paddrs FH -> py_len d = n /\ peek d a = peek d0 a.
Proof.
  pose proof txn as Htx. intros (stage & _ & Hc) Ha HD HM HF HH.
  assert (a ∉ paddrs SB) as HSB by (intros H; by apply HF, (tx_stage_bitmap _ _ _ _ _ _ _ _ Htx)).
  assert (a ∉ paddrs SH) as HSH by (by rewrite (tx_stage_header _ _ _ _ _ _ _ _ Htx)).
  destruct Hc as [((Hl & Hh & _) & _)|(Hl & Hh)]; (split; [done|]).
  - destruct (holds_peek _ d a Hh ltac:(lia)) as [?|[?|Hn]]; [done|done|]. rewrite !elem_of_app in Hn. destruct Hn as [Hn|[Hn|Hn]]; by apply np_addr in Hn.
  - destruct (holds_peek _ d a Hh ltac:(lia)) as (_ & _ & H). destruct (H HD HM) as [?|Hn]; [done|]. rewrite !elem_of_app in Hn. destruct Hn as [Hn|[Hn|[Hn|Hn]]]; by apply np_addr in Hn.
Qed.

Lemma left_len d x : left d (Some x) -> py_len d = n.
Proof. intros (stage & _ & [((Hl & _) & _)|(Hl & _)]); done. Qed.

(** The structures recovery reads before it repairs. *)
Lemma left_system d x a : left d (Some x) -> 0 <= a < n ->
  a ∈ fork_addrs (v_extents_fork v) \/ (1024 <= a < 1536 /\ ~ 1072 <= a < 1076) -> peek d a = peek d0 a.
Proof.
  intros Hleft Ha Hsys. pose proof (pr_free _ _ _ _ _ _ _ Hp) as Hfree. apply (left_agree d x a Hleft Ha).
  - intros Hd. apply (dst_not_system Hfree a Hd). unfold system_addrs. rewrite !elem_of_app, !elem_of_py_range. destruct Hsys as [?|?]; [tauto|left; lia].
  - destruct Hp as [H1 H2 H3 H4 H5 H6 H7]. destruct (m_spec M [] H5) as ([_ Sm _ _] & _). intros Hm. eapply elem_of_submseteq in Hm; [|by apply sublist_submseteq]. apply ref_in_catalog in Hm.
    pose proof (ms_apart _ _ _ _ Hs) as Hap. unfold system_addrs in Hap. rewrite !NoDup_app in Hap. destruct Hap as (_ & A1 & _ & _ & _ & _ & _ & A4 & _).
    destruct Hsys as [He|He]; [by apply (A4 a)|]. apply (A1 a); [apply elem_of_py_range; lia|]. rewrite !elem_of_app. tauto.
  - destruct Hp as [H1 H2 H3 H4 H5 H6 H7]. destruct (fb_spec Hfree st fi FB H2 H4) as ([_ Sf _ _] & _). intros Hf. eapply elem_of_submseteq in Hf; [|by apply sublist_submseteq]. apply fspan_sub in Hf.
    pose proof (ms_apart _ _ _ _ Hs) as Hap. unfold system_addrs in Hap. rewrite !NoDup_app in Hap. destruct Hap as (_ & A1 & _ & _ & _ & A3 & _).
    destruct Hsys as [He|He]; [apply (A3 a Hf); rewrite elem_of_app; tauto|]. apply (A1 a); [apply elem_of_py_range; lia|]. rewrite !elem_of_app. tauto.
  - destruct Hp as [H1 H2 H3 H4 H5 H6 H7]. apply header_patches_spec in H7 as (_ & _ & -> & _). unfold header_addrs. rewrite elem_of_app, !elem_of_py_range. intros Hh.
    pose proof (ms_apart _ _ _ _ Hs) as Hap. unfold system_addrs in Hap. rewrite !NoDup_app in Hap. destruct Hap as (_ & A1 & _ & A2 & _).
    destruct Hsys as [He|He].
    + destruct Hh as [Hh|Hh]; [apply (A1 a); [apply elem_of_py_range; lia|rewrite !elem_of_app; tauto]|]. apply (A2 a); [apply elem_of_py_range; lia|rewrite !elem_of_app; tauto].
    + destruct Hh as [Hh|Hh]; [lia|]. apply (A1 a); [apply elem_of_py_range; lia|]. rewrite !elem_of_app, elem_of_py_range. tauto.
Qed.

Lemma m_nonempty : M <> [].
Proof. destruct (tx_changes _ _ _ _ _ _ _ _ txn) as (a & w & Hw & _). intros ->. by apply elem_of_nil in Hw. Qed.

Lemma hfs_recover_run stage d : left d (Some (set_stage X stage)) ->
  recover false path (Some (set_stage X stage)) d = (repair SB FB M SH FH d stage ++ [EFsync; EJournal None], Ok tt).
Proof.
  intros Hleft. pose proof txn as Htx. pose proof (left_len d _ Hleft) as Hl. destruct Hs as [Hw Ho Hap _ _ _ _ _].
  destruct (open_inv path true false d0 [] v Hw Ho) as (_ & Hop & _ & Hre). destruct (Hre d Hl) as (v' & Hv & Hwv & E1 & E2 & E3 & E4).
  { intros a Ha Hn. apply (left_system d _ a Hleft); [pose proof (op_header _ _ _ Hop); lia|by right]. }
  { intros a Hin Ha. apply (left_system d _ a Hleft Hin). by left. }
  assert (read_current M d = ([], Ok (map (fun p => gather d (prange p)) M))) as Hcur by (exact (read_current_run d0 d M (tx_m _ _ _ _ _ _ _ _ Htx) Hl [])).
  unfold recover. cbn [x_filesystem set_stage the_txn x_metadata x_signature x_create_date x_block_size x_total_blocks x_stage x_bitmap_final x_bitmap_stage x_headers_final x_headers_stage].
  rewrite bool_decide_eq_true_2 by done. cbn [negb]. eapply read_run; [exact Hv|]. rewrite E1, E2, E3, E4, bool_decide_eq_true_2, !Z.eqb_refl by done. cbn [negb orb].
  eapply read_run; [exact Hcur|]. rewrite (all_new_switched d0) by (apply m_nonempty || apply (tx_m _ _ _ _ _ _ _ _ Htx)).
  change (bool_decide (switched M d) || bool_decide (stage = "switched") || bool_decide (stage = "complete")) with (decision M d stage). unfold repair.
  destruct Htx as [Gsb Gfb Gm Gsh Gfh _ _ _ _ _ _].
  destruct (decision M d stage); unfold complete_, roll_back; rewrite <- !app_assoc; by apply (repair_run v' d0).
Qed.

(** Nothing but the free destination has changed. *)
Definition unmoved (d : bytes) : Prop := py_len d = n /\ forall a, 0 <= a < n -> a / bs ∉ dst -> peek d a = peek d0 a.

(** The fork lies in the destination: its data, its descriptors, the bits of
    the bitmap and the free counts say so, and nothing else has changed. *)
Record moved (d : bytes) : Prop := mkMoved {
  mv_len : py_len d = n;
  mv_data : gather d D = payload;
  mv_descriptors : gather d (refs_addrs refs) = encode_refs dest refs;
  mv_bitmap : move_bits (v_bitmap v) src dst (gather d BM);
  mv_free : gather d (header_addrs v) = be_digits 4 (v_free_blocks v) ++ be_digits 4 (v_free_blocks v);
  mv_rest : forall a, 0 <= a < n -> a / bs ∉ dst -> a ∉ refs_addrs refs -> a ∉ BM -> a ∉ header_addrs v -> peek d a = peek d0 a
}.

Lemma zip_functional (l : list Z) (k : bytes) a v1 v2 : NoDup l -> (a, v1) ∈ zip l k -> (a, v2) ∈ zip l k -> v1 = v2.
Proof.
  intros Hnd H1 H2. apply list_elem_of_lookup in H1 as [i Hi], H2 as [j Hj]. apply lookup_zip_with_Some in Hi as (x & y & [= <- <-] & Hx & Hy).
  apply lookup_zip_with_Some in Hj as (x & z & [= <- <-] & Hx' & Hz). rewrite (NoDup_lookup _ _ _ _ Hnd Hx Hx') in Hy. congruence.
Qed.

Lemma patching_done d addrs vals ps : patching d0 addrs vals ps -> NoDup addrs -> length addrs = length vals ->
  (forall a, a ∈ addrs -> (a, peek d a) ∈ np ps \/ (a ∉ paddrs ps /\ peek d a = peek d0 a)) -> gather d addrs = vals.
Proof.
  intros [_ _ Hnew Hrest] Hnd Hl H. apply gather_zip; [done|]. apply Forall_forall. intros [a w] Hw. cbn [fst snd]. destruct (H a (zip_elem _ _ _ _ Hw)) as [Hin|[Hout He]].
  - by apply (zip_functional addrs vals a); [|apply Hnew|].
  - destruct (Hrest a w Hw) as [Hn| ->]; [by apply np_addr in Hn|done].
Qed.

Lemma unmoved_old d : is_old d0 D d -> unmoved d.
Proof. intros [Hl H]. split; [done|]. intros a Ha Hn. apply H; [done|]. pose proof (op_block _ _ _ ms_opened). intros Hd. apply elem_of_blocks in Hd; [done|lia]. Qed.

Lemma moved_new d : is_new d0 FB M FH D payload d -> moved d.
Proof.
  intros [Hl H]. pose proof txn as Htx. pose proof (apart_facts d0 SB FB M SH FH D payload Htx) as Hap. pose proof (op_block _ _ _ ms_opened) as Hb.
  destruct Hp as [H1 H2 H3 H4 H5 H6 H7]. destruct (m_spec M [] H5) as (Pm & _ & Lm & _ & Om). destruct (fb_spec H1 st fi FB H2 H4) as (Pf & _). destruct (states H1 st fi H2) as (_ & _ & _ & Hbits).
  apply header_patches_spec in H7 as (_ & Gh & Ah & Vh). destruct system_facts as (N1 & N2 & A1 & A2).
  pose proof bm_on as Ob. pose proof (paddrs_on d0 FH Gh) as Oh. rewrite Ah in Oh. pose proof (tx_on _ _ _ _ _ _ _ _ Htx) as Od. unfold on_device in Om, Ob, Oh, Od. rewrite Forall_forall in Om, Ob, Oh, Od.
  assert (forall a, a ∈ refs_addrs refs \/ a ∈ BM \/ a ∈ header_addrs v -> a ∉ D) as XD.
  { intros a Ha Hd. apply (dst_not_system H1 a Hd), system_covers. destruct Ha as [Ha|[Ha|Ha]]; [right; right; by apply ref_in_catalog|tauto|tauto]. }
  assert (forall a, a ∈ paddrs M -> a ∈ refs_addrs refs) as XM by (intros a Ha; eapply elem_of_submseteq; [exact Ha|apply sublist_submseteq, Pm]).
  assert (forall a, a ∈ paddrs FB -> a ∈ BM) as XB by (intros a Ha; eapply elem_of_submseteq; [exact Ha|apply sublist_submseteq, Pf]).
  assert (forall a, a ∈ refs_addrs refs -> a ∉ BM /\ a ∉ header_addrs v) as XR by (intros a Ha%ref_in_catalog; split; intros Hb'; [by apply (A2 a Hb')|destruct (A1 a Hb') as [_ ?]; done]).
  assert (forall a, a ∈ BM -> a ∉ header_addrs v) as XH by (intros a Ha Hh; destruct (A1 a Hh) as [? _]; done).
  assert (forall a, 0 <= a < n -> (a, peek d a) ∈ zip D payload \/ (a, peek d a) ∈ np M \/ (a, peek d a) ∈ np FB \/ (a, peek d a) ∈ np FH \/ (a ∉ D /\ a ∉ paddrs M /\ a ∉ paddrs FB /\ a ∉ paddrs FH /\ peek d a = peek d0 a)) as Hcase.
  { intros a Ha. specialize (H a Ha). unfold new_value in H. rewrite !elem_of_app in H. tauto. }
  clear H. constructor; [done|..].
  - apply gather_zip; [apply (tx_payload _ _ _ _ _ _ _ _ Htx)|]. apply Forall_forall. intros [a w] Hw. cbn [fst snd]. pose proof (zip_elem _ _ _ _ Hw) as Ha. specialize (Hap a).
    destruct (Hcase a (Od a Ha)) as [Hc|[Hc%np_addr|[Hc%np_addr|[Hc%np_addr|Hc]]]]; [|tauto..]. eapply zip_functional; [|exact Hc|exact Hw]. apply blocks_nodup; [lia|apply NoDup_seqZ].
  - apply (patching_done d _ _ M Pm); [apply (ms_refs_apart _ _ _ _ Hs)|done|]. intros a Ha. specialize (XR a Ha).
    destruct (Hcase a (Om a Ha)) as [Hc%zip_elem|[Hc|[Hc%np_addr%XB|[Hc%np_addr|Hc]]]]; [by destruct (XD a (or_introl Ha))|by left|tauto|rewrite Ah in Hc; tauto|right; tauto].
  - assert (gather d BM = fi) as ->; [|done]. apply (patching_done d _ _ FB Pf); [done|apply Nat2Z.inj; change (py_len BM = py_len fi); rewrite <- (py_len_gather d0 BM), <- bm_gather; symmetry; apply Hbits|]. intros a Ha.
    destruct (Hcase a (Ob a Ha)) as [Hc%zip_elem|[Hc%np_addr%XM|[Hc|[Hc%np_addr|Hc]]]]; [by destruct (XD a (or_intror (or_introl Ha)))|specialize (XR a Hc); tauto|by left|rewrite Ah in Hc; by destruct (XH a Ha)|right; tauto].
  - rewrite <- Vh. apply gather_zip; [rewrite <- Ah; apply (patches_len d0 true FH Gh)|]. apply Forall_forall. intros [a w] Hw. cbn [fst snd]. pose proof (zip_elem _ _ _ _ Hw) as Ha.
    destruct (Hcase a (Oh a Ha)) as [Hc%zip_elem|[Hc%np_addr%XM|[Hc%np_addr%XB|[Hc|Hc]]]];
      [by destruct (XD a (or_intror (or_intror Ha)))|specialize (XR a Hc); tauto|by destruct (XH a Hc)| |rewrite Ah in Hc; tauto]. unfold np in Hc. rewrite Ah in Hc. by apply (zip_functional _ _ a _ _ N1 Hc).
  - intros a Ha Hd Hr Hbm Hh. assert (a ∉ D) as HD by (intros Hx; apply elem_of_blocks in Hx; [done|lia]).
    destruct (Hcase a Ha) as [Hc%zip_elem|[Hc%np_addr%XM|[Hc%np_addr%XB|[Hc%np_addr|Hc]]]]; [done..|by rewrite Ah in Hc|tauto].
Qed.
End recovery.

(** ** The move and its interruptions *)

(** A device and a journal file that power failures can leave: at any instant
    of the move, then at any instant of any number of recoveries. *)
Inductive reach : bytes -> option transaction -> Prop :=
  | reach_move fs p s r d : move_one fs v o dest d0 = (p ++ s, r) -> crash d0 p d -> reach d (journal_after None p)
  | reach_recovery d x p s r d' :
      reach d (Some x) -> recover false path (Some x) d = (p ++ s, r) -> crash d p d' -> reach d' (journal_after (Some x) p).

Definition crash_inv (d : bytes) (j : option transaction) : Prop :=
  (d = d0 /\ j = None) \/
  exists st fi SB FB M SH FH, prepared st fi SB FB M SH FH /\
    left_behind d0 SB FB M SH FH (blocks_addrs bs dst) (gather d0 (blocks_addrs bs src)) (the_txn SB FB M SH FH) d j.

Lemma hfs_reach_inv d j : reach d j -> crash_inv d j.
Proof.
  induction 1 as [fs p s r d Hrun Hc|d x p s r d' Hr IH Hrun Hc].
  - destruct (move_one_cases fs) as [(e & He)|(st & fi & SB & FB & M & SH & FH & copy & Hp & Hw & (s' & HT & _))]; rewrite Hrun in *.
    + injection He as Hnil _. apply app_eq_nil in Hnil as [-> ->]. apply crash_nil in Hc as ->. by left.
    + right. exists st, fi, SB, FB, M, SH, FH. split; [done|]. cbn [fst] in HT. rewrite <- app_assoc in HT. by eapply (move_trace_crash d0 SB FB M SH FH _ _ (txn _ _ _ _ _ _ _ Hp)).
  - destruct IH as [[_ ?]|(st & fi & SB & FB & M & SH & FH & Hp & Hleft)]; [done|]. pose proof Hleft as (stage & -> & _). rewrite (hfs_recover_run st fi SB FB M SH FH Hp stage d Hleft) in Hrun. injection Hrun as HT _.
    right. exists st, fi, SB, FB, M, SH, FH. split; [done|]. by eapply (repair_crash d0 SB FB M SH FH _ _ (txn _ _ _ _ _ _ _ Hp)).
Qed.
End sound.

(** C7. Moving a fork of an HFS+ volume is atomic under power loss.  Whatever
    bytes power failures leave, during the move and during any number of
    recoveries, either no journal is left and the volume is as before the move
    (but for the free destination) or as after it, or the journal is left and
    a recovery that runs to its end succeeds, removes it and leaves one of the
    two.  For every fork of a sound volume with its descriptors in the catalog
    file and every destination. *)
Theorem hfs_move_crash_safe path d0 v o dest d j : move_sound path d0 v o -> reach path d0 v o dest d j ->
  match j with
  | None => unmoved d0 v o dest d \/ moved d0 v o dest d
  | Some x => exists t, recover false path (Some x) d = (t, Ok tt) /\ journal_after j t = None /\
      (unmoved d0 v o dest (replay d t) \/ moved d0 v o dest (replay d t))
  end.
Proof.
  intros Hs Hr. destruct (hfs_reach_inv path d0 v o dest Hs d j Hr) as [[-> ->]|(st & fi & SB & FB & M & SH & FH & Hp & Hleft)]; [by left|].
  pose proof (fun d => unmoved_old path d0 v o dest Hs d) as Hold. pose proof (fun d => moved_new path d0 v o dest Hs st fi SB FB M SH FH Hp d) as Hnew. destruct j as [x|].
  - pose proof Hleft as (stage & -> & _). exists (repair SB FB M SH FH d stage ++ [EFsync; EJournal None]).
    split; [by apply (hfs_recover_run path d0 v o dest Hs st fi)|]. split; [by rewrite journal_after_app|]. rewrite replay_app. change (replay ?e [EFsync; EJournal None]) with e.
    destruct (repair_done d0 SB FB M SH FH _ _ (txn path d0 v o dest Hs _ _ _ _ _ _ _ Hp) _ d stage Hleft) as [H|H]; [left; by apply Hold|right; by apply Hnew].
  - destruct Hleft as [H|H]; [left; by apply Hold|right; by apply Hnew].
Qed.

(** C8. An uninterrupted move of a fork writes nothing and reports an error, or
    it completes: the destination holds the fork's data, the catalog's
    descriptors name consecutive blocks of it, in the allocation bitmap exactly
    the old blocks are free and the new ones used, both headers have their old
    free count, nothing else has changed and no journal is left. *)
Theorem hfs_move_correct path d0 v o dest t r : move_sound path d0 v o -> move_one None v o dest d0 = (t, r) ->
  (t = [] /\ exists e, r = Raise e) \/ (r = Ok tt /\ moved d0 v o dest (replay d0 t) /\ journal_after None t = None).
Proof.
  intros Hs Hrun. destruct (move_one_cases path d0 v o dest Hs None) as [(e & He)|(st & fi & SB & FB & M & SH & FH & copy & Hp & Hw & (s' & HT & Hend))]; rewrite Hrun in *.
  - left. injection He as -> ->. eauto.
  - right. destruct (Hend eq_refl) as [-> Hr]. cbn [fst snd] in *. rewrite app_nil_r in HT. subst t. pose proof (txn path d0 v o dest Hs _ _ _ _ _ _ _ Hp) as Htx. split; [done|]. split.
    + rewrite (move_trace_end d0). apply (moved_new path d0 v o dest Hs st fi SB FB M SH FH Hp). by apply (D4_new d0 SB FB M SH FH).
    + unfold move_trace. rewrite journal_after_app. unfold phase_end. rewrite !app_comm_cons, !journal_after_app. done.
Qed.

(** ** A sample volume *)

Module Sample.
(** Fourteen blocks of 512 bytes: the header in block 2, the allocation file in
    block 3, the catalog in 4 and 5, no extents file; one file in blocks 6 and
    8, in two fragments. *)
Definition fork_fields (at_ size blocks : Z) (extents : list (Z * Z)) : list (Z * bytes) :=
  [field at_ 8 size; field (at_ + 12) 4 blocks] ++
  concat (map (fun e : Z * (Z * Z) => [field (at_ + 16 + 8 * e.1) 4 e.2.1; field (at_ + 20 + 8 * e.1) 4 e.2.2]) (zip (py_range 0 8) extents)).

Definition header : bytes :=
  image_of 512 ([(0, of_string "H+"); field 2 2 4; field 16 4 77; field 40 4 512; field 44 4 14; field 48 4 4] ++
    fork_fields 112 512 1 [(3, 1)] ++ fork_fields 272 1024 2 [(4, 2)]).

Definition tree_header : bytes := image_of 512 [field 24 4 1; field 32 2 512; field 36 4 2].

Definition catalog_leaf : bytes :=
  image_of 512 ([field 8 1 255; field 10 2 1; field 510 2 14; field 508 2 272; field 14 2 8; field 16 4 2; field 20 2 1; field 22 2 65; field 24 2 2; field 32 4 16] ++
    fork_fields 112 900 2 [(6, 1); (8, 1)]).

Definition fill (x : Z) : bytes := repeat x 512.

Definition device : bytes :=
  Eval vm_compute in
  (fill 0 ++ fill 0 ++ header ++ image_of 512 [field 0 2 65164] ++ tree_header ++ catalog_leaf ++
   fill 1 ++ fill 0 ++ fill 2 ++ concat (repeat (fill 0) 3) ++ header ++ fill 0).

Definition volume : Volume :=
  Eval vm_compute in
  match (open_volume "image" true false device).2 with
  | Ok v => v
  | Raise _ => mkVolume "" false 0 [] 0 0 0 0 0 0 0 (mkForkMap 0 0 [] []) (mkForkMap 0 0 [] []) (mkForkMap 0 0 [] []) [] []
  end.

Definition fork : ForkObject :=
  Eval vm_compute in
  match (objects volume device).2 with Ok (o :: _) => o | _ => mkObject [] 0 0 0 0 [] end.

Lemma reopens : open_volume "image" true false device = ([], Ok volume).
Proof. vm_compute. reflexivity. Qed.

Lemma system : system_addrs volume = py_range 1024 1536 ++ py_range 6192 6196 ++ py_range 1536 2048 ++ py_range 2048 3072.
Proof. reflexivity. Qed.

Lemma fork_sound : move_sound "image" device volume fork.
Proof.
  constructor.
  - apply (bool_decide_unpack _). vm_compute. exact I.
  - apply reopens.
  - rewrite system. repeat (apply NoDup_app; split; [apply NoDup_seqZ|split; [intros a Ha Hb; rewrite ?elem_of_app, ?elem_of_py_range in *; lia|]]). apply NoDup_seqZ.
  - rewrite system. intros a Ha. rewrite !elem_of_app, !elem_of_py_range in Ha. change (v_block_size volume) with 512.
    assert (a / 512 ∈ [2; 3; 4; 5; 12]) as Hb; [|clear Ha; set (b := a / 512) in *; clearbody b; repeat (apply elem_of_cons in Hb as [->|Hb]; [vm_compute; discriminate|]); by apply elem_of_nil in Hb].
    pose proof (Z.div_mod a 512 ltac:(lia)). pose proof (Z.mod_pos_bound a 512 ltac:(lia)). rewrite !elem_of_cons. lia.
  - repeat (apply Forall_cons; split; [vm_compute; reflexivity|]). apply Forall_nil. done.
  - repeat (apply Forall_cons; split; [split; [vm_compute; reflexivity|]; split; [vm_compute; split; [discriminate|reflexivity]|]; split; [vm_compute; split; reflexivity|vm_compute; reflexivity]|]). apply Forall_nil. done.
  - apply (bool_decide_unpack _). vm_compute. exact I.
  - vm_compute. reflexivity.
Qed.

(** The move to blocks 9 and 10. *)
Definition run : list (effect transaction) * result unit := Eval vm_compute in move_one None volume fork 9 device.

Lemma runs : move_one None volume fork 9 device = run.
Proof. vm_compute. reflexivity. Qed.

(** The run cut behind the first of the two descriptors. *)
Definition cut : list (effect transaction) := Eval vm_compute in take 12 run.1.
Definition rest : list (effect transaction) := Eval vm_compute in drop 12 run.1.

(** The move to blocks 10 and 11, whose process is killed in front of the
    [fsync] behind the descriptors: its writes stay in the cache. *)
Definition synced : list (effect transaction) := Eval vm_compute in take 9 (move_one None volume fork 10 device).1.
Definition unsynced : list (effect transaction) := Eval vm_compute in take 4 (drop 9 (move_one None volume fork 10 device).1).
Definition journal : option transaction := Eval vm_compute in journal_after None (synced ++ unsynced).

(** The recovery that follows: descriptors, then the bitmap. *)
Definition repairing : list (effect transaction) := Eval vm_compute in take 3 (recover false "image" journal (replay device (synced ++ unsynced))).1.
Definition bitmap_write : effect transaction := Eval vm_compute in default EFsync (last repairing).
End Sample.

Lemma hfs_move_correct_witness : Sample.run.2 = Ok tt /\ moved Sample.device Sample.volume Sample.fork 9 (replay Sample.device Sample.run.1).
Proof.
  split; [vm_compute; reflexivity|].
  destruct (hfs_move_correct "image" Sample.device Sample.volume Sample.fork 9 Sample.run.1 Sample.run.2 Sample.fork_sound Sample.runs) as [(_ & e & H)|(_ & H & _)]; [vm_compute in H; discriminate H|exact H].
Defined.

Lemma hfs_move_crash_safe_witness : let d := replay Sample.device Sample.cut in
  exists x t, journal_after None Sample.cut = Some x /\ recover false "image" (Some x) d = (t, Ok tt) /\
    (unmoved Sample.device Sample.volume Sample.fork 9 (replay d t) \/ moved Sample.device Sample.volume Sample.fork 9 (replay d t)).
Proof.
  intros d. destruct (journal_after None Sample.cut) as [x|] eqn:E; [|vm_compute in E; discriminate E]. exists x.
  assert (reach "image" Sample.device Sample.volume Sample.fork 9 d (Some x)) as Hr.
  { rewrite <- E. apply (reach_move _ _ _ _ _ None Sample.cut Sample.rest (Ok tt)); [rewrite Sample.runs; vm_compute; reflexivity|].
    apply crash_replay. unfold Sample.cut. repeat (apply Forall_cons; split; [vm_compute; try exact I; split; discriminate|]). apply Forall_nil. done. }
  destruct (hfs_move_crash_safe "image" Sample.device Sample.volume Sample.fork 9 d (Some x) Sample.fork_sound Hr) as (t & H1 & _ & H2). exists t. split; [reflexivity|]. split; [exact H1|exact H2].
Defined.

(** Recovery does not order its writes: it writes the descriptors and then
    the final bitmap with no [fsync] between them.  When the process of a move
    is killed with the descriptors still in the cache, and the power fails in
    the recovery that completes the move, the bitmap may reach the disk and the
    descriptors not.  The next recovery rolls back, restores only the bitmap
    bytes of the destination, and reports success: the file still lies in block
    6, and block 6 is free. *)
Theorem hfs_recovery_frees_used_block :
  let d := replay (replay Sample.device Sample.synced) [Sample.bitmap_write] in
  (exists s, move_one None Sample.volume Sample.fork 10 Sample.device = (Sample.synced ++ Sample.unsynced ++ s, Ok tt)) /\
  (exists s, recover false "image" Sample.journal (replay Sample.device (Sample.synced ++ Sample.unsynced)) = (Sample.repairing ++ s, Ok tt)) /\
  crash Sample.device (Sample.synced ++ Sample.unsynced ++ Sample.repairing) d /\
  exists t v, recover false "image" Sample.journal d = (t, Ok tt) /\ open_volume "image" true false (replay d t) = ([], Ok v) /\
    bit v 6 = Ok false /\ exists o l, objects v (replay d t) = ([], Ok (o :: l)) /\ source_blocks o = [6; 8].
Proof.
  intros d. split; [eexists; vm_compute; reflexivity|]. split; [eexists; vm_compute; reflexivity|]. split.
  - split; [vm_compute; reflexivity|]. exists Sample.synced, (Sample.unsynced ++ Sample.repairing). split; [reflexivity|]. split; [right; exists (removelast Sample.synced); vm_compute; reflexivity|].
    split; [repeat (apply Forall_cons; split; [by intros []|]); apply Forall_nil; done|]. intros a w Ha Hw. unfold d in Hw. apply replay_cases in Hw; [|apply Forall_singleton; vm_compute; split; discriminate|done].
    destruct Hw as [Hw|(e & He & Hput)]; [by left|right]. apply list_elem_of_singleton in He as ->. exists Sample.bitmap_write. split; [|done]. vm_compute. repeat constructor.
  - eexists _, _. split; [vm_compute; reflexivity|]. split; [vm_compute; reflexivity|]. split; [vm_compute; reflexivity|]. eexists _, _. split; vm_compute; reflexivity.
Qed.
