(* ===== verification/HfsMaps.v ===== *)
(** * The HFS and HFS+ map backends

    Models [src/gui/backends/hfs.py] and [src/gui/backends/hfsplus.py]: the
    allocation bitmaps, whose bits are numbered from the most significant one,
    the forks, the leaf records of the catalog and the extents file, and the
    maps.  The scanner program that counts the files of a classic volume is a
    parameter. *)

From S2P Require Import Prelude Text Bytes Ranges.

Local Open Scope string_scope.
Local Open Scope list_scope.
Local Open Scope Z_scope.

(** [int(f"{value:08b}"[::-1], 2)]: the byte's bits in the other order. *)
Definition mirror_byte (value : Z) : Z :=
  fold_left (fun acc i => 2 * acc + Z.b2z (Z.testbit value i)) (py_range 0 8) 0.

(** [sum(1 for block in blocks if start <= block <= end)] over a set. *)
Definition count_between (blocks : list Z) (c : cell) : Z :=
  py_len (List.filter (fun b => (c_start c <=? b) && (b <=? c_end c)) (remove_dups blocks)).

(** ** Classic HFS *)

(** What the scanner reports: a count it leaves out is [None], and a list of
    extents that is not a list of pairs of numbers an error. *)
Record hfs_summary := mkSummary {
  sm_files : option Z; sm_directories : option Z; sm_fragmented_files : option Z; sm_fragmented_directories : option Z;
  sm_fragmented_extents : result (list (Z * Z))
}.

(** Files, directories, fragmented files and fragmented directories. *)
Abbreviation tallies := (Z * Z * Z * Z)%type.

Definition hfs_probe (opened : result reader) : result bool :=
  r ← opened;
  magic ← reader_read r 1024 2;
  Ok (bool_decide (magic = of_string "BD")).

(** The counts are stored in front of the extents, and stay when those are
    malformed. *)
Definition hfs_overlay (m : map_result) (summary : hfs_summary) (file_count folder_count : Z) : result (map_result * tallies) :=
  let counts := (default file_count (sm_files summary), default (folder_count + 1) (sm_directories summary),
                 default 0 (sm_fragmented_files summary), default 0 (sm_fragmented_directories summary)) in
  match sm_fragmented_extents summary with
  | Ok extents =>
      let fragmented := concat (map (fun e : Z * Z => py_range e.1 (e.1 + e.2)) extents) in
      Ok (with_cells m (map (fun c => set_field FFragmented (count_between fragmented c) c) (mr_cells m)) (mr_details m), counts)
  | Raise e => if decide (exn_kind e = ValueError) then Ok (m, counts) else Raise e
  end.

(** [scanner] is [None] when no scanner is installed. *)
Definition hfs_map (scanner : option (result hfs_summary)) (opened : result reader) (cells : Z) : result (map_result * option tallies) :=
  r ← opened;
  mdb ← reader_read r 1024 162;
  check negb (bool_decide (py_slice mdb 0 2 = of_string "BD")) # BackendError "not a classic HFS volume";
  bitmap_sector ← u16be mdb 14;
  total_blocks ← u16be mdb 18;
  block_size ← u32be mdb 20;
  free_blocks ← u16be mdb 34;
  file_count ← (if 88 <=? py_len mdb then u32be mdb 84 else u16be mdb 12);
  folder_count ← (if 92 <=? py_len mdb then u32be mdb 88 else Ok 0);
  check (total_blocks =? 0) || (block_size <? 512) || negb (Z.land block_size 1 =? 0) # BackendError "invalid HFS allocation geometry";
  raw ← reader_read r (bitmap_sector * 512) ((total_blocks + 7) / 8);
  m ← aggregate_bitmap (map mirror_byte raw) total_blocks cells block_size "hfs" 0 [("header_free_blocks", JInt free_blocks)];
  let m := with_cells m (mr_cells m) (mr_details m ++ [("file_count", JInt file_count); ("folder_count", JInt folder_count)]) in
  match scanner with
  | None => Ok (m, None)
  | Some (Ok summary) => '(m, counts) ← hfs_overlay m summary file_count folder_count; Ok (m, Some counts)
  | Some (Raise e) => if decide (exn_kind e ∈ [OSError; SubprocessError; ValueError]) then Ok (m, None) else Raise e
  end.

(** ** HFS+ forks *)

Record Extent := mkExtent { e_start : Z; e_count : Z }.

#[global] Instance Extent_eq_dec : EqDecision Extent.
Proof. solve_decision. Defined.

Record ForkReader := mkForkReader { fr_logical_size : Z; fr_segments : list (Z * Z * Z) }.

Fixpoint fork_segments (block_size logical : Z) (extents : list Extent) : list (Z * Z * Z) :=
  match extents with
  | [] => []
  | e :: rest =>
      let length := e_count e * block_size in
      (logical, logical + length, e_start e * block_size) :: fork_segments block_size (logical + length) rest
  end.

Definition in_use (extents : list Extent) : list Extent := List.filter (fun e => negb (e_count e =? 0)) extents.

Definition ForkReader_init (block_size : Z) (extents : list Extent) (logical_size : Z) : ForkReader :=
  mkForkReader logical_size (fork_segments block_size 0 (in_use extents)).

Fixpoint fork_read_loop (r : reader) (segments : list (Z * Z * Z)) (pos remaining : Z) (out : bytes) : result bytes :=
  match segments with
  | [] => raise BackendError "HFS+ fork extents do not cover the requested data"
  | (lo, hi, physical) :: rest =>
      if (hi <=? pos) || ((pos <? lo) && (pos + remaining <=? lo)) then fork_read_loop r rest pos remaining out else
      check pos <? lo # BackendError "HFS+ fork contains an unrepresented extent";
      let take := Z.min remaining (hi - pos) in
      data ← reader_read r (physical + (pos - lo)) take;
      if remaining - take =? 0 then Ok (out ++ data) else fork_read_loop r rest (pos + take) (remaining - take) (out ++ data)
  end.

Definition fork_read (r : reader) (f : ForkReader) (offset length : Z) : result bytes :=
  check (offset <? 0) || (length <? 0) || (fr_logical_size f <? offset + length) # BackendError "HFS+ fork read is outside the logical file";
  fork_read_loop r (fr_segments f) offset length [].

Definition read_extent (data : bytes) (offset : Z) : result Extent :=
  start ← u32be data offset;
  count ← u32be data (offset + 4);
  Ok (mkExtent start count).

Definition _fork (data : bytes) (offset : Z) : result (Z * Z * list Extent) :=
  logical_size ← u64be data offset;
  total_blocks ← u32be data (offset + 12);
  extents ← mapM_result (fun i => read_extent data (offset + 16 + i * 8)) (py_range 0 8);
  Ok (logical_size, total_blocks, extents).

(** ** Leaf records *)

Definition offset_table (node : bytes) (count : Z) : result (list Z) :=
  mapM_result (fun i => u16be node (py_len node - 2 * (i + 1))) (py_range 0 (count + 1)).

Definition _record_offsets (node : bytes) (count : Z) : result (list Z) :=
  values ← offset_table node count;
  let starts := py_sorted Z.leb (remove_dups (py_slice values 0 (-1))) in
  Ok (List.filter (fun v => (14 <=? v) && (v <? py_len node)) starts).

Definition least (l : list Z) (d : Z) : Z := match l with [] => d | x :: rest => fold_left Z.min rest x end.

Fixpoint leaf_records (node : bytes) (table : list Z) (count : Z) (starts : list Z) : list bytes :=
  match starts with
  | [] => []
  | start :: rest =>
      let end_ := match rest with
                  | next :: _ => next
                  | [] => least (List.filter (fun v => start <? v) table) (py_len node - 2 * (count + 1))
                  end in
      (if start <? end_ then [py_slice node start end_] else []) ++ leaf_records node table count rest
  end.

Section walk.
Context {A : Type} (r : reader) (fork : ForkReader) (body : A -> bytes -> result A).

(** The leaf chain; [body] is the loop over the generator.  A node is visited
    once and its number is below [total_nodes]. *)
Fixpoint walk_loop (fuel : nat) (node_size total_nodes node_number : Z) (seen : list Z) (s : A) : result A :=
  if node_number =? 0 then Ok s else
  match fuel with
  | O => raise OutOfFuel "_walk_leaf_records"
  | S fuel' =>
      check bool_decide (node_number ∈ seen) || (total_nodes <=? node_number) # BackendError "HFS+ B-tree leaf chain is cyclic or out of range";
      node ← fork_read r fork (node_number * node_size) node_size;
      next_node ← u32be node 0;
      kind ← py_get node 8;
      count ← u16be node 10;
      check negb (kind =? 255) # BackendError "HFS+ leaf chain points to a non-leaf node";
      starts ← _record_offsets node count;
      table ← offset_table node count;
      s ← foldM body s (leaf_records node table count starts);
      walk_loop fuel' node_size total_nodes next_node (node_number :: seen) s
  end.

Definition _walk_leaf_records (s : A) : result A :=
  header_prefix ← fork_read r fork 0 (Z.min (fr_logical_size fork) 512);
  check py_len header_prefix <? 40 # BackendError "HFS+ B-tree header is truncated";
  node_size ← u16be header_prefix 32;
  first_leaf ← u32be header_prefix 24;
  total_nodes ← u32be header_prefix 36;
  check (node_size <? 512) || (65536 <? node_size) || negb (Z.land node_size (node_size - 1) =? 0) # BackendError "invalid HFS+ B-tree node size";
  walk_loop (S (Z.to_nat total_nodes)) node_size total_nodes first_leaf [] s.
End walk.

(** Where the data of a record starts, behind its key. *)
Definition data_offset (key_len : Z) : Z := let o := 2 + key_len in if Z.odd o then o + 1 else o.

(** ** The extents file *)

Definition _parse_extent_record (record : bytes) : result (option ((Z * Z * Z) * list Extent)) :=
  if py_len record <? 12 then Ok None else
  key_len ← u16be record 0;
  let data_off := data_offset key_len in
  if (key_len <? 10) || (py_len record <? data_off + 64) then Ok None else
  fork_type ← py_get record 2;
  file_id ← u32be record 4;
  start_block ← u32be record 8;
  extents ← mapM_result (fun i => read_extent record (data_off + i * 8)) (py_range 0 8);
  Ok (Some ((file_id, fork_type, start_block), in_use extents)).

Abbreviation part := (Z * list Extent)%type.
Abbreviation overflow := (list ((Z * Z) * list Extent)).

Definition overflow_record (grouped : list ((Z * Z) * list part)) (raw : bytes) : result (list ((Z * Z) * list part)) :=
  parsed ← _parse_extent_record raw;
  match parsed with
  | None => Ok grouped
  | Some ((file_id, fork_type, start_block), values) =>
      let key := (file_id, fork_type) in
      Ok (dict_set key (default [] (dict_get key grouped) ++ [(start_block, values)]) grouped)
  end.

(** [sorted(parts)]: the lists of parts with the same start block are compared
    next, and two different extents have no order. *)
Definition prefix_comparable (a b : list Extent) : bool :=
  bool_decide (a = take (length a) b) || bool_decide (b = take (length b) a).

Fixpoint unordered (parts : list part) : bool :=
  match parts with
  | [] => false
  | (start, values) :: rest => existsb (fun p : part => (p.1 =? start) && negb (prefix_comparable p.2 values)) rest || unordered rest
  end.

Definition part_leb (a b : part) : bool := (a.1 <? b.1) || ((a.1 =? b.1) && (py_len a.2 <=? py_len b.2)).

Definition sort_parts (parts : list part) : result (list part) :=
  check unordered parts # TypeError "'<' not supported between instances of 'Extent' and 'Extent'";
  Ok (py_sorted part_leb parts).

Definition total_count (extents : list Extent) : Z := zsum (map e_count extents).

Definition _overflow_map (r : reader) (block_size : Z) (fork : Z * Z * list Extent) : result overflow :=
  let '(logical_size, total_blocks, extents) := fork in
  check total_count extents <? total_blocks # BackendError "HFS+ extents-overflow file itself uses overflow extents";
  if logical_size =? 0 then Ok [] else
  grouped ← _walk_leaf_records r (ForkReader_init block_size extents logical_size) overflow_record [];
  mapM_result (fun item => parts ← sort_parts item.2; Ok (item.1, concat (map snd parts))) grouped.

(** ** The catalog *)

Definition _fork_extents (record : bytes) (offset file_id fork_type : Z) (o : overflow) : result (list Extent) :=
  '(logical, total_blocks, inline) ← _fork record offset;
  let values := in_use inline in
  let values := if total_count values <? total_blocks then values ++ default [] (dict_get (file_id, fork_type) o) else values in
  check (total_count values <? total_blocks) && negb (logical =? 0) # BackendError "HFS+ file has unresolved overflow extents";
  Ok values.

Fixpoint broken (values : list Extent) : bool :=
  match values with
  | a :: ((b :: _) as rest) => negb (e_start a + e_count a =? e_start b) || broken rest
  | _ => false
  end.

Definition fork_fragmented (values : list Extent) : bool := broken (in_use values).

Definition extent_range (e : Extent) : list Z := py_range (e_start e) (e_start e + e_count e).

Record summary := mkCatalog { s_files : Z; s_directories : Z; s_fragmented_files : Z; s_fragmented_directories : Z; s_fragment_blocks : list Z }.

Definition catalog_record (o : overflow) (s : summary) (raw : bytes) : result summary :=
  if py_len raw <? 4 then Ok s else
  key_len ← u16be raw 0;
  let data_off := data_offset key_len in
  if py_len raw <? data_off + 2 then Ok s else
  record_type ← u16be raw data_off;
  if record_type =? 1 then Ok (mkCatalog (s_files s) (s_directories s + 1) (s_fragmented_files s) (s_fragmented_directories s) (s_fragment_blocks s))
  else if (record_type =? 2) && (data_off + 248 <=? py_len raw) then
    file_id ← u32be raw (data_off + 8);
    data_extents ← _fork_extents raw (data_off + 88) file_id 0 o;
    resource_extents ← _fork_extents raw (data_off + 168) file_id 255 o;
    let data_fragmented := fork_fragmented data_extents in
    let resource_fragmented := fork_fragmented resource_extents in
    Ok (mkCatalog (s_files s + 1) (s_directories s)
          (if data_fragmented || resource_fragmented then s_fragmented_files s + 1 else s_fragmented_files s) (s_fragmented_directories s)
          (s_fragment_blocks s ++ (if data_fragmented then concat (map extent_range data_extents) else [])
                               ++ (if resource_fragmented then concat (map extent_range resource_extents) else [])))
  else Ok s.

Definition _catalog_summary (r : reader) (block_size : Z) (catalog : Z * Z * list Extent) (o : overflow) : result (summary * list Z) :=
  let '(logical_size, total_blocks, extents) := catalog in
  check total_count extents <? total_blocks # BackendError "HFS+ catalog file itself uses overflow extents";
  s ← _walk_leaf_records r (ForkReader_init block_size extents logical_size) (catalog_record o) (mkCatalog 0 0 0 0 []);
  Ok (s, concat (map extent_range extents)).

(** ** The HFS+ backend *)

Definition signed (signature : bytes) : bool := bool_decide (signature = of_string "H+") || bool_decide (signature = of_string "HX").

Definition hfsplus_probe (opened : result reader) : result bool :=
  r ← opened;
  magic ← reader_read r 1024 2;
  Ok (signed magic).

(** [try: _catalog_summary(...)] with [except BackendError]: the last component
    is [catalog_complete]. *)
Definition catalog_or_counts (summary_ : result (summary * list Z)) (file_count folder_count : Z) : result (summary * list Z * bool) :=
  match summary_ with
  | Ok (s, dir_blocks) => Ok (s, dir_blocks, true)
  | Raise e => if decide (exn_kind e = BackendError) then Ok (mkCatalog file_count folder_count 0 0 [], [], false) else Raise e
  end.

Definition hfsplus_map (opened : result reader) (cells : Z) : result (map_result * option tallies) :=
  r ← opened;
  header ← reader_read r 1024 512;
  let signature := py_slice header 0 2 in
  check negb (signed signature) # BackendError "not an HFS+ or HFSX volume";
  block_size ← u32be header 40;
  total_blocks ← u32be header 44;
  free_blocks ← u32be header 48;
  file_count ← u32be header 32;
  folder_count ← u32be header 36;
  check (block_size <? 512) || negb (Z.land block_size (block_size - 1) =? 0) || (total_blocks =? 0) # BackendError "invalid HFS+ allocation geometry";
  allocation ← _fork header 112;
  extents_overflow ← _fork header 192;
  catalog ← _fork header 272;
  let '(alloc_logical, alloc_blocks, alloc_extents) := allocation in
  check total_count alloc_extents <? alloc_blocks # BackendError "HFS+ allocation file uses unsupported overflow extents";
  raw ← fork_read r (ForkReader_init block_size alloc_extents alloc_logical) 0 ((total_blocks + 7) / 8);
  o ← _overflow_map r block_size extents_overflow;
  '(s, dir_blocks, catalog_complete) ← catalog_or_counts (_catalog_summary r block_size catalog o) file_count folder_count;
  version ← u16be header 2;
  attributes ← u32be header 4;
  m ← aggregate_bitmap (map mirror_byte raw) total_blocks cells block_size (if bool_decide (signature = of_string "HX") then "hfsx" else "hfsplus") 0
        [("volume_version", JInt version); ("journaled", JBool (negb (Z.land attributes 8192 =? 0)))];
  let overlay c := set_field FDirectory (count_between dir_blocks c) (set_field FFragmented (count_between (s_fragment_blocks s) c) c) in
  let counted := if (catalog_complete : bool) then [] else [("file_count", JInt (s_files s)); ("folder_count", JInt (s_directories s))] in
  Ok (with_cells m (map overlay (mr_cells m)) (mr_details m ++ counted ++ [("header_free_blocks", JInt free_blocks)]),
      if (catalog_complete : bool) then Some (s_files s, s_directories s + 1, s_fragmented_files s, s_fragmented_directories s) else None).
