(* ===== verification/HfsFacts.v ===== *)
(** * The HFS+ map agrees with the HFS+ engine

    [HfsMaps] and [Apple] parse the same volume with code of their own.  On a
    device both accept, a block is used in the map exactly when the engine
    takes it for used, so the map never shows free space the engine would not
    use and the engine never overwrites a block the map shows as used. *)

From S2P Require Import Prelude Text Bytes Ranges RangesFacts Bitmap AggregateFacts ReaderFacts Device Addresses Apple AppleTxn AppleFacts AppleMove HfsMaps.

Local Open Scope string_scope.
Local Open Scope list_scope.
Local Open Scope Z_scope.

(** ** Bits in the other order *)

Lemma mirror_bits v i : 0 <= i < 8 -> Z.testbit (mirror_byte v) i = Z.testbit v (7 - i).
Proof.
  intros Hi. unfold mirror_byte. change (py_range 0 8) with [0; 1; 2; 3; 4; 5; 6; 7]. cbn [fold_left].
  assert (forall acc (b : bool) k, 0 <= k -> Z.testbit (2 * acc + Z.b2z b) k = if k =? 0 then b else Z.testbit acc (k - 1)) as Hstep.
  { intros acc b k Hk. rewrite Z.add_comm. destruct (Z.eqb_spec k 0) as [->|Hne]; [by rewrite Z.add_b2z_double_bit0|].
    replace k with (Z.succ (k - 1)) at 1 by lia. rewrite Z.add_comm, Z.testbit_succ_r by lia. done. }
  assert (i = 0 \/ i = 1 \/ i = 2 \/ i = 3 \/ i = 4 \/ i = 5 \/ i = 6 \/ i = 7) as Hc by lia.
  destruct Hc as [->|[->|[->|[->|[->|[->|[->| ->]]]]]]];
    repeat (rewrite Hstep by lia; match goal with |- context [if ?x =? 0 then _ else _] => let y := eval vm_compute in (x =? 0) in change (x =? 0) with y; cbv iota end); reflexivity.
Qed.

Lemma mirror_byte_ok v : is_byte (mirror_byte v).
Proof.
  unfold mirror_byte. change (py_range 0 8) with [0; 1; 2; 3; 4; 5; 6; 7]. cbn [fold_left]. unfold is_byte.
  repeat match goal with |- context [Z.b2z ?b] => let H := fresh in assert (0 <= Z.b2z b <= 1) as H by (by destruct b); revert H; generalize (Z.b2z b); intros ? ? end. lia.
Qed.

Lemma bit_mirrored raw i : 0 <= i -> bit_at (map mirror_byte raw) i = msb_at raw i.
Proof.
  intros Hi. unfold bit_at, msb_at. change (map mirror_byte) with (fmap (M:=list) mirror_byte). rewrite list_lookup_fmap. pose proof (Z.mod_pos_bound i 8 ltac:(lia)).
  destruct (raw !! Z.to_nat (i / 8)) as [v|]; [|done]. cbn [fmap option_fmap option_map]. by rewrite mirror_bits by lia.
Qed.

(** ** Reading a fork *)

Lemma pieces_loop_grows segs : forall pos left_ out res l, pieces_loop segs pos left_ out = Ok (res, l) -> exists ps, res = out ++ ps.
Proof.
  induction segs as [|[[lo hi] physical] segs IH]; intros pos left_ out res l H; cbn [pieces_loop] in H; [injection H as <- <-; exists []; by rewrite app_nil_r|].
  destruct (left_ =? 0); [injection H as <- <-; exists []; by rewrite app_nil_r|]. destruct (hi <=? pos); [by eapply IH|]. destruct (pos <? lo); [done|]. cbv zeta in H.
  apply IH in H as (ps & ->). eexists. by rewrite <- app_assoc.
Qed.

Lemma fork_read_pieces r segs : forall pos rem out acc ps, 0 < rem -> pieces_loop segs pos rem acc = Ok (acc ++ ps, 0) ->
  fork_read_loop r segs pos rem out = foldM (fun out (p : Z * Z) => data ← reader_read r p.1 p.2; Ok (out ++ data)) out ps.
Proof.
  induction segs as [|[[lo hi] physical] segs IH]; intros pos rem out acc ps Hrem H; cbn [pieces_loop fork_read_loop] in *; [injection H; lia|].
  rewrite (proj2 (Z.eqb_neq rem 0)) in H by lia. destruct (Z.leb_spec hi pos); cbn [orb]; [by eapply IH|].
  destruct (Z.ltb_spec pos lo); [done|]. cbn [andb]. set (take := Z.min rem (hi - pos)) in *. cbv zeta in H. destruct (Z.eqb_spec (rem - take) 0) as [Hz|Hz].
  - assert (ps = [(physical + (pos - lo), take)]) as ->.
    { rewrite Hz in H. destruct segs as [|[[? ?] ?] ?]; cbn in H; injection H as H; by apply app_inv_head in H. }
    cbn [foldM fst snd]. by destruct (reader_read r _ take).
  - assert (exists ps', ps = (physical + (pos - lo), take) :: ps' /\ pieces_loop segs (pos + take) (rem - take) (acc ++ [(physical + (pos - lo), take)]) = Ok ((acc ++ [(physical + (pos - lo), take)]) ++ ps', 0)) as (ps' & -> & H').
    { destruct (pieces_loop_grows _ _ _ _ _ _ H) as (ps' & E). exists ps'. rewrite <- E. split; [|done]. rewrite <- app_assoc in E. by apply app_inv_head in E. }
    cbn [foldM fst snd]. destruct (reader_read r _ take); [|done]. cbn [mbind result_bind]. apply (IH (pos + take) (rem - take) (out ++ a) (acc ++ [(physical + (pos - lo), take)]) ps'); [unfold take in *; lia|done].
Qed.

Lemma read_pieces_gather d size ps : forall out, Forall (fun p => 0 <= p.2 /\ 0 <= p.1) ps -> on_device (py_len d) (segment_addrs ps) ->
  foldM (fun out (p : Z * Z) => data ← reader_read (mkReader d size) p.1 p.2; Ok (out ++ data)) out ps = Ok (out ++ gather d (segment_addrs ps)).
Proof.
  induction ps as [|[p k] ps IH]; intros out Hs Hon; cbn [foldM]; [by rewrite app_nil_r|]. apply Forall_cons in Hs as [[Hk Hp] Hs]. cbn [fst snd] in *.
  assert (reader_read (mkReader d size) p k = Ok (gather d (py_range p (p + k)))) as ->.
  { unfold reader_read, dev_read. cbn [reader_dev]. rewrite (proj2 (Z.ltb_ge p 0)), (proj2 (Z.ltb_ge k 0)) by lia. cbn [orb]. destruct (Z.eqb_spec k 0) as [->|Hne]; [by rewrite Z.add_0_r, py_range_nil by lia|].
    destruct (on_device_segment _ _ _ _ Hon ltac:(lia)) as [_ Hend]. rewrite (proj2 (Z.leb_le _ _)) by lia. by rewrite gather_range by lia. }
  cbn [mbind result_bind]. unfold on_device, segment_addrs in *. cbn [map concat fst snd] in *. apply Forall_app in Hon as [_ Hon]. rewrite IH by done. by rewrite gather_app, app_assoc.
Qed.

(** ** The two parsers *)

Definition engine_extent (e : HfsMaps.Extent) : Apple.Extent := Apple.mkExtent (HfsMaps.e_start e) (HfsMaps.e_count e).

Lemma mapM_result_map {A B C} (g : B -> C) (f : A -> result B) (h : A -> result C) l k :
  (forall x, h x = (b ← f x; Ok (g b))) -> mapM_result f l = Ok k -> mapM_result h l = Ok (map g k).
Proof.
  intros Hh. revert k. induction l as [|x l IH]; intros k H; cbn [mapM_result] in *; [by injection H as <-|]. apply bind_ok in H as (b & Hb & H). apply bind_ok in H as (bs & Hbs & H). injection H as <-.
  rewrite Hh, Hb. cbn [mbind result_bind]. by rewrite (IH bs Hbs).
Qed.

Lemma fork_parsed h o ls tb es : _fork h o = Ok (ls, tb, es) -> parse_fork h o = Ok (ls, tb, map engine_extent es).
Proof.
  unfold _fork, parse_fork, be64, be32. intros H. apply bind_ok in H as (a & Ha & H). apply bind_ok in H as (b & Hb & H). apply bind_ok in H as (c & Hc & H). injection H as <- <- <-.
  rewrite Ha. cbn [mbind result_bind]. rewrite Hb. cbn [mbind result_bind]. rewrite (mapM_result_map engine_extent _ (fun i => parse_extent h (o + 16 + i * 8)) _ _) with (2 := Hc); [done|].
  intros i. unfold parse_extent, read_extent, be32. destruct (u32be h (o + 16 + i * 8)); [|done]. cbn [mbind result_bind]. by destruct (u32be h (o + 16 + i * 8 + 4)).
Qed.

Lemma segments_agree bs es : forall l, fork_segments bs l es = segments_from bs l (map engine_extent es).
Proof. induction es as [|e es IH]; intros l; [done|]. cbn [fork_segments map segments_from]. by rewrite IH. Qed.

Lemma in_use_agree es : map engine_extent (in_use es) = List.filter (fun e => negb (Apple.e_count e =? 0)) (map engine_extent es).
Proof. unfold in_use. induction es as [|e es IH]; [done|]. cbn [map List.filter]. cbn. by destruct (negb (HfsMaps.e_count e =? 0)); cbn; rewrite IH. Qed.

(** What the engine has read of the header and of the bitmap. *)
Record engine_reads (d : bytes) (v : Volume) (header : bytes) (allocation : Z * Z * list Apple.Extent) : Prop := mkEngineReads {
  er_header : header = gather d (py_range 1024 1536);
  er_device : 1536 <= py_len d;
  er_block_size : u32be header 40 = Ok (v_block_size v);
  er_total_blocks : u32be header 44 = Ok (v_total_blocks v);
  er_geometry : 512 <= v_block_size v /\ 1 <= v_total_blocks v;
  er_allocation : parse_fork header 112 = Ok allocation;
  er_fork : ForkMap_init (v_block_size v) allocation = Ok (v_allocation_fork v);
  er_fork_ok : fork_ok (v_block_size v) (v_allocation_fork v);
  er_bitmap : exists t, Apple.fork_read (v_allocation_fork v) 0 ((v_total_blocks v + 7) / 8) d = (t, Ok (v_bitmap v))
}.

Lemma open_reads path w allow d t v : wf_bytes d -> open_volume path w allow d = (t, Ok v) -> exists header allocation, engine_reads d v header allocation.
Proof.
  intros Hw H. unfold open_volume in H. apply pbind_inv in H as (u1 & size & u2 & R0 & H & ->). injection R0 as <- <-. cbn [replay fold_left] in H.
  apply pbind_inv in H as (u3 & header & u4 & R0 & H & ->). apply volume_read_inv in R0 as (-> & Eh & _ & Hsz & Hhl); [|lia]. cbn [replay fold_left] in H. specialize (Hsz ltac:(lia)).
  assert (wf_bytes header) as Hwh by (rewrite Eh; by apply wf_gather).
  destruct (_ && _) eqn:C0 in H; [done|]. pure_step H version R1. pure_step H attributes R2. pure_step H bs R3. pure_step H tb R4. pure_step H free R5. pure_step H create R6. pure_step H wc R7.
  destruct (_ || _) eqn:C1 in H; [done|]. destruct (_ || _) eqn:C2 in H; [done|]. destruct (_ && _) eqn:C3 in H; [done|].
  pure_step H allocation F1. pure_step H extents F2. pure_step H catalog F3. pure_step H af M1. pure_step H ef M2. pure_step H cf M3.
  destruct (_ <? _) eqn:C4 in H; [done|]. apply pbind_inv in H as (u5 & bitmap & u6 & B & H & ->). apply pbind_inv in H as (u7 & ov & u8 & O & H & ->). apply pret_inv in H as [-> <-].
  assert (512 <= bs) as Hbs by (bool_to_prop; lia). exists header, allocation.
  assert (0 <= tb) as Htb by (by eapply be32_nonneg).
  split; cbn; try done; [bool_to_prop; lia| |by eexists].
  destruct allocation as [[? ?] ?]. eapply (fork_init_ok bs); [lia|by eapply parse_fork_nonneg|exact M1].
Qed.

(** The bitmap the map reads is the one the engine holds. *)
Lemma bitmap_reads d size v header allocation ls tb es : engine_reads d v header allocation -> _fork header 112 = Ok (ls, tb, es) ->
  fork_read (mkReader d size) (ForkReader_init (v_block_size v) es ls) 0 ((v_total_blocks v + 7) / 8) = Ok (v_bitmap v).
Proof.
  intros [Eh Hd _ _ [Hbs Htb] Ha Hf Hok [t Hb]] Hfork. apply fork_parsed in Hfork. rewrite Ha in Hfork. injection Hfork as ->. set (n := (v_total_blocks v + 7) / 8) in *.
  assert (0 < n) as Hn by (apply Z.div_str_pos; lia).
  unfold ForkMap_init in Hf. destruct (_ <? _) in Hf; [done|]. injection Hf as Ef. rewrite <- in_use_agree in Ef.
  unfold Apple.fork_read in Hb. apply pbind_inv in Hb as (t1 & ps & t2 & H1 & H2 & ->). apply lift_inv in H1 as [-> Hps]. cbn [replay fold_left] in H2.
  destruct (pieces_spec _ _ _ _ _ Hok Hps) as (_ & _ & Hls & _ & _ & Hpos & _). destruct (read_pieces_inv _ _ _ _ _ Hpos H2) as [-> Hon]. rewrite read_pieces_run in H2 by done. injection H2 as <-.
  unfold fork_read, ForkReader_init. cbn [fr_logical_size fr_segments]. rewrite <- Ef in Hls, Hps. cbn [f_logical_size] in Hls. rewrite !(proj2 (Z.ltb_ge _ _)) by lia. cbn [orb].
  unfold pieces in Hps. cbn [f_logical_size f_segments] in Hps. rewrite !(proj2 (Z.ltb_ge _ _)) in Hps by lia. cbn [orb] in Hps. rewrite <- segments_agree in Hps.
  apply bind_ok in Hps as ([out left_] & Hps & Hz). destruct (negb _) eqn:E in Hz; [done|]. bool_to_prop. injection Hz as <-. subst left_.
  rewrite (fork_read_pieces _ _ _ _ _ [] out Hn Hps). by rewrite read_pieces_gather.
Qed.

Lemma map_reads d size v header allocation cells m counts : engine_reads d v header allocation -> hfsplus_map (Ok (mkReader d size)) cells = Ok (m, counts) ->
  exists name dets base, aggregate_bitmap (map mirror_byte (v_bitmap v)) (v_total_blocks v) cells (v_block_size v) name 0 dets = Ok base /\ Forall2 same_counts (mr_cells base) (mr_cells m).
Proof.
  intros Her H. pose proof Her as [Eh Hd Rbs Rtb _ _ _ _ _]. unfold hfsplus_map in H. cbn [mbind result_bind] in H.
  assert (reader_read (mkReader d size) 1024 512 = Ok header) as Hh.
  { unfold reader_read, dev_read. cbn [reader_dev]. rewrite !(proj2 (Z.ltb_ge _ 0)) by lia. cbn [orb]. rewrite (proj2 (Z.eqb_neq 512 0)) by lia. rewrite (proj2 (Z.leb_le _ _)) by lia. by rewrite Eh, gather_range by lia. }
  rewrite Hh in H. cbn [mbind result_bind] in H. destruct (negb _) in H; [done|]. rewrite Rbs, Rtb in H. cbn [mbind result_bind] in H.
  apply bind_ok in H as (free & _ & H). apply bind_ok in H as (files & _ & H). apply bind_ok in H as (folders & _ & H). destruct (_ || _) in H; [done|].
  apply bind_ok in H as ([[ls tb] es] & Hfork & H). apply bind_ok in H as (eo & _ & H). apply bind_ok in H as (cat & _ & H). destruct (_ <? _) in H; [done|].
  rewrite (bitmap_reads d size v header allocation ls tb es Her Hfork) in H. cbn [mbind result_bind] in H. apply bind_ok in H as (o & _ & H). apply bind_ok in H as ([[s dirs] complete] & _ & H).
  apply bind_ok in H as (version & _ & H). apply bind_ok in H as (attributes & _ & H). apply bind_ok in H as (base & Hagg & H). injection H as <- _.
  eexists _, _, base. split; [exact Hagg|]. by apply map_cells_same.
Qed.

(** Whether the engine takes a block for used, or for free. *)
Definition engine_used (v : Volume) (x : Z) : bool := bool_decide (bit v x = Ok true).
Definition engine_free (v : Volume) (x : Z) : bool := bool_decide (bit v x = Ok false).

Lemma engine_bit v x : wf_bytes (v_bitmap v) -> 0 <= x < v_total_blocks v -> v_total_blocks v <= 8 * py_len (v_bitmap v) -> bit v x = Ok (msb_at (v_bitmap v) x).
Proof.
  intros Hw Hx Hl. destruct (bit v x) as [u|e] eqn:E; [by apply bit_msb in E as [_ ->]|]. exfalso. unfold bit in E. rewrite !(proj2 (Z.ltb_ge _ _)), (proj2 (Z.leb_gt _ _)) in E by lia. cbn [orb] in E.
  destruct (py_get (v_bitmap v) (Z.shiftr x 3)) eqn:G; [done|]. rewrite shiftr3 in G. revert G. pose proof (Z.div_pos x 8). assert (x / 8 < py_len (v_bitmap v)) by (apply Z.div_lt_upper_bound; lia).
  unfold py_get. rewrite !(proj2 (Z.ltb_ge (x / 8) 0)) by lia. destruct (v_bitmap v !! Z.to_nat (x / 8)) eqn:L; [done|]. apply lookup_ge_None in L. unfold py_len in *. lia.
Qed.

(** C29. On a device that the engine opens and that the HFS+ backend maps, the
    cells cut the volume's blocks into consecutive ranges, and a cell's used
    and free counts are the numbers of its blocks that the engine takes for
    used and for free. *)
Theorem hfsplus_map_agrees_with_engine path w allow d size t v cells m counts
    (Hw : wf_bytes d) (Ho : open_volume path w allow d = (t, Ok v)) (Hm : hfsplus_map (Ok (mkReader d size)) cells = Ok (m, counts)) :
  exists bounds, chained 0 (v_total_blocks v) bounds /\
    Forall2 (counted (engine_used v) (engine_free v)) bounds (mr_cells m).
Proof.
  destruct (open_reads _ _ _ _ _ _ Hw Ho) as (header & allocation & Her). destruct (map_reads _ _ _ _ _ _ _ _ Her Hm) as (name & dets & base & Hagg & Hsame).
  pose proof Her as [_ _ _ _ [_ Htb] _ _ Hok [t' Hb]]. apply (fork_read_inv _ _ _ _ _ _ _ Hok) in Hb as (_ & Eb & _ & Hlen & _).
  assert (wf_bytes (v_bitmap v)) as Hwb by (rewrite Eb; by apply wf_gather).
  assert (v_total_blocks v <= 8 * py_len (v_bitmap v)) as Hl by (rewrite Hlen; pose proof (Z.div_mod (v_total_blocks v + 7) 8); pose proof (Z.mod_pos_bound (v_total_blocks v + 7) 8); lia).
  assert (wf_bytes (map mirror_byte (v_bitmap v))) as Hwm by (apply Forall_fmap, Forall_forall; intros ? _; apply mirror_byte_ok).
  apply (bitmap_map_counts _ _ _ _ _ _ _ _ _ _ Hwm Htb Hagg Hsame). intros x Hx. unfold engine_used, engine_free. rewrite engine_bit by done.
  rewrite bit_mirrored by lia. by destruct (msb_at _ x).
Qed.

Lemma hfsplus_map_agrees_with_engine_witness :
  exists m counts, hfsplus_map (Ok (mkReader Sample.device 7168)) 4 = Ok (m, counts) /\
    exists bounds, chained 0 (v_total_blocks Sample.volume) bounds /\
      Forall2 (counted (engine_used Sample.volume) (engine_free Sample.volume)) bounds (mr_cells m).
Proof.
  eexists _, _. split; [vm_compute; reflexivity|].
  refine (hfsplus_map_agrees_with_engine "image" true false Sample.device 7168 [] Sample.volume 4 _ _ _ Sample.reopens _).
  - apply (bool_decide_unpack _). vm_compute. exact I.
  - vm_compute. reflexivity.
Defined.

(** A catalog whose leaf announces 600 records in a node of 512 bytes. *)
Definition torn_catalog : bytes :=
  repeat 0 1024 ++ Sample.header ++ image_of 512 [field 0 2 65164] ++ Sample.tree_header ++ image_of 512 [field 8 1 255; field 10 2 600].

(** The table of record offsets is read with no check of the count, so the
    error is not one the map handles: a damaged catalog loses the allocation
    map, which does not depend on it. *)
Lemma torn_catalog_loses_map :
  hfsplus_map (Ok (mkReader torn_catalog 7168)) 4 = raise StructError "unpack_from requires a larger buffer".
Proof. vm_compute. reflexivity. Qed.
