(* ===== verification/Exfat.v ===== *)
(** * The exFAT engine

    Models [src/gui/exfat_engine.py]: opening a volume, cluster chains, the
    allocation bitmap, the directory walk, [update_entry], the two journalled
    transactions [move_one] and [move_tail_cluster], [recover], and the
    commands.  The FAT and the bitmap the engine keeps in memory are fields of
    the volume value that the operations pass on; everything else is on the
    device.  Text output is left out. *)

From S2P Require Import Prelude Text Bytes Ranges Bitmap Device.

Local Open Scope string_scope.
Local Open Scope list_scope.
Local Open Scope Z_scope.

(** ** Data *)

Definition EOC : Z := 4294967295.

(** The fields of the boot sector. *)
Record Geometry := mkGeometry {
  path : text;
  bps : Z;
  spc : Z;
  cs : Z;
  fat_off : Z;
  fat_len : Z;
  heap_off : Z;
  cc : Z;
  root : Z;
  serial : Z;
  volume_flags : Z;
  number_of_fats : Z;
  active_fat : Z;
  active_fat_offset : Z
}.

Record Volume := mkVolume {
  geo : Geometry;
  writable : bool;
  fat : bytes;
  bitmap_cluster : Z;
  bitmap_length : Z;
  bitmap_clusters : list Z;
  bitmap : bytes
}.

Record Entry := mkEntry {
  e_path : text;
  is_dir : bool;
  first : Z;
  elength : Z;
  valid_length : Z;
  nofat : bool;
  parent_clusters : list Z;
  entry_off : Z;
  entry_count : Z;
  clusters : list Z
}.

(** The journal object of the two schemas. *)
Record journal1 := mkJournal1 {
  j1_serial : Z; j1_path : text; j1_src : list Z; j1_dst : list Z; j1_phase : string
}.

Record journal2 := mkJournal2 {
  j2_serial : Z; j2_path : text; j2_old_chain : list Z; j2_new_chain : list Z; j2_source : Z; j2_destination : Z;
  j2_index : Z; j2_old_nofat : bool; j2_fat_before : list (Z * Z); j2_destination_bit_before : bool;
  j2_source_bit_before : bool; j2_phase : string
}.

Inductive journal := Schema1 (j : journal1) | Schema2 (j : journal2).

Notation xprog := (Device.prog journal).

Definition set_fat (v : Volume) (f : bytes) : Volume :=
  mkVolume (geo v) (writable v) f (bitmap_cluster v) (bitmap_length v) (bitmap_clusters v) (bitmap v).
Definition set_bitmap (v : Volume) (b : bytes) : Volume :=
  mkVolume (geo v) (writable v) (fat v) (bitmap_cluster v) (bitmap_length v) (bitmap_clusters v) b.

(** ** Arithmetic *)

(** The nearest double of a non-negative integer, ties to even. *)
Definition to_float (a : Z) : Z :=
  let k := Z.max 0 (Z.log2 a + 1 - 53) in
  let q := Z.shiftr a k in
  let r := a - Z.shiftl q k in
  let half := Z.shiftl 1 (k - 1) in
  let q := if (0 <? k) && ((half <? r) || ((r =? half) && Z.odd q)) then q + 1 else q in
  Z.shiftl q k.

(** [math.ceil(a/size)] for a power of two [size]: dividing by it is exact on
    doubles, so only [a] is rounded. *)
Definition ceil_div (a size : Z) : Z := - ((- to_float a) / size).

(** ** The volume *)

Section volume.
Definition read (o n : Z) : xprog bytes :=
  let* d := os_pread n o in
  pcheck negb (py_len d =? n) # EngineError "short read";
  pret d.

Definition write (writable : bool) (o : Z) (d : bytes) : xprog unit :=
  pcheck negb writable # EngineError "read-only handle";
  os_pwrite d o.

Definition coff (g : Geometry) (c : Z) : result Z :=
  check (c <? 2) || (cc g + 2 <=? c) # EngineError "invalid cluster";
  Ok ((heap_off g + (c - 2) * spc g) * bps g).

Definition fatget (f : bytes) (c : Z) : result Z := u32le f (c * 4).
Definition fatset (f : bytes) (c v : Z) : result bytes := pack_into 4 f (c * 4) v.

Definition bit (b : bytes) (c : Z) : result bool :=
  let i := c - 2 in
  v ← py_get b (Z.shiftr i 3);
  Ok (negb (Z.land (Z.shiftr v (Z.land i 7)) 1 =? 0)).

Definition setbit (b : bytes) (c : Z) (val : bool) : result bytes :=
  let i := c - 2 in
  let m := Z.shiftl 1 (Z.land i 7) in
  v ← py_get b (Z.shiftr i 3);
  py_set b (Z.shiftr i 3) (if val then Z.lor v m else Z.land v (Z.lnot m)).

(** The [while 2<=c<0xFFFFFFF8] loop of [chain]; the clusters are distinct and
    have FAT entries, so [length fat] iterations and a failing one are enough. *)
Fixpoint chain_loop (fuel : nat) (f : bytes) (count : option Z) (out : list Z) (c : Z) : result (list Z) :=
  if (2 <=? c) && (c <? 4294967288) then
    match fuel with
    | O => raise OutOfFuel "chain"
    | S fuel' =>
        check bool_decide (c ∈ out) # EngineError "FAT loop";
        let out := out ++ [c] in
        if match count with Some n => n <=? py_len out | None => false end then Ok out else
        c' ← fatget f c;
        chain_loop fuel' f count out c'
    end
  else Ok out.

Definition chain (f : bytes) (first : Z) (count : option Z) (allow_contig : bool) : result (list Z) :=
  if first =? 0 then Ok [] else
  match count with
  | Some n =>
      if allow_contig then Ok (py_range first (first + n)) else
      out ← chain_loop (S (length f)) f count [] first;
      check negb (py_len out =? n) # EngineError "short FAT chain";
      Ok out
  | None => chain_loop (S (length f)) f None [] first
  end.

Definition read_stream (g : Geometry) (cls : list Z) (len : Z) : xprog bytes :=
  let* out := pforeach (fun acc c => let* o := lift (coff g c) in let* d := read o (cs g) in pret (acc ++ d)) [] cls in
  pret (py_slice out 0 len).

Definition write_stream (g : Geometry) (writable : bool) (cls : list Z) (data : bytes) : xprog unit :=
  pforeach (fun pos c =>
      let chunk := py_slice data pos (pos + cs g) in
      let chunk := if py_len chunk <? cs g then chunk ++ py_zeros (cs g - py_len chunk) else chunk in
      let* o := lift (coff g c) in
      write writable o chunk ;;* pret (pos + cs g)) 0 cls ;;*
  pret tt.

(** The directory slots of the root, until the bitmap entry. *)
Fixpoint find_bitmap_in (data : bytes) (offsets : list Z) : result (Z * Z) :=
  match offsets with
  | [] => raise EngineError "allocation bitmap not found"
  | o :: rest =>
      t ← py_get data o;
      if t =? 0 then raise EngineError "allocation bitmap not found" else
      if t =? 129 then c ← u32le data (o + 20); n ← u64le data (o + 24); Ok (c, n) else
      find_bitmap_in data rest
  end.

(** [range(0, n, 32)] *)
Definition slots (n : Z) : list Z := map (fun i => 32 * i) (py_range 0 (- ((- n) / 32))).

Definition _find_bitmap (g : Geometry) (f : bytes) : xprog (Z * Z) :=
  let* cl := lift (chain f (root g) None false) in
  let* data := read_stream g cl (py_len cl * cs g) in
  lift (find_bitmap_in data (slots (py_len data))).

Definition parse_geometry (p : text) (bs : bytes) : result Geometry :=
  check negb (bool_decide (py_slice bs 3 11 = [69; 88; 70; 65; 84; 32; 32; 32])) # EngineError "not an exFAT volume";
  b ← py_get bs 108;
  s ← py_get bs 109;
  let bps := Z.shiftl 1 b in
  let spc := Z.shiftl 1 s in
  fat_off ← u32le bs 80;
  fat_len ← u32le bs 84;
  heap_off ← u32le bs 88;
  cc ← u32le bs 92;
  root ← u32le bs 96;
  serial ← u32le bs 100;
  flags ← u16le bs 106;
  nfats ← py_get bs 110;
  check negb ((nfats =? 1) || (nfats =? 2)) # EngineError "unsupported exFAT FAT count";
  let active := if nfats =? 2 then Z.land flags 1 else 0 in
  check negb (Z.land flags 6 =? 0) # EngineError "exFAT volume is dirty or reports media failure";
  Ok (mkGeometry p bps spc (bps * spc) fat_off fat_len heap_off cc root serial flags nfats active
        ((fat_off + active * fat_len) * bps)).

(** [Volume(path, writable)] *)
Definition open_volume (p : text) (writable : bool) : xprog Volume :=
  let* bs := read 0 512 in
  let* g := lift (parse_geometry p bs) in
  let* f := read (active_fat_offset g) (fat_len g * bps g) in
  let* (bc, bl) := _find_bitmap g f in
  let* bcl := lift (chain f bc (Some (ceil_div bl (cs g))) false) in
  let* b := read_stream g bcl bl in
  pret (mkVolume g writable f bc bl bcl b).

Definition flush_fat_bitmap (v : Volume) : xprog unit :=
  write (writable v) (active_fat_offset (geo v)) (fat v) ;;*
  write_stream (geo v) (writable v) (bitmap_clusters v) (bitmap v).

(** The loop of [free_run] over the clusters in its direction. *)
Fixpoint free_run_loop (b : bytes) (n : Z) (prefer_low : bool) (exclude : list Z) (rng : list Z)
    (start : option Z) (run : Z) (prev : option Z) : result (option Z) :=
  match rng with
  | [] => Ok None
  | c :: rest =>
      used ← bit b c;
      let ok := negb used && negb (bool_decide (c ∈ exclude)) in
      let contiguous := match prev with
                        | None => true
                        | Some p => if prefer_low then c =? p + 1 else c =? p - 1
                        end in
      if ok && contiguous then
        let start := default c start in
        let run := run + 1 in
        if n <=? run then Ok (Some (if prefer_low then start else c))
        else free_run_loop b n prefer_low exclude rest (Some start) run (Some c)
      else free_run_loop b n prefer_low exclude rest None 0 (Some c)
  end.

Definition free_run (v : Volume) (n : Z) (prefer_low : bool) (exclude : list Z) : result (option Z) :=
  let up := py_range 2 (cc (geo v) + 2) in
  free_run_loop (bitmap v) n prefer_low exclude (if prefer_low then up else rev up) None 0 None.
End volume.

(** ** Directory entry sets *)

(** One step of the checksum: rotate right in sixteen bits and add. *)
Definition checksum_step (s byte : Z) : Z :=
  Z.land (Z.lor (Z.shiftr s 1) (Z.shiftl (Z.land s 1) 15) + byte) 65535.

Definition checksum_set (buf : bytes) (off count : Z) : result Z :=
  foldM (fun s i => if (i =? 2) || (i =? 3) then Ok s else b ← py_get buf (off + i); Ok (checksum_step s b))
    0 (py_range 0 (count * 32)).

(** The first stream extension of an entry set. *)
Fixpoint find_stream (data : bytes) (off : Z) (js : list Z) : result (option Z) :=
  match js with
  | [] => Ok None
  | j :: rest =>
      t ← py_get data (off + j * 32);
      if t =? 192 then Ok (Some (off + j * 32)) else find_stream data off rest
  end.

(** [update_entry] on the bytes of the parent directory. *)
Definition update_entry_bytes (data : bytes) (off count new_first : Z) (new_nofat : bool) : result bytes :=
  found ← find_stream data off (py_range 1 count);
  match found with
  | None => raise EngineError "stream extension missing"
  | Some s =>
      data ← pack_into 4 data (s + 20) new_first;
      fl ← py_get data (s + 1);
      data ← py_set data (s + 1) (if new_nofat then Z.lor fl 2 else Z.land fl (Z.lnot 2));
      sum ← checksum_set data off count;
      pack_into 2 data (off + 2) sum
  end.

Definition update_entry (v : Volume) (e : Entry) (new_first : Z) (new_nofat : bool) : xprog unit :=
  let* data := read_stream (geo v) (parent_clusters e) (py_len (parent_clusters e) * cs (geo v)) in
  let* data := lift (update_entry_bytes data (entry_off e) (entry_count e) new_first new_nofat) in
  write_stream (geo v) (writable v) (parent_clusters e) data.

(** ** The directory walk *)

(** The stream extension and the name parts of an entry set. *)
Definition collect_part (data : bytes) (o : Z) (acc : option bytes * bytes) (j : Z) : result (option bytes * bytes) :=
  let e := py_slice data (o + j * 32) (o + (j + 1) * 32) in
  t ← py_get e 0;
  Ok (if t =? 192 then (Some e, acc.2) else if t =? 193 then (acc.1, acc.2 ++ py_slice e 2 32) else acc).

(** One entry set at [o]: the entry it describes, if it has a stream. *)
Definition parse_entry (v : Volume) (p : text) (cls : list Z) (data : bytes) (o total : Z) : result (option Entry) :=
  check py_len data <? o + total * 32 # EngineError "truncated directory entry set";
  stored ← u16le data (o + 2);
  sum ← checksum_set data o total;
  check negb (stored =? sum) # EngineError "bad exFAT directory-set checksum";
  attrs ← u16le data (o + 4);
  '(stream, names) ← foldM (collect_part data o) (None, []) (py_range 1 total);
  match stream with
  | None => Ok None
  | Some stream =>
      nl ← py_get stream 3;
      let nm := utf16le_decode (py_slice names 0 (nl * 2)) in
      let nm := if bool_decide (nm = []) then of_string "<unnamed>" else nm in
      fc ← u32le stream 20;
      valid ← u64le stream 8;
      dl ← u64le stream 24;
      fl ← py_get stream 1;
      let nf := negb (Z.land fl 2 =? 0) in
      let isdir := negb (Z.land attrs 16 =? 0) in
      let count := if dl =? 0 then 0 else ceil_div dl (cs (geo v)) in
      fcl ← (if count =? 0 then Ok [] else chain (fat v) fc (Some count) nf);
      let p' := if bool_decide (p = []) then nm else p ++ [47] ++ nm in
      Ok (Some (mkEntry p' isdir fc dl valid nf cls o total fcl))
  end.

Definition walk_state : Type := list Entry * list Z.

(** The [while o+32<=len(data)] loop of [walk]; [recurse] is the call for a
    subdirectory.  Every iteration advances by at least one slot. *)
Fixpoint dir_loop (fuel : nat) (v : Volume) (recurse : text -> Z -> Z -> bool -> walk_state -> xprog walk_state)
    (p : text) (cls : list Z) (data : bytes) (o : Z) (st : walk_state) : xprog walk_state :=
  if o + 32 <=? py_len data then
    match fuel with
    | O => lift (raise OutOfFuel "walk")
    | S fuel' =>
        let* t := lift (py_get data o) in
        if t =? 0 then pret st else
        if t =? 133 then
          let* sc := lift (py_get data (o + 1)) in
          let total := 1 + sc in
          let* ent := lift (parse_entry v p cls data o total) in
          let* st := match ent with
                     | None => pret st
                     | Some e =>
                         let st := (st.1 ++ [e], st.2) in
                         if is_dir e && negb (first e =? 0) && negb (elength e =? 0)
                         then recurse (e_path e) (first e) (elength e) (nofat e) st else pret st
                     end in
          dir_loop fuel' v recurse p cls data (o + total * 32) st
        else dir_loop fuel' v recurse p cls data (o + 32) st
    end
  else pret st.

(** [walk]: a directory is entered once, and its first cluster is a cluster of
    the volume, so the recursion is no deeper than the cluster count. *)
Fixpoint walk (fuel : nat) (v : Volume) (p : text) (first length : Z) (nofat : bool) (st : walk_state) : xprog walk_state :=
  match fuel with
  | O => lift (raise OutOfFuel "walk")
  | S fuel' =>
      if bool_decide (first ∈ st.2) then pret st else
      let st := (st.1, st.2 ++ [first]) in
      let cnt := if length =? 0 then 1 else ceil_div length (cs (geo v)) in
      let* cls := lift (chain (fat v) first (Some cnt) nofat) in
      let* data := read_stream (geo v) cls (py_len cls * cs (geo v)) in
      dir_loop (List.length data) v (walk fuel' v) p cls data 0 st
  end.

Definition parse (v : Volume) : xprog (list Entry) :=
  let* rootcl := lift (chain (fat v) (root (geo v)) None false) in
  let* st := walk (S (Z.to_nat (cc (geo v) + 2))) v [] (root (geo v)) (py_len rootcl * cs (geo v)) false ([], []) in
  pret st.1.

(** ** Transactions *)

(** [for i,c in enumerate(cls): v.setbit(c,True); v.fatset(c, next or EOC)] *)
Fixpoint link_chain (v : Volume) (cls : list Z) : result Volume :=
  match cls with
  | [] => Ok v
  | c :: rest =>
      b ← setbit (bitmap v) c true;
      f ← fatset (fat v) c (match rest with n :: _ => n | [] => EOC end);
      link_chain (set_fat (set_bitmap v b) f) rest
  end.

(** [for c in cls: v.setbit(c,False); v.fatset(c,0)] *)
Fixpoint release_chain (v : Volume) (cls : list Z) : result Volume :=
  match cls with
  | [] => Ok v
  | c :: rest =>
      b ← setbit (bitmap v) c false;
      f ← fatset (fat v) c 0;
      release_chain (set_fat (set_bitmap v b) f) rest
  end.

(** [for s,d in zip(src,dst): v.write(v.coff(d), v.read(v.coff(s), v.cs))] *)
Definition copy_clusters (v : Volume) (src dst : list Z) : xprog unit :=
  pforeach (fun _ sd =>
      let* d_off := lift (coff (geo v) sd.2) in
      let* s_off := lift (coff (geo v) sd.1) in
      let* data := read s_off (cs (geo v)) in
      write (writable v) d_off data) tt (zip src dst).

Definition phase1 (v : Volume) (e : Entry) (dst : list Z) (phase : string) : option journal :=
  Some (Schema1 (mkJournal1 (serial (geo v)) (e_path e) (clusters e) dst phase)).

Definition head_of (l : list Z) : result Z :=
  match l with c :: _ => Ok c | [] => raise IndexError "list index out of range" end.

Definition move_one (v : Volume) (e : Entry) (dst : list Z) : xprog Volume :=
  let src := clusters e in
  put_journal (phase1 v e dst "prepared") ;;*
  copy_clusters v src dst ;;*
  os_fsync ;;* put_journal (phase1 v e dst "copied") ;;*
  let* v := lift (link_chain v dst) in
  flush_fat_bitmap v ;;* os_fsync ;;* put_journal (phase1 v e dst "destination-ready") ;;*
  put_journal (phase1 v e dst "switching") ;;*
  let* d0 := lift (head_of dst) in
  update_entry v e d0 true ;;* os_fsync ;;* put_journal (phase1 v e dst "switched") ;;*
  let* v := lift (release_chain v src) in
  flush_fat_bitmap v ;;* os_fsync ;;* put_journal None ;;*
  pret v.

(** The distinct clusters of a list, in order. *)
Definition distinct (l : list Z) : list Z := fold_left (fun acc c => if decide (c ∈ acc) then acc else acc ++ [c]) l [].

Definition set_phase2 (j : journal2) (phase : string) : option journal :=
  Some (Schema2 (mkJournal2 (j2_serial j) (j2_path j) (j2_old_chain j) (j2_new_chain j) (j2_source j) (j2_destination j)
    (j2_index j) (j2_old_nofat j) (j2_fat_before j) (j2_destination_bit_before j) (j2_source_bit_before j) phase)).

Definition move_tail_cluster (v : Volume) (e : Entry) (index destination : Z) : xprog Volume :=
  let old_chain := clusters e in
  let* source := lift (py_get old_chain index) in
  let* used := lift (if source <=? destination then Ok true else bit (bitmap v) destination) in
  pcheck used # EngineError "invalid exFAT tail-fill destination";
  let* new_chain := lift (py_set old_chain index destination) in
  let* fat_before := lift (mapM_result (fun c => x ← fatget (fat v) c; Ok (c, x)) (distinct (old_chain ++ [destination]))) in
  let* db := lift (bit (bitmap v) destination) in
  let* sb := lift (bit (bitmap v) source) in
  let obj := mkJournal2 (serial (geo v)) (e_path e) old_chain new_chain source destination index (nofat e) fat_before db sb "prepared" in
  put_journal (Some (Schema2 obj)) ;;*
  let* d_off := lift (coff (geo v) destination) in
  let* s_off := lift (coff (geo v) source) in
  let* data := read s_off (cs (geo v)) in
  write (writable v) d_off data ;;* os_fsync ;;*
  put_journal (set_phase2 obj "copied") ;;*
  let* v := lift (if nofat e then link_chain v new_chain
                  else b ← setbit (bitmap v) destination true;
                       f ← fatset (fat v) destination
                             (default EOC (if index + 1 <? py_len new_chain then nthZ new_chain (index + 1) else None));
                       Ok (set_fat (set_bitmap v b) f)) in
  flush_fat_bitmap v ;;* os_fsync ;;* put_journal (set_phase2 obj "destination-ready") ;;*
  put_journal (set_phase2 obj "switching") ;;*
  let* v := (if nofat e || (index =? 0) then
               let* n0 := lift (head_of new_chain) in
               update_entry v e n0 false ;;* os_fsync ;;* pret v
             else
               let* predecessor := lift (py_get new_chain (index - 1)) in
               let* f := lift (fatset (fat v) predecessor destination) in
               let v := set_fat v f in
               flush_fat_bitmap v ;;* os_fsync ;;* pret v) in
  put_journal (set_phase2 obj "switched") ;;*
  let* b := lift (setbit (bitmap v) source false) in
  let* f := lift (fatset (fat v) source 0) in
  let v := set_fat (set_bitmap v b) f in
  flush_fat_bitmap v ;;* os_fsync ;;* put_journal None ;;*
  pret v.

(** ** Recovery *)

(** [{e.path: e for e in v.parse()}.get(path)]: the last entry of that path. *)
Definition entry_at (entries : list Entry) (p : text) : option Entry :=
  List.find (fun e => bool_decide (e_path e = p)) (rev entries).

Fixpoint restore_fat (f : bytes) (saved : list (Z * Z)) : result bytes :=
  match saved with
  | [] => Ok f
  | (c, x) :: rest => f ← fatset f c x; restore_fat f rest
  end.

Definition recover2 (v : Volume) (e : Entry) (j : journal2) : xprog unit :=
  if bool_decide (clusters e = j2_new_chain j) && negb (nofat e) then
    let* v := lift (link_chain v (j2_new_chain j)) in
    let* b := lift (setbit (bitmap v) (j2_source j) false) in
    let* f := lift (fatset (fat v) (j2_source j) 0) in
    flush_fat_bitmap (set_fat (set_bitmap v b) f) ;;* os_fsync
  else if bool_decide (clusters e = j2_old_chain j) && eqb (nofat e) (j2_old_nofat j) then
    let* f := lift (restore_fat (fat v) (j2_fat_before j)) in
    let* b := lift (setbit (bitmap v) (j2_destination j) (j2_destination_bit_before j)) in
    let* b := lift (setbit b (j2_source j) (j2_source_bit_before j)) in
    flush_fat_bitmap (set_fat (set_bitmap v b) f) ;;* os_fsync
  else lift (raise EngineError "tail-fill journal entry points to neither the old nor new exFAT chain").

Definition recover1 (v : Volume) (e : Entry) (j : journal1) : xprog unit :=
  let* d0 := lift (head_of (j1_dst j)) in
  if first e =? d0 then
    let* v := lift (link_chain v (j1_dst j)) in
    update_entry v e d0 true ;;*
    let* v := lift (release_chain v (j1_src j)) in
    flush_fat_bitmap v ;;* os_fsync
  else
    let* s0 := lift (head_of (j1_src j)) in
    if first e =? s0 then
      let* v := lift (release_chain v (j1_dst j)) in
      flush_fat_bitmap v ;;* os_fsync
    else lift (raise EngineError "journal entry points to neither source nor destination").

(** [recover]; [journal] is the journal file, [None] when there is none. *)
Definition recover (mounted : bool) (device : text) (j : option journal) : xprog unit :=
  pcheck mounted # EngineError "refusing to recover a mounted exFAT volume";
  match j with
  | None => lift (raise EngineError "no recovery journal")
  | Some j =>
      let* v := open_volume device true in
      let '(jserial, jpath) := match j with Schema1 j => (j1_serial j, j1_path j) | Schema2 j => (j2_serial j, j2_path j) end in
      pcheck negb (jserial =? serial (geo v)) # EngineError "journal does not match this exFAT volume";
      let* entries := parse v in
      match entry_at entries jpath with
      | None => lift (raise EngineError "journal file entry not found")
      | Some e =>
          match j with Schema1 j => recover1 v e j | Schema2 j => recover2 v e j end ;;*
          put_journal None
      end
  end.

(** ** Layout of the clusters of an object *)

Fixpoint breaks (cls : list Z) : Z :=
  match cls with
  | a :: (b :: _) as rest => (if b =? a + 1 then 0 else 1) + breaks rest
  | _ => 0
  end.

Definition fragments (cls : list Z) : Z := if bool_decide (cls = []) then 0 else 1 + breaks cls.

Fixpoint contiguous (cls : list Z) : bool :=
  match cls with
  | a :: (b :: _) as rest => (b =? a + 1) && contiguous rest
  | _ => true
  end.

Definition growth_reserve (cls : list Z) (percent : Z) : Z :=
  if bool_decide (cls = []) then 0 else (py_len cls * percent + 99) / 100.

(** The free clusters behind an object, counted up to [reserve]. *)
Fixpoint count_free (fuel : nat) (b : bytes) (limit reserve available stop : Z) : result Z :=
  match fuel with
  | O => Ok available
  | S fuel' =>
      if (available <? reserve) && (stop <? limit) then
        used ← bit b stop;
        if (used : bool) then Ok available else count_free fuel' b limit reserve (available + 1) (stop + 1)
      else Ok available
  end.

(** The loop of [growth_preflight]: [None] when every object passes. *)
Fixpoint preflight_entries (v : Volume) (percent : Z) (entries : list Entry) (counts : Z * Z * Z) : result (option (string * text) * (Z * Z * Z)) :=
  match entries with
  | [] => Ok (None, counts)
  | e :: rest =>
      let '(files, dirs, reserve_total) := counts in
      if bool_decide (clusters e = []) then preflight_entries v percent rest counts else
      if negb (contiguous (clusters e)) then Ok (Some ("is fragmented", e_path e), counts) else
      if is_dir e then preflight_entries v percent rest (files, dirs + 1, reserve_total) else
      let reserve := growth_reserve (clusters e) percent in
      let counts := (files + 1, dirs, reserve_total + reserve) in
      last ← py_get (clusters e) (-1);
      available ← count_free (Z.to_nat reserve) (bitmap v) (cc (geo v) + 2) reserve 0 (last + 1);
      if available <? reserve then Ok (Some ("has too few free clusters after it", e_path e), counts) else
      preflight_entries v percent rest counts
  end.

Definition growth_preflight (v : Volume) (percent : Z) : xprog bool :=
  let* rt := lift (chain (fat v) (root (geo v)) None false) in
  if negb (contiguous rt) then pret false else
  let* entries := parse v in
  let* (failure, _) := lift (preflight_entries v percent entries (0, 0, 0)) in
  pret (match failure with Some _ => false | None => true end).

(** The free clusters at the end of the volume. *)
Fixpoint terminal_loop (b : bytes) (cls : list Z) (count : Z) : result Z :=
  match cls with
  | [] => Ok count
  | c :: rest => used ← bit b c; if (used : bool) then Ok count else terminal_loop b rest (count + 1)
  end.

Definition terminal_free_run (v : Volume) : result (Z * Z) :=
  count ← terminal_loop (bitmap v) (rev (py_range 2 (cc (geo v) + 2))) 0;
  Ok (cc (geo v) + 2 - count, count).

(** ** Placement *)

(** [min(clusters)] of a non-empty list *)
Definition lowest (cls : list Z) : Z := match cls with c :: rest => fold_left Z.min rest c | [] => 0 end.

(** [sorted(entries, key=lambda x: (min(x.clusters), x.path))] *)
Definition by_position (a b : Entry) : bool :=
  if lowest (clusters a) <? lowest (clusters b) then true
  else if lowest (clusters b) <? lowest (clusters a) then false else negb (text_ltb (e_path b) (e_path a)).

Definition allocated (entries : list Entry) : list Entry := filter (fun e => clusters e <> []) entries.

(** The first object with a lower free run. *)
Fixpoint select_lower (v : Volume) (entries : list Entry) : result (option (Entry * list Z)) :=
  match entries with
  | [] => Ok None
  | e :: rest =>
      low ← free_run v (py_len (clusters e)) true (clusters e);
      match low with
      | Some l => if l <? lowest (clusters e) then Ok (Some (e, py_range l (l + py_len (clusters e)))) else select_lower v rest
      | None => select_lower v rest
      end
  end.

(** The search for room behind the barriers: [None] is the loop's [else]. *)
Fixpoint place (fuel : nat) (barriers : list Z) (limit need start : Z) : option Z :=
  match fuel with
  | O => None
  | S fuel' =>
      if start + need <=? limit then
        match List.find (fun c => bool_decide (c ∈ barriers)) (py_range start (start + need)) with
        | None => Some start
        | Some barrier => place fuel' barriers limit need (barrier + 1)
        end
      else None
  end.

Fixpoint place_all (barriers : list Z) (limit percent cursor : Z) (objects : list Entry) : result (list (text * (Z * Z))) :=
  match objects with
  | [] => Ok []
  | e :: rest =>
      let reserve := if is_dir e then 0 else growth_reserve (clusters e) percent in
      let need := py_len (clusters e) + reserve in
      match place (Z.to_nat (limit - cursor) + 1) barriers limit need cursor with
      | Some start => more ← place_all barriers limit percent (start + need) rest; Ok ((e_path e, (start, reserve)) :: more)
      | None => raise EngineError "exFAT growth layout does not fit below system allocation barriers"
      end
  end.

(** Used clusters no object owns. *)
Definition find_barriers (v : Volume) (entries : list Entry) : result (list Z) :=
  let movable := concat (map clusters entries) in
  used ← mapM_result (fun c => u ← bit (bitmap v) c; Ok (c, u)) (py_range 2 (cc (geo v) + 2));
  Ok (map fst (filter (fun cu : Z * bool => cu.2 = true /\ cu.1 ∉ movable) used)).

Definition find_growth_targets (v : Volume) (entries : list Entry) (percent : Z) : result (list Entry * list (text * (Z * Z))) :=
  barriers ← find_barriers v entries;
  let objects := py_sorted by_position (allocated entries) in
  targets ← place_all barriers (cc (geo v) + 2) percent 2 objects;
  Ok (objects, targets).

(** ** Commands

    The loops refresh the volume after every durable move; [stop i] is the
    interrupt flag before iteration [i], [fuel] bounds the iterations. *)

Definition limit_reached (max_files : option Z) (moved : Z) : bool :=
  match max_files with Some n => negb (n =? 0) && (n <=? moved) | None => false end.

Section commands.
Context (device : text) (stop : nat -> bool).

Fixpoint compact_objects_loop (fuel : nat) (max_files : option Z) (i : nat) (moved : Z) (v : Volume) : xprog Z :=
  match fuel with
  | O => lift (raise OutOfFuel "compact_objects")
  | S fuel' =>
      if stop i then pret moved else
      let* entries := parse v in
      let* selected := lift (select_lower v (py_sorted by_position (allocated entries))) in
      match selected with
      | None => pret moved
      | Some (e, dst) =>
          let* _ := move_one v e dst in
          let moved := moved + 1 in
          let* v := open_volume device true in
          if limit_reached max_files moved then pret moved else
          compact_objects_loop fuel' max_files (S i) moved v
      end
  end.

Definition compact_objects (fuel : nat) (max_files : option Z) : xprog Z :=
  let* v := open_volume device true in
  compact_objects_loop fuel max_files 0 0 v.

(** [sort(key=lambda e: (-fragments(e.clusters), -len(e.clusters), e.path))] *)
Definition most_fragmented (a b : Entry) : bool :=
  let fa := fragments (clusters a) in let fb := fragments (clusters b) in
  let la := py_len (clusters a) in let lb := py_len (clusters b) in
  if fb <? fa then true else if fa <? fb then false else
  if lb <? la then true else if la <? lb then false else negb (text_ltb (e_path b) (e_path a)).

Fixpoint select_fit (v : Volume) (entries : list Entry) : result (option (Entry * list Z)) :=
  match entries with
  | [] => Ok None
  | e :: rest =>
      low ← free_run v (py_len (clusters e)) true (clusters e);
      match low with
      | Some l => Ok (Some (e, py_range l (l + py_len (clusters e))))
      | None => select_fit v rest
      end
  end.

(** The clusters of all objects with owner and index, in the order the code
    collects them. *)
Definition owners (entries : list Entry) : list (Z * Entry * Z) :=
  concat (map (fun e => map (fun ic => (ic.2, e, ic.1)) (zip (py_range 0 (py_len (clusters e))) (clusters e))) entries).

(** [next((c for c in range(2, source) if not v.bit(c)), None)] *)
Fixpoint first_hole (b : bytes) (cls : list Z) : result (option Z) :=
  match cls with
  | [] => Ok None
  | c :: rest => used ← bit b c; if (used : bool) then first_hole b rest else Ok (Some c)
  end.

(** One iteration of [command]; [None] is [break]. *)
Definition command_step (defrag : bool) (v : Volume) : xprog (option unit) :=
  let* entries := parse v in
  let entries := allocated entries in
  if defrag then
    let candidates := py_sorted most_fragmented (filter (fun e => 1 < fragments (clusters e)) entries) in
    let* selected := lift (select_fit v candidates) in
    match selected with
    | None => pret None
    | Some (e, dst) => let* _ := move_one v e dst in pret (Some tt)
    end
  else
    match py_max (fun a b : Z * Entry * Z => b.1.1 <? a.1.1) (owners entries) with
    | None => pret None
    | Some (source, e, index) =>
        let* hole := lift (first_hole (bitmap v) (py_range 2 source)) in
        match hole with
        | None => pret None
        | Some destination => let* _ := move_tail_cluster v e index destination in pret (Some tt)
        end
    end.

Fixpoint command_loop (fuel : nat) (defrag : bool) (max_files : option Z) (i : nat) (moved : Z) (v : Volume) : xprog Z :=
  match fuel with
  | O => lift (raise OutOfFuel "command")
  | S fuel' =>
      if stop i then pret moved else
      let* r := command_step defrag v in
      match r with
      | None => pret moved
      | Some _ =>
          let moved := moved + 1 in
          let* v := open_volume device true in
          if limit_reached max_files moved then pret moved else command_loop fuel' defrag max_files (S i) moved v
      end
  end.

Definition command (mounted journal_exists : bool) (fuel : nat) (defrag : bool) (max_files : option Z) : xprog Z :=
  pcheck mounted # EngineError "refusing to modify a mounted exFAT volume";
  pcheck journal_exists # EngineError "unfinished journal exists; run recover";
  let* v := open_volume device true in
  command_loop fuel defrag max_files 0 0 v.

(** [any(v.bit(c) and c not in occupied for c in cls)] *)
Fixpoint occupied_by_other (b : bytes) (occupied : list Z) (cls : list Z) : result bool :=
  match cls with
  | [] => Ok false
  | c :: rest =>
      used ← bit b c;
      if used && negb (bool_decide (c ∈ occupied)) then Ok true else occupied_by_other b occupied rest
  end.

Definition find_path (entries : list Entry) (p : text) : option Entry :=
  List.find (fun e => bool_decide (e_path e = p)) entries.

(** The layout phase of [growth_command] for one object: whether it moved. *)
Definition grow_one (workspace_start : Z) (targets : list (text * (Z * Z))) (planned : Entry) : xprog bool :=
  let* v := open_volume device true in
  let* entries := parse v in
  match find_path entries (e_path planned), dict_get (e_path planned) (rev targets) with
  | Some current, Some (target, _) =>
      let dst := py_range target (target + py_len (clusters current)) in
      if bool_decide (clusters current = dst) then pret false else
      let occupied := clusters current in
      let* busy := lift (occupied_by_other (bitmap v) occupied dst) in
      pcheck busy # EngineError "exFAT growth target is unexpectedly occupied";
      if existsb (fun c => bool_decide (c ∈ dst)) occupied then
        let stage := py_range workspace_start (workspace_start + py_len (clusters current)) in
        let* busy := lift (occupied_by_other (bitmap v) occupied stage) in
        pcheck busy # EngineError "exFAT staging workspace is unexpectedly occupied";
        let* _ := move_one v current stage in
        let* v := open_volume device true in
        let* entries := parse v in
        match find_path entries (e_path planned) with
        | Some current => let* _ := move_one v current dst in pret true
        | None => lift (raise RuntimeError "StopIteration")
        end
      else let* _ := move_one v current dst in pret true
  | None, _ => lift (raise EngineError "exFAT object disappeared during layout")
  | _, None => lift (raise KeyError "targets")
  end.

Fixpoint grow_all (workspace_start : Z) (targets : list (text * (Z * Z))) (i : nat) (objects : list Entry) (moved : Z) : xprog (Z * Z) :=
  match objects with
  | [] => pret (0, moved)
  | planned :: rest =>
      if stop i then pret (130, moved) else
      let* did := grow_one workspace_start targets planned in
      grow_all workspace_start targets (S i) rest (if did then moved + 1 else moved)
  end.

(** The unused clusters, for the space test. *)
Definition count_unused (v : Volume) : result Z :=
  used ← mapM_result (bit (bitmap v)) (py_range 2 (cc (geo v) + 2));
  Ok (zsum (map (fun u : bool => if u then 0 else 1) used)).

Definition largest_object (entries : list Entry) : Z :=
  fold_left Z.max (map (fun e => py_len (clusters e)) (allocated entries)) 0.

(** [growth_command]: the exit status. *)
Definition growth_command (mounted journal_exists : bool) (fuel : nat) (percent : Z) : xprog Z :=
  pcheck mounted # EngineError "refusing to modify a mounted exFAT volume";
  pcheck journal_exists # EngineError "unfinished journal exists; run recover";
  let* v := open_volume device false in
  let* entries := parse v in
  let* ok := growth_preflight v percent in
  if ok then pret 0 else
  let reserve := zsum (map (fun e => growth_reserve (clusters e) percent) (filter (fun e => negb (is_dir e)) (allocated entries))) in
  let* free := lift (count_unused v) in
  pcheck free <? largest_object entries + reserve
    # EngineError "not enough exFAT free space for the reserve and staging workspace";
  let* _ := compact_objects fuel None in
  if stop fuel then pret 130 else
  let* v := open_volume device false in
  let* entries := parse v in
  let* (objects, targets) := lift (find_growth_targets v entries percent) in
  let* (workspace_start, workspace_len) := lift (terminal_free_run v) in
  pcheck workspace_len <? largest_object objects # EngineError "could not create a large enough trailing exFAT staging workspace";
  let* (status, _) := grow_all workspace_start targets (S fuel) (rev objects) 0 in
  if negb (status =? 0) then pret status else
  let* v := open_volume device false in
  let* ok := growth_preflight v percent in
  pcheck negb ok # EngineError "exFAT growth layout verification failed";
  pret 0.
End commands.
