(* ===== verification/ExfatFacts.v ===== *)
(** * Correctness of the exFAT engine's data structures

    Proves what the transactions of [Exfat] rely on: a chain linked in the FAT
    is read back as it was linked, with exactly its clusters marked used;
    [free_run] is first fit; a rewritten directory entry set passes the
    checksum test of the directory walk and changes nothing else; the growth
    layout assigns disjoint places clear of the barriers. *)

From S2P Require Import Prelude Text Bytes Ranges Bitmap Device Exfat.

(** ** The bitmap and the FAT *)

Lemma xbit_spec b c : wf_bytes b -> 2 <= c < 8 * py_len b + 2 -> bit b c = Ok (bit_at b (c - 2)).
Proof.
  intros Hw Hc. unfold bit. rewrite shiftr3, land7. pose proof (div8_bounds (c - 2)).
  destruct (py_get_byte b ((c - 2) / 8) Hw ltac:(lia)) as (v & -> & Hv & _). cbn [mbind result_bind]. f_equal.
  unfold bit_at. rewrite Hv. rewrite Z.testbit_odd. change 1 with (Z.ones 1) at 1. rewrite Z.land_ones by lia.
  change (2 ^ 1) with 2. rewrite Zmod_odd. by destruct (Z.odd _).
Qed.

Lemma clear_mask v k : is_byte v -> 0 <= k < 8 -> Z.land v (Z.lnot (Z.shiftl 1 k)) = byte_set v k false.
Proof.
  intros Hv Hk. apply Z.bits_inj'. intros n Hn. rewrite byte_set_bits by done. rewrite Z.land_spec, Z.lnot_spec, Z.shiftl_1_l by lia.
  destruct (Z.eqb_spec n k) as [->|]; [by rewrite Z.pow2_bits_true, andb_false_r by lia|].
  by rewrite Z.pow2_bits_false, andb_true_r by lia.
Qed.

Lemma setbit_spec b c val :
  wf_bytes b -> 2 <= c < 8 * py_len b + 2 ->
  exists b', setbit b c val = Ok b' /\ sets b b' (fun i => i =? c - 2) val.
Proof.
  intros Hw Hc. unfold setbit. set (k := c - 2). assert (0 <= k < 8 * py_len b) as Hk by (unfold k; lia).
  rewrite shiftr3, land7. pose proof (div8_bounds k). pose proof (Z.mod_pos_bound k 8 ltac:(lia)). pose proof (Z.div_mod k 8 ltac:(lia)).
  destruct (py_get_byte b (k / 8) Hw ltac:(lia)) as (v & -> & Hv & Hbv). cbn [mbind result_bind].
  exists (<[Z.to_nat (k / 8) := byte_set v (k mod 8) val]> b). split.
  { rewrite py_set_in by lia. destruct val; [done|]. by rewrite clear_mask by (done || lia). }
  split; [apply Forall_insert; [done|]; by apply is_byte_byte_set|]. split; [apply py_len_insert|].
  intros i Hi. unfold bit_at. pose proof (div8_bounds i). pose proof (Z.mod_pos_bound i 8 ltac:(lia)).
  pose proof (Z.div_mod i 8 ltac:(lia)). destruct (decide (i / 8 = k / 8)) as [He|Hne].
  - rewrite He, list_lookup_insert_eq, Hv by (apply lookup_lt_Some in Hv; lia).
    rewrite byte_set_bits by (done || lia).
    destruct (Z.eqb_spec (i mod 8) (k mod 8)), (Z.eqb_spec i k); congruence || lia || done.
  - rewrite list_lookup_insert_ne by lia. destruct (Z.eqb_spec i k) as [->|]; [lia|done].
Qed.

(** Two FATs that agree everywhere but on some clusters. *)
Definition fat_differs (f f' : bytes) (p : Z -> Prop) : Prop :=
  py_len f' = py_len f /\ forall c, 0 <= c -> ~ p c -> fatget f' c = fatget f c.

Lemma fatset_spec f c v :
  0 <= c -> 4 * c + 4 <= py_len f -> 0 <= v < 2 ^ 32 ->
  exists f', fatset f c v = Ok f' /\ fatget f' c = Ok v /\ fat_differs f f' (fun x => x = c).
Proof.
  intros Hc Hl Hv. unfold fatset. rewrite pack_into_ok by (change (256 ^ Z.of_nat 4) with (2 ^ 32); lia).
  eexists. split; [done|]. change (Z.of_nat 4) with 4. split; [apply u32le_set; (lia || done)|].
  assert (py_len (le_digits 4 v) = 4) as Hd by apply py_len_le_digits.
  split; [rewrite py_len_set_slice; lia|]. intros x Hx Hne. unfold fatget.
  destruct (Z.le_gt_cases (x * 4 + 4) (py_len f)).
  - apply u32le_same; [lia|rewrite py_len_set_slice; lia|rewrite py_len_set_slice; lia|]. intros i Hi.
    rewrite nthZ_set_slice by lia. destruct ((c * 4 <=? i) && (i <? c * 4 + 4)) eqn:E; [|done]. bool_to_prop. lia.
  - unfold u32le, unpack_from. rewrite (proj2 (Z.ltb_ge (x * 4) 0)) by lia. cbv zeta.
    rewrite !(proj2 (Z.ltb_lt (py_len _) _)) by (rewrite ?py_len_set_slice; lia). by rewrite !orb_true_r.
Qed.

Lemma fat_differs_trans a b c p q : fat_differs a b p -> fat_differs b c q -> fat_differs a c (fun x => p x \/ q x).
Proof. intros [L1 H1] [L2 H2]. split; [lia|]. intros x Hx Hn. rewrite H2, H1 by tauto. done. Qed.

Lemma fat_differs_weaken a b p q : fat_differs a b p -> (forall x, p x -> q x) -> fat_differs a b q.
Proof. intros [L H] Hq. split; [done|]. intros x Hx Hn. apply H; auto. Qed.

(** ** Chains *)

(** A cluster with a FAT entry and a bit, not an end-of-chain value. *)
Definition addressable (v : Volume) (c : Z) : Prop :=
  2 <= c < 4294967288 /\ 4 * c + 4 <= py_len (fat v) /\ c < 8 * py_len (bitmap v) + 2.

Lemma addressable_same v v' c :
  py_len (fat v') = py_len (fat v) -> py_len (bitmap v') = py_len (bitmap v) -> addressable v c -> addressable v' c.
Proof. unfold addressable. intros -> ->. done. Qed.

(** Each cluster of the list points to the next, the last to the end mark. *)
Fixpoint linked (f : bytes) (cls : list Z) : Prop :=
  match cls with
  | [] => True
  | c :: rest => fatget f c = Ok (match rest with n :: _ => n | [] => EOC end) /\ linked f rest
  end.

Lemma linked_same f f' p cls :
  fat_differs f f' p -> Forall (fun c => 0 <= c /\ ~ p c) cls -> linked f cls -> linked f' cls.
Proof.
  intros Hd H. induction H as [|c rest [Hc Hn] _ IH]; [done|]. intros [Hg Hl]. split; [|by apply IH].
  destruct Hd as [_ Hd]. by rewrite Hd.
Qed.

(** [in_list cls i] with [i] counted from the first bit of the bitmap *)
Definition in_list (cls : list Z) (i : Z) : bool := bool_decide (i + 2 ∈ cls).

Lemma link_chain_spec cls : forall v,
  wf_bytes (bitmap v) -> Forall (addressable v) cls -> NoDup cls ->
  exists v', link_chain v cls = Ok v' /\ linked (fat v') cls /\ fat_differs (fat v) (fat v') (fun c => c ∈ cls) /\
    sets (bitmap v) (bitmap v') (in_list cls) true /\ geo v' = geo v /\ bitmap_clusters v' = bitmap_clusters v.
Proof.
  induction cls as [|c rest IH]; intros v Hw Ha Hnd.
  { exists v. split; [done|]. split; [done|]. split; [split; [done|]; intros; done|].
    split; [|done]. apply sets_none; [done|]. intros i _. unfold in_list. apply bool_decide_eq_false. set_solver. }
  apply Forall_cons in Ha as [(Hc & Hf & Hb) Ha]. apply NoDup_cons in Hnd as [Hno Hnd]. cbn [link_chain].
  destruct (setbit_spec (bitmap v) c true Hw ltac:(lia)) as (b & -> & Hsb). cbn [mbind result_bind].
  assert (0 <= match rest with n :: _ => n | [] => EOC end < 2 ^ 32) as Hv.
  { destruct rest as [|n rest']; [unfold EOC; lia|]. apply Forall_cons in Ha as [(? & _ & _) _]. lia. }
  destruct (fatset_spec (fat v) c _ ltac:(lia) Hf Hv) as (f & -> & Hget & Hdf). cbn [mbind result_bind].
  pose proof Hsb as (Wb & Lb & _). pose proof Hdf as (Lf & _).
  destruct (IH (set_fat (set_bitmap v b) f)) as (v' & -> & Hlink & Hd & Hs & Hg & Hbc); [done| |done|].
  { eapply Forall_impl; [exact Ha|]. intros x. by apply addressable_same. }
  exists v'. split; [done|]. cbn [fat set_fat set_bitmap bitmap] in Hd, Hs. split; [|split; [|split; [|done]]].
  - split; [|done]. destruct Hd as [_ Hd]. rewrite Hd by (done || lia). done.
  - eapply fat_differs_weaken; [by eapply fat_differs_trans|]. intros x [->|Hx]; set_solver.
  - eapply sets_trans; [exact Hsb|exact Hs|]. intros i Hi. unfold in_list. destruct (Z.eqb_spec i (c - 2)) as [->|Hne]; simpl.
    + rewrite bool_decide_eq_true. set_solver by lia.
    + apply bool_decide_ext. rewrite elem_of_cons. split; [intros [?|?]; [lia|done]|by right].
Qed.

Lemma release_chain_spec cls : forall v,
  wf_bytes (bitmap v) -> Forall (addressable v) cls ->
  exists v', release_chain v cls = Ok v' /\ Forall (fun c => fatget (fat v') c = Ok 0) cls /\
    fat_differs (fat v) (fat v') (fun c => c ∈ cls) /\
    sets (bitmap v) (bitmap v') (in_list cls) false /\ geo v' = geo v /\ bitmap_clusters v' = bitmap_clusters v.
Proof.
  induction cls as [|c rest IH]; intros v Hw Ha.
  { exists v. split; [done|]. split; [constructor|]. split; [split; [done|]; intros; done|].
    split; [|done]. apply sets_none; [done|]. intros i _. unfold in_list. apply bool_decide_eq_false. set_solver. }
  apply Forall_cons in Ha as [(Hc & Hf & Hb) Ha]. cbn [release_chain].
  destruct (setbit_spec (bitmap v) c false Hw ltac:(lia)) as (b & -> & Hsb). cbn [mbind result_bind].
  destruct (fatset_spec (fat v) c 0 ltac:(lia) Hf ltac:(lia)) as (f & -> & Hget & Hdf). cbn [mbind result_bind].
  pose proof Hsb as (Wb & Lb & _). pose proof Hdf as (Lf & _).
  destruct (IH (set_fat (set_bitmap v b) f)) as (v' & -> & Hzero & Hd & Hs & Hg & Hbc); [done| |].
  { eapply Forall_impl; [exact Ha|]. intros x. by apply addressable_same. }
  exists v'. split; [done|]. cbn [fat set_fat set_bitmap bitmap] in Hd, Hs. split; [|split; [|split; [|done]]].
  - constructor; [|done]. destruct (decide (c ∈ rest)) as [Hin|Hin]; [rewrite Forall_forall in Hzero; by apply Hzero|].
    destruct Hd as [_ Hd]. rewrite Hd by (done || lia). done.
  - eapply fat_differs_weaken; [by eapply fat_differs_trans|]. intros x [->|Hx]; set_solver.
  - eapply sets_trans; [exact Hsb|exact Hs|]. intros i Hi. unfold in_list. destruct (Z.eqb_spec i (c - 2)) as [->|Hne]; simpl.
    + rewrite bool_decide_eq_true. set_solver by lia.
    + apply bool_decide_ext. rewrite elem_of_cons. split; [intros [?|?]; [lia|done]|by right].
Qed.

(** Following a linked chain from its head. *)
Lemma chain_loop_linked f count rest : forall fuel out c,
  linked f (c :: rest) -> Forall (fun x => 2 <= x < 4294967288) (c :: rest) -> NoDup (out ++ c :: rest) ->
  (length rest < fuel)%nat -> (count = None \/ count = Some (py_len (out ++ c :: rest))) ->
  chain_loop fuel f count out c = Ok (out ++ c :: rest).
Proof.
  induction rest as [|n rest IH]; intros fuel out c Hl Hr Hnd Hf Hc; apply Forall_cons in Hr as [Hrc Hr];
    (destruct fuel as [|fuel]; [lia|]); cbn [chain_loop];
    rewrite (proj2 (Z.leb_le 2 c)), (proj2 (Z.ltb_lt c _)) by lia; cbn [andb];
    (rewrite bool_decide_eq_false_2 by (apply NoDup_app in Hnd as (_ & Hd & _); intros Hin; apply (Hd c Hin); set_solver)).
  - assert (match count with Some n => n <=? py_len (out ++ [c]) | None => false end = match count with Some _ => true | None => false end) as ->.
    { destruct Hc as [->| ->]; [done|]. by rewrite Z.leb_refl. }
    destruct count; [done|]. destruct Hl as [-> _]. cbn [mbind result_bind]. destruct fuel; done.
  - assert (match count with Some n => n <=? py_len (out ++ [c]) | None => false end = false) as ->.
    { destruct Hc as [->| ->]; [done|]. apply Z.leb_gt. rewrite !py_len_app, !py_len_cons. pose proof (py_len_nonneg rest). change (py_len (@nil Z)) with 0. lia. }
    destruct Hl as [-> Hl]. cbn [mbind result_bind]. rewrite (IH fuel (out ++ [c]) n); rewrite <- ?app_assoc; try done. simpl in Hf. lia.
Qed.

Lemma chain_linked f cls c rest :
  cls = c :: rest -> linked f cls -> Forall (fun x => 2 <= x < 4294967288 /\ 4 * x + 4 <= py_len f) cls -> NoDup cls ->
  chain f c (Some (py_len cls)) false = Ok cls /\ chain f c None false = Ok cls.
Proof.
  intros -> Hl Ha Hnd. assert (length (c :: rest) <= length f)%nat as Hlen.
  { assert (c :: rest ⊆+ map Z.of_nat (seq 0 (length f))) as Hsub.
    { apply NoDup_submseteq; [done|]. intros x Hx. rewrite Forall_forall in Ha. destruct (Ha x Hx) as [? Hx4]. unfold py_len in Hx4.
      apply list_elem_of_fmap. exists (Z.to_nat x). split; [lia|]. apply elem_of_seq. lia. }
    apply submseteq_length in Hsub. by rewrite length_map, length_seq in Hsub. }
  assert (Forall (fun x => 2 <= x < 4294967288) (c :: rest)) as Hr by (eapply Forall_impl; [exact Ha|]; by intros x [? _]).
  assert (c <> 0) as Hc0 by (apply Forall_cons in Hr as [? _]; lia). unfold chain. rewrite (proj2 (Z.eqb_neq c 0)) by done.
  simpl in Hlen. split.
  - rewrite (chain_loop_linked f (Some (py_len (c :: rest))) rest); try done; [|lia|by right].
    cbn [mbind result_bind app]. by rewrite Z.eqb_refl.
  - rewrite (chain_loop_linked f None rest); try done; [lia|by left].
Qed.

(** C37. The metadata half of a move: linking the destination clusters and
    releasing the sources always succeeds for disjoint, addressable clusters;
    the FAT chain from the first destination cluster is then read back as
    exactly the destination, with and without a cluster count; destination bits
    are set, source bits clear, and every other bit and FAT entry is as before. *)
Theorem link_release_roundtrip (v : Volume) (src : list Z) (c : Z) (rest : list Z)
    (Hbytes : wf_bytes (bitmap v)) (Hsrc : Forall (addressable v) src) (Hdst : Forall (addressable v) (c :: rest))
    (Hnd : NoDup (c :: rest)) (Hdisj : forall x, x ∈ src -> x ∉ c :: rest) :
  exists v1 v2, link_chain v (c :: rest) = Ok v1 /\ release_chain v1 src = Ok v2 /\
    chain (fat v2) c (Some (py_len (c :: rest))) false = Ok (c :: rest) /\ chain (fat v2) c None false = Ok (c :: rest) /\
    (forall x, 2 <= x -> bit_at (bitmap v2) (x - 2) =
       if bool_decide (x ∈ c :: rest) then true else if bool_decide (x ∈ src) then false else bit_at (bitmap v) (x - 2)) /\
    (forall x, 0 <= x -> x ∉ c :: rest -> x ∉ src -> fatget (fat v2) x = fatget (fat v) x).
Proof.
  destruct (link_chain_spec (c :: rest) v Hbytes Hdst Hnd) as (v1 & H1 & Hlink & [L1 D1] & (W1 & B1 & S1) & _).
  destruct (release_chain_spec src v1 W1) as (v2 & H2 & _ & [L2 D2] & (W2 & B2 & S2) & _).
  { eapply Forall_impl; [exact Hsrc|]. intros x. by apply addressable_same. }
  exists v1, v2. split; [done|]. split; [done|].
  assert (linked (fat v2) (c :: rest)) as Hl2.
  { eapply (linked_same (fat v1) _ (fun x => x ∈ src)); [done| |done]. apply Forall_forall. intros x Hx. rewrite Forall_forall in Hdst.
    destruct (Hdst x Hx) as (? & _). split; [lia|]. intros Hs. by apply (Hdisj x Hs). }
  destruct (chain_linked (fat v2) (c :: rest) c rest eq_refl Hl2) as [Hc1 Hc2]; [|done|].
  { eapply Forall_impl; [exact Hdst|]. intros x (? & ? & _). rewrite L2, L1. lia. }
  split; [done|]. split; [done|]. split.
  - intros x Hx. rewrite S2, S1 by lia. unfold in_list. replace (x - 2 + 2) with x by lia.
    destruct (bool_decide (x ∈ src)) eqn:Es; [|done]. apply bool_decide_eq_true in Es.
    by rewrite bool_decide_eq_false_2 by by apply Hdisj.
  - intros x Hx Hd Hs. rewrite D2, D1 by done. done.
Qed.

Definition toy_geometry : Geometry := mkGeometry [] 16 1 16 2 8 10 30 4 7 0 1 0 32.
Definition toy_volume : Volume := mkVolume toy_geometry true (py_zeros 128) 2 4 [2] [255; 15; 0; 0].

Lemma link_release_roundtrip_witness :
  exists v1 v2, link_chain toy_volume [20; 14; 15] = Ok v1 /\ release_chain v1 [5; 6; 9] = Ok v2 /\
    chain (fat v2) 20 (Some 3) false = Ok [20; 14; 15] /\ chain (fat v2) 20 None false = Ok [20; 14; 15] /\
    (forall x, 2 <= x -> bit_at (bitmap v2) (x - 2) =
       if bool_decide (x ∈ [20; 14; 15]) then true else if bool_decide (x ∈ [5; 6; 9]) then false else bit_at [255; 15; 0; 0] (x - 2)) /\
    (forall x, 0 <= x -> x ∉ [20; 14; 15] -> x ∉ [5; 6; 9] -> fatget (fat v2) x = fatget (py_zeros 128) x).
Proof.
  apply (link_release_roundtrip toy_volume [5; 6; 9] 20 [14; 15]).
  - repeat constructor; lia.
  - repeat constructor; vm_compute; done.
  - repeat constructor; vm_compute; done.
  - apply (bool_decide_unpack _). vm_compute. exact I.
  - intros x Hx. assert (Forall (fun x => x ∉ [20; 14; 15]) [5; 6; 9]) as H by (apply (bool_decide_unpack _); vm_compute; exact I).
    rewrite Forall_forall in H. by apply H.
Defined.

(** ** First fit *)

(** The cluster is free and not excluded. *)
Definition usable (v : Volume) (exclude : list Z) (c : Z) : bool :=
  negb (bit_at (bitmap v) (c - 2)) && negb (bool_decide (c ∈ exclude)).

Definition window (v : Volume) (exclude : list Z) (start n : Z) : Prop :=
  forall c, start <= c < start + n -> usable v exclude c = true.

(** The upward scan at [c]: [run] usable clusters end just before [c]. *)
Lemma free_run_loop_spec v n exclude limit : forall rng c run,
  wf_bytes (bitmap v) -> 1 <= n -> 0 <= run < n -> 2 <= c - run -> limit <= 8 * py_len (bitmap v) + 2 ->
  rng = py_range c limit -> c <= limit ->
  window v exclude (c - run) run -> (forall s, 2 <= s -> s + n <= limit -> window v exclude s n -> c - run <= s) ->
  exists r, free_run_loop (bitmap v) n true exclude rng (if run =? 0 then None else Some (c - run)) run
              (if c =? 2 then None else Some (c - 1)) = Ok r /\
    match r with
    | Some s => 2 <= s /\ s + n <= limit /\ window v exclude s n /\ (forall s', 2 <= s' < s -> s' + n <= limit -> ~ window v exclude s' n)
    | None => forall s, 2 <= s -> s + n <= limit -> ~ window v exclude s n
    end.
Proof.
  intros rng. induction rng as [|x rng IH]; intros c run Hw Hn Hrun Hc Hlim Hrng Hle Hwin Hmin.
  { exists None. split; [done|]. intros s Hs Hfit Hwn.
    assert (limit <= c) as Hend. { destruct (Z.le_gt_cases limit c) as [|Hlt]; [done|]. by rewrite py_range_cons in Hrng. }
    specialize (Hmin s Hs Hfit Hwn). lia. }
  assert (c < limit) as Hlt. { destruct (Z.le_gt_cases limit c) as [Hge|]; [|done]. by rewrite py_range_nil in Hrng. }
  rewrite py_range_cons in Hrng by done. injection Hrng as -> Hrng. cbn [free_run_loop]. rewrite xbit_spec by (done || lia). cbn [mbind result_bind].
  assert (match (if c =? 2 then None else Some (c - 1)) with None => true | Some p => c =? p + 1 end = true) as ->
    by (destruct (c =? 2); [done|]; apply Z.eqb_eq; lia).
  fold (usable v exclude c). rewrite andb_true_r. destruct (usable v exclude c) eqn:Eu.
  - assert (default c (if run =? 0 then None else Some (c - run)) = c - run) as -> by (destruct (Z.eqb_spec run 0); simpl; lia).
    assert (window v exclude (c - run) (run + 1)) as Hwin'.
    { intros y Hy. destruct (decide (y = c)) as [->|]; [done|]. apply Hwin. lia. }
    destruct (Z.leb_spec n (run + 1)).
    + exists (Some (c - run)). split; [done|]. assert (n = run + 1) as -> by lia. split; [lia|]. split; [lia|]. split; [done|].
      intros s' Hs' Hfit Hwn. specialize (Hmin s' ltac:(lia) Hfit Hwn). lia.
    + destruct (IH (c + 1) (run + 1)) as (r & Hr & Hspec); try done; try lia.
      { by replace (c + 1 - (run + 1)) with (c - run) by lia. }
      { replace (c + 1 - (run + 1)) with (c - run) by lia. done. }
      exists r. split; [|done]. rewrite (proj2 (Z.eqb_neq (run + 1) 0)), (proj2 (Z.eqb_neq (c + 1) 2)) in Hr by lia.
      by replace (c + 1 - (run + 1)) with (c - run) in Hr by lia; replace (c + 1 - 1) with c in Hr by lia.
  - destruct (IH (c + 1) 0) as (r & Hr & Hspec); try done; try lia.
    { intros y Hy. lia. }
    { intros s Hs Hfit Hwn. destruct (Z.le_gt_cases (c + 1 - 0) s) as [|Hsc]; [lia|]. specialize (Hmin s Hs Hfit Hwn).
      specialize (Hwn c ltac:(lia)). congruence. }
    exists r. split; [|done]. rewrite (proj2 (Z.eqb_neq (c + 1) 2)) in Hr by lia. by replace (c + 1 - 1) with c in Hr by lia.
Qed.

(** [free_run] with [prefer_low] terminates and is first fit: it returns the
    lowest start of [n] consecutive free clusters of the volume outside the
    excluded set, and [None] exactly when there is no such run. *)
Theorem exfat_free_run_first_fit (v : Volume) (n : Z) (exclude : list Z)
    (Hbytes : wf_bytes (bitmap v)) (Hcover : cc (geo v) <= 8 * py_len (bitmap v)) (Hcc : 0 <= cc (geo v)) (Hn : 1 <= n) :
  exists r, free_run v n true exclude = Ok r /\
    match r with
    | Some s => 2 <= s /\ s + n <= cc (geo v) + 2 /\ window v exclude s n /\
        (forall s', 2 <= s' < s -> s' + n <= cc (geo v) + 2 -> ~ window v exclude s' n)
    | None => forall s, 2 <= s -> s + n <= cc (geo v) + 2 -> ~ window v exclude s n
    end.
Proof.
  unfold free_run. apply (free_run_loop_spec v n exclude (cc (geo v) + 2) (py_range 2 (cc (geo v) + 2)) 2 0); try done; try lia.
  intros y Hy. lia.
Qed.

Lemma exfat_free_run_first_fit_witness :
  exists r, free_run toy_volume 3 true [14] = Ok r /\
    match r with
    | Some s => 2 <= s /\ s + 3 <= 32 /\ window toy_volume [14] s 3 /\ (forall s', 2 <= s' < s -> s' + 3 <= 32 -> ~ window toy_volume [14] s' 3)
    | None => forall s, 2 <= s -> s + 3 <= 32 -> ~ window toy_volume [14] s 3
    end.
Proof.
  apply (exfat_free_run_first_fit toy_volume 3 [14]).
  - repeat constructor; lia.
  - vm_compute. done.
  - vm_compute. done.
  - lia.
Defined.

(** ** Directory entry sets *)

Lemma py_get_nth {A} (l : list A) i :
  0 <= i -> py_get l i = match nthZ l i with Some x => Ok x | None => raise IndexError "index out of range" end.
Proof.
  intros Hi. unfold py_get. rewrite (proj2 (Z.ltb_ge i 0)) by lia. cbv zeta. by rewrite (proj2 (Z.ltb_ge i 0)) by lia.
Qed.

Lemma foldM_ext {A B} (f g : B -> A -> result B) l : forall acc,
  (forall b a, a ∈ l -> f b a = g b a) -> foldM f acc l = foldM g acc l.
Proof.
  induction l as [|x l IH]; intros acc H; [done|]. cbn [foldM]. rewrite H by set_solver.
  destruct (g acc x); [|done]. cbn [mbind result_bind]. apply IH. intros. apply H. set_solver.
Qed.

Lemma checksum_same data data' off count :
  0 <= off -> (forall i, 0 <= i < count * 32 -> i <> 2 -> i <> 3 -> nthZ data' (off + i) = nthZ data (off + i)) ->
  checksum_set data' off count = checksum_set data off count.
Proof.
  intros Ho H. unfold checksum_set. apply foldM_ext. intros s i Hi%elem_of_py_range.
  destruct (Z.eqb_spec i 2), (Z.eqb_spec i 3); try done. simpl. rewrite !py_get_nth, H by lia. done.
Qed.

Lemma find_stream_spec data off js s :
  find_stream data off js = Ok (Some s) -> exists j, j ∈ js /\ s = off + j * 32.
Proof.
  induction js as [|j js IH]; cbn [find_stream]; intros H; [done|]. inv_ok. destruct (a =? 192).
  - injection H as <-. exists j. set_solver.
  - destruct (IH H) as (j' & ? & ?). exists j'. set_solver.
Qed.

Lemma find_stream_same data data' off js :
  0 <= off -> (forall j, j ∈ js -> 0 <= j /\ nthZ data' (off + j * 32) = nthZ data (off + j * 32)) ->
  find_stream data' off js = find_stream data off js.
Proof.
  intros Ho. induction js as [|j js IH]; intros H; [done|]. cbn [find_stream].
  destruct (H j ltac:(set_solver)) as [Hj Hn]. rewrite !py_get_nth, Hn by lia. destruct (nthZ data (off + j * 32)); [|done]. cbn [mbind result_bind].
  rewrite IH; [done|]. intros; apply H; set_solver.
Qed.

Lemma nthZ_insert {A} (l : list A) i j v :
  0 <= i < py_len l -> 0 <= j -> nthZ (<[Z.to_nat i := v]> l) j = if j =? i then Some v else nthZ l j.
Proof.
  intros Hi Hj. unfold nthZ, py_len in *. destruct (Z.eqb_spec j i) as [->|].
  - apply list_lookup_insert_eq. lia.
  - apply list_lookup_insert_ne. lia.
Qed.

Lemma flag_bit fl (b : bool) : 0 <= fl -> Z.testbit (if b then Z.lor fl 2 else Z.land fl (Z.lnot 2)) 1 = b.
Proof. intros. destruct b; rewrite ?Z.lor_spec, ?Z.land_spec, ?Z.lnot_spec by lia; [apply orb_true_r|apply andb_false_r]. Qed.

(** The bytes [update_entry] may change: the checksum, the flags and the first
    cluster of the stream extension at [s]. *)
Definition entry_field (off s i : Z) : Prop := off + 2 <= i < off + 4 \/ i = s + 1 \/ s + 20 <= i < s + 24.

(** Rewriting a directory entry set: the length is kept, the set passes the
    checksum test the directory walk applies, its stream extension is found in
    the same place with the new first cluster and the new no-FAT-chain flag,
    and only the checksum, flag and first-cluster bytes differ. *)
Theorem update_entry_valid (data data' : bytes) (off count new_first : Z) (new_nofat : bool)
    (Hbytes : wf_bytes data) (Hoff : 0 <= off) (Hroom : off + count * 32 <= py_len data)
    (Hupdate : update_entry_bytes data off count new_first new_nofat = Ok data') :
  py_len data' = py_len data /\
  exists s sum fl, find_stream data' off (py_range 1 count) = Ok (Some s) /\
    checksum_set data' off count = Ok sum /\ u16le data' (off + 2) = Ok sum /\
    u32le data' (s + 20) = Ok new_first /\ nthZ data' (s + 1) = Some fl /\ Z.testbit fl 1 = new_nofat /\
    forall i, 0 <= i -> ~ entry_field off s i -> nthZ data' i = nthZ data i.
Proof.
  unfold update_entry_bytes in Hupdate. destruct (find_stream data off (py_range 1 count)) as [[s|]|] eqn:Ef; [|done..].
  cbn [mbind result_bind] in Hupdate. destruct (find_stream_spec _ _ _ _ Ef) as (j & Hj%elem_of_py_range & Hs).
  assert (off + 32 <= s /\ s + 32 <= off + count * 32) as [Hs0 Hs1] by lia.
  destruct (pack_into 4 data (s + 20) new_first) as [d1|] eqn:E1; [|done]. cbn [mbind result_bind] in Hupdate.
  apply pack_into_inv in E1 as (Hl1 & Hv1 & E1); [|lia]. change (Z.of_nat 4) with 4 in *.
  assert (py_len (le_digits 4 new_first) = 4) as Hd4 by apply py_len_le_digits.
  assert (py_len d1 = py_len data) as L1 by (rewrite E1, py_len_set_slice; lia).
  assert (wf_bytes d1) as W1 by (rewrite E1; auto with defrag).
  destruct (py_get_byte d1 (s + 1) W1 ltac:(lia)) as (fl & Efl & _ & Hfl). rewrite Efl in Hupdate. cbn [mbind result_bind] in Hupdate.
  set (nfl := if new_nofat then Z.lor fl 2 else Z.land fl (Z.lnot 2)) in *. rewrite py_set_in in Hupdate by lia. cbn [mbind result_bind] in Hupdate.
  set (d2 := <[Z.to_nat (s + 1) := nfl]> d1) in *. assert (py_len d2 = py_len data) as L2 by (unfold d2; rewrite py_len_insert; lia).
  destruct (checksum_set d2 off count) as [sum|] eqn:Ec; [|done]. cbn [mbind result_bind] in Hupdate.
  apply pack_into_inv in Hupdate as (Hl3 & Hv3 & E3); [|lia]. change (Z.of_nat 2) with 2 in *.
  assert (py_len (le_digits 2 sum) = 2) as Hd2 by apply py_len_le_digits.
  assert (N3 : forall i, 0 <= i -> nthZ data' i = if (off + 2 <=? i) && (i <? off + 4) then nthZ (le_digits 2 sum) (i - (off + 2)) else nthZ d2 i).
  { intros i Hi. rewrite E3. replace (off + 4) with (off + 2 + 2) by lia. apply nthZ_set_slice; lia. }
  assert (N2 : forall i, 0 <= i -> nthZ d2 i = if i =? s + 1 then Some nfl else nthZ d1 i) by (intros i Hi; apply nthZ_insert; lia).
  assert (N1 : forall i, 0 <= i -> nthZ d1 i = if (s + 20 <=? i) && (i <? s + 24) then nthZ (le_digits 4 new_first) (i - (s + 20)) else nthZ data i).
  { intros i Hi. rewrite E1. replace (s + 24) with (s + 20 + 4) by lia. apply nthZ_set_slice; lia. }
  assert (Hother : forall i, 0 <= i -> ~ entry_field off s i -> nthZ data' i = nthZ data i).
  { intros i Hi Hn. unfold entry_field in Hn. rewrite N3, N2, N1 by done.
    destruct ((off + 2 <=? i) && (i <? off + 4)) eqn:Ea; [bool_to_prop; lia|]. destruct (Z.eqb_spec i (s + 1)); [lia|].
    destruct ((s + 20 <=? i) && (i <? s + 24)) eqn:Eb; [bool_to_prop; lia|]. done. }
  split; [rewrite E3, py_len_set_slice; lia|]. exists s, sum, nfl. split; [|split; [|split; [|split; [|split; [|split]]]]].
  - rewrite <- Ef. apply find_stream_same; [done|]. intros k Hk%elem_of_py_range. split; [lia|]. apply Hother; [lia|]. unfold entry_field. lia.
  - rewrite <- Ec. apply checksum_same; [done|]. intros i Hi H2 H3. rewrite N3 by lia.
    destruct ((off + 2 <=? off + i) && (off + i <? off + 4)) eqn:E; [bool_to_prop; lia|done].
  - rewrite E3. apply u16le_set; (lia || done).
  - rewrite <- (u32le_set data (s + 20) new_first ltac:(lia) ltac:(lia) Hv1), <- E1. apply u32le_same; [lia| |rewrite E3, py_len_set_slice; lia|].
    { rewrite E3, py_len_set_slice; lia. }
    intros i Hi. rewrite N3, N2 by lia. destruct ((off + 2 <=? i) && (i <? off + 4)) eqn:Ea; [bool_to_prop; lia|].
    destruct (Z.eqb_spec i (s + 1)); [lia|done].
  - rewrite N3, N2 by lia. destruct ((off + 2 <=? s + 1) && (s + 1 <? off + 4)) eqn:Ea; [bool_to_prop; lia|]. by rewrite Z.eqb_refl.
  - apply flag_bit. apply Hfl.
  - exact Hother.
Qed.

Definition toy_entry : bytes :=
  py_zeros 32 ++ ([133; 2] ++ py_zeros 30) ++ ([192; 1; 0; 3] ++ py_zeros 4 ++ [200] ++ py_zeros 11 ++ [9; 0; 0; 0; 200] ++ py_zeros 7)
  ++ ([193; 0; 65; 0; 66; 0; 67; 0] ++ py_zeros 24).

Lemma update_entry_valid_witness :
  exists data', update_entry_bytes toy_entry 32 3 21 true = Ok data' /\ py_len data' = 128 /\
    exists s sum fl, find_stream data' 32 (py_range 1 3) = Ok (Some s) /\
      checksum_set data' 32 3 = Ok sum /\ u16le data' (32 + 2) = Ok sum /\
      u32le data' (s + 20) = Ok 21 /\ nthZ data' (s + 1) = Some fl /\ Z.testbit fl 1 = true /\
      forall i, 0 <= i -> ~ entry_field 32 s i -> nthZ data' i = nthZ toy_entry i.
Proof.
  destruct (update_entry_bytes toy_entry 32 3 21 true) as [data'|] eqn:E; [|vm_compute in E; discriminate E].
  exists data'. split; [done|]. apply (update_entry_valid toy_entry data' 32 3 21 true).
  - repeat constructor; lia.
  - lia.
  - vm_compute. discriminate.
  - exact E.
Defined.

(** ** The growth layout *)

Definition clear_of (barriers : list Z) (s need : Z) : Prop := forall c, s <= c < s + need -> c ∉ barriers.

Lemma place_spec barriers limit need : forall fuel start,
  1 <= need -> limit - start < Z.of_nat fuel ->
  match place fuel barriers limit need start with
  | Some s => start <= s /\ s + need <= limit /\ clear_of barriers s need /\
      (forall s', start <= s' < s -> ~ clear_of barriers s' need)
  | None => forall s', start <= s' -> s' + need <= limit -> ~ clear_of barriers s' need
  end.
Proof.
  induction fuel as [|fuel IH]; intros start Hn Hf; cbn [place]; [intros s' Hs' Hfit; lia|].
  destruct (Z.leb_spec (start + need) limit); [|intros s' Hs' Hfit; lia].
  destruct (List.find _ (py_range start (start + need))) as [b|] eqn:Ef.
  - apply find_some in Ef as [Hin Hb]. apply list_elem_of_In, elem_of_py_range in Hin. apply bool_decide_eq_true in Hb.
    assert (Hskip : forall s', start <= s' -> s' <= b -> ~ clear_of barriers s' need) by (intros s' H1 H2 Hc; by apply (Hc b ltac:(lia))).
    specialize (IH (b + 1) Hn ltac:(lia)). destruct (place fuel barriers limit need (b + 1)) as [s|].
    + destruct IH as (H1 & H2 & H3 & H4). split; [lia|]. split; [done|]. split; [done|]. intros s' Hs'.
      destruct (Z.le_gt_cases s' b); [apply Hskip; lia|apply H4; lia].
    + intros s' Hs' Hfit. destruct (Z.le_gt_cases s' b); [apply Hskip; lia|apply IH; lia].
  - split; [lia|]. split; [lia|]. split; [|intros; lia]. intros c Hc Hbar.
    assert (In c (py_range start (start + need))) as Hi by (apply list_elem_of_In, elem_of_py_range; lia).
    pose proof (find_none _ _ Ef c Hi) as Hx. by apply bool_decide_eq_false in Hx.
Qed.

(** The clusters an object needs: its own and its reserve. *)
Definition object_need (percent : Z) (e : Entry) : Z :=
  py_len (clusters e) + (if is_dir e then 0 else growth_reserve (clusters e) percent).

(** The objects are placed one behind the other, clear of the barriers, each at
    the lowest place behind the previous one. *)
Fixpoint laid_out (barriers : list Z) (limit percent cursor : Z) (objects : list Entry) (targets : list (text * (Z * Z))) : Prop :=
  match objects, targets with
  | [], [] => True
  | e :: os, (p, (s, r)) :: ts =>
      p = e_path e /\ py_len (clusters e) + r = object_need percent e /\ cursor <= s /\ s + object_need percent e <= limit /\
      clear_of barriers s (object_need percent e) /\
      (forall s', cursor <= s' < s -> ~ clear_of barriers s' (object_need percent e)) /\
      laid_out barriers limit percent (s + object_need percent e) os ts
  | _, _ => False
  end.

Lemma growth_reserve_nonneg cls percent : 0 <= percent -> 0 <= growth_reserve cls percent.
Proof. intros. unfold growth_reserve. destruct (bool_decide _); [lia|]. apply Z.div_pos; [pose proof (py_len_nonneg cls); nia|lia]. Qed.

Lemma place_all_spec barriers limit percent objects : forall cursor,
  0 <= percent -> Forall (fun e => clusters e <> []) objects ->
  match place_all barriers limit percent cursor objects with
  | Ok targets => laid_out barriers limit percent cursor objects targets
  | Raise e => exn_kind e = EngineError
  end.
Proof.
  induction objects as [|e os IH]; intros cursor Hp Hne; [done|]. apply Forall_cons in Hne as [He Hne]. cbn [place_all].
  set (r := if is_dir e then 0 else growth_reserve (clusters e) percent).
  assert (1 <= py_len (clusters e) + r) as Hneed.
  { assert (0 <= r) by (unfold r; destruct (is_dir e); [lia|by apply growth_reserve_nonneg]).
    destruct (clusters e) as [|c l]; [done|]. rewrite py_len_cons. pose proof (py_len_nonneg l). lia. }
  pose proof (place_spec barriers limit (py_len (clusters e) + r) (Z.to_nat (limit - cursor) + 1) cursor Hneed ltac:(lia)) as Hplace.
  destruct (place _ barriers limit _ cursor) as [s|]; [|done]. destruct Hplace as (H1 & H2 & H3 & H4).
  specialize (IH (s + (py_len (clusters e) + r)) Hp Hne).
  destruct (place_all barriers limit percent (s + (py_len (clusters e) + r)) os) as [ts|]; cbn [mbind result_bind]; [|done].
  split; [done|]. split; [done|]. done.
Qed.

Lemma mapM_bits v cls :
  wf_bytes (bitmap v) -> Forall (fun c => 2 <= c < 8 * py_len (bitmap v) + 2) cls ->
  mapM_result (fun c => u ← bit (bitmap v) c; Ok (c, u)) cls = Ok (map (fun c => (c, bit_at (bitmap v) (c - 2))) cls).
Proof.
  intros Hw. induction 1 as [|c cls Hc _ IH]; [done|]. cbn [mapM_result]. rewrite xbit_spec by done. cbn [mbind result_bind].
  by rewrite IH.
Qed.

(** The barriers are the used clusters that belong to no object. *)
Lemma find_barriers_spec v entries :
  wf_bytes (bitmap v) -> cc (geo v) <= 8 * py_len (bitmap v) ->
  exists barriers, find_barriers v entries = Ok barriers /\
    forall c, c ∈ barriers <-> 2 <= c < cc (geo v) + 2 /\ bit_at (bitmap v) (c - 2) = true /\ forall e, e ∈ entries -> c ∉ clusters e.
Proof.
  intros Hw Hcov. unfold find_barriers. rewrite mapM_bits; [|done|apply Forall_forall; intros c Hc%elem_of_py_range; lia].
  cbn [mbind result_bind]. eexists. split; [done|]. intros c. rewrite list_elem_of_fmap.
  assert (Hmov : c ∈ concat (map clusters entries) <-> exists e, e ∈ entries /\ c ∈ clusters e).
  { rewrite list_elem_of_In, in_concat. split.
    - intros (x & Hx & Hc). apply in_map_iff in Hx as (e & <- & He). exists e. by rewrite !list_elem_of_In.
    - intros (e & He & Hc). exists (clusters e). split; [apply in_map|]; by apply list_elem_of_In. }
  split.
  - intros ([c' u] & -> & Hin). apply list_elem_of_filter in Hin as [[Hu Hno] Hin]. cbn [fst snd] in *.
    apply list_elem_of_fmap in Hin as (x & [= -> ->] & Hx%elem_of_py_range). split; [done|]. split; [done|]. intros e He Hce. apply Hno, Hmov. eauto.
  - intros (Hr & Hb & Hno). exists (c, bit_at (bitmap v) (c - 2)). split; [done|]. apply list_elem_of_filter. split.
    + split; [done|]. rewrite Hmov. intros (e & He & Hce). by apply (Hno e).
    + apply list_elem_of_fmap. exists c. split; [done|]. by apply elem_of_py_range.
Qed.

(** The growth layout: for a bitmap that covers the volume the planner
    terminates; it either raises the engine's own error, or returns every
    object that owns clusters, each with a target that holds its clusters and,
    for a file, its reserve, inside the volume, one behind the other in the
    lowest places that avoid every used cluster no object owns. *)
Theorem growth_targets_laid_out (v : Volume) (entries : list Entry) (percent : Z)
    (Hbytes : wf_bytes (bitmap v)) (Hcover : cc (geo v) <= 8 * py_len (bitmap v)) (Hpercent : 0 <= percent) :
  match find_growth_targets v entries percent with
  | Ok (objects, targets) =>
      objects ≡ₚ filter (fun e => clusters e <> []) entries /\
      exists barriers, (forall c, c ∈ barriers <-> 2 <= c < cc (geo v) + 2 /\ bit_at (bitmap v) (c - 2) = true /\
                                   forall e, e ∈ entries -> c ∉ clusters e) /\
        laid_out barriers (cc (geo v) + 2) percent 2 objects targets
  | Raise e => exn_kind e = EngineError
  end.
Proof.
  unfold find_growth_targets. destruct (find_barriers_spec v entries Hbytes Hcover) as (barriers & -> & Hb). cbn [mbind result_bind].
  pose proof (place_all_spec barriers (cc (geo v) + 2) percent (py_sorted by_position (allocated entries)) 2 Hpercent) as Hp.
  destruct (place_all _ _ _ _ _) as [targets|]; cbn [mbind result_bind].
  - split; [apply py_sorted_perm|]. exists barriers. split; [exact Hb|]. apply Hp. rewrite py_sorted_perm. apply Forall_forall.
    by intros e [He _]%list_elem_of_filter.
  - apply Hp. rewrite py_sorted_perm. apply Forall_forall. by intros x [Hx _]%list_elem_of_filter.
Qed.

Definition toy_entries : list Entry :=
  [mkEntry (of_string "a") false 9 30 30 false [4] 0 3 [9; 12]; mkEntry (of_string "d") true 6 16 16 false [4] 96 3 [6];
   mkEntry (of_string "b") false 7 32 32 true [4] 192 3 [7; 8]].

Lemma growth_targets_laid_out_witness :
  match find_growth_targets toy_volume toy_entries 50 with
  | Ok (objects, targets) =>
      objects ≡ₚ filter (fun e => clusters e <> []) toy_entries /\
      exists barriers, (forall c, c ∈ barriers <-> 2 <= c < 32 /\ bit_at (bitmap toy_volume) (c - 2) = true /\
                                   forall e, e ∈ toy_entries -> c ∉ clusters e) /\
        laid_out barriers 32 50 2 objects targets
  | Raise e => exn_kind e = EngineError
  end.
Proof.
  apply (growth_targets_laid_out toy_volume toy_entries 50).
  - repeat constructor; lia.
  - vm_compute. done.
  - lia.
Defined.
