(* ===== verification/ExfatMap.v ===== *)
(** * The exFAT map backend

    Models [src/gui/backends/exfat.py]: the geometry, cluster chains, the
    allocation bitmap, the scan of the directory tree and the map.  The nested
    functions of [map] take the geometry and the FAT they close over as
    arguments; file names, which only go into paths that nothing reads, are
    left out. *)

From S2P Require Import Prelude Text Bytes Ranges SummaryMaps Exfat.

Local Open Scope string_scope.
Local Open Scope list_scope.
Local Open Scope Z_scope.

Record geometry := mkGeo {
  g_bps : Z; g_spc : Z; g_cluster_size : Z; g_fat_offset : Z; g_fat_length : Z; g_heap_offset : Z; g_cluster_count : Z; g_root_cluster : Z; g_volume_serial : Z
}.

Definition exfat_probe (opened : result reader) : result bool :=
  r ← opened;
  magic ← reader_read r 3 8;
  Ok (bool_decide (magic = of_string "EXFAT   ")).

(** Pairs of neighbours that do not follow each other. *)
Fixpoint jumps (clusters : list Z) : Z :=
  match clusters with
  | a :: ((b :: _) as rest) => (if b =? a + 1 then 0 else 1) + jumps rest
  | _ => 0
  end.

Definition _fragments (clusters : list Z) : Z := if bool_decide (clusters = []) then 0 else 1 + jumps clusters.

Definition boot_geometry (bs : bytes) : result geometry :=
  check negb (bool_decide (py_slice bs 3 11 = of_string "EXFAT   ")) # BackendError "not an exFAT volume";
  b ← py_get bs 108;
  s ← py_get bs 109;
  let bps := Z.shiftl 1 b in
  let spc := Z.shiftl 1 s in
  fat_offset ← u32le bs 80;
  fat_length ← u32le bs 84;
  heap_offset ← u32le bs 88;
  cluster_count ← u32le bs 92;
  root_cluster ← u32le bs 96;
  volume_serial ← u32le bs 100;
  check (cluster_count <? 1) || (root_cluster <? 2) # BackendError "invalid exFAT geometry";
  Ok (mkGeo bps spc (bps * spc) fat_offset fat_length heap_offset cluster_count root_cluster volume_serial).

Definition cluster_off (g : geometry) (cluster : Z) : result Z :=
  check (cluster <? 2) || (g_cluster_count g + 2 <=? cluster) # BackendError "invalid exFAT cluster";
  Ok ((g_heap_offset g + (cluster - 2) * g_spc g) * g_bps g).

Definition fat_next (fat : bytes) (cluster : Z) : result Z :=
  let off := cluster * 4 in
  check py_len fat <? off + 4 # BackendError "exFAT FAT chain exceeds FAT";
  v ← u32le fat off;
  Ok (Z.land v 4294967295).

(** [while 2 <= current < 0xFFFFFFF8]: the clusters are distinct clusters of
    the heap. *)
Fixpoint next_clusters (fuel : nat) (g : geometry) (fat : bytes) (count : option Z) (found : list Z) (current : Z) : result (list Z) :=
  if (2 <=? current) && (current <? 4294967288) then
    match fuel with
    | O => raise OutOfFuel "chain"
    | S fuel' =>
        check bool_decide (current ∈ found) # BackendError "exFAT FAT loop";
        check g_cluster_count g + 2 <=? current # BackendError "exFAT FAT chain exceeds the cluster heap";
        let found := found ++ [current] in
        if match count with Some n => n <=? py_len found | None => false end then Ok found else
        next ← fat_next fat current;
        next_clusters fuel' g fat count found next
    end
  else Ok found.

Definition chain (g : geometry) (fat : bytes) (first : Z) (count : option Z) (contiguous : bool) : result (list Z) :=
  if first =? 0 then Ok [] else
  if contiguous then
    match count with
    | None => raise BackendError "contiguous stream length is missing"
    | Some n =>
        check (first <? 2) || (g_cluster_count g + 2 <? first + n) # BackendError "contiguous exFAT stream exceeds the cluster heap";
        Ok (py_range first (first + n))
    end
  else
    found ← next_clusters (S (Z.to_nat (g_cluster_count g))) g fat count [] first;
    match count with
    | Some n => check negb (py_len found =? n) # BackendError "short exFAT FAT chain"; Ok found
    | None => Ok found
    end.

Definition read_stream (r : reader) (g : geometry) (clusters : list Z) (length : Z) : result bytes :=
  output ← foldM (fun output cluster => off ← cluster_off g cluster; data ← reader_read r off (g_cluster_size g); Ok (output ++ data)) [] clusters;
  Ok (py_slice output 0 length).

(** The entries of the root directory until the bitmap of the second FAT, the
    end marker or the end. *)
Fixpoint bitmap_entry (root_data : bytes) (offsets : list Z) (found : option (Z * Z)) : result (option (Z * Z)) :=
  match offsets with
  | [] => Ok found
  | off :: rest =>
      let entry := py_slice root_data off (off + 32) in
      if py_len entry <? 32 then Ok found else
      kind ← py_get entry 0;
      if kind =? 0 then Ok found else
      if kind =? 129 then
        cluster ← u32le entry 20;
        len ← u64le entry 24;
        flags ← py_get entry 1;
        if negb (Z.land flags 1 =? 0) then Ok (Some (cluster, len)) else bitmap_entry root_data rest (Some (cluster, len))
      else bitmap_entry root_data rest found
  end.

Definition allocated (bitmap : bytes) (cluster : Z) : result bool :=
  let index := cluster - 2 in
  v ← py_get bitmap (Z.shiftr index 3);
  Ok (negb (Z.land (Z.shiftr v (Z.land index 7)) 1 =? 0)).

(** ** The scan *)

Record tree := mkTree {
  t_growth_10_satisfied : bool; t_regular_files : Z; t_directories : Z; t_fragmented_files : Z; t_fragmented_directories : Z;
  t_fragmented_indices : list Z; t_directory_indices : list Z; t_visited : list Z
}.

Definition indices (clusters : list Z) : list Z := map (fun c => c - 2) clusters.

(** The stream entry of a set and whether there is one; later ones win. *)
Definition secondary (data : bytes) (offset : Z) (stream : option bytes) (index : Z) : result (option bytes) :=
  let entry := py_slice data (offset + index * 32) (offset + (index + 1) * 32) in
  kind ← py_get entry 0;
  Ok (if kind =? 192 then Some entry else stream).

(** [while available < reserve and cursor < ... and not allocated(cursor)] *)
Fixpoint count_available (fuel : nat) (bitmap : bytes) (limit reserve available cursor : Z) : result Z :=
  match fuel with
  | O => Ok available
  | S fuel' =>
      if (available <? reserve) && (cursor <? limit) then
        used ← allocated bitmap cursor;
        if (used : bool) then Ok available else count_available fuel' bitmap limit reserve (available + 1) (cursor + 1)
      else Ok available
  end.

Definition growth_room (g : geometry) (bitmap : bytes) (clusters : list Z) : result bool :=
  if bool_decide (clusters = []) then Ok true else
  let reserve := (py_len clusters * 10 + 99) / 100 in
  last ← py_get clusters (-1);
  available ← count_available (Z.to_nat reserve) bitmap (g_cluster_count g + 2) reserve 0 (last + 1);
  Ok (negb (available <? reserve)).

Definition scan_file (g : geometry) (bitmap : bytes) (clusters : list Z) (t : tree) : result tree :=
  let fragmented := 1 <? _fragments clusters in
  room ← growth_room g bitmap clusters;
  Ok (mkTree (t_growth_10_satisfied t && negb fragmented && room) (t_regular_files t + 1) (t_directories t)
        (if fragmented then t_fragmented_files t + 1 else t_fragmented_files t) (t_fragmented_directories t)
        (t_fragmented_indices t ++ (if fragmented then indices clusters else [])) (t_directory_indices t) (t_visited t)).

Definition scan_subdirectory (clusters : list Z) (t : tree) : tree :=
  let fragmented := 1 <? _fragments clusters in
  mkTree (t_growth_10_satisfied t) (t_regular_files t) (t_directories t + 1) (t_fragmented_files t)
    (if fragmented then t_fragmented_directories t + 1 else t_fragmented_directories t)
    (t_fragmented_indices t ++ (if fragmented then indices clusters else [])) (t_directory_indices t ++ indices clusters) (t_visited t).

Definition visit (t : tree) (first : Z) : tree :=
  mkTree (t_growth_10_satisfied t) (t_regular_files t) (t_directories t) (t_fragmented_files t) (t_fragmented_directories t)
    (t_fragmented_indices t) (t_directory_indices t) (first :: t_visited t).

Section scan.
Context (r : reader) (g : geometry) (fat bitmap : bytes).

(** The file or directory of an entry set; [recurse] scans a directory. *)
Definition scan_entry (recurse : Z -> Z -> bool -> tree -> result tree) (attributes : Z) (stream : bytes) (t : tree) : result tree :=
  name_length ← py_get stream 3;
  child_first ← u32le stream 20;
  data_length ← u64le stream 24;
  flags ← py_get stream 1;
  let child_no_fat := negb (Z.land flags 2 =? 0) in
  let child_count := if data_length =? 0 then 0 else ceil_div data_length (g_cluster_size g) in
  child_clusters ← (if child_count =? 0 then Ok [] else chain g fat child_first (Some child_count) child_no_fat);
  if negb (Z.land attributes 16 =? 0) then
    let t := scan_subdirectory child_clusters t in
    if negb (child_first =? 0) && negb (data_length =? 0) && negb (bool_decide (child_first ∈ t_visited t)) then
      recurse child_first data_length child_no_fat (visit t child_first)
    else Ok t
  else scan_file g bitmap child_clusters t.

(** An entry takes at least 32 bytes. *)
Fixpoint scan_entries (fuel : nat) (recurse : Z -> Z -> bool -> tree -> result tree) (data : bytes) (offset : Z) (t : tree) : result tree :=
  if offset + 32 <=? py_len data then
    match fuel with
    | O => raise OutOfFuel "scan_directory"
    | S fuel' =>
        entry_type ← py_get data offset;
        if entry_type =? 0 then Ok t else
        if negb (entry_type =? 133) then scan_entries fuel' recurse data (offset + 32) t else
        secondary_count ← py_get data (offset + 1);
        let entry_count := 1 + secondary_count in
        check py_len data <? offset + entry_count * 32 # BackendError "truncated exFAT directory entry set";
        attributes ← u16le data (offset + 4);
        stream ← foldM (secondary data offset) None (py_range 1 entry_count);
        t ← match stream with Some s => scan_entry recurse attributes s t | None => Ok t end;
        scan_entries fuel' recurse data (offset + entry_count * 32) t
    end
  else Ok t.

(** Every directory below the root is entered once, by its first cluster. *)
Fixpoint scan_directory (fuel : nat) (first length : Z) (no_fat_chain : bool) (t : tree) : result tree :=
  match fuel with
  | O => raise OutOfFuel "scan_directory"
  | S fuel' =>
      let count := if length =? 0 then 1 else ceil_div length (g_cluster_size g) in
      clusters ← chain g fat first (Some count) no_fat_chain;
      data ← read_stream r g clusters (py_len clusters * g_cluster_size g);
      scan_entries (List.length data) (scan_directory fuel') data 0 t
  end.
End scan.

(** ** The map *)

(** [result["cells"][min(cell_count - 1, index * cell_count // cluster_count)][field] += 1] *)
Definition cell_index (cell_count cluster_count index : Z) : Z := Z.min (cell_count - 1) ((index * cell_count) / cluster_count).

Definition bump_field (f : overlay_field) (c : cell) : cell :=
  match f with
  | FFragmented => set_field f (c_fragmented c + 1) c
  | FDirectory => set_field f (c_directory c + 1) c
  | FBad => set_field f (c_bad c + 1) c
  end.

Definition place_index (f : overlay_field) (cell_count cluster_count : Z) (cells : list cell) (index : Z) : list cell :=
  if (0 <=? index) && (index <? cluster_count) then alter (bump_field f) (Z.to_nat (cell_index cell_count cluster_count index)) cells else cells.

Record exfat_counts := mkCounts { x_regular_files : Z; x_directories : Z; x_fragmented_files : Z; x_fragmented_directories : Z; x_growth_10_satisfied : bool }.

(** The geometry, the FAT and the clusters and data of the root directory. *)
Definition read_root (r : reader) : result (geometry * bytes * list Z * bytes) :=
  bs ← reader_read r 0 512;
  g ← boot_geometry bs;
  fat ← reader_read r (g_fat_offset g * g_bps g) (g_fat_length g * g_bps g);
  root_clusters ← chain g fat (g_root_cluster g) None false;
  root_data ← read_stream r g root_clusters (py_len root_clusters * g_cluster_size g);
  Ok (g, fat, root_clusters, root_data).

Definition read_allocation (r : reader) (g : geometry) (fat root_data : bytes) : result bytes :=
  found ← bitmap_entry root_data (slots (py_len root_data)) None;
  match found with
  | None => raise BackendError "exFAT allocation bitmap entry not found"
  | Some (cluster, len) =>
      clusters ← chain g fat cluster (Some (ceil_div len (g_cluster_size g))) false;
      bitmap ← read_stream r g clusters len;
      check py_len bitmap * 8 <? g_cluster_count g # BackendError "exFAT allocation bitmap is shorter than the cluster heap";
      Ok bitmap
  end.

Definition exfat_map (opened : result reader) (cells : Z) : result (map_result * exfat_counts) :=
  r ← opened;
  '(g, fat, root_clusters, root_data) ← read_root r;
  bitmap ← read_allocation r g fat root_data;
  let fragmented := 1 <? _fragments root_clusters in
  let t := mkTree (_fragments root_clusters =? 1) 0 1 0 (if fragmented then 1 else 0) (if fragmented then indices root_clusters else []) (indices root_clusters) [g_root_cluster g] in
  t ← scan_directory r g fat bitmap (S (S (Z.to_nat (g_cluster_count g)))) (g_root_cluster g) (py_len root_clusters * g_cluster_size g) false t;
  m ← aggregate_bitmap bitmap (g_cluster_count g) cells (g_cluster_size g) "exfat" 0
        [("serial", JText (bytes_hex (be_digits 4 (g_volume_serial g)))); ("cluster_size", JInt (g_cluster_size g))];
  let place f l cs := fold_left (place_index f (mr_cell_count m) (g_cluster_count g)) (remove_dups l) cs in
  Ok (with_cells m (place FFragmented (t_fragmented_indices t) (place FDirectory (t_directory_indices t) (mr_cells m))) (mr_details m),
      mkCounts (t_regular_files t) (t_directories t) (t_fragmented_files t) (t_fragmented_directories t) (t_growth_10_satisfied t && (0 <? t_regular_files t))).
