(* ===== verification/ExfatMapFacts.v ===== *)
(** * The exFAT map against the exFAT engine

    [ExfatMap] and [Exfat] find the allocation bitmap with code of their own.
    On a volume with one FAT and one bitmap the map counts the clusters the
    engine takes for used and for free.  On a volume with two bitmaps they
    look at different ones. *)

From S2P Require Import Prelude Text Bytes Ranges RangesFacts Bitmap AggregateFacts ReaderFacts Device Exfat ExfatFacts ExfatMap.

Local Open Scope list_scope.
Local Open Scope Z_scope.

(** ** Reads *)

Lemma reads_agree d size o n t x y : 0 <= n -> Exfat.read o n d = (t, Ok x) -> reader_read (mkReader d size) o n = Ok y -> t = [] /\ y = x.
Proof.
  intros Hn H Hr. unfold Exfat.read, pbind, os_pread in H. destruct (Z.ltb_spec o 0) as [|Ho]; [done|]. simpl replay in H. destruct (negb _) eqn:E in H; [done|]. cbn [pret app] in H. injection H as <- <-.
  split; [done|]. apply negb_false_iff, Z.eqb_eq in E. unfold reader_read, dev_read in Hr. cbn [reader_dev] in Hr. destruct (_ || _) in Hr; [done|]. destruct (Z.eqb_spec n 0) as [->|Hne].
  - injection Hr as <-. by rewrite Z.add_0_r, py_slice_nil by lia.
  - destruct (_ <=? _) in Hr; [|done]. by injection Hr as <-.
Qed.

Record same_geometry (e : Geometry) (g : geometry) : Prop := mkSame {
  sg_bps : g_bps g = bps e; sg_spc : g_spc g = spc e; sg_cs : g_cluster_size g = cs e; sg_off : g_fat_offset g = fat_off e; sg_len : g_fat_length g = fat_len e;
  sg_heap : g_heap_offset g = heap_off e; sg_cc : g_cluster_count g = cc e; sg_root : g_root_cluster g = root e;
  sg_pos : 0 < cs e; sg_bps_pos : 0 < bps e
}.

Lemma geometry_agrees p bs e g : wf_bytes bs -> parse_geometry p bs = Ok e -> boot_geometry bs = Ok g ->
  same_geometry e g /\ 1 <= cc e /\ 0 <= fat_len e /\ (number_of_fats e = 1 -> active_fat_offset e = fat_off e * bps e).
Proof.
  intros Hw He Hg. unfold parse_geometry in He. destruct (negb _) in He; [done|]. unfold boot_geometry in Hg. destruct (negb _) in Hg; [done|].
  apply bind_ok in He as (b & R1 & He). rewrite R1 in Hg. cbn [mbind result_bind] in Hg. apply bind_ok in He as (s & R2 & He). rewrite R2 in Hg. cbn [mbind result_bind] in Hg. cbv zeta in *.
  apply bind_ok in He as (fo & R3 & He). rewrite R3 in Hg. cbn [mbind result_bind] in Hg. apply bind_ok in He as (fl & R4 & He). rewrite R4 in Hg. cbn [mbind result_bind] in Hg.
  apply bind_ok in He as (ho & R5 & He). rewrite R5 in Hg. cbn [mbind result_bind] in Hg. apply bind_ok in He as (n & R6 & He). rewrite R6 in Hg. cbn [mbind result_bind] in Hg.
  apply bind_ok in He as (ro & R7 & He). rewrite R7 in Hg. cbn [mbind result_bind] in Hg. apply bind_ok in He as (se & R8 & He). rewrite R8 in Hg. cbn [mbind result_bind] in Hg.
  apply bind_ok in He as (flags & _ & He). apply bind_ok in He as (nf & _ & He). destruct (negb _) in He; [done|]. destruct (negb _) in He; [done|]. destruct (_ || _) eqn:C in Hg; [done|].
  injection He as <-. injection Hg as <-. bool_to_prop. assert (0 <= b /\ 0 <= s) as [Hb Hs] by (split; [apply (py_get_nonneg bs 108)|apply (py_get_nonneg bs 109)]; done || lia).
  assert (0 < Z.shiftl 1 b /\ 0 < Z.shiftl 1 s) as [? ?] by (rewrite !Z.shiftl_1_l; split; by apply Z.pow_pos_nonneg).
  assert (0 <= fl) by (eapply (unpack_le_bounds 4) in R4; (done || lia)). cbn. split; [split; (done || cbn; nia)|]. split; [lia|]. split; [done|]. intros ->. cbn. lia.
Qed.

Section agree.
Context (e : Geometry) (g : geometry).
Hypothesis Hsame : same_geometry e g.

Lemma fat_next_agrees f c x y : wf_bytes f -> 0 <= c -> fatget f c = Ok x -> fat_next f c = Ok y -> y = x.
Proof.
  intros Hw Hc Hx Hy. unfold fatget in Hx. unfold fat_next in Hy. destruct (_ <? _) in Hy; [done|]. rewrite Hx in Hy. cbn [mbind result_bind] in Hy. injection Hy as <-.
  apply (unpack_le_bounds 4) in Hx; [|done|lia|lia]. change 4294967295 with (Z.ones 32). rewrite Z.land_ones by lia. apply Z.mod_small. done.
Qed.

Lemma next_clusters_agrees f count fuel : wf_bytes f -> forall fuel' out c l l',
  chain_loop fuel' f count out c = Ok l -> next_clusters fuel g f count out c = Ok l' -> l' = l.
Proof.
  intros Hw. induction fuel as [|fuel IH]; intros fuel' out c l l' H H'; destruct fuel' as [|fuel']; cbn [chain_loop next_clusters] in *; destruct ((2 <=? c) && (c <? 4294967288)) eqn:E; try done; try congruence.
  destruct (bool_decide (c ∈ out)); [done|]. destruct (_ <=? c) in H'; [done|]. cbv zeta in *. destruct (match count with Some n => n <=? py_len (out ++ [c]) | None => false end); [congruence|].
  apply bind_ok in H as (x & Hx & H). apply bind_ok in H' as (y & Hy & H'). rewrite (fat_next_agrees f c x y) in H' by (done || (bool_to_prop; lia)). by eapply IH.
Qed.

Lemma chain_agrees f first count l l' : wf_bytes f -> Exfat.chain f first count false = Ok l -> ExfatMap.chain g f first count false = Ok l' -> l' = l.
Proof.
  intros Hw H H'. unfold Exfat.chain in H. unfold ExfatMap.chain in H'. destruct (first =? 0); [congruence|]. apply bind_ok in H' as (k' & Hk' & H'). destruct count as [n|].
  - apply bind_ok in H as (k & Hk & H). rewrite (next_clusters_agrees _ _ _ Hw _ _ _ _ _ Hk Hk') in H'. destruct (negb _); [done|]. congruence.
  - injection H' as <-. by eapply next_clusters_agrees.
Qed.

Lemma stream_agrees d size cls len t x y : Exfat.read_stream e cls len d = (t, Ok x) -> ExfatMap.read_stream (mkReader d size) g cls len = Ok y -> t = [] /\ y = x.
Proof.
  intros H H'. unfold Exfat.read_stream in H. unfold ExfatMap.read_stream in H'. apply pbind_inv in H as (t1 & a & t2 & H & H2 & ->). apply pret_inv in H2 as [-> <-].
  apply bind_ok in H' as (b & Hb & H'). injection H' as <-. assert (t1 = [] /\ b = a) as [-> ->]; [|done]. revert t1 a b H Hb. generalize (@nil Z) as acc.
  induction cls as [|c cls IH]; intros acc t1 a b H Hb; cbn [pforeach foldM] in *; [apply pret_inv in H as [-> <-]; by injection Hb as <-|].
  apply pbind_inv in H as (u1 & out & u2 & H1 & H & ->). apply pbind_inv in H1 as (u3 & o & u4 & R & H1 & ->). apply lift_inv in R as [-> R]. apply pbind_inv in H1 as (u5 & data & u6 & Rd & H1 & ->). apply pret_inv in H1 as [-> <-].
  apply bind_ok in Hb as (out' & Ho & Hb). apply bind_ok in Ho as (o' & Ro & Ho). apply bind_ok in Ho as (data' & Rd' & Ho). injection Ho as <-.
  unfold coff in R. unfold cluster_off in Ro. rewrite (sg_cc _ _ Hsame), (sg_heap _ _ Hsame), (sg_spc _ _ Hsame), (sg_bps _ _ Hsame) in Ro. destruct (_ || _); [done|]. injection R as <-. injection Ro as <-.
  rewrite (sg_cs _ _ Hsame) in Rd'. cbn [app replay fold_left] in Rd. destruct (reads_agree _ _ _ _ _ _ _ (Z.lt_le_incl _ _ (sg_pos _ _ Hsame)) Rd Rd') as [-> ->]. by eapply IH in H.
Qed.
End agree.

(** ** The bitmap's entry *)

(** The number of bitmap entries in front of the end of a directory. *)
Fixpoint bitmap_entries (data : bytes) (offsets : list Z) : Z :=
  match offsets with
  | [] => 0
  | o :: rest =>
      match py_get data o with
      | Ok t => if t =? 0 then 0 else (if t =? 129 then 1 else 0) + bitmap_entries data rest
      | Raise _ => 0
      end
  end.

Lemma bitmap_entries_nonneg data l : 0 <= bitmap_entries data l.
Proof. induction l as [|o l IH]; cbn [bitmap_entries]; [lia|]. destruct (py_get data o) as [t|]; [|lia]. destruct (t =? 0); [lia|]. destruct (t =? 129); lia. Qed.

Lemma entry_byte (data : bytes) o i : 0 <= o -> 0 <= i < 32 -> o + 32 <= py_len data -> py_get (py_slice data o (o + 32)) i = py_get data (o + i).
Proof.
  intros Ho Hi Hl. unfold py_get. rewrite !(proj2 (Z.ltb_ge i 0)), !(proj2 (Z.ltb_ge (o + i) 0)) by lia. rewrite lookup_py_slice by lia. by replace (Z.to_nat (o + i)) with (Z.to_nat o + Z.to_nat i)%nat by lia.
Qed.

Lemma entry_field dec n data o i : 0 <= o -> 0 <= i -> 0 <= n -> i + n <= 32 -> o + 32 <= py_len data ->
  unpack_from dec n (py_slice data o (o + 32)) i = unpack_from dec n data (o + i).
Proof.
  intros. apply unpack_from_ext; try lia; [rewrite py_len_slice; lia|]. intros k Hk. unfold nthZ. rewrite lookup_py_slice by lia. f_equal. lia.
Qed.

(** Once no other entry follows, the one that was found stays. *)
Lemma bitmap_entry_stays data x : wf_bytes data -> forall offs, Forall (fun o => 0 <= o) offs -> bitmap_entries data offs = 0 -> bitmap_entry data offs (Some x) = Ok (Some x).
Proof.
  intros Hw. induction offs as [|o offs IH]; intros Ho H; cbn [bitmap_entries bitmap_entry] in *; [done|]. apply Forall_cons in Ho as [Ho Hos]. cbv zeta.
  destruct (Z.ltb_spec (py_len (py_slice data o (o + 32))) 32) as [|Hl]; [done|].
  assert (o + 32 <= py_len data) as Hfit.
  { destruct (Z.le_gt_cases (o + 32) (py_len data)); [done|]. exfalso. rewrite py_slice_trunc in Hl by lia. destruct (Z.le_gt_cases o (py_len data)); [rewrite py_len_slice in Hl by lia; lia|].
    pose proof (py_len_nonneg data). rewrite py_slice_past in Hl by lia. change (py_len []) with 0 in Hl. lia. }
  rewrite (entry_byte data o 0), Z.add_0_r by lia. destruct (py_get_byte data o Hw ltac:(lia)) as (t & Ht & _). rewrite Ht in *. cbn [mbind result_bind]. destruct (t =? 0); [done|].
  pose proof (bitmap_entries_nonneg data offs). destruct (t =? 129); [lia|]. apply IH; [done|lia].
Qed.

Lemma find_bitmap_in_fits data : forall offs x, Forall (fun o => 0 <= o) offs -> find_bitmap_in data offs = Ok x -> exists o, o ∈ offs /\ o + 32 <= py_len data.
Proof.
  induction offs as [|o offs IH]; intros x Ho H; cbn [find_bitmap_in] in H; [done|]. apply Forall_cons in Ho as [Ho Hos]. apply bind_ok in H as (t & _ & H). destruct (t =? 0); [done|]. destruct (t =? 129).
  - apply bind_ok in H as (c & _ & H). apply bind_ok in H as (n & Hn & _). exists o. split; [by left|]. apply unpack_from_inv in Hn; [lia|lia].
  - apply IH in H as (o' & Hin & Hl); [|done]. exists o'. split; [by right|done].
Qed.

Lemma bitmap_entry_agrees data : wf_bytes data -> forall offs x found, Forall (fun o => 0 <= o) offs -> StronglySorted Z.lt offs -> find_bitmap_in data offs = Ok x -> bitmap_entries data offs = 1 ->
  bitmap_entry data offs found = Ok (Some x).
Proof.
  intros Hw. induction offs as [|o offs IH]; intros x found Ho Hs H Hone; [done|]. pose proof (find_bitmap_in_fits _ _ _ Ho H) as (o' & Hin & Hl). apply Forall_cons in Ho as [Ho Hos]. inversion Hs as [|? ? Hs' Hlt]; subst.
  assert (o + 32 <= py_len data) as Hfit by (apply elem_of_cons in Hin as [->|Hin]; [done|]; rewrite Forall_forall in Hlt; apply Hlt in Hin; lia).
  cbn [find_bitmap_in bitmap_entry bitmap_entries] in *. cbv zeta. rewrite py_len_slice, (proj2 (Z.ltb_ge _ 32)) by lia. rewrite (entry_byte data o 0), Z.add_0_r by lia. destruct (py_get data o) as [t|]; [|done]. cbn [mbind result_bind] in *.
  destruct (t =? 0); [done|]. destruct (t =? 129).
  - apply bind_ok in H as (c & Hc & H). apply bind_ok in H as (n & Hn & H). injection H as <-. unfold u32le, u64le in *. rewrite !entry_field, Hc by lia. cbn [mbind result_bind]. rewrite Hn. cbn [mbind result_bind].
    rewrite (entry_byte data o 1) by lia. destruct (py_get_byte data (o + 1) Hw ltac:(lia)) as (fl & -> & _). cbn [mbind result_bind]. destruct (negb _); [done|]. apply bitmap_entry_stays; [done|done|lia].
  - apply IH; try done.
Qed.

Lemma slots_sorted n : Forall (fun o => 0 <= o) (slots n) /\ StronglySorted Z.lt (slots n).
Proof.
  unfold slots. set (k := - (- n / 32)). clearbody k. split; [apply Forall_fmap, Forall_forall; intros i Hi%elem_of_py_range; cbn; lia|].
  unfold py_range. rewrite Z.sub_0_r. unfold seqZ. rewrite map_map. generalize (Z.to_nat k) as m. intros m. generalize 0%nat as a. induction m as [|m IH]; intros a; cbn [seq map]; constructor; [apply IH|].
  apply Forall_fmap, Forall_forall. intros j Hj%elem_of_seq. cbn. lia.
Qed.

(** ** The bitmap *)

(** The root directory holds one bitmap entry. *)
Definition one_bitmap (r : reader) : Prop :=
  match read_root r with Ok (_, _, _, data) => bitmap_entries data (slots (py_len data)) = 1 | Raise _ => False end.

Lemma read_only d o n t x : wf_bytes d -> Exfat.read o n d = (t, Ok x) -> t = [] /\ wf_bytes x.
Proof.
  intros Hw H. unfold Exfat.read, pbind, os_pread in H. destruct (o <? 0); [done|]. cbn [replay fold_left] in H. destruct (negb _) in H; [done|]. injection H as <- <-.
  split; [done|]. by apply Forall_py_slice.
Qed.

Lemma read_stream_only e d cls len t x : wf_bytes d -> Exfat.read_stream e cls len d = (t, Ok x) -> t = [] /\ wf_bytes x.
Proof.
  intros Hw H. unfold Exfat.read_stream in H. apply pbind_inv in H as (t1 & a & t2 & H & H2 & ->). apply pret_inv in H2 as [-> <-]. assert (t1 = [] /\ wf_bytes a) as [-> Ha]; [|split; [done|by apply Forall_py_slice]].
  assert (wf_bytes []) as Hacc by constructor. revert t1 a H Hacc. generalize (@nil Z) as acc. induction cls as [|c cls IH]; intros acc t1 a H Hacc; cbn [pforeach] in H; [by apply pret_inv in H as [-> <-]|].
  apply pbind_inv in H as (u1 & out & u2 & H1 & H & ->). apply pbind_inv in H1 as (u3 & o & u4 & R & H1 & ->). apply lift_inv in R as [-> R]. apply pbind_inv in H1 as (u5 & data & u6 & Rd & H1 & ->).
  apply pret_inv in H1 as [-> <-]. apply (read_only d) in Rd as [-> Hd]; [|done]. apply IH in H; [done|]. by apply Forall_app_2.
Qed.

(** What the engine has read. *)
Record engine_opened (d : bytes) (p : text) (v : Volume) (bs data : bytes) (cl : list Z) : Prop := mkOpened {
  eo_boot : Exfat.read 0 512 d = ([], Ok bs) /\ wf_bytes bs;
  eo_geometry : parse_geometry p bs = Ok (geo v);
  eo_fat : Exfat.read (active_fat_offset (geo v)) (fat_len (geo v) * bps (geo v)) d = ([], Ok (fat v)) /\ wf_bytes (fat v);
  eo_root : Exfat.chain (fat v) (root (geo v)) None false = Ok cl;
  eo_data : Exfat.read_stream (geo v) cl (py_len cl * cs (geo v)) d = ([], Ok data) /\ wf_bytes data;
  eo_entry : find_bitmap_in data (slots (py_len data)) = Ok (bitmap_cluster v, bitmap_length v);
  eo_clusters : Exfat.chain (fat v) (bitmap_cluster v) (Some (ceil_div (bitmap_length v) (cs (geo v)))) false = Ok (bitmap_clusters v);
  eo_bitmap : Exfat.read_stream (geo v) (bitmap_clusters v) (bitmap_length v) d = ([], Ok (bitmap v)) /\ wf_bytes (bitmap v)
}.

Lemma exfat_open_reads d p w t v : wf_bytes d -> Exfat.open_volume p w d = (t, Ok v) -> exists bs data cl, engine_opened d p v bs data cl.
Proof.
  intros Hw H. unfold Exfat.open_volume in H. apply pbind_inv in H as (t1 & bs & t2 & Rbs & H & _). destruct (read_only _ _ _ _ _ Hw Rbs) as [-> Hbs]. cbn [replay fold_left] in H.
  apply pbind_inv in H as (t3 & e & t4 & Re & H & _). apply lift_inv in Re as [-> Re]. cbn [replay fold_left] in H. apply pbind_inv in H as (t5 & f & t6 & Rf & H & _). destruct (read_only _ _ _ _ _ Hw Rf) as [-> Hf].
  cbn [replay fold_left] in H. apply pbind_inv in H as (t7 & [bc bl] & t8 & Rb & H & _). unfold _find_bitmap in Rb. apply pbind_inv in Rb as (u1 & cl & u2 & Rcl & Rb & ->). apply lift_inv in Rcl as [-> Rcl].
  apply pbind_inv in Rb as (u3 & data & u4 & Rd & Rb & ->). cbn [replay fold_left] in Rd. destruct (read_stream_only _ _ _ _ _ _ Hw Rd) as [-> Hd]. apply lift_inv in Rb as [-> Rb]. cbn [replay fold_left app] in H.
  apply pbind_inv in H as (u5 & bcl & u6 & Rc & H & _). apply lift_inv in Rc as [-> Rc]. cbn [replay fold_left] in H. apply pbind_inv in H as (u7 & b & u8 & Rs & H & _).
  destruct (read_stream_only _ _ _ _ _ _ Hw Rs) as [-> Hb]. apply pret_inv in H as [_ <-]. exists bs, data, cl. by split.
Qed.

(** The map finds the same bitmap. *)
Lemma allocation_agrees d size p w t v g f rcl rdata b : wf_bytes d -> Exfat.open_volume p w d = (t, Ok v) -> number_of_fats (geo v) = 1 ->
  read_root (mkReader d size) = Ok (g, f, rcl, rdata) -> bitmap_entries rdata (slots (py_len rdata)) = 1 -> read_allocation (mkReader d size) g f rdata = Ok b ->
  same_geometry (geo v) g /\ 1 <= cc (geo v) /\ wf_bytes (bitmap v) /\ b = bitmap v.
Proof.
  intros Hw H Hone Hroot Hent Hall. apply exfat_open_reads in H as (bs & data & cl & [[Rbs Hwb] Rg [Rf Hwf] Rcl [Rd Hwd] Re Rc [Rb Hwm]]); [|done].
  unfold read_root in Hroot. apply bind_ok in Hroot as (bs' & Rbs' & Hroot). assert (0 <= 512) as H512 by lia. destruct (reads_agree _ _ _ _ _ _ _ H512 Rbs Rbs') as [_ ->].
  apply bind_ok in Hroot as (g' & Rg' & Hroot). destruct (geometry_agrees _ _ _ _ Hwb Rg Rg') as (Hsame & Hcc & Hfl & Hact). rewrite (Hact Hone) in Rf. apply bind_ok in Hroot as (f' & Rf' & Hroot).
  rewrite (sg_off _ _ Hsame), (sg_len _ _ Hsame), (sg_bps _ _ Hsame) in Rf'. assert (0 <= fat_len (geo v) * bps (geo v)) as Hn by (pose proof (sg_bps_pos _ _ Hsame); nia).
  destruct (reads_agree _ _ _ _ _ _ _ Hn Rf Rf') as [_ ->]. apply bind_ok in Hroot as (cl' & Rcl' & Hroot). rewrite (sg_root _ _ Hsame) in Rcl'. pose proof (chain_agrees g' _ _ _ _ _ Hwf Rcl Rcl') as ->.
  apply bind_ok in Hroot as (data' & Rd' & Hroot). rewrite (sg_cs _ _ Hsame) in Rd'. destruct (stream_agrees _ _ Hsame _ _ _ _ _ _ _ Rd Rd') as [_ ->]. injection Hroot as <- <- <- <-.
  unfold read_allocation in Hall. rewrite (bitmap_entry_agrees data Hwd _ (bitmap_cluster v, bitmap_length v)) in Hall; [|apply slots_sorted|apply slots_sorted|done|done]. cbn [mbind result_bind] in Hall.
  rewrite (sg_cs _ _ Hsame) in Hall. apply bind_ok in Hall as (cls & Rc' & Hall). pose proof (chain_agrees g' _ _ _ _ _ Hwf Rc Rc') as ->. apply bind_ok in Hall as (b' & Rb' & Hall).
  destruct (stream_agrees _ _ Hsame _ _ _ _ _ _ _ Rb Rb') as [_ ->]. destruct (_ <? _) in Hall; [done|]. by injection Hall as <-.
Qed.

Lemma place_same f n cc_ l : forall cells, Forall2 same_counts cells (fold_left (place_index f n cc_) l cells).
Proof.
  induction l as [|i l IH]; intros cells; cbn [fold_left]; [apply same_counts_refl|]. eapply same_counts_trans; [|apply IH]. unfold place_index. destruct (_ && _); [|apply same_counts_refl].
  generalize (Z.to_nat (cell_index n cc_ i)) as k. induction cells as [|c cells IHc]; intros k; [done|]. destruct k as [|k]; cbn; constructor; [by destruct f|apply same_counts_refl|done|apply IHc].
Qed.

(** C30. On a device that the engine opens, with one FAT and one allocation
    bitmap, and that the exFAT backend maps, the cells cut the cluster heap into
    consecutive ranges, and a cell's used and free counts are the numbers of
    its clusters that the engine takes for allocated and for free. *)
Theorem exfat_map_agrees_with_engine d size p w t v cells m counts
    (Hw : wf_bytes d) (Ho : Exfat.open_volume p w d = (t, Ok v)) (Hone : number_of_fats (geo v) = 1) (Hbm : one_bitmap (mkReader d size))
    (Hm : exfat_map (Ok (mkReader d size)) cells = Ok (m, counts)) :
  exists bounds, chained 0 (cc (geo v)) bounds /\
    Forall2 (counted (fun x => bool_decide (Exfat.bit (bitmap v) (x + 2) = Ok true)) (fun x => bool_decide (Exfat.bit (bitmap v) (x + 2) = Ok false))) bounds (mr_cells m).
Proof.
  unfold exfat_map in Hm. cbn [mbind result_bind] in Hm. apply bind_ok in Hm as ([[[g f] rcl] rdata] & Hroot & Hm). unfold one_bitmap in Hbm. rewrite Hroot in Hbm.
  apply bind_ok in Hm as (b & Hall & Hm). destruct (allocation_agrees _ _ _ _ _ _ _ _ _ _ _ Hw Ho Hone Hroot Hbm Hall) as (Hsame & Hcc & Hwb & ->).
  cbv zeta in Hm. apply bind_ok in Hm as (tr & _ & Hm). apply bind_ok in Hm as (base & Hagg & Hm). rewrite (sg_cc _ _ Hsame) in Hagg, Hm. injection Hm as <- _. cbn [with_cells mr_cells].
  eapply (bitmap_map_counts _ _ _ _ _ _ _ _ _ _ Hwb Hcc Hagg); [eapply same_counts_trans; apply place_same|]. intros x Hx.
  assert (cc (geo v) <= 8 * py_len (bitmap v)) as Hl by (unfold aggregate_bitmap in Hagg; destruct (Z.ltb_spec (py_len (bitmap v) * 8) (cc (geo v) - 0)); [done|lia]).
  rewrite (xbit_spec (bitmap v) (x + 2)) by (done || lia). replace (x + 2 - 2) with x by lia. by destruct (bit_at _ x).
Qed.

(** Eight clusters of 128 bytes: the root directory in cluster 2, the bitmap in
    cluster 3, a file in clusters 4 and 6. *)
Module HeapSample.
Definition boot (fats heap : Z) : bytes :=
  image_of 512 [(3, of_string "EXFAT   "); lefield 80 4 4; lefield 84 4 1; lefield 88 4 heap; lefield 92 4 8; lefield 96 4 2; lefield 100 4 77; lefield 108 1 7; lefield 110 1 fats].

Definition fat : bytes := image_of 128 [lefield 8 4 EOC; lefield 12 4 EOC; lefield 16 4 6; lefield 24 4 EOC].

Definition directory : bytes :=
  image_of 128 [lefield 0 1 129; lefield 20 4 3; lefield 24 8 1; lefield 32 1 133; lefield 33 1 1; lefield 36 2 32; lefield 64 1 192; lefield 65 1 1; lefield 84 4 4; lefield 88 8 200].

Definition device : bytes := Eval vm_compute in (boot 1 5 ++ fat ++ directory ++ image_of 128 [lefield 0 1 23] ++ py_zeros 768).

Definition volume : Volume :=
  Eval vm_compute in match (Exfat.open_volume [] false device).2 with Ok v => v | Raise _ => toy_volume end.

(** The same with two FATs, of which the first is active, and a bitmap for
    each: cluster 3 holds the one of the first FAT and cluster 4 the other. *)
Definition two_directory : bytes :=
  image_of 128 [lefield 0 1 129; lefield 20 4 3; lefield 24 8 1; lefield 32 1 129; lefield 33 1 1; lefield 52 4 4; lefield 56 8 1].

Definition two_fat : bytes := image_of 128 [lefield 8 4 EOC; lefield 12 4 EOC; lefield 16 4 EOC].

Definition two_device : bytes := Eval vm_compute in (boot 2 6 ++ two_fat ++ two_fat ++ two_directory ++ image_of 128 [lefield 0 1 7] ++ py_zeros 768).
End HeapSample.

Lemma exfat_map_agrees_with_engine_witness :
  exists m counts, exfat_map (Ok (mkReader HeapSample.device 1664)) 3 = Ok (m, counts) /\
    exists bounds, chained 0 8 bounds /\
      Forall2 (counted (fun x => bool_decide (Exfat.bit (bitmap HeapSample.volume) (x + 2) = Ok true)) (fun x => bool_decide (Exfat.bit (bitmap HeapSample.volume) (x + 2) = Ok false)))
        bounds (mr_cells m).
Proof.
  eexists _, _. split; [vm_compute; reflexivity|].
  refine (exfat_map_agrees_with_engine HeapSample.device 1664 [] false [] HeapSample.volume 3 _ _ _ _ _ _ _).
  - apply (bool_decide_unpack _). vm_compute. exact I.
  - vm_compute. reflexivity.
  - reflexivity.
  - vm_compute. reflexivity.
  - vm_compute. reflexivity.
Defined.

(** With two bitmaps the engine uses the first and the map the second: three
    clusters are in use and the map shows none. *)
Lemma two_bitmaps_disagree :
  (bitmap <$> (Exfat.open_volume [] false HeapSample.two_device).2, (fun m => mr_used_bytes m.1) <$> exfat_map (Ok (mkReader HeapSample.two_device 1792)) 3) = (Ok [7], Ok 0).
Proof. vm_compute. reflexivity. Qed.

(** A cluster of a directory is not always counted in the cell that holds it. *)
Lemma overlay_misplaced : cell_index 2 5 2 = 0 /\ cell_bounds 5 2 = [(0, 2); (2, 5)].
Proof. split; reflexivity. Qed.
