(* ===== verification/NativeGeometry.v ===== *)
(** * Geometry and free ranges of the native engine

    Models the readers of [src/gui/native_compact_engine.py] that look at a
    device before it is mounted: [ext4_compact_geometry],
    [xfs_compact_geometry], [_btrfs_super_geometry], and the free ranges of
    ext4 and XFS in bytes. *)

From S2P Require Import Prelude Text Bytes Ranges Ext4 Xfs.

Local Open Scope string_scope.
Local Open Scope list_scope.
Local Open Scope Z_scope.

(** Unlike [merge_ranges] of the map backends this one keeps ranges that begin
    below zero. *)
Definition _merge_ranges (ranges : list range) : list range :=
  reverse (fold_left (fun merged r => if r.2 <=? r.1 then merged else merge_push merged r) (py_sorted range_leb ranges) []).

Definition ext_blocks (sb : bytes) (incompat : Z) : result Z :=
  low ← u32le sb 4;
  high ← (if has_flag incompat _EXT4_FEATURE_INCOMPAT_64BIT then u32le sb 336 else Ok 0);
  Ok (Z.lor low (Z.shiftl high 32)).

(** Block size and bytes. *)
Definition ext4_compact_geometry (opened : result reader) : result (Z * Z) :=
  r ← opened;
  sb ← reader_read r 1024 1024;
  magic ← u16le sb 56;
  check negb (magic =? 61267) # CompactError "not an ext filesystem";
  log ← u32le sb 24;
  let block_size := Z.shiftl 1024 log in
  _ ← u32le sb 92;
  incompat ← u32le sb 96;
  ro_compat ← u32le sb 100;
  blocks ← ext_blocks sb incompat;
  check (blocks =? 0) || (block_size <? 1024) || (65536 <? block_size) # CompactError "invalid ext geometry";
  check negb (has_flag incompat _EXT4_FEATURE_INCOMPAT_EXTENTS) # CompactError "Compact supports ext4 extent-format filesystems, not ext2/ext3 indirect blocks";
  check has_flag ro_compat _EXT4_FEATURE_RO_COMPAT_BIGALLOC # CompactError "ext4 bigalloc Compact is not yet supported";
  Ok (block_size, blocks * block_size).

Definition xfs_compact_geometry (opened : result reader) : result (Z * Z) :=
  r ← opened;
  sb ← reader_read r 0 512;
  check negb (bool_decide (py_slice sb 0 4 = _XFS_SB_MAGIC)) # CompactError "not an XFS filesystem";
  g ← XfsGeometry_init sb (reader_size r);
  Ok (Xfs.block_size g, Xfs.dblocks g * Xfs.block_size g).

(** ** Free ranges *)

(** The loop over the bits of a group: the start of the open run and the runs,
    in blocks of the group. *)
Definition run_bit (bitmap : bytes) (acc : option Z * list range) (bit : Z) : result (option Z * list range) :=
  let '(run_start, free) := acc in
  byte ← py_get bitmap (Z.shiftr bit 3);
  let allocated := has_flag byte (Z.shiftl 1 (Z.land bit 7)) in
  match run_start with
  | None => Ok (if allocated then (None, free) else (Some bit, free))
  | Some start => Ok (if allocated then (None, free ++ [(start, bit)]) else (Some start, free))
  end.

Definition group_runs (bitmap : bytes) (count : Z) : result (list range) :=
  '(run_start, free) ← foldM (run_bit bitmap) (None, []) (py_range 0 count);
  Ok (match run_start with Some start => free ++ [(start, count)] | None => free end).

(** The blocks of a group in bytes of the device. *)
Definition group_bytes (block_size group_start : Z) (r : range) : range := ((group_start + r.1) * block_size, (group_start + r.2) * block_size).

Definition group_free (r : reader) (block_size blocks first_data per_group desc_size : Z) (has_64bit : bool) (desc_off : Z) (free : list range) (group : Z) : result (list range) :=
  desc ← reader_read r (desc_off + group * desc_size) desc_size;
  low ← u32le desc 0;
  high ← (if has_64bit && (64 <=? desc_size) then u32le desc 32 else Ok 0);
  let bitmap_block := Z.lor low (Z.shiftl high 32) in
  if (bitmap_block <=? 0) || (blocks <=? bitmap_block) then Ok free else
  bitmap ← reader_read r (bitmap_block * block_size) block_size;
  let group_start := first_data + group * per_group in
  runs ← group_runs bitmap (Z.min per_group (blocks - group_start));
  Ok (free ++ map (group_bytes block_size group_start) runs).

Definition ext4_free_ranges (opened : result reader) : result (Z * list range * Z) :=
  r ← opened;
  sb ← reader_read r 1024 1024;
  magic ← u16le sb 56;
  check negb (magic =? 61267) # CompactError "not an ext filesystem";
  log ← u32le sb 24;
  let block_size := Z.shiftl 1024 log in
  incompat ← u32le sb 96;
  let has_64bit := has_flag incompat _EXT4_FEATURE_INCOMPAT_64BIT in
  blocks ← ext_blocks sb incompat;
  first_data ← u32le sb 20;
  per_group ← u32le sb 32;
  dsize ← (if has_64bit then u16le sb 254 else Ok 32);
  let desc_size := Z.max 32 dsize in
  check (blocks =? 0) || (per_group =? 0) # CompactError "invalid ext geometry";
  let groups := (blocks - first_data + per_group - 1) / per_group in
  let desc_off := (if block_size =? 1024 then 2 else 1) * block_size in
  free ← foldM (group_free r block_size blocks first_data per_group desc_size has_64bit desc_off) [] (py_range 0 groups);
  Ok (block_size, _merge_ranges free, blocks * block_size).

Definition xfs_free_ranges (opened : result reader) : result (Z * list range * Z) :=
  r ← opened;
  sb ← reader_read r 0 512;
  check negb (bool_decide (py_slice sb 0 4 = _XFS_SB_MAGIC)) # CompactError "not an XFS filesystem";
  g ← XfsGeometry_init sb (reader_size r);
  '(free, _, _) ← _free_space r g;
  Ok (Xfs.block_size g, _merge_ranges (map (fun f : range => (f.1 * Xfs.block_size g, f.2 * Xfs.block_size g)) free), Xfs.dblocks g * Xfs.block_size g).

(** ** Btrfs *)

Definition BTRFS_SUPER_OFFSET : Z := 65536.
Definition BTRFS_SUPER_SIZE : Z := 4096.
Definition BTRFS_MAGIC : bytes := of_string "_BHRfS_M".

(** Total bytes, the device's id and the size of the device. *)
Definition _btrfs_super_geometry (opened : result reader) : result (Z * Z * Z) :=
  r ← opened;
  sb ← reader_read r BTRFS_SUPER_OFFSET BTRFS_SUPER_SIZE;
  check negb (bool_decide (py_slice sb 64 72 = BTRFS_MAGIC)) # CompactError "not a Btrfs filesystem";
  total_bytes ← u64le sb 112;
  num_devices ← u64le sb 136;
  devid ← u64le sb 201;
  check negb (num_devices =? 1) # CompactError "Btrfs Compact currently supports single-device filesystems only";
  check total_bytes <=? 0 # CompactError "invalid Btrfs filesystem size";
  Ok (total_bytes, devid, reader_size r).
