(* ===== verification/Kernel.v ===== *)
(** * The kernel as the native engine sees it

    [native_compact_engine.py] works on a mounted file system through system
    calls.  They are a parameter, the record [kernel] over a type of states;
    [KernelLaws] says what the engine relies on: a call changes no file it is
    not given for writing, and an exchange of two ranges with the same bytes
    changes no file at all. *)

From S2P Require Import Prelude Text Bytes Devices.

(** ** Programs

    A program takes a kernel state to the state it leaves behind and a result;
    what has been done stays done when an exception is raised. *)

Definition kprog (K A : Type) : Type := K -> K * result A.

Definition kret {K A} (a : A) : kprog K A := fun s => (s, Ok a).
Definition klift {K A} (r : result A) : kprog K A := fun s => (s, r).
Definition kraise {K A} (c : exn_class) (msg : string) : kprog K A := klift (raise c msg).

Definition kbind {K A B} (m : kprog K A) (f : A -> kprog K B) : kprog K B := fun s =>
  match m s with
  | (s', Ok a) => f a s'
  | (s', Raise e) => (s', Raise e)
  end.

(** [try: m except e: handler(e)]; the handler raises again what it does not
    handle. *)
Definition kcatch {K A} (m : kprog K A) (handler : exn -> kprog K A) : kprog K A := fun s =>
  match m s with
  | (s', Raise e) => handler e s'
  | r => r
  end.

(** [try: m finally: f] *)
Definition kfinally {K A} (m : kprog K A) (f : kprog K unit) : kprog K A := fun s =>
  let '(s', r) := m s in
  match f s' with
  | (s'', Ok _) => (s'', r)
  | (s'', Raise e) => (s'', Raise e)
  end.

(** What is only looked at. *)
Definition kget {K A} (f : K -> result A) : kprog K A := fun s => (s, f s).

Fixpoint kfor {K A B} (body : B -> A -> kprog K B) (acc : B) (l : list A) : kprog K B :=
  match l with
  | [] => kret acc
  | x :: rest => kbind (body acc x) (fun acc => kfor body acc rest)
  end.

Notation "'let!' x := m 'in' k" := (kbind m (fun x => k)) (at level 10, x binder, m at level 100, k at level 200).
Notation "m ';;!' k" := (kbind m (fun _ => k)) (at level 199, right associativity).
Notation "'kcheck' b '#' c msg ; k" := (if b then kraise c msg else k) (at level 10, b at level 100, c at level 0, msg at level 0, k at level 200).

(** The errno of an [OSError] is the name in its message. *)
Definition errno_in (e : exn) (names : list string) : bool := bool_decide (exn_kind e = OSError) && bool_decide (exn_msg e ∈ names).

(** ** System calls *)

Inductive entry_kind := EDirectory | EFile | EOther.

(** An extent as FIEMAP reports it. *)
Record FiemapExtent := mkFiemap { fx_logical : Z; fx_physical : Z; fx_length : Z; fx_flags : Z }.

Definition physical_end (e : FiemapExtent) : Z := fx_physical e + fx_length e.

(** A byte of a file is as before, or a zero the file has been extended with. *)
Definition zero_extended (before after : bytes) (i : Z) : Prop := nthZ after i = nthZ before i \/ (nthZ before i = None /\ nthZ after i = Some 0).

Record kernel (K : Type) := mkKernel {
  (** whether the signal handler has set [_stop_requested] *)
  k_stop : K -> bool;
  (** [f_bfree], [f_bavail] and [f_frsize] of the mounted file system *)
  k_statvfs : kprog K (Z * Z * Z);
  k_mkdir : text -> kprog K unit;
  k_rmdir : text -> kprog K unit;
  (** open with [O_CREAT | O_EXCL] *)
  k_create : text -> kprog K Z;
  k_unlink : text -> kprog K unit;
  (** open with [O_RDWR | O_NOFOLLOW] *)
  k_open : text -> kprog K Z;
  k_close : Z -> kprog K unit;
  (** the entries of a directory with their kinds, links not followed *)
  k_scandir : text -> kprog K (list (text * result entry_kind));
  k_xflags : Z -> kprog K Z;
  k_fstat_size : Z -> kprog K Z;
  (** FS_IOC_FIEMAP: file, start, length, number of extents asked for *)
  k_fiemap : Z -> Z -> Z -> Z -> kprog K (list FiemapExtent);
  (** file, mode, offset, length *)
  k_fallocate : Z -> Z -> Z -> Z -> kprog K unit;
  (** file, count, offset *)
  k_pread : Z -> Z -> Z -> kprog K bytes;
  k_pwrite : Z -> bytes -> Z -> kprog K Z;
  k_fsync : Z -> kprog K unit;
  (** EXT4_IOC_MOVE_EXT: file, donor, first block, first block of the donor,
      number of blocks; the number that was moved *)
  k_move_ext : Z -> Z -> Z -> Z -> Z -> kprog K Z;
  (** XFS_IOC_EXCHANGE_RANGE: file, donor, offset in the donor, offset, length *)
  k_exchange_range : Z -> Z -> Z -> Z -> Z -> kprog K unit;
  (** what is seen of the block devices: [os.path.realpath], [os.stat],
      [/proc/self/mountinfo], and the bytes of an unmounted one *)
  k_realpath : text -> result text;
  k_stat : K -> text -> result stat_result;
  k_mountinfo : K -> option text;
  k_device : K -> text -> result reader;
  (** [mkdir(parents=True, exist_ok=True)] and [mkdtemp] in that directory *)
  k_makedirs : text -> kprog K unit;
  k_mkdtemp : text -> kprog K text;
  (** device, directory, file system *)
  k_mount : text -> text -> string -> kprog K unit;
  (** open a directory, [sync] or [syncfs], close it *)
  k_sync : text -> kprog K unit;
  k_umount2 : text -> kprog K unit;
  k_getpid : Z
}.

Arguments k_stop {K} _ _.
Arguments k_statvfs {K} _.
Arguments k_mkdir {K} _ _.
Arguments k_rmdir {K} _ _.
Arguments k_create {K} _ _.
Arguments k_unlink {K} _ _.
Arguments k_open {K} _ _.
Arguments k_close {K} _ _.
Arguments k_scandir {K} _ _.
Arguments k_xflags {K} _ _.
Arguments k_fstat_size {K} _ _.
Arguments k_fiemap {K} _ _ _ _ _.
Arguments k_fallocate {K} _ _ _ _ _.
Arguments k_pread {K} _ _ _ _.
Arguments k_pwrite {K} _ _ _ _.
Arguments k_fsync {K} _ _.
Arguments k_move_ext {K} _ _ _ _ _ _.
Arguments k_exchange_range {K} _ _ _ _ _ _.
Arguments k_realpath {K} _ _.
Arguments k_stat {K} _ _ _.
Arguments k_mountinfo {K} _ _.
Arguments k_device {K} _ _ _.
Arguments k_makedirs {K} _ _.
Arguments k_mkdtemp {K} _ _.
Arguments k_mount {K} _ _ _ _.
Arguments k_sync {K} _ _.
Arguments k_umount2 {K} _ _.
Arguments k_getpid {K} _.

(** ** What the engine relies on *)

(** What is seen of a kernel state: the bytes of a file and the physical
    address of a byte of it, which file a descriptor stands for, the paths that
    lead to a file of the engine, and the size of the file system (block size
    and bytes, or how reading it fails).  Files are numbered; [user_file] are
    the ones that were there before. *)
Record view (K : Type) := mkView {
  content : K -> Z -> bytes;
  physical : K -> Z -> Z -> option Z;
  file_of : K -> Z -> option Z;
  own_names : K -> list text;
  volume : K -> result (Z * Z);
  user_file : Z -> Prop
}.
Arguments content {K} _ _ _.
Arguments physical {K} _ _ _ _.
Arguments file_of {K} _ _ _.
Arguments own_names {K} _ _.
Arguments volume {K} _ _.
Arguments user_file {K} _ _.

Section laws.
Context {K : Type} (w : view K).

(** The user's files read as before, and the file system has its size. *)
Definition same_files (s s' : K) : Prop := volume w s' = volume w s /\ forall f, user_file w f -> content w s' f = content w s f.

(** So does every file. *)
Definition same_contents (s s' : K) : Prop := volume w s' = volume w s /\ forall f, content w s' f = content w s f.

(** The descriptors and the paths lead where they led. *)
Definition same_names (s s' : K) : Prop := (forall fd, file_of w s' fd = file_of w s fd) /\ own_names w s' = own_names w s.

(** No file has changed, nor what leads to it. *)
Definition same_state (s s' : K) : Prop := same_contents s s' /\ same_names s s'.

(** The bytes of a range of [f] that lie in the file are also at [goff] of [g]. *)
Definition staged (s : K) (f foff g goff len : Z) : Prop :=
  forall x, 0 <= x < len -> foff + x < py_len (content w s f) -> nthZ (content w s g) (goff + x) = nthZ (content w s f) (foff + x).

Definition quiet {A} (m : kprog K A) : Prop := forall s, same_state s (m s).1.

(** A call that writes to the engine's own file [fd] at most. *)
Definition own_write {A} (fd : Z) (m : kprog K A) : Prop := forall s g, file_of w s fd = Some g -> ~ user_file w g ->
  same_files s (m s).1 /\ same_names s (m s).1.

(** An exchange of a range of a user's file with one of the engine's. *)
Definition own_exchange {A} (fd donor foff goff len : Z) (m : kprog K A) : Prop := forall s f g,
  file_of w s fd = Some f -> file_of w s donor = Some g -> user_file w f -> ~ user_file w g -> staged s f foff g goff len ->
  same_files s (m s).1 /\ same_names s (m s).1.
End laws.

(** [bs] is the block size of the file system. *)
Class KernelLaws {K : Type} (k : kernel K) (w : view K) (bs : Z) : Prop := mkLaws {
  l_statvfs : quiet w (k_statvfs k);
  l_mkdir p : quiet w (k_mkdir k p);
  l_rmdir p : quiet w (k_rmdir k p);
  l_scandir p : quiet w (k_scandir k p);
  l_xflags fd : quiet w (k_xflags k fd);
  l_size fd : quiet w (k_fstat_size k fd);
  l_size_ok s s' fd f n : file_of w s fd = Some f -> k_fstat_size k fd s = (s', Ok n) -> n = py_len (content w s f);
  l_fiemap fd a n c : quiet w (k_fiemap k fd a n c);
  l_fiemap_unsigned s s' fd a n c l : k_fiemap k fd a n c s = (s', Ok l) -> Forall (fun e => 0 <= fx_logical e /\ 0 <= fx_physical e) l;
  (** the file may be flushed first; an extent is where it is reported unless
      it is [UNKNOWN] or [DELALLOC], which one of the engine's never is: its
      blocks come from [fallocate] *)
  l_fiemap_ok s s' fd f a n c l : file_of w s fd = Some f -> k_fiemap k fd a n c s = (s', Ok l) ->
    (forall g x p, physical w s g x = Some p -> physical w s' g x = Some p) /\
    Forall (fun e => Z.land (fx_flags e) 6 = 0 \/ ~ user_file w f -> forall x, 0 <= x < fx_length e -> physical w s' f (fx_logical e + x) = Some (fx_physical e + x)) l;
  (** the engine's files share no block *)
  l_exclusive s f g x y p : ~ user_file w g -> physical w s g x = Some p -> physical w s f y = Some p -> f = g /\ x = y;
  l_fsync fd : quiet w (k_fsync k fd);
  l_makedirs p : quiet w (k_makedirs k p);
  l_mkdtemp p : quiet w (k_mkdtemp k p);
  l_mount d p fs : quiet w (k_mount k d p fs);
  l_sync p : quiet w (k_sync k p);
  l_umount2 p : quiet w (k_umount2 k p);
  (** a new file is not a user's; the other descriptors stay *)
  l_create p s : same_files w s (k_create k p s).1 /\
    (forall q, q ∈ own_names w (k_create k p s).1 -> q ∈ own_names w s \/ (q = p /\ exists fd, (k_create k p s).2 = Ok fd)) /\
    (forall fd, (k_create k p s).2 = Ok fd -> file_of w s fd = None /\ exists g, file_of w (k_create k p s).1 fd = Some g /\ ~ user_file w g /\ content w (k_create k p s).1 g = []) /\
    forall fd, Ok fd <> (k_create k p s).2 -> file_of w (k_create k p s).1 fd = file_of w s fd;
  l_unlink p s : same_contents w s (k_unlink k p s).1 /\ (forall fd, file_of w (k_unlink k p s).1 fd = file_of w s fd) /\
    (forall q, (k_unlink k p s).2 = Ok tt -> q ∈ own_names w (k_unlink k p s).1 -> q <> p /\ q ∈ own_names w s) /\
    (forall e, (k_unlink k p s).2 = Raise e -> exn_kind e <> SourceNotMovable);
  (** any other path leads to a user's file *)
  l_open p s : same_contents w s (k_open k p s).1 /\ own_names w (k_open k p s).1 = own_names w s /\
    (forall fd, (k_open k p s).2 = Ok fd -> file_of w s fd = None /\ exists f, file_of w (k_open k p s).1 fd = Some f /\ (p ∉ own_names w s -> user_file w f)) /\
    forall fd, Ok fd <> (k_open k p s).2 -> file_of w (k_open k p s).1 fd = file_of w s fd;
  l_close fd s : same_files w s (k_close k fd s).1 /\ own_names w (k_close k fd s).1 = own_names w s /\ forall fd', fd' <> fd -> file_of w (k_close k fd s).1 fd' = file_of w s fd';
  l_fallocate fd mode off len : own_write w fd (k_fallocate k fd mode off len);
  l_pread fd n off : quiet w (k_pread k fd n off);
  l_pread_ok s s' fd f n off data : file_of w s fd = Some f -> k_pread k fd n off s = (s', Ok data) -> exists m, off <= m <= off + n /\ data = py_slice (content w s f) off m;
  l_pwrite fd data off : own_write w fd (k_pwrite k fd data off);
  l_pwrite_ok s s' fd g data off n : file_of w s fd = Some g -> k_pwrite k fd data off s = (s', Ok n) ->
    n <= py_len data /\ (forall x, 0 <= x < n -> nthZ (content w s' g) (off + x) = nthZ data x) /\
    (forall i, 0 <= i -> i < off \/ off + n <= i -> zero_extended (content w s g) (content w s' g) i);
  l_move_ext fd donor b db n : own_exchange w fd donor (b * bs) (db * bs) (n * bs) (k_move_ext k fd donor b db n);
  l_exchange_range fd donor doff off len : own_exchange w fd donor off doff len (k_exchange_range k fd donor doff off len)
}.
