(* ===== verification/NativeCompact.v ===== *)
(** * Extent compaction on a mounted file system

    Models the extent compaction of [src/gui/native_compact_engine.py]: FIEMAP,
    the space collector that owns the free blocks while a pass runs, the scan
    for source extents, the staged exchange of a range, and a pass.  The kernel
    is the parameter [k] of [Kernel].  Python's [os] has no [syncfs], so the
    guarded calls of it are left out. *)

From stdpp Require Import pretty.
From S2P Require Import Prelude Text Bytes Kernel.

Local Open Scope string_scope.
Local Open Scope list_scope.
Local Open Scope Z_scope.

Definition MAX_TRANSACTION_BYTES : Z := 256 * 1024 * 1024.
Definition COPY_BUFFER : Z := 8 * 1024 * 1024.
Definition COLLECTOR_FLOOR : Z := 64 * 1024 * 1024.
Definition MAX_EXTENT_COMPACT_PASSES : Z := 32.

Definition UNMOVABLE_XFLAGS : Z := fold_left Z.lor [1; 8; 16; 8192; 32768] 0.
Definition UNMOVABLE_FIEMAP_FLAGS : Z := fold_left Z.lor [2; 4; 8; 512; 1024; 2048; 8192] 0.
Definition FIEMAP_EXTENT_LAST : Z := 1.

Definition flagged (flags mask : Z) : bool := negb (Z.land flags mask =? 0).

(** [except OSError] *)
Definition is_os_error (e : exn) : bool := bool_decide (exn_kind e ∈ [OSError; FileNotFoundError; InterruptedError]).

(** [f"{n:08d}"] *)
Definition padded (width : nat) (n : Z) : text := let s := of_string (pretty n) in replicate (width - length s) 48 ++ s.

(** ** Data *)

Record SourceExtent := mkSource {
  s_path : text; s_logical : Z; s_physical : Z; s_length : Z; s_flags : Z; s_token : Z; s_generation : Z
}.

Definition source_end (s : SourceExtent) : Z := s_physical s + s_length s.

Record CollectorExtent := mkGap { g_fd : Z; g_logical : Z; g_physical : Z; g_length : Z; g_flags : Z }.

Definition gap_end (g : CollectorExtent) : Z := g_physical g + g_length g.

Record SpaceCollector := mkCollector { c_workspace : text; c_fds : list Z; c_counter : Z }.

(** What a pass reports, and the ranges it has told the map about: source,
    destination, length and the bytes moved so far. *)
Record ExtentPassResult := mkResult {
  r_moved_bytes : Z; r_transactions : Z; r_runtime_skipped : Z; r_blocked_reason : string; r_stopped : bool; r_live : list (Z * Z * Z * Z)
}.

(** [heapq] as the sorted list of its entries: minus the end of the source, its
    token, its generation, the source.  A source is in one entry at most, and
    is only changed when it is in none. *)
Abbreviation heap_entry := (Z * Z * Z * SourceExtent)%type.

Definition entry_leb (a b : heap_entry) : bool :=
  let '(e, t, g, _) := a in let '(e', t', g', _) := b in
  (e <? e') || ((e =? e') && ((t <? t') || ((t =? t') && (g <=? g')))).

Definition heappush (heap : list heap_entry) (e : heap_entry) : list heap_entry := sort_insert entry_leb e heap.

Section engine.
Context {K : Type} (k : kernel K).

(** The rounds allowed to the loops whose length the kernel decides. *)
Context (rounds : nat).

(** ** FIEMAP *)

Definition positive_length (e : FiemapExtent) : bool := 0 <? fx_length e.

Fixpoint fiemap_loop (fuel : nat) (fd cursor end_limit batch : Z) (found : list FiemapExtent) : kprog K (list FiemapExtent) :=
  if cursor <? end_limit then
    match fuel with
    | O => kraise OutOfFuel "fiemap"
    | S fuel' =>
        let! mapped := k_fiemap k fd cursor (end_limit - cursor) batch in
        if bool_decide (mapped = []) then kret found else
        kcheck negb (forallb positive_length mapped) # CompactError "FIEMAP returned a zero-length extent";
        let last_end := fold_left Z.max (map (fun e => fx_logical e + fx_length e) mapped) cursor in
        if existsb (fun e => flagged (fx_flags e) FIEMAP_EXTENT_LAST) mapped || (last_end <=? cursor) then kret (found ++ mapped)
        else fiemap_loop fuel' fd last_end end_limit batch (found ++ mapped)
    end
  else kret found.

Definition fiemap_range (fd start length_ : Z) : kprog K (list FiemapExtent) :=
  fiemap_loop rounds fd start (if length_ =? 2 ^ 64 - 1 then 2 ^ 64 - 1 else start + length_) 512 [].

Definition fiemap (fd : Z) : kprog K (list FiemapExtent) := fiemap_range fd 0 (2 ^ 64 - 1).

(** ** The space collector *)

Definition SpaceCollector_init (mountpoint : text) : kprog K SpaceCollector :=
  let workspace := mountpoint ++ of_string "/.linux-defragger-compact-" ++ of_string (pretty (k_getpid k)) in
  k_mkdir k workspace ;;! kret (mkCollector workspace [] 0).

Definition ignore_os_error (m : kprog K unit) : kprog K unit :=
  kcatch m (fun e => if is_os_error e then kret tt else klift (Raise e)).

Definition collector_close (c : SpaceCollector) : kprog K unit :=
  kfor (fun _ fd => ignore_os_error (k_close k fd)) tt (rev (c_fds c)) ;;!
  ignore_os_error (k_rmdir k (c_workspace c)).

Definition _new_unlinked_file (c : SpaceCollector) (prefix : text) : kprog K (Z * SpaceCollector) :=
  let path := c_workspace c ++ of_string "/" ++ prefix ++ of_string "-" ++ padded 8 (c_counter c) in
  let! fd := k_create k path in
  k_unlink k path ;;!
  kret (fd, mkCollector (c_workspace c) (c_fds c ++ [fd]) (c_counter c + 1)).

Definition _fallocate (fd mode offset length_ : Z) : kprog K unit :=
  if length_ <=? 0 then kret tt else k_fallocate k fd mode offset length_.

(** [attempt] is halved until it fits: what was allocated, [None] when nothing
    was. *)
Fixpoint fill_attempt (fuel : nat) (block_size fd current attempt : Z) : kprog K (option Z) :=
  if block_size <=? attempt then
    match fuel with
    | O => kraise OutOfFuel "fill_available"
    | S fuel' =>
        kcatch (_fallocate fd 0 current attempt ;;! kret (Some attempt))
          (fun e => if negb (errno_in e ["ENOSPC"; "EDQUOT"; "EFBIG"]) then klift (Raise e) else
                    let attempt := attempt / 2 in
                    fill_attempt fuel' block_size fd current (attempt - attempt mod block_size))
    end
  else kret None.

Fixpoint fill_loop (fuel : nat) (block_size floor_ fd current transactions : Z) : kprog K (Z * Z) :=
  match fuel with
  | O => kraise OutOfFuel "fill_available"
  | S fuel' =>
      let! '(bfree, _, frsize) := k_statvfs k in
      let target := Z.max 0 (bfree * frsize - floor_) in
      let target := target - target mod block_size in
      if target <? block_size then kret (current, transactions) else
      let attempt := Z.min target (1024 * 1024 * 1024) in
      let attempt := attempt - attempt mod block_size in
      let! done := fill_attempt (S (Z.to_nat (Z.log2 attempt))) block_size fd current attempt in
      match done with
      | None => kret (current, transactions)
      | Some n => fill_loop fuel' block_size floor_ fd (current + n) (transactions + 1)
      end
  end.

(** [fill_available] behind the creation of its file; [allocated] is [current]
    all along. *)
Definition fill_file (block_size floor_ fd : Z) : kprog K (Z * Z) :=
  let! filled := fill_loop rounds block_size floor_ fd 0 0 in
  k_fsync k fd ;;!
  kret filled.

Definition gap_of (block_size device_bytes fd : Z) (e : FiemapExtent) : list CollectorExtent :=
  let length_ := Z.min (fx_length e) (Z.max 0 (device_bytes - fx_physical e)) in
  let length_ := length_ - length_ mod block_size in
  if length_ <=? 0 then [] else [mkGap fd (fx_logical e) (fx_physical e) length_ (fx_flags e)].

Definition gap_leb (a b : CollectorExtent) : bool :=
  (g_physical a <? g_physical b) ||
  ((g_physical a =? g_physical b) && ((g_logical a <? g_logical b) || ((g_logical a =? g_logical b) && (g_fd a <=? g_fd b)))).

Definition owned_extents (block_size device_bytes : Z) (c : SpaceCollector) : kprog K (list CollectorExtent) :=
  let! found := kfor (fun acc fd => let! l := fiemap fd in kret (acc ++ concat (map (gap_of block_size device_bytes fd) l))) [] (c_fds c) in
  kret (py_sorted gap_leb found).

(** The first extent that holds the first byte decides. *)
Fixpoint slice_owned (l : list FiemapExtent) (logical physical_ length_ : Z) : bool :=
  match l with
  | [] => false
  | e :: rest =>
      if (fx_logical e <=? logical) && (logical <? fx_logical e + fx_length e) then
        (fx_physical e + (logical - fx_logical e) =? physical_) && (length_ <=? fx_length e - (logical - fx_logical e))
      else slice_owned rest logical physical_ length_
  end.

Definition verify_slice (item : CollectorExtent) (logical physical_ length_ : Z) : kprog K unit :=
  let! mapped := fiemap_range (g_fd item) logical length_ in
  kcheck negb (slice_owned mapped logical physical_ length_) # CompactError "the temporary space collector no longer owns the expected low physical range";
  kret tt.

(** ** Walking the files

    [scan_sources] and [_scan_xfs_whole_files] walk the tree in the same way;
    [visit] is what they do with an open file.  It returns what was found along
    with the exception that ended it, if one did. *)

Section walk.
Context {T : Type} (visit : text -> Z -> T -> kprog K (T * result unit)) (excluded : text).

(** [finally: os.close(fd)] *)
Definition closing (fd : Z) (r : T * result unit) : kprog K (T * result unit) := fun w =>
  match k_close k fd w with
  | (w, Ok _) => (w, Ok r)
  | (w, Raise e) => (w, Ok (r.1, Raise e))
  end.

Definition with_stack (stack : list text) (r : T * result unit) : T * list text * result unit := (r.1, stack, r.2).

Definition walk_entry (s : T) (stack : list text) (entry : text * result entry_kind) : kprog K (T * list text * result unit) :=
  let '(path, kind) := entry in
  if bool_decide (path = excluded) then kret (s, stack, Ok tt) else
  match kind with
  | Raise e => kret (s, stack, if is_os_error e then Ok tt else Raise e)
  | Ok EDirectory => kret (s, path :: stack, Ok tt)
  | Ok EOther => kret (s, stack, Ok tt)
  | Ok EFile => fun w =>
      match k_open k path w with
      | (w, Raise e) => (w, Ok (s, stack, if is_os_error e then Ok tt else Raise e))
      | (w, Ok fd) => (let! r := visit path fd s in let! r := closing fd r in kret (with_stack stack r)) w
      end
  end.

(** The entries of a directory, until one raises. *)
Fixpoint walk_entries (s : T) (stack : list text) (l : list (text * result entry_kind)) : kprog K (T * list text * result unit) :=
  match l with
  | [] => kret (s, stack, Ok tt)
  | entry :: rest =>
      let! '(s, stack, r) := walk_entry s stack entry in
      match r with
      | Ok _ => walk_entries s stack rest
      | Raise e => kret (s, stack, Raise e)
      end
  end.

(** [except OSError: continue] around a directory *)
Fixpoint walk_directories (fuel : nat) (s : T) (stack : list text) : kprog K T :=
  match stack with
  | [] => kret s
  | directory :: stack =>
      match fuel with
      | O => kraise OutOfFuel "scan_sources"
      | S fuel' =>
          let! entries := kcatch (k_scandir k directory) (fun e => if is_os_error e then kret [] else klift (Raise e)) in
          let! '(s, stack, r) := walk_entries s stack entries in
          match r with
          | Raise e => if is_os_error e then walk_directories fuel' s stack else klift (Raise e)
          | Ok _ => walk_directories fuel' s stack
          end
      end
  end.
End walk.

(** ** Source extents *)

Definition _file_xflags (fd : Z) : kprog K Z :=
  kcatch (k_xflags k fd) (fun e => if errno_in e ["ENOTTY"; "EOPNOTSUPP"; "EINVAL"] then kret 0 else klift (Raise e)).

Record scan := mkScan { n_heap : list heap_entry; n_token : Z; n_files : Z; n_skipped : Z }.

Definition skip (s : scan) : scan := mkScan (n_heap s) (n_token s) (n_files s) (n_skipped s + 1).

(** Whether an extent is not in whole blocks of the device. *)
Definition misplaced (block_size device_bytes : Z) (e : FiemapExtent) : bool :=
  (negb (fx_logical e mod block_size =? 0) || negb (fx_physical e mod block_size =? 0) || negb (fx_length e mod block_size =? 0)) ||
  ((fx_length e <=? 0) || (fx_physical e <? 0) || (device_bytes <? fx_physical e + fx_length e)).

Definition add_extent (block_size device_bytes : Z) (path : text) (s : scan) (e : FiemapExtent) : scan :=
  if flagged (fx_flags e) UNMOVABLE_FIEMAP_FLAGS then skip s else
  if misplaced block_size device_bytes e then skip s else
  let source := mkSource path (fx_logical e) (fx_physical e) (fx_length e) (fx_flags e) (n_token s) 0 in
  mkScan (heappush (n_heap s) (- source_end source, n_token s, 0, source)) (n_token s + 1) (n_files s) (n_skipped s).

Definition scan_file (block_size device_bytes : Z) (path : text) (fd : Z) (s : scan) : kprog K (scan * result unit) := fun w =>
  let s := mkScan (n_heap s) (n_token s) (n_files s + 1) (n_skipped s) in
  match _file_xflags fd w with
  | (w, Raise e) => (w, Ok (s, Raise e))
  | (w, Ok xflags) =>
      if flagged xflags UNMOVABLE_XFLAGS then (w, Ok (skip s, Ok tt)) else
      match fiemap fd w with
      | (w, Raise e) => (w, Ok (s, Raise e))
      | (w, Ok extents) => (w, Ok (fold_left (add_extent block_size device_bytes path) extents s, Ok tt))
      end
  end.

Definition scan_sources (mountpoint : text) (block_size device_bytes : Z) (excluded : text) : kprog K (list heap_entry * Z * Z) :=
  let! s := walk_directories (scan_file block_size device_bytes) excluded rounds (mkScan [] 0 0 0) [mountpoint] in
  kret (n_heap s, n_files s, n_skipped s).

(** The source, when there is one, and what is left of the heap. *)
Fixpoint _pop_high_source (heap : list heap_entry) (above : Z) : option SourceExtent * list heap_entry :=
  match heap with
  | [] => (None, [])
  | (_, _, generation, source) :: rest =>
      if negb (generation =? s_generation source) || (s_length source <=? 0) then _pop_high_source rest above else
      if source_end source <=? above then (None, rest) else (Some source, rest)
  end.

(** [source.length -= move] and [_requeue_source] when something is left. *)
Definition _requeue_source (heap : list heap_entry) (source : SourceExtent) : list heap_entry :=
  let source := mkSource (s_path source) (s_logical source) (s_physical source) (s_length source) (s_flags source) (s_token source) (s_generation source + 1) in
  heappush heap (- source_end source, s_token source, s_generation source, source).

Definition shortened (source : SourceExtent) (move : Z) : SourceExtent :=
  mkSource (s_path source) (s_logical source) (s_physical source) (s_length source - move) (s_flags source) (s_token source) (s_generation source).

Definition source_owned (l : list FiemapExtent) (logical physical_ length_ : Z) : bool :=
  existsb (fun e => (fx_logical e <=? logical) && (logical + length_ <=? fx_logical e + fx_length e) &&
                    (fx_physical e + (logical - fx_logical e) =? physical_) && negb (flagged (fx_flags e) UNMOVABLE_FIEMAP_FLAGS)) l.

Definition _verify_source (fd logical physical_ length_ : Z) : kprog K unit :=
  let! extents := fiemap_range fd logical length_ in
  kcheck negb (source_owned extents logical physical_ length_) # CompactError "source extent changed before relocation";
  kret tt.

(** ** Moving a range *)

Fixpoint write_out (fuel : nat) (donor_fd : Z) (data : bytes) (offset : Z) : kprog K unit :=
  if py_len data <=? 0 then kret tt else
  match fuel with
  | O => kraise OutOfFuel "_copy_range"
  | S fuel' =>
      let! amount := k_pwrite k donor_fd data offset in
      kcheck amount <=? 0 # CompactError "short write while staging a file extent";
      write_out fuel' donor_fd (py_slice data amount (py_len data)) (offset + amount)
  end.

Fixpoint copy_loop (fuel : nat) (source_fd source_offset donor_fd length_ donor_offset file_size copied : Z) : kprog K unit :=
  if copied <? length_ then
    match fuel with
    | O => kraise OutOfFuel "_copy_range"
    | S fuel' => fun w =>
        if k_stop k w && (copied =? 0) then (w, raise InterruptedError "") else
        (let take := Z.min COPY_BUFFER (length_ - copied) in
         let available := Z.max 0 (Z.min take (file_size - (source_offset + copied))) in
         let! data := (if available =? 0 then kret [] else k_pread k source_fd available (source_offset + copied)) in
         kcheck negb (py_len data =? available) # CompactError "short read while staging a file extent";
         let data := if available <? take then data ++ py_zeros (take - available) else data in
         write_out (length data) donor_fd data (donor_offset + copied) ;;!
         copy_loop fuel' source_fd source_offset donor_fd length_ donor_offset file_size (copied + take)) w
    end
  else kret tt.

Definition _copy_range (source_fd source_offset donor_fd length_ donor_offset : Z) : kprog K unit :=
  let! file_size := k_fstat_size k source_fd in
  copy_loop (S (Z.to_nat (length_ / COPY_BUFFER))) source_fd source_offset donor_fd length_ donor_offset file_size 0.

Definition _ext4_exchange (source_fd donor_fd source_offset donor_offset length_ block_size : Z) : kprog K unit :=
  kcheck negb (source_offset mod block_size =? 0) || negb (donor_offset mod block_size =? 0) || negb (length_ mod block_size =? 0) # CompactError "unaligned ext4 extent exchange";
  let! moved := kcatch (k_move_ext k source_fd donor_fd (source_offset / block_size) (donor_offset / block_size) (length_ / block_size))
    (fun e => if errno_in e ["EINVAL"; "EOPNOTSUPP"; "EPERM"; "ETXTBSY"] then kraise SourceNotMovable (exn_msg e) else klift (Raise e)) in
  kcheck negb (moved =? length_ / block_size) # CompactError "ext4 moved only a part of the requested blocks";
  kret tt.

Definition _xfs_exchange (source_fd donor_fd source_offset donor_offset length_ : Z) : kprog K unit :=
  kcatch (k_exchange_range k source_fd donor_fd donor_offset source_offset length_)
    (fun e => if errno_in e ["ENOTTY"; "EOPNOTSUPP"] then kraise CompactError "this kernel or XFS volume does not support XFS_IOC_EXCHANGE_RANGE" else
              if errno_in e ["EINVAL"; "EPERM"; "ETXTBSY"] then kraise SourceNotMovable (exn_msg e) else klift (Raise e)).

(** ** A pass *)

Definition emit_live (live_cells source destination length_ moved_total : Z) (live : list (Z * Z * Z * Z)) : list (Z * Z * Z * Z) :=
  if (live_cells <=? 0) || (length_ <=? 0) then live else live ++ [(source, destination, length_, moved_total)].

Definition skip_source (r : ExtentPassResult) : ExtentPassResult :=
  mkResult (r_moved_bytes r) (r_transactions r) (r_runtime_skipped r + 1) (r_blocked_reason r) (r_stopped r) (r_live r).

Definition blocked (reason : string) (r : ExtentPassResult) : ExtentPassResult :=
  mkResult (r_moved_bytes r) (r_transactions r) (r_runtime_skipped r) reason (r_stopped r) (r_live r).

(** Between [os.open] and [os.close]: whether the mapping was exchanged. *)
Definition exchange_source (filesystem : string) (block_size : Z) (gap : CollectorExtent) (cursor donor_logical source_offset source_physical move source_fd : Z) : kprog K bool :=
  kfinally
    (_verify_source source_fd source_offset source_physical move ;;!
     verify_slice gap donor_logical cursor move ;;!
     _copy_range source_fd source_offset (g_fd gap) move donor_logical ;;!
     k_fsync k (g_fd gap) ;;!
     let! exchanged := kcatch ((if bool_decide (filesystem = "ext4") then _ext4_exchange source_fd (g_fd gap) source_offset donor_logical move block_size
                                else _xfs_exchange source_fd (g_fd gap) source_offset donor_logical move) ;;! kret true)
                         (fun e => if bool_decide (exn_kind e = SourceNotMovable) then kret false else klift (Raise e)) in
     if (exchanged : bool) then k_fsync k source_fd ;;! k_fsync k (g_fd gap) ;;! kret true else kret false)
    (k_close k source_fd).

(** A round of [while cursor < gap.physical_end]. *)
Inductive step := Moved (move : Z) | Skipped | Ended | Stopped.

Definition pass_step (filesystem : string) (block_size live_cells moved_before : Z) (gap : CollectorExtent) (cursor donor_logical : Z) (heap : list heap_entry) (r : ExtentPassResult)
    : kprog K (step * list heap_entry * ExtentPassResult) := fun w =>
  if k_stop k w then (w, Ok (Stopped, heap, mkResult (r_moved_bytes r) (r_transactions r) (r_runtime_skipped r) (r_blocked_reason r) true (r_live r))) else
  match _pop_high_source heap cursor with
  | (None, heap) => (w, Ok (Ended, heap, blocked "no movable regular-file extent remains above the free range" r))
  | (Some source, heap) =>
      let move := Z.min (Z.min (gap_end gap - cursor) (s_length source)) MAX_TRANSACTION_BYTES in
      let move := move - move mod block_size in
      if move <=? 0 then (w, Ok (Ended, heap, blocked "the next source or destination is smaller than one filesystem block" r)) else
      let source_offset := s_logical source + s_length source - move in
      let source_physical := s_physical source + s_length source - move in
      match k_open k (s_path source) w with
      | (w, Raise e) => if is_os_error e then (w, Ok (Skipped, heap, skip_source r)) else (w, Raise e)
      | (w, Ok source_fd) =>
          (let! exchanged := exchange_source filesystem block_size gap cursor donor_logical source_offset source_physical move source_fd in
           if negb exchanged then kret (Skipped, heap, skip_source r) else
           let rest := shortened source move in
           let heap := if 0 <? s_length rest then _requeue_source heap rest else heap in
           let moved := r_moved_bytes r + move in
           kret (Moved move, heap, mkResult moved (r_transactions r + 1) (r_runtime_skipped r) (r_blocked_reason r) (r_stopped r)
                                     (emit_live live_cells source_physical cursor move (moved_before + moved) (r_live r)))) w
      end
  end.

(** A round moves at least one block or drops a source. *)
Fixpoint gap_loop (fuel : nat) (filesystem : string) (block_size live_cells moved_before : Z) (gap : CollectorExtent) (cursor donor_logical : Z) (heap : list heap_entry) (r : ExtentPassResult)
    : kprog K (list heap_entry * ExtentPassResult) :=
  if cursor <? gap_end gap then
    match fuel with
    | O => kraise OutOfFuel "_compact_extent_pass"
    | S fuel' =>
        let! '(s, heap, r) := pass_step filesystem block_size live_cells moved_before gap cursor donor_logical heap r in
        match s with
        | Moved move => gap_loop fuel' filesystem block_size live_cells moved_before gap (cursor + move) (donor_logical + move) heap r
        | Skipped => gap_loop fuel' filesystem block_size live_cells moved_before gap cursor donor_logical heap r
        | Ended | Stopped => kret (heap, r)
        end
    end
  else kret (heap, r).

Definition gap_fuel (block_size : Z) (gap : CollectorExtent) (heap : list heap_entry) : nat := (length heap + S (Z.to_nat (g_length gap / block_size)))%nat.

(** [for gap in gaps], until a gap is blocked or a stop is requested. *)
Fixpoint gaps_loop (filesystem : string) (block_size live_cells moved_before : Z) (gaps : list CollectorExtent) (heap : list heap_entry) (r : ExtentPassResult) : kprog K ExtentPassResult :=
  match gaps with
  | [] => kret r
  | gap :: rest =>
      let! '(heap, r) := gap_loop (gap_fuel block_size gap heap) filesystem block_size live_cells moved_before gap (g_physical gap) (g_logical gap) heap r in
      if r_stopped r || negb (bool_decide (r_blocked_reason r = "")) then kret r else
      gaps_loop filesystem block_size live_cells moved_before rest heap r
  end.

Definition empty_result : ExtentPassResult := mkResult 0 0 0 "" false [].

(** The pass once the collector has its file. *)
Definition pass_body (mountpoint : text) (filesystem : string) (block_size device_bytes live_cells moved_before fd : Z) (c : SpaceCollector) : kprog K ExtentPassResult :=
  fill_file block_size COLLECTOR_FLOOR fd ;;!
  let! gaps := owned_extents block_size device_bytes c in
  if bool_decide (gaps = []) then kret (blocked "no accessible free range requires work" empty_result) else
  let! '(heap, _, _) := scan_sources mountpoint block_size device_bytes (c_workspace c) in
  if bool_decide (heap = []) then kret (blocked "no movable regular-file extents were found" empty_result) else
  gaps_loop filesystem block_size live_cells moved_before gaps heap empty_result.

(** A pass: the collector, [first], the collector's file, [body], and [finally:
    collector.close()], which closes the files the collector has by then. *)
Definition with_collector {A} (mountpoint : text) (first : kprog K unit) (body : Z -> SpaceCollector -> kprog K A) : kprog K A :=
  let! c := SpaceCollector_init mountpoint in
  fun w => match (first ;;! _new_unlinked_file c (of_string "collector")) w with
           | (w, Raise e) => (collector_close c ;;! klift (Raise e)) w
           | (w, Ok (fd, c)) => kfinally (body fd c) (collector_close c) w
           end.

Definition _compact_extent_pass (mountpoint : text) (filesystem : string) (block_size device_bytes live_cells moved_before : Z) : kprog K ExtentPassResult :=
  with_collector mountpoint (k_statvfs k ;;! kret tt) (pass_body mountpoint filesystem block_size device_bytes live_cells moved_before).
End engine.
