(* ===== verification/NativeXfs.v ===== *)
(** * Whole-file compaction of XFS

    Models the legacy XFS path of [src/gui/native_compact_engine.py]: the scan
    for whole files, the temporary donor, [XFS_IOC_SWAPEXT] and the pass.  The
    calls that only this path makes are the parameter [x]. *)

From stdpp Require Import pretty.
From S2P Require Import Prelude Text Bytes Ranges Kernel NativeCompact.

Local Open Scope string_scope.
Local Open Scope list_scope.
Local Open Scope Z_scope.

(** [_XfsBstat]: the fields the engine uses, and the rest it only passes on. *)
Record XfsBstat := mkBstat { bs_forkoff : Z; bs_uid : Z; bs_gid : Z; bs_rest : bytes }.

Record xfs_calls (K : Type) := mkXfsCalls {
  (** [st_dev], [st_ino], [st_size] *)
  x_fstat : Z -> kprog K (Z * Z * Z);
  (** XFS_IOC_FSBULKSTAT_SINGLE: file, inode *)
  x_bulkstat : Z -> Z -> kprog K XfsBstat;
  x_setxattr : text -> text -> bytes -> kprog K unit;
  (** FS_IOC_FSGETXATTR and FS_IOC_FSSETXATTR *)
  x_get_fsxattr : Z -> kprog K bytes;
  x_set_fsxattr : Z -> bytes -> kprog K unit;
  x_ftruncate : Z -> Z -> kprog K unit;
  x_fchown : Z -> Z -> Z -> kprog K unit;
  (** XFS_IOC_SWAPEXT: file, donor, offset, length, what the file was like *)
  x_swapext : Z -> Z -> Z -> Z -> XfsBstat -> kprog K unit;
  x_time_ns : kprog K Z
}.

Arguments x_fstat {K} _ _.
Arguments x_bulkstat {K} _ _ _.
Arguments x_setxattr {K} _ _ _ _.
Arguments x_get_fsxattr {K} _ _.
Arguments x_set_fsxattr {K} _ _ _.
Arguments x_ftruncate {K} _ _ _.
Arguments x_fchown {K} _ _ _ _.
Arguments x_swapext {K} _ _ _ _ _ _.
Arguments x_time_ns {K} _.

Definition XFS_LEGACY_COLLECTOR_FLOOR : Z := 1024 * 1024.

Definition FALLOC_FL_KEEP_SIZE : Z := 1.
Definition FALLOC_FL_PUNCH_HOLE : Z := 2.

Record XfsWholeFile := mkWhole {
  xf_path : text; xf_size : Z; xf_extents : list FiemapExtent; xf_runs : list (Z * Z); xf_allocated : Z; xf_start : Z; xf_end : Z
}.

(** ** What is worked out from the extents *)

Definition logical_leb (a b : FiemapExtent) : bool := fx_logical a <=? fx_logical b.

(** Offset and length of the stretches of a file that have blocks. *)
Definition _logical_data_runs (extents : list FiemapExtent) : list (Z * Z) :=
  map (fun run : range => (run.1, run.2 - run.1))
    (reverse (fold_left merge_push (map (fun e => (fx_logical e, fx_logical e + fx_length e)) (py_sorted logical_leb extents)) [])).

Definition list_min (d : Z) (l : list Z) : Z := match l with [] => d | x :: rest => fold_left Z.min rest x end.
Definition list_max (d : Z) (l : list Z) : Z := match l with [] => d | x :: rest => fold_left Z.max rest x end.

(** The two-pointer loop: every round uses up an extent of one of the lists. *)
Fixpoint exchange_slices (fuel : nat) (live_cells moved_before moved : Z) (old new : list (Z * Z)) (live : list (Z * Z * Z * Z)) : list (Z * Z * Z * Z) :=
  match fuel, old, new with
  | S fuel', (op, ol) :: old', (np, nl) :: new' =>
      let take := Z.min ol nl in
      let live := emit_live live_cells op np take (moved_before + moved + take) live in
      exchange_slices fuel' live_cells moved_before (moved + take)
        (if ol - take =? 0 then old' else (op + take, ol - take) :: old')
        (if nl - take =? 0 then new' else (np + take, nl - take) :: new') live
  | _, _, _ => live
  end.

Definition _emit_xfs_whole_file_exchange (source_extents donor_extents : list FiemapExtent) (moved_before live_cells : Z) (live : list (Z * Z * Z * Z)) : list (Z * Z * Z * Z) :=
  let slices := map (fun e => (fx_physical e, fx_length e)) in
  exchange_slices (length source_extents + length donor_extents) live_cells moved_before 0 (slices source_extents) (slices donor_extents) live.

Section legacy.
Context {K : Type} (k : kernel K) (x : xfs_calls K) (rounds : nat).

(** ** The collector's slices *)

(** Punch a verified slice so that a donor can own it. *)
Definition release_slice (item : CollectorExtent) (logical physical_ length_ : Z) : kprog K unit :=
  verify_slice k rounds item logical physical_ length_ ;;!
  _fallocate k (g_fd item) (Z.lor FALLOC_FL_PUNCH_HOLE FALLOC_FL_KEEP_SIZE) logical length_ ;;!
  k_fsync k (g_fd item).

Definition refill_slice (item : CollectorExtent) (logical length_ : Z) : kprog K unit :=
  _fallocate k (g_fd item) 0 logical length_ ;;!
  k_fsync k (g_fd item).

(** ** The scan *)

Record whole_scan := mkWholeScan { w_candidates : list XfsWholeFile; w_files : Z; w_skipped : Z; w_seen : list (Z * Z) }.

Definition skip_whole (s : whole_scan) : whole_scan := mkWholeScan (w_candidates s) (w_files s) (w_skipped s + 1) (w_seen s).

Definition add_whole (block_size device_bytes : Z) (path : text) (size : Z) (extents : list FiemapExtent) (s : whole_scan) : whole_scan :=
  if bool_decide (extents = []) then s else
  if existsb (fun e => flagged (fx_flags e) UNMOVABLE_FIEMAP_FLAGS || misplaced block_size device_bytes e) extents then skip_whole s else
  let runs := _logical_data_runs extents in
  let allocated := zsum (map snd runs) in
  if allocated <=? 0 then s else
  mkWholeScan (w_candidates s ++ [mkWhole path size extents runs allocated (list_min 0 (map fx_physical extents)) (list_max 0 (map physical_end extents))])
    (w_files s) (w_skipped s) (w_seen s).

Definition scan_whole (block_size device_bytes : Z) (path : text) (fd : Z) (s : whole_scan) : kprog K (whole_scan * result unit) := fun w =>
  match x_fstat x fd w with
  | (w, Raise e) => (w, Ok (s, Raise e))
  | (w, Ok (dev, ino, size)) =>
      if bool_decide ((dev, ino) ∈ w_seen s) then (w, Ok (s, Ok tt)) else
      let s := mkWholeScan (w_candidates s) (w_files s + 1) (w_skipped s) ((dev, ino) :: w_seen s) in
      if size <=? 0 then (w, Ok (skip_whole s, Ok tt)) else
      match _file_xflags k fd w with
      | (w, Raise e) => (w, Ok (s, Raise e))
      | (w, Ok xflags) =>
          if flagged xflags UNMOVABLE_XFLAGS then (w, Ok (skip_whole s, Ok tt)) else
          match fiemap k rounds fd w with
          | (w, Raise e) => (w, Ok (s, Raise e))
          | (w, Ok extents) => (w, Ok (add_whole block_size device_bytes path size extents s, Ok tt))
          end
      end
  end.

(** [sort(key=lambda item: (item.physical_end, item.allocated_bytes), reverse=True)] *)
Definition whole_leb (a b : XfsWholeFile) : bool :=
  (xf_end b <? xf_end a) || ((xf_end b =? xf_end a) && (xf_allocated b <=? xf_allocated a)).

Definition _scan_xfs_whole_files (mountpoint : text) (block_size device_bytes : Z) (excluded : text) : kprog K (list XfsWholeFile * Z * Z) :=
  let! s := walk_directories k (scan_whole block_size device_bytes) excluded rounds (mkWholeScan [] 0 0 []) [mountpoint] in
  kret (py_sorted whole_leb (w_candidates s), w_files s, w_skipped s).

(** ** The donor *)

Definition _xfs_set_fsxattr (fd : Z) (value : bytes) : kprog K unit :=
  kcheck negb (py_len value =? 28) # ValueError "invalid fsxattr size";
  x_set_fsxattr x fd value.

Definition _xfs_bulkstat_single (fd : Z) : kprog K XfsBstat :=
  let! '(_, ino, _) := x_fstat x fd in
  kcatch (x_bulkstat x fd ino)
    (fun e => if errno_in e ["ENOTTY"; "EOPNOTSUPP"] then kraise CompactError "legacy XFS bulk-stat support is unavailable on this kernel" else klift (Raise e)).

(** [for index in range(128)]: whether the offsets match before it ends. *)
Fixpoint match_loop (donor_fd wanted : Z) (indexes : list Z) : kprog K bool :=
  match indexes with
  | [] => kret false
  | index :: rest =>
      let! current := _xfs_bulkstat_single donor_fd in
      if bs_forkoff current =? wanted then kret true else
      if negb (bs_forkoff current =? 0) && (bs_forkoff current <? wanted) then kret false else
      kcatch (x_setxattr x (of_string "/proc/self/fd/" ++ of_string (pretty donor_fd)) (of_string "user.linux_defragger_" ++ padded 3 index) (of_string "XX"))
        (fun e => if is_os_error e then kraise SourceNotMovable "could not prepare a compatible XFS attribute fork" else klift (Raise e)) ;;!
      match_loop donor_fd wanted rest
  end.

Definition _xfs_match_attr_fork (donor_fd : Z) (source_stat : XfsBstat) : kprog K unit :=
  let wanted := bs_forkoff source_stat in
  if wanted =? 0 then kret tt else
  let! matched := match_loop donor_fd wanted (py_range 0 128) in
  if (matched : bool) then kret tt else
  let! current := _xfs_bulkstat_single donor_fd in
  kcheck negb (bs_forkoff current =? wanted) # SourceNotMovable "temporary XFS inode fork offset does not match source offset";
  kret tt.

Definition _xfs_legacy_swapext (source_fd donor_fd : Z) (source_stat : XfsBstat) (length_ : Z) : kprog K unit :=
  kcatch (x_swapext x source_fd donor_fd 0 length_ source_stat)
    (fun e => if errno_in e ["ENOTTY"; "EOPNOTSUPP"; "ENOSYS"] then kraise CompactError "this kernel does not provide the legacy XFS_IOC_SWAPEXT fallback" else
              if errno_in e ["EINVAL"; "EPERM"; "ETXTBSY"; "EBUSY"; "EFAULT"; "ENOTSUP"] then kraise SourceNotMovable (exn_msg e) else klift (Raise e)).

Definition each_run (runs : list (Z * Z)) (f : Z -> Z -> kprog K unit) : kprog K unit := kfor (fun _ run => f run.1 run.2) tt runs.

Definition copy_flags (source_fd donor_fd : Z) : kprog K unit :=
  kcatch (let! attributes := x_get_fsxattr x source_fd in _xfs_set_fsxattr donor_fd attributes)
    (fun e => if is_os_error e then if errno_in e ["EINVAL"; "EOPNOTSUPP"; "ENOTTY"] then kret tt else kraise SourceNotMovable "could not duplicate XFS inode flags"
              else klift (Raise e)).

Definition fill_donor (source : XfsWholeFile) (source_stat : XfsBstat) (source_fd donor_fd : Z) : kprog K unit :=
  _xfs_match_attr_fork donor_fd source_stat ;;!
  copy_flags source_fd donor_fd ;;!
  each_run (xf_runs source) (fun logical length_ => _fallocate k donor_fd 0 logical length_) ;;!
  x_ftruncate x donor_fd (xf_size source) ;;!
  each_run (xf_runs source) (fun logical length_ => _copy_range k source_fd logical donor_fd length_ logical) ;;!
  x_ftruncate x donor_fd (xf_size source) ;;!
  x_fchown x donor_fd (bs_uid source_stat) (bs_gid source_stat) ;;!
  k_fsync k donor_fd.

Definition check_donor (source : XfsWholeFile) (target_start target_end : Z) (donor_extents : list FiemapExtent) : result unit :=
  check bool_decide (donor_extents = []) # SourceNotMovable "temporary XFS donor received no physical allocation";
  check existsb (fun e => flagged (fx_flags e) UNMOVABLE_FIEMAP_FLAGS) donor_extents # SourceNotMovable "temporary XFS donor has an unsupported extent type";
  check py_len (xf_extents source) <? py_len donor_extents # SourceNotMovable "legacy XFS donor would increase the file's physical fragment count";
  check negb (zsum (map fx_length donor_extents) =? xf_allocated source) # SourceNotMovable "legacy XFS donor allocation does not match the source allocation";
  check existsb (fun e => (fx_physical e <? target_start) || (target_end <? physical_end e)) donor_extents
    # SourceNotMovable "XFS allocated the temporary donor outside the released low collector range";
  Ok tt.

(** [except Exception: os.close(donor_fd); raise] *)
Definition _xfs_create_legacy_donor (c : SpaceCollector) (source_fd : Z) (source : XfsWholeFile) (source_stat : XfsBstat) (target_start target_end : Z)
    : kprog K (Z * list FiemapExtent) :=
  let! now := x_time_ns x in
  let donor_path := c_workspace c ++ of_string "/legacy-donor-" ++ of_string (pretty now) in
  let! donor_fd := k_create k donor_path in
  k_unlink k donor_path ;;!
  kcatch
    (fill_donor source source_stat source_fd donor_fd ;;!
     let! donor_extents := fiemap k rounds donor_fd in
     klift (check_donor source target_start target_end donor_extents) ;;!
     kret (donor_fd, donor_extents))
    (fun e => k_close k donor_fd ;;! klift (Raise e)).

(** ** A pass *)

(** The extents as they are compared. *)
Definition places (l : list FiemapExtent) : list (Z * Z * Z) := map (fun e => (fx_logical e, fx_physical e, fx_length e)) l.

Definition prepare_whole (c : SpaceCollector) (source : XfsWholeFile) (target_start target_end source_fd : Z) : kprog K (Z * list FiemapExtent * XfsBstat) :=
  let! current := fiemap k rounds source_fd in
  kcheck negb (bool_decide (places current = places (xf_extents source))) # SourceNotMovable "source extent map changed before legacy exchange";
  let! source_stat := _xfs_bulkstat_single source_fd in
  let! '(donor_fd, donor_extents) := _xfs_create_legacy_donor c source_fd source source_stat target_start target_end in
  kret (donor_fd, donor_extents, source_stat).

Definition close_opened (fd : option Z) : kprog K unit := match fd with Some fd => k_close k fd | None => kret tt end.

(** The [except] and the [finally] of an exchange: the donor's extents when it
    was done, [None] when the file was skipped. *)
Definition settle (gap : CollectorExtent) (cursor_logical length_ : Z) (source_fd donor_fd : option Z) (r : result (list FiemapExtent)) : kprog K (option (list FiemapExtent)) :=
  close_opened source_fd ;;!
  close_opened donor_fd ;;!
  refill_slice gap cursor_logical length_ ;;!
  match r with
  | Ok donor_extents => kret (Some donor_extents)
  | Raise e => if bool_decide (exn_kind e = SourceNotMovable) then kret None else klift (Raise e)
  end.

Definition exchange_whole (c : SpaceCollector) (gap : CollectorExtent) (cursor_physical cursor_logical : Z) (source : XfsWholeFile) : kprog K (option (list FiemapExtent)) := fun w =>
  let length_ := xf_allocated source in
  match k_open k (xf_path source) w with
  | (w, Raise e) => settle gap cursor_logical length_ None None (Raise e) w
  | (w, Ok source_fd) =>
      match prepare_whole c source cursor_physical (cursor_physical + length_) source_fd w with
      | (w, Raise e) => settle gap cursor_logical length_ (Some source_fd) None (Raise e) w
      | (w, Ok (donor_fd, donor_extents, source_stat)) =>
          let '(w, r) := (_xfs_legacy_swapext source_fd donor_fd source_stat (xf_size source) ;;! k_fsync k source_fd ;;! k_fsync k donor_fd) w in
          settle gap cursor_logical length_ (Some source_fd) (Some donor_fd) (match r with Ok _ => Ok donor_extents | Raise e => Raise e end) w
      end
  end.

(** [remaining.pop(selected_index)] *)
Fixpoint pop_first (p : XfsWholeFile -> bool) (l : list XfsWholeFile) : option (XfsWholeFile * list XfsWholeFile) :=
  match l with
  | [] => None
  | f :: rest => if p f then Some (f, rest) else match pop_first p rest with Some (g, left_) => Some (g, f :: left_) | None => None end
  end.

Definition fits (cursor available : Z) (f : XfsWholeFile) : bool := (xf_allocated f <=? available) && (cursor + xf_allocated f <? xf_end f).

Definition stop_result (r : ExtentPassResult) : ExtentPassResult :=
  mkResult (r_moved_bytes r) (r_transactions r) (r_runtime_skipped r) "stop requested between atomic XFS file exchanges" true (r_live r).

Definition moved_whole (live_cells moved_before : Z) (source : XfsWholeFile) (donor_extents : list FiemapExtent) (r : ExtentPassResult) : ExtentPassResult :=
  let moved := r_moved_bytes r + xf_allocated source in
  mkResult moved (r_transactions r + 1) (r_runtime_skipped r) (r_blocked_reason r) (r_stopped r)
    (_emit_xfs_whole_file_exchange (xf_extents source) donor_extents (moved_before + moved - xf_allocated source) live_cells (r_live r)).

(** [while cursor_physical < gap.physical_end]; every round takes a file off
    [remaining]. *)
Fixpoint whole_loop (fuel : nat) (c : SpaceCollector) (live_cells moved_before : Z) (gap : CollectorExtent) (cursor_physical cursor_logical : Z)
    (remaining : list XfsWholeFile) (r : ExtentPassResult) : kprog K (list XfsWholeFile * ExtentPassResult) :=
  if cursor_physical <? gap_end gap then
    match fuel with
    | O => kraise OutOfFuel "_xfs_legacy_compact_pass"
    | S fuel' => fun w =>
        if k_stop k w then (w, Ok (remaining, stop_result r)) else
        match pop_first (fits cursor_physical (gap_end gap - cursor_physical)) remaining with
        | None => (w, Ok (remaining, r))
        | Some (source, remaining) =>
            let length_ := xf_allocated source in
            (release_slice gap cursor_logical cursor_physical length_ ;;!
             let! exchanged := exchange_whole c gap cursor_physical cursor_logical source in
             match exchanged with
             | None => if bool_decide (remaining = []) then kret (remaining, skip_source r)
                       else whole_loop fuel' c live_cells moved_before gap cursor_physical cursor_logical remaining (skip_source r)
             | Some donor_extents =>
                 whole_loop fuel' c live_cells moved_before gap (cursor_physical + length_) (cursor_logical + length_) remaining
                   (moved_whole live_cells moved_before source donor_extents r)
             end) w
        end
    end
  else kret (remaining, r).

Fixpoint whole_gaps (c : SpaceCollector) (live_cells moved_before : Z) (gaps : list CollectorExtent) (remaining : list XfsWholeFile) (r : ExtentPassResult) : kprog K ExtentPassResult :=
  match gaps with
  | [] => kret r
  | gap :: rest =>
      let! '(remaining, r) := whole_loop (S (length remaining)) c live_cells moved_before gap (g_physical gap) (g_logical gap) remaining r in
      if r_stopped r then kret r else whole_gaps c live_cells moved_before rest remaining r
  end.

Definition whole_body (mountpoint : text) (block_size device_bytes live_cells moved_before fd : Z) (c : SpaceCollector) : kprog K ExtentPassResult :=
  fill_file k rounds block_size XFS_LEGACY_COLLECTOR_FLOOR fd ;;!
  let! gaps := owned_extents k rounds block_size device_bytes c in
  let! '(candidates, _, skipped) := _scan_xfs_whole_files mountpoint block_size device_bytes (c_workspace c) in
  let r := mkResult 0 0 skipped "" false [] in
  if bool_decide (gaps = []) || bool_decide (candidates = []) then kret (blocked "no suitable whole-file source and low free range remain" r) else
  let! r := whole_gaps c live_cells moved_before gaps candidates r in
  kret (if negb (r_stopped r) && (r_moved_bytes r =? 0) && bool_decide (r_blocked_reason r = "")
        then blocked "no complete movable XFS file fits a lower collector range without increasing its fragment count" r else r).

Definition _xfs_legacy_compact_pass (mountpoint : text) (block_size device_bytes live_cells moved_before : Z) : kprog K ExtentPassResult :=
  with_collector k mountpoint (kret tt) (whole_body mountpoint block_size device_bytes live_cells moved_before).
End legacy.
