(* ===== verification/NativeRun.v ===== *)
(** * The runs of the native engine

    Models the outer part of [src/gui/native_compact_engine.py]: the private
    mount, the loop over the passes, the offline compaction of ext4 with
    [e2fsck] and [resize2fs], and the command-line entry.  The tools are the
    parameter [t]. *)

From stdpp Require Import pretty.
From S2P Require Import Prelude Text Bytes Devices NativeGeometry Kernel NativeCompact NativeXfs.

Local Open Scope string_scope.
Local Open Scope list_scope.
Local Open Scope Z_scope.

Definition EXIT_STOPPED : Z := 130.
Definition MAX_EXT4_REPACK_ROUNDS : Z := 4.

(** [shutil.which], and a command run to its end: its exit status.  [OSError]
    is raised when it cannot be started. *)
Record tool_calls (K : Type) := mkTools {
  t_which : K -> text -> option text;
  t_run : list text -> kprog K Z;
  t_geteuid : Z
}.

Arguments t_which {K} _ _ _.
Arguments t_run {K} _ _.
Arguments t_geteuid {K} _.

(** ** Totals *)

Record ExtentCompactSummary := mkTotals {
  t_moved_bytes : Z; t_transactions : Z; t_runtime_skipped : Z; t_productive_passes : Z; t_final_reason : string; t_stopped : bool
}.

Definition no_totals : ExtentCompactSummary := mkTotals 0 0 0 0 "" false.

Definition add_pass (t : ExtentCompactSummary) (r : ExtentPassResult) : ExtentCompactSummary :=
  mkTotals (t_moved_bytes t + r_moved_bytes r) (t_transactions t + r_transactions r) (t_runtime_skipped t + r_runtime_skipped r)
    (t_productive_passes t) (r_blocked_reason r) (t_stopped t).

Definition set_stopped (t : ExtentCompactSummary) : ExtentCompactSummary :=
  mkTotals (t_moved_bytes t) (t_transactions t) (t_runtime_skipped t) (t_productive_passes t) (t_final_reason t) true.

Definition set_reason (reason : string) (t : ExtentCompactSummary) : ExtentCompactSummary :=
  mkTotals (t_moved_bytes t) (t_transactions t) (t_runtime_skipped t) (t_productive_passes t) reason (t_stopped t).

Definition productive (t : ExtentCompactSummary) : ExtentCompactSummary :=
  mkTotals (t_moved_bytes t) (t_transactions t) (t_runtime_skipped t) (t_productive_passes t + 1) (t_final_reason t) (t_stopped t).

Section run.
Context {K : Type} (k : kernel K) (x : xfs_calls K) (t : tool_calls K) (rounds : nat).

(** ** The private mount *)

Definition _assert_unmounted (device : text) : kprog K unit :=
  let! st := kget (fun s => k_stat k s device) in
  kcheck negb (st_isblk st) # CompactError "ext4, XFS and Btrfs Compact currently require a real block-device partition";
  let! mounted := kget (fun s => is_mounted (k_realpath k) (k_stat k s) (k_mountinfo k s) device) in
  kcheck (mounted : bool) # CompactError "already mounted; Compact requires an unmounted volume";
  kret tt.

Definition PrivateMount_enter (device : text) (filesystem : string) : kprog K text :=
  let! device := klift (k_realpath k device) in
  _assert_unmounted device ;;!
  let base := of_string "/run/linux-defragger" in
  k_makedirs k base ;;!
  let! path := k_mkdtemp k base in
  kcatch (k_mount k device path filesystem ;;! kret path)
    (fun _ => k_rmdir k path ;;! kraise CompactError "unable to mount the device privately").

(** [umount2], again while it answers [EBUSY]. *)
Fixpoint unmount_loop (attempts : nat) (path : text) : kprog K unit :=
  match attempts with
  | O => kret tt
  | S rest => kcatch (k_umount2 k path) (fun e => if errno_in e ["EBUSY"] then unmount_loop rest path else kret tt)
  end.

Definition PrivateMount_exit (path : text) : kprog K unit :=
  ignore_os_error (k_sync k path) ;;!
  unmount_loop 5 path ;;!
  ignore_os_error (k_rmdir k path).

Definition with_mount {A} (device : text) (filesystem : string) (body : text -> kprog K A) : kprog K A :=
  let! path := PrivateMount_enter device filesystem in
  kfinally (body path) (PrivateMount_exit path).

(** ** The passes *)

(** [pass] takes the bytes moved before it. *)
Fixpoint run_passes (pass : Z -> kprog K ExtentPassResult) (numbers : list Z) (sum : ExtentCompactSummary) : kprog K ExtentCompactSummary :=
  match numbers with
  | [] => kret (set_reason "the automatic safety limit of passes was reached" sum)
  | _ :: rest => fun w =>
      if k_stop k w then (w, Ok (set_stopped sum)) else
      (let! r := pass (t_moved_bytes sum) in
       let sum := add_pass sum r in
       if r_stopped r then kret (set_stopped sum) else
       if r_moved_bytes r <=? 0 then kret sum else
       run_passes pass rest (productive sum)) w
  end.

Definition compact_geometry (device : text) (filesystem : string) : kprog K (Z * Z) :=
  if bool_decide (filesystem = "ext4") then kget (fun s => ext4_compact_geometry (k_device k s device)) else
  if bool_decide (filesystem = "xfs") then kget (fun s => xfs_compact_geometry (k_device k s device)) else
  kraise CompactError "unsupported extent filesystem".

Definition one_pass (filesystem : string) (block_size device_bytes live_cells : Z) (mountpoint : text) (moved : Z) : kprog K ExtentPassResult :=
  if bool_decide (filesystem = "xfs") then _xfs_legacy_compact_pass k x rounds mountpoint block_size device_bytes live_cells moved
  else _compact_extent_pass k rounds mountpoint filesystem block_size device_bytes live_cells moved.

Definition _run_extent_compaction (device : text) (filesystem : string) (live_cells : Z) : kprog K ExtentCompactSummary :=
  let! '(block_size, device_bytes) := compact_geometry device filesystem in
  with_mount device filesystem (fun mountpoint =>
    run_passes (one_pass filesystem block_size device_bytes live_cells mountpoint) (py_range 1 (MAX_EXTENT_COMPACT_PASSES + 1)) no_totals).

Definition compact_extent_filesystem (device : text) (filesystem : string) (live_cells : Z) : kprog K Z :=
  let! sum := _run_extent_compaction device filesystem live_cells in
  kret (if t_stopped sum then EXIT_STOPPED else 0).

(** ** ext4 offline *)

Definition _run_ext4_tool (command : list text) (accepted : list Z) : kprog K Z :=
  let! status := kcatch (t_run t command) (fun e => if is_os_error e then kraise CompactError "cannot execute the tool" else klift (Raise e)) in
  kcheck negb (bool_decide (status ∈ accepted)) # CompactError "the tool failed";
  kret status.

Definition geometry_now (device : text) : kprog K (Z * Z) := kget (fun s => ext4_compact_geometry (k_device k s device)).

Section offline.
Context (device e2fsck resize2fs : text) (live_cells block_size original_bytes : Z).

Definition original_blocks : Z := original_bytes / block_size.

Definition shrink : kprog K unit := _run_ext4_tool [resize2fs; of_string "-M"; of_string "-p"; device] [0] ;;! kret tt.
Definition grow_back : kprog K unit := _run_ext4_tool [resize2fs; of_string "-p"; device; of_string (pretty original_blocks)] [0] ;;! kret tt.
Definition recheck : kprog K unit := _run_ext4_tool [e2fsck; of_string "-f"; of_string "-p"; device] [0; 1] ;;! kret tt.

Definition stopping (m : kprog K (option Z)) : kprog K (option Z) := fun w => if k_stop k w then (w, Ok (Some EXIT_STOPPED)) else m w.

(** The rounds: [Some] exit status when the function returns early. *)
Fixpoint repack_rounds (numbers : list Z) : kprog K (option Z) :=
  match numbers with
  | [] => kret None
  | _ :: rest =>
      stopping (
        shrink ;;!
        let! '(_, shrunk_bytes) := geometry_now device in
        kcheck original_blocks <? shrunk_bytes / block_size # CompactError "resize2fs reported a filesystem larger than its original size";
        grow_back ;;!
        stopping (
          let! sum := _run_extent_compaction device "ext4" live_cells in
          if t_stopped sum then kret (Some EXIT_STOPPED) else
          recheck ;;!
          if t_moved_bytes sum =? 0 then kret None else repack_rounds rest))
  end.

(** What comes before [final_minimum_committed = True]: the final size, or the
    exit status of an early return. *)
Definition before_commit : kprog K (Z + Z) :=
  _run_ext4_tool [e2fsck; of_string "-f"; of_string "-D"; of_string "-p"; device] [0; 1] ;;!
  let! early := repack_rounds (py_range 1 (MAX_EXT4_REPACK_ROUNDS + 1)) in
  let! early := match early with Some code => kret (Some code) | None => stopping (kret None) end in
  match early with
  | Some code => kret (inl code)
  | None =>
      shrink ;;!
      let! '(final_block_size, final_bytes) := geometry_now device in
      kcheck negb (final_block_size =? block_size) || (original_bytes <? final_bytes) # CompactError "ext4 final minimum geometry is invalid";
      kret (inr final_bytes)
  end.

Definition after_commit (final_bytes : Z) : kprog K Z :=
  _run_ext4_tool [e2fsck; of_string "-f"; of_string "-n"; device] [0] ;;!
  let! '(verified_block_size, verified_bytes) := geometry_now device in
  kcheck negb (verified_block_size =? block_size) || negb (verified_bytes =? final_bytes) # CompactError "ext4 verification changed the compacted filesystem geometry";
  fun w => (w, Ok (if k_stop k w then EXIT_STOPPED else 0)).

(** [except Exception] only prints. *)
Definition restore_size : kprog K unit :=
  kcatch (let! '(_, current_bytes) := geometry_now device in
          if current_bytes / block_size <? original_blocks then grow_back else kret tt)
    (fun _ => kret tt).

(** [try] and [finally]: the size is restored unless the final minimum was
    committed. *)
Definition repack : kprog K Z := fun w =>
  match before_commit w with
  | (w, Ok (inr final_bytes)) => after_commit final_bytes w
  | (w, Ok (inl code)) => (restore_size ;;! kret code) w
  | (w, Raise e) => (restore_size ;;! klift (Raise e)) w
  end.
End offline.

Definition compact_ext4_offline (device : text) (live_cells : Z) : kprog K Z :=
  _assert_unmounted device ;;!
  let! tools := kget (fun s => Ok (t_which t s (of_string "e2fsck"), t_which t s (of_string "resize2fs"))) in
  match tools with
  | (Some e2fsck, Some resize2fs) =>
      let! '(block_size, original_bytes) := geometry_now device in
      repack device e2fsck resize2fs live_cells block_size original_bytes
  | _ => kraise CompactError "ext4 filesystem-wide Compact requires e2fsprogs (e2fsck and resize2fs)"
  end.
End run.
