(* ===== verification/Btrfs.v ===== *)
(** * Btrfs: allocation and fragmentation ([src/gui/backends/btrfs.py])

    The walker over the raw trees of an unmounted image: the chunk mapping,
    the tree reader with its block cache, the records of the root tree, the
    extent items that say what is used, and the file extents of all file-system
    trees.  A tree reader keeps a cache and a counter that survive an
    exception, so its operations pass a state along ([kprog]). *)

From S2P Require Import Prelude Text Bytes Ranges Xfs NativeGeometry Kernel.

Local Open Scope string_scope.
Local Open Scope list_scope.
Local Open Scope Z_scope.

Definition _HEADER_SIZE : Z := 101.
Definition _ITEM_SIZE : Z := 25.
Definition _KEY_PTR_SIZE : Z := 33.
Definition _DISK_KEY_SIZE : Z := 17.
Definition _CHUNK_FIXED_SIZE : Z := 48.
Definition _STRIPE_SIZE : Z := 32.

Definition _INODE_ITEM : Z := 1.
Definition _EXTENT_DATA : Z := 108.
Definition _ROOT_ITEM : Z := 132.
Definition _EXTENT_ITEM : Z := 168.
Definition _METADATA_ITEM : Z := 169.
Definition _CHUNK_ITEM : Z := 228.
Definition _EXTENT_TREE_OBJECTID : Z := 2.
Definition _FS_TREE_OBJECTID : Z := 5.
Definition _FIRST_FREE_OBJECTID : Z := 256.

Definition _FILE_EXTENT_INLINE : Z := 0.
Definition _FILE_EXTENT_REG : Z := 1.
Definition _FILE_EXTENT_PREALLOC : Z := 2.

(** RAID0, RAID10, RAID5 and RAID6 *)
Definition _STRIPED_PROFILES : Z := Z.lor (Z.lor 8 64) (Z.lor 128 256).

Definition _MAX_TREE_LEVEL : Z := 8.
Definition _MAX_TREE_BLOCKS : Z := 8000000.

(** ** Keys and chunks *)

Record Key := mkKey { key_objectid : Z; key_type : Z; key_offset : Z }.

#[global] Instance Key_eq_dec : EqDecision Key.
Proof. solve_decision. Defined.

Record Chunk := mkChunk { ch_logical : Z; ch_length : Z; ch_type : Z; ch_stripe_len : Z; ch_stripes : list (Z * Z) }.

#[global] Instance Chunk_eq_dec : EqDecision Chunk.
Proof. solve_decision. Defined.

Definition chunk_end (c : Chunk) : Z := ch_logical c + ch_length c.

Record TreeItem := mkItem { i_key : Key; i_data : bytes }.

Definition _key (data : bytes) (offset : Z) : result Key :=
  check (offset <? 0) || (py_len data <? offset + _DISK_KEY_SIZE) # BackendError "truncated Btrfs disk key";
  objectid ← u64le data offset;
  type ← py_get data (offset + 8);
  position ← u64le data (offset + 9);
  Ok (mkKey objectid type position).

Definition read_stripe (data : bytes) (index : Z) : result (Z * Z) :=
  let pos := _CHUNK_FIXED_SIZE + index * _STRIPE_SIZE in
  devid ← u64le data pos;
  offset ← u64le data (pos + 8);
  Ok (devid, offset).

Definition _parse_chunk (data : bytes) (logical : Z) : result Chunk :=
  check py_len data <? _CHUNK_FIXED_SIZE # BackendError "truncated Btrfs chunk item";
  length_ ← u64le data 0;
  stripe_len ← u64le data 16;
  chunkey_type ← u64le data 24;
  num_stripes ← u16le data 44;
  check (length_ <=? 0) || (stripe_len <=? 0) || (num_stripes <=? 0) # BackendError "invalid Btrfs chunk geometry";
  check py_len data <? _CHUNK_FIXED_SIZE + num_stripes * _STRIPE_SIZE # BackendError "truncated Btrfs chunk stripes";
  stripes ← mapM_result (read_stripe data) (py_range 0 num_stripes);
  Ok (mkChunk logical length_ chunkey_type stripe_len stripes).

(** ** The mapper *)

(** [starts] is the list of the chunks' logical addresses. *)
Record Mapper := mkMapper { m_devid : Z; m_device_size : Z; m_chunks : list Chunk }.

Definition add_chunk (by_logical : list (Z * Chunk)) (chunk : Chunk) : result (list (Z * Chunk)) :=
  check match dict_get (ch_logical chunk) by_logical with Some existing => negb (bool_decide (existing = chunk)) | None => false end
    # BackendError "conflicting Btrfs chunk mappings";
  Ok (dict_set (ch_logical chunk) chunk by_logical).

Definition chunk_leb (a b : Chunk) : bool := ch_logical a <=? ch_logical b.

Definition local_stripes (devid : Z) (chunk : Chunk) : list (Z * Z) := filter (fun s => s.1 = devid) (ch_stripes chunk).

(** Returns the end of the chunk, the next [previous_end]. *)
Definition check_chunk (devid device_size previous_end : Z) (chunk : Chunk) : result Z :=
  check ch_logical chunk <? previous_end # BackendError "overlapping Btrfs chunks";
  check negb (Z.land (ch_type chunk) _STRIPED_PROFILES =? 0) # BackendError "striped Btrfs profiles are not yet supported by the native analyser";
  check bool_decide (local_stripes devid chunk = []) # BackendError "Btrfs chunk has no stripe on this device";
  check existsb (fun s => (s.2 <? 0) || (device_size <? s.2 + ch_length chunk)) (local_stripes devid chunk)
    # BackendError "Btrfs chunk stripe points outside the device";
  Ok (chunk_end chunk).

Definition Mapper_init (chunks : list Chunk) (devid device_size : Z) : result Mapper :=
  by_logical ← foldM add_chunk [] chunks;
  let chunks := py_sorted chunk_leb (map snd by_logical) in
  _ ← foldM (check_chunk devid device_size) (-1) chunks;
  Ok (mkMapper devid device_size chunks).

(** [bisect.bisect_right] on an ascending list *)
Fixpoint bisect_right (starts : list Z) (x : Z) : Z :=
  match starts with
  | [] => 0
  | y :: rest => if x <? y then 0 else 1 + bisect_right rest x
  end.

Definition _find (m : Mapper) (logical : Z) : result Chunk :=
  let index := bisect_right (map ch_logical (m_chunks m)) logical - 1 in
  check index <? 0 # BackendError "Btrfs logical address has no chunk mapping";
  chunk ← py_get (m_chunks m) index;
  check chunk_end chunk <=? logical # BackendError "Btrfs logical address has no chunk mapping";
  Ok chunk.

Definition read_physical (m : Mapper) (logical length_ : Z) : result Z :=
  chunk ← _find m logical;
  check chunk_end chunk <? logical + length_ # BackendError "Btrfs tree block crosses a chunk boundary";
  match local_stripes (m_devid m) chunk with
  | (_, stripe_offset) :: _ => Ok (stripe_offset + (logical - ch_logical chunk))
  | [] => raise BackendError "Btrfs logical address is not stored on this device"
  end.

(** The part of a range that lies in one chunk, on every local stripe. *)
Definition stripe_ranges (m : Mapper) (chunk : Chunk) (delta take : Z) : result (list range) :=
  mapM_result (fun s : Z * Z =>
    check m_device_size m <? s.2 + delta + take # BackendError "Btrfs physical extent points outside the device";
    Ok (s.2 + delta, s.2 + delta + take)) (local_stripes (m_devid m) chunk).

Fixpoint ranges_loop (fuel : nat) (m : Mapper) (cursor remaining : Z) (found : list range) : result (list range) :=
  if remaining =? 0 then Ok found else
  match fuel with
  | O => raise OutOfFuel "physical_ranges"
  | S fuel' =>
      chunk ← _find m cursor;
      let take := Z.min remaining (chunk_end chunk - cursor) in
      ranges ← stripe_ranges m chunk (cursor - ch_logical chunk) take;
      check bool_decide (ranges = []) # BackendError "Btrfs extent has no local physical mirror";
      ranges_loop fuel' m (cursor + take) (remaining - take) (found ++ ranges)
  end.

(** A round leaves a chunk behind. *)
Definition physical_ranges (m : Mapper) (logical length_ : Z) : result (list range) :=
  if length_ <=? 0 then Ok [] else ranges_loop (S (length (m_chunks m))) m logical length_ [].

(** ** The tree reader *)

Record tree_state := mkTree { t_blocks_read : Z; t_block_cache : gmap Z bytes }.

Definition no_blocks : tree_state := mkTree 0 ∅.

Section tree.
Context (r : reader) (m : Mapper) (nodesize : Z).

Abbreviation tprog := (kprog tree_state).

(** The cached block, or the one read now. *)
Definition raw_block (logical : Z) : tprog bytes := fun s =>
  match t_block_cache s !! logical with
  | Some raw => (s, Ok raw)
  | None =>
      match physical_address ← read_physical m logical nodesize; reader_read r physical_address nodesize with
      | Raise e => (s, Raise e)
      | Ok raw =>
          (mkTree (t_blocks_read s + 1) (<[logical := raw]> (t_block_cache s)),
           check _MAX_TREE_BLOCKS <? t_blocks_read s + 1 # BackendError "Btrfs tree traversal exceeded the safety limit"; Ok raw)
      end
  end.

(** What is checked of a block: its level and number of items. *)
Definition block_header (raw : bytes) (logical expected_level : Z) : result (Z * Z) :=
  bytenr ← u64le raw 48;
  check negb (bytenr =? logical) # BackendError "Btrfs tree-block bytenr mismatch";
  level ← py_get raw 100;
  check (_MAX_TREE_LEVEL <? level) || negb (level =? expected_level) # BackendError "invalid Btrfs tree level";
  nritems ← u32le raw 96;
  check nodesize <? _HEADER_SIZE + nritems * (if level =? 0 then _ITEM_SIZE else _KEY_PTR_SIZE) # BackendError "invalid Btrfs tree item count";
  Ok (level, nritems).

Definition block (logical expected_level : Z) : tprog (bytes * Z * Z) :=
  kcheck (logical <=? 0) || negb (logical mod nodesize =? 0) # BackendError "invalid Btrfs tree-block address";
  let! raw := raw_block logical in
  let! '(level, nritems) := klift (block_header raw logical expected_level) in
  kret (raw, level, nritems).

Definition leaf_item (raw : bytes) (nritems index : Z) : result TreeItem :=
  let pos := _HEADER_SIZE + index * _ITEM_SIZE in
  item_key ← _key raw pos;
  relative_offset ← u32le raw (pos + 17);
  data_size ← u32le raw (pos + 21);
  let data_offset := _HEADER_SIZE + relative_offset in
  check data_offset <? _HEADER_SIZE + nritems * _ITEM_SIZE # BackendError "Btrfs leaf item overlaps its item table";
  check nodesize <? data_offset + data_size # BackendError "Btrfs leaf item lies outside the tree block";
  Ok (mkItem item_key (py_slice raw data_offset (data_offset + data_size))).

Definition child_pointer (raw : bytes) (level index : Z) : result (Z * Z) :=
  child ← u64le raw (_HEADER_SIZE + index * _KEY_PTR_SIZE + 17);
  check child <=? 0 # BackendError "invalid Btrfs child pointer";
  Ok (child, level - 1).

(** The next entry of the stack (its top is the head) that was not visited. *)
Fixpoint next_unvisited (visited : gset Z) (stack : list (Z * Z)) : option (Z * Z * list (Z * Z)) :=
  match stack with
  | [] => None
  | (logical, level) :: stack => if decide (logical ∈ visited) then next_unvisited visited stack else Some (logical, level, stack)
  end.

Fixpoint walk_loop (fuel : nat) (visited : gset Z) (stack : list (Z * Z)) (items : list TreeItem) (blocks : list Z) : tprog (list TreeItem * list Z) :=
  match next_unvisited visited stack with
  | None => kret (items, blocks)
  | Some (logical, expected_level, stack) =>
      match fuel with
      | O => kraise OutOfFuel "walk"
      | S fuel' =>
          let! '(raw, level, nritems) := block logical expected_level in
          if level =? 0
          then let! new := klift (mapM_result (leaf_item raw nritems) (py_range 0 nritems)) in
               walk_loop fuel' ({[logical]} ∪ visited) stack (items ++ new) (blocks ++ [logical])
          else let! children := klift (mapM_result (child_pointer raw level) (py_range 0 nritems)) in
               walk_loop fuel' ({[logical]} ∪ visited) (children ++ stack) items (blocks ++ [logical])
      end
  end.

(** A block is visited once, and only blocks of a chunk are read. *)
Definition walk_fuel : nat := S (Z.to_nat (zsum (map (fun c => ch_length c / nodesize + 1) (m_chunks m)))).

Definition walk (root root_level : Z) : tprog (list TreeItem * list Z) := walk_loop walk_fuel ∅ [(root, root_level)] [] [].

End tree.

(** ** The superblock's chunks and the root tree *)

Fixpoint system_chunks_loop (fuel : nat) (data : bytes) (pos : Z) (chunks : list Chunk) : result (list Chunk) :=
  if pos <? py_len data then
    match fuel with
    | O => raise OutOfFuel "_system_chunks"
    | S fuel' =>
        check py_len data <? pos + _DISK_KEY_SIZE + _CHUNK_FIXED_SIZE # BackendError "truncated Btrfs system chunk array";
        item_key ← _key data pos;
        check negb (key_type item_key =? _CHUNK_ITEM) # BackendError "unexpected key in Btrfs system chunk array";
        num_stripes ← u16le data (pos + _DISK_KEY_SIZE + 44);
        let item_size := _CHUNK_FIXED_SIZE + num_stripes * _STRIPE_SIZE in
        let end_ := pos + _DISK_KEY_SIZE + item_size in
        check py_len data <? end_ # BackendError "truncated Btrfs system chunk item";
        chunk ← _parse_chunk (py_slice data (pos + _DISK_KEY_SIZE) end_) (key_offset item_key);
        system_chunks_loop fuel' data end_ (chunks ++ [chunk])
    end
  else Ok chunks.

(** An item has more than one byte. *)
Definition _system_chunks (superblock : bytes) : result (list Chunk) :=
  size ← u32le superblock 160;
  check (size <=? 0) || (2048 <? size) # BackendError "invalid Btrfs system chunk array size";
  let data := py_slice superblock 811 (811 + size) in
  system_chunks_loop (length data) data 0 [].

(** bytenr, level, refs, offset of the key *)
Definition root_record (roots : list (Z * (Z * Z * Z * Z))) (item : TreeItem) : result (list (Z * (Z * Z * Z * Z))) :=
  if negb (key_type (i_key item) =? _ROOT_ITEM) || (py_len (i_data item) <? 239) then Ok roots else
  bytenr ← u64le (i_data item) 176;
  refs ← u32le (i_data item) 216;
  level ← py_get (i_data item) 238;
  let newest := match dict_get (key_objectid (i_key item)) roots with None => true | Some (_, _, _, offset) => offset <=? key_offset (i_key item) end in
  Ok (if negb (bytenr =? 0) && (level <=? _MAX_TREE_LEVEL) && newest
      then dict_set (key_objectid (i_key item)) (bytenr, level, refs, key_offset (i_key item)) roots else roots).

Definition _root_records (items : list TreeItem) : result (list (Z * (Z * Z * Z))) :=
  roots ← foldM root_record [] items;
  Ok (map (fun p => (p.1, p.2.1)) roots).

(** ** File extents *)

Record FileRun := mkFileRun { fr_logical : Z; fr_physical : Z; fr_length : Z; fr_disk_start : Z; fr_disk_length : Z; fr_encoded : bool }.

Definition run_leb (a b : FileRun) : bool := fr_logical a <=? fr_logical b.

(** [output] is kept reversed. *)
Definition coalesce_run (output : list FileRun) (run : FileRun) : list FileRun :=
  if fr_length run <=? 0 then output else
  match output with
  | old :: rest =>
      if negb (fr_encoded old) && negb (fr_encoded run) && (fr_logical old + fr_length old =? fr_logical run) && (fr_physical old + fr_length old =? fr_physical run)
      then mkFileRun (fr_logical old) (fr_physical old) (fr_length old + fr_length run) (fr_disk_start old) (fr_disk_length old + fr_disk_length run) false :: rest
      else run :: output
  | [] => [run]
  end.

Definition _coalesce_file_runs (runs : list FileRun) : list FileRun := reverse (fold_left coalesce_run (py_sorted run_leb runs) []).

(** The fields of a file extent item that has an extent on the device: start
    and bytes on the disk, offset in it, bytes of the file, encoded. *)
Inductive extent_item := SkippedItem | MalformedItem | ExtentItem (disk_bytenr disk_num_bytes extent_offset num_bytes : Z) (encoded : bool).

Definition parse_extent_item (data : bytes) : result extent_item :=
  if py_len data <? 21 then Ok SkippedItem else
  extent_type ← py_get data 20;
  if extent_type =? _FILE_EXTENT_INLINE then Ok SkippedItem else
  if negb (bool_decide (extent_type ∈ [_FILE_EXTENT_REG; _FILE_EXTENT_PREALLOC])) || (py_len data <? 53) then Ok MalformedItem else
  disk_bytenr ← u64le data 21;
  disk_num_bytes ← u64le data 29;
  extent_offset ← u64le data 37;
  num_bytes ← u64le data 45;
  if (disk_bytenr =? 0) || (num_bytes =? 0) then Ok SkippedItem else
  compression ← py_get data 16;
  encryption ← py_get data 17;
  other ← u16le data 18;
  Ok (ExtentItem disk_bytenr disk_num_bytes extent_offset num_bytes (negb (compression =? 0) || negb (encryption =? 0) || negb (other =? 0))).

(** What a tree says of its files: modes by inode, runs by inode, and how many
    items were malformed. *)
Record tree_scan := mkTreeScan { n_inode_modes : list (Z * Z); n_file_runs : list (Z * list FileRun); n_malformed_items : Z }.

Definition set_mode (inode mode : Z) (s : tree_scan) : tree_scan := mkTreeScan (dict_set inode mode (n_inode_modes s)) (n_file_runs s) (n_malformed_items s).
Definition malformed (s : tree_scan) : tree_scan := mkTreeScan (n_inode_modes s) (n_file_runs s) (n_malformed_items s + 1).
Definition append_run (inode : Z) (run : FileRun) (s : tree_scan) : tree_scan :=
  mkTreeScan (n_inode_modes s) (dict_set inode (default [] (dict_get inode (n_file_runs s)) ++ [run]) (n_file_runs s)) (n_malformed_items s).

(** The first local copy of an extent. *)
Definition first_copy (m : Mapper) (logical length_ : Z) : result range :=
  ranges ← physical_ranges m logical length_;
  py_get ranges 0.

Definition extent_run (m : Mapper) (position disk_bytenr disk_num_bytes extent_offset num_bytes : Z) (encoded : bool) : result FileRun :=
  if encoded
  then p ← first_copy m disk_bytenr disk_num_bytes; Ok (mkFileRun position p.1 num_bytes p.1 (p.2 - p.1) true)
  else p ← first_copy m (disk_bytenr + extent_offset) num_bytes; Ok (mkFileRun position p.1 num_bytes p.1 num_bytes false).

Definition scan_item (m : Mapper) (s : tree_scan) (item : TreeItem) : result tree_scan :=
  let k := i_key item in
  if (key_type k =? _INODE_ITEM) && (56 <=? py_len (i_data item)) then
    mode ← u32le (i_data item) 52;
    Ok (set_mode (key_objectid k) (S_IFMT mode) s)
  else if negb (key_type k =? _EXTENT_DATA) then Ok s else
  e ← parse_extent_item (i_data item);
  match e with
  | SkippedItem => Ok s
  | MalformedItem => Ok (malformed s)
  | ExtentItem disk_bytenr disk_num_bytes extent_offset num_bytes encoded =>
      match extent_run m (key_offset k) disk_bytenr disk_num_bytes extent_offset num_bytes encoded with
      | Ok run => Ok (append_run (key_objectid k) run s)
      | Raise e => if bool_decide (exn_kind e = BackendError) then Ok (malformed s) else Raise e
      end
  end.

(** The counters over all trees. *)
Record summary := mkSummary {
  u_regular_files : Z; u_directories : Z; u_fragmented_files : Z; u_fragmented_physical : list range; u_malformed_items : Z; u_fs_tree_blocks : Z
}.

Definition no_summary : summary := mkSummary 0 0 0 [] 0 0.

Definition count_inode (file_runs : list (Z * list FileRun)) (u : summary) (p : Z * Z) : summary :=
  let '(inode, mode) := p in
  if mode =? S_IFREG then
    let runs := _coalesce_file_runs (default [] (dict_get inode file_runs)) in
    let fragmented := 1 <? py_len runs in
    mkSummary (u_regular_files u + 1) (u_directories u) (if fragmented then u_fragmented_files u + 1 else u_fragmented_files u)
      (if fragmented then u_fragmented_physical u ++ map (fun run => (fr_disk_start run, fr_disk_start run + fr_disk_length run)) runs else u_fragmented_physical u)
      (u_malformed_items u) (u_fs_tree_blocks u)
  else if mode =? S_IFDIR then mkSummary (u_regular_files u) (u_directories u + 1) (u_fragmented_files u) (u_fragmented_physical u) (u_malformed_items u) (u_fs_tree_blocks u)
  else u.

Definition set_malformed (malformed_items : Z) (u : summary) : summary :=
  mkSummary (u_regular_files u) (u_directories u) (u_fragmented_files u) (u_fragmented_physical u) malformed_items (u_fs_tree_blocks u).

Definition add_blocks (blocks : Z) (u : summary) : summary :=
  mkSummary (u_regular_files u) (u_directories u) (u_fragmented_files u) (u_fragmented_physical u) (u_malformed_items u) (u_fs_tree_blocks u + blocks).

Definition live_roots (roots : list (Z * (Z * Z * Z))) : list (Z * (Z * Z * Z)) :=
  py_sorted (fun a b => a.1 <=? b.1)
    (filter (fun p : Z * (Z * Z * Z) => let '(objectid, (_, _, refs)) := p in negb (refs =? 0) && ((objectid =? _FS_TREE_OBJECTID) || (_FIRST_FREE_OBJECTID <=? objectid)) = true) roots).

Section scan.
Context (r : reader) (m : Mapper) (nodesize : Z).

Definition scan_root (u : summary) (root : Z * (Z * Z * Z)) : kprog tree_state summary := fun s =>
  let '(_, (bytenr, level, _)) := root in
  match walk r m nodesize bytenr level s with
  | (s, Raise e) => (s, if bool_decide (exn_kind e = BackendError) then Ok (set_malformed (u_malformed_items u + 1) u) else Raise e)
  | (s, Ok (items, blocks)) =>
      (s, t ← foldM (scan_item m) (mkTreeScan [] [] (u_malformed_items u)) items;
          Ok (fold_left (count_inode (n_file_runs t)) (n_inode_modes t) (set_malformed (n_malformed_items t) (add_blocks (py_len blocks) u))))
  end.

(** [roots_scanned] is the number of trees. *)
Definition _scan_filesystem_trees (roots : list (Z * (Z * Z * Z))) : kprog tree_state (summary * Z) :=
  let ids := live_roots roots in
  let! u := kfor scan_root no_summary ids in
  kret (u, py_len ids).
End scan.

(** ** The map *)

(** The bytes an extent item takes. *)
Definition item_length (nodesize : Z) (item : TreeItem) : Z :=
  if key_type (i_key item) =? _EXTENT_ITEM then key_offset (i_key item) else if key_type (i_key item) =? _METADATA_ITEM then nodesize else 0.

Definition add_extent (m : Mapper) (nodesize : Z) (ranges : list range) (item : TreeItem) : result (list range) :=
  let length_ := item_length nodesize item in
  if (key_objectid (i_key item) =? 0) || (length_ =? 0) then Ok ranges else
  new ← physical_ranges m (key_objectid (i_key item)) length_;
  Ok (ranges ++ new).

(** The superblock's mirrors that lie on the device. *)
Definition superblock_mirrors (total_bytes : Z) : list range :=
  map (fun mirror => (mirror, mirror + BTRFS_SUPER_SIZE))
    (filter (fun mirror => mirror + BTRFS_SUPER_SIZE <= total_bytes) [64 * 1024; 64 * 1024 * 1024; 256 * 1024 ^ 3]).

Definition sectors (sectorsize : Z) (ranges : list range) : list range :=
  merge_ranges (map (fun r : range => (r.1 / sectorsize, (r.2 + sectorsize - 1) / sectorsize)) ranges).

Definition clip (total_units : Z) (units : list range) : list range :=
  map (fun r : range => (Z.max 0 r.1, Z.min total_units r.2)) (filter (fun r : range => r.1 < total_units /\ 0 < r.2) units).

(** From the used bytes to the cells. *)
Definition space_map (total_bytes sectorsize cells : Z) (used_bytes_ranges : list range) (dets : details) : result map_result :=
  let total_units := (total_bytes + sectorsize - 1) / sectorsize in
  let used_units := clip total_units (sectors sectorsize used_bytes_ranges) in
  free_units ← complement_ranges total_units used_units;
  aggregate_ranges total_units cells sectorsize "btrfs" (state_ranges free_units used_units) "exact-single-device" dets.

Definition summary_counts (u : summary) : file_counts :=
  FileCounts (u_regular_files u) (u_directories u) (u_fragmented_files u) 0 (100 * u_fragmented_files u, Z.max 1 (u_regular_files u)).

Definition DIRECTORY_NOTE : string := "Btrfs directory records share filesystem-tree blocks and do not form private block chains".

Definition summary_details (u : summary) (roots_scanned fragmented_mapped : Z) : details :=
  [("fragmentation_available", JBool true); ("fragmentation_basis", JStr "Btrfs inode and FILE_EXTENT_ITEM records across live filesystem roots");
   ("directory_fragmentation_note", JStr DIRECTORY_NOTE); ("filesystem_roots_scanned", JInt roots_scanned);
   ("filesystem_tree_blocks", JInt (u_fs_tree_blocks u)); ("malformed_items", JInt (u_malformed_items u)); ("fragmented_sectors_mapped", JInt fragmented_mapped)].

Definition finish_map (m : map_result) (sectorsize : Z) (scanned : result (summary * Z)) : result files_map :=
  match scanned with
  | Raise e =>
      if bool_decide (exn_kind e = BackendError)
      then Ok (FilesMap (with_cells m (mr_cells m) (mr_details m ++ [("fragmentation_available", JBool false); ("fragmentation_note", JStr (exn_msg e))])) None)
      else Raise e
  | Ok (u, roots_scanned) =>
      let '(cells, fragmented_mapped) := overlay_ranges (mr_cells m) (sectors sectorsize (merge_ranges (u_fragmented_physical u))) FFragmented in
      Ok (FilesMap (with_cells m cells (mr_details m ++ summary_details u roots_scanned fragmented_mapped)) (Some (summary_counts u)))
  end.

(** The fields of the superblock that the map reads. *)
Record superblock := mkSuper {
  sb_total_bytes : Z; sb_bytes_used : Z; sb_num_devices : Z; sb_sectorsize : Z; sb_nodesize : Z;
  sb_root : Z; sb_chunk_root : Z; sb_root_level : Z; sb_chunk_root_level : Z; sb_devid : Z
}.

Definition read_superblock (sb : bytes) : result superblock :=
  total_bytes ← u64le sb 112;
  bytes_used ← u64le sb 120;
  num_devices ← u64le sb 136;
  sectorsize ← u32le sb 144;
  nodesize ← u32le sb 148;
  root ← u64le sb 80;
  chunk_root ← u64le sb 88;
  root_level ← py_get sb 198;
  chunk_root_level ← py_get sb 199;
  devid ← u64le sb 201;
  Ok (mkSuper total_bytes bytes_used num_devices sectorsize nodesize root chunk_root root_level chunk_root_level devid).

Definition power_of_two (n : Z) : bool := Z.land n (n - 1) =? 0.

Definition check_superblock (s : superblock) (size : Z) : result unit :=
  check negb (sb_num_devices s =? 1) # BackendError "native exact Btrfs analysis currently supports single-device filesystems only";
  check (sb_total_bytes s <=? 0) || ((0 <? size) && (size <? sb_total_bytes s)) # BackendError "invalid Btrfs device size";
  check (sb_sectorsize s <? 4096) || negb (power_of_two (sb_sectorsize s)) # BackendError "unsupported Btrfs sector size";
  check (sb_nodesize s <? sb_sectorsize s) || (65536 <? sb_nodesize s) || negb (power_of_two (sb_nodesize s)) # BackendError "unsupported Btrfs node size";
  check (sb_root s =? 0) || (sb_chunk_root s =? 0) || (_MAX_TREE_LEVEL <? sb_root_level s) || (_MAX_TREE_LEVEL <? sb_chunk_root_level s) # BackendError "invalid Btrfs tree roots";
  Ok tt.

(** The mapper from the system chunks and the chunk tree, and how many blocks
    that tree has. *)
Definition read_mapper (r : reader) (sb : bytes) (s : superblock) : result (Mapper * Z) :=
  chunks ← _system_chunks sb;
  bootstrap ← Mapper_init chunks (sb_devid s) (sb_total_bytes s);
  '(chunk_items, chunk_blocks) ← (walk r bootstrap (sb_nodesize s) (sb_chunk_root s) (sb_chunk_root_level s) no_blocks).2;
  more ← mapM_result (fun item => _parse_chunk (i_data item) (key_offset (i_key item))) (filter (fun item => key_type (i_key item) = _CHUNK_ITEM) chunk_items);
  m ← Mapper_init (chunks ++ more) (sb_devid s) (sb_total_bytes s);
  Ok (m, py_len chunk_blocks).

(** The root and the extent tree: roots, extent items and the blocks of the two. *)
Definition read_trees (r : reader) (m : Mapper) (s : superblock) : kprog tree_state (list (Z * (Z * Z * Z)) * list TreeItem * Z * Z) :=
  let! '(root_items, root_blocks) := walk r m (sb_nodesize s) (sb_root s) (sb_root_level s) in
  let! roots := klift (_root_records root_items) in
  match dict_get _EXTENT_TREE_OBJECTID roots with
  | None => kraise BackendError "Btrfs root tree does not contain the extent tree"
  | Some (extent_root, extent_level, _) =>
      let! '(extent_items, extent_blocks) := walk r m (sb_nodesize s) extent_root extent_level in
      kret (roots, extent_items, py_len root_blocks, py_len extent_blocks)
  end.

Definition map_details (s : superblock) (m : Mapper) (chunk_blocks root_blocks extent_blocks : Z) : details :=
  [("sector_size", JInt (sb_sectorsize s)); ("node_size", JInt (sb_nodesize s)); ("device_id", JInt (sb_devid s)); ("chunks", JInt (py_len (m_chunks m)));
   ("logical_bytes_used", JInt (sb_bytes_used s)); ("chunk_tree_blocks", JInt chunk_blocks); ("root_tree_blocks", JInt root_blocks); ("extent_tree_blocks", JInt extent_blocks)].

Definition used_ranges (m : Mapper) (total_bytes nodesize : Z) (items : list TreeItem) : result (list range) :=
  used ← foldM (add_extent m nodesize) [] items;
  Ok (used ++ superblock_mirrors total_bytes).

(** The map of an image, or of a device without administrator privileges. *)
Definition btrfs_map (opened : result reader) (cells : Z) : result files_map :=
  r ← opened;
  sb ← reader_read r BTRFS_SUPER_OFFSET BTRFS_SUPER_SIZE;
  check negb (bool_decide (py_slice sb 64 72 = BTRFS_MAGIC)) # BackendError "not a Btrfs volume";
  s ← read_superblock sb;
  _ ← check_superblock s (reader_size r);
  '(m, chunk_blocks) ← read_mapper r sb s;
  match read_trees r m s no_blocks with
  | (_, Raise e) => Raise e
  | (tree, Ok (roots, extent_items, root_blocks, extent_blocks)) =>
      used ← used_ranges m (sb_total_bytes s) (sb_nodesize s) extent_items;
      result ← space_map (sb_total_bytes s) (sb_sectorsize s) cells used (map_details s m chunk_blocks root_blocks extent_blocks);
      finish_map result (sb_sectorsize s) (_scan_filesystem_trees r m (sb_nodesize s) roots tree).2
  end.

Definition probe (opened : result reader) : result bool :=
  r ← opened;
  magic ← reader_read r (BTRFS_SUPER_OFFSET + 64) 8;
  Ok (bool_decide (magic = BTRFS_MAGIC)).
