(* ===== verification/BtrfsKernel.v ===== *)
(** * Btrfs through the kernel ([src/gui/backends/btrfs.py])

    On a block device the trees are read with the tree-search ioctl of the
    mounted file system.  [KernelTreeSearch] pages through a range of keys; an
    iteration over its items is a fold ([items_of_types]) that gives back what
    the consumer has accumulated together with the exception that ended it, if
    one did, because the callers keep part of it.  The ioctl and the other
    calls of this file are parameters ([btrfs_calls]). *)

From S2P Require Import Prelude Text Bytes Ranges Xfs Devices NativeGeometry Kernel NativeCompact Btrfs.
From stdpp Require Import pretty.

Local Open Scope string_scope.
Local Open Scope list_scope.
Local Open Scope Z_scope.

Definition _SEARCH_KEY_SIZE : Z := 104.
Definition _SEARCH_ARGS_V2_SIZE : Z := 112.
Definition _SEARCH_HEADER_SIZE : Z := 32.
Definition _SEARCH_BUFFER : Z := 16 * 1024 * 1024.
Definition _U64_MAX : Z := 2 ^ 64 - 1.

Record btrfs_calls (K : Type) := mkBtrfsCalls {
  b_geteuid : Z;
  (** open a directory *)
  b_open_dir : text -> kprog K Z;
  (** read-only private mount: device, directory, options *)
  b_mount_ro : text -> text -> string -> kprog K unit;
  (** BTRFS_IOC_TREE_SEARCH_V2: file, arguments, size of the buffer; the
      request as it is afterwards, and the errno if the call failed *)
  b_tree_search : Z -> bytes -> Z -> K -> K * (bytes * option string);
  (** BTRFS_IOC_RESIZE *)
  b_resize : Z -> bytes -> kprog K unit;
  (** BTRFS_IOC_BALANCE_V2 in a thread of its own: the call starts it; whether
      it runs; wait for it a while; how it ended *)
  b_balance_start : Z -> bytes -> kprog K unit;
  b_balance_alive : K -> bool;
  b_balance_join : kprog K unit;
  b_balance_outcome : K -> option exn;
  (** BTRFS_IOC_BALANCE_CTL and BTRFS_IOC_BALANCE_PROGRESS *)
  b_balance_cancel : Z -> kprog K unit;
  b_balance_progress : Z -> kprog K bytes;
  (** [os.syncfs] *)
  b_syncfs : Z -> kprog K unit
}.
Arguments b_geteuid {K} _.
Arguments b_open_dir {K} _ _.
Arguments b_mount_ro {K} _ _ _ _.
Arguments b_tree_search {K} _ _ _ _.
Arguments b_resize {K} _ _ _.
Arguments b_balance_start {K} _ _ _.
Arguments b_balance_alive {K} _ _.
Arguments b_balance_join {K} _.
Arguments b_balance_outcome {K} _ _.
Arguments b_balance_cancel {K} _ _.
Arguments b_balance_progress {K} _ _.
Arguments b_syncfs {K} _ _.

(** ** The tree search *)

Record KernelTreeSearch := mkSearch { ts_buffer_size : Z; ts_calls : Z; ts_items_returned : Z; ts_payload_bytes : Z; ts_filtered_items : Z }.

Definition new_search (buffer_size : Z) : KernelTreeSearch := mkSearch (Z.max (64 * 1024) buffer_size) 0 0 0 0.

Definition set_buffer (size : Z) (s : KernelTreeSearch) : KernelTreeSearch := mkSearch size (ts_calls s) (ts_items_returned s) (ts_payload_bytes s) (ts_filtered_items s).
Definition count_call (s : KernelTreeSearch) : KernelTreeSearch := mkSearch (ts_buffer_size s) (ts_calls s + 1) (ts_items_returned s) (ts_payload_bytes s) (ts_filtered_items s).
Definition count_item (length_ : Z) (s : KernelTreeSearch) : KernelTreeSearch :=
  mkSearch (ts_buffer_size s) (ts_calls s) (ts_items_returned s + 1) (ts_payload_bytes s + length_) (ts_filtered_items s).
Definition count_filtered (s : KernelTreeSearch) : KernelTreeSearch := mkSearch (ts_buffer_size s) (ts_calls s) (ts_items_returned s) (ts_payload_bytes s) (ts_filtered_items s + 1).

Definition _next_key (key : Key) : option Key :=
  if key_offset key <? _U64_MAX then Some (mkKey (key_objectid key) (key_type key) (key_offset key + 1)) else
  if key_type key <? 255 then Some (mkKey (key_objectid key) (key_type key + 1) 0) else
  if key_objectid key <? _U64_MAX then Some (mkKey (key_objectid key + 1) 0 0) else None.

(** Tuples compare lexicographically. *)
Definition key_ltb (a b : Key) : bool :=
  (key_objectid a <? key_objectid b) || ((key_objectid a =? key_objectid b) &&
    ((key_type a <? key_type b) || ((key_type a =? key_type b) && (key_offset a <? key_offset b)))).

(** The arguments; all fields fit their width. *)
Definition search_request (tree_id : Z) (current maximum : Key) (buffer_size : Z) : bytes :=
  concat (map (le_digits 8) [tree_id; key_objectid current; key_objectid maximum; key_offset current; key_offset maximum; 0; _U64_MAX]) ++
  concat (map (le_digits 4) [key_type current; key_type maximum; 131072; 0]) ++ concat (map (le_digits 8) [0; 0; 0; 0; buffer_size]).

(** Key and bytes of the item at a position of the answer. *)
Definition page_item (request : bytes) (current : Key) (position : Z) : result (Key * Z) :=
  check py_len request <? position + _SEARCH_HEADER_SIZE # BackendError "truncated Btrfs tree-search header";
  objectid ← u64le request (position + 8);
  offset ← u64le request (position + 16);
  returned_type ← u32le request (position + 24);
  length_ ← u32le request (position + 28);
  check py_len request <? position + _SEARCH_HEADER_SIZE + length_ # BackendError "truncated Btrfs tree-search payload";
  check 255 <? returned_type # BackendError "Btrfs tree search returned an invalid item type";
  let item_key := mkKey objectid returned_type offset in
  check key_ltb item_key current # BackendError "Btrfs tree search returned keys out of order";
  Ok (item_key, length_).

Section search.
Context {K : Type} (b : btrfs_calls K) (rounds : nat).
Context {A : Type} (body : A -> TreeItem -> A * result unit) (wanted : list Z).

(** The items of one answer: what was accumulated, and the last key. *)
Fixpoint page_loop (n : nat) (current : Key) (request : bytes) (position : Z) (last_key : option Key) (s : KernelTreeSearch) (acc : A)
    : KernelTreeSearch * A * result (option Key) :=
  match n with
  | O => (s, acc, Ok last_key)
  | S n' =>
      match page_item request current position with
      | Raise e => (s, acc, Raise e)
      | Ok (item_key, length_) =>
          let start := position + _SEARCH_HEADER_SIZE in
          let s := count_item length_ s in
          if bool_decide (key_type item_key ∈ wanted) then
            match body acc (mkItem item_key (py_slice request start (start + length_))) with
            | (acc, Ok _) => page_loop n' current request (start + length_) (Some item_key) s acc
            | (acc, Raise e) => (s, acc, Raise e)
            end
          else page_loop n' current request (start + length_) (Some item_key) (count_filtered s) acc
      end
  end.

Fixpoint search_loop (fuel : nat) (fd tree_id : Z) (current maximum : Key) (acc : A) (w : K * KernelTreeSearch) : K * KernelTreeSearch * (A * result unit) :=
  if key_ltb maximum current then (w, (acc, Ok tt)) else
  match fuel with
  | O => (w, (acc, raise OutOfFuel "items_of_types"))
  | S fuel' =>
      let (k, s) := w in
      match b_tree_search b fd (search_request tree_id current maximum (ts_buffer_size s)) (ts_buffer_size s) k with
      | (k, (request, Some errno)) =>
          if bool_decide (errno = "EOVERFLOW") then
            match u64le request _SEARCH_KEY_SIZE with
            | Raise e => (k, s, (acc, Raise e))
            | Ok needed =>
                if (needed <=? ts_buffer_size s) || (64 * 1024 * 1024 <? needed)
                then (k, s, (acc, raise BackendError "invalid Btrfs tree-search buffer requirement"))
                else search_loop fuel' fd tree_id current maximum acc (k, set_buffer needed s)
            end
          else (k, s, (acc, raise BackendError "Btrfs kernel tree search failed"))
      | (k, (request, None)) =>
          let s := count_call s in
          match u32le request 64 with
          | Raise e => (k, s, (acc, Raise e))
          | Ok nr_items =>
              if nr_items =? 0 then (k, s, (acc, Ok tt)) else
              match page_loop (Z.to_nat nr_items) current request _SEARCH_ARGS_V2_SIZE None s acc with
              | (s, acc, Raise e) => (k, s, (acc, Raise e))
              | (s, acc, Ok last_key) =>
                  match last_key ≫= _next_key with
                  | None => (k, s, (acc, Ok tt))
                  | Some next => search_loop fuel' fd tree_id next maximum acc (k, s)
                  end
              end
          end
      end
  end.

Definition items_of_types (fd tree_id : Z) (acc : A) (w : K * KernelTreeSearch) : K * KernelTreeSearch * (A * result unit) :=
  match wanted with
  | [] => (w, (acc, Ok tt))
  | t :: rest =>
      if existsb (fun value => (value <? 0) || (255 <? value)) wanted then (w, (acc, raise BackendError "invalid Btrfs item type")) else
      search_loop rounds fd tree_id (mkKey 0 (fold_left Z.min rest t) 0) (mkKey _U64_MAX (fold_left Z.max rest t) _U64_MAX) acc w
  end.
End search.

Section backend.
Context {K : Type} (k : kernel K) (b : btrfs_calls K) (rounds : nat).

Abbreviation sprog := (kprog (K * KernelTreeSearch)).

(** An iteration whose exception is not caught. *)
Definition search_items {A} (body : A -> TreeItem -> A * result unit) (types : list Z) (fd tree_id : Z) (acc : A) : sprog A := fun w =>
  match items_of_types b rounds body types fd tree_id acc w with
  | (w, (acc, Ok _)) => (w, Ok acc)
  | (w, (_, Raise e)) => (w, Raise e)
  end.

(** [for item in ...: acc = body(acc, item)] *)
Definition consume {A} (body : A -> TreeItem -> result A) (acc : A) (item : TreeItem) : A * result unit :=
  match body acc item with Ok acc => (acc, Ok tt) | Raise e => (acc, Raise e) end.

Definition collect (l : list TreeItem) (item : TreeItem) : result (list TreeItem) := Ok (l ++ [item]).

Definition collect_chunk (l : list Chunk) (item : TreeItem) : result (list Chunk) :=
  chunk ← _parse_chunk (i_data item) (key_offset (i_key item)); Ok (l ++ [chunk]).

(** The stripes on the device. *)
Definition chunk_ranges (devid : Z) (chunk : Chunk) : list range := map (fun s : Z * Z => (s.2, s.2 + ch_length chunk)) (local_stripes devid chunk).

Definition kernel_chunk_layout (fd total_bytes devid : Z) : kprog K (Mapper * list range * KernelTreeSearch) := fun w =>
  let '(w, s, r) := search_items (consume collect_chunk) [_CHUNK_ITEM] fd 3 [] (w, new_search _SEARCH_BUFFER) in
  (w, chunks ← r;
      check bool_decide (chunks = []) # BackendError "Btrfs chunk tree contains no chunk items";
      mapper ← Mapper_init chunks devid total_bytes;
      Ok (mapper, merge_ranges (concat (map (chunk_ranges devid) (m_chunks mapper))), s)).

(** ** The mount *)

(** [replace] of one mount-table escape *)
Fixpoint replace_octal (a c d by_ : Z) (s : text) : text :=
  match s with
  | [] => []
  | x :: s' =>
      match s' with
      | y :: z :: u :: rest => if (x =? 92) && (y =? a) && (z =? c) && (u =? d) then by_ :: replace_octal a c d by_ rest else x :: replace_octal a c d by_ s'
      | _ => x :: replace_octal a c d by_ s'
      end
  end.

Definition _decode_mount_field (value : text) : text :=
  replace_octal 49 51 52 92 (replace_octal 48 49 50 10 (replace_octal 48 49 49 9 (replace_octal 48 52 48 32 value))).

Definition mount_line (dev_number : text) (line : text) : option text :=
  let fields := py_split line in
  if (length fields <? 10)%nat || negb (bool_decide (fields !! 2%nat = Some dev_number)) then None else
  separator ← index_of (of_string "-") fields;
  if bool_decide (fields !! (separator + 1)%nat = Some (of_string "btrfs")) then _decode_mount_field <$> fields !! 4%nat else None.

Fixpoint first_mount (dev_number : text) (lines : list text) : option text :=
  match lines with
  | [] => None
  | line :: rest => match mount_line dev_number line with Some p => Some p | None => first_mount dev_number rest end
  end.

Definition _existing_btrfs_mount (path : text) (w : K) : result (option text) :=
  match k_stat k w path with
  | Raise e => if is_os_error e then Ok None else Raise e
  | Ok st =>
      match device_id_of st, k_mountinfo k w with
      | Some dev_number, Some mountinfo => Ok (first_mount dev_number (py_splitlines mountinfo))
      | _, _ => Ok None
      end
  end.

(** The options are tried in order while the kernel does not know them. *)
Fixpoint mount_attempts (path mountpoint : text) (options : list string) : kprog K bool :=
  match options with
  | [] => kret false
  | option :: rest =>
      kcatch (b_mount_ro b path mountpoint option ;;! kret true)
        (fun e => if errno_in e ["EINVAL"; "ENOTSUP"; "EOPNOTSUPP"] then mount_attempts path mountpoint rest else kret false)
  end.

Definition _mounted_for_analysis {A} (path : text) (body : text -> kprog K A) : kprog K A :=
  let! existing := kget (_existing_btrfs_mount path) in
  match existing with
  | Some mountpoint => body mountpoint
  | None =>
      let! st := kget (fun w => k_stat k w path) in
      kcheck negb (st_isblk st) # BackendError "kernel Btrfs analysis requires a block device";
      let base := of_string "/run/linux-defragger" in
      k_makedirs k base ;;!
      let! mountpoint := k_mkdtemp k base in
      let! mounted := mount_attempts path mountpoint ["nologreplay"; ""] in
      kfinally (if (mounted : bool) then body mountpoint else kraise BackendError "unable to mount Btrfs read-only for fast analysis")
        ((if (mounted : bool) then kcatch (k_umount2 k mountpoint) (fun _ => kret tt) else kret tt) ;;!
         ignore_os_error (k_rmdir k mountpoint))
  end.

(** ** File extents *)

(** A run for every copy of the extent. *)
Fixpoint append_runs (inode position : Z) (encoded : bool) (ranges : list range) (s : tree_scan) : tree_scan :=
  match ranges with
  | [] => s
  | (start, end_) :: rest =>
      let run_length := end_ - start in
      append_runs inode (position + run_length) encoded rest (append_run inode (mkFileRun position start run_length start run_length encoded) s)
  end.

Definition kernel_scan_item (m : Mapper) (s : tree_scan) (item : TreeItem) : tree_scan * result unit :=
  let key := i_key item in
  if key_type key =? _INODE_ITEM then
    if 56 <=? py_len (i_data item) then
      match u32le (i_data item) 52 with
      | Ok mode => (set_mode (key_objectid key) (S_IFMT mode) s, Ok tt)
      | Raise e => (s, Raise e)
      end
    else (s, Ok tt)
  else
  match parse_extent_item (i_data item) with
  | Raise e => (s, Raise e)
  | Ok SkippedItem => (s, Ok tt)
  | Ok MalformedItem => (malformed s, Ok tt)
  | Ok (ExtentItem disk_bytenr disk_num_bytes extent_offset num_bytes encoded) =>
      match (if encoded then physical_ranges m disk_bytenr disk_num_bytes else physical_ranges m (disk_bytenr + extent_offset) num_bytes) with
      | Ok ranges => (append_runs (key_objectid key) (key_offset key) encoded ranges s, Ok tt)
      | Raise e => (s, Raise e)
      end
  end.

Definition kernel_scan_root (m : Mapper) (fd : Z) (u : summary) (root : Z * (Z * Z * Z)) : sprog summary := fun w =>
  match items_of_types b rounds (kernel_scan_item m) [_INODE_ITEM; _EXTENT_DATA] fd root.1 (mkTreeScan [] [] (u_malformed_items u)) w with
  | (w, (t, Raise e)) => (w, if bool_decide (exn_kind e = BackendError) then Ok (set_malformed (n_malformed_items t + 1) u) else Raise e)
  | (w, (t, Ok _)) => (w, Ok (fold_left (count_inode (n_file_runs t)) (n_inode_modes t) (set_malformed (n_malformed_items t) u)))
  end.

Definition _kernel_scan_filesystem_trees (m : Mapper) (fd : Z) (roots : list (Z * (Z * Z * Z))) : sprog (summary * Z) :=
  let ids := live_roots roots in
  let! u := kfor (kernel_scan_root m fd) no_summary ids in
  kret (u, py_len ids).

(** ** The map *)

Definition kernel_details (s : superblock) (m : Mapper) : details :=
  [("sector_size", JInt (sb_sectorsize s)); ("node_size", JInt (sb_nodesize s)); ("device_id", JInt (sb_devid s)); ("chunks", JInt (py_len (m_chunks m)));
   ("logical_bytes_used", JInt (sb_bytes_used s)); ("analysis_source", JStr "kernel-tree-search-v2")].

Definition kernel_summary_details (u : summary) (roots_scanned fragmented_mapped : Z) (s : KernelTreeSearch) : details :=
  [("fragmentation_available", JBool true); ("fragmentation_basis", JStr "kernel TREE_SEARCH_V2 inode and FILE_EXTENT_ITEM records");
   ("directory_fragmentation_note", JStr DIRECTORY_NOTE); ("filesystem_roots_scanned", JInt roots_scanned); ("malformed_items", JInt (u_malformed_items u));
   ("fragmented_sectors_mapped", JInt fragmented_mapped); ("tree_search_calls", JInt (ts_calls s)); ("tree_search_items", JInt (ts_items_returned s));
   ("tree_search_payload_bytes", JInt (ts_payload_bytes s)); ("tree_search_filtered_items", JInt (ts_filtered_items s))].

Definition kernel_finish (m : map_result) (sectorsize : Z) (scanned : summary * Z) (s : KernelTreeSearch) : files_map :=
  let '(u, roots_scanned) := scanned in
  let '(cells, fragmented_mapped) := overlay_ranges (mr_cells m) (sectors sectorsize (merge_ranges (u_fragmented_physical u))) FFragmented in
  FilesMap (with_cells m cells (mr_details m ++ kernel_summary_details u roots_scanned fragmented_mapped s)) (Some (summary_counts u)).

(** What is read of the mounted volume: the space map, and the scan. *)
Definition kernel_trees (s : superblock) (cells fd : Z) : sprog (map_result * (summary * Z)) :=
  let! chunk_items := search_items (consume collect) [_CHUNK_ITEM] fd 3 [] in
  let! chunks := klift (mapM_result (fun item => _parse_chunk (i_data item) (key_offset (i_key item))) chunk_items) in
  let! m := klift (Mapper_init chunks (sb_devid s) (sb_total_bytes s)) in
  let! root_items := search_items (consume collect) [_ROOT_ITEM] fd 1 [] in
  let! roots := klift (_root_records root_items) in
  let! used := search_items (consume (add_extent m (sb_nodesize s))) [_EXTENT_ITEM; _METADATA_ITEM] fd _EXTENT_TREE_OBJECTID [] in
  kcheck sb_sectorsize s =? 0 # ZeroDivisionError "integer division or modulo by zero";
  let! result := klift (space_map (sb_total_bytes s) (sb_sectorsize s) cells (used ++ superblock_mirrors (sb_total_bytes s)) (kernel_details s m)) in
  let! scanned := _kernel_scan_filesystem_trees m fd roots in
  kret (result, scanned).

Definition read_volume (path : text) (s : superblock) (cells : Z) (mountpoint : text) : kprog K files_map :=
  let! fd := b_open_dir b mountpoint in
  kfinally (fun w =>
    match kernel_trees s cells fd (w, new_search _SEARCH_BUFFER) with
    | (w, search, Ok (result, scanned)) => (w, Ok (kernel_finish result (sb_sectorsize s) scanned search))
    | (w, _, Raise e) => (w, Raise e)
    end) (k_close k fd).

Definition _kernel_map (path : text) (cells : Z) : kprog K files_map :=
  let! s := kget (fun w =>
    r ← k_device k w path;
    sb ← reader_read r BTRFS_SUPER_OFFSET BTRFS_SUPER_SIZE;
    check negb (bool_decide (py_slice sb 64 72 = BTRFS_MAGIC)) # BackendError "not a Btrfs volume";
    read_superblock sb) in
  kcheck negb (sb_num_devices s =? 1) # BackendError "native exact Btrfs analysis currently supports single-device filesystems only";
  _mounted_for_analysis path (read_volume path s cells).

(** A block device is read through the kernel by the administrator, all else
    is walked. *)
Definition map_volume (path : text) (cells : Z) : kprog K files_map :=
  let! st := kget (fun w => match k_stat k w path with Raise e => if is_os_error e then raise BackendError "cannot inspect the volume" else Raise e | Ok st => Ok st end) in
  if st_isblk st && (b_geteuid b =? 0) then _kernel_map path cells else kget (fun w => btrfs_map (k_device k w path) cells).
End backend.
