(* ===== verification/NativeBtrfs.v ===== *)
(** * The native engine: Btrfs

    The Btrfs part of [src/gui/native_compact_engine.py]: the physical chunk
    layout, the balance with its progress and cancellation, and the cycles that
    shrink the file system to force its last chunks down and grow it back.
    [restored], which an exception does not undo, is part of the state. *)

From S2P Require Import Prelude Text Bytes Ranges NativeGeometry Kernel NativeCompact NativeXfs NativeRun Btrfs BtrfsKernel.
From stdpp Require Import pretty.

Local Open Scope string_scope.
Local Open Scope list_scope.
Local Open Scope Z_scope.

Definition MAX_BTRFS_COMPACT_ROUNDS : Z := 3.
Definition BTRFS_BALANCE_DATA : Z := 1.
Definition BTRFS_BALANCE_METADATA : Z := 4.
Definition BTRFS_BALANCE_ARGS_USAGE : Z := 2.
Definition BTRFS_BALANCE_ARGS_DEVID : Z := 4.
Definition BTRFS_BALANCE_DATA_OFFSET : Z := 16.
Definition BTRFS_BALANCE_ARG_SIZE : Z := 136.
Definition BTRFS_BALANCE_META_OFFSET : Z := BTRFS_BALANCE_DATA_OFFSET + BTRFS_BALANCE_ARG_SIZE.
Definition BTRFS_BALANCE_SYS_OFFSET : Z := BTRFS_BALANCE_META_OFFSET + BTRFS_BALANCE_ARG_SIZE.
Definition BTRFS_BALANCE_PROGRESS_OFFSET : Z := BTRFS_BALANCE_SYS_OFFSET + BTRFS_BALANCE_ARG_SIZE.

(** [exc.errno in (...)] in a handler for [OSError] *)
Definition errno_of (e : exn) (names : list string) : bool := is_os_error e && bool_decide (exn_msg e ∈ names).

(** ** The layout *)

Record layout := mkLayout { l_gaps : list range; l_highwater : Z; l_allocated : Z; l_largest_chunk : Z }.

Definition range_length (r : range) : Z := r.2 - r.1.

(** [cursor] and the gaps in front of it. *)
Definition gap_before (acc : Z * list range) (item : range) : Z * list range :=
  let '(cursor, gaps) := acc in
  let start := Z.max cursor item.1 in
  (Z.max cursor item.2, if cursor <? start then gaps ++ [(cursor, start)] else gaps).

Definition max_default (d : Z) (l : list Z) : Z := match l with [] => d | x :: rest => fold_left Z.max rest x end.

Definition layout_of (mapper : Mapper) (physical_ranges : list range) : layout :=
  let allocated := _merge_ranges physical_ranges in
  let '(cursor, gaps) := fold_left gap_before allocated (1024 * 1024, []) in
  mkLayout gaps (max_default cursor (map snd allocated)) (zsum (map range_length allocated)) (max_default (256 * 1024 * 1024) (map ch_length (m_chunks mapper))).

(** ** The ioctl requests *)

Definition resize_amount (devid size : Z) : bytes := of_string (pretty devid) ++ of_string ":" ++ of_string (pretty size).

Definition resize_request (devid size : Z) : bytes :=
  let amount := resize_amount devid size in
  let request := py_set_slice (py_zeros 4096) 8 (8 + py_len amount) amount in
  py_set_slice request (8 + py_len amount) (9 + py_len amount) [0].

Definition balance_args (usage devid : Z) (request : bytes) (offset : Z) : result bytes :=
  request ← pack_into 8 request (offset + 8) usage;
  request ← pack_into 8 request (offset + 16) devid;
  pack_into 8 request (offset + 64) (Z.lor BTRFS_BALANCE_ARGS_USAGE BTRFS_BALANCE_ARGS_DEVID).

Definition _btrfs_balance_request (devid usage : Z) : result bytes :=
  request ← pack_into 8 (py_zeros 1024) 0 (Z.lor BTRFS_BALANCE_DATA BTRFS_BALANCE_METADATA);
  foldM (balance_args usage devid) request [BTRFS_BALANCE_DATA_OFFSET; BTRFS_BALANCE_META_OFFSET].

(** ** The targets *)

Definition _align_up (value alignment : Z) : Z := ((value + alignment - 1) / alignment) * alignment.

Definition ALIGNMENT : Z := 256 * 1024 * 1024.

(** Targets one step below the high-water mark, and targets that leave some
    room above the chunks. *)
Definition target_candidates (allocated largest_chunk highwater : Z) : list Z :=
  map (fun step => ((highwater - step) / ALIGNMENT) * ALIGNMENT) [64 * 1024 * 1024; ALIGNMENT; 512 * 1024 * 1024; 1024 ^ 3] ++
  map (fun reserve => _align_up (1024 * 1024 + allocated + reserve) ALIGNMENT)
    [Z.max (1024 ^ 3) (largest_chunk * 2); Z.max (512 * 1024 * 1024) largest_chunk; Z.max (256 * 1024 * 1024) largest_chunk].

Definition _candidate_shrink_targets (allocated largest_chunk highwater : Z) : list Z :=
  let minimum := _align_up (1024 * 1024 + allocated) ALIGNMENT in
  py_sorted (fun a b => b <=? a) (remove_dups (filter (fun target => minimum < target < highwater) (target_candidates allocated largest_chunk highwater))).

Section btrfs.
Context {K : Type} (k : kernel K) (b : btrfs_calls K) (rounds : nat).

Definition _btrfs_layout (fd total_bytes devid : Z) : kprog K layout :=
  kcatch (let! '(mapper, physical_ranges, _) := kernel_chunk_layout b rounds fd total_bytes devid in
          kret (layout_of mapper physical_ranges))
    (fun e => if bool_decide (exn_kind e = BackendError) then kraise CompactError (exn_msg e) else klift (Raise e)).

Definition _btrfs_resize (fd devid size : Z) : kprog K unit :=
  kcheck 255 <=? py_len (resize_amount devid size) # CompactError "Btrfs resize request is too long";
  b_resize b fd (resize_request devid size).

(** ** The balance *)

Definition _btrfs_balance_progress (fd : Z) : kprog K (option (Z * Z * Z)) :=
  kcatch (let! request := b_balance_progress b fd in
          klift (expected ← u64le request BTRFS_BALANCE_PROGRESS_OFFSET;
                 considered ← u64le request (BTRFS_BALANCE_PROGRESS_OFFSET + 8);
                 completed ← u64le request (BTRFS_BALANCE_PROGRESS_OFFSET + 16);
                 Ok (Some (expected, considered, completed))))
    (fun e => if errno_of e ["ENOTCONN"; "ENOENT"; "EINVAL"] then kret None else klift (Raise e)).

Definition _btrfs_cancel_balance (fd : Z) : kprog K unit :=
  kcatch (b_balance_cancel b fd) (fun e => if errno_of e ["ENOTCONN"; "ENOENT"; "EINVAL"] then kret tt else klift (Raise e)).

(** [while thread.is_alive()] *)
Fixpoint balance_loop (fuel : nat) (fd : Z) (cancel_sent : bool) : kprog K unit := fun w =>
  if b_balance_alive b w then
    match fuel with
    | O => (w, raise OutOfFuel "_run_btrfs_balance")
    | S fuel' =>
        (b_balance_join b ;;!
         let! cancel_sent := (fun w => if k_stop k w && negb cancel_sent then (_btrfs_cancel_balance fd ;;! kret true) w else (w, Ok cancel_sent)) in
         let! _ := kcatch (_btrfs_balance_progress fd) (fun e => if is_os_error e then kret None else klift (Raise e)) in
         balance_loop fuel' fd cancel_sent) w
    end
  else (w, Ok tt).

(** How the thread ended: whether the compaction goes on. *)
Definition balance_result (fd : Z) : kprog K bool := fun w =>
  match b_balance_outcome b w with
  | Some error =>
      if is_os_error error then
        if k_stop k w && errno_of error ["ECANCELED"; "EINTR"] then (w, Ok false) else
        if errno_of error ["ENOSPC"] then (w, Ok true) else (w, raise CompactError "Btrfs balance failed")
      else (w, Raise error)
  | None => (b_syncfs b fd ;;! fun w => (w, Ok (negb (k_stop k w)))) w
  end.

Definition _run_btrfs_balance (fd devid : Z) : kprog K bool :=
  let! request := klift (_btrfs_balance_request devid 100) in
  b_balance_start b fd request ;;!
  balance_loop rounds fd false ;;!
  balance_result fd.

(** ** Shrink and restore *)

Section compact.
Context (fd devid original_size : Z).

Definition layout_now : kprog K layout := _btrfs_layout fd original_size devid.

(** With [restored]. *)
Abbreviation rprog := (kprog (K * bool)).

Definition on_volume {A} (m : kprog K A) : rprog A := fun '(w, restored) => let (w, r) := m w in (w, restored, r).

Inductive cycle := Shrunk (l : layout) | Exhausted | StopCycle.

(** [except OSError] of a cycle *)
Definition cycle_error (e : exn) (w : K) : result cycle :=
  if negb (is_os_error e) then Raise e else
  if errno_of e ["ENOSPC"; "EFBIG"] then Ok Exhausted else
  if k_stop k w && errno_of e ["EINTR"; "ECANCELED"] then Ok StopCycle else raise CompactError "Btrfs resize failed".

(** One target, with its [finally]. *)
Definition shrink_cycle (target : Z) : rprog cycle := fun '(w, restored) =>
  match _btrfs_resize fd devid target w with
  | (w, Raise e) => (w, restored, cycle_error e w)
  | (w, Ok _) =>
      let (w, r) := (b_syncfs b fd ;;! layout_now) w in
      let outcome := match r with Ok l => Ok (Shrunk l) | Raise e => cycle_error e w end in
      match (_btrfs_resize fd devid original_size ;;! b_syncfs b fd) w with
      | (w, Ok _) => (w, true, outcome)
      | (w, Raise e) => (w, false, if is_os_error e then raise CompactError "restoring the original filesystem size failed" else Raise e)
      end
  end.

(** The targets of a round: the layout, what the high-water mark fell by and
    whether a shrink was attempted; [None] when the compaction is stopped. *)
Fixpoint shrink_loop (targets : list Z) (l : layout) (attempted : bool) : rprog (option (layout * Z * bool)) :=
  match targets with
  | [] => kret (Some (l, 0, attempted))
  | target :: rest => fun w =>
      if k_stop k w.1 then (w, Ok None) else
      (let! c := shrink_cycle target in
       match c with
       | StopCycle => kret None
       | Exhausted => kret (Some (l, 0, true))
       | Shrunk l' =>
           let reduction := Z.max 0 (l_highwater l - l_highwater l') in
           if 0 <? reduction then kret (Some (l', reduction, true)) else shrink_loop rest l' true
       end) w
  end.

(** A round; [None] stops. *)
Definition compact_round (previous_highwater previous_allocated : Z) : rprog (option (layout * bool)) := fun w =>
  if k_stop k w.1 then (w, Ok None) else
  (let! balance_completed := on_volume (_run_btrfs_balance fd devid) in
   fun w => if negb balance_completed && k_stop k w.1 then (w, Ok None) else
   (let! l := on_volume layout_now in
    let! s := shrink_loop (_candidate_shrink_targets (l_allocated l) (l_largest_chunk l) (l_highwater l)) l false in
    match s with
    | None => kret None
    | Some (l, reduction, attempted) =>
        let improved := (l_highwater l <? previous_highwater) || (l_allocated l <? previous_allocated) in
        kret (Some (l, improved || (attempted && negb (reduction =? 0))))
    end) w) w.

(** [false] when the compaction is stopped. *)
Fixpoint rounds_loop (numbers : list Z) (previous_highwater previous_allocated : Z) : rprog bool :=
  match numbers with
  | [] => kret true
  | _ :: rest =>
      let! s := compact_round previous_highwater previous_allocated in
      match s with
      | None => kret false
      | Some (l, more) => if (more : bool) then rounds_loop rest (l_highwater l) (l_allocated l) else kret true
      end
  end.

Definition compact_body : rprog Z :=
  let! l := on_volume layout_now in
  let! finished := rounds_loop (py_range 1 (MAX_BTRFS_COMPACT_ROUNDS + 1)) (l_highwater l) (l_allocated l) in
  if (finished : bool) then
    let! _ := on_volume layout_now in
    fun w => (w, Ok (if k_stop k w.1 then EXIT_STOPPED else 0))
  else kret EXIT_STOPPED.

(** The outer [finally]. *)
Definition restore_at_end (restored : bool) : kprog K unit :=
  (if restored then kret tt else ignore_os_error (_btrfs_resize fd devid original_size ;;! b_syncfs b fd)) ;;!
  k_close k fd.

Definition compact_mounted : kprog K Z := fun w =>
  let '(w, restored, r) := compact_body (w, true) in
  match restore_at_end restored w with
  | (w, Ok _) => (w, r)
  | (w, Raise e) => (w, Raise e)
  end.
End compact.

Definition compact_btrfs (device : text) : kprog K Z :=
  let! '(original_size, devid, device_size) := kget (fun w => _btrfs_super_geometry (k_device k w device)) in
  kcheck (device_size <? original_size) && (0 <? device_size) # CompactError "Btrfs filesystem size exceeds the block device";
  with_mount k device "btrfs" (fun mountpoint =>
    let! fd := b_open_dir b mountpoint in
    compact_mounted fd devid original_size).
End btrfs.

(** ** The command *)

(** What [parse_args] gives. *)
Record arguments := mkArguments { a_device : text; a_filesystem : string; a_write : bool; a_confirm : option text; a_live_map_cells : Z }.

Definition main {K} (k : kernel K) (x : xfs_calls K) (t : tool_calls K) (b : btrfs_calls K) (rounds : nat) (args : arguments) : kprog K Z :=
  kcheck negb (a_write args) || negb (bool_decide (a_confirm args = Some (a_device args))) # CompactError "write mode requires --write --confirm DEVICE";
  kcheck negb (b_geteuid b =? 0) # CompactError "ext4, XFS and Btrfs Compact must run with administrator privileges";
  if bool_decide (a_filesystem args = "btrfs") then compact_btrfs k b rounds (a_device args) else
  if bool_decide (a_filesystem args = "ext4") then compact_ext4_offline k x t rounds (a_device args) (a_live_map_cells args) else
  compact_extent_filesystem k x rounds (a_device args) (a_filesystem args) (a_live_map_cells args).
