(* ===== verification/BtrfsFacts.v ===== *)
(** * Correctness of the Btrfs map

    The mapper holds disjoint chunks, and a translated range consists of
    exactly the bytes its addresses have on the device ([located]).  The walk
    of a tree returns the leaves' items in order and ends.  Every cell of the
    map counts the sectors in which an extent item or a superblock mirror has a
    byte. *)

From S2P Require Import Prelude Text Bytes Ranges Xfs RangesFacts Bitmap AggregateFacts ReaderFacts NativeGeometry Kernel Btrfs.

Local Open Scope string_scope.
Local Open Scope list_scope.
Local Open Scope Z_scope.

(** ** The mapper *)

Definition apart_chunks (a b : Chunk) : Prop := chunk_end a <= ch_logical b.

(** The local stripes of a chunk lie on the device, and it has one. *)
Definition chunk_ok (devid device_size : Z) (c : Chunk) : Prop :=
  0 < ch_length c /\ local_stripes devid c <> [] /\ Forall (fun s : Z * Z => 0 <= s.2 /\ s.2 + ch_length c <= device_size) (local_stripes devid c).

Definition mapper_ok (m : Mapper) : Prop :=
  StronglySorted apart_chunks (m_chunks m) /\ Forall (chunk_ok (m_devid m) (m_device_size m)) (m_chunks m).

(** The address [p] of the device holds a copy of the logical byte [a]. *)
Definition located (m : Mapper) (a p : Z) : Prop := exists c s, c ∈ m_chunks m /\ ch_logical c <= a < chunk_end c /\
  s ∈ local_stripes (m_devid m) c /\ p = s.2 + (a - ch_logical c).

Lemma add_chunk_facts chunks : forall d d', Forall (fun p => ch_logical p.2 = p.1) d -> NoDup (map fst d) -> foldM add_chunk d chunks = Ok d' ->
  forall c, c ∈ map snd d' <-> c ∈ map snd d \/ c ∈ chunks.
Proof.
  induction chunks as [|x chunks IH]; intros d d' Hd Hn H c; cbn [foldM] in H; [injection H as <-; set_solver|].
  apply bind_ok in H as (d1 & H1 & H). unfold add_chunk in H1.
  destruct (dict_get (ch_logical x) d) as [e|] eqn:Hg.
  - destruct (negb (bool_decide (e = x))) eqn:He; [done|]. injection H1 as <-. apply negb_false_iff, bool_decide_eq_true in He as ->.
    apply dict_get_elem in Hg. assert (forall d, NoDup (map fst d) -> (ch_logical x, x) ∈ d -> dict_set (ch_logical x) x d = d) as Hsame.
    { clear. induction d as [|[k v] d IH]; intros Hn Hin; [by apply elem_of_nil in Hin|]. cbn [map] in Hn. apply NoDup_cons in Hn as [Hno Hn]. cbn [dict_set].
      apply elem_of_cons in Hin as [[= <- <-]|Hin]; [by rewrite decide_True|]. rewrite decide_False; [by rewrite IH|]. intros <-.
      apply Hno, list_elem_of_fmap. by exists (ch_logical x, x). }
    rewrite Hsame in H by done. rewrite (IH d d' Hd Hn H c), elem_of_cons. split; [tauto|]. intros [?|[->|?]]; [tauto| |tauto].
    left. apply list_elem_of_fmap. by exists (ch_logical x, x).
  - injection H1 as <-. assert (dict_set (ch_logical x) x d = d ++ [(ch_logical x, x)]) as Happ.
    { clear - Hg. induction d as [|[k v] d IH]; [done|]. cbn [dict_get dict_set] in *. destruct (decide (ch_logical x = k)); [done|]. cbn [app]. by rewrite IH. }
    rewrite (IH (dict_set (ch_logical x) x d) d'); [|rewrite Happ; apply Forall_app_2; [done|by repeat constructor]|by apply dict_set_NoDup|done].
    rewrite Happ, map_app, elem_of_app, elem_of_cons. cbn [map snd]. rewrite list_elem_of_singleton. tauto.
Qed.

Lemma check_chunks_facts devid size l : forall prev last, Forall (fun c => 0 < ch_length c) l -> foldM (check_chunk devid size) prev l = Ok last ->
  StronglySorted apart_chunks l /\ Forall (chunk_ok devid size) l /\ Forall (fun c => prev <= ch_logical c) l.
Proof.
  induction l as [|c l IH]; intros prev last Hp H; [repeat constructor|]. cbn [foldM] in H. apply bind_ok in H as (e & Hc & H).
  apply Forall_cons in Hp as [Hc0 Hp]. unfold check_chunk in Hc. inv_ok. bool_to_prop.
  destruct (IH _ _ Hp H) as (Hs & Hok & Hge). split; [constructor; [done|exact Hge]|]. split; constructor; try done.
  - split; [done|]. split; [by apply bool_decide_eq_false in E1|]. apply Forall_forall. intros s Hs'.
    assert (((s.2 <? 0) || (size <? s.2 + ch_length c)) = false) as Hs2.
    { destruct (_ || _) eqn:Hb; [|done]. rewrite <- E2. symmetry. apply existsb_exists. exists s. split; [by apply list_elem_of_In|done]. }
    bool_to_prop. lia.
  - eapply Forall_impl; [exact Hge|]. intros x Hx. unfold chunk_end in Hx. cbn in Hx. lia.
Qed.

Lemma Mapper_init_facts chunks devid size m : Forall (fun c => 0 < ch_length c) chunks -> Mapper_init chunks devid size = Ok m ->
  mapper_ok m /\ m_devid m = devid /\ m_device_size m = size /\ forall c, c ∈ m_chunks m <-> c ∈ chunks.
Proof.
  intros Hp H. unfold Mapper_init in H. apply bind_ok in H as (d & Hd & H). apply bind_ok in H as (last & Hc & H). injection H as <-.
  pose proof (fun c => add_chunk_facts chunks [] d ltac:(constructor) ltac:(constructor) Hd c) as Hin. cbn [map] in Hin.
  assert (forall c, c ∈ py_sorted chunk_leb (map snd d) <-> c ∈ chunks) as Hmem.
  { intros c. rewrite (py_sorted_perm chunk_leb), Hin. split; [intros [H%elem_of_nil|?]; done|tauto]. }
  assert (Forall (fun c => 0 < ch_length c) (py_sorted chunk_leb (map snd d))) as Hp'.
  { rewrite Forall_forall in Hp |- *. intros c Hc'. by apply Hp, Hmem. }
  destruct (check_chunks_facts _ _ _ _ _ Hp' Hc) as (Hs & Hok & _). repeat split; try done; apply Hmem.
Qed.

Lemma bisect_bounds l x : 0 <= bisect_right l x <= py_len l.
Proof. induction l as [|y l IH]; cbn [bisect_right]; rewrite ?py_len_cons; [by split|]. destruct (x <? y); lia. Qed.

(** The chunk at the index found ends before [x] or holds it. *)
Lemma find_chunk_facts m x : mapper_ok m ->
  match _find m x with
  | Ok c => c ∈ m_chunks m /\ ch_logical c <= x < chunk_end c
  | Raise e => exn_kind e = BackendError /\ forall c, c ∈ m_chunks m -> ~ (ch_logical c <= x < chunk_end c)
  end.
Proof.
  intros [Hs Hok]. unfold _find. set (l := m_chunks m) in *. assert (Forall (fun c => 0 < ch_length c) l) as Hpos by (eapply Forall_impl; [exact Hok|]; by intros c [? _]).
  clearbody l. clear Hok. pose proof (bisect_bounds (map ch_logical l) x) as Hb.
  assert (bisect_right (map ch_logical l) x = 0 /\ Forall (fun c => x < ch_logical c) l \/
          exists c, 1 <= bisect_right (map ch_logical l) x /\ l !! Z.to_nat (bisect_right (map ch_logical l) x - 1) = Some c /\ ch_logical c <= x /\
            forall c', c' ∈ l -> ch_logical c' <= x < chunk_end c' -> c' = c) as Hcase.
  { clear Hb. induction l as [|y l IH]; [by left|]. apply StronglySorted_inv in Hs as [Hs Hy]. apply Forall_cons in Hpos as [Hy0 Hpos]. cbn [map bisect_right].
    unfold apart_chunks, chunk_end in Hy. destruct (Z.ltb_spec x (ch_logical y)) as [Hlt|Hge].
    - left. split; [done|]. constructor; [done|]. eapply Forall_impl; [exact Hy|]. intros c Hc. cbn in Hc. lia.
    - right. destruct (IH Hs Hpos) as [[H0 Hall]|(c & H1 & Hl & Hc & Hu)].
      + exists y. rewrite H0. split; [lia|]. split; [done|]. split; [lia|]. intros c' [->|Hc']%elem_of_cons Hin; [done|].
        rewrite Forall_forall in Hall. specialize (Hall _ Hc'). lia.
      + exists c. pose proof (bisect_bounds (map ch_logical l) x). replace (1 + bisect_right (map ch_logical l) x - 1) with (bisect_right (map ch_logical l) x) by lia.
        split; [lia|]. split; [|split; [lia|]].
        * replace (Z.to_nat (bisect_right (map ch_logical l) x)) with (S (Z.to_nat (bisect_right (map ch_logical l) x - 1))) by lia. done.
        * intros c' [->|Hc']%elem_of_cons Hin; [|by apply Hu]. exfalso. rewrite Forall_forall in Hy.
          apply list_elem_of_lookup_2 in Hl. specialize (Hy _ Hl). unfold chunk_end in Hin. cbn in Hy. lia. }
  destruct Hcase as [[H0 Hall]|(c & H1 & Hl & Hc & Hu)].
  - rewrite H0. cbn [raise]. split; [done|]. intros c Hc Hin. rewrite Forall_forall in Hall. specialize (Hall _ Hc). lia.
  - rewrite (proj2 (Z.ltb_ge _ 0)) by lia. rewrite (py_get_in _ _ c) by (lia || done). cbn [mbind result_bind].
    destruct (Z.leb_spec (chunk_end c) x) as [He|He]; cbn.
    + split; [done|]. intros c' Hc' Hin. rewrite (Hu c' Hc' Hin) in Hin. lia.
    + split; [by eapply list_elem_of_lookup_2|lia].
Qed.

(** ** Translating a range *)

(** The chunks that reach beyond an address. *)
Definition beyond (m : Mapper) (x : Z) : list Chunk := filter (fun c => x < chunk_end c) (m_chunks m).

Lemma beyond_less m c x : c ∈ m_chunks m -> x < chunk_end c -> (length (beyond m (chunk_end c)) < length (beyond m x))%nat.
Proof.
  unfold beyond. generalize (m_chunks m) as l. induction l as [|y l IH]; intros Hc Hx; [by apply elem_of_nil in Hc|].
  assert (forall l : list Chunk, (length (filter (fun d => (chunk_end c < chunk_end d)%Z) l) <= length (filter (fun d => (x < chunk_end d)%Z) l))%nat) as Hle.
  { clear - Hx. induction l as [|y l IH]; [done|]. rewrite !filter_cons. repeat destruct (decide _); cbn [length]; lia. }
  rewrite !filter_cons. apply elem_of_cons in Hc as [<-|Hc].
  - rewrite decide_False by lia. rewrite decide_True by done. cbn [length]. specialize (Hle l). lia.
  - specialize (IH Hc Hx). repeat destruct (decide _); cbn [length]; lia.
Qed.

Lemma stripe_ranges_facts m c delta take : chunk_ok (m_devid m) (m_device_size m) c -> 0 <= delta -> delta + take <= ch_length c ->
  stripe_ranges m c delta take = Ok (map (fun s : Z * Z => (s.2 + delta, s.2 + delta + take)) (local_stripes (m_devid m) c)).
Proof.
  intros (_ & _ & Hs) Hd Ht. unfold stripe_ranges. rewrite (mapM_result_ext _ (fun s : Z * Z => Ok (s.2 + delta, s.2 + delta + take))); [apply mapM_result_pure|].
  intros s Hin. rewrite Forall_forall in Hs. specialize (Hs s Hin). rewrite (proj2 (Z.ltb_ge _ _)) by lia. done.
Qed.

(** The bytes of the addresses in [\[a, b)]. *)
Definition holds (m : Mapper) (a b p : Z) : Prop := exists x, a <= x < b /\ located m x p.

Lemma located_chunk m c x p : mapper_ok m -> c ∈ m_chunks m -> ch_logical c <= x < chunk_end c ->
  located m x p <-> exists s, s ∈ local_stripes (m_devid m) c /\ p = s.2 + (x - ch_logical c).
Proof.
  intros Hm Hc Hx. split; [|intros (s & ? & ?); by exists c, s]. intros (c' & s & Hc' & Hx' & Hs & ->). exists s. replace c with c'; [done|].
  destruct Hm as [Hm _]. apply list_elem_of_lookup in Hc as (i & Hi). apply list_elem_of_lookup in Hc' as (j & Hj).
  assert (forall i j c c', m_chunks m !! i = Some c -> m_chunks m !! j = Some c' -> (i < j)%nat -> apart_chunks c c') as Hlt.
  { clear - Hm. induction Hm as [|y l Hs IH Hy]; [done|]. intros [|i] [|j] c c' Hi Hj Hij; cbn in *; try lia.
    - injection Hi as <-. rewrite Forall_forall in Hy. apply Hy. by eapply list_elem_of_lookup_2.
    - eapply (IH i j); [done|done|lia]. }
  destruct (Nat.lt_total i j) as [Hij|[->|Hij]]; [specialize (Hlt _ _ _ _ Hi Hj Hij)| |specialize (Hlt _ _ _ _ Hj Hi Hij)]; unfold apart_chunks in *; try lia. congruence.
Qed.

Lemma holds_take m c cursor take p : mapper_ok m -> c ∈ m_chunks m -> ch_logical c <= cursor -> cursor + take <= chunk_end c ->
  holds m cursor (cursor + take) p <->
  covers (map (fun s : Z * Z => (s.2 + (cursor - ch_logical c), s.2 + (cursor - ch_logical c) + take)) (local_stripes (m_devid m) c)) p.
Proof.
  intros Hm Hc H1 H2. unfold covers. rewrite Exists_exists. split.
  - intros (x & Hx & Hl). apply (located_chunk m c) in Hl as (s & Hs & ->); [|done|done|lia].
    eexists. split; [apply list_elem_of_fmap; exists s; split; [reflexivity|done]|]. cbn. lia.
  - intros (r & (s & -> & Hs)%list_elem_of_fmap & Hp). cbn in Hp. exists (p - s.2 + ch_logical c). split; [lia|].
    apply (located_chunk m c); [done|done|lia|]. exists s. split; [done|lia].
Qed.

Lemma holds_split m a b c p : a <= b <= c -> holds m a c p <-> holds m a b p \/ holds m b c p.
Proof.
  intros H. unfold holds. split.
  - intros (x & Hx & Hl). destruct (Z.lt_ge_cases x b); [left|right]; exists x; (split; [lia|done]).
  - intros [(x & Hx & Hl)|(x & Hx & Hl)]; exists x; (split; [lia|done]).
Qed.

Lemma ranges_loop_facts m fuel : forall cursor remaining found, mapper_ok m -> 0 <= remaining -> (length (beyond m cursor) < fuel)%nat ->
  match ranges_loop fuel m cursor remaining found with
  | Ok rs => (forall p, covers rs p <-> covers found p \/ holds m cursor (cursor + remaining) p) /\
      (forall r, r ∈ rs -> r ∈ found \/ 0 <= r.1 < r.2 /\ r.2 <= m_device_size m) /\
      forall x, cursor <= x < cursor + remaining -> exists p, located m x p
  | Raise e => exn_kind e = BackendError /\ exists x, cursor <= x < cursor + remaining /\ forall p, ~ located m x p
  end.
Proof.
  induction fuel as [|fuel IH]; intros cursor remaining found Hm Hr Hf; [lia|]. cbn [ranges_loop]. destruct (Z.eqb_spec remaining 0) as [->|Hr0].
  { split; [|split; [auto|lia]]. intros p. unfold holds. split; [tauto|]. intros [?|(x & Hx & _)]; [done|lia]. }
  pose proof (find_chunk_facts m cursor Hm) as Hfind. destruct (_find m cursor) as [c|e]; cbn [mbind result_bind].
  2: { destruct Hfind as [He Hno]. split; [done|]. exists cursor. split; [lia|]. intros p (c & s & Hc & Hx & _). by eapply Hno. }
  destruct Hfind as [Hc Hx]. set (take := Z.min remaining (chunk_end c - cursor)). assert (0 < take <= remaining /\ cursor + take <= chunk_end c) as [Ht1 Ht2] by lia.
  pose proof Hm as [_ Hok]. rewrite Forall_forall in Hok. specialize (Hok c Hc). unfold chunk_end in Ht2.
  rewrite (stripe_ranges_facts m c _ take Hok) by lia. cbn [mbind result_bind].
  rewrite bool_decide_false by (destruct Hok as (_ & Hne & _); by intros ?%fmap_nil_inv).
  assert (remaining - take = 0 \/ cursor + take = chunk_end c) as Hnext by (unfold take, chunk_end; lia).
  pose proof (beyond_less m c cursor Hc (proj2 Hx)) as Hless.
  assert (remaining - take = 0 \/ (length (beyond m (cursor + take)) < fuel)%nat) as Hf' by (destruct Hnext as [?| ->]; [by left|right; lia]).
  destruct (Z.eq_dec (remaining - take) 0) as [Hz|Hz].
  - rewrite Hz. assert (take = remaining) as Htr by lia. clearbody take. subst take. destruct fuel as [|fuel']; [pose proof Hless; lia|]. cbn [ranges_loop Z.eqb]. split; [|split].
    + intros p. rewrite covers_app, <- holds_take by (done || (unfold chunk_end; lia)). done.
    + intros r [?|(s & -> & Hs)%list_elem_of_fmap]%elem_of_app; [by left|right]. destruct Hok as (_ & _ & Hst). rewrite Forall_forall in Hst. specialize (Hst s Hs). cbn. lia.
    + intros x Hx'. destruct Hok as (_ & Hne & _). destruct (local_stripes (m_devid m) c) as [|s l] eqn:Hl; [done|].
      exists (s.2 + (x - ch_logical c)). exists c, s. rewrite Hl. split; [done|]. split; [unfold chunk_end; lia|]. split; [by left|done].
  - destruct Hf' as [?|Hf']; [done|]. specialize (IH (cursor + take) (remaining - take) (found ++ map (fun s : Z * Z => (s.2 + (cursor - ch_logical c), s.2 + (cursor - ch_logical c) + take)) (local_stripes (m_devid m) c)) Hm ltac:(lia) Hf').
    destruct (ranges_loop fuel m _ _ _) as [rs|e].
    + destruct IH as (H1 & H2 & H3). split; [|split].
      * intros p. rewrite H1, covers_app, <- holds_take by (done || (unfold chunk_end; lia)).
        rewrite (holds_split m cursor (cursor + take) (cursor + remaining)) by lia. replace (cursor + take + (remaining - take)) with (cursor + remaining) by lia. tauto.
      * intros r Hin. destruct (H2 r Hin) as [[?|(s & -> & Hs)%list_elem_of_fmap]%elem_of_app|?]; [by left| |by right].
        right. destruct Hok as (_ & _ & Hst). rewrite Forall_forall in Hst. specialize (Hst s Hs). cbn. lia.
      * intros x Hx'. destruct (Z.lt_ge_cases x (cursor + take)); [|apply H3; lia]. destruct Hok as (_ & Hne & _).
        destruct (local_stripes (m_devid m) c) as [|s l] eqn:Hl; [done|]. exists (s.2 + (x - ch_logical c)). exists c, s. rewrite Hl.
        split; [done|]. split; [unfold chunk_end; lia|]. split; [by left|done].
    + destruct IH as (He & x & Hx' & Hno). split; [done|]. exists x. split; [lia|done].
Qed.

(** ** Walking a tree *)

Section walk.
Context (r : reader) (m : Mapper) (nodesize : Z) (Hnode : 128 <= nodesize) (Hm : mapper_ok m).

(** A block read without the cache. *)
Definition read_block (logical : Z) : result bytes := physical_address ← read_physical m logical nodesize; reader_read r physical_address nodesize.

Definition plain_block (logical level : Z) : result (bytes * Z * Z) :=
  check (logical <=? 0) || negb (logical mod nodesize =? 0) # BackendError "invalid Btrfs tree-block address";
  raw ← read_block logical;
  '(level, nritems) ← block_header nodesize raw logical level;
  Ok (raw, level, nritems).

(** The reference: the items of the leaves below a block from left to right,
    and the blocks, a parent before its children. *)
Fixpoint in_order (level : nat) (logical : Z) : result (list TreeItem * list Z) :=
  '(raw, _, nritems) ← plain_block logical (Z.of_nat level);
  match level with
  | O => items ← mapM_result (leaf_item nodesize raw nritems) (py_range 0 nritems); Ok (items, [logical])
  | S level' =>
      children ← mapM_result (child_pointer raw (Z.of_nat level)) (py_range 0 nritems);
      parts ← mapM_result (fun child : Z * Z => in_order level' child.1) children;
      Ok (concat (map fst parts), logical :: concat (map snd parts))
  end.

(** The cache holds what is on the device. *)
Definition cache_ok (s : tree_state) : Prop := forall logical raw, t_block_cache s !! logical = Some raw -> read_block logical = Ok raw.

Lemma no_blocks_ok : cache_ok no_blocks.
Proof. intros l raw H. cbn in H. by rewrite lookup_empty in H. Qed.

Lemma block_run s logical level : cache_ok s ->
  let '(s', x) := block r m nodesize logical level s in
  cache_ok s' /\ t_blocks_read s <= t_blocks_read s' <= t_blocks_read s + 1 /\
  (x = plain_block logical level \/ exn_kind <$> (match x with Ok _ => None | Raise e => Some e end) = Some BackendError /\ _MAX_TREE_BLOCKS < t_blocks_read s').
Proof.
  intros Hs. unfold block, plain_block. destruct (_ || _); [cbn; repeat split; [done|lia|lia|by left]|]. unfold kbind, raw_block, read_block, klift, kret.
  destruct (t_block_cache s !! logical) as [raw|] eqn:Hc.
  - pose proof (Hs _ _ Hc) as Hr. unfold read_block in Hr. rewrite Hr. cbn [mbind result_bind].
    destruct (block_header nodesize raw logical level) as [[lv nr]|e]; cbn; (repeat split; [done|lia|lia|by left]).
  - destruct (physical_address ← read_physical m logical nodesize; reader_read r physical_address nodesize) as [raw|e] eqn:Hr; [|cbn; repeat split; [done|lia|lia|by left]].
    assert (cache_ok (mkTree (t_blocks_read s + 1) (<[logical:=raw]> (t_block_cache s)))) as Hs'.
    { intros l raw' H. cbn in H. destruct (decide (l = logical)) as [->|Hne]; [rewrite lookup_insert_eq in H; by injection H as <-|]. rewrite lookup_insert_ne in H by done. by apply Hs. }
    destruct (Z.ltb_spec _MAX_TREE_BLOCKS (t_blocks_read s + 1)) as [Hmax|Hmax]; cbn [mbind result_bind raise].
    + split; [done|]. split; [cbn; lia|]. right. by split.
    + destruct (block_header nodesize raw logical level) as [[lv nr]|e]; cbn; (split; [done|]; split; [lia|by left]).
Qed.

(** [m] without its counter raises [BackendError] only, and keeps the cache. *)
Lemma header_level raw logical level lv nr : block_header nodesize raw logical level = Ok (lv, nr) ->
  lv = level /\ lv <= _MAX_TREE_LEVEL /\ _HEADER_SIZE + nr * (if lv =? 0 then _ITEM_SIZE else _KEY_PTR_SIZE) <= nodesize.
Proof. intros H. unfold block_header in H. inv_ok. bool_to_prop. done. Qed.

Lemma plain_block_facts logical level raw lv nr : plain_block logical level = Ok (raw, lv, nr) ->
  lv = level /\ py_len raw = nodesize /\ 0 < logical /\ logical mod nodesize = 0 /\ (exists c, c ∈ m_chunks m /\ ch_logical c <= logical < chunk_end c) /\
  _HEADER_SIZE + nr * (if lv =? 0 then _ITEM_SIZE else _KEY_PTR_SIZE) <= nodesize.
Proof.
  intros H. unfold plain_block in H. destruct (_ || _) eqn:Ha in H; [done|]. bool_to_prop.
  apply bind_ok in H as (raw' & Hr & H). apply bind_ok in H as ([lv' nr'] & Hh & H). injection H as <- <- <-.
  destruct (header_level _ _ _ _ _ Hh) as (? & ? & ?). unfold read_block in Hr. apply bind_ok in Hr as (p & Hp & Hr).
  unfold read_physical in Hp. apply bind_ok in Hp as (c & Hc & Hp). pose proof (find_chunk_facts m logical Hm) as Hf. rewrite Hc in Hf. destruct Hf as [Hf1 Hf2].
  split; [done|]. split; [eapply read_len; [|exact Hr]; lia|]. split; [lia|]. split; [done|]. split; [by exists c|done].
Qed.

Lemma read_block_len logical raw : read_block logical = Ok raw -> py_len raw = nodesize.
Proof. intros H. unfold read_block in H. apply bind_ok in H as (p & _ & H). eapply read_len; [|exact H]. lia. Qed.

Lemma bo_read_block logical : backend_only (read_block logical).
Proof.
  unfold read_block, read_physical. raises; [|by destruct (local_stripes _ _) as [|[? ?] ?]; raises].
  pose proof (find_chunk_facts m logical Hm) as Hf. intros e He. rewrite He in Hf. tauto.
Qed.

Lemma bo_plain_block logical level : backend_only (plain_block logical level).
Proof.
  unfold plain_block. apply bo_if; intros _; [apply bo_raise|]. apply bo_bind; [apply bo_read_block|]. intros raw Hr%read_block_len.
  unfold block_header. raises; first [apply bo_unpack; lia|apply bo_get; lia|idtac].
Qed.

Lemma bo_leaf_item raw nr index : py_len raw = nodesize -> _HEADER_SIZE + nr * _ITEM_SIZE <= nodesize -> 0 <= index < nr -> backend_only (leaf_item nodesize raw nr index).
Proof.
  intros Hl Hn Hi. unfold leaf_item, _key, _HEADER_SIZE, _ITEM_SIZE, _DISK_KEY_SIZE in *. raises; first [apply bo_unpack; lia|apply bo_get; lia].
Qed.

Lemma bo_child raw level nr index : py_len raw = nodesize -> _HEADER_SIZE + nr * _KEY_PTR_SIZE <= nodesize -> 0 <= index < nr -> backend_only (child_pointer raw level index).
Proof. intros Hl Hn Hi. unfold child_pointer, _HEADER_SIZE, _KEY_PTR_SIZE in *. raises. apply bo_unpack; lia. Qed.

(** *** Fuel *)

Definition readable (logical : Z) : Prop := logical mod nodesize = 0 /\ exists c, c ∈ m_chunks m /\ ch_logical c <= logical < chunk_end c.

(** The addresses of a chunk a tree block can have. *)
Definition slots (c : Chunk) : list Z := map (fun i => ((ch_logical c + nodesize - 1) / nodesize + i) * nodesize) (seqZ 0 (ch_length c / nodesize + 1)).

Lemma readable_slot logical c : logical mod nodesize = 0 -> ch_logical c <= logical < chunk_end c -> logical ∈ slots c.
Proof.
  intros Hd Hx. unfold slots, chunk_end in *. apply list_elem_of_fmap. set (q0 := (ch_logical c + nodesize - 1) / nodesize).
  exists (logical / nodesize - q0). pose proof (Z.div_mod logical nodesize ltac:(lia)) as Hl. rewrite Hd in Hl.
  pose proof (Z.div_mod (ch_logical c + nodesize - 1) nodesize ltac:(lia)) as H0. pose proof (Z.mod_pos_bound (ch_logical c + nodesize - 1) nodesize ltac:(lia)) as H0b. fold q0 in H0.
  pose proof (Z.div_mod (ch_length c) nodesize ltac:(lia)) as H1. pose proof (Z.mod_pos_bound (ch_length c) nodesize ltac:(lia)).
  split; [lia|]. apply elem_of_seqZ. split; [|]; nia.
Qed.

Lemma visited_bound bs : NoDup bs -> Forall readable bs -> (length bs < walk_fuel m nodesize)%nat.
Proof.
  intros Hn Hr. unfold walk_fuel. assert (length bs <= length (concat (map slots (m_chunks m))))%nat as Hle.
  { apply submseteq_length, NoDup_submseteq; [done|]. intros x Hx. rewrite Forall_forall in Hr. destruct (Hr x Hx) as (Hd & c & Hc & Hxc).
    apply list_elem_of_In, in_concat. exists (slots c). rewrite <- !list_elem_of_In. split; [|by apply readable_slot]. apply list_elem_of_fmap. by exists c. }
  assert (length (concat (map slots (m_chunks m))) = Z.to_nat (zsum (map (fun c => ch_length c / nodesize + 1) (m_chunks m)))) as <-; [|lia].
  destruct Hm as [_ Hok]. clear Hle Hr Hn. induction (m_chunks m) as [|c l IH]; [done|]. apply Forall_cons in Hok as [(Hc & _) Hok]. cbn [map concat].
  change (zsum (?x :: ?l)) with (x + zsum l). rewrite length_app, (IH Hok). unfold slots. rewrite length_map, length_seqZ.
  pose proof (Z.div_pos (ch_length c) nodesize ltac:(lia) ltac:(lia)). assert (0 <= zsum (map (fun c => ch_length c / nodesize + 1) l)); [|lia].
  apply zsum_nonneg, Forall_map. eapply Forall_impl; [exact Hok|]. intros d (Hd & _). pose proof (Z.div_pos (ch_length d) nodesize ltac:(lia) ltac:(lia)). cbn. lia.
Qed.

Lemma next_unvisited_facts visited stack logical level rest : next_unvisited visited stack = Some (logical, level, rest) -> logical ∉ visited.
Proof. induction stack as [|[l lv] stack IH]; [done|]. cbn [next_unvisited]. destruct (decide (l ∈ visited)); [done|]. by intros [= <- <- <-]. Qed.

Lemma visit_snoc blocks logical : {[logical]} ∪ list_to_set blocks = (list_to_set (blocks ++ [logical]) : gset Z).
Proof. apply set_eq. intros x. set_solver. Qed.

(** The walk ends: it returns, with each block once, or raises [BackendError]. *)
Lemma walk_loop_total fuel : forall blocks stack items s, cache_ok s -> NoDup blocks -> Forall readable blocks -> (walk_fuel m nodesize <= length blocks + fuel)%nat ->
  let '(s', x) := walk_loop r m nodesize fuel (list_to_set blocks) stack items blocks s in
  cache_ok s' /\ backend_only x /\ forall its bs, x = Ok (its, bs) -> NoDup bs /\ Forall readable bs.
Proof.
  induction fuel as [|fuel IH]; intros blocks stack items s Hs Hn Hr Hf; cbn [walk_loop];
    (destruct (next_unvisited _ _) as [[[logical level] rest]|] eqn:Hnext; [apply next_unvisited_facts in Hnext|by repeat split; [|apply bo_ok|..]; try congruence]).
  - pose proof (visited_bound blocks Hn Hr). lia.
  - rewrite elem_of_list_to_set in Hnext. unfold kbind at 1. pose proof (block_run s logical level Hs) as Hb. destruct (block r m nodesize logical level s) as [s1 x1].
    destruct Hb as (Hs1 & _ & Hx1). destruct x1 as [[[raw lv] nr]|e].
    2: { split; [done|]. split; [|done]. intros e' [= <-]. destruct Hx1 as [Hx1|[[= Hx1] _]]; [by apply (bo_plain_block logical level)|done]. }
    destruct Hx1 as [Hx1|[? _]]; [|done]. symmetry in Hx1. destruct (plain_block_facts _ _ _ _ _ Hx1) as (-> & Hl & _ & Hd & Hc & Hh).
    assert (NoDup (blocks ++ [logical]) /\ Forall readable (blocks ++ [logical])) as [Hn' Hr'].
    { split; [apply NoDup_app; split; [done|]; split; [set_solver|apply NoDup_singleton]|]. apply Forall_app_2; [done|]. by repeat constructor. }
    destruct (level =? 0) eqn:E.
    + unfold kbind, klift. pose proof (bo_mapM (leaf_item nodesize raw nr) (py_range 0 nr)) as Hbo.
      destruct (mapM_result (leaf_item nodesize raw nr) (py_range 0 nr)) as [new|e].
      * rewrite visit_snoc. apply IH; [done|done|done|rewrite length_app; cbn; lia].
      * split; [done|]. split; [|done]. intros e' [= <-]. refine (Hbo _ e eq_refl). intros i Hi%elem_of_py_range. by apply bo_leaf_item.
    + unfold kbind, klift. pose proof (bo_mapM (child_pointer raw level) (py_range 0 nr)) as Hbo.
      destruct (mapM_result (child_pointer raw level) (py_range 0 nr)) as [new|e].
      * rewrite visit_snoc. apply IH; [done|done|done|rewrite length_app; cbn; lia].
      * split; [done|]. split; [|done]. intros e' [= <-]. refine (Hbo _ e eq_refl). intros i Hi%elem_of_py_range. by eapply bo_child.
Qed.

(** *** Order *)

Lemma in_order_readable level : forall logical its bs, in_order level logical = Ok (its, bs) -> Forall readable bs.
Proof.
  induction level as [|level IH]; intros logical its bs H; cbn [in_order] in H; apply bind_ok in H as ([[raw lv] nr] & Hb & H);
    destruct (plain_block_facts _ _ _ _ _ Hb) as (_ & _ & _ & Hd & Hc & _).
  - apply bind_ok in H as (items & _ & H). injection H as <- <-. by repeat constructor.
  - apply bind_ok in H as (children & _ & H). apply bind_ok in H as (parts & Hp & H). injection H as <- <-. constructor; [by split|].
    apply mapM_result_Forall2 in Hp. clear - Hp IH. induction Hp as [|child [i b] children parts Hc Hp IHp]; cbn [map concat snd]; [constructor|].
    apply Forall_app_2; [by eapply IH|done].
Qed.

(** The walk from [stack], then the rest, does the same as the rest after the
    items and blocks of the subtree. *)
Definition goes_on (stack : list (Z * Z)) (its : list TreeItem) (bs : list Z) : Prop := forall fuel blocks items rest s,
  cache_ok s -> NoDup (blocks ++ bs) -> t_blocks_read s + py_len bs <= _MAX_TREE_BLOCKS ->
  exists s', cache_ok s' /\ t_blocks_read s' <= t_blocks_read s + py_len bs /\
    walk_loop r m nodesize (length bs + fuel) (list_to_set blocks) (stack ++ rest) items blocks s =
    walk_loop r m nodesize fuel (list_to_set (blocks ++ bs)) rest (items ++ its) (blocks ++ bs) s'.

Lemma goes_on_nil : goes_on [] [] [].
Proof. intros fuel blocks items rest s Hs _ _. exists s. split; [done|]. split; [unfold py_len; cbn [length]; lia|]. by rewrite !app_nil_r. Qed.

Lemma goes_on_app st1 st2 i1 i2 b1 b2 : goes_on st1 i1 b1 -> goes_on st2 i2 b2 -> goes_on (st1 ++ st2) (i1 ++ i2) (b1 ++ b2).
Proof.
  intros H1 H2 fuel blocks items rest s Hs Hn Hb. rewrite py_len_app in Hb. pose proof (py_len_nonneg b1). pose proof (py_len_nonneg b2). rewrite (app_assoc blocks) in Hn.
  destruct (H1 (length b2 + fuel)%nat blocks items (st2 ++ rest) s Hs) as (s1 & Hs1 & Hc1 & E1); [by apply NoDup_app in Hn as (? & _)|lia|].
  destruct (H2 fuel (blocks ++ b1) (items ++ i1) rest s1 Hs1 Hn) as (s2 & Hs2 & Hc2 & E2); [lia|].
  exists s2. split; [done|]. split; [rewrite py_len_app; lia|]. rewrite length_app, <- Nat.add_assoc, <- !app_assoc, E1, E2. by rewrite <- !app_assoc.
Qed.

Lemma walk_subtree level : forall logical its bs, in_order level logical = Ok (its, bs) -> goes_on [(logical, Z.of_nat level)] its bs.
Proof.
  induction level as [|level IH]; intros logical its bs H; cbn [in_order] in H; apply bind_ok in H as ([[raw lv] nr] & Hb & H);
    destruct (plain_block_facts _ _ _ _ _ Hb) as (-> & _).
  - apply bind_ok in H as (new & Hnew & H). injection H as <- <-. intros fuel blocks items rest s Hs Hn Hmax. cbn [length Nat.add app walk_loop next_unvisited].
    apply NoDup_app in Hn as (_ & Hn & _). rewrite decide_False by (rewrite elem_of_list_to_set; intros ?; eapply Hn; [done|by left]).
    pose proof (block_run s logical (Z.of_nat 0) Hs) as Hrun. unfold kbind at 1. destruct (block r m nodesize logical (Z.of_nat 0) s) as [s1 x1].
    destruct Hrun as (Hs1 & Hc1 & [->|[_ Hx]]); [|change (py_len [logical]) with 1 in Hmax; lia]. rewrite Hb. cbn [Z.of_nat Z.eqb]. unfold kbind, klift. rewrite Hnew.
    exists s1. split; [done|]. split; [change (py_len [logical]) with 1; lia|]. by rewrite visit_snoc.
  - apply bind_ok in H as (children & Hch & H). apply bind_ok in H as (parts & Hp & H). injection H as <- <-.
    assert (goes_on children (concat (map fst parts)) (concat (map snd parts))) as Hgo.
    { apply mapM_result_Forall2 in Hp, Hch. assert (Forall (fun c : Z * Z => c.2 = Z.of_nat level) children) as Hlv.
      { clear - Hch. induction Hch as [|i c ks cs Hc _ IHc]; constructor; [|done]. unfold child_pointer in Hc. inv_ok. cbn. lia. }
      clear - Hp IH Hlv. induction Hp as [|[c lv] [i b] children parts Hc Hp IHp]; [apply goes_on_nil|]. apply Forall_cons in Hlv as [Hlv Hlvs]. cbn [map concat fst snd] in *.
      subst lv. apply (goes_on_app [(c, Z.of_nat level)]); [by apply IH|by apply IHp]. }
    intros fuel blocks items rest s Hs Hn Hmax. cbn [length Nat.add app walk_loop next_unvisited]. rewrite py_len_cons in Hmax.
    pose proof Hn as Hn2. apply NoDup_app in Hn as (_ & Hn & _). rewrite decide_False by (rewrite elem_of_list_to_set; intros ?; eapply Hn; [done|by left]).
    pose proof (block_run s logical (Z.of_nat (S level)) Hs) as Hrun. unfold kbind at 1. destruct (block r m nodesize logical (Z.of_nat (S level)) s) as [s1 x1].
    pose proof (py_len_nonneg (concat (map snd parts))).
    destruct Hrun as (Hs1 & Hc1 & [->|[_ Hx]]); [|lia]. rewrite Hb. rewrite (proj2 (Z.eqb_neq _ 0)) by lia. unfold kbind at 1, klift. rewrite Hch.
    destruct (Hgo fuel (blocks ++ [logical]) items rest s1 Hs1) as (s2 & Hs2 & Hc2 & E2); [by rewrite <- app_assoc|lia|].
    exists s2. split; [done|]. split; [rewrite py_len_cons; lia|]. rewrite visit_snoc, E2. by rewrite <- app_assoc.
Qed.

Lemma walk_is_in_order level logical its bs s : in_order level logical = Ok (its, bs) -> NoDup bs -> cache_ok s -> t_blocks_read s + py_len bs <= _MAX_TREE_BLOCKS ->
  (walk r m nodesize logical (Z.of_nat level) s).2 = Ok (its, bs).
Proof.
  intros H Hn Hs Hmax. pose proof (visited_bound bs Hn (in_order_readable _ _ _ _ H)) as Hf. unfold walk.
  destruct (walk_subtree level logical its bs H (walk_fuel m nodesize - length bs)%nat [] [] [] s Hs Hn Hmax) as (s' & _ & _ & E).
  cbn [app] in E. replace (length bs + (walk_fuel m nodesize - length bs))%nat with (walk_fuel m nodesize) in E by lia. change (list_to_set []) with (∅ : gset Z) in E.
  rewrite E. destruct (walk_fuel m nodesize - length bs)%nat; reflexivity.
Qed.
End walk.

(** ** The map *)

(** The byte [p] of the device is used: by an extent item, or by a mirror of
    the superblock. *)
(** The logical bytes an item of the extent tree allocates: an extent item says
    how many, a skinny metadata item stands for a tree block. *)
Definition allocates (nodesize : Z) (item : TreeItem) (a b : Z) : Prop :=
  a = key_objectid (i_key item) /\ a <> 0 /\
  ((key_type (i_key item) = _EXTENT_ITEM /\ b = a + key_offset (i_key item)) \/ (key_type (i_key item) = _METADATA_ITEM /\ b = a + nodesize)).

(** A physical byte in use: it holds a byte of such an item, or belongs to a
    copy of the superblock (at 64 KiB, 64 MiB and 256 GiB). *)
Definition byte_used (s : superblock) (m : Mapper) (items : list TreeItem) (p : Z) : Prop :=
  (exists item a b, item ∈ items /\ allocates (sb_nodesize s) item a b /\ holds m a b p) \/
  (exists mirror, mirror ∈ [65536; 67108864; 274877906944] /\ mirror + 4096 <= sb_total_bytes s /\ mirror <= p < mirror + 4096).

Definition sector_used (s : superblock) (m : Mapper) (items : list TreeItem) (x : Z) : Prop := exists p, p / sb_sectorsize s = x /\ byte_used s m items p.

(** Ranges of the device that are not empty. *)
Definition device_ranges (size : Z) (rs : list range) : Prop := Forall (fun r : range => 0 <= r.1 < r.2 /\ r.2 <= size) rs.

Lemma physical_ranges_facts m logical n : mapper_ok m ->
  match physical_ranges m logical n with
  | Ok rs => (forall p, covers rs p <-> holds m logical (logical + n) p) /\ device_ranges (m_device_size m) rs
  | Raise e => exn_kind e = BackendError /\ exists x, logical <= x < logical + n /\ forall p, ~ located m x p
  end.
Proof.
  intros Hm. unfold physical_ranges. destruct (Z.leb_spec n 0) as [Hn|Hn].
  { split; [|constructor]. intros p. unfold holds. split; [by intros ?%covers_nil|]. intros (x & Hx & _). lia. }
  assert (length (beyond m logical) < S (length (m_chunks m)))%nat as Hf by (unfold beyond; pose proof (length_filter (fun c => logical < chunk_end c) (m_chunks m)); lia).
  pose proof (ranges_loop_facts m _ logical n [] Hm ltac:(lia) Hf) as H. destruct (ranges_loop _ m logical n []) as [rs|e]; [|done].
  destruct H as (H1 & H2 & _). split; [intros p; rewrite H1; split; [intros [?%covers_nil|?]; done|by right]|].
  apply Forall_forall. intros x Hx. destruct (H2 x Hx) as [?%elem_of_nil|?]; [done|lia].
Qed.

Lemma byte_used_iff s m items p : byte_used s m items p <->
  (exists item, item ∈ items /\ key_objectid (i_key item) <> 0 /\
     holds m (key_objectid (i_key item)) (key_objectid (i_key item) + item_length (sb_nodesize s) item) p) \/
  covers (superblock_mirrors (sb_total_bytes s)) p.
Proof.
  assert (covers (superblock_mirrors (sb_total_bytes s)) p <-> exists mirror, mirror ∈ [65536; 67108864; 274877906944] /\ mirror + 4096 <= sb_total_bytes s /\ mirror <= p < mirror + 4096) as E0.
  { unfold covers, superblock_mirrors. rewrite Exists_exists. split.
    - intros (q & (mirror & -> & [Hb Hin]%list_elem_of_filter)%list_elem_of_fmap & Hp). by exists mirror.
    - intros (mirror & Hin & Hb & Hp). exists (mirror, mirror + BTRFS_SUPER_SIZE). split; [|done]. apply list_elem_of_fmap. exists mirror. split; [done|]. by apply list_elem_of_filter. }
  unfold byte_used. rewrite E0. enough ((exists item a b, item ∈ items /\ allocates (sb_nodesize s) item a b /\ holds m a b p) <->
    exists item, item ∈ items /\ key_objectid (i_key item) <> 0 /\ holds m (key_objectid (i_key item)) (key_objectid (i_key item) + item_length (sb_nodesize s) item) p) as E by by rewrite E.
  split.
  - intros (item & a & b & Hi & (-> & Hne & Ht) & Hh). exists item. split; [done|]. split; [done|]. unfold item_length. destruct Ht as [[-> ->]|[-> ->]]; exact Hh.
  - intros (item & Hi & Hne & Hh). exists item, (key_objectid (i_key item)), (key_objectid (i_key item) + item_length (sb_nodesize s) item). split; [done|]. split; [|done].
    unfold allocates, item_length in *. split; [done|]. split; [done|]. destruct (Z.eqb_spec (key_type (i_key item)) _EXTENT_ITEM); [by left|].
    destruct (Z.eqb_spec (key_type (i_key item)) _METADATA_ITEM); [by right|]. destruct Hh as (x & Hx & _). lia.
Qed.

Lemma extents_facts m nodesize items : forall ranges used, mapper_ok m -> device_ranges (m_device_size m) ranges -> foldM (add_extent m nodesize) ranges items = Ok used ->
  device_ranges (m_device_size m) used /\ forall p, covers used p <-> covers ranges p \/ exists item, item ∈ items /\ key_objectid (i_key item) <> 0 /\
    holds m (key_objectid (i_key item)) (key_objectid (i_key item) + item_length nodesize item) p.
Proof.
  induction items as [|item items IH]; intros ranges used Hm Hr H; cbn [foldM] in H.
  { injection H as <-. split; [done|]. intros p. split; [by left|]. intros [?|(item & ?%elem_of_nil & _)]; done. }
  apply bind_ok in H as (ranges' & H1 & H). unfold add_extent in H1. cbv zeta in H1.
  destruct ((key_objectid (i_key item) =? 0) || (item_length nodesize item =? 0)) eqn:E.
  - injection H1 as <-. destruct (IH _ _ Hm Hr H) as [Hu Hc]. split; [done|]. intros p. rewrite Hc. split.
    + intros [?|(i & ? & ?)]; [by left|right; exists i; split; [by right|done]].
    + intros [?|(i & [->|Hi]%elem_of_cons & Ho & Hh)]; [by left| |right; by exists i]. bool_to_prop. destruct E as [E|E]; [lia|].
      destruct Hh as (x & Hx & _). apply Z.eqb_eq in E. lia.
  - apply bind_ok in H1 as (new & Hnew & H1). injection H1 as <-. pose proof (physical_ranges_facts m (key_objectid (i_key item)) (item_length nodesize item) Hm) as Hp.
    rewrite Hnew in Hp. destruct Hp as [Hp Hd]. destruct (IH _ _ Hm (Forall_app_2 _ _ _ Hr Hd) H) as [Hu Hc]. split; [done|]. bool_to_prop. intros p. rewrite Hc, covers_app, Hp. split.
    + intros [[?|?]|(i & ? & ?)]; [by left|right; exists item; split; [by left|done]|right; exists i; split; [by right|done]].
    + intros [?|(i & [->|Hi]%elem_of_cons & Ho & Hh)]; [by left; left|by left; right|right; by exists i].
Qed.

Lemma mirrors_on_device total_bytes : device_ranges total_bytes (superblock_mirrors total_bytes).
Proof.
  unfold superblock_mirrors, device_ranges. apply Forall_map, Forall_forall. intros x [Hx Hin]%list_elem_of_filter. unfold BTRFS_SUPER_SIZE in *. cbn [fst snd].
  rewrite !elem_of_cons in Hin. destruct Hin as [->|[->|[->|?%elem_of_nil]]]; [..|done]; lia.
Qed.

Lemma sectors_covers ss size rs x : 0 < ss -> device_ranges size rs -> covers (sectors ss rs) x <-> exists p, p / ss = x /\ covers rs p.
Proof.
  intros Hss Hr. unfold sectors. rewrite merge_covers.
  - unfold covers. rewrite Exists_exists. unfold device_ranges in Hr. rewrite Forall_forall in Hr. split.
    + intros (u & (q & -> & Hq)%list_elem_of_fmap & Hx). cbn [fst snd] in Hx. specialize (Hr q Hq). exists (Z.max q.1 (x * ss)).
      pose proof (Z.div_mod (q.2 + ss - 1) ss ltac:(lia)). pose proof (Z.mod_pos_bound (q.2 + ss - 1) ss Hss).
      pose proof (Z.div_mod q.1 ss ltac:(lia)). pose proof (Z.mod_pos_bound q.1 ss Hss). split.
      * destruct (Z.max_spec q.1 (x * ss)) as [[? ->]|[? ->]]; [by apply Z.div_mul; lia|]. apply Z.le_antisymm; [lia|]. apply Z.div_le_lower_bound; lia.
      * apply Exists_exists. exists q. split; [done|]. cbn in *. nia.
    + intros (p & <- & (q & Hq & Hp)%Exists_exists). specialize (Hr q Hq). eexists. split; [apply list_elem_of_fmap; exists q; split; [reflexivity|done]|]. cbn [fst snd]. split.
      * apply Z.div_le_mono; lia.
      * apply Z.lt_le_trans with (p / ss + 1); [lia|]. apply Z.div_le_lower_bound; [lia|]. pose proof (Z.mul_div_le p ss Hss). cbn in *. nia.
  - apply Forall_map. eapply Forall_impl; [exact Hr|]. intros q Hq. cbn in *. apply Z.div_pos; lia.
Qed.

Lemma clip_facts total units : separated units -> Forall (fun r : range => 0 <= r.1) units ->
  separated (clip total units) /\ Forall (fun r : range => 0 <= r.1 /\ r.2 <= total) (clip total units) /\ forall x, covers (clip total units) x <-> 0 <= x < total /\ covers units x.
Proof.
  intros [Hne Hs] Hp. unfold clip. split; [split|split].
  - apply Forall_map, Forall_forall. intros r [[H1 H2] Hr]%list_elem_of_filter. rewrite Forall_forall in Hne, Hp. specialize (Hne r Hr). specialize (Hp r Hr). cbn in *. lia.
  - induction Hs as [|r units Hs IH Hr]; [constructor|]. apply Forall_cons in Hne as [Hne0 Hne], Hp as [Hp0 Hp]. rewrite filter_cons.
    destruct (decide _); [|by apply IH]. cbn [map]. constructor; [by apply IH|]. apply Forall_map, Forall_forall. intros q [_ Hq]%list_elem_of_filter.
    rewrite Forall_forall in Hr, Hp. specialize (Hr q Hq). specialize (Hp q Hq). cbn in *. lia.
  - apply Forall_map, Forall_forall. intros r _. cbn. lia.
  - intros x. unfold covers. rewrite !Exists_exists. rewrite Forall_forall in Hp. split.
    + intros (u & (q & -> & [_ Hq]%list_elem_of_filter)%list_elem_of_fmap & Hx). cbn [fst snd] in Hx. split; [lia|]. exists q. split; [done|lia].
    + intros [Hx (q & Hq & Hxq)]. specialize (Hp q Hq). eexists. split; [apply list_elem_of_fmap; exists q; split; [reflexivity|]|cbn; cbn in Hp; lia].
      apply list_elem_of_filter. split; [cbn in *; lia|done].
Qed.

(** The space map of any used bytes. *)
Lemma space_map_facts total_bytes ss cells ranges dets mr : 0 < ss -> 0 < total_bytes -> device_ranges total_bytes ranges ->
  space_map total_bytes ss cells ranges dets = Ok mr ->
  let total := (total_bytes + ss - 1) / ss in let used := covered (sectors ss ranges) in
  exists bounds, chained 0 total bounds /\ py_len bounds = clamp_cells cells total /\
    Forall2 (counted used (fun x => negb (used x))) bounds (mr_cells mr) /\
    mr_free_bytes mr = count_where (fun x => negb (used x)) 0 total * ss /\ mr_free_bytes mr + mr_used_bytes mr = total * ss.
Proof.
  intros Hss Htot Hu H total used. unfold space_map in H. fold total in H. assert (1 <= total) as Ht1 by (unfold total; apply Z.div_le_lower_bound; lia).
  assert (separated (sectors ss ranges) /\ Forall (fun r : range => 0 <= r.1) (sectors ss ranges)) as [Hs Hp].
  { unfold sectors. pose proof (merge_ranges_facts (map (fun r : range => (r.1 / ss, (r.2 + ss - 1) / ss)) ranges)) as [Hs Hc]. split; [done|]. apply Forall_forall. intros q Hq.
    destruct Hs as [Hne _]. rewrite Forall_forall in Hne. specialize (Hne q Hq). cbn in Hne. assert (covers (merge_ranges (map (fun r : range => (r.1 / ss, (r.2 + ss - 1) / ss)) ranges)) q.1) as Hq1.
    { apply Exists_exists. exists q. split; [done|lia]. } apply Hc in Hq1 as (a & e & _ & ? & _). lia. }
  destruct (clip_facts total _ Hs Hp) as (Hcs & Hcb & Hcc).
  destruct (aggregate_used total cells ss "btrfs" _ "exact-single-device" dets Ht1 Hcs Hcb) as (free & r & bounds & Hcm & Hfree & Hagg & Hch & Hlen & Hcells & Hf & Hfu & _).
  rewrite Hcm in H. cbn [mbind result_bind] in H. unfold state_ranges in H. rewrite Hagg in H. injection H as <-.
  assert (forall x, 0 <= x < total -> covered free x = negb (used x)) as Hfx.
  { intros x Hx. apply Bool.eq_true_iff_eq. rewrite covered_spec, negb_true_iff, <- not_true_iff_false. unfold used. rewrite covered_spec, Hfree, Hcc. tauto. }
  exists bounds. split; [done|]. split; [done|]. split; [|split; [|done]].
  - rewrite Hcells. apply Forall2_fmap_r, Forall_Forall2_diag, Forall_forall. intros b Hb. pose proof (chained_elem _ _ _ _ Hch Hb) as Hin.
    unfold counted, counts_cell, counts_of, free_or_used. cbn. split; [done|]. split; [done|]. split; apply count_where_ext; intros x Hx; rewrite Hfx by lia; by destruct (used x).
  - rewrite Hf. f_equal. by apply count_where_ext.
Qed.

Lemma parse_chunk_positive data logical c : _parse_chunk data logical = Ok c -> 0 < ch_length c.
Proof. intros H. unfold _parse_chunk in H. inv_ok. bool_to_prop. done. Qed.

Lemma system_chunks_positive fuel : forall data pos chunks cs, Forall (fun c => 0 < ch_length c) chunks -> system_chunks_loop fuel data pos chunks = Ok cs -> Forall (fun c => 0 < ch_length c) cs.
Proof.
  induction fuel as [|fuel IH]; intros data pos chunks cs Hc H; cbn [system_chunks_loop] in H; (destruct (pos <? py_len data); [|by injection H as <-]); [done|].
  inv_ok. eapply IH; [|exact H]. apply Forall_app_2; [done|]. constructor; [by eapply parse_chunk_positive|done].
Qed.

Lemma read_mapper_facts r sb s m n : read_mapper r sb s = Ok (m, n) -> mapper_ok m /\ m_devid m = sb_devid s /\ m_device_size m = sb_total_bytes s.
Proof.
  intros H. unfold read_mapper in H. apply bind_ok in H as (chunks & Hsys & H). apply bind_ok in H as (boot & _ & H). apply bind_ok in H as ([items blocks] & _ & H).
  apply bind_ok in H as (more & Hmore & H). apply bind_ok in H as (m' & Hm & H). injection H as <- _.
  assert (Forall (fun c => 0 < ch_length c) (chunks ++ more)) as Hp.
  { apply Forall_app_2.
    - unfold _system_chunks in Hsys. apply bind_ok in Hsys as (size & _ & Hsys). destruct (_ || _) in Hsys; [done|]. eapply system_chunks_positive; [constructor|exact Hsys].
    - apply mapM_result_Forall2 in Hmore. clear - Hmore. induction Hmore as [|i c ks cs Hc _ IH]; [constructor|]. constructor; [by eapply parse_chunk_positive|done]. }
  destruct (Mapper_init_facts _ _ _ _ Hp Hm) as (H1 & H2 & H3 & _). done.
Qed.

Lemma finish_map_cells m ss scanned fm : finish_map m ss scanned = Ok fm ->
  Forall2 same_counts (mr_cells m) (mr_cells (fm_map fm)) /\ mr_free_bytes (fm_map fm) = mr_free_bytes m /\ mr_used_bytes (fm_map fm) = mr_used_bytes m.
Proof.
  intros H. unfold finish_map in H. destruct scanned as [[u n]|e].
  - unfold overlay_ranges in H. injection H as <-. cbn. split; [apply overlay_cells_same|done].
  - destruct (bool_decide _); [|done]. injection H as <-. cbn. split; [apply same_counts_refl|done].
Qed.

Lemma counted_same used free bounds cells cells' : Forall2 (counted used free) bounds cells -> Forall2 same_counts cells cells' -> Forall2 (counted used free) bounds cells'.
Proof.
  intros H. revert cells'. induction H as [|b c bounds cells (H1 & H2 & H3 & H4) _ IH]; intros cells' Hs; inversion_clear Hs as [|? c' ? l (S1 & S2 & S3 & S4) Hs']; constructor; [|by apply IH].
  unfold counted. by rewrite S1, S2, S3, S4.
Qed.

(** C27. Translating a range of logical bytes through an accepted chunk list
    gives exactly the bytes of the device at which a local stripe holds a byte
    of the range (all copies of it), as ranges inside the device; it fails, with
    [BackendError], only if some byte of the range lies in no chunk, so it ends
    on every mapping. *)
Theorem physical_ranges_exact (chunks : list Chunk) (devid size logical n : Z) (m : Mapper)
    (Hpos : Forall (fun c => 0 < ch_length c) chunks) (Hinit : Mapper_init chunks devid size = Ok m) :
  match physical_ranges m logical n with
  | Ok rs =>
      (forall p, covers rs p <-> exists x c s, logical <= x < logical + n /\ c ∈ chunks /\ ch_logical c <= x < chunk_end c /\ s ∈ ch_stripes c /\ s.1 = devid /\ p = s.2 + (x - ch_logical c)) /\
      Forall (fun r : range => 0 <= r.1 < r.2 /\ r.2 <= size) rs
  | Raise e => exn_kind e = BackendError /\ exists x, logical <= x < logical + n /\ forall c, c ∈ chunks -> ~ ch_logical c <= x < chunk_end c
  end.
Proof.
  destruct (Mapper_init_facts _ _ _ _ Hpos Hinit) as (Hm & Hd & Hs & Hin). pose proof (physical_ranges_facts m logical n Hm) as H. rewrite Hs in H.
  assert (forall c s, s ∈ local_stripes devid c <-> s ∈ ch_stripes c /\ s.1 = devid) as Hst by (intros c s; unfold local_stripes; rewrite list_elem_of_filter; tauto).
  destruct (physical_ranges m logical n) as [rs|e].
  - destruct H as [H1 H2]. split; [|done]. intros p. rewrite H1. unfold holds, located. rewrite Hd. setoid_rewrite Hin. setoid_rewrite Hst. split.
    + intros (x & Hx & c & s & Hc & Hxc & [Hs1 Hs2] & Hp). by exists x, c, s.
    + intros (x & c & s & Hx & Hc & Hxc & Hs1 & Hs2 & Hp). exists x. split; [done|]. by exists c, s.
  - destruct H as (He & x & Hx & Hno). split; [done|]. exists x. split; [done|]. intros c Hc Hxc. pose proof Hm as [_ Hok]. rewrite Forall_forall in Hok.
    apply Hin in Hc. destruct (Hok c Hc) as (_ & Hne & _). destruct (local_stripes (m_devid m) c) as [|s l] eqn:El; [done|].
    apply (Hno (s.2 + (x - ch_logical c))). exists c, s. rewrite El. split; [done|]. split; [done|]. split; [by left|done].
Qed.

(** C26. The walk of a tree agrees with recursion over the tree: when the tree
    below the root can be read and no block occurs twice in it, the walk returns
    the items of its leaves from left to right and its blocks; and on any
    device, cyclic and damaged trees included, the walk ends within its bound
    and raises at most [BackendError]. *)
Theorem walk_equals_recursion (r : reader) (m : Mapper) (nodesize root : Z) (level : nat) (Hnode : 128 <= nodesize) (Hm : mapper_ok m) :
  backend_only (walk r m nodesize root (Z.of_nat level) no_blocks).2 /\
  forall items blocks, in_order r m nodesize level root = Ok (items, blocks) -> NoDup blocks -> py_len blocks <= _MAX_TREE_BLOCKS ->
    (walk r m nodesize root (Z.of_nat level) no_blocks).2 = Ok (items, blocks).
Proof.
  split.
  - pose proof (walk_loop_total r m nodesize Hnode Hm (walk_fuel m nodesize) [] [(root, Z.of_nat level)] [] no_blocks (no_blocks_ok r m nodesize)) as H.
    unfold walk. change (list_to_set []) with (∅ : gset Z) in H. destruct (walk_loop _ _ _ _ _ _ _ _ _) as [s x]. apply H; [constructor|constructor|cbn; lia].
  - intros items blocks H Hn Hmax. apply (walk_is_in_order r m nodesize Hnode Hm level root items blocks no_blocks H Hn (no_blocks_ok r m nodesize)). cbn. lia.
Qed.

(** C23. The Btrfs map is exact: when [map] returns, the cells are consecutive
    and cover the volume, and each counts exactly the sectors that hold a byte of
    an item of the extent tree, on any local copy, or of a superblock mirror as
    used and all others as free; the free bytes are those of the free sectors. *)
Theorem btrfs_map_exact (r : reader) (cells : Z) (fm : files_map) (Hmap : btrfs_map (Ok r) cells = Ok fm) :
  exists sb s m chunk_blocks tree roots items root_blocks extent_blocks (used : Z -> bool) bounds,
    reader_read r BTRFS_SUPER_OFFSET BTRFS_SUPER_SIZE = Ok sb /\ read_superblock sb = Ok s /\ read_mapper r sb s = Ok (m, chunk_blocks) /\
    read_trees r m s no_blocks = (tree, Ok (roots, items, root_blocks, extent_blocks)) /\
    let total := (sb_total_bytes s + sb_sectorsize s - 1) / sb_sectorsize s in
    (forall x, 0 <= x < total -> used x = true <-> sector_used s m items x) /\
    chained 0 total bounds /\ py_len bounds = clamp_cells cells total /\
    Forall2 (counted used (fun x => negb (used x))) bounds (mr_cells (fm_map fm)) /\
    mr_free_bytes (fm_map fm) = count_where (fun x => negb (used x)) 0 total * sb_sectorsize s /\
    mr_free_bytes (fm_map fm) + mr_used_bytes (fm_map fm) = total * sb_sectorsize s.
Proof.
  unfold btrfs_map in Hmap. cbn [mbind result_bind] in Hmap. apply bind_ok in Hmap as (sb & Hsb & Hmap). destruct (negb _) in Hmap; [done|].
  apply bind_ok in Hmap as (s & Hs & Hmap). apply bind_ok in Hmap as ([] & Hck & Hmap). apply bind_ok in Hmap as ([m n] & Hrm & Hmap).
  destruct (read_trees r m s no_blocks) as [tree [[[[roots items] n1] n2]|e]] eqn:Htr; [|done]. apply bind_ok in Hmap as (used & Hu & Hmap).
  apply bind_ok in Hmap as (mr & Hmr & Hmap). destruct (finish_map_cells _ _ _ _ Hmap) as (Hsame & Ef & Eu). destruct (read_mapper_facts _ _ _ _ _ Hrm) as (Hm & _ & Hsize).
  assert (4096 <= sb_sectorsize s /\ 0 < sb_total_bytes s) as [Hss Htot] by (unfold check_superblock in Hck; inv_ok; bool_to_prop; lia).
  unfold used_ranges in Hu. apply bind_ok in Hu as (used0 & Hu & Hu2). injection Hu2 as <-. destruct (extents_facts _ _ _ _ _ Hm ltac:(constructor) Hu) as (Hd & Hc). rewrite Hsize in Hd.
  pose proof (Forall_app_2 _ _ _ Hd (mirrors_on_device (sb_total_bytes s))) as Hall.
  destruct (space_map_facts (sb_total_bytes s) (sb_sectorsize s) _ _ _ _ ltac:(clear - Hss; lia) Htot Hall Hmr) as (bounds & Hch & Hlen & Hcells & Hfb & Hfu).
  exists sb, s, m, n, tree, roots, items, n1, n2, (covered (sectors (sb_sectorsize s) (used0 ++ superblock_mirrors (sb_total_bytes s)))), bounds. do 4 (split; [done|]).
  split; [|split; [done|]; split; [done|]; rewrite Ef, Eu; split; [|by split]].
  - intros x _. rewrite covered_spec, (sectors_covers _ (sb_total_bytes s)) by (done || lia). unfold sector_used. setoid_rewrite byte_used_iff. setoid_rewrite covers_app. setoid_rewrite Hc.
    split; intros (p & Hp & Hcp); exists p; (split; [done|]); pose proof (covers_nil p); tauto.
  - eapply counted_same; [exact Hcells|exact Hsame].
Qed.
