(* ===== verification/BtrfsSample.v ===== *)
(** * A small Btrfs volume

    Twenty-four sectors of 4096 bytes: the superblock's page is sector 16; a
    metadata chunk (logical 1048576) holds the chunk, root, extent and file
    trees in sectors 4 to 7; a data chunk (logical 2097152) with two copies
    holds the extents of one file in sectors 8 and 10 and again in 12 and 14. *)

From S2P Require Import Prelude Text Bytes Ranges Xfs RangesFacts AggregateFacts ReaderFacts NativeGeometry Kernel Btrfs BtrfsFacts.

Local Open Scope string_scope.
Local Open Scope list_scope.
Local Open Scope Z_scope.

Definition key_bytes (k : Key) : bytes := le_digits 8 (key_objectid k) ++ [key_type k] ++ le_digits 8 (key_offset k).

(** A chunk with its stripes on device 1. *)
Definition chunk_bytes (length_ type : Z) (offsets : list Z) : bytes :=
  image_of (48 + 32 * py_len offsets) ([lefield 0 8 length_; lefield 16 8 65536; lefield 24 8 type; lefield 44 2 (py_len offsets)] ++
    concat (imap (fun i offset => [lefield (48 + 32 * Z.of_nat i) 8 1; lefield (56 + 32 * Z.of_nat i) 8 offset]) offsets)).

(** The items of a leaf, their data packed from the end of the item table. *)
Fixpoint leaf_fields (items : list TreeItem) (index count data : Z) : list (Z * bytes) :=
  match items with
  | [] => []
  | item :: rest =>
      let pos := 101 + 25 * index in
      [(pos, key_bytes (i_key item)); lefield (pos + 17) 4 (data - 101); lefield (pos + 21) 4 (py_len (i_data item)); (data, i_data item)] ++
      leaf_fields rest (index + 1) count (data + py_len (i_data item))
  end.

Definition leaf_bytes (logical : Z) (items : list TreeItem) : bytes :=
  image_of 4096 ([lefield 48 8 logical; lefield 96 4 (py_len items)] ++ leaf_fields items 0 (py_len items) (101 + 25 * py_len items)).

Definition META : Z := 1048576.
Definition DATA : Z := 2097152.

Definition meta_chunk : bytes := chunk_bytes 16384 2 [16384].
Definition data_chunk : bytes := chunk_bytes 12288 1 [32768; 49152].

Definition root_item (bytenr : Z) : bytes := image_of 239 [lefield 176 8 bytenr; lefield 216 4 1].
Definition file_extent (bytenr len : Z) : bytes := image_of 53 [lefield 20 1 1; lefield 21 8 bytenr; lefield 29 8 len; lefield 45 8 len].

Definition chunk_items : list TreeItem := [mkItem (mkKey 256 228 META) meta_chunk; mkItem (mkKey 256 228 DATA) data_chunk].
Definition root_items : list TreeItem := [mkItem (mkKey 2 132 0) (root_item (META + 8192)); mkItem (mkKey 5 132 0) (root_item (META + 12288))].
Definition extent_items : list TreeItem :=
  [mkItem (mkKey META 169 0) []; mkItem (mkKey (META + 4096) 169 0) []; mkItem (mkKey (META + 8192) 169 0) []; mkItem (mkKey (META + 12288) 169 0) [];
   mkItem (mkKey DATA 168 4096) []; mkItem (mkKey (DATA + 8192) 168 4096) []].
Definition file_items : list TreeItem :=
  [mkItem (mkKey 256 1 0) (image_of 56 [lefield 52 4 16877]); mkItem (mkKey 257 1 0) (image_of 56 [lefield 52 4 33188]);
   mkItem (mkKey 257 108 0) (file_extent DATA 4096); mkItem (mkKey 257 108 4096) (file_extent (DATA + 8192) 4096)].

Definition super_bytes : bytes :=
  image_of 4096 [(64, BTRFS_MAGIC); lefield 80 8 (META + 4096); lefield 88 8 META; lefield 112 8 98304; lefield 120 8 24576; lefield 136 8 1;
    lefield 144 4 4096; lefield 148 4 4096; lefield 160 4 97; lefield 201 8 1; (811, key_bytes (mkKey 256 228 META) ++ meta_chunk)].

Definition btrfs_image : bytes :=
  py_zeros 16384 ++ leaf_bytes META chunk_items ++ leaf_bytes (META + 4096) root_items ++ leaf_bytes (META + 8192) extent_items ++
  leaf_bytes (META + 12288) file_items ++ py_zeros 32768 ++ super_bytes ++ py_zeros 28672.

Definition btrfs_reader : reader := mkReader btrfs_image 98304.

(** The map in three cells of eight sectors. *)
Example btrfs_sample_map :
  match btrfs_map (Ok btrfs_reader) 3 with
  | Ok fm => map (fun c => (c_used c, c_free c, c_fragmented c)) (mr_cells (fm_map fm)) = [(4, 4, 0); (4, 4, 2); (1, 7, 0)] /\
      fm_files fm = Some (FileCounts 1 1 1 0 (100, 1))
  | Raise _ => False
  end.
Proof. vm_compute. split; reflexivity. Qed.

Lemma btrfs_map_exact_witness : exists fm, btrfs_map (Ok btrfs_reader) 3 = Ok fm /\
  exists (used : Z -> bool) bounds, py_len bounds = 3 /\ Forall2 (counted used (fun x => negb (used x))) bounds (mr_cells (fm_map fm)).
Proof.
  eexists. split; [vm_compute; reflexivity|].
  edestruct (btrfs_map_exact btrfs_reader 3) as (sb & s & m & n & tree & roots & items & n1 & n2 & used & bounds & Hsb & Hs & _ & _ & _ & _ & Hlen & Hcells & _);
    [vm_compute; reflexivity|].
  exists used, bounds. split; [|exact Hcells]. vm_compute in Hsb. injection Hsb as <-. vm_compute in Hs. injection Hs as <-. exact Hlen.
Defined.

Definition sample_chunks : list Chunk := [mkChunk META 16384 2 65536 [(1, 16384)]; mkChunk DATA 12288 1 65536 [(1, 32768); (1, 49152)]].
Definition sample_mapper : Mapper := mkMapper 1 98304 sample_chunks.

Lemma sample_mapper_init : Mapper_init sample_chunks 1 98304 = Ok sample_mapper.
Proof. vm_compute. reflexivity. Qed.

Lemma sample_chunks_positive : Forall (fun c => 0 < ch_length c) sample_chunks.
Proof. repeat constructor. Qed.

(** Both copies of an extent of the data chunk. *)
Lemma physical_ranges_exact_witness : physical_ranges sample_mapper (DATA + 8192) 4096 = Ok [(40960, 45056); (57344, 61440)] /\
  forall p, covers [(40960, 45056); (57344, 61440)] p <-> exists x c s, DATA + 8192 <= x < DATA + 8192 + 4096 /\ c ∈ sample_chunks /\
    ch_logical c <= x < chunk_end c /\ s ∈ ch_stripes c /\ s.1 = 1 /\ p = s.2 + (x - ch_logical c).
Proof.
  split; [vm_compute; reflexivity|].
  pose proof (physical_ranges_exact sample_chunks 1 98304 (DATA + 8192) 4096 sample_mapper sample_chunks_positive sample_mapper_init) as H.
  replace (physical_ranges sample_mapper (DATA + 8192) 4096) with (Ok [(40960, 45056); (57344, 61440)] : result (list range)) in H by (vm_compute; reflexivity). apply H.
Defined.

(** The extent tree read by recursion and by the walk. *)
Lemma walk_equals_recursion_witness : (walk btrfs_reader sample_mapper 4096 (META + 8192) 0 no_blocks).2 = Ok (extent_items, [META + 8192]).
Proof.
  apply (walk_equals_recursion btrfs_reader sample_mapper 4096 (META + 8192) 0); [lia| | |by apply NoDup_singleton|vm_compute; discriminate].
  - apply (Mapper_init_facts sample_chunks 1 98304 sample_mapper sample_chunks_positive sample_mapper_init).
  - vm_compute. reflexivity.
Defined.

(** An encoded extent of no bytes on the disk is not counted as malformed: the
    first of its physical ranges is asked for, of which there are none. *)
Lemma empty_encoded_extent_raises :
  scan_item sample_mapper (mkTreeScan [] [] 0) (mkItem (mkKey 257 108 0) (image_of 53 [lefield 16 1 1; lefield 20 1 1; lefield 21 8 DATA; lefield 45 8 4096])) =
  raise IndexError "index out of range".
Proof. vm_compute. reflexivity. Qed.
