(* ===== verification/BtrfsKernelFacts.v ===== *)
(** * The tree search delivers every item once

    Under the documented behaviour of the tree-search ioctl
    ([TreeSearchLaws]), an iteration over a tree visits exactly the items of
    the wanted types, in key order, whatever the sizes of the answers; so the
    map made through the kernel counts what the walk of the image counts. *)

From S2P Require Import Prelude Text Bytes Ranges Xfs RangesFacts AggregateFacts ReaderFacts NativeGeometry Kernel Btrfs BtrfsKernel BtrfsFacts.

Local Open Scope string_scope.
Local Open Scope list_scope.
Local Open Scope Z_scope.

(** ** Keys as numbers *)

Definition key_wf (k : Key) : Prop := 0 <= key_objectid k <= _U64_MAX /\ 0 <= key_type k <= 255 /\ 0 <= key_offset k <= _U64_MAX.

Definition key_num (k : Key) : Z := key_objectid k * 2 ^ 72 + key_type k * 2 ^ 64 + key_offset k.

Lemma key_ltb_num a b : key_wf a -> key_wf b -> key_ltb a b = true <-> key_num a < key_num b.
Proof.
  intros (? & ? & ?) (? & ? & ?). unfold key_ltb, key_num, _U64_MAX in *. split.
  - intros H'. apply orb_prop in H' as [H'|H']; [apply Z.ltb_lt in H'; lia|]. apply andb_prop in H' as [He H']. apply Z.eqb_eq in He.
    apply orb_prop in H' as [H'|H']; [apply Z.ltb_lt in H'; lia|]. apply andb_prop in H' as [He' H']. apply Z.eqb_eq in He'. apply Z.ltb_lt in H'. lia.
  - intros Hlt. destruct (Z.ltb_spec (key_objectid a) (key_objectid b)); [done|]. cbn [orb].
    destruct (Z.eqb_spec (key_objectid a) (key_objectid b)); [|lia]. cbn [andb]. destruct (Z.ltb_spec (key_type a) (key_type b)); [done|]. cbn [orb].
    destruct (Z.eqb_spec (key_type a) (key_type b)); [|lia]. cbn [andb]. apply Z.ltb_lt. lia.
Qed.

Lemma key_ltb_num_false a b : key_wf a -> key_wf b -> key_ltb a b = false <-> key_num b <= key_num a.
Proof. intros Ha Hb. rewrite <- not_true_iff_false, (key_ltb_num a b Ha Hb). lia. Qed.

(** The successor in the order of keys. *)
Lemma next_key_num k : key_wf k -> match _next_key k with
  | Some k' => key_wf k' /\ key_num k' = key_num k + 1
  | None => forall k', key_wf k' -> key_num k' <= key_num k
  end.
Proof.
  intros (H1 & H2 & H3). unfold _next_key, key_wf, key_num, _U64_MAX in *.
  destruct (Z.ltb_spec (key_offset k) (2 ^ 64 - 1)); [cbn; lia|]. destruct (Z.ltb_spec (key_type k) 255); [cbn; lia|].
  destruct (Z.ltb_spec (key_objectid k) (2 ^ 64 - 1)); [cbn; lia|]. intros k' (? & ? & ?). lia.
Qed.

(** ** The ioctl *)

Definition item_wf (i : TreeItem) : Prop := key_wf (i_key i) /\ py_len (i_data i) < 2 ^ 32.

(** An item with the transaction that wrote it, as an answer holds it. *)
Definition encode_item (p : Z * TreeItem) : bytes :=
  le_digits 8 p.1 ++ le_digits 8 (key_objectid (i_key p.2)) ++ le_digits 8 (key_offset (i_key p.2)) ++ le_digits 4 (key_type (i_key p.2)) ++
  le_digits 4 (py_len (i_data p.2)) ++ i_data p.2.

Definition in_range (current maximum : Key) (i : TreeItem) : Prop := key_num current <= key_num (i_key i) <= key_num maximum.

#[global] Instance in_range_dec current maximum i : Decision (in_range current maximum i).
Proof. unfold in_range. apply _. Defined.

(** [trees] is what the mounted file system's trees hold.  An answer holds the
    first items of the range, at least one if there is one; a call fails only
    to ask for a larger buffer, of at most 64 MiB. *)
Class TreeSearchLaws {K : Type} (b : btrfs_calls K) (trees : K -> Z -> list TreeItem) : Prop := mkSearchLaws {
  ts_sorted w t : StronglySorted (fun i j => key_num (i_key i) < key_num (i_key j)) (trees w t);
  ts_wf w t : Forall item_wf (trees w t);
  ts_quiet fd request size w : trees (b_tree_search b fd request size w).1 = trees w;
  ts_answer fd t current maximum size w w' request : b_tree_search b fd (search_request t current maximum size) size w = (w', (request, None)) ->
    key_wf current -> key_wf maximum ->
    exists header page rest padding, request = header ++ concat (map encode_item page) ++ padding /\ py_len header = _SEARCH_ARGS_V2_SIZE /\
      u32le request 64 = Ok (py_len page) /\ map snd page ++ rest = filter (in_range current maximum) (trees w t) /\ (page = [] -> rest = []);
  ts_overflow fd t current maximum size w w' request errno : b_tree_search b fd (search_request t current maximum size) size w = (w', (request, Some errno)) ->
    errno = "EOVERFLOW" /\ exists needed, u64le request _SEARCH_KEY_SIZE = Ok needed /\ size < needed <= 64 * 1024 * 1024
}.

(** ** Reading an answer *)

Lemma unpack_at n pre v post : 0 <= v < 256 ^ Z.of_nat n -> unpack_from le_int (Z.of_nat n) (pre ++ le_digits n v ++ post) (py_len pre) = Ok v.
Proof.
  intros Hv. pose proof (py_len_nonneg pre). pose proof (py_len_nonneg post). rewrite unpack_from_ok by (rewrite ?py_len_app, ?py_len_le_digits; lia).
  rewrite (py_slice_mid pre (le_digits n v) post) by (rewrite ?py_len_le_digits; lia). rewrite le_int_digits, Z.mod_small by done. done.
Qed.

Lemma page_item_at pre p post current : item_wf p.2 -> key_wf current -> key_num current <= key_num (i_key p.2) ->
  page_item (pre ++ encode_item p ++ post) current (py_len pre) = Ok (i_key p.2, py_len (i_data p.2)).
Proof.
  intros [Hw Hd] Hc Hle. destruct p as [tid [[objectid type offset] data]]. cbn [snd fst i_key i_data] in *. pose proof Hw as (H1 & H2 & H3). cbn in H1, H2, H3. unfold _U64_MAX in *.
  pose proof (py_len_nonneg data). pose proof (py_len_nonneg pre). pose proof (py_len_nonneg post). unfold page_item, encode_item, _SEARCH_HEADER_SIZE. cbn [snd fst i_key i_data key_objectid key_type key_offset].
  set (request := pre ++ (le_digits 8 tid ++ le_digits 8 objectid ++ le_digits 8 offset ++ le_digits 4 type ++ le_digits 4 (py_len data) ++ data) ++ post).
  assert (py_len request = py_len pre + 32 + py_len data + py_len post) as Hlen by (unfold request; rewrite !py_len_app, !py_len_le_digits; lia).
  rewrite (proj2 (Z.ltb_ge _ _)) by lia.
  assert (u64le request (py_len pre + 8) = Ok objectid) as ->.
  { replace request with ((pre ++ le_digits 8 tid) ++ le_digits 8 objectid ++ (le_digits 8 offset ++ le_digits 4 type ++ le_digits 4 (py_len data) ++ data) ++ post) by (unfold request; by rewrite <- !app_assoc).
    replace (py_len pre + 8) with (py_len (pre ++ le_digits 8 tid)) by (rewrite py_len_app, py_len_le_digits; lia). apply (unpack_at 8). lia. }
  cbn [mbind result_bind].
  assert (u64le request (py_len pre + 16) = Ok offset) as ->.
  { replace request with ((pre ++ le_digits 8 tid ++ le_digits 8 objectid) ++ le_digits 8 offset ++ (le_digits 4 type ++ le_digits 4 (py_len data) ++ data) ++ post) by (unfold request; by rewrite <- !app_assoc).
    replace (py_len pre + 16) with (py_len (pre ++ le_digits 8 tid ++ le_digits 8 objectid)) by (rewrite !py_len_app, !py_len_le_digits; lia). apply (unpack_at 8). lia. }
  cbn [mbind result_bind].
  assert (u32le request (py_len pre + 24) = Ok type) as ->.
  { replace request with ((pre ++ le_digits 8 tid ++ le_digits 8 objectid ++ le_digits 8 offset) ++ le_digits 4 type ++ (le_digits 4 (py_len data) ++ data) ++ post) by (unfold request; by rewrite <- !app_assoc).
    replace (py_len pre + 24) with (py_len (pre ++ le_digits 8 tid ++ le_digits 8 objectid ++ le_digits 8 offset)) by (rewrite !py_len_app, !py_len_le_digits; lia). apply (unpack_at 4). lia. }
  cbn [mbind result_bind].
  assert (u32le request (py_len pre + 28) = Ok (py_len data)) as ->.
  { replace request with ((pre ++ le_digits 8 tid ++ le_digits 8 objectid ++ le_digits 8 offset ++ le_digits 4 type) ++ le_digits 4 (py_len data) ++ data ++ post) by (unfold request; by rewrite <- !app_assoc).
    replace (py_len pre + 28) with (py_len (pre ++ le_digits 8 tid ++ le_digits 8 objectid ++ le_digits 8 offset ++ le_digits 4 type)) by (rewrite !py_len_app, !py_len_le_digits; lia). apply (unpack_at 4). lia. }
  cbn [mbind result_bind]. rewrite (proj2 (Z.ltb_ge _ _)) by lia. rewrite (proj2 (Z.ltb_ge _ _)) by lia.
  rewrite (proj2 (key_ltb_num_false _ _ Hw Hc)) by done. done.
Qed.

Section iteration.
Context {A : Type} (body : A -> TreeItem -> A * result unit) (wanted : list Z).

(** The consumer run over a list of items. *)
Fixpoint run (acc : A) (l : list TreeItem) : A * result unit :=
  match l with
  | [] => (acc, Ok tt)
  | i :: l => match body acc i with (acc, Ok _) => run acc l | (acc, Raise e) => (acc, Raise e) end
  end.

Definition wanted_items (l : list TreeItem) : list TreeItem := filter (fun i => key_type (i_key i) ∈ wanted) l.

Lemma run_app acc l k : run acc (l ++ k) = match run acc l with (acc, Ok _) => run acc k | (acc, Raise e) => (acc, Raise e) end.
Proof. revert acc. induction l as [|i l IH]; intros acc; [done|]. cbn [app run]. destruct (body acc i) as [acc' [|]]; [apply IH|done]. Qed.

Lemma wanted_app l k : wanted_items (l ++ k) = wanted_items l ++ wanted_items k.
Proof. apply filter_app. Qed.

Lemma page_loop_exact page : forall pre post current last s acc, key_wf current -> Forall item_wf (map snd page) ->
  Forall (fun i => key_num current <= key_num (i_key i)) (map snd page) ->
  exists s', ts_buffer_size s' = ts_buffer_size s /\
  page_loop body wanted (length page) current (pre ++ concat (map encode_item page) ++ post) (py_len pre) last s acc =
  (s', (run acc (wanted_items (map snd page))).1,
   match (run acc (wanted_items (map snd page))).2 with Ok _ => Ok (default last (Some ∘ i_key <$> list.last (map snd page))) | Raise e => Raise e end).
Proof.
  induction page as [|p page IH]; intros pre post current last s acc Hc Hw Hle; [by exists s|]. cbn [map] in Hw, Hle. apply Forall_cons in Hw as [Hw0 Hw], Hle as [Hle0 Hle].
  cbn [length page_loop map concat]. rewrite <- app_assoc, (page_item_at pre p _ current Hw0 Hc Hle0).
  assert (py_len pre + _SEARCH_HEADER_SIZE + py_len (i_data p.2) = py_len (pre ++ encode_item p)) as Hpos.
  { unfold encode_item, _SEARCH_HEADER_SIZE. rewrite !py_len_app, !py_len_le_digits. lia. }
  assert (py_slice (pre ++ encode_item p ++ concat (map encode_item page) ++ post) (py_len pre + _SEARCH_HEADER_SIZE) (py_len pre + _SEARCH_HEADER_SIZE + py_len (i_data p.2)) = i_data p.2) as ->.
  { unfold encode_item. set (h := le_digits 8 p.1 ++ le_digits 8 (key_objectid (i_key p.2)) ++ le_digits 8 (key_offset (i_key p.2)) ++ le_digits 4 (key_type (i_key p.2)) ++ le_digits 4 (py_len (i_data p.2))).
    replace (pre ++ _ ++ concat (map encode_item page) ++ post) with ((pre ++ h) ++ i_data p.2 ++ concat (map encode_item page) ++ post) by (unfold h; by rewrite <- !app_assoc).
    apply py_slice_mid; [|done]. unfold h, _SEARCH_HEADER_SIZE. rewrite !py_len_app, !py_len_le_digits. lia. }
  rewrite Hpos, (app_assoc pre). replace (mkItem (i_key p.2) (i_data p.2)) with p.2 by (by destruct p as [? []]).
  assert (forall q, default (Some (i_key p.2)) (Some ∘ i_key <$> list.last (map snd page)) = default q (Some ∘ i_key <$> list.last (p.2 :: map snd page))) as Hlast.
  { intros q. clear. destruct (map snd page) as [|i l] using rev_ind; [done|]. rewrite app_comm_cons, !last_snoc. done. }
  unfold wanted_items. rewrite filter_cons. case_bool_decide as Hin.
  - rewrite decide_True by done. cbn [run]. destruct (body acc p.2) as [acc' [[]|e]]; [|by eexists (count_item _ s)].
    destruct (IH (pre ++ encode_item p) post current (Some (i_key p.2)) (count_item (py_len (i_data p.2)) s) acc' Hc Hw Hle) as (s' & Hs' & ->).
    exists s'. split; [done|]. unfold wanted_items. by rewrite (Hlast last).
  - rewrite decide_False by done.
    destruct (IH (pre ++ encode_item p) post current (Some (i_key p.2)) (count_filtered (count_item (py_len (i_data p.2)) s)) acc Hc Hw Hle) as (s' & Hs' & ->).
    exists s'. split; [done|]. unfold wanted_items. by rewrite (Hlast last).
Qed.

Context {K : Type} (b : btrfs_calls K) (trees : K -> Z -> list TreeItem) {Laws : TreeSearchLaws b trees}.

Definition rest_of (w : K) (t : Z) (current maximum : Key) : list TreeItem := filter (in_range current maximum) (trees w t).

Lemma rest_of_empty w t current maximum : key_num maximum < key_num current -> rest_of w t current maximum = [].
Proof. intros H. unfold rest_of. apply elem_of_nil_inv. intros i [[? ?] _]%list_elem_of_filter. lia. Qed.

Definition key_lt (i j : TreeItem) : Prop := key_num (i_key i) < key_num (i_key j).

Lemma rest_of_sorted w t current maximum : StronglySorted key_lt (rest_of w t current maximum).
Proof.
  pose proof (ts_sorted w t) as Hs. unfold rest_of. induction Hs as [|i l Hs IH Hi]; [constructor|]. rewrite filter_cons. destruct (decide _); [|done].
  constructor; [done|]. apply Forall_forall. intros j [_ Hj]%list_elem_of_filter. rewrite Forall_forall in Hi. by apply Hi.
Qed.

(** The range after the last key of an answer is what the answer left out. *)
Lemma rest_of_next w t current maximum page rest k x : page ++ rest = rest_of w t current maximum -> list.last page = Some x -> key_num k = key_num (i_key x) + 1 ->
  rest_of w t k maximum = rest.
Proof.
  intros Hp Hx Hk. pose proof (rest_of_sorted w t current maximum) as Hs. rewrite <- Hp in Hs.
  assert (rest_of w t k maximum = filter (fun i => key_num k <= key_num (i_key i)) (page ++ rest)) as ->.
  { rewrite Hp. unfold rest_of. rewrite list_filter_filter. apply list_filter_iff. intros i. unfold in_range. assert (key_num current <= key_num (i_key x)); [|lia].
    apply last_Some_elem_of in Hx. assert (x ∈ rest_of w t current maximum) as Hin by (rewrite <- Hp; set_solver). apply list_elem_of_filter in Hin as [[? _] _]. done. }
  pose proof (last_Some_elem_of _ _ Hx) as Hxin. apply last_Some in Hx as (pre & ->). rewrite filter_app. clear Hp.
  assert (filter (fun i => key_num k <= key_num (i_key i)) (pre ++ [x]) = []) as ->.
  { apply elem_of_nil_inv. intros i [Hi Hin]%list_elem_of_filter. apply elem_of_app in Hin as [Hin| ->%list_elem_of_singleton]; [|lia].
    apply StronglySorted_app_1_l in Hs. pose proof (StronglySorted_app_1_elem_of _ _ _ i x Hs Hin ltac:(by left)) as H. unfold key_lt in H. lia. }
  apply filter_all, Forall_forall. intros i Hi. pose proof (StronglySorted_app_1_elem_of _ _ _ x i Hs Hxin Hi) as H. unfold key_lt in H. lia.
Qed.

Lemma search_loop_exact fd t maximum fuel : forall current acc w s, key_wf current -> key_wf maximum ->
  (length (rest_of w t current maximum) + Z.to_nat (64 * 1024 * 1024 - ts_buffer_size s) < fuel)%nat ->
  exists w' s', trees w' = trees w /\
    search_loop b body wanted fuel fd t current maximum acc (w, s) = (w', s', run acc (wanted_items (rest_of w t current maximum))).
Proof.
  induction fuel as [|fuel IH]; intros current acc w s Hc Hmax Hf; [lia|]. cbn [search_loop]. destruct (key_ltb maximum current) eqn:Hlt.
  { apply (key_ltb_num _ _ Hmax Hc) in Hlt. rewrite rest_of_empty by done. by exists w, s. }
  pose proof (ts_quiet fd (search_request t current maximum (ts_buffer_size s)) (ts_buffer_size s) w) as Hq.
  destruct (b_tree_search b fd _ _ w) as [w1 [request [errno|]]] eqn:Hcall; cbn [fst] in Hq.
  - destruct (ts_overflow _ _ _ _ _ _ _ _ _ Hcall) as (-> & needed & Hn & Hb). rewrite bool_decide_true by done. rewrite Hn.
    rewrite (proj2 (Z.leb_gt _ _)), (proj2 (Z.ltb_ge _ _)) by lia. cbn [orb]. assert (rest_of w1 t current maximum = rest_of w t current maximum) as Hr by (unfold rest_of; by rewrite Hq).
    destruct (IH current acc w1 (set_buffer needed s) Hc Hmax) as (w' & s' & Hw' & ->); [rewrite Hr; cbn [set_buffer ts_buffer_size]; lia|].
    exists w', s'. split; [congruence|by rewrite Hr].
  - destruct (ts_answer _ _ _ _ _ _ _ _ Hcall Hc Hmax) as (header & page & rest & padding & -> & Hh & Hn & Hp & Hempty). rewrite Hn.
    destruct (Z.eqb_spec (py_len page) 0) as [H0|H0].
    { assert (page = []) as -> by (destruct page; [done|rewrite py_len_cons in H0; pose proof (py_len_nonneg page); lia]). cbn [map app] in Hp. rewrite (Hempty eq_refl) in Hp.
      unfold rest_of. rewrite <- Hp. by exists w1, (count_call s). }
    assert (forall i, i ∈ map snd page -> in_range current maximum i /\ item_wf i) as Hin.
    { intros i Hi. assert (i ∈ filter (in_range current maximum) (trees w t)) as Hit by (rewrite <- Hp; set_solver). apply list_elem_of_filter in Hit as [? Hit]. split; [done|].
      pose proof (ts_wf w t) as Hwf. rewrite Forall_forall in Hwf. by apply Hwf. }
    destruct (page_loop_exact page header padding current None (count_call s) acc Hc) as (s1 & Hs1 & Hpage); [apply Forall_forall; intros i Hi; by apply Hin|apply Forall_forall; intros i Hi; destruct (Hin i Hi) as [[? _] _]; done|].
    unfold py_len at 1. rewrite Nat2Z.id. rewrite Hh in Hpage. rewrite Hpage. unfold rest_of at 1. rewrite <- Hp, wanted_app, run_app.
    destruct (run acc (wanted_items (map snd page))) as [acc1 [[]|e]]; cbn [fst snd]; [|by exists w1, s1].
    destruct page as [|p page]; [done|]. destruct (list.last (map snd (p :: page))) as [x|] eqn:Hx; [|by apply last_None in Hx].
    cbn [fmap option_fmap option_map default mbind option_bind compose]. assert (x ∈ map snd (p :: page)) as Hxin by by apply last_Some_elem_of.
    destruct (Hin x Hxin) as [[? Hxm] [Hxw _]]. pose proof (next_key_num (i_key x) Hxw) as Hnext. change (id (Some (i_key x)) ≫= _next_key) with (_next_key (i_key x)). destruct (_next_key (i_key x)) as [k|].
    + destruct Hnext as [Hk1 Hk2]. pose proof (rest_of_next w t current maximum (map snd (p :: page)) rest k x Hp Hx Hk2) as Hr.
      assert (rest_of w1 t k maximum = rest) as Hr1 by (rewrite <- Hr; unfold rest_of; by rewrite Hq).
      destruct (IH k acc1 w1 s1 Hk1 Hmax) as (w' & s' & Hw' & ->).
      { rewrite Hr1, Hs1. cbn [count_call ts_buffer_size]. apply (f_equal length) in Hp. rewrite length_app in Hp. unfold rest_of in Hf. rewrite <- Hp in Hf. cbn [length map] in Hf. lia. }
      exists w', s'. split; [congruence|by rewrite Hr1].
    + exists w1, s1. split; [done|]. f_equal. destruct rest as [|y rest]; [done|]. exfalso.
      assert (y ∈ filter (in_range current maximum) (trees w t)) as Hy by (rewrite <- Hp; set_solver). apply list_elem_of_filter in Hy as [_ Hy].
      pose proof (ts_wf w t) as Hwf. rewrite Forall_forall in Hwf. destruct (Hwf y Hy) as [Hyw _]. specialize (Hnext _ Hyw).
      pose proof (rest_of_sorted w t current maximum) as Hs. unfold rest_of in Hs. rewrite <- Hp in Hs.
      pose proof (StronglySorted_app_1_elem_of _ _ _ x y Hs Hxin ltac:(by left)) as H1. unfold key_lt in H1. lia.
Qed.

Lemma fold_min_le l : forall a x, x = a \/ x ∈ l -> fold_left Z.min l a <= x.
Proof.
  induction l as [|y l IH]; intros a x H; cbn [fold_left]; [destruct H as [->|?%elem_of_nil]; [lia|done]|].
  destruct H as [->|[->|H]%elem_of_cons]; [etransitivity; [by apply IH; left|lia]|etransitivity; [by apply IH; left|lia]|by apply IH; right].
Qed.

Lemma fold_max_ge l : forall a x, x = a \/ x ∈ l -> x <= fold_left Z.max l a.
Proof.
  induction l as [|y l IH]; intros a x H; cbn [fold_left]; [destruct H as [->|?%elem_of_nil]; [lia|done]|].
  destruct H as [->|[->|H]%elem_of_cons]; [etransitivity; [|by apply IH; left]; lia|etransitivity; [|by apply IH; left]; lia|by apply IH; right].
Qed.

Lemma fold_minmax_byte (f : Z -> Z -> Z) l : (forall a b, 0 <= a <= 255 -> 0 <= b <= 255 -> 0 <= f a b <= 255) -> forall a, 0 <= a <= 255 -> Forall (fun v => 0 <= v <= 255) l -> 0 <= fold_left f l a <= 255.
Proof. intros Hf. induction l as [|x l IH]; intros a Ha Hl; [done|]. apply Forall_cons in Hl as [? Hl]. cbn [fold_left]. apply IH; auto. Qed.

Lemma items_of_types_run rounds fd t acc w s : wanted <> [] -> Forall (fun v => 0 <= v <= 255) wanted ->
  (length (trees w t) + Z.to_nat (64 * 1024 * 1024) < rounds)%nat -> 0 <= ts_buffer_size s ->
  exists w' s', trees w' = trees w /\ items_of_types b rounds body wanted fd t acc (w, s) = (w', s', run acc (wanted_items (trees w t))).
Proof.
  intros Hne Hv Hr Hs. unfold items_of_types. destruct wanted as [|v rest] eqn:Hwant; [done|]. rewrite <- Hwant in *. clear Hne.
  destruct (existsb _ wanted) eqn:E.
  { apply existsb_exists in E as (x & Hx%list_elem_of_In & Hb). rewrite Forall_forall in Hv. specialize (Hv x Hx). apply orb_prop in Hb as [Hb|Hb]; apply Z.ltb_lt in Hb; lia. }
  pose proof Hv as Hv'. rewrite Hwant in Hv'. apply Forall_cons in Hv' as [Hv0 Hvr].
  pose proof (fold_minmax_byte Z.min rest ltac:(lia) v Hv0 Hvr). pose proof (fold_minmax_byte Z.max rest ltac:(lia) v Hv0 Hvr).
  set (lo := mkKey 0 (fold_left Z.min rest v) 0). set (hi := mkKey _U64_MAX (fold_left Z.max rest v) _U64_MAX).
  assert (key_wf lo /\ key_wf hi) as [Hlo Hhi] by (unfold key_wf, lo, hi, _U64_MAX; cbn; lia).
  assert (wanted_items (rest_of w t lo hi) = wanted_items (trees w t)) as Hall.
  { unfold wanted_items, rest_of. rewrite list_filter_filter. pose proof (ts_wf w t) as Hwf. clear Hr. revert Hwf. generalize (trees w t) as l. intros l Hwf.
    induction Hwf as [|i l [(? & ? & ?) _] _ IH]; [done|]. rewrite !filter_cons. destruct (decide (key_type (i_key i) ∈ wanted)) as [Hin|Hno].
    - rewrite decide_True; [by f_equal|]. split; [done|]. rewrite Hwant in Hin. apply elem_of_cons in Hin. pose proof (fold_min_le rest v (key_type (i_key i)) Hin).
      pose proof (fold_max_ge rest v (key_type (i_key i)) Hin). unfold in_range, key_num, lo, hi, _U64_MAX in *. cbn [key_objectid key_type key_offset]. lia.
    - rewrite decide_False by tauto. done. }
  destruct (search_loop_exact fd t hi rounds lo acc w s Hlo Hhi) as (w' & s' & Hw' & Hrun).
  { assert (length (rest_of w t lo hi) <= length (trees w t))%nat by (apply length_filter). lia. }
  exists w', s'. split; [done|]. rewrite Hrun, Hall. done.
Qed.
End iteration.

(** C25. Iterating over a tree with the search ioctl ends, and runs the consumer
    on every item of the wanted types exactly once and in the order of the keys,
    until it raises, however the kernel cuts the answers and whatever buffers it
    asks for: paging with [_next_key] skips no item and repeats none. *)
Theorem items_of_types_exact {K A : Type} (b : btrfs_calls K) (trees : K -> Z -> list TreeItem) (body : A -> TreeItem -> A * result unit)
    (wanted : list Z) (rounds : nat) (fd t buffer_size : Z) (acc : A) (w : K) (Laws : TreeSearchLaws b trees) (Hne : wanted <> []) (Hwanted : Forall (fun v => 0 <= v <= 255) wanted)
    (Hrounds : (length (trees w t) + Z.to_nat (64 * 1024 * 1024) < rounds)%nat) :
  exists w' s', trees w' = trees w /\
    items_of_types b rounds body wanted fd t acc (w, new_search buffer_size) = (w', s', run body acc (filter (fun i => key_type (i_key i) ∈ wanted) (trees w t))).
Proof. apply (items_of_types_run body wanted b trees rounds fd t acc w _ Hne Hwanted Hrounds). cbn [new_search ts_buffer_size]. lia. Qed.

(** ** The two maps agree *)

Lemma covers_above r rs x : separated (r :: rs) -> covers rs x -> r.2 < x.
Proof.
  intros (_ & Hr & _)%separated_cons (q & Hq & Hx)%Exists_exists. rewrite Forall_forall in Hr. specialize (Hr q Hq). cbn in *. lia.
Qed.

(** Separated ranges are determined by what they cover. *)
Lemma separated_unique a : forall b, separated a -> separated b -> same_cover a b -> a = b.
Proof.
  induction a as [|r a IH]; intros [|q b] Ha Hb Hc; [done|..].
  - destruct (covers_nil q.1). apply Hc, covers_cons. left. apply separated_cons in Hb as (? & _). lia.
  - destruct (covers_nil r.1). apply Hc, covers_cons. left. apply separated_cons in Ha as (? & _). lia.
  - pose proof (fun x => covers_above r a x Ha) as Hra. pose proof (fun x => covers_above q b x Hb) as Hqb. pose proof Ha as (Hr & _ & Ha')%separated_cons. pose proof Hb as (Hq & _ & Hb')%separated_cons.
    assert (forall x, (r.1 <= x < r.2 \/ covers a x) <-> (q.1 <= x < q.2 \/ covers b x)) as Hx by (intros x; rewrite <- !covers_cons; apply Hc).
    assert (r.1 = q.1 /\ r.2 = q.2) as [H1 H2].
    { assert (r.1 = q.1) as E.
      { destruct (proj1 (Hx r.1) ltac:(left; lia)) as [?|H]; destruct (proj2 (Hx q.1) ltac:(left; lia)) as [?|H']; try lia;
        repeat match goal with H : covers a _ |- _ => apply Hra in H | H : covers b _ |- _ => apply Hqb in H end; lia. }
      split; [done|]. destruct (Z.lt_trichotomy r.2 q.2) as [Hlt|[?|Hlt]]; [|done|].
      - destruct (proj2 (Hx r.2) ltac:(left; lia)) as [?|H%Hra]; lia.
      - destruct (proj1 (Hx q.2) ltac:(left; lia)) as [?|H%Hqb]; lia. }
    destruct r as [r1 r2], q as [q1 q2]. cbn in *. subst q1 q2. f_equal. apply IH; [done..|]. intros x. specialize (Hx x). split; intros H.
    + pose proof (Hra _ H). destruct (proj1 Hx ltac:(by right)); [lia|done].
    + pose proof (Hqb _ H). destruct (proj2 Hx ltac:(by right)); [lia|done].
Qed.

Lemma sectors_same ss size a b : 0 < ss -> device_ranges size a -> device_ranges size b -> same_cover a b -> sectors ss a = sectors ss b.
Proof.
  intros Hss Ha Hb Hc. apply separated_unique; [apply merge_ranges_facts..|]. intros x. rewrite !(sectors_covers ss size) by done. by setoid_rewrite Hc.
Qed.

(** Only the details of a space map depend on the details. *)
Lemma space_map_same total_bytes ss cells a b da db ra rb : sectors ss a = sectors ss b -> space_map total_bytes ss cells a da = Ok ra -> space_map total_bytes ss cells b db = Ok rb ->
  mr_cells ra = mr_cells rb /\ mr_free_bytes ra = mr_free_bytes rb /\ mr_used_bytes ra = mr_used_bytes rb.
Proof.
  intros Hs Ha Hb. unfold space_map in *. rewrite Hs in Ha. destruct (complement_ranges _ _) as [free|]; [|done]. cbn [mbind result_bind] in *.
  unfold aggregate_ranges in *. destruct (normalise_state_ranges _ _) as [ordered|]; [|done]. cbn [mbind result_bind] in *.
  destruct (ranges_cells _ _ _) as [? ?]. injection Ha as <-. injection Hb as <-. done.
Qed.

Section agreement.
Context {K : Type} (b : btrfs_calls K) (trees : K -> Z -> list TreeItem) (rounds : nat) {Laws : TreeSearchLaws b trees}.

Lemma run_consume {A} (f : A -> TreeItem -> result A) l : forall acc, match run (consume f) acc l with (acc', Ok _) => Ok acc' | (_, Raise e) => Raise e end = foldM f acc l.
Proof. induction l as [|i l IH]; intros acc; [done|]. cbn [run foldM]. unfold consume at 1. destruct (f acc i); cbn [mbind result_bind]; [apply IH|done]. Qed.

Lemma search_items_run {A} (f : A -> TreeItem -> result A) types fd t acc w s : types <> [] -> Forall (fun v => 0 <= v <= 255) types ->
  (length (trees w t) + Z.to_nat (64 * 1024 * 1024) < rounds)%nat -> 0 <= ts_buffer_size s ->
  exists w' s', trees w' = trees w /\ search_items b rounds (consume f) types fd t acc (w, s) = ((w', s'), foldM f acc (filter (fun i => key_type (i_key i) ∈ types) (trees w t))).
Proof.
  intros Hne Hv Hr Hs. destruct (items_of_types_run (consume f) types b trees rounds fd t acc w s Hne Hv Hr Hs) as (w' & s' & Hw & E). exists w', s'. split; [done|].
  unfold search_items. rewrite E, <- run_consume. unfold wanted_items. by destruct (run _ _ _) as [? [|]].
Qed.

Lemma collect_all l : forall acc, foldM collect acc l = Ok (acc ++ l).
Proof. induction l as [|i l IH]; intros acc; cbn [foldM collect mbind result_bind]; [by rewrite app_nil_r|]. by rewrite IH, <- app_assoc. Qed.

(** The buffer of a search stays as large as it is. *)
Lemma search_loop_buffer {A} (body : A -> TreeItem -> A * result unit) wanted fd t maximum fuel : forall current acc w s, 0 <= ts_buffer_size s ->
  0 <= ts_buffer_size (search_loop b body wanted fuel fd t current maximum acc (w, s)).1.2.
Proof.
  assert (forall n current request position last s acc, ts_buffer_size (page_loop body wanted n current request position last s acc).1.1 = ts_buffer_size s) as Hpage.
  { induction n as [|n IH]; intros current request position last s acc; [done|]. cbn [page_loop]. destruct (page_item _ _ _) as [[key len]|]; [|done].
    case_bool_decide; [|by rewrite IH]. destruct (body _ _) as [? [|]]; [by rewrite IH|done]. }
  induction fuel as [|fuel IH]; intros current acc w s Hs; cbn [search_loop]; (destruct (key_ltb _ _); [done|]); [done|].
  destruct (b_tree_search _ _ _ _ _) as [w1 [request [errno|]]].
  - case_bool_decide; [|done]. destruct (u64le _ _) as [needed|]; [|done]. destruct (Z.leb_spec needed (ts_buffer_size s)); [done|]. cbn [orb]. destruct (_ <? needed); [done|]. apply IH. cbn. lia.
  - destruct (u32le _ _) as [nr|]; [|done]. destruct (nr =? 0); [done|]. pose proof (Hpage (Z.to_nat nr) current request _SEARCH_ARGS_V2_SIZE None (count_call s) acc) as Hp.
    destruct (page_loop _ _ _ _ _ _ _ _ _) as [[s1 acc1] [last|]]; cbn [fst] in Hp; [|cbn; by rewrite Hp]. destruct (last ≫= _next_key); [apply IH|cbn]; by rewrite Hp.
Qed.

Lemma search_items_buffer {A} (body : A -> TreeItem -> A * result unit) types fd t acc w s : 0 <= ts_buffer_size s -> 0 <= ts_buffer_size (search_items b rounds body types fd t acc (w, s)).1.2.
Proof.
  intros Hs. unfold search_items, items_of_types. destruct types as [|v rest]; [done|]. destruct (existsb _ _); [done|].
  pose proof (search_loop_buffer body (v :: rest) fd t (mkKey _U64_MAX (fold_left Z.max rest v) _U64_MAX) rounds (mkKey 0 (fold_left Z.min rest v) 0) acc w s Hs) as H.
  destruct (search_loop _ _ _ _ _ _ _ _ _ _) as [[? ?] [? [|]]]; exact H.
Qed.

(** What the kernel's map is made of. *)
Lemma kernel_trees_facts s cells fd w search ws mr scanned : (forall t, length (trees w t) + Z.to_nat (64 * 1024 * 1024) < rounds)%nat -> 0 <= ts_buffer_size search ->
  kernel_trees b rounds s cells fd (w, search) = (ws, Ok (mr, scanned)) ->
  exists chunks m used, mapM_result (fun item => _parse_chunk (i_data item) (key_offset (i_key item))) (filter (fun i => key_type (i_key i) ∈ [_CHUNK_ITEM]) (trees w 3)) = Ok chunks /\
    Mapper_init chunks (sb_devid s) (sb_total_bytes s) = Ok m /\
    foldM (add_extent m (sb_nodesize s)) [] (filter (fun i => key_type (i_key i) ∈ [_EXTENT_ITEM; _METADATA_ITEM]) (trees w _EXTENT_TREE_OBJECTID)) = Ok used /\
    space_map (sb_total_bytes s) (sb_sectorsize s) cells (used ++ superblock_mirrors (sb_total_bytes s)) (kernel_details s m) = Ok mr.
Proof.
  intros Hr Hs H. unfold kernel_trees in H. unfold kbind at 1 in H.
  destruct (search_items_run collect [_CHUNK_ITEM] fd 3 [] w search) as (w1 & s1 & Hw1 & E); [done|by repeat constructor|apply Hr|done|].
  pose proof (search_items_buffer (consume collect) [_CHUNK_ITEM] fd 3 [] w search Hs) as Hs1. rewrite E in H, Hs1. cbn [fst snd] in Hs1. rewrite collect_all in H. cbn [app] in H.
  unfold kbind at 1, klift at 1 in H. destruct (mapM_result _ (filter _ (trees w 3))) as [chunks|] eqn:Hch; [|done]. unfold kbind at 1, klift at 1 in H.
  destruct (Mapper_init chunks _ _) as [m|] eqn:Hm; [|done]. unfold kbind at 1 in H. clear E.
  destruct (search_items_run collect [_ROOT_ITEM] fd 1 [] w1 s1) as (w2 & s2 & Hw2 & E); [done|by repeat constructor|rewrite Hw1; apply Hr|done|].
  pose proof (search_items_buffer (consume collect) [_ROOT_ITEM] fd 1 [] w1 s1 Hs1) as Hs2. rewrite E in H, Hs2. cbn [fst snd] in Hs2. rewrite collect_all in H.
  unfold kbind at 1, klift at 1 in H. destruct (_root_records _) as [roots|]; [|done]. unfold kbind at 1 in H. clear E.
  destruct (search_items_run (add_extent m (sb_nodesize s)) [_EXTENT_ITEM; _METADATA_ITEM] fd _EXTENT_TREE_OBJECTID [] w2 s2) as (w3 & s3 & Hw3 & E);
    [done|by repeat constructor|rewrite Hw2, Hw1; apply Hr|done|]. rewrite E in H. rewrite Hw2, Hw1 in H. clear E.
  destruct (foldM (add_extent m (sb_nodesize s)) [] _) as [used|] eqn:Hu; [|done]. destruct (sb_sectorsize s =? 0); [done|]. unfold kbind at 1, klift at 1 in H.
  destruct (space_map _ _ _ _ _) as [mr'|] eqn:Hmr; [|done]. unfold kbind at 1 in H. destruct (_kernel_scan_filesystem_trees _ _ _ _ _ _) as [? [sc|]]; [|done]. injection H as _ <- _.
  by exists chunks, m, used.
Qed.

End agreement.

Lemma located_same m m' : m_devid m = m_devid m' -> (forall c, c ∈ m_chunks m <-> c ∈ m_chunks m') -> forall x p, located m x p <-> located m' x p.
Proof. intros Hd Hc x p. unfold located. rewrite Hd. by setoid_rewrite Hc. Qed.

Lemma mapM_elem {A B} (f : A -> result B) l k y : mapM_result f l = Ok k -> y ∈ k <-> exists x, x ∈ l /\ f x = Ok y.
Proof.
  intros H%mapM_result_Forall2. induction H as [|x z l k Hx _ IH]; [split; [by intros ?%elem_of_nil|by intros (? & ?%elem_of_nil & _)]|].
  rewrite elem_of_cons, IH. split.
  - intros [->|(x' & ? & ?)]; [exists x; split; [by left|done]|exists x'; split; [by right|done]].
  - intros (x' & [->|?]%elem_of_cons & Hy); [left; congruence|right; by exists x'].
Qed.

(** C24. The two ways of reading a Btrfs volume agree: if the trees the kernel
    shows hold the chunk items of the image's mapper and the extent items of
    its extent tree, then the map made through the mounted file system has the
    same cells, each with the same numbers of used and free sectors, as the map
    made by walking the image. *)
Theorem kernel_map_agrees {K : Type} (b : btrfs_calls K) (trees : K -> Z -> list TreeItem) (rounds : nat) (r : reader) (cells fd buffer_size n roots_scanned n1 n2 : Z)
    (sb : bytes) (s : superblock) (m : Mapper) (tree : tree_state) (roots : list (Z * (Z * Z * Z))) (items : list TreeItem) (fm : files_map) (mr : map_result) (u : summary)
    (w : K) (ws : K * KernelTreeSearch) (Laws : TreeSearchLaws b trees)
    (Hrounds : forall t, (length (trees w t) + Z.to_nat (64 * 1024 * 1024) < rounds)%nat)
    (Hmap : btrfs_map (Ok r) cells = Ok fm) (Hread : reader_read r BTRFS_SUPER_OFFSET BTRFS_SUPER_SIZE = Ok sb) (Hsuper : read_superblock sb = Ok s)
    (Hmapper : read_mapper r sb s = Ok (m, n)) (Htrees : read_trees r m s no_blocks = (tree, Ok (roots, items, n1, n2)))
    (Hchunks : forall c, c ∈ m_chunks m <-> exists i, i ∈ trees w 3 /\ key_type (i_key i) = _CHUNK_ITEM /\ _parse_chunk (i_data i) (key_offset (i_key i)) = Ok c)
    (Hextents : forall i, key_type (i_key i) ∈ [_EXTENT_ITEM; _METADATA_ITEM] -> i ∈ items <-> i ∈ trees w _EXTENT_TREE_OBJECTID)
    (Hkernel : kernel_trees b rounds s cells fd (w, new_search buffer_size) = (ws, Ok (mr, (u, roots_scanned)))) :
  let kernel := fm_map (kernel_finish mr (sb_sectorsize s) (u, roots_scanned) ws.2) in
  Forall2 same_counts (mr_cells (fm_map fm)) (mr_cells kernel) /\ mr_free_bytes kernel = mr_free_bytes (fm_map fm) /\ mr_used_bytes kernel = mr_used_bytes (fm_map fm).
Proof.
  assert (0 <= ts_buffer_size (new_search buffer_size)) as Hbuf by (cbn; lia).
  destruct (kernel_trees_facts b trees rounds s cells fd w _ ws mr _ Hrounds Hbuf Hkernel) as (chunks & m' & used' & Hch & Hm' & Hu' & Hmr). clear Hkernel.
  unfold btrfs_map in Hmap. cbn [mbind result_bind] in Hmap. rewrite Hread in Hmap. cbn [mbind result_bind] in Hmap. destruct (negb _) in Hmap; [done|].
  rewrite Hsuper in Hmap. cbn [mbind result_bind] in Hmap. apply bind_ok in Hmap as ([] & Hck & Hmap). rewrite Hmapper in Hmap. cbn [mbind result_bind] in Hmap. rewrite Htrees in Hmap.
  apply bind_ok in Hmap as (used & Hu & Hmap). apply bind_ok in Hmap as (mo & Hmo & Hmap). destruct (finish_map_cells _ _ _ _ Hmap) as (Hsame & Ef & Eu).
  destruct (read_mapper_facts _ _ _ _ _ Hmapper) as (Hm & Hd & Hsize). assert (4096 <= sb_sectorsize s /\ 0 < sb_total_bytes s) as [Hss Htot] by (unfold check_superblock in Hck; inv_ok; bool_to_prop; lia).
  assert (Forall (fun c => 0 < ch_length c) chunks) as Hpos.
  { apply mapM_result_Forall2 in Hch. clear - Hch. induction Hch as [|i c l k Hc _ IH]; constructor; [by eapply parse_chunk_positive|done]. }
  destruct (Mapper_init_facts _ _ _ _ Hpos Hm') as (Hmok' & Hd' & Hsize' & Hin').
  assert (forall c, c ∈ m_chunks m <-> c ∈ m_chunks m') as Hcs.
  { intros c. rewrite Hin', Hchunks, (mapM_elem _ _ _ c Hch). setoid_rewrite list_elem_of_filter. setoid_rewrite list_elem_of_singleton. split; intros (i & ? & ?); exists i; tauto. }
  pose proof (located_same m m' (eq_trans Hd (eq_sym Hd')) Hcs) as Hloc.
  unfold used_ranges in Hu. apply bind_ok in Hu as (used0 & Hu & Hu2). injection Hu2 as <-.
  destruct (extents_facts m (sb_nodesize s) items [] used0 Hm (Forall_nil_2 _) Hu) as (Hd0 & Hc0). rewrite Hsize in Hd0.
  destruct (extents_facts m' (sb_nodesize s) _ [] used' Hmok' (Forall_nil_2 _) Hu') as (Hd1 & Hc1). rewrite Hsize' in Hd1.
  pose proof (mirrors_on_device (sb_total_bytes s)) as Hmir.
  assert (sectors (sb_sectorsize s) (used0 ++ superblock_mirrors (sb_total_bytes s)) = sectors (sb_sectorsize s) (used' ++ superblock_mirrors (sb_total_bytes s))) as Hsec.
  { apply (sectors_same _ (sb_total_bytes s)); [lia|by apply Forall_app_2|by apply Forall_app_2|]. intros p. rewrite !covers_app, Hc0, Hc1. unfold holds. setoid_rewrite Hloc.
    assert (forall i, key_type (i_key i) ∉ [_EXTENT_ITEM; _METADATA_ITEM] -> item_length (sb_nodesize s) i = 0) as Hzero.
    { intros i Hi. unfold item_length. rewrite !not_elem_of_cons in Hi. destruct Hi as (H1 & H2 & _). by rewrite (proj2 (Z.eqb_neq _ _) H1), (proj2 (Z.eqb_neq _ _) H2). }
    setoid_rewrite list_elem_of_filter. split.
    - intros [[?|(i & Hi & Ho & x & Hx & Hl)]|?]; [by left; left| |by right]. left. right. exists i.
      destruct (decide (key_type (i_key i) ∈ [_EXTENT_ITEM; _METADATA_ITEM])) as [Ht|Ht]; [|rewrite (Hzero i Ht) in Hx; lia].
      split; [split; [done|by apply Hextents]|]. split; [done|]. by exists x.
    - intros [[?|(i & [Ht Hi] & Ho & x & Hx & Hl)]|?]; [by left; left| |by right]. left. right. exists i. split; [by apply Hextents|]. split; [done|]. by exists x. }
  destruct (space_map_same _ _ _ _ _ _ _ _ _ Hsec Hmo Hmr) as (Ecells & Efree & Eused). unfold kernel_finish, overlay_ranges. cbn [fm_map with_cells mr_cells mr_free_bytes mr_used_bytes].
  rewrite Ef, Eu. split; [|by split]. eapply same_counts_trans; [|apply overlay_cells_same]. rewrite <- Ecells.
  clear - Hsame. induction Hsame as [|c c' l k (H1 & H2 & H3 & H4) _ IH]; constructor; [|done]. unfold same_counts. by rewrite H1, H2, H3, H4.
Qed.
