(* ===== verification/NativeBtrfsFacts.v ===== *)
(** * Btrfs compaction: layout, targets and size

    What the layout reader and the choice of targets compute, and that the
    size of the file system is restored on every path through the shrink
    cycles, whatever fails in between. *)

From S2P Require Import Prelude Text Bytes Ranges RangesFacts NativeGeometry Kernel NativeCompact NativeRun Btrfs BtrfsKernel NativeBtrfs.
From stdpp Require Import pretty.

Local Open Scope string_scope.
Local Open Scope list_scope.
Local Open Scope Z_scope.

(** ** The targets *)

Lemma align_up_spec v : v <= _align_up v ALIGNMENT < v + ALIGNMENT /\ (ALIGNMENT | _align_up v ALIGNMENT).
Proof.
  unfold _align_up, ALIGNMENT. pose proof (Z.div_mod (v + 256 * 1024 * 1024 - 1) (256 * 1024 * 1024) ltac:(lia)).
  pose proof (Z.mod_pos_bound (v + 256 * 1024 * 1024 - 1) (256 * 1024 * 1024) ltac:(lia)). split; [lia|]. by exists ((v + 256 * 1024 * 1024 - 1) / (256 * 1024 * 1024)).
Qed.

(** C19. The sizes Btrfs Compact tries to shrink to: at most seven, in strictly
    descending order, each a multiple of 256 MiB, above the space the allocated
    chunks need together with the reserved first megabyte, and below the
    high-water mark, so that no target is a growth and none cuts into chunks
    that could not be placed. *)
Theorem shrink_targets_bounds (allocated largest_chunk highwater : Z) :
  let targets := _candidate_shrink_targets allocated largest_chunk highwater in
  py_len targets <= 7 /\ StronglySorted (fun s t => t < s) targets /\
  forall t, t ∈ targets -> (ALIGNMENT | t) /\ 1024 * 1024 + allocated < t < highwater.
Proof.
  intros targets. assert (exists c, targets = py_sorted (fun a b => b <=? a) (remove_dups c) /\ (length c <= 7)%nat /\
    forall t, t ∈ c -> _align_up (1024 * 1024 + allocated) ALIGNMENT < t < highwater /\ t ∈ target_candidates allocated largest_chunk highwater) as (c & E & Hlen & Hc).
  { eexists. split; [reflexivity|]. split; [etransitivity; [apply length_filter|done]|]. intros t Ht. by apply list_elem_of_filter in Ht. }
  clearbody targets. subst targets. pose proof (py_sorted_perm (fun a b => b <=? a) (remove_dups c)) as Hp. split; [|split].
  - unfold py_len. rewrite Hp. assert (length (remove_dups c) <= length c)%nat; [|lia]. apply submseteq_length, NoDup_submseteq; [apply NoDup_remove_dups|]. intros x Hx. by apply elem_of_remove_dups.
  - assert (StronglySorted (fun a b => (b <=? a) = true) (py_sorted (fun a b => b <=? a) (remove_dups c))) as Hs by (apply py_sorted_sorted; intros; lia).
    assert (NoDup (py_sorted (fun a b => b <=? a) (remove_dups c))) as Hn by (rewrite Hp; apply NoDup_remove_dups). clear Hp.
    induction Hs as [|x l Hs IH Hx]; [constructor|]. apply NoDup_cons in Hn as [Hno Hn]. constructor; [by apply IH|].
    rewrite Forall_forall in Hx |- *. intros y Hy. specialize (Hx y Hy). apply Z.leb_le in Hx. assert (x <> y) by congruence. lia.
  - intros t Ht. rewrite Hp in Ht. apply elem_of_remove_dups, Hc in Ht as [Hb Hin]. pose proof (align_up_spec (1024 * 1024 + allocated)) as [? _]. split; [|lia].
    unfold target_candidates in Hin. apply elem_of_app in Hin as [(step & -> & _)%list_elem_of_fmap|(reserve & -> & _)%list_elem_of_fmap]; [by eexists|apply align_up_spec].
Qed.

(** ** The layout *)

Lemma merge_all_facts ranges : separated (_merge_ranges ranges) /\ same_cover (_merge_ranges ranges) ranges.
Proof.
  destruct (merge_sorted_spec (fun r => r.2 <=? r.1) ranges) as [Hs Hc]; [intros r Hr; bool_to_prop; lia|]. split; [done|]. intros x. unfold _merge_ranges. rewrite (Hc x).
  unfold covers. rewrite !Exists_exists. split; [intros (r & [_ Hr]%list_elem_of_filter & Hx); by exists r|]. intros (r & Hr & Hx). exists r. split; [|done].
  apply list_elem_of_filter. split; [|done]. apply Z.leb_gt. lia.
Qed.

(** The gaps up to the cursor. *)
Lemma gap_fold_facts l : forall cursor gaps, separated l -> exists cursor' new, fold_left gap_before l (cursor, gaps) = (cursor', gaps ++ new) /\ cursor' = fold_left Z.max (map snd l) cursor /\
  forall x, covers new x <-> cursor <= x /\ Exists (fun r : range => x < r.1) l /\ ~ covers l x.
Proof.
  induction l as [|r l IH]; intros cursor gaps Hs.
  { exists cursor, []. cbn. rewrite app_nil_r. split; [done|]. split; [done|]. intros x. split; [by intros ?%covers_nil|by intros (_ & H & _); inversion H]. }
  pose proof Hs as (Hr & Hl & Hs')%separated_cons. cbn [fold_left map]. unfold gap_before at 2.
  set (gap := if cursor <? Z.max cursor r.1 then [(cursor, Z.max cursor r.1)] else []).
  replace (if cursor <? Z.max cursor r.1 then gaps ++ [(cursor, Z.max cursor r.1)] else gaps) with (gaps ++ gap) by (unfold gap; destruct (_ <? _); [done|by rewrite app_nil_r]).
  destruct (IH (Z.max cursor r.2) (gaps ++ gap) Hs') as (c' & new & E & Hc & Hn). rewrite E. exists c', (gap ++ new). split; [by rewrite app_assoc|]. split; [done|].
  assert (forall x, covers gap x <-> cursor <= x < r.1) as Hg.
  { intros x. unfold gap. destruct (Z.ltb_spec cursor (Z.max cursor r.1)); [rewrite covers_cons; cbn; pose proof (covers_nil x); split; [intros [?|?]; [lia|done]|intros; left; lia]|].
    split; [by intros ?%covers_nil|lia]. }
  intros x. rewrite covers_app, Hg, Hn, covers_cons, Exists_cons. rewrite Forall_forall in Hl.
  assert (forall q, q ∈ l -> r.2 < q.1) as Hlt by (intros q Hq; by apply Hl). split.
  - intros [Hx|(Hx & Hex & Hno)]; [|split; [lia|]; split; [by right|intros [?|?]; [lia|done]]]. split; [lia|]. split; [left; lia|].
    intros [?|(q & Hq & Hqx)%Exists_exists]; [lia|]. specialize (Hlt q Hq). lia.
  - intros (Hx & Hex & Hno). destruct (Z.lt_ge_cases x r.1); [left; lia|]. right. destruct Hex as [?|Hex]; [lia|]. split; [|split; [done|tauto]].
    assert (~ (r.1 <= x < r.2)) by tauto. lia.
Qed.

Lemma fold_max_snd l : forall c, separated l -> forall x, x < fold_left Z.max (map snd l) c <-> x < c \/ Exists (fun r : range => x < r.2) l.
Proof.
  induction l as [|r l IH]; intros c Hs x; cbn [map fold_left]; [split; [by left|intros [?|H]; [done|inversion H]]|].
  apply separated_cons in Hs as (_ & _ & Hs). rewrite (IH _ Hs), Exists_cons. rewrite Z.max_lt_iff. tauto.
Qed.


(** ** The size of the file system *)

(** [size w] is the size of the file system in bytes.  Only a resize changes
    it: to what was asked for if the call succeeds, not at all if it fails. *)
Class BtrfsLaws {K : Type} (k : kernel K) (b : btrfs_calls K) (size : K -> Z) : Prop := mkBtrfsLaws {
  bl_makedirs p w : size (k_makedirs k p w).1 = size w;
  bl_mkdtemp p w : size (k_mkdtemp k p w).1 = size w;
  bl_mount d p fs w : size (k_mount k d p fs w).1 = size w;
  bl_rmdir p w : size (k_rmdir k p w).1 = size w;
  bl_sync p w : size (k_sync k p w).1 = size w;
  bl_umount2 p w : size (k_umount2 k p w).1 = size w;
  bl_close fd w : size (k_close k fd w).1 = size w;
  bl_open_dir p w : size (b_open_dir b p w).1 = size w;
  bl_search fd request n w : size (b_tree_search b fd request n w).1 = size w;
  bl_start fd request w : size (b_balance_start b fd request w).1 = size w;
  bl_join w : size (b_balance_join b w).1 = size w;
  bl_cancel fd w : size (b_balance_cancel b fd w).1 = size w;
  bl_progress fd w : size (b_balance_progress b fd w).1 = size w;
  bl_syncfs fd w : size (b_syncfs b fd w).1 = size w;
  bl_resize fd devid n w : 0 <= devid -> 0 <= n -> py_len (resize_amount devid n) < 255 ->
    size (b_resize b fd (resize_request devid n) w).1 = match (b_resize b fd (resize_request devid n) w).2 with Ok _ => n | Raise _ => size w end
}.

Section size.
Context {K : Type} (k : kernel K) (b : btrfs_calls K) (rounds : nat) (size : K -> Z) {Laws : BtrfsLaws k b size}.

Definition keeps {A} (m : kprog K A) : Prop := forall w, size (m w).1 = size w.

Lemma keeps_ret {A} (a : A) : keeps (kret a). Proof. done. Qed.
Lemma keeps_lift {A} (x : result A) : keeps (klift x). Proof. done. Qed.
Lemma keeps_raise {A} c msg : keeps (kraise (A:=A) c msg). Proof. done. Qed.
Lemma keeps_get {A} (f : K -> result A) : keeps (kget f). Proof. done. Qed.

Lemma keeps_bind {A B} (m : kprog K A) (f : A -> kprog K B) : keeps m -> (forall a, keeps (f a)) -> keeps (kbind m f).
Proof. intros Hm Hf w. unfold kbind. specialize (Hm w). destruct (m w) as [w' [a|e]]; cbn [fst] in *; [by rewrite Hf|done]. Qed.

Lemma keeps_catch {A} (m : kprog K A) h : keeps m -> (forall e, keeps (h e)) -> keeps (kcatch m h).
Proof. intros Hm Hh w. unfold kcatch. specialize (Hm w). destruct (m w) as [w' [a|e]]; cbn [fst] in *; [done|by rewrite Hh]. Qed.

Lemma keeps_finally {A} (m : kprog K A) f : keeps m -> keeps f -> keeps (kfinally m f).
Proof. intros Hm Hf w. unfold kfinally. specialize (Hm w). destruct (m w) as [w' r]; cbn [fst] in *. specialize (Hf w'). destruct (f w') as [w2 [|]]; cbn [fst] in *; congruence. Qed.

Lemma keeps_if {A} (c : bool) (m n : kprog K A) : keeps m -> keeps n -> keeps (if c then m else n).
Proof. by destruct c. Qed.

Lemma keeps_stop {A} (c : K -> bool) (m n : kprog K A) : keeps m -> keeps n -> keeps (fun w => if c w then m w else n w).
Proof. intros Hm Hn w. destruct (c w); [apply Hm|apply Hn]. Qed.

Lemma keeps_calls : (forall p, keeps (k_makedirs k p)) /\ (forall p, keeps (k_mkdtemp k p)) /\ (forall d p fs, keeps (k_mount k d p fs)) /\ (forall p, keeps (k_rmdir k p)) /\ (forall p, keeps (k_sync k p)) /\
  (forall p, keeps (k_umount2 k p)) /\ (forall fd, keeps (k_close k fd)) /\ (forall p, keeps (b_open_dir b p)) /\ (forall fd r, keeps (b_balance_start b fd r)) /\ keeps (b_balance_join b) /\
  (forall fd, keeps (b_balance_cancel b fd)) /\ (forall fd, keeps (b_balance_progress b fd)) /\ (forall fd, keeps (b_syncfs b fd)).
Proof. repeat split; intros; intros w; apply Laws. Qed.

Ltac keeps := destruct keeps_calls as (Hk1 & Hk2 & Hk3 & Hk4 & Hk5 & Hk6 & Hk7 & Hk8 & Hk9 & Hk10 & Hk11 & Hk12 & Hk13); repeat first
  [ apply Hk1 | apply Hk2 | apply Hk3 | apply Hk4 | apply Hk5 | apply Hk6 | apply Hk7 | apply Hk8 | apply Hk9 | apply Hk10 | apply Hk11 | apply Hk12 | apply Hk13
  | apply keeps_ret | apply keeps_lift | apply keeps_raise | apply keeps_get | apply keeps_finally | apply keeps_if
  | apply keeps_catch; [|intros ?] | apply keeps_bind; [|intros ?] ].

Lemma keeps_ignore m : keeps m -> keeps (ignore_os_error m).
Proof. intros H. unfold ignore_os_error. keeps; done. Qed.

Lemma keeps_enter device fs : keeps (PrivateMount_enter k device fs).
Proof. unfold PrivateMount_enter, _assert_unmounted. keeps. Qed.

Lemma keeps_unmount n : forall path, keeps (unmount_loop k n path).
Proof. induction n as [|n IH]; intros path; cbn [unmount_loop]; keeps; apply IH. Qed.

Lemma keeps_exit path : keeps (PrivateMount_exit k path).
Proof. unfold PrivateMount_exit. apply keeps_bind; [apply keeps_ignore; keeps|intros _]. apply keeps_bind; [apply keeps_unmount|intros _]. apply keeps_ignore. keeps. Qed.

(** The searches of the layout. *)
Lemma keeps_search {A} (body : A -> TreeItem -> A * result unit) wanted fd t maximum fuel : forall current acc w s,
  size (search_loop b body wanted fuel fd t current maximum acc (w, s)).1.1 = size w.
Proof.
  induction fuel as [|fuel IH]; intros current acc w s; cbn [search_loop]; (destruct (key_ltb _ _); [done|]); [done|].
  pose proof (bl_search fd (search_request t current maximum (ts_buffer_size s)) (ts_buffer_size s) w) as Hs.
  destruct (b_tree_search _ _ _ _ _) as [w1 [request [errno|]]]; cbn [fst] in Hs.
  - case_bool_decide; [|exact Hs]. destruct (u64le _ _) as [needed|]; [|exact Hs]. destruct (_ || _); [exact Hs|]. by rewrite IH.
  - destruct (u32le _ _) as [nr|]; [|exact Hs]. destruct (nr =? 0); [exact Hs|]. destruct (page_loop _ _ _ _ _ _ _ _ _) as [[s1 acc1] [last|]]; [|exact Hs].
    destruct (last ≫= _next_key); [by rewrite IH|exact Hs].
Qed.

Lemma keeps_chunk_layout fd total devid : keeps (kernel_chunk_layout b rounds fd total devid).
Proof.
  intros w. unfold kernel_chunk_layout, search_items, items_of_types. cbn [existsb]. replace ((_CHUNK_ITEM <? 0) || (255 <? _CHUNK_ITEM) || false) with false by done.
  pose proof (keeps_search (consume collect_chunk) [_CHUNK_ITEM] fd 3 (mkKey _U64_MAX (fold_left Z.max [] _CHUNK_ITEM) _U64_MAX) rounds (mkKey 0 (fold_left Z.min [] _CHUNK_ITEM) 0) [] w (new_search _SEARCH_BUFFER)) as H.
  destruct (search_loop _ _ _ _ _ _ _ _ _ _) as [[w' s'] [acc [|]]]; exact H.
Qed.

Lemma keeps_layout fd original devid : keeps (layout_now b rounds fd devid original).
Proof.
  unfold layout_now, _btrfs_layout. apply keeps_catch; [apply keeps_bind; [apply keeps_chunk_layout|intros [[? ?] ?]; apply keeps_ret]|]. intros e. keeps.
Qed.

Lemma keeps_progress fd : keeps (_btrfs_balance_progress b fd).
Proof. unfold _btrfs_balance_progress. keeps. Qed.

Lemma keeps_balance_loop fd fuel : forall cancel_sent, keeps (balance_loop k b fuel fd cancel_sent).
Proof.
  induction fuel as [|fuel IH]; intros sent w; cbn [balance_loop]; (destruct (b_balance_alive b w); [|done]); [done|]. revert w.
  apply keeps_bind; [keeps|intros _]. apply keeps_bind.
  - intros w. destruct (k_stop k w && negb sent); [|done]. revert w. unfold _btrfs_cancel_balance. keeps.
  - intros sent'. apply keeps_bind; [apply keeps_catch; [apply keeps_progress|intros e; keeps]|intros _; apply IH].
Qed.

Lemma keeps_balance fd devid : keeps (_run_btrfs_balance k b rounds fd devid).
Proof.
  unfold _run_btrfs_balance. apply keeps_bind; [keeps|intros request]. apply keeps_bind; [keeps|intros _]. apply keeps_bind; [apply keeps_balance_loop|intros _].
  intros w. unfold balance_result. destruct (b_balance_outcome b w) as [e|]; [repeat (destruct (_ : bool); try done)|]. revert w. keeps.
Qed.

Section restored.
Context (fd devid original : Z) (Hdevid : 0 <= devid) (Horiginal : 0 <= original).

(** From a file system of the original size: [restored] tells the truth, and a
    step that returns leaves it restored. *)
Definition restoring {A} (m : kprog (K * bool) A) : Prop := forall w, size w = original ->
  let '(w', restored, r) := m (w, true) in
  (restored = true -> size w' = original) /\ (is_ok r = true -> restored = true).

Lemma restoring_keeps {A} (m : kprog K A) : keeps m -> restoring (on_volume m).
Proof. intros Hm w Hw. unfold on_volume. specialize (Hm w). destruct (m w) as [w' r]. cbn [fst] in Hm. split; [congruence|done]. Qed.

Lemma restoring_pure {A} (f : K -> result A) : restoring (fun w => (w, f w.1)).
Proof. intros w Hw. split; [by intros _|done]. Qed.

Lemma restoring_ret {A} (a : A) : restoring (kret a).
Proof. apply (restoring_pure (fun _ => Ok a)). Qed.

Lemma restoring_bind {A B} (m : kprog (K * bool) A) (f : A -> kprog (K * bool) B) : restoring m -> (forall a, restoring (f a)) -> restoring (kbind m f).
Proof.
  intros Hm Hf w Hw. specialize (Hm w Hw). unfold kbind. destruct (m (w, true)) as [[w1 restored] [a|e]]; [|by split; [apply Hm|]].
  destruct Hm as [H1 H2]. rewrite (H2 eq_refl) in *. specialize (Hf a w1 (H1 eq_refl)). exact Hf.
Qed.

Lemma restoring_stop {A} (m n : kprog (K * bool) A) (c : K -> bool) : restoring m -> restoring n -> restoring (fun w => if c w.1 then m w else n w).
Proof. intros Hm Hn w Hw. cbn [fst]. destruct (c w); [by apply Hm|by apply Hn]. Qed.

Lemma resize_size n w : 0 <= n -> size (_btrfs_resize b fd devid n w).1 = match (_btrfs_resize b fd devid n w).2 with Ok _ => n | Raise _ => size w end.
Proof. intros Hn. unfold _btrfs_resize. destruct (Z.leb_spec 255 (py_len (resize_amount devid n))); [done|]. by apply bl_resize. Qed.

(** A cycle that shrank the file system returns only after growing it back. *)
Lemma restoring_cycle target : 0 <= target -> restoring (shrink_cycle k b rounds fd devid original target).
Proof.
  intros Ht w Hw. unfold shrink_cycle. pose proof (resize_size target w Ht) as Hr. destruct (_btrfs_resize b fd devid target w) as [w1 [[]|e]]; cbn [fst snd] in Hr; [|split; [congruence|done]].
  destruct ((b_syncfs b fd;;! layout_now b rounds fd devid original) w1) as [w2 r2]. unfold kbind.
  pose proof (resize_size original w2 Horiginal) as Hg. destruct (_btrfs_resize b fd devid original w2) as [w3 [[]|e]]; cbn [fst snd] in Hg.
  - pose proof (bl_syncfs fd w3) as Hs. destruct (b_syncfs b fd w3) as [w4 [[]|e]]; cbn [fst] in Hs; [split; [congruence|done]|]. split; [done|]. by destruct (is_os_error e).
  - split; [done|]. by destruct (is_os_error e).
Qed.

Lemma restoring_shrinks targets : Forall (fun t => 0 <= t) targets -> forall l attempted, restoring (shrink_loop k b rounds fd devid original targets l attempted).
Proof.
  induction 1 as [|t targets Ht _ IH]; intros l attempted; cbn [shrink_loop]; [apply restoring_ret|].
  apply (restoring_stop (fun w => (w, Ok None))); [apply (restoring_pure (fun _ => Ok None))|]. apply restoring_bind; [by apply restoring_cycle|]. intros [l'| |]; [|apply restoring_ret..].
  destruct (0 <? _); [apply restoring_ret|apply IH].
Qed.

Lemma targets_positive allocated largest highwater : 0 <= allocated -> Forall (fun t => 0 <= t) (_candidate_shrink_targets allocated largest highwater).
Proof.
  intros Ha. apply Forall_forall. intros t Ht. unfold _candidate_shrink_targets in Ht. rewrite py_sorted_perm in Ht. apply elem_of_remove_dups, list_elem_of_filter in Ht as [Hb _].
  pose proof (align_up_spec (1024 * 1024 + allocated)) as [? _]. lia.
Qed.

(** A layout counts a sum of lengths of ranges that are not empty. *)
Lemma layout_allocated m ranges : 0 <= l_allocated (layout_of m ranges).
Proof.
  unfold layout_of. destruct (fold_left gap_before _ _). cbn [l_allocated]. destruct (merge_all_facts ranges) as [[Hp _] _]. apply zsum_nonneg, Forall_map.
  eapply Forall_impl; [exact Hp|]. intros r Hr. unfold range_length. cbn in *. lia.
Qed.

Lemma layout_now_allocated w w' l : layout_now b rounds fd devid original w = (w', Ok l) -> 0 <= l_allocated l.
Proof.
  unfold layout_now, _btrfs_layout, kcatch, kbind. destruct (kernel_chunk_layout b rounds fd original devid w) as [w1 [[[m ranges] s]|e]].
  - intros [= <- <-]. apply layout_allocated.
  - by destruct (bool_decide _).
Qed.

Lemma restoring_layout {A} (f : layout -> kprog (K * bool) A) : (forall l, 0 <= l_allocated l -> restoring (f l)) -> restoring (kbind (on_volume (layout_now b rounds fd devid original)) f).
Proof.
  intros Hf w Hw. unfold kbind, on_volume. pose proof (keeps_layout fd original devid w) as Hk. destruct (layout_now b rounds fd devid original w) as [w1 [l|e]] eqn:E; cbn [fst] in Hk; [|split; [congruence|done]].
  apply (Hf l); [by eapply layout_now_allocated|congruence].
Qed.

Lemma restoring_round previous_highwater previous_allocated : restoring (compact_round k b rounds fd devid original previous_highwater previous_allocated).
Proof.
  unfold compact_round. apply (restoring_stop (fun w => (w, Ok None))); [apply (restoring_pure (fun _ => Ok None))|]. apply restoring_bind; [apply restoring_keeps, keeps_balance|]. intros done_.
  apply (restoring_stop (fun w => (w, Ok None)) _ (fun w => negb done_ && k_stop k w)); [apply (restoring_pure (fun _ => Ok None))|]. apply restoring_layout. intros l Hl.
  apply restoring_bind; [by apply restoring_shrinks, targets_positive|]. intros [[[l' reduction] attempted]|]; apply restoring_ret.
Qed.

Lemma restoring_rounds numbers : forall h a, restoring (rounds_loop k b rounds fd devid original numbers h a).
Proof.
  induction numbers as [|n numbers IH]; intros h a; cbn [rounds_loop]; [apply restoring_ret|]. apply restoring_bind; [apply restoring_round|]. intros [[l more]|]; [|apply restoring_ret].
  destruct more; [apply IH|apply restoring_ret].
Qed.

Lemma restoring_body : restoring (compact_body k b rounds fd devid original).
Proof.
  unfold compact_body. apply restoring_layout. intros l _. apply restoring_bind; [apply restoring_rounds|]. intros [|]; [|apply restoring_ret].
  apply restoring_bind; [apply restoring_keeps, keeps_layout|]. intros _. apply (restoring_pure (fun w => Ok (if k_stop k w then EXIT_STOPPED else 0))).
Qed.

(** What comes after the body. *)
Lemma restore_size_spec restored w : (restored = true -> size w = original) ->
  let w' := (restore_at_end k b fd devid original restored w).1 in
  (restored = true -> size w' = original) /\ ((forall w, (_btrfs_resize b fd devid original w).2 = Ok tt) -> size w' = original).
Proof.
  intros Hw. cbn zeta. unfold restore_at_end. destruct restored.
  - unfold kbind, kret. pose proof (bl_close fd w) as Hc. by rewrite Hc, Hw.
  - split; [done|]. intros Hg. unfold kbind, ignore_os_error, kcatch. specialize (Hg w). pose proof (resize_size original w Horiginal) as Hr.
    destruct (_btrfs_resize b fd devid original w) as [w1 r1]; cbn [fst snd] in *. subst r1. pose proof (bl_syncfs fd w1) as Hs. destruct (b_syncfs b fd w1) as [w2 [[]|e]]; cbn [fst] in Hs.
    + by rewrite (bl_close fd w2), Hs.
    + destruct (is_os_error e); cbn [kret klift fst]; [by rewrite (bl_close fd w2), Hs|by rewrite Hs].
Qed.

Lemma compact_mounted_size w : size w = original ->
  let '(w', r) := compact_mounted k b rounds fd devid original w in
  (is_ok r = true -> size w' = original) /\ ((forall w, (_btrfs_resize b fd devid original w).2 = Ok tt) -> size w' = original).
Proof.
  intros Hw. unfold compact_mounted. pose proof (restoring_body w Hw) as Hb. destruct (compact_body k b rounds fd devid original (w, true)) as [[w1 restored] r]. destruct Hb as [H1 H2].
  pose proof (restore_size_spec restored w1 H1) as Hr. cbn zeta in Hr. destruct (restore_at_end k b fd devid original restored w1) as [w2 [[]|e]]; cbn [fst] in Hr; (split; [|apply Hr]); [|done].
  intros Hok. exact (proj1 Hr (H2 Hok)).
Qed.
End restored.

(** C12. Btrfs Compact gives the volume its size back: when [compact_btrfs]
    returns an exit status, whether it finished, found nothing to do or was
    stopped, the file system has the size it had; and as long as growing it to
    that size works, it has that size on every other path too, whatever
    exception ends the run (a failed balance, a failed shrink, a layout that
    cannot be read, an error while mounting). *)
Theorem btrfs_size_restored (device : text) (w : K)
    (Hgeometry : forall total devid device_size, _btrfs_super_geometry (k_device k w device) = Ok (total, devid, device_size) -> size w = total /\ 0 <= devid /\ 0 <= total) :
  let '(w', r) := compact_btrfs k b rounds device w in
  (forall code, r = Ok code -> size w' = size w) /\
  ((forall total devid device_size fd w1, _btrfs_super_geometry (k_device k w device) = Ok (total, devid, device_size) -> (_btrfs_resize b fd devid total w1).2 = Ok tt) -> size w' = size w).
Proof.
  unfold compact_btrfs, kget. unfold kbind at 1. destruct (_btrfs_super_geometry (k_device k w device)) as [[[total devid] device_size]|e]; [|by split].
  destruct (Hgeometry total devid device_size eq_refl) as (Ht & Hd & Htp). destruct (_ && _); [by split|]. unfold with_mount, kbind at 1.
  pose proof (keeps_enter device "btrfs" w) as He. destruct (PrivateMount_enter k device "btrfs" w) as [w1 [path|e]]; cbn [fst] in He; [|split; [done|by intros _]]. unfold kfinally.
  unfold kbind. pose proof (bl_open_dir path w1) as Ho. destruct (b_open_dir b path w1) as [w2 [fd|e]]; cbn [fst] in Ho.
  - pose proof (compact_mounted_size fd devid total Hd Htp w2 ltac:(congruence)) as Hm. destruct (compact_mounted k b rounds fd devid total w2) as [w3 r].
    pose proof (keeps_exit path w3) as Hx. destruct (PrivateMount_exit k path w3) as [w4 [[]|e]]; cbn [fst] in Hx; (split; [|intros Hg; rewrite Hx; rewrite (proj2 Hm); [done|intros; by eapply Hg]]); [|done].
    intros code ->. rewrite Hx. by rewrite (proj1 Hm).
  - pose proof (keeps_exit path w2) as Hx. destruct (PrivateMount_exit k path w2) as [w4 [[]|e']]; cbn [fst] in Hx; split; try done; intros _; congruence.
Qed.
End size.
