(* ===== verification/BtrfsSim.v ===== *)
(** * A simulated Btrfs kernel

    The trees of a mounted volume are a table; the search ioctl answers with
    at most two items, and first asks for a buffer of 128 KiB; a resize below
    the end of the data chunk moves the chunk down.  The laws of
    [TreeSearchLaws] and [BtrfsLaws] hold, so the theorems stated with them
    apply to the samples at the end. *)

From S2P Require Import Prelude Text Bytes Ranges Xfs RangesFacts AggregateFacts ReaderFacts Devices NativeGeometry Kernel NativeCompact NativeRun Btrfs BtrfsKernel NativeBtrfs BtrfsFacts BtrfsSample BtrfsKernelFacts NativeBtrfsFacts.
From stdpp Require Import pretty.

Local Open Scope string_scope.
Local Open Scope list_scope.
Local Open Scope Z_scope.

(** ** The search *)

Definition request_field (request : bytes) (offset width : Z) : Z := le_int (py_slice request offset (offset + width)).

Definition request_key (request : bytes) (objectid type offset : Z) : Key :=
  mkKey (request_field request objectid 8) (request_field request type 4) (request_field request offset 8).

Definition NEEDED : Z := 131072.

Definition sim_search (table : Z -> list TreeItem) (request : bytes) (size : Z) : bytes * option string :=
  if size <? NEEDED then (py_set_slice request 104 112 (le_digits 8 NEEDED), Some "EOVERFLOW") else
  let items := filter (in_range (request_key request 8 56 24) (request_key request 16 60 32)) (table (request_field request 0 8)) in
  let page := take 2 items in
  (py_slice request 0 64 ++ le_digits 4 (py_len page) ++ py_slice request 68 112 ++ concat (map encode_item (map (pair 7) page)), None).

(** The fields of a request are read as they were written. *)
Lemma request_fields t current maximum size : key_wf current -> key_wf maximum ->
  let request := search_request t current maximum size in
  request_field request 0 8 = t mod 2 ^ 64 /\ request_key request 8 56 24 = current /\ request_key request 16 60 32 = maximum.
Proof.
  intros Hc Hm request. assert (forall n v, 0 <= v < 256 ^ Z.of_nat n -> le_int (le_digits n v) = v) as Hf by (intros n v Hv; by rewrite le_int_digits, Z.mod_small).
  destruct current as [o1 t1 f1], maximum as [o2 t2 f2], Hc as (? & ? & ?), Hm as (? & ? & ?). cbn in *. unfold _U64_MAX in *. split; [apply (le_int_digits 8 t)|].
  unfold request_key. split; f_equal.
  - apply (Hf 8%nat o1). lia.
  - apply (Hf 4%nat t1). lia.
  - apply (Hf 8%nat f1). lia.
  - apply (Hf 8%nat o2). lia.
  - apply (Hf 4%nat t2). lia.
  - apply (Hf 8%nat f2). lia.
Qed.

(** ** The volume *)

Record volume := mkVolume { v_size : Z; v_offset : Z }.

Definition CHUNK : Z := 536870912.
Definition MEGABYTE : Z := 1048576.

(** What is asked for up to its NUL. *)
Fixpoint amount_of (l : bytes) : bytes :=
  match l with
  | [] => []
  | x :: rest => if x =? 0 then [] else x :: amount_of rest
  end.

Definition sizes : list Z := map (fun n => n * 268435456) (py_range 1 17).

(** The sizes the simulated volume can take. *)
Definition asked_size (request : bytes) : option Z := List.find (fun n => bool_decide (amount_of (drop 8 request) = resize_amount 1 n)) sizes.

Definition sim_resize (request : bytes) (v : volume) : volume * result unit :=
  match asked_size request with
  | Some n => (mkVolume n (if n <? v_offset v + CHUNK then MEGABYTE else v_offset v), Ok tt)
  | None => (v, raise OSError "EINVAL")
  end.

Definition sim_calls (table : volume -> Z -> list TreeItem) : btrfs_calls volume := mkBtrfsCalls volume 0
  (fun _ => kret 3) (fun _ _ _ => kret tt)
  (fun _ request size v => (v, sim_search (table v) request size))
  (fun _ => sim_resize) (fun _ _ => kret tt) (fun _ => false) (kret tt) (fun _ => None) (fun _ => kret tt) (fun _ => kret (py_zeros 1024)) (fun _ => kret tt).

Definition sim_device (v : volume) : bytes :=
  py_zeros 65536 ++ image_of 4096 [(64, BTRFS_MAGIC); lefield 112 8 (v_size v); lefield 136 8 1; lefield 201 8 1].

Definition ENOSYS {A} : kprog volume A := kraise OSError "ENOSYS".

Definition sim_volume_kernel : kernel volume := mkKernel volume (fun _ => false) ENOSYS (fun _ => ENOSYS) (fun _ => kret tt) (fun _ => ENOSYS) (fun _ => ENOSYS) (fun _ => ENOSYS) (fun _ => kret tt)
  (fun _ => ENOSYS) (fun _ => ENOSYS) (fun _ => ENOSYS) (fun _ _ _ _ => ENOSYS) (fun _ _ _ _ => ENOSYS) (fun _ _ _ => ENOSYS) (fun _ _ _ => ENOSYS) (fun _ => ENOSYS)
  (fun _ _ _ _ _ => ENOSYS) (fun _ _ _ _ _ => ENOSYS) (fun p => Ok p) (fun _ _ => Ok (mkStat true 2049)) (fun _ => Some [])
  (fun v _ => Ok (mkReader (sim_device v) (v_size v))) (fun _ => kret tt) (fun _ => kret (of_string "/run/m")) (fun _ _ _ => kret tt) (fun _ => kret tt) (fun _ => kret tt) 7.

(** ** The laws hold *)

Section laws.
Context (table : volume -> Z -> list TreeItem).
Context (Hsorted : forall v t, StronglySorted (fun i j => key_num (i_key i) < key_num (i_key j)) (table v t)) (Hwf : forall v t, Forall item_wf (table v t)).

Lemma sim_search_laws : TreeSearchLaws (sim_calls table) (fun v t => table v (t mod 2 ^ 64)).
Proof.
  split; [intros; apply Hsorted|intros; apply Hwf|done|..].
  - intros fd t current maximum size w w' request H Hc Hm. cbn [b_tree_search sim_calls] in H. unfold sim_search in H. destruct (size <? NEEDED); [done|]. injection H as _ <-.
    destruct (request_fields t current maximum size Hc Hm) as (-> & -> & ->). set (items := filter _ _). set (page := take 2 items).
    set (q := search_request t current maximum size).
    exists (py_slice q 0 64 ++ le_digits 4 (py_len page) ++ py_slice q 68 112), (map (pair 7) page), (drop 2 items), [].
    rewrite app_nil_r, <- !app_assoc. assert (map snd (map (pair 7) page) = page) as -> by (rewrite map_map; cbn; apply map_id). split; [done|]. split; [done|]. split; [|split; [apply take_drop|]].
    + assert (py_len (map (pair 7) page) = py_len page) as -> by (unfold py_len; by rewrite length_map). apply (unpack_at 4 (py_slice q 0 64)).
      unfold py_len, page. pose proof (length_take items 2). pose proof (Nat.le_min_l 2 (length items)). change (256 ^ Z.of_nat 4) with 4294967296. lia.
    + unfold page. destruct items as [|i [|j rest]]; done.
  - intros fd t current maximum size w w' request errno H. cbn [b_tree_search sim_calls] in H. unfold sim_search in H. destruct (Z.ltb_spec size NEEDED); [|done]. injection H as _ <- <-.
    split; [done|]. exists NEEDED. split; [reflexivity|unfold NEEDED in *; lia].
Qed.

(** Decimal numbers. *)
Definition digit (c : Z) : Prop := 48 <= c <= 57.

Lemma digit_char n : digit (Z.of_N (Ascii.N_of_ascii (pretty_N_char n))).
Proof. unfold pretty_N_char, digit. repeat case_match; cbn; lia. Qed.

Lemma digits_go x : forall s, Forall digit (of_string s) -> Forall digit (of_string (pretty_N_go x s)).
Proof.
  induction (N.lt_wf_0 x) as [x _ IH]; intros s Hs. destruct (decide (x = 0)%N) as [->|Hx]; [by rewrite pretty_N_go_0|]. rewrite pretty_N_go_step by lia.
  apply IH; [apply N.div_lt; lia|]. unfold of_string. cbn [String.list_ascii_of_string map]. constructor; [apply digit_char|done].
Qed.

Lemma pretty_digits n : 0 <= n -> Forall digit (of_string (pretty n)).
Proof.
  intros Hn. destruct n as [|p|p]; [cbn; repeat constructor; unfold digit; lia| |lia]. change (pretty (Z.pos p)) with (pretty_N_go (N.pos p) ""). apply digits_go. constructor.
Qed.

Lemma split_colon a b : forall a' b', Forall digit a -> Forall digit a' -> a ++ 58 :: b = a' ++ 58 :: b' -> b = b'.
Proof.
  induction a as [|x a IH]; intros [|y a'] b' Ha Ha' H; cbn in H; [by injection H|..].
  - injection H as E _. apply Forall_cons in Ha' as [Hd _]. unfold digit in Hd. lia.
  - injection H as E _. apply Forall_cons in Ha as [Hd _]. unfold digit in Hd. lia.
  - injection H as _ H. apply Forall_cons in Ha as [_ Ha], Ha' as [_ Ha']. eauto.
Qed.

Lemma amount_inj devid devid' n n' : 0 <= devid -> 0 <= devid' -> resize_amount devid n = resize_amount devid' n' -> n = n'.
Proof. intros Hd Hd' H. unfold resize_amount in H. apply split_colon in H; [|by apply pretty_digits..]. apply text_inj in H. by apply (inj pretty) in H. Qed.

Lemma amount_of_app a rest : Forall (fun c => c <> 0) a -> amount_of (a ++ 0 :: rest) = a.
Proof. induction 1 as [|x a Hx _ IH]; cbn; [done|]. destruct (Z.eqb_spec x 0); [done|]. by rewrite IH. Qed.

Lemma amount_of_request devid n : 0 <= devid -> 0 <= n -> py_len (resize_amount devid n) < 255 -> amount_of (drop 8 (resize_request devid n)) = resize_amount devid n.
Proof.
  intros Hd Hn Hl. unfold resize_request. set (a := resize_amount devid n) in *. assert (Forall (fun c => c <> 0) a) as Ha.
  { unfold a, resize_amount. apply Forall_app_2; [eapply Forall_impl; [by apply pretty_digits|unfold digit; intros; lia]|]. apply Forall_app_2; [by repeat constructor|].
    eapply Forall_impl; [by apply pretty_digits|unfold digit; intros; lia]. }
  pose proof (py_len_nonneg a). set (z := py_zeros 4096). assert (py_len z = 4096) as Hz by done. clearbody z.
  rewrite (py_set_slice_in _ (8 + py_len a) (9 + py_len a)) by (rewrite ?py_len_set_slice by lia; lia).
  rewrite (py_set_slice_in z) by lia. unfold py_len in *. rewrite (app_assoc (take _ z)), take_app_length' by (rewrite length_app, length_take; lia).
  rewrite <- !app_assoc, drop_app_length' by (rewrite length_take; lia). by apply amount_of_app.
Qed.

Lemma sim_volume_laws : BtrfsLaws sim_volume_kernel (sim_calls table) v_size.
Proof.
  split; try done. intros fd devid n v Hd Hn Hl. cbn. unfold sim_resize, asked_size. rewrite amount_of_request by done. destruct (List.find _ sizes) as [m|] eqn:Hf; [|done].
  apply find_some in Hf as [_ Hm%bool_decide_eq_true]. symmetry. by eapply (amount_inj devid 1); [| |exact Hm].
Qed.
End laws.

(** ** Samples *)

(** The trees of the volume of [BtrfsSample]. *)
Definition sample_table (_ : volume) (t : Z) : list TreeItem :=
  if t =? 1 then root_items else if t =? 2 then extent_items else if t =? 3 then chunk_items else if t =? 5 then file_items else [].

(** One data chunk, where the volume has it. *)
Definition moving_table (v : volume) (t : Z) : list TreeItem :=
  if t =? 3 then [mkItem (mkKey 256 228 DATA) (chunk_bytes CHUNK 1 [v_offset v])] else [].

#[export] Instance in_order_dec (i j : TreeItem) : Decision (key_num (i_key i) < key_num (i_key j)).
Proof. apply _. Defined.

#[export] Instance item_wf_dec i : Decision (item_wf i).
Proof. unfold item_wf, key_wf. apply _. Defined.

Lemma sample_sorted v t : StronglySorted (fun i j => key_num (i_key i) < key_num (i_key j)) (sample_table v t).
Proof. unfold sample_table. repeat case_match; repeat constructor; vm_compute; reflexivity. Qed.

Lemma sample_wf v t : Forall item_wf (sample_table v t).
Proof. unfold sample_table. repeat case_match; repeat constructor; vm_compute; congruence. Qed.

Lemma sample_search_laws : TreeSearchLaws (sim_calls sample_table) (fun v t => sample_table v (t mod 2 ^ 64)).
Proof. apply sim_search_laws; [apply sample_sorted|apply sample_wf]. Qed.

Definition small : volume := mkVolume 98304 0.

(** Enough for the sample whatever the rest, which is not looked at. *)
Definition sample_rounds (rest : nat) : nat := 8 + rest.

Lemma sample_length v t : (length (sample_table v t) <= 6)%nat.
Proof. unfold sample_table. repeat case_match; cbn; lia. Qed.

(** The keys of the extents, in three answers of two after one demand for a
    larger buffer. *)
Lemma items_of_types_exact_witness : exists w' s',
  items_of_types (sim_calls sample_table) (sample_rounds (Z.to_nat (64 * 1024 * 1024))) (consume collect) [_EXTENT_ITEM; _METADATA_ITEM] 3 2 [] (small, new_search 0) = (w', s', (extent_items, Ok tt)).
Proof.
  destruct (items_of_types_exact (sim_calls sample_table) (fun v t => sample_table v (t mod 2 ^ 64)) (consume collect) [_EXTENT_ITEM; _METADATA_ITEM]
    (sample_rounds (Z.to_nat (64 * 1024 * 1024))) 3 2 0 [] small sample_search_laws) as (w' & s' & _ & H).
  - discriminate.
  - repeat constructor; vm_compute; congruence.
  - pose proof (sample_length small (2 mod 2 ^ 64)). unfold sample_rounds. lia.
  - exists w', s'. rewrite H. f_equal.
Defined.

(** *** The map through the kernel *)

Definition sample_super : superblock := match read_superblock super_bytes with Ok s => s | Raise _ => mkSuper 0 0 0 0 0 0 0 0 0 0 end.

Lemma sample_kernel rest : exists ws mr u n,
  kernel_trees (sim_calls sample_table) (sample_rounds rest) sample_super 3 3 (small, new_search 0) = (ws, Ok (mr, (u, n))) /\
  map (fun c => (c_used c, c_free c)) (mr_cells (fm_map (kernel_finish mr (sb_sectorsize sample_super) (u, n) ws.2))) = [(4, 4); (4, 4); (1, 7)].
Proof. do 4 eexists. split; [vm_compute; reflexivity|vm_compute; reflexivity]. Qed.

Lemma kernel_map_agrees_witness : exists fm ws mr u n,
  btrfs_map (Ok btrfs_reader) 3 = Ok fm /\
  kernel_trees (sim_calls sample_table) (sample_rounds (Z.to_nat (64 * 1024 * 1024))) sample_super 3 3 (small, new_search 0) = (ws, Ok (mr, (u, n))) /\
  Forall2 same_counts (mr_cells (fm_map fm)) (mr_cells (fm_map (kernel_finish mr (sb_sectorsize sample_super) (u, n) ws.2))).
Proof.
  destruct (sample_kernel (Z.to_nat (64 * 1024 * 1024))) as (ws & mr & u & n & Hk & _).
  eexists _, ws, mr, u, n. split; [vm_compute; reflexivity|]. split; [exact Hk|].
  eapply (kernel_map_agrees (sim_calls sample_table) (fun v t => sample_table v (t mod 2 ^ 64)) (sample_rounds (Z.to_nat (64 * 1024 * 1024))) btrfs_reader 3 3 0 _ n _ _
    super_bytes sample_super sample_mapper _ _ extent_items _ mr u small ws sample_search_laws).
  - intros t. pose proof (sample_length small (t mod 2 ^ 64)). unfold sample_rounds. lia.
  - vm_compute. reflexivity.
  - vm_compute. reflexivity.
  - vm_compute. reflexivity.
  - vm_compute. reflexivity.
  - vm_compute. reflexivity.
  - intros c. change (m_chunks sample_mapper) with sample_chunks. change (sample_table small (3 mod 2 ^ 64)) with chunk_items. split.
    + intros [->|[->|[]%elem_of_nil]%elem_of_cons]%elem_of_cons; [exists (mkItem (mkKey 256 228 META) meta_chunk)|exists (mkItem (mkKey 256 228 DATA) data_chunk)];
        (split; [apply list_elem_of_In; cbn; tauto|split; [reflexivity|vm_compute; reflexivity]]).
    + intros (i & [->|[->|[]%elem_of_nil]%elem_of_cons]%elem_of_cons & _ & H); vm_compute in H; injection H as <-; apply list_elem_of_In; cbn; tauto.
  - done.
  - exact Hk.
Defined.

(** *** A compaction that shrinks and grows back *)

Definition large : volume := mkVolume 2147483648 1073741824.

Definition DEVICE : text := of_string "/dev/sdb1".

Lemma large_geometry : _btrfs_super_geometry (k_device sim_volume_kernel large DEVICE) = Ok (2147483648, 1, 2147483648).
Proof. vm_compute. reflexivity. Qed.

(** The chunk has moved from the end of the device to its first megabyte. *)
Lemma btrfs_size_restored_witness : exists w', compact_btrfs sim_volume_kernel (sim_calls moving_table) 8 DEVICE large = (w', Ok 0) /\ v_offset w' = MEGABYTE /\ v_size w' = 2147483648.
Proof.
  assert (BtrfsLaws sim_volume_kernel (sim_calls moving_table) v_size) as Laws by apply sim_volume_laws.
  pose proof (btrfs_size_restored sim_volume_kernel (sim_calls moving_table) 8 v_size DEVICE large) as H.
  assert (compact_btrfs sim_volume_kernel (sim_calls moving_table) 8 DEVICE large = (mkVolume 2147483648 MEGABYTE, Ok 0)) as E by (vm_compute; reflexivity).
  exists (mkVolume 2147483648 MEGABYTE). rewrite E in H. split; [exact E|]. split; [reflexivity|]. destruct H as [H _]; [|exact (H 0 eq_refl)].
  intros total devid device_size Hg. rewrite large_geometry in Hg. injection Hg as <- <- <-. split; [reflexivity|lia].
Defined.

(** A file of one extent in a chunk with two copies is one run for the walk of
    the image and two for the scan through the kernel, which therefore counts
    it as fragmented. *)
Lemma one_extent_two_runs :
  let item := mkItem (mkKey 257 108 0) (file_extent DATA 4096) in
  let runs (s : tree_scan) := map (fun r => py_len (_coalesce_file_runs r.2)) (n_file_runs s) in
  runs <$> scan_item sample_mapper (mkTreeScan [] [] 0) item = Ok [1] /\
  runs (kernel_scan_item sample_mapper (mkTreeScan [] [] 0) item).1 = [2].
Proof. vm_compute. split; reflexivity. Qed.
