(* ===== verification/NativeFacts.v ===== *)
(** * Compaction keeps every file

    On any kernel that satisfies [KernelLaws], whatever calls fail and whenever
    a stop is requested, the user's files read the same after a pass as before
    it, and every exchange that succeeds moves its range to lower blocks. *)

From S2P Require Import Prelude Text Bytes Kernel NativeCompact.

Local Open Scope list_scope.
Local Open Scope Z_scope.

Section facts.
Context {K : Type} (k : kernel K) (w : view K) (bs : Z) (rounds : nat).
Context {Laws : KernelLaws k w bs}.
Hypothesis Hbs : 0 < bs.

(** ** Triples

    From a state in [I] the program keeps the user's files, and ends in [Q a]
    when it returns [a] and in [E e] when it raises [e]. *)
Definition tripleX {A} (I : K -> Prop) (m : kprog K A) (Q : A -> K -> Prop) (E : exn -> K -> Prop) : Prop := forall s, I s ->
  same_files w s (m s).1 /\ match (m s).2 with Ok a => Q a (m s).1 | Raise e => E e (m s).1 end.

Definition triple {A} (I : K -> Prop) (m : kprog K A) (Q : A -> K -> Prop) (E : K -> Prop) : Prop := tripleX I m Q (fun _ => E).

Lemma same_refl s : same_files w s s.
Proof. done. Qed.

Lemma same_trans s1 s2 s3 : same_files w s1 s2 -> same_files w s2 s3 -> same_files w s1 s3.
Proof. intros [V1 H1] [V2 H2]. split; [congruence|]. intros f Hf. by rewrite H2, H1. Qed.

Lemma same_weaken s s' : same_contents w s s' -> same_files w s s'.
Proof. intros [Hv Hc]. by split. Qed.

Lemma triple_ret {A} (I : K -> Prop) (a : A) (Q : A -> K -> Prop) E : (forall s, I s -> Q a s) -> triple I (kret a) Q E.
Proof. intros H s Hs. split; [apply same_refl|]. by apply H. Qed.

Lemma triple_raise {A} (I : K -> Prop) e (Q : A -> K -> Prop) (E : K -> Prop) : (forall s, I s -> E s) -> triple I (klift (Raise e)) Q E.
Proof. intros H s Hs. split; [apply same_refl|]. by apply H. Qed.

Lemma tripleX_raise {A} (I : K -> Prop) e (Q : A -> K -> Prop) (E : exn -> K -> Prop) : (forall s, I s -> E e s) -> tripleX I (klift (Raise e)) Q E.
Proof. intros H s Hs. split; [apply same_refl|]. by apply H. Qed.

Lemma tripleX_bind {A B} I (m : kprog K A) (f : A -> kprog K B) J Q E : tripleX I m J E -> (forall a, tripleX (J a) (f a) Q E) -> tripleX I (kbind m f) Q E.
Proof.
  intros Hm Hf s Hs. destruct (Hm s Hs) as [Hfs Hq]. unfold kbind. destruct (m s) as [s' [a|e]]; cbn in *; [|done].
  destruct (Hf a s' Hq) as [Hfs' Hq']. split; [by eapply same_trans|done].
Qed.

Lemma triple_bind {A B} I (m : kprog K A) (f : A -> kprog K B) J Q E : triple I m J E -> (forall a, triple (J a) (f a) Q E) -> triple I (kbind m f) Q E.
Proof. apply tripleX_bind. Qed.

Lemma triple_assoc {A B C} I (m : kprog K A) (f : A -> kprog K B) (g : B -> kprog K C) Q E :
  triple I (kbind (kbind m f) g) Q E -> triple I (kbind m (fun a => kbind (f a) g)) Q E.
Proof. intros H s Hs. specialize (H s Hs). unfold kbind in *. by destruct (m s) as [s' [a|e]]. Qed.

Lemma tripleX_catch {A} I (m : kprog K A) h Q E E' : tripleX I m Q E -> (forall e, tripleX (E e) (h e) Q E') -> tripleX I (kcatch m h) Q E'.
Proof.
  intros Hm Hh s Hs. destruct (Hm s Hs) as [Hfs Hq]. unfold kcatch. destruct (m s) as [s' [a|e]]; cbn in *; [done|].
  destruct (Hh e s' Hq) as [Hfs' Hq']. split; [by eapply same_trans|done].
Qed.

Lemma triple_catch {A} I (m : kprog K A) h Q E E' : triple I m Q E -> (forall e, triple E (h e) Q E') -> triple I (kcatch m h) Q E'.
Proof. apply tripleX_catch. Qed.

Lemma triple_finally {A} I (m : kprog K A) f J E Q E' :
  triple I m J E -> (forall a, triple (J a) f (fun _ => Q a) E') -> triple E f (fun _ => E') E' -> triple I (kfinally m f) Q E'.
Proof.
  intros Hm Ha He s Hs. destruct (Hm s Hs) as [Hfs Hq]. unfold kfinally. destruct (m s) as [s' [a|e]]; cbn in *.
  - destruct (Ha a s' Hq) as [Hfs' Hq']. destruct (f s') as [s'' [[]|e]]; cbn in *; (split; [by eapply same_trans|done]).
  - destruct (He s' Hq) as [Hfs' Hq']. destruct (f s') as [s'' [[]|e']]; cbn in *; (split; [by eapply same_trans|done]).
Qed.

Lemma triple_pure {A} (P : Prop) (I : K -> Prop) (m : kprog K A) Q E : (P -> tripleX I m Q E) -> tripleX (fun s => P /\ I s) m Q E.
Proof. intros H s [HP Hs]. by apply H. Qed.

Lemma triple_for {A B} I (body : B -> A -> kprog K B) (P : B -> Prop) l : (forall b a, a ∈ l -> P b -> triple I (body b a) (fun b' s => P b' /\ I s) I) ->
  forall b, P b -> triple I (kfor body b l) (fun b' s => P b' /\ I s) I.
Proof.
  induction l as [|x l IH]; intros Hb b Hp; cbn [kfor]; [apply triple_ret; auto|]. eapply triple_bind; [apply Hb; [by left|done]|].
  intros b'. apply triple_pure. intros Hp'. apply IH; [|done]. intros. apply Hb; [by right|done].
Qed.

Lemma tripleX_weaken {A} (I I' : K -> Prop) (m : kprog K A) (Q Q' : A -> K -> Prop) (E E' : exn -> K -> Prop) :
  (forall s, I' s -> I s) -> (forall a s, Q a s -> Q' a s) -> (forall e s, E e s -> E' e s) -> tripleX I m Q E -> tripleX I' m Q' E'.
Proof. intros HI HQ HE H s Hs. destruct (H s (HI s Hs)) as [Hf Hq]. split; [done|]. destruct ((m s).2); auto. Qed.

Lemma triple_weaken {A} (I I' : K -> Prop) (m : kprog K A) (Q Q' : A -> K -> Prop) (E E' : K -> Prop) :
  (forall s, I' s -> I s) -> (forall a s, Q a s -> Q' a s) -> (forall s, E s -> E' s) -> triple I m Q E -> triple I' m Q' E'.
Proof. intros HI HQ HE. by apply tripleX_weaken. Qed.

(** ** The engine's files and the user's *)

Definition own (s : K) (fd : Z) : Prop := exists g, file_of w s fd = Some g /\ ~ user_file w g.
Definition lent (s : K) (fd : Z) : Prop := exists f, file_of w s fd = Some f /\ user_file w f.

(** The engine has its own files [O] open and files [U] of the user, and no path
    leads to a file of its own. *)
Definition held (O U : list Z) (s : K) : Prop := Forall (own s) O /\ Forall (lent s) U.
Definition clean (s : K) : Prop := own_names w s = [].
Definition holds (O U : list Z) (s : K) : Prop := clean s /\ held O U s.

Abbreviation keeps O U m := (triple (holds O U) m (fun _ => holds O U) (holds O U)).

Lemma holds_same O U s s' : same_names w s s' -> holds O U s -> holds O U s'.
Proof. intros [H Hn] (Hx & Ho & Hu). split; [congruence|]. split; (eapply Forall_impl; [eassumption|]); intros fd (f & Hf & ?); exists f; by rewrite H. Qed.

Lemma holds_drop O U fd s : holds O (fd :: U) s -> holds O U s.
Proof. intros (Hn & Ho & Hu). apply Forall_cons in Hu as [_ Hu]. by split. Qed.

Lemma keeps_quiet {A} O U (m : kprog K A) : quiet w m -> keeps O U m.
Proof.
  intros Hq s Hs. destruct (Hq s) as [Hc Hf]. split; [by apply same_weaken|]. assert (holds O U (m s).1) by (by eapply holds_same). by destruct ((m s).2).
Qed.

Lemma keeps_own_write {A} O U fd (m : kprog K A) : fd ∈ O -> own_write w fd m -> keeps O U m.
Proof.
  intros Hin Hm s Hs. destruct Hs as (Hn & Ho & Hu). pose proof Ho as Ho'. rewrite Forall_forall in Ho'. destruct (Ho' fd Hin) as (g & Hg & Hng). destruct (Hm s g Hg Hng) as [Hf Hfd].
  split; [done|]. assert (holds O U (m s).1) by (by eapply holds_same). by destruct ((m s).2).
Qed.

Lemma forall_file (P : Z -> Prop) s s' (l : list Z) : (forall x f, x ∈ l -> file_of w s x = Some f -> file_of w s' x = Some f) ->
  Forall (fun fd => exists f, file_of w s fd = Some f /\ P f) l -> Forall (fun fd => exists f, file_of w s' fd = Some f /\ P f) l.
Proof. intros H Hl. rewrite Forall_forall in Hl |- *. intros x Hx. destruct (Hl x Hx) as (f & Hf & Hp). eauto. Qed.

(** What is left of [holds] when a new file could not be made: its name may
    still be there, which no [SourceNotMovable] announces. *)
Definition unmade (O U : list Z) (e : exn) (s : K) : Prop := held O U s /\ (exn_kind e = SourceNotMovable -> clean s).

(** The name of a new file is removed at once. *)
Lemma new_file_triple {A} O U p (F : Z -> A) : tripleX (holds O U) (let! fd := k_create k p in k_unlink k p ;;! kret (F fd))
  (fun a s => exists fd, a = F fd /\ holds (fd :: O) U s /\ fd ∉ O /\ fd ∉ U /\ forall g, file_of w s fd = Some g -> content w s g = []) (unmade O U).
Proof.
  intros s (Hn & Ho & Hu). unfold kbind, kret. destruct (l_create (KernelLaws := Laws) p s) as (Hf & Hnames & Hnew & Hold).
  destruct (k_create k p s) as [s' [fd|e]]; cbn [fst snd] in *.
  2:{ split; [done|]. assert (forall x, file_of w s' x = file_of w s x) as Hk by (intros x; by apply Hold).
      split; [split; (eapply forall_file; [|eassumption]); intros x f _; by rewrite Hk|]. intros _. unfold clean. destruct (own_names w s') as [|q l]; [done|].
      destruct (Hnames q) as [Hin|(_ & fd & ?)]; [by left| |done]. rewrite Hn in Hin. inversion Hin. }
  destruct (Hnew fd eq_refl) as (Hnone & g & Hg & Hgu & Hempty). destruct (l_unlink (KernelLaws := Laws) p s') as (Hc & Hfds & Hgone & Hos).
  assert (forall x f, file_of w s x = Some f -> file_of w (k_unlink k p s').1 x = Some f) as Hk by (intros x f Hx; rewrite Hfds, Hold; [done|congruence]).
  assert (held O U (k_unlink k p s').1) as Hheld by (split; (eapply forall_file; [|eassumption]); auto).
  destruct (k_unlink k p s') as [s'' [[]|e]]; cbn [fst snd] in *; (split; [eapply same_trans; [exact Hf|by apply same_weaken]|]).
  2:{ split; [done|]. intros Hk'. by destruct (Hos e eq_refl). }
  exists fd. split; [done|]. split; [|split; [|split]].
  - split; [|split; [constructor|apply Hheld]; [exists g; by rewrite Hfds|apply Hheld]].
    unfold clean. destruct (own_names w s'') as [|q l]; [done|]. destruct (Hgone q eq_refl) as [Hq Hin]; [by left|]. destruct (Hnames q Hin) as [Hin'|[? _]]; [|done]. rewrite Hn in Hin'. inversion Hin'.
  - intros Hin. rewrite Forall_forall in Ho. destruct (Ho fd Hin) as (? & ? & _). congruence.
  - intros Hin. rewrite Forall_forall in Hu. destruct (Hu fd Hin) as (? & ? & _). congruence.
  - intros g' Hg'. rewrite Hfds in Hg'. simplify_eq. by rewrite (proj2 Hc).
Qed.

Lemma open_triple O U p : triple (holds O U) (k_open k p) (fun fd s => holds O (fd :: U) s /\ fd ∉ O /\ fd ∉ U) (holds O U).
Proof.
  intros s (Hn & Ho & Hu). destruct (l_open (KernelLaws := Laws) p s) as (Hf & Hnames & Hnew & Hold). split; [by apply same_weaken|]. destruct (k_open k p s) as [s' [fd|e]]; cbn [fst snd] in *.
  - destruct (Hnew fd eq_refl) as (Hnone & f & Hfd & Huser). assert (forall x f, file_of w s x = Some f -> file_of w s' x = Some f) as Hk by (intros x f' Hx; rewrite Hold; [done|congruence]).
    split; [split; [congruence|split; [|constructor; [exists f; split; [done|]; apply Huser; rewrite Hn; intros Hin; inversion Hin|]]; (eapply forall_file; [|eassumption]; auto)]|].
    split; intros Hin; [rewrite Forall_forall in Ho; destruct (Ho fd Hin) as (g & Hg & _)|rewrite Forall_forall in Hu; destruct (Hu fd Hin) as (g & Hg & _)]; congruence.
  - eapply holds_same; [split; [|done]|by split]. intros x. apply Hold. done.
Qed.

Lemma close_triple O U fd : fd ∉ O -> fd ∉ U -> triple (holds O (fd :: U)) (k_close k fd) (fun _ => holds O U) (holds O U).
Proof.
  intros HO HU s (Hn & Ho & Hu). apply Forall_cons in Hu as [_ Hu]. destruct (l_close (KernelLaws := Laws) fd s) as (Hf & Hnames & Hold). split; [done|].
  assert (holds O U (k_close k fd s).1) as H; [|by destruct ((k_close k fd s).2)].
  split; [congruence|]. split; (eapply forall_file; [|eassumption]); intros x f Hx Hf'; (rewrite Hold; [done|]); intros ->; done.
Qed.

Abbreviation anything := (fun _ : K => True).

Lemma close_any fd : triple anything (k_close k fd) (fun _ => anything) anything.
Proof. intros s _. destruct (l_close (KernelLaws := Laws) fd s) as [Hf _]. split; [done|]. by destruct ((k_close k fd s).2). Qed.

Lemma any_quiet {A} (m : kprog K A) : quiet w m -> triple anything m (fun _ => anything) anything.
Proof. intros Hq s _. destruct (Hq s) as [Hc _]. split; [by apply same_weaken|]. by destruct ((m s).2). Qed.

(** ** Staging *)

(** Nothing has changed but files of the engine. *)
Definition stable (s s' : K) : Prop := same_files w s s' /\ same_names w s s'.

Lemma stable_refl s : stable s s.
Proof. done. Qed.

Lemma stable_trans s1 s2 s3 : stable s1 s2 -> stable s2 s3 -> stable s1 s3.
Proof. intros [H1 [F1 N1]] [H2 [F2 N2]]. split; [by eapply same_trans|]. split; [|congruence]. intros fd. by rewrite F2, F1. Qed.

Lemma stable_quiet {A} (m : kprog K A) s : quiet w m -> stable s (m s).1.
Proof. intros H. destruct (H s) as [Hc Hf]. split; [by apply same_weaken|done]. Qed.

Lemma nthZ_some {A} (l : list A) i : 0 <= i < py_len l -> exists x, nthZ l i = Some x.
Proof. intros Hi. unfold nthZ. apply lookup_lt_is_Some. unfold py_len in *. lia. Qed.

Lemma nthZ_len {A} (l : list A) i x : 0 <= i -> nthZ l i = Some x -> i < py_len l.
Proof. intros Hi H. apply lookup_lt_Some in H. unfold py_len. lia. Qed.

Lemma zero_refl l i : zero_extended l l i.
Proof. by left. Qed.

Lemma zero_trans l1 l2 l3 i : zero_extended l1 l2 i -> zero_extended l2 l3 i -> zero_extended l1 l3 i.
Proof. unfold zero_extended. intros [->|[H1 H2]] [H3|[H3 H4]]; [by left|by right|right; by rewrite H3|congruence]. Qed.

Lemma zero_some l l' i b : zero_extended l l' i -> nthZ l i = Some b -> nthZ l' i = Some b.
Proof. intros [->|[H _]]; [done|congruence]. Qed.

Lemma write_out_spec g fd : ~ user_file w g -> forall fuel data off s, file_of w s fd = Some g -> 0 <= off ->
  let '(s', r) := write_out k fuel fd data off s in
  stable s s' /\ (r = Ok tt -> (forall x, 0 <= x < py_len data -> nthZ (content w s' g) (off + x) = nthZ data x) /\
                            (forall i, 0 <= i -> i < off \/ off + py_len data <= i -> zero_extended (content w s g) (content w s' g) i)).
Proof.
  intros Hg. induction fuel as [|fuel IH]; intros data off s Hfd Ho; cbn [write_out]; destruct (Z.leb_spec (py_len data) 0).
  1,3: split; [apply stable_refl|]; intros _; split; [intros; lia|intros; apply zero_refl].
  { split; [apply stable_refl|done]. }
  unfold kbind. destruct (l_pwrite (KernelLaws := Laws) fd data off s g Hfd Hg) as [Hf Hnames]. destruct (k_pwrite k fd data off s) as [s1 [n|e]] eqn:E; cbn [fst] in *; [|split; [by split|done]].
  destruct (l_pwrite_ok _ _ _ _ _ _ _ Hfd E) as (Hn & Hnew & Hold). destruct (Z.leb_spec n 0); [split; [by split|done]|].
  specialize (IH (py_slice data n (py_len data)) (off + n) s1). destruct (write_out k fuel fd _ (off + n) s1) as [s2 r]. destruct IH as [Hs Hok]; [by rewrite (proj1 Hnames)|lia|].
  split; [by eapply stable_trans; [split|]|]. intros Hr. destruct (Hok Hr) as [Hx Hi]. rewrite py_len_slice in Hx, Hi by lia. split.
  - intros x Hxr. destruct (Z.lt_ge_cases x n).
    + destruct (nthZ_some data x) as [b Hb]; [lia|]. rewrite Hb. eapply zero_some; [apply Hi; lia|]. by rewrite Hnew by lia.
    + specialize (Hx (x - n) ltac:(lia)). replace (off + n + (x - n)) with (off + x) in Hx by lia. rewrite Hx. unfold nthZ. rewrite lookup_py_slice by lia. f_equal. lia.
  - intros i Hi0 Hir. eapply zero_trans; [apply Hold; lia|apply Hi; lia].
Qed.

Lemma slice_read (l : bytes) a m x : 0 <= a <= m -> 0 <= x < py_len (py_slice l a m) -> nthZ (py_slice l a m) x = nthZ l (a + x).
Proof.
  intros Ha Hx. apply nthZ_slice; [lia|]. rewrite py_slice_nonneg in Hx by lia. unfold py_len in Hx. rewrite length_take in Hx. lia.
Qed.

(** What is read is padded to the length of the piece. *)
Lemma padded_spec (l data : bytes) a m avail n : 0 <= a <= m -> data = py_slice l a m -> py_len data = avail -> avail <= n ->
  let data' := if avail <? n then data ++ py_zeros (n - avail) else data in
  py_len data' = n /\ (forall x, 0 <= x < avail -> nthZ data' x = nthZ l (a + x)) /\ forall x, avail <= x < n -> nthZ data' x = Some 0.
Proof.
  intros Ha Hd Hl Hn. cbv zeta. assert (forall x, 0 <= x < avail -> nthZ data x = nthZ l (a + x)) as Hx by (intros x Hx; subst; by apply slice_read).
  destruct (Z.ltb_spec avail n).
  - split; [unfold py_len in *; rewrite length_app; pose proof (py_len_zeros (n - avail) ltac:(lia)) as Hz; unfold py_len in Hz; lia|]. split; intros x Hxr.
    + rewrite nthZ_app_l by lia. by apply Hx.
    + rewrite nthZ_app_r by lia. unfold nthZ, py_zeros. apply lookup_replicate_2. lia.
  - split; [lia|]. split; [done|]. intros x Hxr. lia.
Qed.

Lemma same_state_stable s s' : same_state w s s' -> stable s s'.
Proof. intros [Hc Hn]. split; [by apply same_weaken|done]. Qed.

Lemma read_piece fd f a n s : file_of w s fd = Some f -> 0 <= a ->
  let rd := if n =? 0 then kret [] else k_pread k fd n a in
  same_state w s (rd s).1 /\ forall data, (rd s).2 = Ok data -> exists m, a <= m /\ data = py_slice (content w s f) a m.
Proof.
  intros Hfd Ha. destruct (n =? 0); cbn.
  - split; [done|]. intros data [= <-]. exists a. rewrite py_slice_nil by lia. split; [lia|done].
  - split; [apply l_pread|]. intros data E. destruct (k_pread k fd n a s) as [s1 r] eqn:Ep. cbn in E. subst r.
    destruct (l_pread_ok _ _ _ _ _ _ _ Hfd Ep) as (m & Hm & ->). exists m. split; [lia|done].
Qed.

(** What a copy leaves in the donor: the bytes of the file, zeros behind its
    end, and nothing else that is new. *)
Definition copied_ok (s s' : K) (f fo g go from len : Z) : Prop := staged w s' f fo g go len /\
  (forall i, 0 <= i -> i < go + from \/ go + len <= i -> zero_extended (content w s g) (content w s' g) i) /\
  (forall x, from <= x < len -> py_len (content w s f) <= fo + x -> nthZ (content w s' g) (go + x) = Some 0).

Lemma copy_loop_spec f g fd donor fo go len : user_file w f -> ~ user_file w g -> 0 <= fo -> 0 <= go -> forall fuel copied s,
  file_of w s fd = Some f -> file_of w s donor = Some g -> 0 <= copied -> staged w s f fo g go copied ->
  let '(s', r) := copy_loop k fuel fd fo donor len go (py_len (content w s f)) copied s in
  stable s s' /\ (r = Ok tt -> copied_ok s s' f fo g go copied len).
Proof.
  intros Hf Hg Hfo Hgo. induction fuel as [|fuel IH]; intros copied s Hfd Hdonor Hc Hst; cbn [copy_loop]; destruct (Z.ltb_spec copied len).
  2,4: split; [apply stable_refl|]; intros _; split; [intros x Hx; apply Hst; lia|]; split; [intros; apply zero_refl|intros; lia].
  { split; [apply stable_refl|done]. }
  destruct (k_stop k s && (copied =? 0)); [split; [apply stable_refl|done]|].
  set (take := Z.min COPY_BUFFER (len - copied)). set (avail := Z.max 0 (Z.min take (py_len (content w s f) - (fo + copied)))). assert (0 < take) by (unfold take, COPY_BUFFER; lia).
  destruct (read_piece fd f (fo + copied) avail s Hfd ltac:(lia)) as [Hs1 Hdata]. unfold kbind. set (rd := if avail =? 0 then _ else _) in *. destruct (rd s) as [s1 [data|e]] eqn:Er; cbn [fst snd] in *; [|split; [by apply same_state_stable|done]].
  destruct (Hdata data eq_refl) as (m & Hm & Hsl). clear Hdata Er rd. destruct (Z.eqb_spec (py_len data) avail) as [Hlen|]; cbn [negb]; [|split; [by apply same_state_stable|done]].
  set (data' := if avail <? take then _ else _). destruct (padded_spec (content w s f) data (fo + copied) m avail take ltac:(lia) Hsl Hlen ltac:(lia)) as (Hlen' & Hdata' & Hzero). fold data' in Hlen', Hdata', Hzero.
  pose proof Hs1 as [[_ Hc1] [Hfd1 _]]. apply same_state_stable in Hs1. pose proof (write_out_spec g donor Hg (length data') data' (go + copied) s1) as Hw. rewrite Hfd1 in Hw. specialize (Hw Hdonor ltac:(lia)).
  destruct (write_out k _ donor data' (go + copied) s1) as [s2 [[]|e]]; destruct Hw as [Hs2 Hok]; [|split; [by eapply stable_trans|done]].
  destruct (Hok eq_refl) as [Hnew Hold]. rewrite Hlen' in Hold. rewrite Hc1 in Hold. assert (stable s s2) as Hs by (by eapply stable_trans). pose proof Hs as [Hf2 [Hfd2 _]].
  specialize (IH (copied + take) s2). rewrite !Hfd2, (proj2 Hf2 f Hf) in IH. specialize (IH Hfd Hdonor ltac:(lia)). destruct (copy_loop k fuel fd fo donor len go _ _ s2) as [s3 r].
  destruct IH as [Hs3 Hr].
  { intros x Hx Hin. rewrite (proj2 Hf2 f Hf) in Hin |- *. destruct (Z.lt_ge_cases x copied) as [Hxc|].
    - destruct (nthZ_some (content w s f) (fo + x)) as [b Hb]; [lia|]. rewrite Hb. eapply zero_some; [apply Hold; lia|]. rewrite <- Hb. apply Hst; [lia|done].
    - replace (go + x) with (go + copied + (x - copied)) by lia. rewrite Hnew by lia. rewrite Hdata' by lia. f_equal. lia. }
  split; [by eapply stable_trans|]. intros ->. destruct (Hr eq_refl) as (Hst3 & Hout & Hpad). rewrite (proj2 Hf2 f Hf) in Hpad. split; [done|]. split.
  - intros i Hi0 Hi. eapply zero_trans; [apply Hold; lia|apply Hout; lia].
  - intros x Hx Hend. destruct (Z.lt_ge_cases x (copied + take)); [|apply Hpad; lia]. eapply zero_some; [apply Hout; lia|].
    replace (go + x) with (go + copied + (x - copied)) by lia. rewrite Hnew by lia. apply Hzero. lia.
Qed.

(** The bytes of a range are staged in the file of another descriptor. *)
Definition ready (s : K) (fd fo donor go len : Z) : Prop := forall f g, file_of w s fd = Some f -> file_of w s donor = Some g -> staged w s f fo g go len.

Lemma holds_in O U s : holds O U s -> (forall fd, fd ∈ O -> own s fd) /\ (forall fd, fd ∈ U -> lent s fd).
Proof. intros (_ & Ho & Hu). split; by apply Forall_forall. Qed.

Lemma copy_range_spec f g fd donor fo len go s : user_file w f -> ~ user_file w g -> 0 <= fo -> 0 <= go -> file_of w s fd = Some f -> file_of w s donor = Some g ->
  let '(s', r) := _copy_range k fd fo donor len go s in stable s s' /\ (r = Ok tt -> copied_ok s s' f fo g go 0 len).
Proof.
  intros Hfu Hgu Hfo Hgo Hf Hg. unfold _copy_range, kbind. pose proof (l_size (KernelLaws := Laws) fd s) as [Hc Hn]. destruct (k_fstat_size k fd s) as [s1 [n|e]] eqn:E; cbn [fst] in Hc, Hn.
  2:{ split; [by apply same_state_stable|done]. }
  rewrite (l_size_ok _ _ _ _ _ Hf E), <- (proj2 Hc f). assert (file_of w s1 fd = Some f /\ file_of w s1 donor = Some g) as [Hf1 Hg1] by (by rewrite !(proj1 Hn)).
  pose proof (copy_loop_spec f g fd donor fo go len Hfu Hgu Hfo Hgo (S (Z.to_nat (len / COPY_BUFFER))) 0 s1 Hf1 Hg1 ltac:(lia)) as Hl.
  destruct (copy_loop k _ fd fo donor len go _ 0 s1) as [s2 r]. destruct Hl as [Hst Hr]; [intros x Hx; lia|].
  split; [eapply stable_trans; [by apply same_state_stable|done]|]. intros Hok. specialize (Hr Hok). unfold copied_ok in *. by rewrite !(proj2 Hc) in Hr.
Qed.

Lemma copy_triple O U fd donor fo len go : fd ∈ U -> donor ∈ O -> 0 <= fo -> 0 <= go ->
  triple (holds O U) (_copy_range k fd fo donor len go) (fun _ s => holds O U s /\ ready s fd fo donor go len) (holds O U).
Proof.
  intros Hfd Hdonor Hfo Hgo s Hs. destruct (holds_in _ _ _ Hs) as [Ho Hu]. destruct (Hu fd Hfd) as (f & Hf & Hfu). destruct (Ho donor Hdonor) as (g & Hg & Hgu).
  pose proof (copy_range_spec f g fd donor fo len go s Hfu Hgu Hfo Hgo Hf Hg) as H. destruct (_copy_range k fd fo donor len go s) as [s' r]. destruct H as [[Hfs Hn] Hr].
  split; [done|]. assert (holds O U s') as Hh by (by eapply holds_same). destruct r as [[]|e]; cbn [snd]; [|done]. split; [done|].
  intros f' g' Hf' Hg'. cbn [fst] in *. rewrite (proj1 Hn) in Hf', Hg'. simplify_eq. by apply (Hr eq_refl).
Qed.

(** ** Programs made of quiet calls *)

Lemma same_state_trans s1 s2 s3 : same_state w s1 s2 -> same_state w s2 s3 -> same_state w s1 s3.
Proof.
  intros [[V1 C1] [F1 N1]] [[V2 C2] [F2 N2]]. split; split; [congruence|intros f; by rewrite C2, C1|intros f; by rewrite F2, F1|congruence].
Qed.

Lemma quiet_ret {A} (a : A) : quiet w (kret a).
Proof. done. Qed.

Lemma quiet_lift {A} (r : result A) : quiet w (klift r).
Proof. done. Qed.

Lemma quiet_bind {A B} (m : kprog K A) (f : A -> kprog K B) : quiet w m -> (forall a, quiet w (f a)) -> quiet w (kbind m f).
Proof. intros Hm Hf s. unfold kbind. specialize (Hm s). destruct (m s) as [s1 [a|e]]; [|done]. eapply same_state_trans; [exact Hm|apply Hf]. Qed.

Lemma quiet_catch {A} (m : kprog K A) h : quiet w m -> (forall e, quiet w (h e)) -> quiet w (kcatch m h).
Proof. intros Hm Hh s. unfold kcatch. specialize (Hm s). destruct (m s) as [s1 [a|e]]; [done|]. eapply same_state_trans; [exact Hm|apply Hh]. Qed.

Lemma quiet_raise_if {A} (b : bool) c msg (m : kprog K A) : quiet w m -> quiet w (if b then kraise c msg else m).
Proof. by destruct b. Qed.

Lemma fiemap_quiet fd a n : quiet w (fiemap_range k rounds fd a n).
Proof.
  unfold fiemap_range. generalize (@nil FiemapExtent). generalize (if n =? 2 ^ 64 - 1 then 2 ^ 64 - 1 else a + n). intros limit. revert a.
  induction rounds as [|fuel IH]; intros cursor found; cbn [fiemap_loop]; destruct (cursor <? limit); try done.
  apply quiet_bind; [apply l_fiemap|]. intros l. case_bool_decide; [done|]. apply quiet_raise_if. by destruct (_ || _).
Qed.

Lemma ready_quiet {A} O U (m : kprog K A) fd fo donor go len : quiet w m ->
  triple (fun s => holds O U s /\ ready s fd fo donor go len) m (fun _ s => holds O U s /\ ready s fd fo donor go len) (holds O U).
Proof.
  intros Hq s [Hs Hr]. destruct (Hq s) as [Hc Hn]. split; [by apply same_weaken|]. assert (holds O U (m s).1) by (by eapply holds_same).
  destruct ((m s).2); [|done]. split; [done|]. intros f g Hf Hg. rewrite (proj1 Hn) in Hf, Hg. intros x. rewrite !(proj2 Hc). by apply Hr.
Qed.

Lemma exchange_triple {A} O U fd donor fo go len (m : kprog K A) : fd ∈ U -> donor ∈ O -> own_exchange w fd donor fo go len m ->
  triple (fun s => holds O U s /\ ready s fd fo donor go len) m (fun _ => holds O U) (holds O U).
Proof.
  intros Hfd Hdonor Hm s [Hs Hr]. destruct (holds_in _ _ _ Hs) as [Ho Hu]. destruct (Hu fd Hfd) as (f & Hf & Hfu). destruct (Ho donor Hdonor) as (g & Hg & Hgu).
  destruct (Hm s f g Hf Hg Hfu Hgu (Hr f g Hf Hg)) as [Hfs Hn]. split; [done|]. assert (holds O U (m s).1) by (by eapply holds_same). by destruct ((m s).2).
Qed.

(** ** Both exchanges *)

Lemma block_exact a : a mod bs = 0 -> a / bs * bs = a.
Proof. intros H. pose proof (Z.div_mod a bs ltac:(lia)). lia. Qed.

Lemma keeps_raise_if {A} (I : K -> Prop) (b : bool) c msg (m : kprog K A) Q (E : K -> Prop) : (forall s, I s -> E s) -> (b = false -> triple I m Q E) -> triple I (if b then kraise c msg else m) Q E.
Proof. intros HE H. destruct b; [by apply triple_raise|auto]. Qed.

Lemma ext4_exchange_triple O U fd donor fo go len : fd ∈ U -> donor ∈ O ->
  triple (fun s => holds O U s /\ ready s fd fo donor go len) (_ext4_exchange k fd donor fo go len bs) (fun _ => holds O U) (holds O U).
Proof.
  intros Hfd Hdonor. unfold _ext4_exchange. apply keeps_raise_if; [by intros s []|]. intros Hb. apply orb_false_iff in Hb as [Hb Hl]. apply orb_false_iff in Hb as [Hfo Hgo].
  apply negb_false_iff, Z.eqb_eq in Hfo, Hgo, Hl. eapply triple_bind.
  - eapply triple_catch; [apply exchange_triple; [done..|]|intros e; destruct (errno_in e _); by apply triple_raise].
    pose proof (l_move_ext (KernelLaws := Laws) fd donor (fo / bs) (go / bs) (len / bs)) as H. by rewrite !block_exact in H by done.
  - intros n. apply keeps_raise_if; [done|]. intros _. by apply triple_ret.
Qed.

Lemma xfs_exchange_triple O U fd donor fo go len : fd ∈ U -> donor ∈ O ->
  triple (fun s => holds O U s /\ ready s fd fo donor go len) (_xfs_exchange k fd donor fo go len) (fun _ => holds O U) (holds O U).
Proof.
  intros Hfd Hdonor. eapply triple_catch; [apply exchange_triple; [done..|apply l_exchange_range]|]. intros e. destruct (errno_in e _); [by apply triple_raise|]. destruct (errno_in e _); by apply triple_raise.
Qed.

(** ** FIEMAP and the scan *)

Definition unsigned (e : FiemapExtent) : Prop := 0 <= fx_logical e /\ 0 <= fx_physical e.

Lemma fiemap_loop_triple O U fd limit batch : forall fuel cursor found, Forall unsigned found ->
  triple (holds O U) (fiemap_loop k fuel fd cursor limit batch found) (fun l s => Forall unsigned l /\ holds O U s) (holds O U).
Proof.
  induction fuel as [|fuel IH]; intros cursor found Hfound; cbn [fiemap_loop]; destruct (cursor <? limit); try (apply triple_ret; done); [by apply triple_raise|].
  eapply (triple_bind _ _ _ (fun l s => Forall unsigned l /\ holds O U s)).
  - intros s Hs. destruct (keeps_quiet O U _ (l_fiemap (KernelLaws := Laws) fd cursor (limit - cursor) batch) s Hs) as [Hf Hq]. split; [done|].
    destruct (k_fiemap k fd cursor (limit - cursor) batch s) as [s1 [l|e]] eqn:E; [|done]. split; [by eapply l_fiemap_unsigned|done].
  - intros l. apply triple_pure. intros Hl. case_bool_decide; [by apply triple_ret|]. apply keeps_raise_if; [done|]. intros _.
    assert (Forall unsigned (found ++ l)) by (by apply Forall_app). destruct (_ || _); [by apply triple_ret|]. by apply IH.
Qed.

Lemma fiemap_triple O U fd a n : triple (holds O U) (fiemap_range k rounds fd a n) (fun l s => Forall unsigned l /\ holds O U s) (holds O U).
Proof. by apply fiemap_loop_triple. Qed.
Abbreviation keepsI I m := (triple I m (fun _ => I) I).

Lemma ignore_triple I m : keepsI I m -> keepsI I (ignore_os_error m).
Proof. intros H. eapply triple_catch; [exact H|]. intros e. destruct (is_os_error e); [by apply triple_ret|by apply triple_raise]. Qed.

Lemma collector_close_triple I c : (forall fd, keepsI I (k_close k fd)) -> keepsI I (k_rmdir k (c_workspace c)) -> keepsI I (collector_close k c).
Proof.
  intros Hc Hr. unfold collector_close. eapply (triple_bind _ _ _ (fun _ => I)); [|intros _; by apply ignore_triple].
  eapply triple_weaken; [| | |apply (triple_for I _ (fun _ => True))]; [done|by intros a s []|done| |done].
  intros _ fd _ _. eapply triple_weaken; [| | |apply ignore_triple, Hc]; done.
Qed.

Lemma fill_attempt_triple O U fd : fd ∈ O -> forall fuel block cur att, keeps O U (fill_attempt k fuel block fd cur att).
Proof.
  intros Hfd. induction fuel as [|fuel IH]; intros block cur att; cbn [fill_attempt]; destruct (block <=? att); try (by apply triple_ret); [by apply triple_raise|].
  eapply triple_catch.
  - eapply (triple_bind _ _ _ (fun _ => holds O U)); [|intros _; by apply triple_ret]. unfold _fallocate. destruct (att <=? 0); [by apply triple_ret|]. by eapply keeps_own_write, l_fallocate.
  - intros e. destruct (negb _); [by apply triple_raise|]. apply IH.
Qed.

Lemma fill_triple O U fd : fd ∈ O -> forall block fl, keeps O U (fill_file k rounds block fl fd).
Proof.
  intros Hfd block fl. eapply (triple_bind _ _ _ (fun _ => holds O U)); [|intros; eapply triple_bind; [apply keeps_quiet, l_fsync|intros; by apply triple_ret]].
  generalize 0 at 1. generalize 0. induction rounds as [|n IH]; intros tr cur; cbn [fill_loop]; [by apply triple_raise|].
  eapply triple_bind; [apply keeps_quiet, l_statvfs|]. intros [[bf bu] fr]. destruct (_ <? block); [by apply triple_ret|].
  eapply triple_bind; [by apply fill_attempt_triple|]. intros [m|]; [apply IH|by apply triple_ret].
Qed.

(** The gaps are ranges of the engine's files. *)
Definition gap_ok (O : list Z) (g : CollectorExtent) : Prop := g_fd g ∈ O /\ 0 <= g_logical g.

Lemma owned_extents_triple O U block dev c : c_fds c ⊆ O ->
  triple (holds O U) (owned_extents k rounds block dev c) (fun l s => Forall (gap_ok O) l /\ holds O U s) (holds O U).
Proof.
  intros Hc. eapply triple_bind; [apply (triple_for _ _ (Forall (gap_ok O))); [|done]|].
  - intros acc fd Hfd Hacc. eapply triple_bind; [apply fiemap_triple|]. intros l. apply triple_pure. intros Hl. apply triple_ret. intros s Hs. split; [|done].
    apply Forall_app. split; [done|]. apply Forall_concat, Forall_map. eapply Forall_impl; [exact Hl|]. intros e [He _]. unfold gap_of.
    destruct (_ <=? 0); [done|]. constructor; [|done]. split; [by apply Hc|done].
  - intros l. apply triple_pure. intros Hl. apply triple_ret. intros s Hs. split; [|done]. by rewrite py_sorted_perm.
Qed.

(** Every source in the heap begins in its file. *)
Definition heap_ok (h : list heap_entry) : Prop := Forall (fun e : heap_entry => 0 <= s_logical e.2) h.
Lemma heap_ok_push h e : heap_ok h -> 0 <= s_logical e.2 -> heap_ok (heappush h e).
Proof. intros Hh He. unfold heap_ok, heappush. rewrite sort_insert_perm. by constructor. Qed.

Lemma add_extents_ok block dev path l : Forall unsigned l -> forall s, heap_ok (n_heap s) -> heap_ok (n_heap (fold_left (add_extent block dev path) l s)).
Proof.
  induction 1 as [|e l [He _] _ IH]; intros s Hs; [done|]. apply IH. unfold add_extent. destruct (flagged _ _); [done|]. destruct (misplaced _ _ _); [done|].
  by apply heap_ok_push.
Qed.

(** What a step of the scan ends with. *)
Abbreviation scanned I := (fun (r : scan * result unit) s => heap_ok (n_heap r.1) /\ I s).

Lemma xflags_triple O U fd : keeps O U (_file_xflags k fd).
Proof. eapply triple_catch; [apply keeps_quiet, l_xflags|]. intros e. destruct (errno_in e _); [by apply triple_ret|by apply triple_raise]. Qed.

Lemma scan_file_triple O U block dev path fd s : heap_ok (n_heap s) ->
  triple (holds O U) (scan_file k rounds block dev path fd s) (scanned (holds O U)) (holds O U).
Proof.
  intros Hh x Hx. unfold scan_file. destruct (xflags_triple O U fd x Hx) as [Hf Hq]. destruct (_file_xflags k fd x) as [x1 [fl|e]]; cbn [fst snd] in *; [|done].
  destruct (flagged fl _); [done|]. destruct (fiemap_triple O U fd 0 (2 ^ 64 - 1) x1 Hq) as [Hf' Hq']. unfold fiemap. destruct (fiemap_range k rounds fd 0 _ x1) as [x2 [l|e]]; cbn [fst snd] in *.
  - split; [by eapply same_trans|]. destruct Hq'. split; [|done]. by apply add_extents_ok.
  - split; [by eapply same_trans|]. done.
Qed.

Section walk.
Context {T : Type} (visit : text -> Z -> T -> kprog K (T * result unit)) (excluded : text) (O : list Z) (P : T -> Prop).
Hypothesis visit_ok : forall path fd s, P s -> triple (holds O [fd]) (visit path fd s) (fun r st => P r.1 /\ holds O [fd] st) (holds O [fd]).

Lemma walk_entry_triple s stack entry : P s -> triple (holds O []) (walk_entry k visit excluded s stack entry) (fun r st => P r.1.1 /\ holds O [] st) (holds O []).
Proof.
  intros Hs. unfold walk_entry. destruct entry as [path [[| |]|e]]; case_bool_decide; try (by apply triple_ret).
  intros x Hx. destruct (open_triple O [] path x Hx) as [Hf Hq]. destruct (k_open k path x) as [x1 [fd|e]]; cbn [fst snd] in *; [|done].
  destruct Hq as (Hx1 & Ho & Hu). match goal with |- context [kbind ?a ?b x1] => cut (triple (holds O [fd]) (kbind a b) (fun r st => P r.1.1 /\ holds O [] st) (holds O [])) end.
  { intros H'. destruct (H' x1 Hx1) as [Hf' Hq']. split; [by eapply same_trans|done]. }
  eapply triple_bind; [eapply triple_weaken; [| | |by apply visit_ok]; [done|intros a y Hy; exact Hy|apply holds_drop]|].
  intros r. apply triple_pure. intros Hr. eapply (triple_bind _ _ _ (fun r st => P r.1 /\ holds O [] st)); [|intros r'; by apply triple_ret].
  intros y Hy. unfold closing. destruct (close_triple O [] fd Ho Hu y Hy) as [Hf' Hq']. by destruct (k_close k fd y) as [y1 [[]|e]].
Qed.

Lemma walk_entries_triple l : forall s stack, P s -> triple (holds O []) (walk_entries k visit excluded s stack l) (fun r st => P r.1.1 /\ holds O [] st) (holds O []).
Proof.
  induction l as [|entry l IH]; intros s stack Hs; cbn [walk_entries]; [by apply triple_ret|].
  eapply triple_bind; [by apply walk_entry_triple|]. intros [[s' stack'] r]. apply triple_pure. intros Hr. destruct r; [by apply IH|by apply triple_ret].
Qed.

Lemma walk_triple : forall fuel s stack, P s -> triple (holds O []) (walk_directories k visit excluded fuel s stack) (fun s st => P s /\ holds O [] st) (holds O []).
Proof.
  induction fuel as [|fuel IH]; intros s [|d stack] Hs; cbn [walk_directories]; try (by apply triple_ret); [by apply triple_raise|].
  eapply (triple_bind _ _ _ (fun _ => holds O [])).
  - eapply triple_catch; [apply keeps_quiet, l_scandir|]. intros e. destruct (is_os_error e); [by apply triple_ret|by apply triple_raise].
  - intros l. eapply triple_bind; [by apply walk_entries_triple|]. intros [[s' stack'] r]. apply triple_pure. intros Hs'. destruct r as [u|e]; [by apply IH|]. destruct (is_os_error e); [by apply IH|by apply triple_raise].
Qed.
End walk.

Lemma scan_triple O mountpoint block dev excl :
  triple (holds O []) (scan_sources k rounds mountpoint block dev excl) (fun r s => heap_ok r.1.1 /\ holds O [] s) (holds O []).
Proof.
  eapply triple_bind; [apply (walk_triple _ _ _ (fun n => heap_ok (n_heap n))); [|constructor]|intros n; apply triple_ret; by intros s []].
  intros path fd s Hs. by apply scan_file_triple.
Qed.

(** ** A source moves down *)

(** The state as far as a run of FIEMAP may change it. *)
Definition flushed (s s' : K) : Prop := same_names w s s' /\ forall g x p, physical w s g x = Some p -> physical w s' g x = Some p.

(** An extent of [f] is where it was reported. *)
Definition placed (s : K) (f : Z) (e : FiemapExtent) : Prop := Z.land (fx_flags e) 6 = 0 \/ ~ user_file w f ->
  forall x, 0 <= x < fx_length e -> physical w s f (fx_logical e + x) = Some (fx_physical e + x).

Lemma placed_flushed s s' f l : flushed s s' -> Forall (placed s f) l -> Forall (placed s' f) l.
Proof. intros [_ Hp] Hl. eapply Forall_impl; [exact Hl|]. intros e He Hf x Hx. by apply Hp, He. Qed.

Lemma fiemap_loop_placed fd f limit batch : forall fuel cursor found s s' l, file_of w s fd = Some f -> Forall (placed s f) found ->
  fiemap_loop k fuel fd cursor limit batch found s = (s', Ok l) -> flushed s s' /\ Forall (placed s' f) l.
Proof.
  induction fuel as [|fuel IH]; intros cursor found s s' l Hfd Hfound; cbn [fiemap_loop]; destruct (cursor <? limit); try (by intros [= <- <-]).
  unfold kbind. pose proof (l_fiemap (KernelLaws := Laws) fd cursor (limit - cursor) batch s) as [_ Hn]. destruct (k_fiemap k fd cursor (limit - cursor) batch s) as [s1 [m|e]] eqn:E; cbn [fst] in Hn; [|done].
  destruct (l_fiemap_ok _ _ _ _ _ _ _ _ Hfd E) as [Hp Hm]. assert (flushed s s1) as Hs1 by done. pose proof (placed_flushed _ _ _ _ Hs1 Hfound) as Hfound1.
  case_bool_decide; [by intros [= <- <-]|]. destruct (negb _); [done|]. assert (Forall (placed s1 f) (found ++ m)) by (by apply Forall_app).
  destruct (_ || _); [by intros [= <- <-]|]. intros H'. apply IH in H' as [[Hn' Hp'] Hl]; [|by rewrite (proj1 Hn)|done]. split; [|done].
  split; [|auto]. destruct Hn as [Hn1 Hn2], Hn' as [Hn1' Hn2']. split; [|congruence]. intros x. by rewrite Hn1', Hn1.
Qed.

Lemma movable_known flags : flagged flags UNMOVABLE_FIEMAP_FLAGS = false -> Z.land flags 6 = 0.
Proof.
  intros H. apply negb_false_iff, Z.eqb_eq in H. change 6 with (Z.land UNMOVABLE_FIEMAP_FLAGS 6). by rewrite Z.land_assoc, H.
Qed.

Lemma source_placed fd f a p n s s' : file_of w s fd = Some f -> _verify_source k rounds fd a p n s = (s', Ok tt) ->
  flushed s s' /\ forall x, 0 <= x < n -> physical w s' f (a + x) = Some (p + x).
Proof.
  intros Hfd. unfold _verify_source, kbind. destruct (fiemap_range k rounds fd a n s) as [s1 [l|e]] eqn:E; [|done]. apply (fiemap_loop_placed _ f) in E as [Hs1 Hl]; [|done..].
  destruct (source_owned l a p n) eqn:Eo; cbn [negb]; [|done]. intros [= <-]. split; [done|]. intros x Hx.
  apply existsb_exists in Eo as (e & He & Hb). rewrite Forall_forall in Hl. specialize (Hl e (proj2 (list_elem_of_In _ _) He)).
  apply andb_prop in Hb as [Hb Hfl]. apply andb_prop in Hb as [Hb Hph]. apply andb_prop in Hb as [Hlo Hhi].
  replace (a + x) with (fx_logical e + (a - fx_logical e + x)) by lia. rewrite Hl; [f_equal; lia|left; by apply movable_known, negb_true_iff|lia].
Qed.

Lemma slice_placed l f a p n s : ~ user_file w f -> Forall (placed s f) l -> slice_owned l a p n = true -> forall x, 0 <= x < n -> physical w s f (a + x) = Some (p + x).
Proof.
  intros Hf. induction 1 as [|e l He _ IH]; cbn [slice_owned]; [done|]. destruct (_ && _) eqn:Eb; [|done]. apply andb_prop in Eb as [Hlo Hhi]. intros Ho x Hx. apply andb_prop in Ho as [Hp Hn].
  replace (a + x) with (fx_logical e + (a - fx_logical e + x)) by lia. rewrite He; [f_equal; lia|by right|lia].
Qed.

Lemma gap_placed gap g a p n s s' : file_of w s (g_fd gap) = Some g -> ~ user_file w g -> verify_slice k rounds gap a p n s = (s', Ok tt) ->
  flushed s s' /\ forall x, 0 <= x < n -> physical w s' g (a + x) = Some (p + x).
Proof.
  intros Hfd Hg. unfold verify_slice, kbind. destruct (fiemap_range k rounds (g_fd gap) a n s) as [s1 [l|e]] eqn:E; [|done]. apply (fiemap_loop_placed _ g) in E as [Hs1 Hl]; [|done..].
  destruct (slice_owned l a p n) eqn:Eo; cbn [negb]; [|done]. intros [= <-]. split; [done|]. by apply (slice_placed l).
Qed.

(** Once both are verified, a range that ends above the gap's cursor lies above
    what is to be filled. *)
Lemma verified_below O U fd gap a d p q n : g_fd gap ∈ O -> fd ∈ U -> 0 < n -> q < p + n ->
  triple (holds O U) (_verify_source k rounds fd a p n ;;! verify_slice k rounds gap d q n) (fun _ s => q + n <= p /\ holds O U s) (holds O U).
Proof.
  intros Hgap Hfd Hn Hq s Hs. 
  assert (keeps O U (_verify_source k rounds fd a p n ;;! verify_slice k rounds gap d q n)) as Hk.
  { eapply (triple_bind _ _ _ (fun _ => holds O U)); intros; (eapply triple_bind; [apply fiemap_triple|]; intros l; apply triple_pure; intros _; apply keeps_raise_if; [done|]; intros _; by apply triple_ret). }
  destruct (Hk s Hs) as [Hf Hr]. split; [done|]. destruct (kbind _ _ s) as [s' [[]|e]] eqn:E; cbn [snd fst] in *; [|done]. split; [|done].
  destruct (holds_in _ _ _ Hs) as [Ho Hu]. destruct (Hu fd Hfd) as (f & Hff & Hfu). destruct (Ho (g_fd gap) Hgap) as (g & Hg & Hgu).
  unfold kbind in E. destruct (_verify_source k rounds fd a p n s) as [s1 [[]|e]] eqn:E1; [|done]. apply (source_placed _ f) in E1 as [[Hn1 _] Hp]; [|done].
  apply (gap_placed _ g) in E as [[_ Hmono] Hgp]; [|by rewrite (proj1 Hn1)|done].
  destruct (Z.le_gt_cases (q + n) p) as [|Hlt]; [done|exfalso]. set (m := Z.max p q).
  pose proof (Hmono _ _ _ (Hp (m - p) ltac:(lia))) as Hpm. pose proof (Hgp (m - q) ltac:(lia)) as Hgm. replace (p + (m - p)) with m in Hpm by lia. replace (q + (m - q)) with m in Hgm by lia.
  destruct (l_exclusive _ _ _ _ _ _ Hgu Hgm Hpm) as [-> _]. done.
Qed.
(** ** A pass *)

Lemma exchange_source_triple O fs gap cursor dl so sp n fd : g_fd gap ∈ O -> fd ∉ O -> 0 <= dl -> 0 <= so -> 0 < n -> cursor < sp + n ->
  triple (holds O [fd]) (exchange_source k rounds fs bs gap cursor dl so sp n fd) (fun _ s => cursor + n <= sp /\ holds O [] s) (holds O []).
Proof.
  intros Hgap Hfd Hdl Hso Hn Hc. assert (fd ∈ [fd]) as Hin by (by left). pose proof (close_triple O [] fd Hfd ltac:(apply not_elem_of_nil)) as Hclose.
  eapply (triple_finally _ _ _ (fun _ s => cursor + n <= sp /\ holds O [fd] s) (holds O [fd])); [|intros ?; apply triple_pure; intros Hp; by eapply triple_weaken, Hclose|exact Hclose].
  apply triple_assoc. eapply triple_bind; [by apply verified_below|]. intros ?. apply triple_pure. intros Hp.
  eapply triple_bind; [by apply copy_triple|]. intros ?. eapply triple_bind; [apply ready_quiet, l_fsync|]. intros ?.
  eapply (triple_bind _ _ _ (fun _ => holds O [fd])).
  - eapply triple_catch.
    + eapply (triple_bind _ _ _ (fun _ => holds O [fd])); [|intros ?; by apply triple_ret]. case_bool_decide; [by apply ext4_exchange_triple|by apply xfs_exchange_triple].
    + intros e. case_bool_decide; [by apply triple_ret|by apply triple_raise].
  - intros []; [|by apply triple_ret]. eapply triple_bind; [apply keeps_quiet, l_fsync|]. intros ?. eapply triple_bind; [apply keeps_quiet, l_fsync|]. intros ?. by apply triple_ret.
Qed.
Lemma pop_ok h above : heap_ok h -> heap_ok (_pop_high_source h above).2 /\
  forall s, (_pop_high_source h above).1 = Some s -> 0 <= s_logical s /\ above < source_end s /\ 0 < s_length s.
Proof.
  induction 1 as [|[[[e t] g] s] h Hs Hh IH]; cbn [_pop_high_source]; [split; [constructor|done]|].
  destruct (negb (g =? s_generation s) || (s_length s <=? 0)) eqn:Eg; [exact IH|]. apply orb_false_iff in Eg as [_ Hl].
  destruct (Z.leb_spec (source_end s) above); (split; [exact Hh|]); [done|]. intros s' [= <-]. cbn in Hs. lia.
Qed.

(** A range that is moved to lower blocks. *)
Definition moves_down (range : Z * Z * Z * Z) : Prop := let '(source, destination, n, _) := range in 0 < n /\ n mod bs = 0 /\ destination + n <= source.

Definition live_bytes (l : list (Z * Z * Z * Z)) : Z := zsum (map (fun range => range.1.2) l).

Definition result_ok (live_cells : Z) (r : ExtentPassResult) : Prop :=
  Forall moves_down (r_live r) /\ (0 < live_cells -> r_moved_bytes r = live_bytes (r_live r) /\ r_transactions r = py_len (r_live r)).

Lemma live_bytes_snoc l a b n t : live_bytes (l ++ [(a, b, n, t)]) = live_bytes l + n.
Proof. unfold live_bytes. rewrite map_app, zsum_app. cbn. lia. Qed.

Lemma result_moved live_cells r s d n t : result_ok live_cells r -> moves_down (s, d, n, t) ->
  result_ok live_cells (mkResult (r_moved_bytes r + n) (r_transactions r + 1) (r_runtime_skipped r) (r_blocked_reason r) (r_stopped r) (emit_live live_cells s d n t (r_live r))).
Proof.
  intros [Hd Hm] Hn. unfold emit_live. pose proof Hn as (Hpos & _ & _). rewrite (proj2 (Z.leb_gt n 0)) by lia. destruct (Z.leb_spec live_cells 0); cbn [orb].
  - split; [done|]. cbn. lia.
  - split; cbn [r_live r_moved_bytes r_transactions]; [apply Forall_app; split; [done|]; by constructor|]. intros Hl. destruct (Hm Hl) as [-> ->]. rewrite live_bytes_snoc. split; [done|]. unfold py_len. rewrite length_app. cbn. lia.
Qed.

Lemma whole_blocks m : (m - m mod bs) mod bs = 0.
Proof. rewrite <- Zminus_mod_idemp_r, Zmod_mod, Zminus_mod_idemp_r, Z.sub_diag. apply Zmod_0_l. Qed.

Lemma pass_step_triple O fs live before gap cursor dl h r : g_fd gap ∈ O -> 0 <= dl -> heap_ok h -> result_ok live r ->
  triple (holds O []) (pass_step k rounds fs bs live before gap cursor dl h r)
    (fun o s => ((forall m, o.1.1 = Moved m -> 0 < m) /\ heap_ok o.1.2 /\ result_ok live o.2) /\ holds O [] s) (holds O []).
Proof.
  intros Hgap Hdl Hh Hr x Hx. unfold pass_step. destruct (k_stop k x); [done|]. pose proof (pop_ok h cursor Hh) as [Hh' Hs]. destruct (_pop_high_source h cursor) as [[src|] h']; cbn [fst snd] in Hh', Hs; [|done].
  destruct (Hs src eq_refl) as (Hlog & Habove & Hlen). set (m0 := Z.min _ _). set (m := m0 - m0 mod bs). pose proof (whole_blocks m0) as Hm. fold m in Hm. pose proof (Z.mod_pos_bound m0 bs Hbs) as Hm0.
  destruct (Z.leb_spec m 0); [done|]. unfold source_end in Habove.
  destruct (open_triple O [] (s_path src) x Hx) as [Hf Hq]. destruct (k_open k (s_path src) x) as [x1 [fd|e]]; cbn [fst snd] in *; [|by destruct (is_os_error e)].
  destruct Hq as (Hx1 & Ho & _).
  match goal with |- context [kbind ?a ?b x1] => cut (triple (holds O [fd]) (kbind a b) (fun o s => ((forall m, o.1.1 = Moved m -> 0 < m) /\ heap_ok o.1.2 /\ result_ok live o.2) /\ holds O [] s) (holds O [])) end.
  { intros H'. destruct (H' x1 Hx1) as [Hf' Hq']. split; [by eapply same_trans|exact Hq']. }
  eapply triple_bind; [apply exchange_source_triple; try done; lia|]. intros ex. apply triple_pure. intros Hdown. destruct ex; cbn [negb]; [|by apply triple_ret].
  apply triple_ret. intros s Hx'. split; [|done]. split; [intros ? [= <-]; lia|]. cbn [fst snd]. split.
  - destruct (0 <? _); [|done]. by apply heap_ok_push.
  - apply result_moved; [done|]. split; [lia|]. split; [done|lia].
Qed.
Lemma gap_loop_triple O fs live before gap : g_fd gap ∈ O -> forall fuel cursor dl h r, 0 <= dl -> heap_ok h -> result_ok live r ->
  triple (holds O []) (gap_loop k rounds fuel fs bs live before gap cursor dl h r) (fun o s => (heap_ok o.1 /\ result_ok live o.2) /\ holds O [] s) (holds O []).
Proof.
  intros Hgap. induction fuel as [|fuel IH]; intros cursor dl h r Hdl Hh Hr; cbn [gap_loop]; (destruct (cursor <? gap_end gap); [|by apply triple_ret]); [by apply triple_raise|].
  eapply triple_bind; [by apply pass_step_triple|]. intros [[st h'] r']. cbn [fst snd]. apply triple_pure. intros (Hm & Hh' & Hr').
  destruct st as [m| | |]; [apply IH; [specialize (Hm m eq_refl); lia|done|done]|by apply IH|by apply triple_ret..].
Qed.

Lemma gaps_loop_triple O fs live before gaps : Forall (gap_ok O) gaps -> forall h r, heap_ok h -> result_ok live r ->
  triple (holds O []) (gaps_loop k rounds fs bs live before gaps h r) (fun r s => result_ok live r /\ holds O [] s) (holds O []).
Proof.
  induction 1 as [|gap gaps [Hgap Hlog] _ IH]; intros h r Hh Hr; cbn [gaps_loop]; [by apply triple_ret|].
  eapply triple_bind; [by apply gap_loop_triple|]. intros [h' r']. cbn [fst snd]. apply triple_pure. intros [Hh' Hr']. destruct (_ || _); [by apply triple_ret|by apply IH].
Qed.

Lemma pass_body_triple O mountpoint fs dev live before fd c : fd ∈ O -> c_fds c ⊆ O ->
  triple (holds O []) (pass_body k rounds mountpoint fs bs dev live before fd c) (fun r s => result_ok live r /\ holds O [] s) (holds O []).
Proof.
  intros Hfd Hc. assert (forall reason, result_ok live (blocked reason empty_result)) as Hnone by (intros reason; split; [constructor|done]).
  eapply triple_bind; [by apply fill_triple|]. intros ?. eapply triple_bind; [by apply owned_extents_triple|]. intros gaps. apply triple_pure. intros Hgaps.
  case_bool_decide; [by apply triple_ret|]. eapply triple_bind; [apply scan_triple|]. intros [[h nf] ns]. apply triple_pure. intros Hh. case_bool_decide; [by apply triple_ret|].
  by apply gaps_loop_triple.
Qed.

Lemma clean_quiet {A} (m : kprog K A) : quiet w m -> keepsI clean m.
Proof. intros Hq s Hs. destruct (Hq s) as [Hc [_ Hn]]. split; [by apply same_weaken|]. assert (clean (m s).1) by (unfold clean; congruence). by destruct ((m s).2). Qed.

Lemma clean_close fd : keepsI clean (k_close k fd).
Proof.
  intros s Hs. destruct (l_close (KernelLaws := Laws) fd s) as (Hf & Hn & _). split; [done|]. assert (clean (k_close k fd s).1) by (unfold clean; congruence). by destruct ((k_close k fd s).2).
Qed.

Lemma holds_clean O U s : holds O U s -> clean s.
Proof. by intros []. Qed.

Lemma with_collector_triple {A} mountpoint first (body : Z -> SpaceCollector -> kprog K A) (P : A -> Prop) : keepsI clean first ->
  (forall fd c, c_fds c = [fd] -> triple (holds [fd] []) (body fd c) (fun a s => P a /\ holds [fd] [] s) anything) ->
  triple clean (with_collector k mountpoint first body) (fun a s => P a /\ clean s) anything.
Proof.
  intros Hfirst Hbody. unfold with_collector. eapply triple_bind.
  { eapply triple_bind; [eapply triple_weaken; [| | |apply clean_quiet, l_mkdir]; done|]. intros u. apply (triple_ret _ _ (fun c s => c_fds c = [] /\ clean s)). done. }
  intros c. apply triple_pure. intros Hc s Hs.
  assert (triple clean (first ;;! _new_unlinked_file k c (of_string "collector")) (fun o s => c_fds o.2 = [o.1] /\ holds [o.1] [] s) anything) as Hnew.
  { eapply triple_bind; [eapply triple_weaken; [| | |exact Hfirst]; done|]. intros v.
    eapply tripleX_weaken; [| | |apply (new_file_triple [] [])]; [intros x Hx; by repeat constructor|intros o x (fd & -> & Hx & _); cbn; by rewrite Hc|done]. }
  destruct (Hnew s Hs) as [Hf Hq]. destruct (kbind _ _ s) as [s1 [[fd c']|e]]; cbn [fst snd] in *.
  - destruct Hq as [Hc' Hh].
    cut (triple (holds [fd] []) (kfinally (body fd c') (collector_close k c')) (fun r s => P r /\ clean s) anything).
    { intros H. destruct (H s1 Hh) as [Hf' Hq']. split; [by eapply same_trans|done]. }
    assert (keepsI clean (collector_close k c')) as Hclose by (apply collector_close_triple; [apply clean_close|apply clean_quiet, l_rmdir]).
    eapply triple_finally; [by apply Hbody| |].
    + intros res. apply triple_pure. intros Hres. eapply triple_weaken; [| | |exact Hclose]; [apply holds_clean|done..].
    + apply collector_close_triple; [apply close_any|apply any_quiet, l_rmdir].
  - cut (triple anything (collector_close k c ;;! klift (Raise e)) (fun r s => P r /\ clean s) anything).
    { intros H. destruct (H s1 I) as [Hf' Hq']. split; [by eapply same_trans|done]. }
    eapply triple_bind; [apply (collector_close_triple anything); [apply close_any|apply any_quiet, l_rmdir]|]. intros u. by apply triple_raise.
Qed.

Lemma pass_triple mountpoint fs dev live before :
  triple clean (_compact_extent_pass k rounds mountpoint fs bs dev live before) (fun r s => result_ok live r /\ clean s) anything.
Proof.
  apply with_collector_triple.
  - eapply triple_bind; [apply clean_quiet, l_statvfs|]. intros v. by apply triple_ret.
  - intros fd c Hc. eapply triple_weaken; [| | |apply pass_body_triple; [by left|by rewrite Hc]]; done.
Qed.

(** ** The loop over a gap ends *)

Lemma pop_shorter h above : (length (_pop_high_source h above).2 <= length h)%nat /\ forall s, (_pop_high_source h above).1 = Some s -> (length (_pop_high_source h above).2 < length h)%nat.
Proof.
  induction h as [|[[[e t] g] s] h [IH1 IH2]]; cbn [_pop_high_source]; [split; [done|done]|]. destruct (negb _ || _); [split; [cbn; lia|intros s' Hs; specialize (IH2 s' Hs); cbn; lia]|].
  destruct (_ <=? above); cbn; (split; [lia|intros; lia]).
Qed.

Lemma push_length h e : length (heappush h e) = S (length h).
Proof. unfold heappush. by rewrite sort_insert_perm. Qed.

Lemma pass_step_shrinks fs live before gap cursor dl h r s : match (pass_step k rounds fs bs live before gap cursor dl h r s).2 with
  | Ok (Moved m, h', _) => bs <= m <= gap_end gap - cursor /\ (length h' <= length h)%nat
  | Ok (Skipped, h', _) => (length h' < length h)%nat
  | _ => True
  end.
Proof.
  unfold pass_step. destruct (k_stop k s); [done|]. pose proof (pop_shorter h cursor) as [_ Hpop]. destruct (_pop_high_source h cursor) as [[src|] h']; [|done]. specialize (Hpop src eq_refl). cbn [snd] in Hpop.
  set (m0 := Z.min _ _). set (m := m0 - m0 mod bs). destruct (Z.leb_spec m 0); [done|]. pose proof (Z.mod_pos_bound m0 bs Hbs). pose proof (whole_blocks m0) as Hm. fold m in Hm.
  assert (bs <= m) by (pose proof (Z.div_mod m bs ltac:(lia)) as Hd; pose proof (Z.div_pos m bs ltac:(lia) Hbs); destruct (decide (m / bs = 0)) as [Hz|]; [rewrite Hz in Hd; lia|nia]).
  destruct (k_open k (s_path src) s) as [s1 [fd|e]]; [|by destruct (is_os_error e)]. unfold kbind. destruct (exchange_source _ _ _ _ _ _ _ _ _ _ _ s1) as [s2 [[]|e]]; cbn [negb snd kret]; [|done|done].
  split; [lia|]. destruct (0 <? _); [unfold _requeue_source; rewrite push_length; lia|lia].
Qed.

(** The rounds a gap may take from [cursor]. *)
Definition rounds_left (gap : CollectorExtent) (cursor : Z) (h : list heap_entry) : nat := (length h + S (Z.to_nat ((gap_end gap - cursor) / bs)))%nat.

Lemma gap_loop_enough fs live before gap : forall fuel fuel' cursor dl h r s, (rounds_left gap cursor h <= fuel)%nat -> (rounds_left gap cursor h <= fuel')%nat ->
  gap_loop k rounds fuel fs bs live before gap cursor dl h r s = gap_loop k rounds fuel' fs bs live before gap cursor dl h r s.
Proof.
  induction fuel as [|fuel IH]; intros fuel' cursor dl h r s Hf Hf'; [unfold rounds_left in Hf; lia|]. destruct fuel' as [|fuel']; [unfold rounds_left in Hf'; lia|].
  cbn [gap_loop]. destruct (cursor <? gap_end gap); [|done]. unfold kbind. pose proof (pass_step_shrinks fs live before gap cursor dl h r s) as Hstep.
  destruct (pass_step k rounds fs bs live before gap cursor dl h r s) as [s1 [[[st h'] r']|e]]; [|done]. cbn [snd] in Hstep. unfold rounds_left in *. destruct st as [m| | |]; [|apply IH; lia|done|done].
  destruct Hstep as [Hm Hh]. assert ((gap_end gap - (cursor + m)) / bs + 1 <= (gap_end gap - cursor) / bs) as Hdiv.
  { rewrite <- (Z.div_add _ 1 bs) by lia. apply Z.div_le_mono; lia. }
  assert (0 <= (gap_end gap - (cursor + m)) / bs) by (apply Z.div_pos; lia). apply IH; lia.
Qed.
End facts.

(** C10. A pass of the extent compaction only reports ranges that moved to
    lower addresses: on any kernel with [KernelLaws], every range reported to
    the live map is of whole blocks and its destination ends at or below its
    source; while the map is shown the bytes and transactions of the pass are
    those of the ranges. *)
Theorem extent_pass_moves_down {K : Type} (k : kernel K) (w : view K) (bs : Z) {Laws : KernelLaws k w bs} (rounds : nat) mountpoint filesystem device_bytes live_cells before s s' r :
  0 < bs -> clean w s -> _compact_extent_pass k rounds mountpoint filesystem bs device_bytes live_cells before s = (s', Ok r) ->
  Forall (moves_down bs) (r_live r) /\ (0 < live_cells -> r_moved_bytes r = live_bytes (r_live r) /\ r_transactions r = py_len (r_live r)).
Proof.
  intros Hbs Hs E. destruct (pass_triple k w bs rounds Hbs mountpoint filesystem device_bytes live_cells before s Hs) as [_ Hq]. rewrite E in Hq. by destruct Hq.
Qed.

(** C17. The loop that fills a gap ends on every kernel, whatever the calls
    answer: with the rounds the model allows, more rounds change nothing, so
    the loop is never cut short.  A round moves at least one block of the gap
    or takes a source off the heap. *)
Theorem gap_loop_terminates {K : Type} (k : kernel K) (rounds : nat) filesystem bs live_cells before gap heap r (more : nat) s : 0 < bs ->
  rounds_left bs gap (g_physical gap) heap = gap_fuel bs gap heap /\
  gap_loop k rounds (gap_fuel bs gap heap + more) filesystem bs live_cells before gap (g_physical gap) (g_logical gap) heap r s =
  gap_loop k rounds (gap_fuel bs gap heap) filesystem bs live_cells before gap (g_physical gap) (g_logical gap) heap r s.
Proof.
  intros Hbs. assert (rounds_left bs gap (g_physical gap) heap = gap_fuel bs gap heap) as Heq by (unfold rounds_left, gap_fuel, gap_end; repeat f_equal; lia). split; [done|].
  apply gap_loop_enough; [done|rewrite Heq; lia|by rewrite Heq].
Qed.
