(* ===== verification/NativeXfsFacts.v ===== *)
(** * Whole-file compaction keeps every file

    On any kernel with [KernelLaws] and [XfsLaws] the whole-file pass leaves the
    user's files as they were, and a file that is exchanged gets extents that
    lie in the released range, are no more than it had and end below its old
    end. *)

From S2P Require Import Prelude Text Bytes Ranges RangesFacts Kernel NativeCompact NativeXfs NativeFacts.

Local Open Scope list_scope.
Local Open Scope Z_scope.

(** The byte [i] of a file lies in one of its extents. *)
Definition mapped (l : list FiemapExtent) (i : Z) : Prop := Exists (fun e => fx_logical e <= i < fx_logical e + fx_length e) l.

(** What this path relies on besides [KernelLaws]. *)
Class XfsLaws {K : Type} (k : kernel K) (x : xfs_calls K) (w : view K) : Prop := mkXfsLaws {
  xl_fstat fd : quiet w (x_fstat x fd);
  xl_bulkstat fd ino : quiet w (x_bulkstat x fd ino);
  xl_setxattr p n v : quiet w (x_setxattr x p n v);
  xl_get_fsxattr fd : quiet w (x_get_fsxattr x fd);
  xl_set_fsxattr fd v : quiet w (x_set_fsxattr x fd v);
  xl_fchown fd u g : quiet w (x_fchown x fd u g);
  xl_time : quiet w (x_time_ns x);
  xl_ftruncate fd n : own_write w fd (x_ftruncate x fd n);
  xl_ftruncate_ok s s' fd g n : file_of w s fd = Some g -> x_ftruncate x fd n s = (s', Ok tt) ->
    py_len (content w s' g) = n /\ forall i, 0 <= i < n -> zero_extended (content w s g) (content w s' g) i;
  xl_fallocate_ok s s' fd g off len : 0 < len -> file_of w s fd = Some g -> k_fallocate k fd 0 off len s = (s', Ok tt) ->
    forall i, 0 <= i -> zero_extended (content w s g) (content w s' g) i;
  (** every extent reported reaches behind the start; a byte of the range in
      none of them, and before the end of one or when there are no more, reads
      as zero *)
  xl_fiemap_holes s s' fd f a n c l : file_of w s fd = Some f -> k_fiemap k fd a n c s = (s', Ok l) ->
    Forall (fun e => a < fx_logical e + fx_length e) l /\
    forall i, 0 <= i -> a <= i < a + n -> i < py_len (content w s f) -> ~ mapped l i ->
      l = [] \/ Exists (fun e => flagged (fx_flags e) FIEMAP_EXTENT_LAST = true) l \/ Exists (fun e => i < fx_logical e + fx_length e) l ->
      nthZ (content w s f) i = Some 0;
  (** the exchange is refused unless [len] is the size of both files, and a
      size fits in 63 bits *)
  xl_swapext fd donor len st s f g : file_of w s fd = Some f -> file_of w s donor = Some g -> user_file w f -> ~ user_file w g ->
    (len < 2 ^ 63 -> py_len (content w s f) = len -> py_len (content w s g) = len -> content w s g = content w s f) ->
    same_files w s (x_swapext x fd donor 0 len st s).1 /\ same_names w s (x_swapext x fd donor 0 len st s).1
}.

(** ** The runs of a file *)

Definition proper_extents (l : list FiemapExtent) : Prop := Forall (fun e => 0 <= fx_logical e /\ 0 < fx_length e) l.

Lemma fold_push_skip (l acc : list range) : Forall (fun r => r.1 < r.2) l ->
  fold_left merge_push l acc = fold_left (fun m r => if r.2 <=? r.1 then m else merge_push m r) l acc.
Proof. intros H. revert acc. induction H as [|r l Hr _ IH]; intros acc; [done|]. cbn [fold_left]. rewrite (proj2 (Z.leb_gt r.2 r.1)) by lia. apply IH. Qed.

Lemma logical_leb_sorted l : StronglySorted (fun a b => a.1 <= b.1) (map (fun e => (fx_logical e, fx_logical e + fx_length e)) (py_sorted logical_leb l)).
Proof.
  assert (StronglySorted (fun a b => logical_leb a b = true) (py_sorted logical_leb l)) as H.
  { apply py_sorted_sorted; unfold logical_leb; [intros a b; destruct (Z.leb_spec (fx_logical a) (fx_logical b)); [by left|right]|intros a b c]; lia. }
  induction H as [|e l' _ IH He]; cbn; constructor; [done|]. apply Forall_map. eapply Forall_impl; [exact He|]. unfold logical_leb. cbn. lia.
Qed.

Lemma runs_facts l : proper_extents l ->
  Forall (fun r => 0 <= r.1 /\ 0 < r.2) (_logical_data_runs l) /\ forall i, mapped l i <-> Exists (fun r => r.1 <= i < r.1 + r.2) (_logical_data_runs l).
Proof.
  intros Hl. unfold _logical_data_runs. set (rs := map _ (py_sorted logical_leb l)).
  assert (Forall (fun e => 0 <= fx_logical e /\ 0 < fx_length e) (py_sorted logical_leb l)) as Hs by (by rewrite py_sorted_perm).
  assert (Forall (fun r => r.1 < r.2) rs) as Hpos by (subst rs; apply Forall_map; eapply Forall_impl; [exact Hs|]; cbn; lia).
  rewrite fold_push_skip by done. destruct (merge_fold_spec (fun r => r.2 <=? r.1) rs []) as [Hinv Hc].
  { intros r Hr. lia. } { apply logical_leb_sorted. } { split; [constructor|]. split; [constructor|]. by apply Forall_true. }
  set (out := fold_left _ rs []) in *. pose proof (merge_inv_separated _ Hinv) as [Hne _].
  assert (forall i, covers (reverse out) i <-> mapped l i) as Hcov.
  { intros i. rewrite covers_reverse, Hc, filter_all by (eapply Forall_impl; [exact Hpos|]; cbn; lia). unfold covers, mapped. subst rs. rewrite Exists_map.
    assert (forall P : FiemapExtent -> Prop, Exists P (py_sorted logical_leb l) <-> Exists P l) as Hp by (intros P; by rewrite py_sorted_perm). rewrite Hp. cbn.
    split; [intros [H|H]; [inversion H|done]|by right]. }
  split.
  - apply Forall_map. apply Forall_forall. intros r Hr. rewrite Forall_forall in Hne. specialize (Hne r Hr). cbn. split; [|lia].
    assert (mapped l r.1) as Hm by (apply Hcov, Exists_exists; exists r; split; [done|lia]). apply Exists_exists in Hm as (e & He & Hin).
    unfold proper_extents in Hl. rewrite Forall_forall in Hl. specialize (Hl e He). lia.
  - intros i. rewrite <- Hcov. unfold covers. rewrite Exists_map. apply Exists_proper; [|done]. intros r. cbn. lia.
Qed.

Section facts.
Context {K : Type} (k : kernel K) (x : xfs_calls K) (w : view K) (bs : Z) (rounds : nat).
Context {Laws : KernelLaws k w bs} {XLaws : XfsLaws k x w}.
Hypothesis Hbs : 0 < bs.

Abbreviation anything := (fun _ : K => True).
Abbreviation keeps O U m := (triple w (holds w O U) m (fun _ => holds w O U) (holds w O U)).

(** ** The extents of a file are all of it *)

Lemma last_end_ge l c : c <= fold_left Z.max l c.
Proof. revert c. induction l as [|y l IH]; intros c; cbn; [lia|]. specialize (IH (Z.max c y)). lia. Qed.

Lemma last_end_in l c y : y ∈ l -> y <= fold_left Z.max l c.
Proof.
  revert c. induction l as [|z l IH]; intros c Hin; [inversion Hin|]. cbn. apply elem_of_cons in Hin as [->|Hin]; [|by apply IH]. pose proof (last_end_ge l (Z.max c z)). lia.
Qed.

Lemma last_end_some l c i : c <= i < fold_left Z.max l c -> exists y, y ∈ l /\ i < y.
Proof.
  revert c. induction l as [|z l IH]; intros c Hi; cbn in Hi; [lia|]. destruct (Z.lt_ge_cases i z); [exists z; split; [by left|done]|].
  destruct (IH (Z.max c z)) as (y & Hy & ?); [lia|]. exists y. split; [by right|done].
Qed.

(** The bytes below [c] in none of the extents are zeros. *)
Definition holes_below (cf : bytes) (l : list FiemapExtent) (c : Z) : Prop := forall i, 0 <= i < c -> i < py_len cf -> ~ mapped l i -> nthZ cf i = Some 0.

Lemma mapped_app l l' i : mapped (l ++ l') i <-> mapped l i \/ mapped l' i.
Proof. apply Exists_app. Qed.

Lemma fiemap_loop_holes fd f limit batch : forall fuel cursor found s s' l, file_of w s fd = Some f -> 0 <= cursor -> holes_below (content w s f) found (Z.min cursor limit) ->
  fiemap_loop k fuel fd cursor limit batch found s = (s', Ok l) -> holes_below (content w s f) l limit.
Proof.
  induction fuel as [|fuel IH]; intros cursor found s s' l Hfd Hc Hfound; cbn [fiemap_loop]; destruct (Z.ltb_spec cursor limit); try done.
  1,3: intros [= <- <-] i Hi; apply Hfound; lia.
  unfold kbind. pose proof (l_fiemap (KernelLaws := Laws) fd cursor (limit - cursor) batch s) as [[_ Hcont] Hn]. destruct (k_fiemap k fd cursor (limit - cursor) batch s) as [s1 [m|e]] eqn:E; cbn [fst] in *; [|done].
  destruct (xl_fiemap_holes (XfsLaws := XLaws) _ _ _ _ _ _ _ _ Hfd E) as [Hreach Hholes]. case_bool_decide as Hm.
  { intros [= <- <-] i Hi Hil Hnm. destruct (Z.lt_ge_cases i cursor); [apply Hfound; [lia|done..]|]. apply Hholes; [lia|lia|done| |by left]. subst m. intros Hx. inversion Hx. }
  destruct (negb _); [done|]. set (ends := map _ m). set (last_end := fold_left Z.max ends cursor).
  assert (cursor < last_end) as Hprog.
  { destruct m as [|e m']; [done|]. apply Forall_cons in Hreach as [He _]. pose proof (last_end_in ends cursor (fx_logical e + fx_length e) ltac:(by left)). subst last_end. lia. }
  rewrite (proj2 (Z.leb_gt last_end cursor)) by done. rewrite orb_false_r.
  destruct (existsb _ m) eqn:El.
  - intros [= <- <-] i Hi Hil Hnm. rewrite mapped_app in Hnm. destruct (Z.lt_ge_cases i cursor); [apply Hfound; [lia|done|tauto]|].
    apply Hholes; [lia|lia|done|tauto|]. right. left. apply existsb_exists in El as (e & He & Hfl). apply Exists_exists. exists e. split; [by apply list_elem_of_In|done].
  - assert (holes_below (content w s1 f) (found ++ m) (Z.min last_end limit)) as Hnext.
    { intros i Hi Hil Hnm. rewrite Hcont in Hil |- *. rewrite mapped_app in Hnm. destruct (Z.lt_ge_cases i cursor); [apply Hfound; [lia|done|tauto]|].
      apply Hholes; [lia|lia|done|tauto|]. right. right. destruct (last_end_some ends cursor i) as (y & Hy & Hiy); [lia|]. apply list_elem_of_fmap in Hy as (e & -> & He). apply Exists_exists. eauto. }
    assert (file_of w s1 fd = Some f) as Hfd1 by (by rewrite (proj1 Hn)). intros H'. assert (0 <= last_end) as Hle by lia. pose proof (IH _ _ _ _ _ Hfd1 Hle Hnext H') as Hx. by rewrite Hcont in Hx.
Qed.

Lemma fiemap_holes fd f s s' l : file_of w s fd = Some f -> fiemap k rounds fd s = (s', Ok l) -> holes_below (content w s f) l (2 ^ 64 - 1).
Proof.
  intros Hfd. unfold fiemap, fiemap_range. rewrite Z.eqb_refl. apply fiemap_loop_holes; [done|lia|]. intros i Hi. lia.
Qed.

(** ** The donor *)

(** What is true of the bytes of a file and of the donor. *)
Definition pair_ok (fd donor : Z) (P : bytes -> bytes -> Prop) (s : K) : Prop := forall f g, file_of w s fd = Some f -> file_of w s donor = Some g -> P (content w s f) (content w s g).

Abbreviation donor_triple O U fd donor P m P' := (triple w (fun s => holds w O U s /\ pair_ok fd donor P s) m (fun _ s => holds w O U s /\ pair_ok fd donor P' s) (holds w O U)).

Lemma donor_quiet {A} O U fd donor P (m : kprog K A) : quiet w m -> donor_triple O U fd donor P m P.
Proof.
  intros Hq s [Hs Hr]. destruct (Hq s) as [Hc Hn]. split; [by apply same_weaken|]. assert (holds w O U (m s).1) by (by eapply holds_same).
  destruct ((m s).2); [|done]. split; [done|]. intros f g Hf Hg. rewrite (proj1 Hn) in Hf, Hg. rewrite !(proj2 Hc). by apply Hr.
Qed.

(** A call that writes to the donor; [R] is what it does to its bytes. *)
Lemma donor_write O U fd donor P P' (m : kprog K unit) (R : bytes -> bytes -> Prop) : fd ∈ U -> donor ∈ O -> own_write w donor m ->
  (forall s s' g, file_of w s donor = Some g -> m s = (s', Ok tt) -> R (content w s g) (content w s' g)) ->
  (forall cf cg cg', P cf cg -> R cg cg' -> P' cf cg') -> donor_triple O U fd donor P m P'.
Proof.
  intros Hfd Hdonor Hm HR HP s [Hs Hr]. destruct (holds_in w _ _ _ Hs) as [Ho Hu]. destruct (Hu fd Hfd) as (f & Hf & Hfu). destruct (Ho donor Hdonor) as (g & Hg & Hgu).
  destruct (Hm s g Hg Hgu) as [Hfs Hn]. split; [done|]. assert (holds w O U (m s).1) as Hh by (by eapply holds_same).
  destruct (m s) as [s' [[]|e]] eqn:E; cbn [fst snd] in *; [|done]. split; [done|]. intros f' g' Hf' Hg'. rewrite (proj1 Hn) in Hf', Hg'. assert (f' = f /\ g' = g) as [-> ->] by (split; congruence). rewrite (proj2 Hfs f Hfu).
  eapply HP; [by apply Hr|]. by eapply HR.
Qed.

(** The donor holds zeros and bytes of the file; those of the [runs] are there. *)
Definition shadow (runs : list (Z * Z)) (cf cg : bytes) : Prop :=
  (forall i b, 0 <= i -> nthZ cg i = Some b -> b = 0 \/ nthZ cf i = Some b) /\
  (forall r i, r ∈ runs -> r.1 <= i < r.1 + r.2 -> 0 <= i < py_len cf -> nthZ cg i = nthZ cf i).

Lemma shadow_extended runs cf cg cg' : shadow runs cf cg -> (forall i, 0 <= i -> zero_extended cg cg' i) -> shadow runs cf cg'.
Proof.
  intros [Hz Hr] He. split.
  - intros i b Hi Hb. destruct (He i Hi) as [Heq|[_ H0]]; [rewrite Heq in Hb; by apply Hz|left; congruence].
  - intros r i Hin Hri Hi. specialize (Hr r i Hin Hri Hi). rewrite <- Hr. destruct (He i) as [?|[Hn _]]; [lia|done|]. rewrite Hr in Hn. destruct (nthZ_some cf i) as [b Hb]; [lia|congruence].
Qed.

Lemma shadow_cut cf cg cg' n : shadow [] cf cg -> py_len cg' = n /\ (forall i, 0 <= i < n -> zero_extended cg cg' i) -> shadow [] cf cg'.
Proof.
  intros [Hz _] [Hl He]. split; [|intros r i Hin; inversion Hin]. intros i b Hi Hb. assert (i < n) by (apply nthZ_len in Hb; lia).
  destruct (He i) as [Heq|[_ H0]]; [lia|rewrite Heq in Hb; by apply Hz|left; congruence].
Qed.

Lemma shadow_copied runs l n cf cg cg' : 0 <= l -> shadow runs cf cg ->
  (forall y, 0 <= y < n -> l + y < py_len cf -> nthZ cg' (l + y) = nthZ cf (l + y)) ->
  (forall i, 0 <= i -> i < l + 0 \/ l + n <= i -> zero_extended cg cg' i) ->
  (forall y, 0 <= y < n -> py_len cf <= l + y -> nthZ cg' (l + y) = Some 0) -> shadow (runs ++ [(l, n)]) cf cg'.
Proof.
  intros Hl [Hz Hr] Hst Hout Hpad. split.
  - intros i b Hi Hb. destruct (Z.lt_ge_cases i l) as [|Hli]; [|destruct (Z.lt_ge_cases i (l + n))].
    + destruct (Hout i Hi) as [Heq|[_ H0]]; [lia|rewrite Heq in Hb; by apply Hz|left; congruence].
    + destruct (Z.lt_ge_cases i (py_len cf)).
      * right. specialize (Hst (i - l)). replace (l + (i - l)) with i in Hst by lia. rewrite <- Hst by lia. done.
      * left. specialize (Hpad (i - l)). replace (l + (i - l)) with i in Hpad by lia. rewrite Hpad in Hb by lia. congruence.
    + destruct (Hout i Hi) as [Heq|[_ H0]]; [lia|rewrite Heq in Hb; by apply Hz|left; congruence].
  - intros r i Hin Hri Hi. destruct (decide (l <= i < l + n)) as [Hil|Hil].
    + specialize (Hst (i - l)). replace (l + (i - l)) with i in Hst by lia. apply Hst; lia.
    + apply elem_of_app in Hin as [Hin|Hin]; [|apply list_elem_of_singleton in Hin as ->; cbn in Hri; lia].
      specialize (Hr r i Hin Hri Hi). rewrite <- Hr. destruct (Hout i) as [?|[Hn _]]; [lia|lia|done|]. rewrite Hr in Hn. destruct (nthZ_some cf i) as [b Hb]; [lia|congruence].
Qed.

(** A shadow of a whole file, as long as it, is a copy of it. *)
Lemma shadow_whole l cf cg : proper_extents l -> py_len cf < 2 ^ 63 -> holes_below cf l (2 ^ 64 - 1) -> shadow (_logical_data_runs l) cf cg -> py_len cg = py_len cf -> cg = cf.
Proof.
  intros Hl Hsize Hholes [Hz Hr] Hlen. apply nthZ_ext; [done|]. intros i Hi. destruct (runs_facts l Hl) as [_ Hcov].
  destruct (decide (Exists (fun r => r.1 <= i < r.1 + r.2) (_logical_data_runs l))) as [He|He].
  - apply Exists_exists in He as (r & Hin & Hri). apply (Hr r); [done..|lia].
  - assert (nthZ cf i = Some 0) as H0 by (apply Hholes; [lia..|]; by rewrite Hcov). destruct (nthZ_some cg i) as [b Hb]; [lia|]. destruct (Hz i b ltac:(lia) Hb) as [->|Hb']; congruence.
Qed.

(** A [shadow] of a file that satisfies [H]. *)
Definition shadow_of (H : bytes -> Prop) (runs : list (Z * Z)) (cf cg : bytes) : Prop := H cf /\ shadow runs cf cg.

Lemma copy_run_triple H O U fd donor runs l n : fd ∈ U -> donor ∈ O -> 0 <= l ->
  donor_triple O U fd donor (shadow_of H runs) (_copy_range k fd l donor n l) (shadow_of H (runs ++ [(l, n)])).
Proof.
  intros Hfd Hdonor Hl s [Hs Hsh]. destruct (holds_in w _ _ _ Hs) as [Ho Hu]. destruct (Hu fd Hfd) as (f & Hf & Hfu). destruct (Ho donor Hdonor) as (g & Hg & Hgu).
  pose proof (copy_range_spec k w bs f g fd donor l n l s Hfu Hgu Hl Hl Hf Hg) as Hspec. destruct (_copy_range k fd l donor n l s) as [s' r]. destruct Hspec as [[Hfs Hn] Hr].
  split; [done|]. assert (holds w O U s') as Hh by (by eapply holds_same). destruct r as [[]|e]; cbn [fst snd] in *; [|done]. split; [done|].
  intros f' g' Hf' Hg'. rewrite (proj1 Hn) in Hf', Hg'. assert (f' = f /\ g' = g) as [-> ->] by (split; congruence). destruct (Hr eq_refl) as (Hst & Hout & Hpad).
  rewrite (proj2 Hfs f Hfu). destruct (Hsh f g Hf Hg) as [HH Hsh']. split; [done|]. eapply shadow_copied; [done|exact Hsh'| |exact Hout|exact Hpad].
  intros y Hy Hin. specialize (Hst y Hy). rewrite (proj2 Hfs f Hfu) in Hst. by apply Hst.
Qed.

(** A loop over runs. *)
Lemma each_run_from O U fd donor (f : Z -> Z -> kprog K unit) (P : list (Z * Z) -> bytes -> bytes -> Prop) runs : forall done_,
  (forall done_ r, r ∈ runs -> donor_triple O U fd donor (P done_) (f r.1 r.2) (P (done_ ++ [r]))) ->
  donor_triple O U fd donor (P done_) (each_run runs f) (P (done_ ++ runs)).
Proof.
  unfold each_run. induction runs as [|r runs IH]; intros done_ Hf; cbn [kfor].
  - rewrite app_nil_r. by apply triple_ret.
  - eapply (triple_bind _ _ _ _ (fun _ s => holds w O U s /\ pair_ok fd donor (P (done_ ++ [r])) s)); [apply Hf; by left|]. intros [].
    replace (done_ ++ r :: runs) with ((done_ ++ [r]) ++ runs) by (by rewrite <- app_assoc). apply IH. intros d r' Hr'. apply Hf. by right.
Qed.

Lemma each_run_triple O U fd donor (f : Z -> Z -> kprog K unit) (P : list (Z * Z) -> bytes -> bytes -> Prop) runs :
  (forall done_ r, r ∈ runs -> donor_triple O U fd donor (P done_) (f r.1 r.2) (P (done_ ++ [r]))) ->
  donor_triple O U fd donor (P []) (each_run runs f) (P runs).
Proof. apply (each_run_from O U fd donor f P runs []). Qed.

Lemma bulkstat_quiet fd : quiet w (_xfs_bulkstat_single x fd).
Proof. apply quiet_bind; [apply (xl_fstat (k := k))|]. intros [[dev ino] size]. apply quiet_catch; [apply (xl_bulkstat (k := k))|]. intros e. by destruct (errno_in e _). Qed.

Lemma match_fork_quiet donor st : quiet w (_xfs_match_attr_fork x donor st).
Proof.
  pose proof bulkstat_quiet as Hb.
  unfold _xfs_match_attr_fork. destruct (_ =? 0); [done|]. apply quiet_bind.
  - generalize (py_range 0 128). induction l as [|index l IH]; cbn [match_loop]; [done|]. apply quiet_bind; [done|]. intros cur. destruct (_ =? _); [done|]. destruct (_ && _); [done|].
    apply quiet_bind; [|done]. apply quiet_catch; [apply (xl_setxattr (k := k))|]. intros e. by destruct (is_os_error e).
  - intros []; [done|]. apply quiet_bind; [done|]. intros cur. by apply quiet_raise_if.
Qed.

Lemma copy_flags_quiet fd donor : quiet w (copy_flags x fd donor).
Proof.
  apply quiet_catch.
  - apply quiet_bind; [apply (xl_get_fsxattr (k := k))|]. intros v. apply quiet_raise_if, (xl_set_fsxattr (k := k)).
  - intros e. destruct (is_os_error e); [|done]. by destruct (errno_in e _).
Qed.

(** The donor is a copy of the file once it is filled, if the file still has the
    size it had. *)
Definition twin (source : XfsWholeFile) (cf cg : bytes) : Prop := py_len cf = xf_size source -> py_len cg = xf_size source /\ shadow (xf_runs source) cf cg.

Lemma fill_donor_triple H O U fd donor source st : fd ∈ U -> donor ∈ O -> Forall (fun r => 0 <= r.1 /\ 0 < r.2) (xf_runs source) ->
  donor_triple O U fd donor (fun cf cg => H cf /\ cg = []) (fill_donor k x source st fd donor) (fun cf cg => H cf /\ twin source cf cg).
Proof.
  intros Hfd Hdonor Hruns. unfold fill_donor. eapply triple_bind; [apply donor_quiet, match_fork_quiet|]. intros ?. eapply triple_bind; [apply donor_quiet, copy_flags_quiet|]. intros ?.
  eapply (triple_bind _ _ _ _ (fun _ s => holds w O U s /\ pair_ok fd donor (shadow_of H []) s)).
  { eapply triple_weaken; [| | |apply (each_run_triple O U fd donor _ (fun _ => shadow_of H []))]; [|done|done|].
    - intros s [Hs Hp]. split; [done|]. intros f g Hf Hg. destruct (Hp f g Hf Hg) as [HH ->]. split; [done|]. split; [intros i b Hi Hb; done|intros r i Hin; inversion Hin].
    - intros done_ r Hr. rewrite Forall_forall in Hruns. specialize (Hruns r Hr). unfold _fallocate. rewrite (proj2 (Z.leb_gt r.2 0)) by lia.
      apply (donor_write O U fd donor _ _ _ (fun cg cg' => forall i, 0 <= i -> zero_extended cg cg' i)); [done|done|apply l_fallocate| |intros cf cg cg' [? ?] ?; split; [done|by eapply shadow_extended]].
      intros s s' g Hg E. eapply (xl_fallocate_ok (x := x)); [|done|exact E]. lia. }
  intros ?. set (cut := fun cg cg' : bytes => py_len cg' = xf_size source /\ forall i, 0 <= i < xf_size source -> zero_extended cg cg' i).
  assert (forall P P', (forall cf cg cg', P cf cg -> cut cg cg' -> P' cf cg') -> donor_triple O U fd donor P (x_ftruncate x donor (xf_size source)) P') as Hcut.
  { intros P P' HP. apply (donor_write O U fd donor _ _ _ cut); [done|done|apply (xl_ftruncate (k := k))| |done]. intros s s' g Hg E. by eapply (xl_ftruncate_ok (k := k)). }
  eapply triple_bind; [apply (Hcut _ (shadow_of H [])); intros cf cg cg' [? ?] ?; split; [done|by eapply shadow_cut]|]. intros ?.
  eapply (triple_bind _ _ _ _ (fun _ s => holds w O U s /\ pair_ok fd donor (shadow_of H (xf_runs source)) s)).
  { apply (each_run_triple O U fd donor _ (shadow_of H)). intros done_ [l n] Hr. rewrite Forall_forall in Hruns. specialize (Hruns _ Hr). apply copy_run_triple; [done|done|apply Hruns]. }
  intros ?. eapply triple_bind; [apply (Hcut _ (fun cf cg => H cf /\ twin source cf cg))|].
  { intros cf cg cg' [HH [Hz Hr]] [Hlen He]. split; [done|]. intros Hcf. split; [done|]. split.
    - intros i b Hi Hb. assert (i < xf_size source) by (apply nthZ_len in Hb; lia). destruct (He i) as [Heq|[_ Hz0]]; [lia|rewrite Heq in Hb; by apply Hz|left; congruence].
    - intros r i Hin Hri Hi. specialize (Hr r i Hin Hri Hi). rewrite <- Hr. destruct (He i) as [?|[Hn _]]; [lia|done|]. rewrite Hr in Hn. destruct (nthZ_some cf i) as [b Hb]; [lia|congruence]. }
  intros ?. eapply triple_bind; [apply donor_quiet, (xl_fchown (k := k))|]. intros ?. apply donor_quiet, l_fsync.
Qed.

(** What is true of the bytes of an open file. *)
Definition file_ok (fd : Z) (H : bytes -> Prop) (s : K) : Prop := forall f, file_of w s fd = Some f -> H (content w s f).

Lemma new_file_bind {A} H O fd p (body : Z -> kprog K A) Q (E : exn -> K -> Prop) : (forall e s, unmade w O [fd] e s -> E e s) ->
  (forall d, d ∉ O -> d <> fd -> tripleX w (fun s => holds w (d :: O) [fd] s /\ pair_ok fd d (fun cf cg => H cf /\ cg = []) s) (body d) Q E) ->
  tripleX w (fun s => holds w O [fd] s /\ file_ok fd H s) (let! d := k_create k p in k_unlink k p ;;! body d) Q E.
Proof.
  intros HE Hb s [Hs HH]. pose proof (new_file_triple k w bs O [fd] p (fun fd => fd) s Hs) as Ht. pose proof (l_create (KernelLaws := Laws) p s) as (_ & _ & _ & Hold). unfold kbind, kret in *.
  destruct (k_create k p s) as [s1 [d|e]]; cbn [fst snd] in *; [|by destruct Ht; auto]. pose proof (l_unlink (KernelLaws := Laws) p s1) as (_ & Hfds & _).
  destruct (k_unlink k p s1) as [s2 [[]|e]]; cbn [fst snd] in *; [|by destruct Ht; auto].
  destruct Ht as (Hf & d' & <- & Hh & Ho & Hu & Hempty). apply not_elem_of_cons in Hu as [Hu _].
  assert (pair_ok fd d (fun cf cg => H cf /\ cg = []) s2) as Hp.
  { intros f g Hff Hg. split; [|by apply Hempty]. rewrite Hfds, Hold in Hff by congruence. destruct (holds_in w _ _ _ Hs) as [_ Hlent]. destruct (Hlent fd ltac:(by left)) as (f' & Hf' & Hu').
    assert (f' = f) as -> by congruence. rewrite (proj2 Hf f Hu'). by apply HH. }
  destruct (Hb d Ho Hu s2 (conj Hh Hp)) as [Hf' Hq]. split; [by eapply same_trans|done].
Qed.

Lemma file_quiet {A} O U fd H (m : kprog K A) : quiet w m ->
  triple w (fun s => holds w O U s /\ file_ok fd H s) m (fun _ s => holds w O U s /\ file_ok fd H s) (holds w O U).
Proof.
  intros Hq s [Hs HH]. destruct (Hq s) as [Hc Hn]. split; [by apply same_weaken|]. assert (holds w O U (m s).1) by (by eapply holds_same).
  destruct ((m s).2); [|done]. split; [done|]. intros f Hf. rewrite (proj1 Hn) in Hf. rewrite (proj2 Hc). by apply HH.
Qed.

Lemma holds_unmade O U e s : holds w O U s -> unmade w O U e s.
Proof. intros [Hn Hh]. by split. Qed.

Lemma close_own O U fd : fd ∉ O -> fd ∉ U -> triple w (holds w (fd :: O) U) (k_close k fd) (fun _ => holds w O U) (holds w O U).
Proof.
  intros HO HU s (Hn & Ho & Hu). apply Forall_cons in Ho as [_ Ho]. destruct (l_close (KernelLaws := Laws) fd s) as (Hf & Hnames & Hold). split; [done|].
  assert (holds w O U (k_close k fd s).1) as H; [|by destruct ((k_close k fd s).2)].
  split; [unfold clean; congruence|]. split; (eapply forall_file; [|eassumption]); intros y f Hy Hf'; (rewrite Hold; [done|]); intros ->; done.
Qed.

(** What is known of a file that may be moved. *)
Definition whole_ok (f : XfsWholeFile) : Prop := proper_extents (xf_extents f) /\ xf_runs f = _logical_data_runs (xf_extents f).

Lemma whole_runs f : whole_ok f -> Forall (fun r => 0 <= r.1 /\ 0 < r.2) (xf_runs f).
Proof. intros [Hp ->]. by apply runs_facts. Qed.

Lemma create_donor_triple H O c fd source st a b : fd ∉ O -> whole_ok source ->
  tripleX w (fun s => holds w O [fd] s /\ file_ok fd H s) (_xfs_create_legacy_donor k x rounds c fd source st a b)
    (fun o s => (check_donor source a b o.2 = Ok tt /\ o.1 ∉ O /\ o.1 <> fd) /\ holds w (o.1 :: O) [fd] s /\ pair_ok fd o.1 (fun cf cg => H cf /\ twin source cf cg) s) (unmade w O [fd]).
Proof.
  intros Hfd Hok. unfold _xfs_create_legacy_donor. eapply tripleX_bind.
  { eapply tripleX_weaken; [| | |apply file_quiet, (xl_time (k := k))]; [intros s' Hs'; exact Hs'|intros a' s' Hs'; exact Hs'|]. intros e s Hs. by apply holds_unmade. }
  intros now. apply new_file_bind; [done|]. intros d Hd Hdfd. eapply tripleX_catch.
  - eapply triple_bind; [apply fill_donor_triple; [by left|by left|by apply whole_runs]|].
    intros ?. eapply triple_bind; [apply donor_quiet; exact (fiemap_quiet k w bs rounds _ _ _)|]. intros ext. destruct (check_donor source a b ext) as [[]|e] eqn:Ec; intros s [Hs Hp]; (split; [by apply same_refl|]); done.
  - intros e. eapply (tripleX_weaken _ (holds w (d :: O) [fd]) _ _ (fun _ _ => False)); [done|done| |eapply triple_bind; [apply (close_own O [fd] d); [done|set_solver]|intros ?; by apply triple_raise]].
    intros e' s Hs. by apply holds_unmade.
Qed.

(** The two files are equal unless the exchange will be refused. *)
Definition equal_files (source : XfsWholeFile) (cf cg : bytes) : Prop := xf_size source < 2 ^ 63 -> py_len cf = xf_size source -> py_len cg = xf_size source -> cg = cf.

Lemma places_proper l l' : places l = places l' -> proper_extents l' -> proper_extents l.
Proof.
  intros Hp Hl. unfold proper_extents in *. rewrite Forall_forall in Hl |- *. intros e He. assert ((fx_logical e, fx_physical e, fx_length e) ∈ places l') as Hin.
  { rewrite <- Hp. unfold places. apply list_elem_of_fmap. eauto. }
  apply list_elem_of_fmap in Hin as (e' & Heq & He'). injection Heq as -> _ ->. by apply Hl.
Qed.

Lemma places_mapped l l' i : places l = places l' -> mapped l i <-> mapped l' i.
Proof.
  intros Hp. assert (forall m, mapped m i <-> Exists (fun p : Z * Z * Z => p.1.1 <= i < p.1.1 + p.2) (places m)) as Hm.
  { intros m. unfold mapped, places. by rewrite Exists_map. }
  by rewrite !Hm, Hp.
Qed.

Lemma prepare_triple O c source a b fd : fd ∉ O -> whole_ok source ->
  tripleX w (holds w O [fd]) (prepare_whole k x rounds c source a b fd)
    (fun o s => (check_donor source a b o.1.2 = Ok tt /\ o.1.1 ∉ O /\ o.1.1 <> fd) /\ holds w (o.1.1 :: O) [fd] s /\ pair_ok fd o.1.1 (equal_files source) s) (unmade w O [fd]).
Proof.
  intros Hfd Hok. unfold prepare_whole. eapply (tripleX_bind _ _ _ _ (fun l s => holds w O [fd] s /\ file_ok fd (fun cf => holes_below cf l (2 ^ 64 - 1)) s)).
  { intros s Hs. pose proof (fiemap_quiet k w bs rounds fd 0 (2 ^ 64 - 1) s) as [Hc Hn]. split; [by apply same_weaken|]. assert (holds w O [fd] (fiemap k rounds fd s).1) as Hh by (by eapply holds_same).
    destruct (fiemap k rounds fd s) as [s1 [l|e]] eqn:E; cbn [fst snd] in *; [|by apply holds_unmade]. split; [done|]. intros f Hf. unfold fiemap in E. rewrite E in Hc, Hn. cbn [fst] in Hc, Hn.
    rewrite (proj1 Hn) in Hf. rewrite (proj2 Hc). by eapply fiemap_holes. }
  intros l. case_bool_decide as Hpl; cbn [negb]; [|apply tripleX_raise; intros s [Hs _]; by apply holds_unmade].
  eapply tripleX_bind; [eapply tripleX_weaken; [| | |apply file_quiet, bulkstat_quiet]; [intros s' Hs'; exact Hs'|intros a' s' Hs'; exact Hs'|intros e s Hs; by apply holds_unmade]|]. intros st.
  eapply tripleX_bind; [by apply create_donor_triple|]. intros [d ext]. cbn [fst snd]. intros s (Hd & Hs & Hp). split; [by apply same_refl|]. cbn. split; [done|]. split; [done|].
  intros f g Hf Hg. destruct (Hp f g Hf Hg) as [Hholes Htwin]. intros Hsz Hcf Hcg. destruct (Htwin Hcf) as [_ Hsh]. destruct Hok as [Hprop Hruns].
  apply (shadow_whole (xf_extents source)); [done|lia| |by rewrite <- Hruns|lia]. intros i Hi Hil Hnm. apply Hholes; [done..|]. by rewrite (places_mapped _ _ _ Hpl).
Qed.

(** ** An exchange and what follows it *)

(** The files are held, and no path leads to the engine's if [P]. *)
Definition part (P : Prop) (O U : list Z) (s : K) : Prop := held w O U s /\ (P -> clean w s).

Lemma part_same P O U s s' : same_names w s s' -> part P O U s -> part P O U s'.
Proof.
  intros [Hf Hn] [[Ho Hu] Hc]. split; [split; (eapply forall_file; [|eassumption]); intros y f _; by rewrite Hf|]. intros HP. unfold clean. rewrite Hn. by apply Hc.
Qed.

Lemma part_close P O O' U U' fd : (forall y, y ∈ O' -> y ∈ O /\ y <> fd) -> (forall y, y ∈ U' -> y ∈ U /\ y <> fd) ->
  triple w (part P O U) (k_close k fd) (fun _ => part P O' U') anything.
Proof.
  intros HO HU s [[Ho Hu] Hc]. destruct (l_close (KernelLaws := Laws) fd s) as (Hf & Hnames & Hold). split; [done|]. destruct ((k_close k fd s).2); [|done]. split.
  - rewrite Forall_forall in Ho, Hu. split; apply Forall_forall; intros y Hy.
    + destruct (HO y Hy) as [Hin Hne]. destruct (Ho y Hin) as (g & Hg & ?). exists g. by rewrite Hold.
    + destruct (HU y Hy) as [Hin Hne]. destruct (Hu y Hin) as (g & Hg & ?). exists g. by rewrite Hold.
  - intros HP. unfold clean. rewrite Hnames. by apply Hc.
Qed.

Lemma refill_triple P O gap l n : g_fd gap ∈ O -> triple w (part P O []) (refill_slice k gap l n) (fun _ => part P O []) anything.
Proof.
  intros Hgap. assert (forall A (m : kprog K A), quiet w m -> triple w (part P O []) m (fun _ => part P O []) anything) as Hquiet.
  { intros A m Hq s Hs. destruct (Hq s) as [Hc Hn]. split; [by apply same_weaken|]. destruct ((m s).2); [by eapply part_same|done]. }
  eapply (triple_bind _ _ _ _ (fun _ => part P O [])); [|intros ?; apply Hquiet, l_fsync]. unfold _fallocate. destruct (n <=? 0); [by apply triple_ret|].
  intros s Hs. destruct Hs as [[Ho Hu] Hc]. rewrite Forall_forall in Ho. destruct (Ho _ Hgap) as (g & Hg & Hgu). destruct (l_fallocate (KernelLaws := Laws) (g_fd gap) 0 l n s g Hg Hgu) as [Hf Hn].
  split; [done|]. destruct ((k_fallocate k (g_fd gap) 0 l n s).2); [|done]. eapply part_same; [exact Hn|]. split; [split; [by apply Forall_forall|done]|done].
Qed.

(** The outcome of an exchange: the donor's extents, or none. *)
Definition outcome_ok (source : XfsWholeFile) (a b : Z) (o : option (list FiemapExtent)) : Prop := match o with Some ext => check_donor source a b ext = Ok tt | None => True end.

Definition opened (fd : option Z) : list Z := match fd with Some fd => [fd] | None => [] end.

Lemma settle_triple (source : XfsWholeFile) a b O gap l n sfd dfd r : g_fd gap ∈ O -> (forall fd, dfd = Some fd -> fd ∉ O) -> (forall fd, sfd = Some fd -> fd ∉ O /\ dfd <> Some fd) ->
  (forall ext, r = Ok ext -> check_donor source a b ext = Ok tt) ->
  triple w (part (match r with Ok _ => True | Raise e => exn_kind e = SourceNotMovable end) (opened dfd ++ O) (opened sfd)) (settle k gap l n sfd dfd r)
    (fun o s => outcome_ok source a b o /\ holds w O [] s) anything.
Proof.
  intros Hgap Hd Hsd Hr. set (P := match r with Ok _ => True | Raise e => _ end). unfold settle.
  eapply (triple_bind _ _ _ _ (fun _ => part P (opened dfd ++ O) [])).
  { destruct sfd as [fd|]; cbn [close_opened]; [|by apply triple_ret]. apply part_close; [|intros y Hy; inversion Hy]. intros y Hy. split; [done|]. intros ->. destruct (Hsd fd eq_refl) as [Hno Hne].
    apply elem_of_app in Hy as [Hy|Hy]; [|done]. destruct dfd as [d|]; [|inversion Hy]. apply list_elem_of_singleton in Hy as ->. done. }
  intros ?. eapply (triple_bind _ _ _ _ (fun _ => part P O [])).
  { destruct dfd as [d|]; cbn [close_opened]; [|by apply triple_ret]. apply part_close; [|intros y Hy; inversion Hy]. intros y Hy. split; [by right|]. intros ->. by apply (Hd d). }
  intros ?. eapply triple_bind; [by apply refill_triple|]. intros ?. destruct r as [ext|e]; cbn in P.
  - intros s [Hh Hc]. split; [by apply same_refl|]. cbn. split; [by apply Hr|]. split; [by apply Hc|done].
  - case_bool_decide as Hk; [|by apply triple_raise]. intros s [Hh Hc]. split; [by apply same_refl|]. cbn. split; [done|]. split; [by apply Hc|done].
Qed.

Lemma swap_triple O fd d source st : fd ∉ O -> d ∉ O -> d <> fd ->
  triple w (fun s => holds w (d :: O) [fd] s /\ pair_ok fd d (equal_files source) s)
    (_xfs_legacy_swapext x fd d st (xf_size source) ;;! k_fsync k fd ;;! k_fsync k d) (fun _ => holds w (d :: O) [fd]) (holds w (d :: O) [fd]).
Proof.
  intros Hfd Hd Hne. eapply (triple_bind _ _ _ _ (fun _ => holds w (d :: O) [fd])).
  - eapply triple_catch.
    + intros s [Hs Hp]. destruct (holds_in w _ _ _ Hs) as [Ho Hu]. destruct (Hu fd ltac:(by left)) as (f & Hf & Hfu). destruct (Ho d ltac:(by left)) as (g & Hg & Hgu).
      destruct (xl_swapext (k := k) fd d (xf_size source) st s f g Hf Hg Hfu Hgu) as [Hfs Hn]; [by apply Hp|]. split; [done|].
      assert (holds w (d :: O) [fd] (x_swapext x fd d 0 (xf_size source) st s).1) as Hh by (by eapply holds_same). instantiate (1 := holds w (d :: O) [fd]). by destruct ((x_swapext x fd d 0 (xf_size source) st s).2).
    + intros e. destruct (errno_in e _); [by apply triple_raise|]. destruct (errno_in e _); by apply triple_raise.
  - intros ?. eapply triple_bind; [apply keeps_quiet, l_fsync|]. intros ?. apply keeps_quiet, l_fsync.
Qed.

Lemma exchange_whole_triple O c gap cp cl source : g_fd gap ∈ O -> whole_ok source ->
  triple w (holds w O []) (exchange_whole k x rounds c gap cp cl source) (fun o s => outcome_ok source cp (cp + xf_allocated source) o /\ holds w O [] s) anything.
Proof.
  intros Hgap Hok s Hs. unfold exchange_whole. destruct (open_triple k w bs O [] (xf_path source) s Hs) as [Hf1 Hq1].
  assert (forall dfd sfd r s0 s1, same_files w s s0 -> same_files w s0 s1 -> 
    (forall fd, dfd = Some fd -> fd ∉ O) -> (forall fd, sfd = Some fd -> fd ∉ O /\ dfd <> Some fd) -> (forall ext, r = Ok ext -> check_donor source cp (cp + xf_allocated source) ext = Ok tt) ->
    part (match r with Ok _ => True | Raise e => exn_kind e = SourceNotMovable end) (opened dfd ++ O) (opened sfd) s1 ->
    let '(s2, o) := settle k gap cl (xf_allocated source) sfd dfd r s1 in same_files w s s2 /\ match o with Ok o => outcome_ok source cp (cp + xf_allocated source) o /\ holds w O [] s2 | Raise _ => True end) as Hsettle.
  { intros dfd sfd r s0 s1 Hs0 Hs1 Hd Hsd Hr Hp. destruct (settle_triple source cp (cp + xf_allocated source) O gap cl (xf_allocated source) sfd dfd r Hgap Hd Hsd Hr s1 Hp) as [Hf Hq].
    destruct (settle k gap cl (xf_allocated source) sfd dfd r s1) as [s2 o]. split; [eapply same_trans; [exact Hs0|]; by eapply same_trans|by destruct o]. }
  destruct (k_open k (xf_path source) s) as [s1 [fd|e]]; cbn [fst snd] in *.
  2:{ specialize (Hsettle None None (Raise e) s1 s1 Hf1 ltac:(by apply same_refl)). destruct (settle k gap cl (xf_allocated source) None None (Raise e) s1) as [s2 o].
      apply Hsettle; [done..|]. split; [apply Hq1|intros _; apply Hq1]. }
  destruct Hq1 as (Hs1 & Hfd & _). destruct (prepare_triple O c source cp (cp + xf_allocated source) fd Hfd Hok s1 Hs1) as [Hf2 Hq2].
  destruct (prepare_whole k x rounds c source cp (cp + xf_allocated source) fd s1) as [s2 [[[d ext] st]|e]]; cbn [fst snd] in *.
  2:{ specialize (Hsettle None (Some fd) (Raise e) s1 s2 Hf1 Hf2). destruct (settle k gap cl (xf_allocated source) (Some fd) None (Raise e) s2) as [s3 o].
      apply Hsettle; [done|intros ? [= <-]; done|done|]. exact Hq2. }
  destruct Hq2 as ((Hcheck & Hd & Hne) & Hh2 & Hp2). destruct (swap_triple O fd d source st Hfd Hd Hne s2 (conj Hh2 Hp2)) as [Hf3 Hq3].
  destruct (kbind (_xfs_legacy_swapext x fd d st (xf_size source)) _ s2) as [s3 r]. cbn [fst snd] in *. assert (holds w (d :: O) [fd] s3) as Hh3 by (by destruct r).
  specialize (Hsettle (Some d) (Some fd) (match r with Ok _ => Ok ext | Raise e => Raise e end) s2 s3). destruct (settle k gap cl (xf_allocated source) (Some fd) (Some d) _ s3) as [s4 o].
  apply Hsettle; [by eapply same_trans|done|by intros ? [= <-]|intros ? [= <-]; split; [done|congruence]|destruct r; [by intros ? [= <-]|done]|].
  split; [apply Hh3|intros _; apply Hh3].
Qed.

(** ** A pass *)

Lemma add_whole_ok block dev path size l s : Forall unsigned l -> Forall whole_ok (w_candidates s) -> Forall whole_ok (w_candidates (add_whole block dev path size l s)).
Proof.
  intros Hl Hs. unfold add_whole. case_bool_decide; [done|]. destruct (existsb _ l) eqn:Eb; [done|]. destruct (_ <=? 0); [done|]. cbn [w_candidates]. apply Forall_app. split; [done|]. constructor; [|done].
  split; [|done]. cbn [xf_extents]. unfold proper_extents. rewrite Forall_forall in Hl |- *. intros e He. destruct (Hl e He) as [Hlog _]. split; [done|].
  assert (misplaced block dev e = false) as Hm.
  { destruct (misplaced block dev e) eqn:Em; [|done]. assert (existsb (fun e => flagged (fx_flags e) UNMOVABLE_FIEMAP_FLAGS || misplaced block dev e) l = true) as H'; [|congruence].
    apply existsb_exists. exists e. split; [by apply list_elem_of_In|]. by rewrite Em, orb_true_r. }
  unfold misplaced in Hm. apply orb_false_iff in Hm as [_ Hm]. apply orb_false_iff in Hm as [Hm _]. apply orb_false_iff in Hm as [Hm _]. lia.
Qed.

Lemma scan_whole_triple O U block dev path fd s : Forall whole_ok (w_candidates s) ->
  triple w (holds w O U) (scan_whole k x rounds block dev path fd s) (fun r st => Forall whole_ok (w_candidates r.1) /\ holds w O U st) (holds w O U).
Proof.
  intros Hs y Hy. unfold scan_whole. destruct (keeps_quiet w O U _ (xl_fstat (k := k) fd) y Hy) as [Hf Hq]. destruct (x_fstat x fd y) as [y1 [[[dev' ino] size]|e]]; cbn [fst snd] in *; [|done].
  case_bool_decide; [done|]. destruct (size <=? 0); [done|]. destruct (xflags_triple k w bs O U fd y1 Hq) as [Hf1 Hq1]. destruct (_file_xflags k fd y1) as [y2 [fl|e]]; cbn [fst snd] in *; [|split; [by eapply same_trans|done]].
  destruct (flagged fl _); [split; [by eapply same_trans|done]|]. destruct (fiemap_triple k w bs rounds O U fd 0 (2 ^ 64 - 1) y2 Hq1) as [Hf2 Hq2]. unfold fiemap.
  destruct (fiemap_range k rounds fd 0 _ y2) as [y3 [l|e]]; cbn [fst snd] in *; (split; [eapply same_trans; [exact Hf|]; by eapply same_trans|]); [|done]. destruct Hq2 as [Hl Hq2]. split; [|done]. by apply add_whole_ok.
Qed.

Lemma whole_scan_triple O mountpoint block dev excl :
  triple w (holds w O []) (_scan_xfs_whole_files k x rounds mountpoint block dev excl) (fun r st => Forall whole_ok r.1.1 /\ holds w O [] st) (holds w O []).
Proof.
  eapply triple_bind; [apply (walk_triple k w bs _ _ _ (fun s => Forall whole_ok (w_candidates s))); [|constructor]|].
  - intros path fd s Hs. by apply scan_whole_triple.
  - intros s. apply triple_ret. intros st [Hs Hst]. split; [|done]. cbn. by rewrite py_sorted_perm.
Qed.

Lemma pop_first_ok p l f rest : pop_first p l = Some (f, rest) -> p f = true /\ l ≡ₚ f :: rest.
Proof.
  revert f rest. induction l as [|g l IH]; intros f rest; cbn [pop_first]; [done|]. destruct (p g) eqn:Ep; [by intros [= <- <-]|].
  destruct (pop_first p l) as [[h left_]|] eqn:E; [|done]. intros [= <- <-]. destruct (IH h left_ eq_refl) as [Hp Hl]. split; [done|]. rewrite Hl. apply Permutation_swap.
Qed.

Lemma release_triple O gap l p n : g_fd gap ∈ O -> keeps O [] (release_slice k rounds gap l p n).
Proof.
  intros Hgap. unfold release_slice. eapply (triple_bind _ _ _ _ (fun _ => holds w O [])).
  - eapply triple_bind; [apply keeps_quiet; exact (fiemap_quiet k w bs rounds _ _ _)|]. intros m. apply keeps_raise_if; [done|]. intros _. by apply triple_ret.
  - intros ?. eapply (triple_bind _ _ _ _ (fun _ => holds w O [])); [|intros ?; apply keeps_quiet, l_fsync]. unfold _fallocate. destruct (n <=? 0); [by apply triple_ret|]. by eapply keeps_own_write, l_fallocate.
Qed.

Lemma whole_loop_triple O c live before gap : g_fd gap ∈ O -> forall fuel cp cl l r, Forall whole_ok l ->
  triple w (holds w O []) (whole_loop k x rounds fuel c live before gap cp cl l r) (fun o s => Forall whole_ok o.1 /\ holds w O [] s) anything.
Proof.
  intros Hgap. induction fuel as [|fuel IH]; intros cp cl l r Hl; cbn [whole_loop]; (destruct (cp <? gap_end gap); [|by apply triple_ret]); [by apply triple_raise|].
  intros s Hs. destruct (k_stop k s); [done|]. destruct (pop_first _ l) as [[f rest]|] eqn:Ep; [|done]. apply pop_first_ok in Ep as [_ Hperm]. rewrite Hperm in Hl. apply Forall_cons in Hl as [Hf Hrest].
  revert s Hs. match goal with |- forall s, _ -> same_files w s (?m s).1 /\ _ => change (triple w (holds w O []) m (fun o s => Forall whole_ok o.1 /\ holds w O [] s) anything) end.
  eapply (triple_bind _ _ _ _ (fun _ => holds w O [])); [eapply triple_weaken; [| | |by apply release_triple]; done|]. intros ?.
  eapply triple_bind; [by apply exchange_whole_triple|]. intros [ext|]; apply triple_pure; intros _; [by apply IH|]. case_bool_decide; [by apply triple_ret|by apply IH].
Qed.

Lemma whole_gaps_triple O c live before gaps : Forall (gap_ok O) gaps -> forall l r, Forall whole_ok l ->
  triple w (holds w O []) (whole_gaps k x rounds c live before gaps l r) (fun _ s => True /\ holds w O [] s) anything.
Proof.
  induction 1 as [|gap gaps [Hgap _] _ IH]; intros l r Hl; cbn [whole_gaps]; [by apply triple_ret|]. eapply triple_bind; [by apply whole_loop_triple|].
  intros [l' r']. apply triple_pure. intros Hl'. destruct (r_stopped r'); [by apply triple_ret|by apply IH].
Qed.

Lemma whole_pass_triple mountpoint dev live before :
  triple w (clean w) (_xfs_legacy_compact_pass k x rounds mountpoint bs dev live before) (fun _ s => True /\ clean w s) anything.
Proof.
  apply (with_collector_triple k w bs); [by apply triple_ret|]. intros fd c Hc. unfold whole_body.
  eapply (triple_bind _ _ _ _ (fun _ => holds w [fd] [])); [eapply triple_weaken; [| | |by apply (fill_triple k w bs rounds [fd] [] fd); left]; done|]. intros ?.
  eapply (triple_bind _ _ _ _ (fun l s => Forall (gap_ok [fd]) l /\ holds w [fd] [] s)); [eapply triple_weaken; [| | |apply (owned_extents_triple k w bs rounds [fd])]; [done|intros l s Hs; exact Hs|done|by rewrite Hc]|].
  intros gaps. apply triple_pure. intros Hgaps. eapply (triple_bind _ _ _ _ (fun r s => Forall whole_ok r.1.1 /\ holds w [fd] [] s)); [eapply triple_weaken; [| | |apply whole_scan_triple]; [done|intros l s Hs; exact Hs|done]|].
  intros [[l nf] ns]. apply triple_pure. intros Hl. destruct (_ || _); [by apply triple_ret|]. eapply triple_bind; [by apply whole_gaps_triple|]. intros r. apply triple_ret. by intros s [].
Qed.
End facts.

(** The new extents of a moved file: in the range that was released, below the
    file's old end, no more of them, and of its size. *)
Definition moved_lower (source : XfsWholeFile) (start : Z) (new : list FiemapExtent) : Prop :=
  Forall (fun e => start <= fx_physical e /\ physical_end e < xf_end source) new /\ py_len new <= py_len (xf_extents source) /\ zsum (map fx_length new) = xf_allocated source.

Lemma check_donor_ok source a b ext : check_donor source a b ext = Ok tt ->
  Forall (fun e => a <= fx_physical e /\ physical_end e <= b) ext /\ py_len ext <= py_len (xf_extents source) /\ zsum (map fx_length ext) = xf_allocated source.
Proof.
  unfold check_donor. case_bool_decide; [done|]. destruct (existsb _ ext); [done|]. destruct (Z.ltb_spec (py_len (xf_extents source)) (py_len ext)); [done|].
  destruct (Z.eqb_spec (zsum (map fx_length ext)) (xf_allocated source)) as [Hz|]; cbn [negb]; [|done]. destruct (existsb _ ext) eqn:E; [done|]. intros _. split; [|split; [done|done]].
  apply Forall_forall. intros e He. destruct (decide (a <= fx_physical e /\ physical_end e <= b)) as [|Hn]; [done|]. exfalso.
  assert (existsb (fun e => (fx_physical e <? a) || (b <? physical_end e)) ext = true); [|congruence]. apply existsb_exists. exists e. split; [by apply list_elem_of_In|]. lia.
Qed.

