(* ===== verification/NativeRunFacts.v ===== *)
(** * Runs of the native engine keep the files and the size

    A run over passes leaves the user's files as they were whatever happens,
    and the offline compaction of ext4 ends at the original size unless the
    final minimum was reached. *)

From stdpp Require Import pretty.
From S2P Require Import Prelude Text Bytes Devices NativeGeometry Kernel NativeCompact NativeXfs NativeRun NativeFacts NativeXfsFacts.

Local Open Scope string_scope.
Local Open Scope list_scope.
Local Open Scope Z_scope.

(** The block size the engine reads from the device is [bs]. *)
Definition reads_block_size {K} (k : kernel K) (device : text) (filesystem : string) (bs : Z) : Prop :=
  forall s p, (compact_geometry k device filesystem s).2 = Ok p -> p.1 = bs.

(** The same, without the size of the file system. *)
Definition blind {K} (w : view K) : view K := mkView K (content w) (physical w) (file_of w) (own_names w) (fun _ => Ok (0, 0)) (user_file w).

(** What is relied on of [e2fsck] and [resize2fs]: they keep the files, the
    check keeps the size, and a resize leaves a size that can be read and is no
    larger than before or than what it was asked for. *)
Class ToolLaws {K : Type} (t : tool_calls K) (w : view K) (device e2fsck resize2fs : text) (bs : Z) : Prop := mkToolLaws {
  tl_files tool args s : tool = e2fsck \/ tool = resize2fs -> same_files (blind w) s (t_run t (tool :: args) s).1 /\ own_names w (t_run t (tool :: args) s).1 = own_names w s;
  tl_fsck args s : volume w (t_run t (e2fsck :: args) s).1 = volume w s;
  tl_shrink s m : volume w s = Ok (bs, m * bs) -> exists m', m' <= m /\ volume w (t_run t [resize2fs; of_string "-M"; of_string "-p"; device] s).1 = Ok (bs, m' * bs);
  tl_grow s m blocks : volume w s = Ok (bs, m * bs) -> m <= blocks ->
    exists m', m' <= blocks /\ volume w (t_run t [resize2fs; of_string "-p"; device; of_string (pretty blocks)] s).1 = Ok (bs, m' * bs) /\
               ((t_run t [resize2fs; of_string "-p"; device; of_string (pretty blocks)] s).2 = Ok 0 -> m' = blocks)
}.

Section facts.
Context {K : Type} (k : kernel K) (x : xfs_calls K) (t : tool_calls K) (w : view K) (bs : Z) (rounds : nat).
Context {Laws : KernelLaws k w bs} {XLaws : XfsLaws k x w}.
Hypothesis Hbs : 0 < bs.

Abbreviation anything := (fun _ : K => True).

Lemma quiet_get {A} (f : K -> result A) : quiet w (kget f).
Proof. done. Qed.

Lemma assert_quiet device : quiet w (_assert_unmounted k device).
Proof. apply quiet_bind; [apply quiet_get|]. intros st. apply quiet_raise_if, quiet_bind; [apply quiet_get|]. intros m. by apply quiet_raise_if. Qed.

Lemma enter_quiet device fs : quiet w (PrivateMount_enter k device fs).
Proof.
  apply quiet_bind; [apply quiet_lift|]. intros d. apply quiet_bind; [apply assert_quiet|]. intros ?. apply quiet_bind; [apply l_makedirs|]. intros ?. apply quiet_bind; [apply l_mkdtemp|]. intros path.
  apply quiet_catch; [apply quiet_bind; [apply l_mount|done]|]. intros e. apply quiet_bind; [apply l_rmdir|done].
Qed.

Lemma ignore_quiet (m : kprog K unit) : quiet w m -> quiet w (ignore_os_error m).
Proof. intros Hm. apply quiet_catch; [done|]. intros e. by destruct (is_os_error e). Qed.

Lemma exit_quiet path : quiet w (PrivateMount_exit k path).
Proof.
  apply quiet_bind; [apply ignore_quiet, l_sync|]. intros ?. apply quiet_bind; [|intros ?; apply ignore_quiet, l_rmdir].
  generalize 5%nat. induction n as [|n IH]; cbn [unmount_loop]; [done|]. apply quiet_catch; [apply l_umount2|]. intros e. by destruct (errno_in e _).
Qed.

Lemma with_mount_triple {A} device fs (body : text -> kprog K A) : (forall path, triple w (clean w) (body path) (fun _ => clean w) anything) ->
  triple w (clean w) (with_mount k device fs body) (fun _ => clean w) anything.
Proof.
  intros Hb. eapply (triple_bind _ _ _ _ (fun _ => clean w)); [eapply triple_weaken; [| | |apply clean_quiet, enter_quiet]; done|]. intros path.
  eapply triple_finally; [apply Hb| |apply any_quiet, exit_quiet]. intros a. eapply triple_weaken; [| | |apply clean_quiet, exit_quiet]; done.
Qed.

Lemma run_passes_triple pass : (forall before, triple w (clean w) (pass before) (fun _ => clean w) anything) ->
  forall numbers sum, triple w (clean w) (run_passes k pass numbers sum) (fun _ => clean w) anything.
Proof.
  intros Hp. induction numbers as [|n numbers IH]; intros sum; cbn [run_passes]; [by apply triple_ret|]. intros s Hs. destruct (k_stop k s); [done|]. revert s Hs.
  match goal with |- forall s, _ -> same_files w s (?m s).1 /\ _ => change (triple w (clean w) m (fun _ => clean w) anything) end.
  eapply triple_bind; [apply Hp|]. intros r. destruct (r_stopped r); [by apply triple_ret|]. destruct (_ <=? 0); [by apply triple_ret|apply IH].
Qed.

Lemma run_triple device fs live : reads_block_size k device fs bs ->
  triple w (clean w) (_run_extent_compaction k x rounds device fs live) (fun _ => clean w) anything.
Proof.
  intros Hgeo. unfold _run_extent_compaction. assert (quiet w (compact_geometry k device fs)) as Hq.
  { unfold compact_geometry. destruct (bool_decide _); [apply quiet_get|]. destruct (bool_decide _); [apply quiet_get|apply quiet_lift]. }
  eapply (triple_bind _ _ _ _ (fun p s => p.1 = bs /\ clean w s)).
  - intros s Hs. destruct (clean_quiet w _ Hq s Hs) as [Hf Hc]. split; [done|]. pose proof (Hgeo s) as Hb. destruct ((compact_geometry k device fs s).2) as [p|e]; [|done]. split; [by apply Hb|done].
  - intros [b n]. cbn [fst]. apply triple_pure. intros ->. apply with_mount_triple. intros path. apply run_passes_triple. intros before. unfold one_pass.
    case_bool_decide; (eapply triple_weaken; [| | |]; [| | |(apply (whole_pass_triple k x w bs) || apply (pass_triple k w bs)); done]; [done|by intros a s []|done]).
Qed.

(** ** ext4 offline *)

Lemma blind_triple {A} I (m : kprog K A) Q E (F : result (Z * Z) -> Prop) : tripleX w I m Q E ->
  tripleX (blind w) (fun s => I s /\ F (volume w s)) m (fun a s => Q a s /\ F (volume w s)) (fun e s => E e s /\ F (volume w s)).
Proof.
  intros H s [Hs HF]. destruct (H s Hs) as [[Hv Hf] Hq]. split; [split; [done|exact Hf]|]. rewrite <- Hv in HF. by destruct ((m s).2).
Qed.

Section offline.
Context (device e2fsck resize2fs : text) (live blocks : Z).
Context {TLaws : ToolLaws t w device e2fsck resize2fs bs}.
Hypothesis Hvolume : forall s, volume w s = ext4_compact_geometry (k_device k s device).
Hypothesis Hblock : reads_block_size k device "ext4" bs.

(** Up to [blocks] blocks. *)
Definition sized (s : K) : Prop := exists m, m <= blocks /\ volume w s = Ok (bs, m * bs).
Definition full (s : K) : Prop := volume w s = Ok (bs, blocks * bs).

Abbreviation clean_and F := (fun s : K => clean w s /\ F s).

Lemma full_sized s : full s -> sized s.
Proof. intros H. by exists blocks. Qed.

(** A tool whose exit status is checked; [R] is what it does to the size. *)
Lemma tool_triple tool args accepted (F G : K -> Prop) : tool = e2fsck \/ tool = resize2fs -> (forall s, F s -> G (t_run t (tool :: args) s).1) ->
  tripleX (blind w) (clean_and F) (_run_ext4_tool t (tool :: args) accepted) (fun _ => clean_and G) (fun _ => G).
Proof.
  intros Htool HF. unfold _run_ext4_tool. eapply (tripleX_bind _ _ _ _ (fun _ => clean_and G)).
  - eapply (tripleX_catch _ _ _ _ _ (fun _ => G)).
    + intros s [Hc Hf]. destruct (tl_files (ToolLaws := TLaws) tool args s Htool) as [Hs Hn]. split; [done|]. pose proof (HF s Hf). destruct ((t_run t (tool :: args) s).2); [|done]. split; [unfold clean; congruence|done].
    + intros e. destruct (is_os_error e); by apply tripleX_raise.
  - intros st. case_bool_decide; cbn [negb]; [by apply triple_ret|apply tripleX_raise; by intros s []].
Qed.

Lemma shrink_triple : tripleX (blind w) (clean_and sized) (shrink t device resize2fs) (fun _ => clean_and sized) (fun _ => sized).
Proof.
  eapply tripleX_bind; [apply (tool_triple _ _ _ sized sized); [by right|]|intros ?; by apply triple_ret].
  intros s (m & Hm & Hv). destruct (tl_shrink (ToolLaws := TLaws) s m Hv) as (m' & Hm' & Hv'). exists m'. split; [lia|done].
Qed.

(** With exit status 0 the file system has its size again. *)
Lemma grow_spec s : sized s -> let '(s', r) := grow_back t device resize2fs bs (blocks * bs) s in same_files (blind w) s s' /\ (clean w s -> clean w s') /\ sized s' /\ (r = Ok tt -> full s').
Proof.
  intros (m & Hm & Hv). unfold grow_back, original_blocks. rewrite Z.div_mul by lia. unfold _run_ext4_tool, kbind, kcatch.
  destruct (tl_grow (ToolLaws := TLaws) s m blocks Hv Hm) as (m' & Hm' & Hv' & Hok). destruct (tl_files (ToolLaws := TLaws) resize2fs [of_string "-p"; device; of_string (pretty blocks)] s ltac:(by right)) as [Hs Hn].
  destruct (t_run t [resize2fs; of_string "-p"; device; of_string (pretty blocks)] s) as [s' [st|e]]; cbn [fst snd] in *.
  - case_bool_decide as Hin; cbn [negb]; (split; [done|]; split; [intros Hc; unfold clean; congruence|]; split; [by exists m'|]); [|done].
    intros _. apply list_elem_of_singleton in Hin as ->. unfold full. by rewrite Hv', (Hok eq_refl).
  - destruct (is_os_error e); (split; [done|]; split; [intros Hc; unfold clean; congruence|]; split; [by exists m'|done]).
Qed.

Lemma grow_triple : tripleX (blind w) (clean_and sized) (grow_back t device resize2fs bs (blocks * bs)) (fun _ => clean_and full) (fun _ => sized).
Proof.
  intros s [Hc Hs]. pose proof (grow_spec s Hs) as H. destruct (grow_back t device resize2fs bs (blocks * bs) s) as [s' [[]|e]]; destruct H as (Hf & Hcl & Hz & Hok); (split; [done|]); [|done].
  split; [by apply Hcl|by apply Hok].
Qed.

Lemma geometry_triple (F : K -> Prop) : (forall s, F s -> sized s) -> tripleX (blind w) (clean_and F) (geometry_now k device) (fun p s => volume w s = Ok p /\ clean w s /\ F s) (fun _ => sized).
Proof. intros HF s [Hc Hs]. split; [by apply same_refl|]. cbn. pose proof (Hvolume s) as Hv. destruct (ext4_compact_geometry _); [by split|by apply HF]. Qed.

Lemma run_offline : tripleX (blind w) (clean_and full) (_run_extent_compaction k x rounds device "ext4" live) (fun _ => clean_and full) (fun _ => sized).
Proof.
  intros s [Hc Hs]. destruct (run_triple device "ext4" live Hblock s Hc) as [[Hv Hf] Hq]. split; [by split|].
  assert (full (_run_extent_compaction k x rounds device "ext4" live s).1) as Hfull by (unfold full; congruence). destruct ((_run_extent_compaction _ _ _ _ _ _ s).2); [by split|by apply full_sized].
Qed.

(** An early return is for a stop. *)
Definition stop_code (o : option Z) : Prop := match o with Some code => code = EXIT_STOPPED | None => True end.

Abbreviation early_or_on := (fun (o : option Z) (s : K) => stop_code o /\ clean w s /\ sized s).

Lemma stopping_triple (F : K -> Prop) m : (forall s, F s -> sized s) -> tripleX (blind w) (clean_and F) m early_or_on (fun _ => sized) ->
  tripleX (blind w) (clean_and F) (stopping k m) early_or_on (fun _ => sized).
Proof. intros HF Hm s Hs. unfold stopping. destruct (k_stop k s); [|by apply Hm]. split; [by apply same_refl|]. cbn. split; [done|]. split; [apply Hs|apply HF, Hs]. Qed.

Lemma rounds_triple numbers : tripleX (blind w) (clean_and sized) (repack_rounds k x t rounds device e2fsck resize2fs live bs (blocks * bs) numbers) early_or_on (fun _ => sized).
Proof.
  induction numbers as [|n numbers IH]; cbn [repack_rounds]; [by apply triple_ret|]. apply stopping_triple; [done|].
  eapply tripleX_bind; [apply shrink_triple|]. intros ?. eapply tripleX_bind; [by apply geometry_triple|]. intros [b m]. destruct (_ <? _); [apply tripleX_raise; by intros s (_ & _ & ?)|].
  eapply tripleX_bind; [eapply tripleX_weaken; [| | |apply grow_triple]; [by intros s (_ & ?)|intros a0 s Hs; exact Hs|done]|]. intros ?.
  apply stopping_triple; [apply full_sized|]. eapply tripleX_bind; [apply run_offline|]. intros sum.
  assert (forall s, clean_and full s -> clean_and sized s) as Hw by (intros s [? ?]; split; [done|by apply full_sized]).
  destruct (t_stopped sum); [apply triple_ret; intros s Hs; split; [done|by apply Hw]|]. eapply (tripleX_bind _ _ _ _ (fun _ => clean_and sized)).
  - eapply (tripleX_bind _ _ _ _ (fun _ => clean_and sized)); [|intros ?; by apply triple_ret]. eapply tripleX_weaken; [exact Hw| | |apply (tool_triple e2fsck _ _ sized sized); [by left|]]; [done|done|].
    intros s (m' & Hm & Hv). exists m'. by rewrite (tl_fsck (ToolLaws := TLaws)).
  - intros ?. destruct (_ =? 0); [by apply triple_ret|done].
Qed.

(** Where the final minimum was reached. *)
Definition committed (o : Z + Z) (s : K) : Prop := match o with inl code => code = EXIT_STOPPED /\ sized s | inr final => volume w s = Ok (bs, final) /\ final <= blocks * bs end.

Lemma before_commit_triple : tripleX (blind w) (clean_and sized) (before_commit k x t rounds device e2fsck resize2fs live bs (blocks * bs)) committed (fun _ => sized).
Proof.
  assert (forall (F : K -> Prop) args acc, (forall s s', volume w s' = volume w s -> F s -> F s') -> tripleX (blind w) (clean_and F) (_run_ext4_tool t (e2fsck :: args) acc) (fun _ => clean_and F) (fun _ => F)) as Hfsck.
  { intros F args acc HF. apply tool_triple; [by left|]. intros s. apply HF. apply (tl_fsck (ToolLaws := TLaws)). }
  assert (forall s s', volume w s' = volume w s -> sized s -> sized s') as Hsz by (intros s s' Hv (m & ? & ?); exists m; split; [done|congruence]).
  unfold before_commit. eapply tripleX_bind; [by apply (Hfsck sized)|]. intros ?. eapply tripleX_bind; [apply rounds_triple|]. intros early.
  apply triple_pure. intros Hearly. eapply (tripleX_bind _ _ _ _ early_or_on); [destruct early; [by apply triple_ret|apply stopping_triple; [done|by apply triple_ret]]|].
  intros [code|]; apply triple_pure; intros Hcode; [apply triple_ret; by intros s []|]. eapply tripleX_bind; [apply shrink_triple|]. intros ?. eapply tripleX_bind; [by apply geometry_triple|]. intros [b m].
  destruct (negb (b =? bs) || (blocks * bs <? m)) eqn:E; [apply tripleX_raise; by intros s (_ & _ & ?)|]. apply orb_false_iff in E as [Hb Hm]. apply negb_false_iff, Z.eqb_eq in Hb. subst b.
  apply triple_ret. intros s (Hv & _). split; [done|lia].
Qed.

Hypothesis Hgrow : forall s, (t_run t [resize2fs; of_string "-p"; device; of_string (pretty blocks)] s).2 = Ok 0.

Lemma restore_spec s : sized s -> let '(s', r) := restore_size k t device resize2fs bs (blocks * bs) s in same_files (blind w) s s' /\ full s' /\ r = Ok tt.
Proof.
  intros (m & Hm & Hv). pose proof (Hvolume s) as Hg. rewrite Hv in Hg. unfold restore_size, kcatch, kbind, geometry_now, kget. rewrite <- Hg. unfold original_blocks. rewrite !Z.div_mul by lia.
  destruct (Z.ltb_spec m blocks).
  - pose proof (grow_spec s (ex_intro _ m (conj Hm Hv))) as H1. assert ((grow_back t device resize2fs bs (blocks * bs) s).2 = Ok tt) as Hok.
    { unfold grow_back, original_blocks. rewrite Z.div_mul by lia. unfold _run_ext4_tool, kbind, kcatch. specialize (Hgrow s). destruct (t_run t _ s) as [s' r]. cbn in Hgrow. by subst r. }
    destruct (grow_back t device resize2fs bs (blocks * bs) s) as [s' r]. cbn in Hok. subst r. destruct H1 as (Hf & _ & _ & Hfull). split; [done|]. split; [by apply Hfull|done].
  - split; [by apply same_refl|]. split; [|done]. unfold full. rewrite Hv. by replace m with blocks by lia.
Qed.

(** The run: where the minimum was not committed the file system has its
    original size, otherwise the minimum. *)
Lemma repack_spec s : clean w s -> full s ->
  let '(s', r) := repack k x t rounds device e2fsck resize2fs live bs (blocks * bs) s in same_files (blind w) s s' /\
  match (before_commit k x t rounds device e2fsck resize2fs live bs (blocks * bs) s).2 with
  | Ok (inr final) => volume w s' = Ok (bs, final) /\ final <= blocks * bs
  | Ok (inl code) => full s' /\ r = Ok code /\ code = EXIT_STOPPED
  | Raise e => full s' /\ r = Raise e
  end.
Proof.
  intros Hc Hs. destruct (before_commit_triple s (conj Hc (full_sized s Hs))) as [Hf Hq]. unfold repack. destruct (before_commit _ _ _ _ _ _ _ _ _ _ s) as [s1 [[code|final]|e]]; cbn [fst snd] in *.
  - destruct Hq as [Hcode Hq]. pose proof (restore_spec s1 Hq) as H. unfold kbind. destruct (restore_size _ _ _ _ _ _ s1) as [s2 r]. destruct H as (Hf2 & Hfull & ->). split; [by eapply same_trans|done].
  - destruct Hq as [Hv Hle].
    assert (tripleX (blind w) (fun s => volume w s = Ok (bs, final)) (after_commit k t device e2fsck bs final) (fun _ s => volume w s = Ok (bs, final)) (fun _ s => volume w s = Ok (bs, final))) as Hafter.
    { unfold after_commit, _run_ext4_tool. eapply tripleX_bind.
      - eapply (tripleX_bind _ _ _ _ (fun _ s => volume w s = Ok (bs, final))); [eapply (tripleX_catch _ _ _ _ _ (fun _ s => volume w s = Ok (bs, final)))|].
        + intros y Hy. destruct (tl_files (ToolLaws := TLaws) e2fsck [of_string "-f"; of_string "-n"; device] y ltac:(by left)) as [Hfy _]. pose proof (tl_fsck (ToolLaws := TLaws) [of_string "-f"; of_string "-n"; device] y) as Hvy. rewrite Hy in Hvy.
          split; [done|]. by destruct ((t_run t _ y).2).
        + intros e. destruct (is_os_error e); by apply tripleX_raise.
        + intros st. case_bool_decide; cbn [negb]; [apply (triple_ret _ _ _ (fun _ s => volume w s = Ok (bs, final))); done|by apply tripleX_raise].
      - intros ?. eapply (tripleX_bind _ _ _ _ (fun _ s => volume w s = Ok (bs, final))).
        + intros y Hy. split; [by apply same_refl|]. cbn. by destruct (ext4_compact_geometry _).
        + intros [b m]. destruct (_ || _); [by apply tripleX_raise|]. intros y Hy. split; [by apply same_refl|done]. }
    destruct (Hafter s1 Hv) as [Hf2 Hq2]. destruct (after_commit _ _ _ _ _ _ s1) as [s2 r]. cbn [fst snd] in *. split; [by eapply same_trans|]. by destruct r.
  - pose proof (restore_spec s1 Hq) as H. unfold kbind. destruct (restore_size _ _ _ _ _ _ s1) as [s2 r]. destruct H as (Hf2 & Hfull & ->). split; [by eapply same_trans|done].
Qed.
End offline.
End facts.

(** C9. The extent compaction of ext4 and XFS keeps every file: on any kernel
    with [KernelLaws] and [XfsLaws], whichever calls fail and whenever a stop
    is requested, every file of the user reads the same afterwards and the
    file system has its size. *)
Theorem compaction_keeps_files {K : Type} (k : kernel K) (x : xfs_calls K) (w : view K) (bs : Z) {Laws : KernelLaws k w bs} {XLaws : XfsLaws k x w} (rounds : nat) device filesystem live_cells s :
  0 < bs -> reads_block_size k device filesystem bs -> clean w s -> same_files w s (compact_extent_filesystem k x rounds device filesystem live_cells s).1.
Proof.
  intros Hbs Hgeo Hs. unfold compact_extent_filesystem. assert (triple w (clean w) (let! sum := _run_extent_compaction k x rounds device filesystem live_cells in kret (if t_stopped sum then EXIT_STOPPED else 0)) (fun _ => clean w) (fun _ => True)) as H; [|by apply H].
  eapply triple_bind; [by apply (run_triple k x w bs)|]. intros sum. by apply triple_ret.
Qed.

