(* ===== verification/NativeSim.v ===== *)
(** * A simulated kernel

    An executable kernel over a small volume, with the laws of [KernelLaws] and
    [XfsLaws] proved for every one of its states: a table says which block of
    which file a physical block holds, files are read through it, and an
    exchange swaps both blocks and bytes. *)

From stdpp Require Import pretty.
From S2P Require Import Prelude Text Bytes Devices NativeGeometry Kernel NativeCompact NativeXfs NativeRun NativeFacts NativeXfsFacts NativeRunFacts.

Local Open Scope string_scope.
Local Open Scope list_scope.
Local Open Scope Z_scope.

Definition BS : Z := 1024.

(** ** The block table *)

(** The file and the block of it that a physical block holds. *)
Abbreviation table := (list (option (Z * Z))).

Fixpoint locate (key : Z * Z) (o : table) : option nat :=
  match o with
  | [] => None
  | e :: rest => if bool_decide (e = Some key) then Some O else S <$> locate key rest
  end.

Fixpoint first_free (o : table) : option nat :=
  match o with
  | [] => None
  | None :: _ => Some O
  | Some _ :: rest => S <$> first_free rest
  end.

(** Give blocks of [g] a place, the lowest that is free. *)
Fixpoint assign (g : Z) (indexes : list Z) (o : table) : option table :=
  match indexes with
  | [] => Some o
  | i :: rest =>
      match locate (g, i) o with
      | Some _ => assign g rest o
      | None => match first_free o with Some p => assign g rest (<[p := Some (g, i)]> o) | None => None end
      end
  end.

(** The block indexes of a range of bytes. *)
Definition block_range (off len : Z) : list Z := if len <=? 0 then [] else py_range (off / BS) ((off + len - 1) / BS + 1).

(** Swap the places of [n] blocks. *)
Fixpoint swap_blocks (f g b d : Z) (n : nat) (o : table) : option table :=
  match n with
  | O => Some o
  | S n' =>
      match locate (f, b) o, locate (g, d) o with
      | Some p, Some q => swap_blocks f g (b + 1) (d + 1) n' (<[p := Some (g, d)]> (<[q := Some (f, b)]> o))
      | _, _ => None
      end
  end.

Lemma locate_some key o p : locate key o = Some p -> o !! p = Some (Some key).
Proof.
  revert p. induction o as [|e o IH]; intros p; cbn; [done|]. case_bool_decide as He; [intros [= <-]; by rewrite He|]. destruct (locate key o) as [q|]; [|done]. intros [= <-]. by apply IH.
Qed.

Lemma locate_in key o : is_Some (locate key o) <-> Some key ∈ o.
Proof.
  induction o as [|e o IH]; cbn; [split; [intros [? ?]; done|intros H; inversion H]|]. case_bool_decide as He; [split; [subst; by left|by eauto]|].
  rewrite elem_of_cons, <- IH. split; [intros [p Hp]; right; destruct (locate key o); [eauto|done]|]. intros [?|[p Hp]]; [congruence|]. rewrite Hp. by eauto.
Qed.

Lemma first_free_some o p : first_free o = Some p -> o !! p = Some None.
Proof. revert p. induction o as [|[e|] o IH]; intros p; cbn; [done| |by intros [= <-]]. destruct (first_free o) as [q|]; [|done]. intros [= <-]. by apply IH. Qed.

(** Filling a free place moves nothing. *)
Lemma locate_fill key key' o p : o !! p = Some None -> key <> key' -> locate key (<[p := Some key']> o) = locate key o.
Proof.
  revert p. induction o as [|e o IH]; intros [|p] Hp Hne; cbn in *; [done|done| |].
  - injection Hp as ->. rewrite bool_decide_eq_false_2 by congruence. by rewrite bool_decide_eq_false_2.
  - by rewrite IH.
Qed.

Lemma assign_facts g indexes : forall o o', assign g indexes o = Some o' ->
  (forall key, key.1 <> g -> locate key o' = locate key o) /\ (forall key, Some key ∈ o -> Some key ∈ o') /\ (forall i, i ∈ indexes -> Some (g, i) ∈ o') /\
  (forall i, Some (g, i) ∈ o' -> Some (g, i) ∈ o \/ i ∈ indexes).
Proof.
  induction indexes as [|i rest IH]; intros o o'; cbn [assign]; [intros [= <-]; split; [done|]; split; [done|]; split; [intros i Hi; inversion Hi|by left]|].
  destruct (locate (g, i) o) as [p|] eqn:El.
  - intros H. destruct (IH _ _ H) as (H1 & H2 & H3 & H4). split; [done|]. split; [done|]. split.
    + intros j [->|Hj]%elem_of_cons; [|by apply H3]. apply H2, locate_in. by eauto.
    + intros j Hj. destruct (H4 j Hj); [by left|right; by right].
  - destruct (first_free o) as [p|] eqn:Ef; [|done]. intros H. pose proof (first_free_some _ _ Ef) as Hp. destruct (IH _ _ H) as (H1 & H2 & H3 & H4).
    assert (forall key, Some key ∈ o -> Some key ∈ <[p := Some (g, i)]> o) as Hkeep.
    { intros key Hin. apply locate_in. rewrite locate_fill; [by apply locate_in|done|]. intros ->. apply locate_in in Hin as [? ?]. congruence. }
    split; [|split; [|split]].
    + intros key Hk. rewrite H1 by done. apply locate_fill; [done|]. intros ->. done.
    + intros key Hin. by apply H2, Hkeep.
    + intros j [->|Hj]%elem_of_cons; [|by apply H3]. apply H2. apply list_elem_of_lookup. exists p. apply list_lookup_insert_eq. by eapply lookup_lt_Some.
    + intros j Hj. destruct (H4 j Hj) as [Hin|]; [|right; by right]. destruct (decide (j = i)) as [->|Hne]; [right; by left|]. left.
      apply locate_in in Hin. rewrite locate_fill in Hin; [by apply locate_in|done|congruence].
Qed.

(** Swapping two entries keeps what the table has. *)
Lemma swap_entries (o : table) p q a b key : o !! p = Some a -> o !! q = Some b -> key ∈ <[p := b]> (<[q := a]> o) <-> key ∈ o.
Proof.
  intros Hp Hq. pose proof (lookup_lt_Some _ _ _ Hp) as Lp. pose proof (lookup_lt_Some _ _ _ Hq) as Lq. rewrite !list_elem_of_lookup. split; intros [i Hi].
  - destruct (decide (i = p)) as [->|Hip]; [rewrite list_lookup_insert_eq in Hi by (by rewrite length_insert); simplify_eq; by exists q|]. rewrite list_lookup_insert_ne in Hi by done.
    destruct (decide (i = q)) as [->|Hiq]; [rewrite list_lookup_insert_eq in Hi by done; simplify_eq; by exists p|]. rewrite list_lookup_insert_ne in Hi by done. by exists i.
  - destruct (decide (i = p)) as [->|Hip].
    + destruct (decide (p = q)) as [->|Hpq]; [exists q; rewrite list_lookup_insert_eq by (by rewrite length_insert); congruence|].
      exists q. rewrite list_lookup_insert_ne by done. rewrite list_lookup_insert_eq by done. congruence.
    + destruct (decide (i = q)) as [->|Hiq]; [exists p; rewrite list_lookup_insert_eq by (by rewrite length_insert); congruence|]. exists i. by rewrite !list_lookup_insert_ne.
Qed.

Lemma swap_blocks_facts f g n : forall b d o o', swap_blocks f g b d n o = Some o' -> (forall key, key ∈ o' <-> key ∈ o) /\ forall j, 0 <= j < Z.of_nat n -> Some (f, b + j) ∈ o /\ Some (g, d + j) ∈ o.
Proof.
  induction n as [|n IH]; intros b d o o'; cbn [swap_blocks]; [intros [= <-]; split; [done|lia]|].
  destruct (locate (f, b) o) as [p|] eqn:Ep; [|done]. destruct (locate (g, d) o) as [q|] eqn:Eq; [|done]. intros H. destruct (IH _ _ _ _ H) as [H1 H2].
  assert (forall key, key ∈ <[p := Some (g, d)]> (<[q := Some (f, b)]> o) <-> key ∈ o) as Hk by (intros key; apply swap_entries; by apply locate_some).
  split; [intros key; by rewrite H1, Hk|]. intros j Hj. destruct (decide (j = 0)) as [->|Hne].
  - rewrite !Z.add_0_r. split; apply locate_in; by eauto.
  - specialize (H2 (j - 1) ltac:(lia)). rewrite !Hk in H2. replace (b + 1 + (j - 1)) with (b + j) in H2 by lia. by replace (d + 1 + (j - 1)) with (d + j) in H2 by lia.
Qed.

(** ** Files *)

(** The bytes of blocks without a place read as zeros. *)
Definition mask (m : Z -> bool) (l : bytes) : bytes :=
  if forallb m (py_range 0 ((py_len l + BS - 1) / BS)) then l else imap (fun i b => if m (Z.of_nat i / BS) then b else 0) l.

Definition read_at (l : bytes) (i : Z) : Z := default 0 (nthZ l i).

(** [l] with [data] at [off], extended with zeros. *)
Definition overlay (l : bytes) (off : Z) (data : bytes) : bytes :=
  map (fun i => if (off <=? i) && (i <? off + py_len data) then read_at data (i - off) else read_at l i) (py_range 0 (Z.max (py_len l) (off + py_len data))).

(** [l] with the bytes of [l'] from [off'] in the range. *)
Definition splice (l : bytes) (off : Z) (l' : bytes) (off' len : Z) : bytes :=
  imap (fun i b => if (off <=? Z.of_nat i) && (Z.of_nat i <? off + len) then read_at l' (off' + (Z.of_nat i - off)) else b) l.

Lemma py_len_mask m l : py_len (mask m l) = py_len l.
Proof. unfold py_len, mask. destruct (forallb _ _); [done|]. by rewrite length_imap. Qed.

Lemma nthZ_mask m l i : 0 <= i -> nthZ (mask m l) i = (fun b => if m (i / BS) then b else 0) <$> nthZ l i.
Proof.
  intros Hi. unfold mask. destruct (forallb _ _) eqn:Ef; [|unfold nthZ; rewrite list_lookup_imap, Z2Nat.id by lia; done].
  destruct (nthZ l i) as [b|] eqn:Eb; [|done]. cbn. apply nthZ_len in Eb; [|done]. rewrite forallb_forall in Ef. rewrite Ef; [done|]. apply list_elem_of_In, elem_of_py_range.
  split; [apply Z.div_pos; unfold BS; lia|]. apply Z.div_lt_upper_bound; [unfold BS; lia|]. pose proof (Z.div_mod (py_len l + BS - 1) BS ltac:(unfold BS; lia)). pose proof (Z.mod_pos_bound (py_len l + BS - 1) BS ltac:(unfold BS; lia)). lia.
Qed.

Lemma mask_ext m m' l : (forall i, m i = m' i) -> mask m l = mask m' l.
Proof. intros H. apply nthZ_ext; [by rewrite !py_len_mask|]. intros i Hi. rewrite !nthZ_mask by lia. by rewrite H. Qed.

Lemma nthZ_some_iff {A} (l : list A) i : 0 <= i -> (exists b, nthZ l i = Some b) <-> i < py_len l.
Proof. intros Hi. split; [intros [b Hb]; by eapply nthZ_len|intros H; by apply nthZ_some]. Qed.

Lemma nthZ_none {A} (l : list A) i : py_len l <= i -> nthZ l i = None.
Proof. intros H. unfold nthZ, py_len in *. apply lookup_ge_None. lia. Qed.

Lemma nthZ_range a b i : 0 <= i < b - a -> nthZ (py_range a b) i = Some (a + i).
Proof. intros Hi. unfold nthZ, py_range. rewrite lookup_seqZ_lt by lia. f_equal. lia. Qed.

Lemma py_len_overlay l off data : py_len (overlay l off data) = Z.max 0 (Z.max (py_len l) (off + py_len data)).
Proof. unfold overlay. set (m := Z.max (py_len l) (off + py_len data)). unfold py_len. rewrite length_fmap. change (py_len (py_range 0 m) = Z.max 0 m). rewrite py_len_range. lia. Qed.

Lemma nthZ_overlay_in l off data i : 0 <= off -> off <= i < off + py_len data -> nthZ (overlay l off data) i = nthZ data (i - off).
Proof.
  intros Ho Hi. unfold overlay. destruct (nthZ_some data (i - off)) as [b Hb]; [lia|]. unfold nthZ at 1. rewrite list_lookup_fmap. fold (nthZ (py_range 0 (Z.max (py_len l) (off + py_len data))) i).
  rewrite nthZ_range by lia. cbn. rewrite (proj2 (Z.leb_le off (0 + i))), (proj2 (Z.ltb_lt (0 + i) (off + py_len data))) by lia. cbn. unfold read_at. replace (0 + i - off) with (i - off) by lia. by rewrite Hb.
Qed.

Lemma nthZ_overlay_out l off data i : 0 <= off -> 0 <= i -> i < off \/ off + py_len data <= i ->
  nthZ (overlay l off data) i = if i <? Z.max (py_len l) (off + py_len data) then Some (read_at l i) else None.
Proof.
  intros Ho Hi Hout. unfold overlay. destruct (Z.ltb_spec i (Z.max (py_len l) (off + py_len data))).
  - unfold nthZ at 1. rewrite list_lookup_fmap. fold (nthZ (py_range 0 (Z.max (py_len l) (off + py_len data))) i). rewrite nthZ_range by lia. cbn.
    replace (_ && _) with false; [by replace (0 + i) with i by lia|]. symmetry. apply andb_false_iff. lia.
  - apply nthZ_none. fold (overlay l off data). rewrite py_len_overlay. lia.
Qed.

Lemma nthZ_splice l off l' off' len i : 0 <= i -> nthZ (splice l off l' off' len) i = (fun b => if (off <=? i) && (i <? off + len) then read_at l' (off' + (i - off)) else b) <$> nthZ l i.
Proof. intros Hi. unfold nthZ, splice. rewrite list_lookup_imap, Z2Nat.id by lia. done. Qed.

(** ** States *)

Record sim := mkSim {
  y_raw : Z -> bytes; y_table : table; y_fds : list (option Z); y_next : nat; y_names : list text; y_stop : bool; y_small : bool
}.

Definition set_raw (raw : Z -> bytes) (s : sim) : sim := mkSim raw (y_table s) (y_fds s) (y_next s) (y_names s) (y_stop s) (y_small s).
Definition set_table (o : table) (s : sim) : sim := mkSim (y_raw s) o (y_fds s) (y_next s) (y_names s) (y_stop s) (y_small s).
Definition set_fds (fds : list (option Z)) (s : sim) : sim := mkSim (y_raw s) (y_table s) fds (y_next s) (y_names s) (y_stop s) (y_small s).
Definition set_names (names : list text) (s : sim) : sim := mkSim (y_raw s) (y_table s) (y_fds s) (y_next s) names (y_stop s) (y_small s).
Definition set_next (n : nat) (s : sim) : sim := mkSim (y_raw s) (y_table s) (y_fds s) n (y_names s) (y_stop s) (y_small s).

Definition upd (raw : Z -> bytes) (f : Z) (data : bytes) : Z -> bytes := fun x => if x =? f then data else raw x.

Definition placed_block (s : sim) (f i : Z) : bool := bool_decide (Some (f, i) ∈ y_table s).
Definition sim_content (s : sim) (f : Z) : bytes := mask (placed_block s f) (y_raw s f).
Definition sim_physical (s : sim) (f y : Z) : option Z := (fun p => Z.of_nat p * BS + y mod BS) <$> locate (f, y / BS) (y_table s).
Definition sim_file (s : sim) (fd : Z) : option Z := if fd <? 0 then None else mjoin (y_fds s !! Z.to_nat fd).

(** Files from here on are the engine's. *)
Definition OWN : Z := 100.

(** The superblock of an ext4 volume of 4 or 16 blocks. *)
Definition sim_device (small : bool) : bytes := image_of 2048
  [(1024 + 56, [83; 239]); (1024 + 4, [if small then 4 else 16; 0; 0; 0]); (1024 + 96, [64; 0; 0; 0])].

Definition sim_volume (s : sim) : result (Z * Z) := ext4_compact_geometry (Ok (mkReader (sim_device (y_small s)) 2048)).

Definition sim_view : view sim := mkView sim sim_content sim_physical sim_file y_names sim_volume (fun f => f < OWN).

(** ** Calls *)

Definition os_error {A} (name : string) : kprog sim A := kraise OSError name.

Definition with_file {A} (fd : Z) (m : Z -> kprog sim A) : kprog sim A := fun s => match sim_file s fd with Some f => m f s | None => os_error "EBADF" s end.

Definition new_fd (f : Z) : kprog sim Z := fun s => (set_fds (y_fds s ++ [Some f]) s, Ok (Z.of_nat (length (y_fds s)))).

(** Room for a range of a file: the blocks that had no place read as zeros. *)
Definition allocate (f off len : Z) : kprog sim unit := fun s =>
  if (off <? 0) || (py_len (y_table s) * BS <? len) then os_error "ENOSPC" s else
  match assign f (block_range off len) (y_table s) with
  | Some o => (set_table o (set_raw (upd (y_raw s) f (sim_content s f)) s), Ok tt)
  | None => os_error "ENOSPC" s
  end.

Definition write_raw (f : Z) (data : bytes) : kprog sim unit := fun s => (set_raw (upd (y_raw s) f data) s, Ok tt).

(** Only files of the engine are written to. *)
Definition own_file {A} (fd : Z) (m : Z -> kprog sim A) : kprog sim A := with_file fd (fun f => if f <? OWN then os_error "EPERM" else m f).

Definition sim_create (p : text) : kprog sim Z := fun s =>
  let f := OWN + Z.of_nat (y_next s) in new_fd f (set_names (p :: y_names s) (set_next (S (y_next s)) (set_raw (upd (y_raw s) f []) s))).

Definition sim_unlink (p : text) : kprog sim unit := fun s => (set_names (base.filter (fun q => q <> p) (y_names s)) s, Ok tt).

(** A closed file of the engine, which has no name, gives up its blocks. *)
Definition drop_file (f : Z) (e : option (Z * Z)) : option (Z * Z) := match e with Some (f', i) => if f' =? f then None else e | None => None end.

Definition sim_close (fd : Z) : kprog sim unit := with_file fd (fun f s =>
  let s := set_fds (<[Z.to_nat fd := None]> (y_fds s)) s in (if f <? OWN then s else set_table (map (drop_file f) (y_table s)) s, Ok tt)).

Definition block_extent (p i : Z) : FiemapExtent := mkFiemap (i * BS) (p * BS) BS 1.

Definition sim_fiemap (fd a n : Z) : kprog sim (list FiemapExtent) := with_file fd (fun f s =>
  (s, Ok (concat (imap (fun p e => match e with
    | Some (f', i) => if (f' =? f) && bool_decide (locate (f, i) (y_table s) = Some p) && (0 <=? i) && (a <? (i + 1) * BS) && (i * BS <? a + n) then [block_extent (Z.of_nat p) i] else []
    | None => []
    end) (y_table s))))).

Definition sim_fallocate (fd mode off len : Z) : kprog sim unit := own_file fd (fun f =>
  if mode =? 0 then allocate f off len ;;! (fun s => write_raw f (overlay (y_raw s f) (off + len) []) s)
  else fun s => (set_table (map (fun e => match e with Some (f', i) => if (f' =? f) && bool_decide (i ∈ block_range off len) then None else e | None => None end) (y_table s)) s, Ok tt)).

Definition sim_pread (fd n off : Z) : kprog sim bytes := with_file fd (fun f s => if (off <? 0) || (n <? 0) then os_error "EINVAL" s else (s, Ok (py_slice (sim_content s f) off (off + n)))).

Definition sim_pwrite (fd : Z) (data : bytes) (off : Z) : kprog sim Z := own_file fd (fun f =>
  allocate f off (py_len data) ;;! (fun s => write_raw f (overlay (y_raw s f) off data) s) ;;! kret (py_len data)).

(** Exchange ranges in whole blocks: the blocks and the bytes. *)
Definition sim_exchange (fd donor off doff len : Z) : kprog sim unit := with_file fd (fun f => own_file donor (fun g s =>
  if (f =? g) || (off <? 0) || (doff <? 0) || (len <? 0) || negb (off mod BS =? 0) || negb (doff mod BS =? 0) || negb (len mod BS =? 0) then os_error "EINVAL" s else
  match swap_blocks f g (off / BS) (doff / BS) (Z.to_nat (len / BS)) (y_table s) with
  | Some o => (set_table o (set_raw (upd (upd (y_raw s) g (splice (y_raw s g) doff (y_raw s f) off len)) f (splice (y_raw s f) off (y_raw s g) doff len)) s), Ok tt)
  | None => os_error "EINVAL" s
  end)).

Definition swap_key (f g : Z) (e : option (Z * Z)) : option (Z * Z) :=
  match e with Some (h, i) => Some (if h =? f then g else if h =? g then f else h, i) | None => None end.

Definition sim_swapext (fd donor len : Z) : kprog sim unit := with_file fd (fun f => own_file donor (fun g s =>
  if (f =? g) || (2 ^ 63 <=? len) || negb (py_len (sim_content s f) =? len) || negb (py_len (sim_content s g) =? len) then os_error "EFAULT" s else
  (set_table (map (swap_key f g) (y_table s)) (set_raw (upd (upd (y_raw s) g (y_raw s f)) f (y_raw s g)) s), Ok tt))).

Definition sim_ftruncate (fd n : Z) : kprog sim unit := own_file fd (fun f s =>
  if n <? 0 then os_error "EINVAL" s else write_raw f (overlay (py_slice (y_raw s f) 0 n) n []) s).

Definition free_blocks (s : sim) : Z := py_len (base.filter (fun e => e = None) (y_table s)).

(** ** The kernel *)

Section kernel.
Context (dir : list (text * Z)).

Definition sim_open (p : text) : kprog sim Z :=
  match list_find (fun e => e.1 = p) dir with
  | Some (_, (_, f)) => if f <? OWN then new_fd f else os_error "EACCES"
  | None => os_error "ENOENT"
  end.

Definition sim_kernel : kernel sim := mkKernel sim y_stop
  (fun s => (s, Ok (COLLECTOR_FLOOR / BS + free_blocks s, free_blocks s, BS)))
  (fun _ => kret tt) (fun _ => kret tt) sim_create sim_unlink sim_open sim_close
  (fun _ => kret (map (fun e => (e.1, Ok EFile)) dir))
  (fun _ => kret 0)
  (fun fd => with_file fd (fun f s => (s, Ok (py_len (sim_content s f)))))
  (fun fd a n _ => sim_fiemap fd a n)
  sim_fallocate sim_pread sim_pwrite (fun _ => kret tt)
  (fun fd donor b d n => sim_exchange fd donor (b * BS) (d * BS) (n * BS) ;;! kret n)
  (fun fd donor doff off len => sim_exchange fd donor off doff len)
  (fun p => Ok p) (fun _ _ => Ok (mkStat true 2049)) (fun _ => Some [])
  (fun s _ => Ok (mkReader (sim_device (y_small s)) 2048))
  (fun _ => kret tt) (fun _ => kret (of_string "/mnt")) (fun _ _ _ => kret tt) (fun _ => kret tt) (fun _ => kret tt) 7.

Definition sim_xfs : xfs_calls sim := mkXfsCalls sim
  (fun fd => with_file fd (fun f s => (s, Ok (1, f, py_len (sim_content s f)))))
  (fun fd _ => with_file fd (fun _ => kret (mkBstat 0 0 0 [])))
  (fun _ _ _ => kret tt) (fun _ => kret (py_zeros 28)) (fun _ _ => kret tt)
  sim_ftruncate (fun _ _ _ => kret tt) (fun fd donor _ len _ => sim_swapext fd donor len) (fun s => (s, Ok (Z.of_nat (y_next s)))).

(** ** The laws hold *)

Lemma with_file_quiet {A} fd (m : Z -> kprog sim A) : (forall f, quiet sim_view (m f)) -> quiet sim_view (with_file fd m).
Proof. intros H s. unfold with_file. destruct (sim_file s fd); [apply H|done]. Qed.

Lemma sim_file_new s f fd : sim_file (set_fds (y_fds s ++ [Some f]) s) fd = if bool_decide (fd = Z.of_nat (length (y_fds s))) then Some f else sim_file s fd.
Proof.
  unfold sim_file. cbn [y_fds set_fds]. destruct (Z.ltb_spec fd 0); [rewrite bool_decide_eq_false_2 by lia; done|]. case_bool_decide as Hfd.
  - subst fd. rewrite Nat2Z.id, lookup_app_r, Nat.sub_diag by lia. done.
  - destruct (decide (Z.to_nat fd < length (y_fds s))%nat); [by rewrite lookup_app_l|]. rewrite !lookup_ge_None_2; [done|lia|]. rewrite length_app. cbn. lia.
Qed.

Lemma sim_file_fresh s : sim_file s (Z.of_nat (length (y_fds s))) = None.
Proof. unfold sim_file. rewrite (proj2 (Z.ltb_ge _ 0)), Nat2Z.id, lookup_ge_None_2 by lia. done. Qed.

Lemma sim_file_close s fd fd' : fd' <> fd -> 0 <= fd -> sim_file (set_fds (<[Z.to_nat fd := None]> (y_fds s)) s) fd' = sim_file s fd'.
Proof. intros Hne Hfd. unfold sim_file. cbn [y_fds set_fds]. destruct (Z.ltb_spec fd' 0); [done|]. rewrite list_lookup_insert_ne by lia. done. Qed.

Lemma placed_same s s' f : (forall i, Some (f, i) ∈ y_table s' <-> Some (f, i) ∈ y_table s) -> y_raw s' f = y_raw s f -> sim_content s' f = sim_content s f.
Proof. intros Ht Hr. unfold sim_content. rewrite Hr. apply mask_ext. intros i. apply bool_decide_ext, Ht. Qed.

Lemma own_file_write {A} fd (m : Z -> kprog sim A) : (forall g s, OWN <= g -> same_files sim_view s (m g s).1 /\ same_names sim_view s (m g s).1) -> own_write sim_view fd (own_file fd m).
Proof.
  intros H s g Hg Hgu. cbn in Hg, Hgu. unfold own_file, with_file. rewrite Hg. rewrite (proj2 (Z.ltb_ge g OWN)) by lia. apply H. lia.
Qed.

(** What a file without a place at a block reads there. *)
Definition zero_outside (m : Z -> bool) (c : bytes) : Prop := forall i b, 0 <= i -> nthZ c i = Some b -> m (i / BS) = false -> b = 0.

Lemma content_zero s f : zero_outside (placed_block s f) (sim_content s f).
Proof. intros i b Hi Hb Hm. unfold sim_content in Hb. rewrite nthZ_mask, Hm in Hb by done. destruct (nthZ (y_raw s f) i); cbn in Hb; congruence. Qed.

Lemma overlay_extends m c off data i : zero_outside m c -> 0 <= off -> 0 <= i -> i < off \/ off + py_len data <= i -> zero_extended c (mask m (overlay c off data)) i.
Proof.
  intros Hz Ho Hi Hout. unfold zero_extended. rewrite nthZ_mask, nthZ_overlay_out by done. unfold read_at. destruct (Z.lt_ge_cases i (py_len c)) as [Hlt|Hge].
  - left. destruct (nthZ_some c i) as [b Hb]; [lia|]. rewrite Hb, (proj2 (Z.ltb_lt i _)) by lia. cbn. destruct (m (i / BS)) eqn:Em; [done|]. by rewrite (Hz i b Hi Hb Em).
  - rewrite (nthZ_none c i) by lia. destruct (i <? _); [right; cbn; by destruct (m (i / BS))|by left].
Qed.

Lemma allocate_facts g off len s : OWN <= g -> let '(s', r) := allocate g off len s in
  y_fds s' = y_fds s /\ y_names s' = y_names s /\ y_small s' = y_small s /\ (forall f, f <> g -> sim_content s' f = sim_content s f) /\
  match r with
  | Raise _ => s' = s
  | Ok _ => y_raw s' g = sim_content s g /\ (forall i, Some (g, i) ∈ y_table s -> Some (g, i) ∈ y_table s') /\ 0 <= off /\ (forall i, i ∈ block_range off len -> Some (g, i) ∈ y_table s')
  end.
Proof.
  intros Hg. unfold allocate. destruct ((off <? 0) || _) eqn:Eo; [done|]. apply orb_false_iff in Eo as [Eo _]. destruct (assign g (block_range off len) (y_table s)) as [o|] eqn:Ea; [|done].
  destruct (assign_facts _ _ _ _ Ea) as (H1 & H2 & H3 & _). do 3 (split; [done|]). split.
  - intros f Hf. apply placed_same; cbn; [|unfold upd; by rewrite (proj2 (Z.eqb_neq f g))]. intros i. by rewrite <- !locate_in, (H1 (f, i) Hf).
  - cbn. unfold upd. rewrite Z.eqb_refl. split; [done|]. split; [intros i; apply H2|]. split; [lia|done].
Qed.

Lemma write_raw_facts g data s : let s' := (write_raw g data s).1 in
  y_fds s' = y_fds s /\ y_names s' = y_names s /\ y_small s' = y_small s /\ (forall f, f <> g -> sim_content s' f = sim_content s f) /\ sim_content s' g = mask (placed_block s g) data.
Proof.
  cbn. do 3 (split; [done|]). split; [intros f Hf; apply placed_same; cbn; [done|unfold upd; by rewrite (proj2 (Z.eqb_neq f g))]|]. unfold sim_content. cbn. unfold upd. by rewrite Z.eqb_refl.
Qed.

Lemma names_same s s' : y_fds s' = y_fds s -> y_names s' = y_names s -> same_names sim_view s s'.
Proof. intros Hf Hn. split; [|done]. intros fd. cbn. unfold sim_file. by rewrite Hf. Qed.

Lemma files_same s s' g : OWN <= g -> y_small s' = y_small s -> (forall f, f <> g -> sim_content s' f = sim_content s f) -> same_files sim_view s s'.
Proof. intros Hg Hs Hf. split; [cbn; unfold sim_volume; by rewrite Hs|]. intros f Hu. apply Hf. cbn in Hu. lia. Qed.

(** A range is allocated and the file rewritten through [next]. *)
Lemma alloc_write_facts g off len (next : bytes -> bytes) s : OWN <= g ->
  let '(s', r) := (allocate g off len ;;! (fun s => write_raw g (next (y_raw s g)) s)) s in
  same_files sim_view s s' /\ same_names sim_view s s' /\
  (r = Ok tt -> exists m, sim_content s' g = mask m (next (sim_content s g)) /\ zero_outside m (sim_content s g) /\ 0 <= off /\ forall i, i ∈ block_range off len -> m i = true).
Proof.
  intros Hg. unfold kbind. pose proof (allocate_facts g off len s Hg) as Ha. destruct (allocate g off len s) as [s1 [u|e]]; destruct Ha as (Hfd & Hn & Hsm & Hc & Ho).
  - pose proof (write_raw_facts g (next (y_raw s1 g)) s1) as Hw. destruct (write_raw g (next (y_raw s1 g)) s1) as [s2 r]. cbn [fst] in Hw. destruct Hw as (Hfd2 & Hn2 & Hsm2 & Hc2 & Hg2).
    destruct Ho as (Hr & Hkeep & Hoff & Hrange). split; [apply (files_same _ _ g Hg); [congruence|]; intros f Hf; rewrite Hc2, Hc; done|]. split; [apply names_same; congruence|].
    intros _. exists (placed_block s1 g). rewrite Hg2, Hr. split; [done|]. split.
    + intros i b Hi Hb Hm. eapply content_zero; [done|exact Hb|]. unfold placed_block in *. apply bool_decide_eq_false in Hm. apply bool_decide_eq_false_2. intros Hin. by apply Hm, Hkeep.
    + split; [done|]. intros i Hi. apply bool_decide_eq_true_2. by apply Hrange.
  - subst s1. split; [by apply (files_same _ _ g Hg)|]. split; [by apply names_same|done].
Qed.

Lemma own_file_run {A} fd g (m : Z -> kprog sim A) s : sim_file s fd = Some g -> OWN <= g -> own_file fd m s = m g s.
Proof. intros Hg Hle. unfold own_file, with_file. by rewrite Hg, (proj2 (Z.ltb_ge g OWN)) by lia. Qed.

Lemma own_file_ok {A} fd g (m : Z -> kprog sim A) s s' a : sim_file s fd = Some g -> own_file fd m s = (s', Ok a) -> OWN <= g /\ m g s = (s', Ok a).
Proof. intros Hg. unfold own_file, with_file. rewrite Hg. destruct (Z.ltb_spec g OWN); [done|]. done. Qed.

Lemma fallocate_own fd mode off len : own_write sim_view fd (sim_fallocate fd mode off len).
Proof.
  apply own_file_write. intros g s Hg. destruct (mode =? 0).
  - pose proof (alloc_write_facts g off len (fun c => overlay c (off + len) []) s Hg) as H. destruct ((allocate g off len ;;! _) s) as [s' r]. cbn [fst]. tauto.
  - cbn [fst]. split; [apply (files_same _ _ g Hg); [done|]|by apply names_same]. intros f Hf. apply placed_same; cbn; [|done]. intros i. rewrite list_elem_of_fmap. split.
    + intros ([[f' i']|] & He & Hin); [|done]. destruct (_ && _) eqn:E; [done|]. congruence.
    + intros Hin. exists (Some (f, i)). split; [|done]. by rewrite (proj2 (Z.eqb_neq f g)) by done.
Qed.

Lemma fallocate_extends s s' fd g off len : sim_file s fd = Some g -> sim_fallocate fd 0 off len s = (s', Ok tt) -> forall i, 0 <= i -> 0 < len -> zero_extended (sim_content s g) (sim_content s' g) i.
Proof.
  intros Hfd E i Hi Hlen. apply (own_file_ok _ g) in E as [Hg E]; [|done]. cbn in E. pose proof (alloc_write_facts g off len (fun c => overlay c (off + len) []) s Hg) as H. cbv beta in H.
  rewrite E in H. destruct H as (_ & _ & H). destruct (H eq_refl) as (m & -> & Hz & Hoff & _). apply overlay_extends; [done|lia|done|]. cbn. unfold py_len. cbn. lia.
Qed.

Lemma pwrite_own fd data off : own_write sim_view fd (sim_pwrite fd data off).
Proof.
  apply own_file_write. intros g s Hg. pose proof (alloc_write_facts g off (py_len data) (fun c => overlay c off data) s Hg) as H. unfold kbind in *.
  destruct (allocate g off (py_len data) s) as [s1 [u|e]]; [|cbn [fst] in *; tauto]. destruct (write_raw g _ s1) as [s2 [u'|e]]; cbn [fst] in *; tauto.
Qed.

Lemma block_in_range off len x : 0 <= x < len -> (off + x) / BS ∈ block_range off len.
Proof.
  intros Hx. unfold block_range. rewrite (proj2 (Z.leb_gt len 0)) by lia. apply elem_of_py_range. split; [apply Z.div_le_mono; unfold BS; lia|].
  assert ((off + x) / BS <= (off + len - 1) / BS) by (apply Z.div_le_mono; unfold BS; lia). lia.
Qed.

Lemma pwrite_writes s s' fd g data off n : sim_file s fd = Some g -> sim_pwrite fd data off s = (s', Ok n) ->
  n <= py_len data /\ (forall x, 0 <= x < n -> nthZ (sim_content s' g) (off + x) = nthZ data x) /\
  (forall i, 0 <= i -> i < off \/ off + n <= i -> zero_extended (sim_content s g) (sim_content s' g) i).
Proof.
  intros Hfd E. apply (own_file_ok _ g) in E as [Hg E]; [|done]. pose proof (alloc_write_facts g off (py_len data) (fun c => overlay c off data) s Hg) as H. unfold kbind in *.
  destruct (allocate g off (py_len data) s) as [s1 [u|e]]; [|done]. destruct (write_raw g _ s1) as [s2 [u'|e]] eqn:Ew; [|done]. injection E as <- <-. destruct H as (_ & _ & H). destruct u'. destruct (H eq_refl) as (m & -> & Hz & Hoff & Hr).
  split; [done|]. split; [|intros i Hi Hout; by apply overlay_extends].
  intros x Hx. rewrite nthZ_mask, nthZ_overlay_in by lia. replace (off + x - off) with x by lia. rewrite Hr by (by apply block_in_range). by destruct (nthZ data x).
Qed.

Lemma fiemap_quiet_sim fd a n : quiet sim_view (sim_fiemap fd a n).
Proof. by apply with_file_quiet. Qed.

Lemma fiemap_in s s' fd f a n l : sim_file s fd = Some f -> sim_fiemap fd a n s = (s', Ok l) -> s' = s /\
  (forall e, e ∈ l <-> exists p i, e = block_extent (Z.of_nat p) i /\ locate (f, i) (y_table s) = Some p /\ 0 <= i /\ a < (i + 1) * BS /\ i * BS < a + n).
Proof.
  intros Hfd. unfold sim_fiemap, with_file. rewrite Hfd. intros [= <- <-]. split; [done|]. intros e. rewrite list_elem_of_In, in_concat. split.
  - intros (l' & Hp & Hin). apply list_elem_of_In, list_elem_of_lookup in Hp as [p Hp]. apply list_elem_of_In in Hin. rewrite list_lookup_imap in Hp. destruct (y_table s !! p) as [[[f' i]|]|] eqn:Et; cbn in Hp; [|injection Hp as <-; inversion Hin|done].
    destruct (_ && _) eqn:Eb; injection Hp as <-; [|inversion Hin]. apply list_elem_of_singleton in Hin as ->. repeat (apply andb_prop in Eb as [Eb ?]). apply Z.eqb_eq in Eb. subst f'.
    exists p, i. split; [done|]. split; [by eapply bool_decide_eq_true|]. lia.
  - intros (p & i & -> & Hl & Hi & Ha & Hn). exists [block_extent (Z.of_nat p) i]. split; [|by left]. apply list_elem_of_In, list_elem_of_lookup. exists p. rewrite list_lookup_imap, (locate_some _ _ _ Hl). cbn.
    rewrite Z.eqb_refl, bool_decide_eq_true_2 by done. cbn. rewrite (proj2 (Z.leb_le 0 i)), (proj2 (Z.ltb_lt a _)), (proj2 (Z.ltb_lt (i * BS) _)) by lia. done.
Qed.

Lemma sim_place s f i p x : locate (f, i) (y_table s) = Some p -> 0 <= x < BS -> sim_physical s f (i * BS + x) = Some (Z.of_nat p * BS + x).
Proof.
  intros Hl Hx. unfold sim_physical. replace ((i * BS + x) / BS) with i by (rewrite Z.div_add_l, (Z.div_small x) by (unfold BS in *; lia); lia). rewrite Hl. cbn.
  f_equal. f_equal. rewrite Z.add_comm, Z_mod_plus_full. apply Z.mod_small. done.
Qed.

Lemma exchange_own fd donor off doff len : own_exchange sim_view fd donor off doff len (sim_exchange fd donor off doff len).
Proof.
  intros s f g Hf Hg Hfu Hgu Hst. cbn in Hf, Hg, Hfu, Hgu. unfold sim_exchange, with_file. rewrite Hf, (own_file_run donor g) by (done || lia).
  destruct (_ || _) eqn:Eb in |- *; [done|]. repeat (apply orb_false_iff in Eb as [Eb ?]). rewrite !negb_false_iff, ?Z.eqb_eq in *.
  destruct (swap_blocks f g (off / BS) (doff / BS) (Z.to_nat (len / BS)) (y_table s)) as [o|] eqn:Es; [|done]. destruct (swap_blocks_facts _ _ _ _ _ _ _ Es) as [Hkeys Hin]. cbn [fst].
  split; [|by apply names_same]. split; [done|]. intros h Hh. cbn in Hh. destruct (decide (h = f)) as [->|Hne].
  2:{ apply placed_same; cbn; [intros i; apply Hkeys|]. unfold upd. by rewrite (proj2 (Z.eqb_neq h f)), (proj2 (Z.eqb_neq h g)) by lia. }
  set (s' := set_table o _). change (sim_content s' f = sim_content s f). assert (forall i, placed_block s' f i = placed_block s f i) as Hpl by (intros i; apply bool_decide_ext, Hkeys).
  assert (y_raw s' f = splice (y_raw s f) off (y_raw s g) doff len) as Hraw by (cbn; unfold upd; by rewrite Z.eqb_refl). unfold sim_content. rewrite (mask_ext _ _ _ Hpl), Hraw. clear Hpl Hraw s'.
  assert (0 < BS) as HBS by (unfold BS; lia). pose proof (Z.div_mod off BS ltac:(lia)). pose proof (Z.div_mod doff BS ltac:(lia)). pose proof (Z.div_mod len BS ltac:(lia)).
  apply nthZ_ext; [rewrite !py_len_mask; unfold py_len, splice; by rewrite length_imap|].
  intros i Hi. rewrite !nthZ_mask, nthZ_splice by lia. destruct (nthZ (y_raw s f) i) as [b|] eqn:Eb'; [|done]. cbn. destruct ((off <=? i) && (i <? off + len)) eqn:Er; [|done].
  assert (0 <= i - off < len) as Hx by lia. assert (0 <= (i - off) / BS < len / BS) as Hj by (split; [apply Z.div_pos; lia|apply Z.div_lt_upper_bound; lia]).
  destruct (Hin ((i - off) / BS)) as [Hpf Hpg]; [lia|].
  assert (forall a y, a mod BS = 0 -> 0 <= y -> (a + y) / BS = a / BS + y / BS) as Hdiv by (intros a y Ha Hy; pose proof (Z.div_mod a BS ltac:(lia)); replace (a + y) with (a / BS * BS + y) by lia; by rewrite Z.div_add_l by lia).
  specialize (Hst (i - off) Hx). cbn in Hst. replace (off + (i - off)) with i in Hst by lia. rewrite py_len_mask in Hi. unfold sim_content in Hst. rewrite !py_len_mask, !nthZ_mask in Hst by lia. specialize (Hst ltac:(apply nthZ_len in Eb'; lia)).
  unfold placed_block in Hst |- *. rewrite Hdiv in Hst by lia. replace (i / BS) with (off / BS + (i - off) / BS) in Hst |- * by (rewrite <- Hdiv by lia; f_equal; lia).
  rewrite !bool_decide_eq_true_2 in Hst by done. rewrite bool_decide_eq_true_2 by done. rewrite Eb' in Hst. cbn in Hst. unfold read_at. destruct (nthZ (y_raw s g) (doff + (i - off))); cbn in *; congruence.
Qed.

Lemma swap_key_in f g i (o : table) : Some (f, i) ∈ map (swap_key f g) o <-> Some (g, i) ∈ o.
Proof.
  rewrite list_elem_of_fmap. split.
  - intros ([[h j]|] & He & Hin); cbn in He; [|done]. injection He as Hh ->. destruct (Z.eqb_spec h f) as [->|]; [congruence|]. destruct (Z.eqb_spec h g) as [->|]; [done|congruence].
  - intros Hin. exists (Some (g, i)). split; [|done]. cbn. destruct (Z.eqb_spec g f) as [->|]; [done|]. by rewrite Z.eqb_refl.
Qed.

Lemma swap_key_other f g h i (o : table) : h <> f -> h <> g -> Some (h, i) ∈ map (swap_key f g) o <-> Some (h, i) ∈ o.
Proof.
  intros Hf Hg. rewrite list_elem_of_fmap. split.
  - intros ([[h' j]|] & He & Hin); cbn in He; [|done]. injection He as Hh ->. destruct (Z.eqb_spec h' f) as [->|]; [congruence|]. destruct (Z.eqb_spec h' g) as [->|]; congruence.
  - intros Hin. exists (Some (h, i)). split; [|done]. cbn. by rewrite (proj2 (Z.eqb_neq h f)), (proj2 (Z.eqb_neq h g)).
Qed.

Lemma swapext_own fd donor len s f g : sim_file s fd = Some f -> sim_file s donor = Some g -> f < OWN -> ~ g < OWN ->
  (len < 2 ^ 63 -> py_len (sim_content s f) = len -> py_len (sim_content s g) = len -> sim_content s g = sim_content s f) ->
  same_files sim_view s (sim_swapext fd donor len s).1 /\ same_names sim_view s (sim_swapext fd donor len s).1.
Proof.
  intros Hf Hg Hfu Hgu Heq. unfold sim_swapext, with_file. rewrite Hf, (own_file_run donor g) by (done || lia). destruct (_ || _) eqn:Eb in |- *; [done|].
  repeat (apply orb_false_iff in Eb as [Eb ?]). rewrite !negb_false_iff, ?Z.eqb_eq in *. cbn [fst]. split; [|by apply names_same]. split; [done|]. intros h Hh. cbn in Hh. destruct (decide (h = f)) as [->|Hne].
  - transitivity (sim_content s g); [|apply Heq; lia]. cbn. unfold sim_content. cbn. unfold upd. rewrite Z.eqb_refl. apply mask_ext. intros i. apply bool_decide_ext. cbn. apply swap_key_in.
  - apply placed_same; cbn; [intros i; apply swap_key_other; lia|]. unfold upd. by rewrite (proj2 (Z.eqb_neq h f)), (proj2 (Z.eqb_neq h g)) by lia.
Qed.

Lemma ftruncate_own fd n : own_write sim_view fd (sim_ftruncate fd n).
Proof.
  apply own_file_write. intros g s Hg. destruct (n <? 0); [done|]. pose proof (write_raw_facts g (overlay (py_slice (y_raw s g) 0 n) n []) s) as H. cbn [fst] in *. destruct H as (? & ? & ? & ? & _).
  split; [by apply (files_same _ _ g Hg)|by apply names_same].
Qed.

Lemma ftruncate_cuts s s' fd g n : sim_file s fd = Some g -> sim_ftruncate fd n s = (s', Ok tt) ->
  py_len (sim_content s' g) = n /\ forall i, 0 <= i < n -> zero_extended (sim_content s g) (sim_content s' g) i.
Proof.
  intros Hfd E. apply (own_file_ok _ g) in E as [Hg E]; [|done]. destruct (Z.ltb_spec n 0); [done|]. pose proof (write_raw_facts g (overlay (py_slice (y_raw s g) 0 n) n []) s) as Hw. rewrite E in Hw. cbn [fst] in Hw. destruct Hw as (_ & _ & _ & _ & ->).
  assert (py_len (py_slice (y_raw s g) 0 n) = Z.min n (py_len (y_raw s g))) as Hlen.
  { destruct (Z.le_ge_cases n (py_len (y_raw s g))); [rewrite py_len_slice by lia; lia|]. rewrite py_slice_trunc, py_len_slice by (unfold py_len in *; lia). lia. }
  split.
  - rewrite py_len_mask, py_len_overlay, Hlen. unfold py_len at 2. cbn. unfold py_len. lia.
  - intros i Hi. unfold zero_extended, sim_content. rewrite !nthZ_mask, nthZ_overlay_out by lia. rewrite (proj2 (Z.ltb_lt i _)) by (unfold py_len; cbn; lia). unfold read_at. cbn.
    destruct (Z.lt_ge_cases i (py_len (y_raw s g))).
    + left. rewrite nthZ_slice by lia. rewrite Z.add_0_l. destruct (nthZ_some (y_raw s g) i) as [b ->]; [lia|]. done.
    + right. rewrite (nthZ_none (y_raw s g)), (nthZ_none (py_slice _ _ _)) by lia. cbn. split; [done|]. by destruct (placed_block s g (i / BS)).
Qed.

#[local] Opaque sim_volume sim_device.

Lemma new_fd_facts f s : (new_fd f s).2 = Ok (Z.of_nat (length (y_fds s))) /\ sim_file s (Z.of_nat (length (y_fds s))) = None /\
  sim_file (new_fd f s).1 (Z.of_nat (length (y_fds s))) = Some f /\ forall fd, fd <> Z.of_nat (length (y_fds s)) -> sim_file (new_fd f s).1 fd = sim_file s fd.
Proof.
  split; [done|]. split; [apply sim_file_fresh|]. unfold new_fd. cbn [fst]. split; [by rewrite sim_file_new, bool_decide_eq_true_2|]. intros fd Hfd. by rewrite sim_file_new, bool_decide_eq_false_2.
Qed.

Lemma drop_other f g i (o : table) : f <> g -> Some (f, i) ∈ map (drop_file g) o <-> Some (f, i) ∈ o.
Proof.
  intros Hne. rewrite list_elem_of_fmap. split.
  - intros ([[h j]|] & He & Hin); cbn in He; [|done]. destruct (h =? g); [done|]. congruence.
  - intros Hin. exists (Some (f, i)). split; [|done]. cbn. by rewrite (proj2 (Z.eqb_neq f g)).
Qed.

Lemma close_law fd s : same_files sim_view s (sim_close fd s).1 /\ y_names (sim_close fd s).1 = y_names s /\ forall fd', fd' <> fd -> sim_file (sim_close fd s).1 fd' = sim_file s fd'.
Proof.
  unfold sim_close, with_file. destruct (sim_file s fd) as [g|] eqn:Hg; [|split; [split; reflexivity|split; reflexivity]]. assert (0 <= fd) as Hfd by (unfold sim_file in Hg; destruct (Z.ltb_spec fd 0); [discriminate Hg|done]).
  cbn [fst]. destruct (Z.ltb_spec g OWN).
  - split; [split; reflexivity|]. split; [reflexivity|]. intros fd' Hne. by apply sim_file_close.
  - split; [|split; [reflexivity|intros fd' Hne; by apply sim_file_close]]. apply (files_same _ _ g); [done|reflexivity|]. intros f Hf. apply placed_same; [|reflexivity]. intros i. by apply drop_other.
Qed.

Lemma open_law p s : same_contents sim_view s (sim_open p s).1 /\ y_names (sim_open p s).1 = y_names s /\
  (forall fd, (sim_open p s).2 = Ok fd -> sim_file s fd = None /\ exists f, sim_file (sim_open p s).1 fd = Some f /\ (p ∉ y_names s -> f < OWN)) /\
  forall fd, Ok fd <> (sim_open p s).2 -> sim_file (sim_open p s).1 fd = sim_file s fd.
Proof.
  unfold sim_open. destruct (list_find _ dir) as [[n [q f]]|]; [|done]. destruct (Z.ltb_spec f OWN); [|done]. destruct (new_fd_facts f s) as (Hr & Hnone & Hsome & Hother). rewrite Hr.
  split; [done|]. split; [done|]. split; [intros fd [= <-]; split; [done|by exists f]|]. intros fd Hne. apply Hother. congruence.
Qed.

Lemma create_law p s : same_files sim_view s (sim_create p s).1 /\
  (forall q, q ∈ y_names (sim_create p s).1 -> q ∈ y_names s \/ (q = p /\ exists fd, (sim_create p s).2 = Ok fd)) /\
  (forall fd, (sim_create p s).2 = Ok fd -> sim_file s fd = None /\ exists g, sim_file (sim_create p s).1 fd = Some g /\ ~ g < OWN /\ sim_content (sim_create p s).1 g = []) /\
  forall fd, Ok fd <> (sim_create p s).2 -> sim_file (sim_create p s).1 fd = sim_file s fd.
Proof.
  unfold sim_create. set (g := OWN + Z.of_nat (y_next s)). set (s1 := set_names _ _). destruct (new_fd_facts g s1) as (Hr & Hnone & Hsome & Hother). rewrite Hr. split; [|split; [|split]].
  - apply (files_same _ _ g); [unfold g; lia|done|]. intros f Hf. apply placed_same; cbn; [done|]. unfold upd. by rewrite (proj2 (Z.eqb_neq f g)).
  - intros q Hq. cbn in Hq. apply elem_of_cons in Hq as [->|Hq]; [right; eauto|by left].
  - intros fd [= <-]. split; [done|]. exists g. split; [done|]. split; [unfold g, OWN; lia|]. unfold sim_content. cbn. unfold upd. by rewrite Z.eqb_refl.
  - intros fd Hne. apply Hother. congruence.
Qed.

Lemma quiet_same {A} (g : sim -> result A) : quiet sim_view (fun s => (s, g s)).
Proof. intros s. split; split; reflexivity. Qed.

#[export] Instance sim_laws : KernelLaws sim_kernel sim_view BS.
Proof.
  split.
  - apply quiet_same.
  - intros p. apply quiet_same.
  - intros p. apply quiet_same.
  - intros p. apply quiet_same.
  - intros fd. apply quiet_same.
  - intros fd. apply with_file_quiet. intros f. apply quiet_same.
  - intros s s' fd f n Hf. cbn. unfold with_file. cbn in Hf. rewrite Hf. by intros [= <- <-].
  - intros fd a n c. apply fiemap_quiet_sim.
  - intros s s' fd a n c l E. cbn in E. destruct (sim_file s fd) as [f|] eqn:Hf; [|unfold sim_fiemap, with_file in E; by rewrite Hf in E].
    destruct (fiemap_in _ _ _ _ _ _ _ Hf E) as [Hs Hl]. apply Forall_forall. intros e He. apply Hl in He as (p & i & -> & _ & Hi & _). cbn. unfold BS. lia.
  - intros s s' fd f a n c l Hf E. cbn in E, Hf. destruct (fiemap_in _ _ _ _ _ _ _ Hf E) as [-> Hl]. split; [done|]. apply Forall_forall. intros e He. apply Hl in He as (p & i & -> & Hp & _). cbn. intros _ x Hx. by apply sim_place.
  - intros s f g x y p Hg Hx Hy. cbn in Hx, Hy. unfold sim_physical in Hx, Hy. destruct (locate (g, x / BS) (y_table s)) as [a|] eqn:Ea; [|done]. destruct (locate (f, y / BS) (y_table s)) as [b|] eqn:Eb; [|done].
    cbn in Hx, Hy. injection Hx as Hx. injection Hy as Hy. assert (0 < BS) as HBS by (unfold BS; lia). pose proof (Z.mod_pos_bound x BS HBS). pose proof (Z.mod_pos_bound y BS HBS).
    assert (a = b /\ x mod BS = y mod BS) as [-> Hm] by (assert (Z.of_nat a = Z.of_nat b) by nia; split; lia).
    apply locate_some in Ea, Eb. rewrite Ea in Eb. injection Eb as -> Hd. split; [done|]. pose proof (Z.div_mod x BS ltac:(lia)). pose proof (Z.div_mod y BS ltac:(lia)). congruence.
  - intros fd. apply quiet_same.
  - intros p. apply quiet_same.
  - intros p. apply quiet_same.
  - intros d p fs. apply quiet_same.
  - intros p. apply quiet_same.
  - intros p. apply quiet_same.
  - intros p s. apply create_law.
  - intros p s. split; [split; reflexivity|]. split; [reflexivity|]. split; [|intros e He; discriminate He]. intros q _ Hq. cbn in Hq. by apply list_elem_of_filter in Hq.
  - intros p s. apply open_law.
  - intros fd s. apply close_law.
  - intros fd mode off len. apply fallocate_own.
  - intros fd n off. apply with_file_quiet. intros f. destruct (_ || _); apply quiet_same.
  - intros s s' fd f n off data Hf E. cbn in E, Hf. unfold sim_pread, with_file in E. rewrite Hf in E. destruct (_ || _) eqn:Eb; [done|]. injection E as <- <-. exists (off + n). apply orb_false_iff in Eb. split; [lia|done].
  - intros fd data off. apply pwrite_own.
  - intros s s' fd g data off n Hg E. by apply (pwrite_writes s s' fd).
  - intros fd donor b d n s f g Hf Hg Hfu Hgu Hst. destruct (exchange_own fd donor (b * BS) (d * BS) (n * BS) s f g Hf Hg Hfu Hgu Hst) as [H1 H2]. cbn. unfold kbind. destruct (sim_exchange _ _ _ _ _ s) as [s' [[]|e]]; done.
  - intros fd donor doff off len. apply exchange_own.
Qed.

#[export] Instance sim_xfs_laws : XfsLaws sim_kernel sim_xfs sim_view.
Proof.
  split.
  - intros fd. apply with_file_quiet. intros f. apply quiet_same.
  - intros fd ino. apply with_file_quiet. intros f. apply quiet_same.
  - intros p n v. apply quiet_same.
  - intros fd. apply quiet_same.
  - intros fd v. apply quiet_same.
  - intros fd u g. apply quiet_same.
  - apply quiet_same.
  - intros fd n. apply ftruncate_own.
  - intros s s' fd g n Hg E. by apply (ftruncate_cuts s s' fd).
  - intros s s' fd g off len Hlen Hg E i Hi. by apply (fallocate_extends s s' fd g off len).
  - intros s s' fd f a n c l Hf E. cbn in E, Hf. destruct (fiemap_in _ _ _ _ _ _ _ Hf E) as [-> Hl]. split.
    + apply Forall_forall. intros e He. apply Hl in He as (p & i & -> & _ & _ & Ha & _). cbn. unfold BS in *. lia.
    + intros i Hi0 Hi Hlen Hnm _. change (content sim_view s f) with (sim_content s f) in Hlen |- *. unfold sim_content in *. rewrite py_len_mask in Hlen. rewrite nthZ_mask by lia. destruct (nthZ_some (y_raw s f) i) as [b ->]; [lia|]. cbn. destruct (placed_block s f (i / BS)) eqn:Ep; [|done].
      exfalso. apply Hnm. apply bool_decide_eq_true in Ep. apply locate_in in Ep as [p Hp]. apply Exists_exists. exists (block_extent (Z.of_nat p) (i / BS)). pose proof (Z.div_mod i BS ltac:(unfold BS; lia)) as Hd. pose proof (Z.mod_pos_bound i BS ltac:(unfold BS; lia)).
      assert (0 <= i / BS) by (apply Z.div_pos; unfold BS; lia). split; [|cbn; lia]. apply Hl. exists p, (i / BS). split; [done|]. split; [done|]. lia.
  - intros fd donor len st s f g Hf Hg Hfu Hgu Heq. by apply (swapext_own fd donor len s f g).
Qed.
End kernel.

(** ** Tools *)

Definition set_small (small : bool) (s : sim) : sim := mkSim (y_raw s) (y_table s) (y_fds s) (y_next s) (y_names s) (y_stop s) small.

Definition E2FSCK : text := of_string "/sbin/e2fsck".
Definition RESIZE2FS : text := of_string "/sbin/resize2fs".

Definition sim_which (_ : sim) (name : text) : option text :=
  if bool_decide (name = of_string "e2fsck") then Some E2FSCK else if bool_decide (name = of_string "resize2fs") then Some RESIZE2FS else None.

Definition sim_run (command : list text) : kprog sim Z := fun s =>
  match command with
  | tool :: flag :: rest =>
      if bool_decide (tool = RESIZE2FS) then
        if bool_decide (flag = of_string "-M") then (set_small true s, Ok 0) else
        match rest with
        | [_; n] => if bool_decide (n = of_string (pretty 16)) then (set_small false s, Ok 0) else (s, Ok 1)
        | _ => (s, Ok 1)
        end
      else (s, Ok 0)
  | _ => (s, Ok 1)
  end.

Definition sim_tools : tool_calls sim := mkTools sim sim_which sim_run 0.

Lemma sim_volume_is s : sim_volume s = Ok (BS, (if y_small s then 4 else 16) * BS).
Proof. unfold sim_volume. by destruct (y_small s); vm_compute. Qed.

#[local] Opaque sim_volume.

Lemma sim_run_files command s : same_files (blind sim_view) s (sim_run command s).1 /\ y_names (sim_run command s).1 = y_names s.
Proof.
  assert (forall small, same_files (blind sim_view) s (set_small small s)) as H by (intros small; split; reflexivity). assert (same_files (blind sim_view) s s) as H0 by (split; reflexivity).
  unfold sim_run. destruct command as [|tool [|flag rest]]; [by split|by split|]. destruct (bool_decide (tool = RESIZE2FS)); [|by split]. destruct (bool_decide _); [by split|].
  destruct rest as [|d [|n [|]]]; try (by split). destruct (bool_decide _); by split.
Qed.

#[export] Instance sim_tool_laws device : ToolLaws sim_tools sim_view device E2FSCK RESIZE2FS BS.
Proof.
  assert (RESIZE2FS <> E2FSCK /\ of_string "-p" <> of_string "-M") as [Ht Hp] by done.
  split; cbn [t_run sim_tools volume sim_view own_names].
  - intros tool args s _. apply sim_run_files.
  - intros args s. unfold sim_run. destruct args as [|flag rest]; [reflexivity|]. by rewrite bool_decide_eq_false_2.
  - intros s m Hv. unfold sim_run. rewrite !bool_decide_eq_true_2 by done. cbn [fst]. rewrite sim_volume_is in Hv |- *. injection Hv as Hm. exists 4. split; [unfold BS in *; destruct (y_small s); lia|done].
  - intros s m blocks Hv Hm. unfold sim_run. rewrite bool_decide_eq_true_2 by done. rewrite bool_decide_eq_false_2 by done. rewrite sim_volume_is in Hv. injection Hv as Hv. case_bool_decide as Hn; cbn [fst snd].
    + apply text_inj in Hn. apply (inj pretty) in Hn. subst blocks. exists 16. split; [done|]. by rewrite sim_volume_is.
    + exists m. split; [done|]. rewrite sim_volume_is. split; [f_equal; f_equal; unfold BS in *; destruct (y_small s); lia|done].
Qed.

(** ** Samples *)

Definition MNT : text := of_string "/mnt".
Definition DEV : text := of_string "/dev/sdb1".
Definition sample_dir : list (text * Z) := [(of_string "/mnt/a", 1); (of_string "/mnt/b", 2)].

(** Two files in two pieces each, free blocks between them. *)
Definition sample_sim : sim := mkSim (fun f => if f =? 1 then replicate 1500 65 else if f =? 2 then replicate 2048 66 else [])
  [Some (50, 0); None; Some (1, 0); None; Some (2, 0); Some (1, 1); None; Some (2, 1)] [] 0 [] false false.

Abbreviation sample_pass := (_compact_extent_pass (sim_kernel sample_dir) 20 MNT "ext4" BS (8 * BS) 10 0 sample_sim).

Definition sample_result : ExtentPassResult :=
  mkResult 2048 2 0 "no movable regular-file extent remains above the free range" false [(7168, 1024, 1024, 1024); (5120, 3072, 1024, 2048)].

Lemma sample_pass_runs : sample_pass.2 = Ok sample_result.
Proof. vm_compute. reflexivity. Qed.

Lemma pair_ran {A B} (p : A * result B) r : p.2 = Ok r -> p = (p.1, Ok r).
Proof. destruct p. cbn. by intros ->. Qed.

(** [extent_pass_moves_down] on the sample: two blocks are moved. *)
Lemma extent_pass_moves_down_witness : sample_pass.2 = Ok sample_result /\ Forall (moves_down BS) (r_live sample_result).
Proof.
  split; [exact sample_pass_runs|].
  exact (proj1 (extent_pass_moves_down (sim_kernel sample_dir) sim_view BS 20 MNT "ext4" (8 * BS) 10 0 sample_sim sample_pass.1 sample_result ltac:(reflexivity) ltac:(reflexivity) (pair_ran sample_pass sample_result sample_pass_runs))).
Defined.

Definition sample_gap : CollectorExtent := mkGap 0 0 1024 1024 0.

(** [gap_loop_terminates] on the sample. *)
Lemma gap_loop_terminates_witness : gap_loop (sim_kernel sample_dir) 20 12 "ext4" BS 0 0 sample_gap 1024 0 [] empty_result sample_sim = gap_loop (sim_kernel sample_dir) 20 2 "ext4" BS 0 0 sample_gap 1024 0 [] empty_result sample_sim.
Proof. exact (proj2 (gap_loop_terminates (sim_kernel sample_dir) 20 "ext4" BS 0 0 sample_gap [] empty_result 10 sample_sim ltac:(reflexivity))). Defined.

Lemma sim_block_size dir : reads_block_size (sim_kernel dir) DEV "ext4" BS.
Proof. intros s p. unfold compact_geometry. rewrite bool_decide_eq_true_2 by done. cbn [kget snd k_device sim_kernel]. pose proof (sim_volume_is s) as H. Transparent sim_volume. unfold sim_volume in H. rewrite H. by intros [= <-]. Qed.

(** [compaction_keeps_files] on the sample. *)
Lemma compaction_keeps_files_witness : same_files sim_view sample_sim (compact_extent_filesystem (sim_kernel sample_dir) sim_xfs 20 DEV "ext4" 0 sample_sim).1.
Proof. exact (compaction_keeps_files (sim_kernel sample_dir) sim_xfs sim_view BS 20 DEV "ext4" 0 sample_sim ltac:(reflexivity) (sim_block_size sample_dir) ltac:(reflexivity)). Defined.


(** A file in one block, a free block below it, and the collector's file. *)
Definition whole_sim : sim := mkSim (fun f => if f =? 1 then replicate 1000 65 else []) [Some (50, 0); None; Some (50, 1); Some (1, 0)] [Some 100] 1 [] false false.
Definition whole_file : XfsWholeFile := mkWhole (of_string "/mnt/a") 1000 [block_extent 3 0] [(0, 1024)] 1024 3072 4096.
Definition whole_collector : SpaceCollector := mkCollector MNT [0] 1.

Abbreviation whole_exchange := (exchange_whole (sim_kernel sample_dir) sim_xfs 20 whole_collector sample_gap 1024 0 whole_file whole_sim).

Lemma whole_exchange_runs : whole_exchange.2 = Ok (Some [block_extent 1 0]).
Proof. vm_compute. reflexivity. Qed.

Lemma whole_sim_holds : holds sim_view [g_fd sample_gap] [] whole_sim.
Proof. split; [reflexivity|]. split; [|constructor]. constructor; [|constructor]. exists 100. split; [reflexivity|]. intros H. by vm_compute in H. Qed.

Lemma whole_file_ok : Forall whole_ok [whole_file].
Proof. constructor; [|constructor]. split; [constructor; [by split|constructor]|reflexivity]. Qed.


(** ** Where the engine falls short *)

(** A file with two names. *)
Definition linked_dir : list (text * Z) := [(of_string "/mnt/a", 1); (of_string "/mnt/b", 1)].
Definition linked_sim : sim := mkSim (fun f => if f =? 1 then replicate 1500 65 else []) [Some (50, 0); None; Some (1, 0); None; Some (50, 1); Some (1, 1)] [] 0 [] false false.


(** The same volume without the second name is compacted. *)
Lemma single_name_compacts : (_compact_extent_pass (sim_kernel [(of_string "/mnt/a", 1)]) 20 MNT "ext4" BS (6 * BS) 0 0 linked_sim).2 =
  Ok (mkResult 1024 1 0 "no movable regular-file extent remains above the free range" false []).
Proof. vm_compute. reflexivity. Qed.

(** A file in two pieces, the first below the range it is moved to. *)
Definition split_file : XfsWholeFile := mkWhole (of_string "/mnt/a") 2048 [block_extent 1 0; block_extent 6 1] [(0, 2048)] 2048 1024 7168.
Definition split_donor : list FiemapExtent := [mkFiemap 0 3072 2048 1].

(** Whole files are chosen by their highest block only: the lower piece of this
    one is moved up, from 1024 to 3072. *)
Lemma whole_file_piece_moves_up : fits 3072 2048 split_file = true /\ check_donor split_file 3072 5120 split_donor = Ok tt /\
  r_live (moved_whole 10 0 split_file split_donor empty_result) = [(1024, 3072, 1024, 1024); (6144, 4096, 1024, 2048)].
Proof. vm_compute. repeat split. Qed.
