(* ===== verification/Dispatch.v ===== *)
(** * Plugins, the registry and the dispatcher

    Models [src/gui/backends/contracts.py], [src/gui/backends/registry.py],
    [src/gui/core/operations.py], [src/gui/core/paths.py],
    [src/gui/operation_engine.py] and [src/gui/allocation_mapper.py]: how a
    plugin declares its operations, how plugins are registered and found, and
    how a request becomes the command line of a worker.  Plugin modules are
    values given to the registry; the environment, the file tests and a
    plugin's probe are parameters. *)

From S2P Require Import Prelude.
From stdpp Require Import pretty.

Local Open Scope string_scope.
Local Open Scope list_scope.
Local Open Scope Z_scope.

(** ** Strings

    Identifiers, options and paths of the dispatcher are ASCII. *)

Definition chars (s : string) : list Ascii.ascii := String.list_ascii_of_string s.

Definition lower_char (c : Ascii.ascii) : Ascii.ascii :=
  let n := Ascii.N_of_ascii c in
  if (65 <=? n)%N && (n <=? 90)%N then Ascii.ascii_of_N (n + 32) else c.

(** [str.lower] *)
Definition lower (s : string) : string := String.string_of_list_ascii (map lower_char (chars s)).

(** [str.isspace] of a character *)
Definition is_space (c : Ascii.ascii) : bool :=
  let n := Ascii.N_of_ascii c in ((9 <=? n)%N && (n <=? 13)%N) || ((28 <=? n)%N && (n <=? 32)%N).

Definition starts_with (s p : string) : bool := String.prefix p s.

(** [len(set(l)) != len(l)] *)
Fixpoint has_duplicate (l : list string) : bool :=
  match l with
  | [] => false
  | x :: l' => bool_decide (x ∈ l') || has_duplicate l'
  end.

(** ** Contracts *)

Definition CAP_ANALYSE : Z := 1.
Definition CAP_MAP : Z := 2.
Definition CAP_COMPACT : Z := 4.
Definition CAP_DEFRAG : Z := 8.
Definition CAP_RECOVER : Z := 16.
Definition CAP_LIVE_MAP : Z := 32.
Definition CAP_GROWTH_DEFRAG : Z := 64.

Definition _OPERATION_CAPABILITY : list (string * Z) :=
  [("compact", CAP_COMPACT); ("defrag", CAP_DEFRAG); ("growth-defrag", CAP_GROWTH_DEFRAG); ("recover", CAP_RECOVER)].

Record OperationSpec := mkSpec {
  sp_name : string;
  sp_worker : string;
  sp_label : string;
  sp_description : string;
  sp_warning : string;
  sp_pass_filesystem : bool;
  sp_unsupported_options : list string
}.

(** [OperationSpec.__post_init__] *)
Definition OperationSpec_check (s : OperationSpec) : result unit :=
  check bool_decide (dict_get (sp_name s) _OPERATION_CAPABILITY = None) # ValueError "unknown filesystem operation";
  check bool_decide (sp_worker s = "") || existsb is_space (chars (sp_worker s)) # ValueError "invalid worker identifier";
  check existsb (fun o => negb (starts_with o "--")) (sp_unsupported_options s)
    # ValueError "unsupported options must use their long --option form";
  Ok tt.

(** [operation(...)]: the dataclass with its check. *)
Definition operation (s : OperationSpec) : result OperationSpec := _ ← OperationSpec_check s; Ok s.

(** [item.capability] *)
Definition capability (s : OperationSpec) : result Z :=
  match dict_get (sp_name s) _OPERATION_CAPABILITY with Some c => Ok c | None => raise KeyError "operation" end.

Record BackendInfo := mkInfo {
  b_id : string;
  b_display_name : string;
  b_aliases : list string;
  b_capabilities : Z;
  b_map_accuracy : string;
  b_operations : list OperationSpec
}.

Definition mutation_mask : Z := Z.lor (Z.lor (Z.lor CAP_COMPACT CAP_DEFRAG) CAP_GROWTH_DEFRAG) CAP_RECOVER.

(** [BackendInfo.__post_init__] *)
Definition BackendInfo_check (info : BackendInfo) : result unit :=
  check bool_decide (b_id info = "") || negb (bool_decide (lower (b_id info) = b_id info))
    # ValueError "backend id must be a non-empty lowercase identifier";
  check bool_decide (b_display_name info = "") # ValueError "backend has no display name";
  check has_duplicate (map lower (b_aliases info)) # ValueError "backend declares duplicate aliases";
  check has_duplicate (map sp_name (b_operations info)) # ValueError "backend declares an operation more than once";
  declared ← foldM (fun acc item => c ← capability item; Ok (Z.lor acc c)) 0 (b_operations info);
  check negb (Z.land (b_capabilities info) mutation_mask =? declared)
    # ValueError "backend capability bits and operation declarations disagree";
  Ok tt.

(** [info.operation(name)] *)
Definition info_operation (info : BackendInfo) (name : string) : option OperationSpec :=
  List.find (fun item => bool_decide (sp_name item = name)) (b_operations info).

(** ** The registry *)

Record Backend := mkBackend {
  be_info : BackendInfo;
  be_probe : string -> result bool
}.

Record Registry := mkRegistry {
  backends : list Backend;
  aliases : list (string * Backend);
  ids : list (string * Backend)
}.

Definition backend_id (b : Backend) : string := lower (b_id (be_info b)).

(** A registered alias; two backends are one object when their ids agree, since
    a second backend with a registered id is refused first. *)
Definition add_alias (backend : Backend) (acc : list (string * Backend)) (alias : string) : result (list (string * Backend)) :=
  let key := lower alias in
  check match dict_get key acc with
        | Some previous => negb (bool_decide (backend_id previous = backend_id backend))
        | None => false
        end # BackendError "filesystem alias is declared by two plugins";
  Ok (dict_set key backend acc).

Definition _register (r : Registry) (backend : Backend) : result Registry :=
  let id := backend_id backend in
  check negb (bool_decide (dict_get id (ids r) = @None Backend)) # BackendError "duplicate filesystem plugin id";
  al ← foldM (add_alias backend) (aliases r) (id :: b_aliases (be_info backend));
  Ok (mkRegistry (backends r ++ [backend]) al (dict_set id backend (ids r))).

(** [Registry(module_names)]: [None] is a module without a backend. *)
Definition make_registry (modules : list (option Backend)) : result Registry :=
  foldM (fun r m => match m with
                    | Some b => _register r b
                    | None => raise BackendError "plugin does not expose a FilesystemBackend as BACKEND"
                    end) (mkRegistry [] [] []) modules.

Definition by_fstype (r : Registry) (fstype : string) : option Backend := dict_get (lower fstype) (aliases r).

(** The first backend whose probe accepts; a probe that fails is skipped. *)
Fixpoint probe_in (bs : list Backend) (path : string) : result (option Backend) :=
  match bs with
  | [] => Ok None
  | b :: rest =>
      match be_probe b path with
      | Ok true => Ok (Some b)
      | Ok false => probe_in rest path
      | Raise e => if decide (exn_kind e = OSError \/ exn_kind e = BackendError) then probe_in rest path else Raise e
      end
  end.

Definition probe (r : Registry) (path : string) : result (option Backend) := probe_in (backends r) path.

(** ** Operations *)

Definition str (n : Z) : string := pretty n.

Definition build_standard_arguments (op : string) (live_cells : Z) : result (list string) :=
  let common := ["--ram-buffer"; "auto"; "--workers"; "auto"] in
  if bool_decide (op = "defrag") then Ok (common ++ ["--transaction-files"; "32"; "--live-map-cells"; str live_cells]) else
  if bool_decide (op = "growth-defrag") then
    Ok (["--growth-percent"; "10"; "--batch-clusters"; "4096"] ++ common ++ ["--live-map-cells"; str live_cells]) else
  if bool_decide (op = "compact") then Ok (common ++ ["--live-map-cells"; str live_cells]) else
  if bool_decide (op = "recover") then Ok common else raise ValueError "unknown operation".

(** ** Programs *)

Record ProgramPath := mkProgram { pp_environment : string; pp_installed : string; pp_source_relative : option string }.

Definition PROGRAMS : list (string * ProgramPath) :=
  [("fat-native", mkProgram "LINUX_DEFRAGGER_ENGINE" "/usr/bin/linux-defragger-engine" (Some "../../build/linux-defragger-engine"));
   ("mapper", mkProgram "LINUX_DEFRAGGER_MAPPER" "/usr/lib/linux-defragger/allocation_mapper.py" (Some "../allocation_mapper.py"));
   ("operation-engine", mkProgram "LINUX_DEFRAGGER_OPERATION_ENGINE" "/usr/lib/linux-defragger/operation_engine.py" (Some "../operation_engine.py"));
   ("helper", mkProgram "LINUX_DEFRAGGER_HELPER" "/usr/lib/linux-defragger/privileged_helper.py" (Some "../privileged_helper.py"));
   ("exfat", mkProgram "LINUX_DEFRAGGER_EXFAT_ENGINE" "/usr/lib/linux-defragger/exfat_engine.py" (Some "../exfat_engine.py"));
   ("affs", mkProgram "LINUX_DEFRAGGER_AFFS_ENGINE" "/usr/lib/linux-defragger/affs_engine.py" (Some "../affs_engine.py"));
   ("apple", mkProgram "LINUX_DEFRAGGER_APPLE_ENGINE" "/usr/lib/linux-defragger/apple_engine.py" (Some "../apple_engine.py"));
   ("ntfs", mkProgram "LINUX_DEFRAGGER_NTFS_ENGINE" "/usr/lib/linux-defragger/ntfs_engine.py" (Some "../ntfs_engine.py"));
   ("linux-compact", mkProgram "LINUX_DEFRAGGER_NATIVE_COMPACT_ENGINE" "/usr/lib/linux-defragger/native_compact_engine.py" (Some "../native_compact_engine.py"))].

Section dispatcher.
(** [os.environ.get], [candidate.is_file() and os.access(candidate, os.X_OK)]
    and [(anchor / relative).resolve()]. *)
Context (environ : string -> option string) (executable : string -> bool) (resolve : string -> string -> string).

Definition program_candidates (spec : ProgramPath) (anchor : option string) : list string :=
  (match environ (pp_environment spec) with Some o => if bool_decide (o = "") then [] else [o] | None => [] end)
  ++ (match anchor, pp_source_relative spec with
      | Some a, Some r => if bool_decide (r = "") then [] else [resolve a r]
      | _, _ => []
      end)
  ++ [pp_installed spec].

Definition resolve_program (program_id : string) (anchor : option string) : result string :=
  match dict_get program_id PROGRAMS with
  | None => raise FileNotFoundError "unknown Linux Defragger program"
  | Some spec =>
      match List.find executable (program_candidates spec anchor) with
      | Some c => Ok c
      | None => raise FileNotFoundError "could not locate program"
      end
  end.

(** ** The operation engine *)

(** [token in blocked or any(token.startswith(option + "=") ...)] *)
Definition is_blocked (blocked : list string) (token : string) : bool :=
  existsb (fun o => starts_with token (o +:+ "=")) blocked.

(** The [while] loop over the arguments. *)
Fixpoint filter_options (blocked : list string) (arguments : list string) : list string :=
  match arguments with
  | [] => []
  | token :: rest =>
      if bool_decide (token ∈ blocked) then
        match rest with
        | value :: rest' => if starts_with value "--" then filter_options blocked rest else filter_options blocked rest'
        | [] => []
        end
      else if is_blocked blocked token then filter_options blocked rest
      else token :: filter_options blocked rest
  end.

Definition _without_options (arguments : list string) (unsupported : list string) : list string :=
  if bool_decide (unsupported = []) then arguments else filter_options unsupported arguments.

Definition build_worker_command (anchor : string) (r : Registry) (filesystem operation_name device : string) (forwarded : list string)
    : result (list string) :=
  match by_fstype r filesystem with
  | None => raise BackendError "no filesystem plugin is registered"
  | Some backend =>
      match info_operation (be_info backend) operation_name with
      | None => raise BackendError "the plugin does not implement the operation"
      | Some spec =>
          worker ← resolve_program (sp_worker spec) (Some anchor);
          let arguments := _without_options forwarded (sp_unsupported_options spec) in
          let command := [worker; operation_name; device] ++ arguments in
          Ok (if sp_pass_filesystem spec then command ++ ["--filesystem"; b_id (be_info backend)] else command)
      end
  end.

(** [main] of the operation engine on parsed arguments: an exit status, or the
    command the process is replaced by. *)
Definition operation_main (anchor : string) (r : Registry) (list_plugins : bool) (op device filesystem : string) (forwarded : list string)
    : result (Z + list string) :=
  if list_plugins then Ok (inl 0) else
  if bool_decide (op = "") || bool_decide (device = "") || bool_decide (filesystem = "") then Ok (inl 2) else
  match build_worker_command anchor r filesystem op device forwarded with
  | Ok command => Ok (inr command)
  | Raise e => if decide (exn_kind e = BackendError \/ exn_kind e = FileNotFoundError \/ exn_kind e = ValueError) then Ok (inl 2) else Raise e
  end.

(** [main] of the allocation mapper: the backend that maps the volume, or an
    exit status; [map_ok] is the outcome of [backend.map]. *)
Definition mapper_main (r : Registry) (list_backends probe_only : bool) (path fstype : string) (map_ok : Backend -> result unit)
    : result (Z * option Backend) :=
  if list_backends then Ok (0, None) else
  backend ← (if bool_decide (fstype = "") then probe r path else Ok (by_fstype r fstype));
  match backend with
  | None => Ok (2, None)
  | Some b =>
      if probe_only then Ok (0, Some b) else
      match map_ok b with
      | Ok _ => Ok (0, Some b)
      | Raise e =>
          if decide (exn_kind e = OSError \/ exn_kind e = BackendError \/ exn_kind e = FileNotFoundError \/ exn_kind e = ValueError)
          then Ok (1, Some b) else Raise e
      end
  end.
End dispatcher.

(** ** Lemmas: declarations *)

Lemma has_duplicate_spec l : has_duplicate l = false <-> NoDup l.
Proof.
  induction l as [|x l IH]; simpl; [split; [constructor|done]|]. rewrite orb_false_iff, IH, NoDup_cons, bool_decide_eq_false. done.
Qed.

Definition bit_of (s : OperationSpec) : Z := default 0 (dict_get (sp_name s) _OPERATION_CAPABILITY).

Lemma declared_bits ops : forall acc declared,
  foldM (fun acc item => c ← capability item; Ok (Z.lor acc c)) acc ops = Ok declared ->
  declared = fold_left (fun a s => Z.lor a (bit_of s)) ops acc /\ Forall (fun s => is_Some (dict_get (sp_name s) _OPERATION_CAPABILITY)) ops.
Proof.
  induction ops as [|s ops IH]; intros acc declared H; cbn [foldM] in H; [injection H as <-; by split|].
  destruct (capability s) as [c|] eqn:Ec; [|done]. cbn [mbind result_bind] in H. apply IH in H as [-> Hall].
  unfold capability in Ec. destruct (dict_get (sp_name s) _OPERATION_CAPABILITY) as [c'|] eqn:E; [|done]. injection Ec as ->.
  assert (bit_of s = c) as Hb by (unfold bit_of; by rewrite E). cbn [fold_left]. rewrite Hb. split; [done|]. constructor; [by rewrite E|done].
Qed.

Lemma capability_bit name c : dict_get name _OPERATION_CAPABILITY = Some c -> exists k, 2 <= k <= 6 /\ c = 2 ^ k /\ Z.testbit mutation_mask k = true.
Proof.
  unfold _OPERATION_CAPABILITY. cbn [dict_get].
  repeat (destruct (decide (name = _)); [intros [= <-]; (exists 2; by vm_compute) || (exists 3; by vm_compute) || (exists 6; by vm_compute) || (exists 4; by vm_compute)|]). done.
Qed.

Lemma capability_inj n1 n2 c : dict_get n1 _OPERATION_CAPABILITY = Some c -> dict_get n2 _OPERATION_CAPABILITY = Some c -> n1 = n2.
Proof.
  unfold _OPERATION_CAPABILITY, CAP_COMPACT, CAP_DEFRAG, CAP_GROWTH_DEFRAG, CAP_RECOVER. cbn [dict_get].
  repeat (destruct (decide (n1 = _)) as [->|]; [intros [= <-]; repeat (destruct (decide (n2 = _)) as [->|]; [done|]); done|]). done.
Qed.

Lemma fold_lor_testbit ops k : forall acc,
  Z.testbit (fold_left (fun a s => Z.lor a (bit_of s)) ops acc) k = Z.testbit acc k || existsb (fun s => Z.testbit (bit_of s) k) ops.
Proof.
  induction ops as [|s ops IH]; intros acc; simpl; [by rewrite orb_false_r|]. rewrite IH, Z.lor_spec. by rewrite orb_assoc.
Qed.

Lemma testbit_pow2 k n : 0 <= k -> 0 <= n -> Z.testbit (2 ^ k) n = (n =? k).
Proof.
  intros. destruct (Z.eqb_spec n k) as [->|]; [by apply Z.pow2_bits_true|]. apply Z.pow2_bits_false. lia.
Qed.

Lemma land_pow2 v k : 0 <= k -> Z.land v (2 ^ k) <> 0 <-> Z.testbit v k = true.
Proof.
  intros Hk. split.
  - intros H. destruct (Z.testbit v k) eqn:E; [done|]. exfalso. apply H. apply Z.bits_inj'. intros n Hn.
    rewrite Z.land_spec, Z.testbit_0_l, testbit_pow2 by done. destruct (Z.eqb_spec n k) as [->|]; [by rewrite E|apply andb_false_r].
  - intros E H. apply (f_equal (fun x => Z.testbit x k)) in H. rewrite Z.land_spec, testbit_pow2, Z.eqb_refl, E, Z.testbit_0_l in H by done. done.
Qed.

(** A plugin declaration that passes its checks is consistent: for every
    standard operation, the capability bit is set exactly when the plugin
    declares the operation, so the capabilities shown to the user and the
    operations the dispatcher finds agree. *)
Theorem capability_exact (info : BackendInfo) (name : string) (c : Z)
    (Hcheck : BackendInfo_check info = Ok tt) (Hname : dict_get name _OPERATION_CAPABILITY = Some c) :
  (Z.land (b_capabilities info) c <> 0 <-> exists spec, info_operation info name = Some spec /\ sp_name spec = name).
Proof.
  unfold BackendInfo_check in Hcheck. inv_ok. bool_to_prop. rename a into declared.
  match goal with H : foldM _ _ _ = Ok declared |- _ => apply declared_bits in H as [Hdecl Hall] end.
  destruct (capability_bit name c Hname) as (k & Hk & -> & Hmask). rewrite land_pow2 by lia.
  assert (Z.testbit (b_capabilities info) k = existsb (fun s => Z.testbit (bit_of s) k) (b_operations info)) as ->.
  { match goal with H : Z.land _ mutation_mask = declared |- _ => apply (f_equal (fun x => Z.testbit x k)) in H as Hb end.
    rewrite Z.land_spec, Hmask, andb_true_r in Hb. rewrite Hb, Hdecl, fold_lor_testbit, Z.testbit_0_l. done. }
  unfold info_operation. split.
  - intros (s & Hs & Hb)%existsb_exists. destruct (List.find _ (b_operations info)) as [s'|] eqn:Ef.
    + exists s'. split; [done|]. apply find_some in Ef as [_ Ef]. by apply bool_decide_eq_true in Ef.
    + apply (find_none _ _ Ef) in Hs as Hn. apply bool_decide_eq_false in Hn. exfalso. apply Hn.
      rewrite Forall_forall in Hall. apply list_elem_of_In in Hs. destruct (Hall s Hs) as [c' Hc']. unfold bit_of in Hb. rewrite Hc' in Hb.
      destruct (capability_bit _ _ Hc') as (k' & Hk' & -> & _). simpl in Hb. rewrite testbit_pow2 in Hb by lia. apply Z.eqb_eq in Hb as ->.
      by eapply capability_inj.
  - intros (s & Ef & Hn). apply find_some in Ef as [Hs _]. apply existsb_exists. exists s. split; [done|]. unfold bit_of. rewrite Hn, Hname.
    simpl. rewrite testbit_pow2 by lia. apply Z.eqb_refl.
Qed.

Definition sample_spec (name worker : string) : OperationSpec := mkSpec name worker "" "" "" false ["--batch-clusters"].
Definition sample_info : BackendInfo :=
  mkInfo "ntfs" "NTFS" ["ntfs3"; "NTFS-3G"] 63 "exact" [sample_spec "compact" "ntfs"; sample_spec "defrag" "ntfs"; sample_spec "recover" "ntfs"].

Lemma capability_exact_witness :
  (Z.land (b_capabilities sample_info) CAP_DEFRAG <> 0 <-> exists spec, info_operation sample_info "defrag" = Some spec /\ sp_name spec = "defrag").
Proof. apply (capability_exact sample_info "defrag" CAP_DEFRAG); vm_compute; reflexivity. Defined.

(** ** Lemmas: the registry *)

Definition names_of (b : Backend) : list string := map lower (backend_id b :: b_aliases (be_info b)).

Definition registry_ok (r : Registry) : Prop :=
  NoDup (map backend_id (backends r)) /\
  (forall b, b ∈ backends r -> dict_get (backend_id b) (ids r) <> None) /\
  (forall k b, dict_get k (aliases r) = Some b <-> b ∈ backends r /\ k ∈ names_of b).

(** The alias loop of a registration: [known] are the aliases before it. *)
Lemma add_aliases_spec backend (known : list (string * Backend)) : forall l acc acc',
  (forall k b, dict_get k known = Some b -> backend_id b <> backend_id backend) ->
  (forall k, dict_get k acc = dict_get k known \/ (dict_get k known = None /\ dict_get k acc = Some backend)) ->
  foldM (add_alias backend) acc l = Ok acc' ->
  (forall k, dict_get k acc' = if bool_decide (k ∈ map lower l) then Some backend else dict_get k acc) /\
  (forall k, k ∈ map lower l -> dict_get k known = None).
Proof.
  induction l as [|a l IH]; intros acc acc' Hid Hacc H; cbn [foldM] in H.
  { injection H as <-. split; [done|]. by intros k ?%elem_of_nil. }
  destruct (add_alias backend acc a) as [acc1|] eqn:E1; [|done]. cbn [mbind result_bind] in H. unfold add_alias in E1. inv_ok.
  assert (dict_get (lower a) known = None) as Hnone.
  { destruct (Hacc (lower a)) as [Ha|[Ha _]]; [|done]. destruct (dict_get (lower a) known) as [b|] eqn:Ek; [|done]. exfalso.
    rewrite Ha in E. apply negb_false_iff, bool_decide_eq_true in E. by apply (Hid _ _ Ek). }
  apply IH in H as [Hget Hfree]; [|done|].
  2:{ intros k. rewrite dict_get_set. destruct (decide (k = lower a)) as [->|]; [by right|apply Hacc]. }
  split.
  - intros k. rewrite Hget, dict_get_set. cbn [map]. destruct (decide (k = lower a)) as [->|Hne].
    + rewrite (bool_decide_eq_true_2 (lower a ∈ lower a :: map lower l)) by set_solver. by destruct (bool_decide _).
    + assert (bool_decide (k ∈ lower a :: map lower l) = bool_decide (k ∈ map lower l)) as -> by (apply bool_decide_ext; set_solver). done.
  - intros k [->|Hk]%elem_of_cons; [done|by apply Hfree].
Qed.

Lemma register_ok r b r' : registry_ok r -> _register r b = Ok r' -> registry_ok r' /\ backends r' = backends r ++ [b].
Proof.
  intros (Hnd & Hids & Hal) H. unfold _register in H. inv_ok. apply negb_false_iff, bool_decide_eq_true in E.
  rename a into al. assert (Hfresh : backend_id b ∉ map backend_id (backends r)).
  { intros (b' & Heq & Hb')%list_elem_of_fmap. apply (Hids b' Hb'). by rewrite <- Heq. }
  destruct (add_aliases_spec b (aliases r) (backend_id b :: b_aliases (be_info b)) (aliases r) al) as [Hget Hfree].
  { intros k b' Hk Heq. apply Hal in Hk as [Hb' _]. apply Hfresh. rewrite <- Heq. apply list_elem_of_fmap. by exists b'. }
  { intros k. by left. }
  { done. }
  fold (names_of b) in Hget, Hfree. split; [|done]. unfold registry_ok. cbn [backends ids aliases]. split; [|split].
  - rewrite map_app. apply NoDup_app. split; [done|]. split; [|apply NoDup_singleton]. by intros x Hx ->%list_elem_of_singleton.
  - intros b' [Hb'| ->%list_elem_of_singleton]%elem_of_app; rewrite dict_get_set; (destruct (decide _); [done|]); [by apply Hids|done].
  - intros k b'. rewrite Hget, elem_of_app, list_elem_of_singleton. destruct (bool_decide (k ∈ names_of b)) eqn:Ek.
    + apply bool_decide_eq_true in Ek. split; [intros [= <-]; by split; [right|]|]. intros [[Hb'| ->] Hk]; [|done].
      exfalso. specialize (Hfree k Ek). assert (dict_get k (aliases r) = Some b') as Hs by by apply Hal. congruence.
    + apply bool_decide_eq_false in Ek. rewrite Hal. split; [intros [? ?]; by split; [left|]|]. by intros [[?| ->] ?].
Qed.

Lemma make_registry_spec : forall modules r r', registry_ok r ->
  foldM (fun r m => match m with Some b => _register r b
                    | None => raise BackendError "plugin does not expose a FilesystemBackend as BACKEND" end) r modules = Ok r' ->
  registry_ok r' /\ map Some (backends r') = map Some (backends r) ++ modules.
Proof.
  induction modules as [|m ms IH]; intros r r' Hok H; cbn [foldM] in H; [injection H as <-; by rewrite app_nil_r|].
  destruct m as [b|]; [|done]. destruct (_register r b) as [r1|] eqn:E; [|done]. cbn [mbind result_bind] in H.
  destruct (register_ok _ _ _ Hok E) as [Hok1 Hb]. destruct (IH _ _ Hok1 H) as [Hok' Heq]. split; [done|].
  rewrite Heq, Hb, map_app, <- app_assoc. done.
Qed.

(** Plugin lookup: a registry that was built holds exactly the given
    plugins in order, their ids are pairwise distinct, and looking up a
    filesystem name returns a plugin exactly when that plugin, and no other,
    declares the name as its id or an alias, in any letter case. *)
Theorem registry_lookup_exact (modules : list (option Backend)) (r : Registry) (Hmake : make_registry modules = Ok r) :
  map Some (backends r) = modules /\ NoDup (map backend_id (backends r)) /\
  forall fstype b, by_fstype r fstype = Some b <-> b ∈ backends r /\ lower fstype ∈ names_of b.
Proof.
  unfold make_registry in Hmake. destruct (make_registry_spec modules (mkRegistry [] [] []) r) as [(Hnd & _ & Hal) Heq]; [|done|].
  { split; [constructor|]. split; [by intros b ?%elem_of_nil|]. intros k b. cbn. split; [done|]. by intros [?%elem_of_nil _]. }
  split; [exact Heq|]. split; [done|]. intros fstype b. apply Hal.
Qed.

Definition sample_backend (id : string) (al : list string) : Backend :=
  mkBackend (mkInfo id id al 3 "exact" []) (fun _ => Ok false).
Definition sample_modules : list (option Backend) :=
  [Some (sample_backend "ntfs" ["ntfs3"]); Some (sample_backend "ext4" ["ext2"; "EXT3"]); Some (sample_backend "xfs" [])].
Definition sample_registry : Registry := match make_registry sample_modules with Ok r => r | Raise _ => mkRegistry [] [] [] end.

Lemma registry_lookup_exact_witness :
  map Some (backends sample_registry) = sample_modules /\ NoDup (map backend_id (backends sample_registry)) /\
  forall fstype b, by_fstype sample_registry fstype = Some b <-> b ∈ backends sample_registry /\ lower fstype ∈ names_of b.
Proof. apply (registry_lookup_exact sample_modules sample_registry). vm_compute. reflexivity. Defined.

(** ** Lemmas: forwarded options *)

Lemma filter_options_sound blocked : forall args,
  sublist (filter_options blocked args) args /\
  Forall (fun t => t ∉ blocked /\ is_blocked blocked t = false) (filter_options blocked args).
Proof.
  assert (forall n args, (length args <= n)%nat -> sublist (filter_options blocked args) args /\
    Forall (fun t => t ∉ blocked /\ is_blocked blocked t = false) (filter_options blocked args)) as H; [|intros args; by apply (H (length args))].
  induction n as [|n IH]; intros args Hn; (destruct args as [|t rest]; [by split; constructor|]); cbn [length] in Hn; [lia|]. cbn [filter_options].
  case_bool_decide as Hb.
  - destruct rest as [|v rest']; [split; [apply sublist_nil_l|constructor]|].
    destruct (starts_with v "--").
    + destruct (IH (v :: rest') ltac:(lia)) as [H1 H2]. split; [by apply sublist_cons|done].
    + destruct (IH rest' ltac:(simpl in Hn; lia)) as [H1 H2]. split; [by do 2 apply sublist_cons|done].
  - destruct (is_blocked blocked t) eqn:Ei; destruct (IH rest ltac:(lia)) as [H1 H2].
    + split; [by apply sublist_cons|done].
    + split; [by apply sublist_skip|]. by constructor.
Qed.

(** Arguments without unsupported options are forwarded as they are. *)
Lemma filter_options_id blocked args :
  Forall (fun t => t ∉ blocked /\ is_blocked blocked t = false) args -> filter_options blocked args = args.
Proof.
  induction 1 as [|t rest [Hb Hi] _ IH]; [done|]. cbn [filter_options]. rewrite bool_decide_eq_false_2 by done. by rewrite Hi, IH.
Qed.

(** What the dispatcher executes: when it builds a command, the plugin found
    for the filesystem declares the operation, the program is an executable
    candidate for the plugin's worker, and the command is that program with the
    operation, the device and the forwarded arguments in their order, from which
    no option the worker does not support is left and, when there was none,
    nothing is missing. *)
Theorem dispatch_sound (environ : string -> option string) (executable : string -> bool) (resolve : string -> string -> string)
    (anchor : string) (r : Registry) (filesystem op device : string) (forwarded command : list string)
    (Hbuild : build_worker_command environ executable resolve anchor r filesystem op device forwarded = Ok command) :
  exists backend spec program worker arguments,
    by_fstype r filesystem = Some backend /\ info_operation (be_info backend) op = Some spec /\ sp_name spec = op /\
    dict_get (sp_worker spec) PROGRAMS = Some program /\
    worker ∈ program_candidates environ resolve program (Some anchor) /\ executable worker = true /\
    command = worker :: op :: device :: arguments ++ (if sp_pass_filesystem spec then ["--filesystem"; b_id (be_info backend)] else []) /\
    sublist arguments forwarded /\
    Forall (fun t => t ∉ sp_unsupported_options spec /\ is_blocked (sp_unsupported_options spec) t = false) arguments /\
    (Forall (fun t => t ∉ sp_unsupported_options spec /\ is_blocked (sp_unsupported_options spec) t = false) forwarded -> arguments = forwarded).
Proof.
  unfold build_worker_command in Hbuild. destruct (by_fstype r filesystem) as [backend|]; [|done].
  destruct (info_operation (be_info backend) op) as [spec|] eqn:Eo; [|done].
  destruct (resolve_program _ _ _ (sp_worker spec) (Some anchor)) as [worker|] eqn:Er; [|done]. cbn [mbind result_bind] in Hbuild.
  unfold resolve_program in Er. destruct (dict_get (sp_worker spec) PROGRAMS) as [program|] eqn:Ep; [|done].
  destruct (List.find executable _) as [w|] eqn:Ef; [|done]. injection Er as ->. apply find_some in Ef as [Hin Hex]. apply list_elem_of_In in Hin.
  assert (sp_name spec = op) as Hop.
  { unfold info_operation in Eo. apply find_some in Eo as [_ Eo]. by apply bool_decide_eq_true in Eo. }
  exists backend, spec, program, worker, (_without_options forwarded (sp_unsupported_options spec)).
  do 6 (split; [done|]). split.
  { injection Hbuild as <-. destruct (sp_pass_filesystem spec); cbn [app]; [done|]. by rewrite app_nil_r. }
  unfold _without_options. case_bool_decide as Hu.
  - rewrite Hu. split; [done|]. split; [|done]. apply Forall_forall. intros t _. split; [apply not_elem_of_nil|done].
  - destruct (filter_options_sound (sp_unsupported_options spec) forwarded) as [H1 H2]. split; [done|]. split; [done|].
    intros Hall. by apply filter_options_id.
Qed.

Definition ntfs_registry : Registry :=
  match make_registry [Some (mkBackend sample_info (fun _ => Ok true))] with Ok r => r | Raise _ => mkRegistry [] [] [] end.

Lemma dispatch_sound_witness :
  exists command,
    build_worker_command (fun _ => None) (fun p => bool_decide (p = "/usr/lib/linux-defragger/ntfs_engine.py")) (fun a rel => a +:+ "/" +:+ rel)
      "/opt/core" ntfs_registry "NTFS3" "defrag" "/dev/sdb1" ["--write"; "--batch-clusters"; "4096"; "--journal"; "j"] = Ok command /\
    exists backend spec program worker arguments,
      by_fstype ntfs_registry "NTFS3" = Some backend /\ info_operation (be_info backend) "defrag" = Some spec /\ sp_name spec = "defrag" /\
      dict_get (sp_worker spec) PROGRAMS = Some program /\
      worker ∈ program_candidates (fun _ => None) (fun a rel => a +:+ "/" +:+ rel) program (Some "/opt/core") /\
      bool_decide (worker = "/usr/lib/linux-defragger/ntfs_engine.py") = true /\
      command = worker :: "defrag" :: "/dev/sdb1" :: arguments ++ (if sp_pass_filesystem spec then ["--filesystem"; b_id (be_info backend)] else []) /\
      sublist arguments ["--write"; "--batch-clusters"; "4096"; "--journal"; "j"] /\
      Forall (fun t => t ∉ sp_unsupported_options spec /\ is_blocked (sp_unsupported_options spec) t = false) arguments /\
      (Forall (fun t => t ∉ sp_unsupported_options spec /\ is_blocked (sp_unsupported_options spec) t = false)
         ["--write"; "--batch-clusters"; "4096"; "--journal"; "j"] -> arguments = ["--write"; "--batch-clusters"; "4096"; "--journal"; "j"]).
Proof.
  destruct (build_worker_command (fun _ => None) (fun p => bool_decide (p = "/usr/lib/linux-defragger/ntfs_engine.py")) (fun a rel => a +:+ "/" +:+ rel)
      "/opt/core" ntfs_registry "NTFS3" "defrag" "/dev/sdb1" ["--write"; "--batch-clusters"; "4096"; "--journal"; "j"]) as [command|] eqn:E;
    [|vm_compute in E; discriminate E].
  exists command. split; [done|]. exact (dispatch_sound _ _ _ _ _ _ _ _ _ _ E).
Defined.
