(* ===== verification/Journal.v ===== *)
(** * Replacing the journal file

    Models [write_json_journal] and [fsync_directory] of
    [src/gui/core/journal.py] on a small file system with power loss: the
    entries of a directory reach the disk in the order they were changed and at
    the latest with an [fsync] of the directory, a file's contents at the latest
    with an [fsync] of the file, and a [rename] replaces a name atomically.
    Every system call may fail.  The theorem is the atomicity the crash model
    of [Device] takes for the journal. *)

From S2P Require Import Prelude Bytes.

Local Open Scope string_scope.
Local Open Scope list_scope.
Local Open Scope Z_scope.

(** ** A directory with power loss *)

(** A file is its number; names point to files. *)
Inductive dir_op :=
  | Link (name : string) (file : nat)
  | Unlink (name : string)
  | Rename (from to : string).

Notation names := (gmap string nat).

Definition apply_dir (n : names) (op : dir_op) : names :=
  match op with
  | Link name file => <[name := file]> n
  | Unlink name => delete name n
  | Rename from to =>
      match n !! from with
      | Some file => <[to := file]> (delete from n)
      | None => n
      end
  end.

(** [synced] is the contents at the last [fsync] of the file, [None] when it
    was changed since. *)
Record file := mkFile { contents : bytes; synced : bool }.

Record fs := mkFs {
  durable : names;             (* the directory at its last fsync *)
  pending : list dir_op;       (* changes since, oldest first *)
  files : gmap nat file;
  next_file : nat
}.

Definition current (s : fs) : names := fold_left apply_dir (pending s) (durable s).

Definition read_name (s : fs) (name : string) : option bytes :=
  file ← current s !! name; f ← files s !! file; Some (contents f).

(** What a crash can leave: a prefix of the pending changes, and for a file that
    was not synced any contents. *)
Definition fs_crash (s s' : fs) : Prop :=
  exists k, durable s' = fold_left apply_dir (take k (pending s)) (durable s) /\ pending s' = [] /\ next_file s' = next_file s /\
    forall i, match files s !! i with
              | Some f => exists c, files s' !! i = Some (mkFile c true) /\ (synced f = true -> c = contents f)
              | None => files s' !! i = None
              end.

(** ** System calls *)

Inductive call :=
  | Mkstemp (name : string)
  | Fchmod (name : string)
  | WriteAll (name : string) (data : bytes)
  | FsyncFile (name : string)
  | Replace (from to : string)
  | FsyncDir
  | Remove (name : string).

Definition with_pending (s : fs) (op : dir_op) : fs := mkFs (durable s) (pending s ++ [op]) (files s) (next_file s).

Definition update_file (s : fs) (name : string) (g : file -> file) : fs :=
  match current s !! name with
  | Some i => mkFs (durable s) (pending s) (alter g i (files s)) (next_file s)
  | None => s
  end.

Definition do_call (s : fs) (c : call) : fs :=
  match c with
  | Mkstemp name =>
      with_pending (mkFs (durable s) (pending s) (<[next_file s := mkFile [] false]> (files s)) (S (next_file s))) (Link name (next_file s))
  | Fchmod _ => s
  | WriteAll name data => update_file s name (fun f => mkFile (contents f ++ data) false)
  | FsyncFile name => update_file s name (fun f => mkFile (contents f) true)
  | Replace from to => with_pending s (Rename from to)
  | FsyncDir => mkFs (current s) [] (files s) (next_file s)
  | Remove name => with_pending s (Unlink name)
  end.

(** ** The program *)

(** The calls of [write_json_journal] behind [mkdir], in order. *)
Definition journal_calls (target temporary : string) (data : bytes) : list call :=
  [Fchmod temporary; WriteAll temporary data; FsyncFile temporary; Replace temporary target; FsyncDir].

(** A call that fails may have had its effect or not, and a write may have
    stored any part of its data: [n] says how far it came. *)
Definition fail_call (n : nat) (s : fs) (c : call) : fs :=
  match c with
  | WriteAll name data => do_call s (WriteAll name (take n data))
  | _ => if Nat.eqb n 0 then s else do_call s c
  end.

(** Runs calls until one fails: the states passed through, newest first, and
    whether all succeeded. *)
Fixpoint run_calls (fails : nat -> bool) (took : nat -> nat) (i : nat) (calls : list call) (s : fs) : list fs * bool :=
  match calls with
  | [] => ([s], true)
  | c :: rest =>
      if fails i then ([fail_call (took i) s c; s], false) else
      let '(trace, ok) := run_calls fails took (S i) rest (do_call s c) in (trace ++ [s], ok)
  end.

Definition last_state (trace : list fs) (s : fs) : fs := match trace with x :: _ => x | [] => s end.

(** [write_json_journal]: the [try] block, then on failure the removal of the
    temporary file, whose own failure is ignored.  The result says whether the
    call returned normally. *)
Definition write_json_journal (fails : nat -> bool) (took : nat -> nat) (target temporary : string) (data : bytes) (s : fs) : list fs * bool :=
  if fails 0%nat then ([fail_call (took 0%nat) s (Mkstemp temporary); s], false) else
  let s1 := do_call s (Mkstemp temporary) in
  let '(trace, ok) := run_calls fails took 1 (journal_calls target temporary data) s1 in
  if ok then (trace ++ [s], true)
  else if fails 6%nat then (trace ++ [s], false)
  else (do_call (last_state trace s1) (Remove temporary) :: trace ++ [s], false).

(** ** Atomicity *)

(** No change is pending, the target is durable, and the temporary name and the
    next file number are unused. *)
Definition quiescent (s : fs) (target temporary : string) : Prop :=
  pending s = [] /\ temporary <> target /\ durable s !! temporary = None /\ files s !! next_file s = None /\
  forall i, durable s !! target = Some i -> exists f, files s !! i = Some f /\ synced f = true.

Section atomic.
Context (s : fs) (target temporary : string) (data : bytes).
Hypothesis Hq : quiescent s target temporary.

Local Notation new := (next_file s).

(** In every directory a crash can leave, the target is the old file or the
    complete new one, and the old file is untouched. *)
Definition target_ok (x : fs) : Prop :=
  (forall i f, durable s !! target = Some i -> files s !! i = Some f -> files x !! i = Some f) /\
  forall k, let d := fold_left apply_dir (take k (pending x)) (durable x) in
    d !! target = durable s !! target \/ (d !! target = Some new /\ files x !! new = Some (mkFile data true)).

Lemma old_not_new i : durable s !! target = Some i -> i <> new.
Proof. destruct Hq as (_ & _ & _ & Hfresh & Hold). intros Hi ->. destruct (Hold _ Hi) as (f & Hf & _). congruence. Qed.

Lemma read_old : read_name s target = match durable s !! target with Some i => contents <$> files s !! i | None => None end.
Proof. destruct Hq as (Hp & _). unfold read_name, current. rewrite Hp. simpl. destruct (durable s !! target); [|done]. simpl. by destruct (files s !! _). Qed.

Lemma target_ok_crash x y : target_ok x -> fs_crash x y -> read_name y target = read_name s target \/ read_name y target = Some data.
Proof.
  intros [Hold Hd] (k & Hdur & Hpend & _ & Hfiles). specialize (Hd k). simpl in Hd. rewrite <- Hdur in Hd.
  assert (read_name y target = match durable y !! target with Some i => contents <$> files y !! i | None => None end) as ->.
  { unfold read_name, current. rewrite Hpend. simpl. destruct (durable y !! target); [|done]. simpl. by destruct (files y !! _). }
  destruct Hd as [Hd|[Hd Hnew]]; rewrite Hd.
  - left. rewrite read_old. destruct (durable s !! target) as [i|] eqn:Ei; [|done]. destruct Hq as (_ & _ & _ & _ & Hq').
    destruct (Hq' i Ei) as (f & Hf & Hs). specialize (Hfiles i). rewrite (Hold i f eq_refl Hf) in Hfiles.
    destruct Hfiles as (c & Hc & Hsame). rewrite Hc, Hf. simpl. by rewrite Hsame.
  - right. specialize (Hfiles new). rewrite Hnew in Hfiles. destruct Hfiles as (c & Hc & Hsame). rewrite Hc. simpl. f_equal. by apply Hsame.
Qed.

(** The states of the program. *)
Definition state_with (d : names) (p : list dir_op) (f : file) : fs := mkFs d p (<[new := f]> (files s)) (S new).

Lemma keeps_old d p f i g : durable s !! target = Some i -> files s !! i = Some g -> files (state_with d p f) !! i = Some g.
Proof. intros Hi Hg. simpl. rewrite lookup_insert_ne; [done|]. intros <-. by apply (old_not_new _ Hi). Qed.

Lemma start_ok : target_ok s.
Proof. split; [done|]. destruct Hq as (Hp & _). intros k. rewrite Hp, take_nil. by left. Qed.

Lemma created_ok f ops : (ops = [] \/ ops = [Unlink temporary]) -> target_ok (state_with (durable s) (Link temporary new :: ops) f).
Proof.
  intros Hops. destruct Hq as (_ & Hne & _). split; [intros; by apply keeps_old|]. intros k. left. cbn [pending durable state_with].
  destruct Hops as [->| ->]; destruct k as [|[|k]]; cbn [take fold_left apply_dir]; rewrite ?take_nil; cbn [fold_left];
    rewrite ?lookup_delete_ne, ?lookup_insert_ne by done; done.
Qed.

Lemma renamed_lookup (n : names) : <[target := new]> (delete temporary (<[temporary := new]> n)) !! target = Some new.
Proof. apply lookup_insert_eq. Qed.

Lemma replaced_ok ops : (ops = [] \/ ops = [Unlink temporary]) ->
  target_ok (state_with (durable s) (Link temporary new :: Rename temporary target :: ops) (mkFile data true)).
Proof.
  intros Hops. destruct Hq as (_ & Hne & _). split; [intros; by apply keeps_old|]. intros k. cbn [pending durable state_with files].
  destruct k as [|[|k]]; cbn [take fold_left apply_dir]; [by left|left; by rewrite lookup_insert_ne|]. right.
  rewrite lookup_insert_eq. cbn [fold_left]. split; [|apply lookup_insert_eq].
  destruct Hops as [->| ->]; rewrite ?take_nil; [apply lookup_insert_eq|]. destruct k; cbn [take fold_left apply_dir];
    rewrite ?take_nil; cbn [fold_left]; rewrite ?lookup_delete_ne by done; apply lookup_insert_eq.
Qed.

Lemma synced_ok d ops : d !! target = Some new -> (ops = [] \/ ops = [Unlink temporary]) -> target_ok (state_with d ops (mkFile data true)).
Proof.
  intros Hd Hops. destruct Hq as (_ & Hne & _). split; [intros; by apply keeps_old|]. intros k. right. cbn [pending durable state_with files].
  split; [|apply lookup_insert_eq]. destruct Hops as [->| ->]; destruct k; cbn [take fold_left apply_dir]; rewrite ?take_nil; cbn [fold_left];
    rewrite ?lookup_delete_ne by done; done.
Qed.

(** The five states behind [mkstemp]. *)
Definition x_created (f : file) : fs := state_with (durable s) [Link temporary new] f.
Definition x_replaced : fs := state_with (durable s) [Link temporary new; Rename temporary target] (mkFile data true).
Definition n_final : names := <[target := new]> (delete temporary (<[temporary := new]> (durable s))).
Definition x_final : fs := state_with n_final [] (mkFile data true).

Lemma update_created f g : update_file (x_created f) temporary g = x_created (g f).
Proof.
  unfold update_file, current. cbn [pending durable x_created state_with fold_left apply_dir]. rewrite lookup_insert_eq.
  unfold x_created, state_with. cbn [files durable pending next_file]. by rewrite alter_insert_eq.
Qed.

Lemma state_mkstemp : do_call s (Mkstemp temporary) = x_created (mkFile [] false).
Proof. destruct Hq as (Hp & _). unfold do_call, with_pending. cbn [durable pending files next_file]. by rewrite Hp. Qed.

Lemma state_write : do_call (x_created (mkFile [] false)) (WriteAll temporary data) = x_created (mkFile data false).
Proof. cbn [do_call]. by rewrite update_created. Qed.

Lemma state_fsync : do_call (x_created (mkFile data false)) (FsyncFile temporary) = x_created (mkFile data true).
Proof. cbn [do_call]. by rewrite update_created. Qed.

Lemma state_fsyncdir : do_call x_replaced FsyncDir = x_final.
Proof.
  cbn [do_call]. unfold current. cbn [x_replaced state_with pending durable fold_left apply_dir files next_file]. by rewrite lookup_insert_eq.
Qed.

Definition known (x : fs) : Prop :=
  x = s \/ (exists f, x = x_created f) \/ x = x_replaced \/ x = x_final.

Lemma known_ok x : known x -> target_ok x /\ target_ok (do_call x (Remove temporary)) \/ x = s.
Proof.
  intros [->|[[f ->]|[->| ->]]]; [by right|left..].
  - split; apply created_ok; [by left|by right].
  - split; apply replaced_ok; [by left|by right].
  - split; apply synced_ok; try apply renamed_lookup; [by left|by right].
Qed.

Definition past (x : fs) : Prop := known x /\ x <> s.

Lemma past_created f : past (x_created f).
Proof. split; [right; left; by exists f|]. intros H. destruct Hq as (Hp & _). by rewrite <- H in Hp. Qed.

Lemma past_replaced : past x_replaced.
Proof. split; [right; right; by left|]. intros H. destruct Hq as (Hp & _). by rewrite <- H in Hp. Qed.

Lemma past_final : past x_final.
Proof. split; [right; right; by right|]. intros H. apply (f_equal next_file) in H. simpl in H. lia. Qed.

Lemma past_fail n x c : past x -> past (do_call x c) -> (forall name d, c <> WriteAll name d) -> past (fail_call n x c).
Proof. intros Hx Hdo Hc. destruct c; try (unfold fail_call; by destruct (Nat.eqb n 0)). by destruct (Hc name data0). Qed.

Lemma past_fail_write n f : past (fail_call n (x_created f) (WriteAll temporary data)).
Proof. cbn [fail_call do_call]. rewrite update_created. apply past_created. Qed.

(** The run behind [mkstemp]: its states, and where it ends. *)
Lemma run_known fails took trace ok :
  run_calls fails took 1 (journal_calls target temporary data) (x_created (mkFile [] false)) = (trace, ok) ->
  Forall past trace /\ trace <> [] /\ (ok = true -> head trace = Some x_final).
Proof.
  unfold journal_calls. cbn [run_calls]. change (do_call ?x (Fchmod temporary)) with x. rewrite state_write, state_fsync.
  change (do_call (x_created (mkFile data true)) (Replace temporary target)) with x_replaced. rewrite state_fsyncdir.
  intros H. repeat match type of H with context [if ?f ?n then _ else _] => destruct (f n) end;
    apply pair_equal_spec in H as [<- <-]; cbn [app]; (split; [|done]);
    repeat apply Forall_cons_2; try apply Forall_nil_2; try apply past_created; try apply past_replaced; try apply past_final;
    try apply past_fail_write; apply past_fail; try done; try apply past_created; try apply past_replaced.
  all: rewrite ?state_fsync, ?state_fsyncdir; try apply past_final; try apply past_created.
Qed.
End atomic.

(** C31. Replacing the journal is atomic: whichever system calls of
    [write_json_journal] fail and at whatever instant power is lost, the
    journal afterwards holds the complete old or the complete new contents; and
    when the function returns normally the new contents survive any later
    crash. *)
Theorem write_json_journal_atomic (fails : nat -> bool) (took : nat -> nat) (target temporary : string) (data : bytes) (s : fs) (trace : list fs) (ok : bool)
    (Hq : quiescent s target temporary) (Hrun : write_json_journal fails took target temporary data s = (trace, ok)) :
  Forall (fun x => forall y, fs_crash x y -> read_name y target = read_name s target \/ read_name y target = Some data) trace /\
  (ok = true -> exists x, head trace = Some x /\ forall y, fs_crash x y -> read_name y target = Some data).
Proof.
  assert (Hs : forall y, fs_crash s y -> read_name y target = read_name s target \/ read_name y target = Some data)
    by (intros y; by apply (target_ok_crash s target temporary data Hq), start_ok with temporary).
  assert (Hk : forall x, known s target temporary data x -> forall y, fs_crash x y -> read_name y target = read_name s target \/ read_name y target = Some data).
  { intros x Hx y. destruct (known_ok s target temporary data Hq x Hx) as [[Hok _]| ->]; [by apply (target_ok_crash s target temporary data Hq)|apply Hs]. }
  unfold write_json_journal in Hrun. rewrite (state_mkstemp s target temporary Hq) in Hrun. destruct (fails 0%nat).
  { injection Hrun as <- <-. split; [|done]. apply Forall_cons_2; [|apply Forall_cons_2; [apply Hs|apply Forall_nil_2]]. unfold fail_call. destruct (Nat.eqb _ 0); [apply Hs|].
    apply Hk. right. left. eexists. apply (state_mkstemp s target temporary Hq). }
  destruct (run_calls fails took 1 _ _) as [tr ok'] eqn:Er.
  destruct (run_known s target temporary data Hq _ _ _ _ Er) as (Hall & Hne & Hok).
  assert (Forall (fun x => forall y, fs_crash x y -> read_name y target = read_name s target \/ read_name y target = Some data) (tr ++ [s])) as Htr.
  { apply Forall_app_2; [|by apply Forall_singleton]. eapply Forall_impl; [exact Hall|]. intros x [Hx _]. by apply Hk. }
  destruct ok'; [|destruct (fails 6%nat)]; injection Hrun as <- <-.
  - split; [done|]. intros _. specialize (Hok eq_refl). destruct tr as [|x tr]; [done|]. injection Hok as ->. eexists. split; [done|].
    intros y Hy. destruct Hy as (k & Hd & Hp & _ & Hf). cbn [x_final state_with pending durable] in Hd. rewrite take_nil in Hd. cbn [fold_left] in Hd.
    unfold read_name, current. rewrite Hp, Hd. cbn [fold_left]. unfold n_final. rewrite lookup_insert_eq. cbn.
    specialize (Hf (next_file s)). cbn [x_final state_with files] in Hf. rewrite lookup_insert_eq in Hf. destruct Hf as (c & -> & Hc). cbn. f_equal. by apply Hc.
  - by split.
  - split; [|done]. constructor; [|done]. destruct tr as [|x tr]; [done|]. cbn [last_state]. apply Forall_cons in Hall as [[Hx Hxs] _].
    intros y. apply (target_ok_crash s target temporary data Hq). destruct (known_ok s target temporary data Hq x Hx) as [[_ H]|]; [done|by destruct Hxs].
Qed.

Definition old_journal : fs := mkFs {["ntfs.journal" := 0%nat]} [] {[0%nat := mkFile [111; 108; 100] true]} 1.

Lemma write_json_journal_atomic_witness :
  exists trace ok, write_json_journal (fun i => Nat.eqb i 5) (fun _ => 1%nat) "ntfs.journal" "ntfs.journal.tmp" [110; 101; 119] old_journal = (trace, ok) /\
    Forall (fun x => forall y, fs_crash x y -> read_name y "ntfs.journal" = read_name old_journal "ntfs.journal" \/
                                               read_name y "ntfs.journal" = Some [110; 101; 119]) trace /\
    (ok = true -> exists x, head trace = Some x /\ forall y, fs_crash x y -> read_name y "ntfs.journal" = Some [110; 101; 119]).
Proof.
  destruct (write_json_journal (fun i => Nat.eqb i 5) (fun _ => 1%nat) "ntfs.journal" "ntfs.journal.tmp" [110; 101; 119] old_journal) as [trace ok] eqn:E.
  exists trace, ok. split; [done|]. apply (write_json_journal_atomic (fun i => Nat.eqb i 5) (fun _ => 1%nat) "ntfs.journal" "ntfs.journal.tmp" _ old_journal trace ok); [|exact E].
  split; [done|]. split; [done|]. split; [done|]. split; [done|]. intros i Hi. vm_compute in Hi. injection Hi as <-. by eexists.
Defined.
