(* ===== verification/Helper.v ===== *)
(** * The privileged helper

    Models [src/gui/privileged_helper.py]: a process running as root that
    reads requests on its standard input, starts at most the three installed
    programs, each request on a thread of its own, and reports on its standard
    output.  Every section of the code that holds [_active_lock] is one step,
    every message written is one step, and the steps of the main loop, of the
    request threads and of the child processes interleave freely.

    When a child writes a line, when it exits, which exception a system call
    raises and whether the progress throttle (which compares floats and reads
    the clock) lets a line through are choices of the environment. *)

From S2P Require Import Prelude Dispatch.

Local Open Scope string_scope.
Local Open Scope list_scope.
Local Open Scope Z_scope.

(** ** Commands *)

Definition MAPPER : string := "/usr/lib/linux-defragger/allocation_mapper.py".
Definition OPERATION_ENGINE : string := "/usr/lib/linux-defragger/operation_engine.py".
Definition UDISKSCTL : string := "/usr/bin/udisksctl".

(** [usable p] is [p.is_file() and os.access(p, os.X_OK)]. *)
Definition allowed_command (usable : string -> bool) (program : string) (argv : list string) : result (list string) :=
  if bool_decide (program = "operation-engine") then
    if negb (usable OPERATION_ENGINE) then raise RuntimeError "operation engine is unavailable" else
    if negb (match argv with
             | [] => false
             | command :: _ => bool_decide (command ∈ ["compact"; "defrag"; "growth-defrag"; "recover"])
             end) then raise RuntimeError "operation-engine command is not allowed" else
    if negb (bool_decide ("--filesystem" ∈ argv)) then raise RuntimeError "operation-engine request has no filesystem plugin" else
    Ok (OPERATION_ENGINE :: argv)
  else if bool_decide (program = "mapper") then
    if negb (usable MAPPER) then raise RuntimeError "allocation mapper is unavailable" else
    Ok (MAPPER :: argv)
  else if bool_decide (program = "udisksctl") then
    if negb (usable UDISKSCTL) then raise RuntimeError "udisksctl is unavailable" else
    match argv with
    | [action; option; device] =>
        if negb (bool_decide (action = "unmount")) || negb (bool_decide (option = "-b")) || negb (starts_with device "/dev/")
        then raise RuntimeError "only udisksctl unmount -b /dev/... is allowed"
        else Ok (UDISKSCTL :: argv)
    | _ => raise RuntimeError "only udisksctl unmount -b /dev/... is allowed"
    end
  else raise RuntimeError "unknown helper program".

(** ** Lines of a child *)

Fixpoint span (p : Ascii.ascii -> bool) (l : list Ascii.ascii) : list Ascii.ascii * list Ascii.ascii :=
  match l with
  | c :: l' => if p c then let '(a, b) := span p l' in (c :: a, b) else ([], l)
  | [] => ([], [])
  end.

Definition is_digit (c : Ascii.ascii) : bool := let n := Ascii.N_of_ascii c in (48 <=? n)%N && (n <=? 57)%N.

Definition digits_value (l : list Ascii.ascii) : Z := foldl (fun v c => 10 * v + (Z.of_N (Ascii.N_of_ascii c) - 48)) 0 l.

(** [line.rstrip("\r\n")] *)
Definition rstrip (line : list Ascii.ascii) : list Ascii.ascii :=
  reverse (snd (span (fun c => let n := Ascii.N_of_ascii c in (n =? 10)%N || (n =? 13)%N) (reverse line))).

(** A percentage as written: its integer part and its decimals. *)
Definition percentage : Type := Z * list Ascii.ascii.

(** [_ENGINE_PROGRESS_RE.match(line)] *)
Definition progress_match (line : list Ascii.ascii) : option percentage :=
  let '(_, l) := span is_space line in
  let '(whole, l) := span is_digit l in
  if bool_decide (whole = []) then None else
  let '(decimals, l) :=
    match l with
    | c :: l' =>
        if (Ascii.N_of_ascii c =? 46)%N then
          let '(d, l'') := span is_digit l' in if bool_decide (d = []) then ([], l) else (d, l'')
        else ([], l)
    | [] => ([], l)
    end in
  let '(gap, l) := span is_space l in
  if bool_decide (gap = []) then None else
  let text := String.list_ascii_of_string "percent completed" in
  if bool_decide (map lower_char (take (length text) l) = text) && forallb is_space (drop (length text) l)
  then Some (digits_value whole, decimals) else None.

(** [max(0.0, min(100.0, percent))]; a match has no sign. *)
Definition clamp (p : percentage) : percentage := if 100 <=? fst p then (100, []) else p.

(** ** Messages *)

Inductive message :=
  | MReady
  | MPong (id : option Z)
  | MBye
  | MError (id : option Z) (text : string)
  | MStarted (id : Z) (pid : nat)
  | MOutput (id : Z) (line : list Ascii.ascii)
  | MProgress (id : Z) (percent : percentage)
  | MStopResult (id active_id : option Z) (delivered : bool) (text : string)
  | MFinished (id : Z) (returncode : Z).

Inductive request :=
  | RRun (id : Z) (program : string) (argv : option (list string))   (* [None]: not a list of strings *)
  | RStop (id : option Z)
  | RPing (id : option Z)
  | RQuit
  | RUnknown (id : option Z)
  | RInvalid (text : string).                                        (* the request cannot be read *)

(** ** State *)

Record process := mkProcess { command : list string; live : bool; sigints : nat }.

(** The module's globals, the child processes and the messages written, oldest
    first. *)
Record shared := mkShared {
  active_process : option nat;
  active_request_id : option Z;
  active_has_output : bool;
  pending_stop : bool;
  processes : gmap nat process;
  out : list message
}.

(** Where [run_request] stands. *)
Inductive thread_pc :=
  | TNew (program : string) (argv : list string)
  | TSpawned                                        (* behind [Popen] *)
  | TRegistered                                     (* behind the first locked section *)
  | TReading
  | TLine (line : list Ascii.ascii) (deliver : bool)
  | TDeliver
  | TWaited (returncode : Z)
  | TRaised (text : string)                         (* in the [except] block *)
  | TStopping (text : string)                       (* SIGINT sent, waiting 120 seconds *)
  | TReported                                       (* behind [fail] *)
  | TFinally
  | TDone.

(** A thread: its request, where it stands, its child, whether [last_progress]
    is set, and the messages it wrote. *)
Record thread := mkThread {
  t_id : Z;
  t_pc : thread_pc;
  t_process : option nat;
  t_progress : bool;
  sent : list message
}.

Inductive main_pc :=
  | MainLoop
  | MainFail (id : option Z) (text : string)
  | MainStart (id : Z) (program : string) (argv : list string)
  | MainStop (id : option Z) (process : option nat) (active_id : option Z) (has_output : bool)
  | MainQuit (process : option nat)
  | MainBye
  | MainExit.

Record system := mkSystem { sh : shared; threads : list thread; main_at : main_pc }.

Definition emit (m : message) (s : shared) : shared :=
  mkShared (active_process s) (active_request_id s) (active_has_output s) (pending_stop s) (processes s) (out s ++ [m]).

Definition set_active (p : option nat) (id : option Z) (has_output stop : bool) (s : shared) : shared :=
  mkShared p id has_output stop (processes s) (out s).

Definition set_processes (ps : gmap nat process) (s : shared) : shared :=
  mkShared (active_process s) (active_request_id s) (active_has_output s) (pending_stop s) ps (out s).

Definition signal (p : process) : process := mkProcess (command p) (live p) (S (sigints p)).

(** [os.killpg(os.getpgid(pid), signal.SIGINT)] of a child that is there. *)
Definition killpg (pid : nat) (s : shared) : shared := set_processes (alter signal pid (processes s)) s.

Definition go (pc : thread_pc) (t : thread) : thread := mkThread (t_id t) pc (t_process t) (t_progress t) (sent t).

Definition tell (m : message) (pc : thread_pc) (t : thread) : thread := mkThread (t_id t) pc (t_process t) (t_progress t) (sent t ++ [m]).

Definition safe_text (text : string) : string := "helper error; engine stopped safely: " +:+ text.
Definition unsafe_text (text stop : string) : string := "helper error: " +:+ text +:+ "; safe-stop error: " +:+ stop.

(** ** Steps of a request thread *)

Section helper.
Context (usable : string -> bool).

(** What one line leads to: the message for it, or [None] when the throttle
    drops a progress line, which it may not do for the first one and at 100
    percent. *)
Inductive line_message (t : thread) (line : list Ascii.ascii) : option message -> Prop :=
  | line_output : progress_match line = None -> line_message t line (Some (MOutput (t_id t) line))
  | line_progress p : progress_match line = Some p -> line_message t line (Some (MProgress (t_id t) (clamp p)))
  | line_dropped p : progress_match line = Some p -> t_progress t = true -> fst p < 100 -> line_message t line None.

Definition saw_progress (m : option message) (t : thread) : bool :=
  match m with Some (MProgress _ _) => true | _ => t_progress t end.

Definition tell_opt (m : option message) (pc : thread_pc) (t : thread) : thread :=
  mkThread (t_id t) pc (t_process t) (saw_progress m t) (sent t ++ match m with Some m => [m] | None => [] end).

Definition emit_opt (m : option message) (s : shared) : shared := match m with Some m => emit m s | None => s end.

(** [run_request] *)
Inductive thread_step (s : shared) (t : thread) : shared -> thread -> Prop :=
  | step_refused program argv e :
      t_pc t = TNew program argv -> allowed_command usable program argv = Raise e ->
      thread_step s t s (go (TRaised (exn_msg e)) t)
  | step_popen_failed program argv cmd text :
      t_pc t = TNew program argv -> allowed_command usable program argv = Ok cmd ->
      thread_step s t s (go (TRaised text) t)
  | step_popen program argv cmd pid :
      t_pc t = TNew program argv -> allowed_command usable program argv = Ok cmd -> processes s !! pid = None ->
      thread_step s t (set_processes (<[pid := mkProcess cmd true 0]> (processes s)) s)
        (mkThread (t_id t) TSpawned (Some pid) (t_progress t) (sent t))
  | step_register pid :
      t_pc t = TSpawned -> t_process t = Some pid ->
      thread_step s t (set_active (Some pid) (Some (t_id t)) false false s) (go TRegistered t)
  | step_started pid :
      t_pc t = TRegistered -> t_process t = Some pid ->
      thread_step s t (emit (MStarted (t_id t) pid) s) (tell (MStarted (t_id t) pid) TReading t)
  | step_first_line line :
      t_pc t = TReading -> active_has_output s = false ->
      thread_step s t (set_active (active_process s) (active_request_id s) true false s) (go (TLine (rstrip line) (pending_stop s)) t)
  | step_next_line line :
      t_pc t = TReading -> active_has_output s = true ->
      thread_step s t s (go (TLine (rstrip line) false) t)
  | step_line line deliver m :
      t_pc t = TLine line deliver -> line_message t line m ->
      thread_step s t (emit_opt m s) (tell_opt m (if deliver then TDeliver else TReading) t)
  | step_deliver pid text m :
      t_pc t = TDeliver -> t_process t = Some pid ->
      m = MStopResult None (Some (t_id t)) true text -> text = "queued SIGINT delivered after engine initialisation" ->
      thread_step s t (emit m (killpg pid s)) (tell m TReading t)
  | step_deliver_failed text m :
      t_pc t = TDeliver -> m = MStopResult None (Some (t_id t)) false text ->
      thread_step s t (emit m s) (tell m TReading t)
  | step_waited pid p returncode :
      t_pc t = TReading -> t_process t = Some pid -> processes s !! pid = Some p -> live p = false ->
      thread_step s t s (go (TWaited returncode) t)
  | step_finished returncode :
      t_pc t = TWaited returncode ->
      thread_step s t (emit (MFinished (t_id t) returncode) s) (tell (MFinished (t_id t) returncode) TFinally t)
  | step_raised text :
      (t_pc t = TRegistered \/ t_pc t = TReading \/ (exists line deliver, t_pc t = TLine line deliver) \/ t_pc t = TDeliver \/ (exists returncode, t_pc t = TWaited returncode)) ->
      thread_step s t s (go (TRaised text) t)
  | step_no_child text m :
      t_pc t = TRaised text -> (forall pid p, t_process t = Some pid -> processes s !! pid = Some p -> live p = false) ->
      m = MError (Some (t_id t)) text ->
      thread_step s t (emit m s) (tell m TReported t)
  | step_interrupt text pid p :
      t_pc t = TRaised text -> t_process t = Some pid -> processes s !! pid = Some p -> live p = true ->
      thread_step s t (killpg pid s) (go (TStopping text) t)
  | step_stopped text pid p m :
      t_pc t = TStopping text -> t_process t = Some pid -> processes s !! pid = Some p -> live p = false ->
      m = MError (Some (t_id t)) (safe_text text) ->
      thread_step s t (emit m s) (tell m TReported t)
  | step_not_interrupted text stop pid p m :
      t_pc t = TRaised text -> t_process t = Some pid -> processes s !! pid = Some p -> live p = true ->
      m = MError (Some (t_id t)) (unsafe_text text stop) ->
      thread_step s t (emit m s) (tell m TReported t)
  | step_not_stopped text stop m :
      t_pc t = TStopping text -> m = MError (Some (t_id t)) (unsafe_text text stop) ->
      thread_step s t (emit m s) (tell m TReported t)
  | step_gave_up :
      t_pc t = TReported ->
      thread_step s t (emit (MFinished (t_id t) 127) s) (tell (MFinished (t_id t) 127) TFinally t)
  | step_finally :
      t_pc t = TFinally ->
      thread_step s t (set_active None None false false s) (go TDone t).

(** ** Steps of the main loop *)

Definition stop_message (id active_id : option Z) (process : option nat) (has_output : bool) (killed : option string) : message :=
  match process with
  | None => MStopResult id active_id false "no active operation"
  | Some _ =>
      if negb has_output then MStopResult id active_id true "safe stop queued until engine initialisation"
      else match killed with
           | None => MStopResult id active_id true "SIGINT delivered"
           | Some text => MStopResult id active_id false text
           end
  end.

(** [handle_run]'s locked section and what comes before it; [handle_stop]'s
    locked section; the other actions of [main]. *)
Definition receive (r : request) (s : shared) : shared * main_pc :=
  match r with
  | RRun id program None => (s, MainFail (Some id) "argv must be a list of strings")
  | RRun id program (Some argv) =>
      match active_process s with
      | Some _ => (s, MainFail (Some id) "another privileged operation is already active")
      | None => (s, MainStart id program argv)
      end
  | RStop id =>
      let stop := bool_decide (active_process s <> None) && negb (active_has_output s) in
      (if stop then set_active (active_process s) (active_request_id s) (active_has_output s) true s else s,
       MainStop id (active_process s) (active_request_id s) (active_has_output s))
  | RPing id => (emit (MPong id) s, MainLoop)
  | RQuit => (s, MainQuit (active_process s))
  | RUnknown id => (s, MainFail id "unknown helper action")
  | RInvalid text => (s, MainFail None ("invalid request: " +:+ text))
  end.

Definition new_thread (id : Z) (program : string) (argv : list string) : thread :=
  mkThread id (TNew program argv) None false [].

(** The signal of [handle_stop] and of [quit] is sent only to a registered
    child that has produced output, or to any on [quit]. *)
Inductive main_step (s : shared) (ts : list thread) : main_pc -> shared -> list thread -> main_pc -> Prop :=
  | main_receive r s' pc : receive r s = (s', pc) -> main_step s ts MainLoop s' ts pc
  | main_end_of_input : main_step s ts MainLoop s ts MainExit
  | main_fail id text : main_step s ts (MainFail id text) (emit (MError id text) s) ts MainLoop
  | main_start id program argv : main_step s ts (MainStart id program argv) s (ts ++ [new_thread id program argv]) MainLoop
  | main_stop id process active_id has_output :
      (process = None \/ has_output = false) ->
      main_step s ts (MainStop id process active_id has_output) (emit (stop_message id active_id process has_output None) s) ts MainLoop
  | main_stop_kill id pid active_id :
      main_step s ts (MainStop id (Some pid) active_id true) (emit (stop_message id active_id (Some pid) true None) (killpg pid s)) ts MainLoop
  | main_stop_failed id pid active_id text :
      main_step s ts (MainStop id (Some pid) active_id true) (emit (stop_message id active_id (Some pid) true (Some text)) s) ts MainLoop
  | main_quit_idle : main_step s ts (MainQuit None) s ts MainBye
  | main_quit_kill pid : main_step s ts (MainQuit (Some pid)) (killpg pid s) ts MainBye
  | main_quit_failed pid : main_step s ts (MainQuit (Some pid)) s ts MainBye
  | main_bye : main_step s ts MainBye (emit MBye s) ts MainExit.

(** ** The system *)

Definition exited (p : process) : process := mkProcess (command p) false (sigints p).

Inductive step : system -> system -> Prop :=
  | step_main s ts pc s' ts' pc' : main_step s ts pc s' ts' pc' -> step (mkSystem s ts pc) (mkSystem s' ts' pc')
  | step_thread s ts pc i t s' t' :
      pc <> MainExit -> ts !! i = Some t -> thread_step s t s' t' -> step (mkSystem s ts pc) (mkSystem s' (<[i := t']> ts) pc)
  | step_exit s ts pc pid p :
      processes s !! pid = Some p -> step (mkSystem s ts pc) (mkSystem (set_processes (<[pid := exited p]> (processes s)) s) ts pc).

(** [main] behind the check for root *)
Definition initial : system := mkSystem (mkShared None None false false ∅ [MReady]) [] MainLoop.

Inductive reachable : system -> Prop :=
  | reach_initial : reachable initial
  | reach_step x y : reachable x -> step x y -> reachable y.
End helper.

(** ** What a command may be *)

Definition permitted (usable : string -> bool) (cmd : list string) : Prop :=
  (exists action args, cmd = OPERATION_ENGINE :: action :: args /\ usable OPERATION_ENGINE = true /\
     action ∈ ["compact"; "defrag"; "growth-defrag"; "recover"] /\ "--filesystem" ∈ action :: args) \/
  (exists args, cmd = MAPPER :: args /\ usable MAPPER = true) \/
  (exists device, cmd = [UDISKSCTL; "unmount"; "-b"; device] /\ usable UDISKSCTL = true /\ starts_with device "/dev/" = true).

Lemma allowed_command_permitted usable program argv cmd : allowed_command usable program argv = Ok cmd -> permitted usable cmd.
Proof.
  unfold allowed_command. case_bool_decide.
  { destruct (usable OPERATION_ENGINE) eqn:Hu; [|done]. cbn [negb]. destruct argv as [|action args]; [done|].
    case_bool_decide; [|done]. cbn [negb]. case_bool_decide; [|done]. cbn [negb]. intros [= <-]. left. by exists action, args. }
  case_bool_decide.
  { destruct (usable MAPPER) eqn:Hu; [|done]. cbn [negb]. intros [= <-]. right. left. by exists argv. }
  case_bool_decide; [|done]. destruct (usable UDISKSCTL) eqn:Hu; [|done]. cbn [negb].
  destruct argv as [|action [|option [|device [|? ?]]]]; try done.
  repeat case_bool_decide; try done. destruct (starts_with device "/dev/") eqn:Hd; [|done]. cbn. subst. intros [= <-].
  right. right. by exists device.
Qed.

(** ** What a request thread writes *)

Definition body_message (id : Z) (m : message) : Prop :=
  match m with
  | MOutput i _ | MProgress i _ | MStopResult None (Some i) _ _ => i = id
  | _ => False
  end.

(** The log of a thread whose child was started and has not ended. *)
Definition opened (t : thread) (log : list message) : Prop :=
  exists pid body, t_process t = Some pid /\ log = MStarted (t_id t) pid :: body /\ Forall (body_message (t_id t)) body.

Definition dead (ps : gmap nat process) (t : thread) : Prop :=
  forall pid p, t_process t = Some pid -> ps !! pid = Some p -> live p = false.

(** An error report that leaves the child dead, or says that it may be alive. *)
Definition reported (ps : gmap nat process) (t : thread) (log : list message) : Prop :=
  exists pre e, (pre = [] \/ opened t pre) /\ log = pre ++ [MError (Some (t_id t)) e] /\
    (dead ps t \/ exists text stop, e = unsafe_text text stop).

Definition closed (ps : gmap nat process) (t : thread) : Prop :=
  (exists pre rc, opened t pre /\ sent t = pre ++ [MFinished (t_id t) rc] /\ dead ps t) \/
  (exists pre, reported ps t pre /\ sent t = pre ++ [MFinished (t_id t) 127]).

Definition pc_ok (ps : gmap nat process) (t : thread) : Prop :=
  match t_pc t with
  | TNew _ _ => sent t = [] /\ t_process t = None
  | TSpawned | TRegistered => sent t = []
  | TReading | TLine _ _ | TDeliver => opened t (sent t)
  | TWaited _ => opened t (sent t) /\ dead ps t
  | TRaised _ | TStopping _ => sent t = [] \/ opened t (sent t)
  | TReported => reported ps t (sent t)
  | TFinally | TDone => closed ps t
  end.

Definition thread_ok (s : shared) (t : thread) : Prop :=
  pc_ok (processes s) t /\ (forall pid, t_process t = Some pid -> is_Some (processes s !! pid)) /\ sent t `sublist_of` out s.

(** Children keep their command and never come back to life. *)
Definition evolves (ps ps' : gmap nat process) : Prop :=
  forall pid p, ps !! pid = Some p -> exists p', ps' !! pid = Some p' /\ command p' = command p /\ (live p = false -> live p' = false).

Lemma evolves_refl ps : evolves ps ps.
Proof. intros pid p H. by exists p. Qed.

Lemma evolves_insert_fresh ps pid p : ps !! pid = None -> evolves ps (<[pid := p]> ps).
Proof. intros Hf i q Hq. exists q. rewrite lookup_insert_ne; [done|congruence]. Qed.

Lemma evolves_signal ps pid : evolves ps (alter signal pid ps).
Proof.
  intros i q Hq. destruct (decide (pid = i)) as [->|]; [|exists q; by rewrite lookup_alter_ne].
  exists (signal q). by rewrite lookup_alter_eq, Hq.
Qed.

Lemma evolves_exit ps pid p : ps !! pid = Some p -> evolves ps (<[pid := exited p]> ps).
Proof.
  intros Hp i q Hq. destruct (decide (pid = i)) as [->|]; [|exists q; by rewrite lookup_insert_ne].
  exists (exited p). rewrite lookup_insert_eq. split; [done|]. by replace q with p by congruence.
Qed.

Create HintDb helper.
#[export] Hint Resolve evolves_refl evolves_insert_fresh evolves_signal evolves_exit : helper.

Lemma dead_evolves ps ps' t : evolves ps ps' -> (forall pid, t_process t = Some pid -> is_Some (ps !! pid)) -> dead ps t -> dead ps' t.
Proof.
  intros He Hex Hd pid p Hp Hlook. destruct (Hex pid Hp) as [q Hq]. destruct (He pid q Hq) as (q' & Hq' & _ & Hl).
  replace p with q' by congruence. by apply Hl, (Hd pid).
Qed.

Section evolves.
Context (ps ps' : gmap nat process) (t : thread).
Hypothesis He : evolves ps ps'.
Hypothesis Hex : forall pid, t_process t = Some pid -> is_Some (ps !! pid).

Lemma reported_evolves log : reported ps t log -> reported ps' t log.
Proof.
  intros (pre & e & Hpre & Hlog & Hd). exists pre, e. split; [done|]. split; [done|]. destruct Hd as [Hd|Hd]; [left|by right].
  by apply (dead_evolves ps).
Qed.

Lemma closed_evolves : closed ps t -> closed ps' t.
Proof.
  intros [(pre & rc & Ho & Hs & Hd)|(pre & Hr & Hs)]; [left; exists pre, rc|right; exists pre].
  - split; [done|]. split; [done|]. by apply (dead_evolves ps).
  - split; [by apply reported_evolves|done].
Qed.

Lemma pc_ok_evolves : pc_ok ps t -> pc_ok ps' t.
Proof.
  unfold pc_ok. destruct (t_pc t); try done; try apply closed_evolves; try apply reported_evolves.
  intros [Ho Hd]. split; [done|]. by apply (dead_evolves ps).
Qed.
End evolves.

(** A thread's step appends the same messages to its log and to the output. *)
Lemma thread_step_appends usable s t s' t' : thread_step usable s t s' t' ->
  t_id t' = t_id t /\ evolves (processes s) (processes s') /\ exists ms, sent t' = sent t ++ ms /\ out s' = out s ++ ms.
Proof.
  intros H. destruct H; cbn; (split; [done|]); (split; [auto with helper|]); try (by exists []; rewrite !app_nil_r); try by eexists [_].
  - destruct m; cbn; auto with helper.
  - destruct m as [m|]; cbn; [by exists [m]|exists []]. by rewrite !app_nil_r.
Qed.

Lemma opened_snoc t m : body_message (t_id t) m -> opened t (sent t) -> opened t (sent t ++ [m]).
Proof.
  intros Hm (pid & body & Hp & Hs & Hb). exists pid, (body ++ [m]). split; [done|]. rewrite Hs. split; [done|]. by apply Forall_app_2; [|constructor].
Qed.

Lemma line_message_body t line m : line_message t line (Some m) -> body_message (t_id t) m.
Proof. inversion 1; by subst. Qed.

(** A thread's own step keeps its place and its log in line. *)
Lemma thread_step_pc_ok usable s t s' t' : thread_step usable s t s' t' ->
  (forall pid, t_process t = Some pid -> is_Some (processes s !! pid)) -> pc_ok (processes s) t -> pc_ok (processes s') t'.
Proof.
  intros H Hex. unfold pc_ok. destruct H as [? ? ? Hpc|? ? ? ? Hpc|? ? ? ? Hpc|? Hpc|? Hpc Hp|? Hpc|? Hpc|? ? m Hpc Hm|? ? m Hpc Hp Hm|? m Hpc Hm
    |? ? ? Hpc Hp Hl Hd|? Hpc|? Hpc|? m Hpc Hd Hm|? ? ? Hpc|? ? ? m Hpc Hp Hl Hd Hm|? ? ? ? m Hpc Hp Hl Hd Hm|? ? m Hpc Hm|Hpc|Hpc].
  all: cbn [t_pc go tell tell_opt processes set_processes set_active emit killpg].
  - rewrite Hpc. intros [Hs _]. by left.
  - rewrite Hpc. intros [Hs _]. by left.
  - rewrite Hpc. by intros [Hs _].
  - by rewrite Hpc.
  - rewrite Hpc. intros Hs. exists pid, []. cbn. rewrite Hs. by split; [|split].
  - by rewrite Hpc.
  - by rewrite Hpc.
  - rewrite Hpc. intros Ho. assert (opened t (sent t ++ match m with Some m => [m] | None => [] end)) as Ho'
      by (destruct m; [apply opened_snoc; [by eapply line_message_body|done]|by rewrite app_nil_r]). by destruct deliver.
  - rewrite Hpc. intros Ho. subst m. by apply (opened_snoc t).
  - rewrite Hpc. intros Ho. subst m. by apply (opened_snoc t).
  - rewrite Hpc. intros Ho. split; [done|]. intros i q Hi Hq. cbn in Hi. congruence.
  - rewrite Hpc. intros [Ho Hd]. left. by exists (sent t), returncode.
  - intros Ho. destruct Hpc as [Hpc|[Hpc|[(? & ? & Hpc)|[Hpc|[? Hpc]]]]]; rewrite Hpc in Ho; [by left|right..]; try exact Ho. apply Ho.
  - rewrite Hpc. intros Ho. subst m. exists (sent t), text. split; [done|]. split; [done|]. by left.
  - by rewrite Hpc.
  - rewrite Hpc. intros Ho. subst m. eexists (sent t), _. split; [done|]. split; [done|]. left. intros i q Hi Hq. cbn in Hi. congruence.
  - rewrite Hpc. intros Ho. subst m. eexists (sent t), _. split; [done|]. split; [done|]. right. by eexists _, _.
  - rewrite Hpc. intros Ho. subst m. eexists (sent t), _. split; [done|]. split; [done|]. right. by eexists _, _.
  - rewrite Hpc. intros Ho. right. by exists (sent t).
  - by rewrite Hpc.
Qed.

(** ** The invariant *)

Record helper_inv (usable : string -> bool) (x : system) : Prop := mkHelperInv {
  inv_commands : forall pid p, processes (sh x) !! pid = Some p -> permitted usable (command p);
  inv_owned : forall pid p, processes (sh x) !! pid = Some p -> exists i t, threads x !! i = Some t /\ t_process t = Some pid;
  inv_threads : forall i t, threads x !! i = Some t -> thread_ok (sh x) t
}.

(** Steps that start no child. *)
Definition no_new (ps ps' : gmap nat process) : Prop := forall pid p', ps' !! pid = Some p' -> exists p, ps !! pid = Some p /\ command p' = command p.

Lemma no_new_refl ps : no_new ps ps.
Proof. intros pid p H. by exists p. Qed.

Lemma no_new_signal ps pid : no_new ps (alter signal pid ps).
Proof. intros i q. rewrite lookup_alter_Some. intros [(-> & p & Hp & ->)|[_ Hq]]; [by exists p|by exists q]. Qed.

Lemma no_new_exit ps pid p : ps !! pid = Some p -> no_new ps (<[pid := exited p]> ps).
Proof. intros Hp i q. rewrite lookup_insert_Some. intros [[-> <-]|[_ Hq]]; [by exists p|by exists q]. Qed.

#[export] Hint Resolve no_new_refl no_new_signal no_new_exit : helper.

(** A thread's step starts no child and keeps its own, or starts an allowed
    one. *)
Lemma thread_step_children usable s t s' t' : thread_step usable s t s' t' ->
  (no_new (processes s) (processes s') /\ t_process t' = t_process t) \/
  (exists pid cmd, processes s !! pid = None /\ processes s' = <[pid := mkProcess cmd true 0]> (processes s) /\
     permitted usable cmd /\ t_process t' = Some pid /\ exists program argv, t_pc t = TNew program argv).
Proof.
  intros H. destruct H; try (left; cbn; split; [by auto with helper|done]).
  - right. exists pid, cmd. split; [done|]. split; [done|]. split; [by eapply allowed_command_permitted|]. split; [done|]. by exists program, argv.
  - left. split; [|done]. destruct m; cbn; auto with helper.
Qed.

Lemma thread_ok_shared s s' t ms : evolves (processes s) (processes s') -> out s' = out s ++ ms -> thread_ok s t -> thread_ok s' t.
Proof.
  intros He Hout (Hpc & Hex & Hsub). split; [by apply (pc_ok_evolves (processes s))|]. split.
  - intros pid Hp. destruct (Hex pid Hp) as [p Hq]. destruct (He pid p Hq) as (q & Hq' & _). by exists q.
  - rewrite Hout. by apply sublist_inserts_r.
Qed.

Lemma thread_ok_step usable s t s' t' : thread_step usable s t s' t' -> thread_ok s t -> thread_ok s' t'.
Proof.
  intros H (Hpc & Hex & Hsub). destruct (thread_step_appends _ _ _ _ _ H) as (_ & He & ms & Hs & Ho).
  split; [by apply (thread_step_pc_ok usable s t)|]. split; [|rewrite Hs, Ho; by apply sublist_app].
  intros pid Hp. destruct (thread_step_children _ _ _ _ _ H) as [[_ Heq]|(i & cmd & _ & Hps & _ & Hi & _)].
  - rewrite Heq in Hp. destruct (Hex pid Hp) as [p Hq]. destruct (He pid p Hq) as (q & Hq' & _). by exists q.
  - rewrite Hp in Hi. injection Hi as ->. rewrite Hps. rewrite lookup_insert_eq. by eexists.
Qed.

Definition quiet_change (s s' : shared) : Prop :=
  evolves (processes s) (processes s') /\ no_new (processes s) (processes s') /\ exists ms, out s' = out s ++ ms.

Ltac quiet_change := unfold quiet_change; cbn; split; [by auto with helper|]; split; [by auto with helper|]; (by exists []; rewrite app_nil_r) || by eexists.

Lemma receive_quiet r s : quiet_change s (fst (receive r s)).
Proof.
  destruct r as [? ? [?|]|?|?| |?|?]; unfold receive; try quiet_change.
  - destruct (active_process s); quiet_change.
  - destruct (_ && _); quiet_change.
Qed.

(** A step of the main loop leaves the threads, or adds a new one. *)
Lemma main_step_effect s ts pc s' ts' pc' : main_step s ts pc s' ts' pc' ->
  quiet_change s s' /\ (ts' = ts \/ exists id program argv, pc = MainStart id program argv /\ ts' = ts ++ [new_thread id program argv]).
Proof.
  intros H. destruct H as [r s' pc Hr| | | | | | | | | |]; [|split; [quiet_change|(by left) || (right; by eexists _, _, _)]..].
  assert (Hq := receive_quiet r s). rewrite Hr in Hq. by split; [|left].
Qed.

Lemma helper_inv_main usable s ts pc s' ts' pc' : main_step s ts pc s' ts' pc' ->
  helper_inv usable (mkSystem s ts pc) -> helper_inv usable (mkSystem s' ts' pc').
Proof.
  intros Hm [Hc Ho Ht]. cbn in *. destruct (main_step_effect _ _ _ _ _ _ Hm) as [(He & Hn & ms & Hout) Hts].
  assert (Hin : forall i t, ts !! i = Some t -> ts' !! i = Some t)
    by (destruct Hts as [->|(? & ? & ? & _ & ->)]; intros i t Hi; [done|by apply lookup_app_l_Some]).
  split; cbn.
  - intros pid p Hp. destruct (Hn pid p Hp) as (q & Hq & ->). by apply (Hc pid).
  - intros pid p Hp. destruct (Hn pid p Hp) as (q & Hq & _). destruct (Ho pid q Hq) as (i & t & Hi & Hpid). exists i, t. by split; [apply Hin|].
  - intros i t Hi. destruct Hts as [->|(id & program & argv & _ & ->)]; [by apply (thread_ok_shared s s' t ms He Hout), (Ht i)|].
    apply lookup_app_Some in Hi as [Hi|[_ Hi]]; [by apply (thread_ok_shared s s' t ms He Hout), (Ht i)|].
    apply list_lookup_singleton_Some in Hi as [_ <-]. split; [done|]. split; [done|]. apply sublist_nil_l.
Qed.

(** After a thread's step a child is an old one with its old owner, or the new
    one of this thread. *)
Lemma thread_step_owner usable s (ts : list thread) i t s' t' pid p' : ts !! i = Some t -> thread_ok s t -> thread_step usable s t s' t' ->
  processes s' !! pid = Some p' ->
  (exists p, processes s !! pid = Some p /\ command p' = command p /\
     forall j u, ts !! j = Some u -> t_process u = Some pid -> exists u', <[i := t']> ts !! j = Some u' /\ t_process u' = Some pid) \/
  (permitted usable (command p') /\ t_process t' = Some pid).
Proof.
  intros Hi (Hok & _ & _) Hth Hp.
  assert (Hkeep : forall j u, j <> i -> ts !! j = Some u -> <[i := t']> ts !! j = Some u) by (intros j u Hj Hu; by rewrite list_lookup_insert_ne).
  destruct (thread_step_children _ _ _ _ _ Hth) as [[Hn Hsame]|(new & cmd & Hfresh & Hps & Hperm & Hown & (program & argv & Hpc))].
  - left. destruct (Hn pid p' Hp) as (p & Hq & Hcmd). exists p. split; [done|]. split; [done|]. intros j u Hu Hup.
    destruct (decide (j = i)) as [->|Hne]; [|exists u; by split; [apply Hkeep|]]. exists t'.
    rewrite list_lookup_insert_eq by (by eapply lookup_lt_Some). split; [done|]. rewrite Hsame. congruence.
  - rewrite Hps in Hp. apply lookup_insert_Some in Hp as [[-> <-]|[Hne Hq]]; [by right|]. left. exists p'. split; [done|]. split; [done|].
    intros j u Hu Hup. exists u. split; [|done]. apply Hkeep; [|done]. intros ->. unfold pc_ok in Hok. rewrite Hpc in Hok. destruct Hok. congruence.
Qed.

Lemma helper_inv_thread usable s (ts : list thread) pc i t s' t' : ts !! i = Some t -> thread_step usable s t s' t' ->
  helper_inv usable (mkSystem s ts pc) -> helper_inv usable (mkSystem s' (<[i := t']> ts) pc).
Proof.
  intros Hi Hth [Hc Ho Ht]. cbn in *. assert (Hown := fun pid p' => thread_step_owner _ _ _ _ _ _ _ pid p' Hi (Ht i t Hi) Hth).
  destruct (thread_step_appends _ _ _ _ _ Hth) as (_ & He & ms & _ & Hout). split; cbn.
  - intros pid p' Hp. destruct (Hown pid p' Hp) as [(p & Hq & -> & _)|[Hperm _]]; [by apply (Hc pid)|done].
  - intros pid p' Hp. destruct (Hown pid p' Hp) as [(p & Hq & _ & Hkeep)|[_ Hmine]].
    + destruct (Ho pid p Hq) as (j & u & Hu & Hup). destruct (Hkeep j u Hu Hup) as (u' & Hu' & Hup'). by exists j, u'.
    + exists i, t'. split; [|done]. apply list_lookup_insert_eq. by eapply lookup_lt_Some.
  - intros j u Hj. apply list_lookup_insert_Some in Hj as [(-> & <- & _)|[_ Hj]].
    + apply (thread_ok_step usable s t); [done|by apply (Ht j)].
    + apply (thread_ok_shared s s' u ms He Hout). by apply (Ht j).
Qed.

Lemma helper_inv_reachable usable x : reachable usable x -> helper_inv usable x.
Proof.
  induction 1 as [|x y _ IH Hstep].
  - split; cbn; intros *; [by rewrite lookup_empty..|by rewrite lookup_nil].
  - destruct Hstep as [s ts pc s' ts' pc' Hm|s ts pc i t s' t' _ Hi Hth|s ts pc pid p Hp].
    + by apply (helper_inv_main usable s ts pc).
    + by apply (helper_inv_thread usable s ts pc i t s').
    + destruct IH as [Hc Ho Ht]. cbn in *. assert (Hn := no_new_exit _ _ _ Hp). split; cbn.
      * intros i q Hq. destruct (Hn i q Hq) as (q' & Hq' & ->). by apply (Hc i).
      * intros i q Hq. destruct (Hn i q Hq) as (q' & Hq' & _). by apply (Ho i q').
      * intros i t Hi. apply (thread_ok_shared s _ t []); [by apply evolves_exit|by rewrite app_nil_r|by apply (Ht i)].
Qed.

(** ** A client that waits *)

Definition finished (t : thread) : Prop := exists rc, MFinished (t_id t) rc ∈ sent t.

(** A client that sends a [run] request only when every request accepted before
    was reported finished. *)
Definition patient (x y : system) : Prop :=
  forall id program argv, main_at x = MainLoop -> main_at y = MainStart id program argv -> forall i t, threads x !! i = Some t -> finished t.

Inductive serial (usable : string -> bool) : system -> Prop :=
  | serial_initial : serial usable initial
  | serial_step x y : serial usable x -> step usable x y -> patient x y -> serial usable y.

Lemma serial_reachable usable x : serial usable x -> reachable usable x.
Proof. induction 1; [constructor|by econstructor]. Qed.

(** At most one request is unfinished, none while one is being accepted. *)
Definition one_at_a_time (x : system) : Prop :=
  (forall id program argv, main_at x = MainStart id program argv -> forall i t, threads x !! i = Some t -> finished t) /\
  forall i j t u, threads x !! i = Some t -> threads x !! j = Some u -> i <> j -> finished t \/ finished u.

Lemma finished_step usable s t s' t' : thread_step usable s t s' t' -> finished t -> finished t'.
Proof.
  intros H [rc Hrc]. destruct (thread_step_appends _ _ _ _ _ H) as (Hid & _ & ms & Hs & _). exists rc. rewrite Hid, Hs. set_solver.
Qed.

Lemma main_step_start s ts pc s' ts' id program argv : main_step s ts pc s' ts' (MainStart id program argv) -> pc = MainLoop /\ ts' = ts.
Proof. inversion 1; by subst. Qed.

Lemma one_at_a_time_step usable x y : step usable x y -> patient x y -> one_at_a_time x -> one_at_a_time y.
Proof.
  intros Hstep Hpat [Hs Hone]. destruct Hstep as [s ts pc s' ts' pc' Hm|s ts pc i t s' t' _ Hi Hth|s ts pc pid p Hp]; [..|done].
  - split.
    + intros id program argv Hpc i t Hi. cbn in Hpc, Hi. subst pc'. destruct (main_step_start _ _ _ _ _ _ _ _ Hm) as [-> ->].
      by apply (Hpat id program argv eq_refl eq_refl i).
    + destruct (main_step_effect _ _ _ _ _ _ Hm) as [_ [->|(id & program & argv & -> & ->)]]; [exact Hone|].
      assert (Hold : forall i t, ts !! i = Some t -> finished t) by (by apply (Hs id program argv)).
      intros i j t u Hi Hj Hne. cbn in Hi, Hj.
      apply lookup_app_Some in Hi as [Hi|[Hli Hi]]; [left; by apply (Hold i)|]. apply lookup_app_Some in Hj as [Hj|[Hlj Hj]]; [right; by apply (Hold j)|].
      apply list_lookup_singleton_Some in Hi as [Hi _]. apply list_lookup_singleton_Some in Hj as [Hj _]. lia.
  - assert (Hkeep : forall j u, <[i := t']> ts !! j = Some u -> exists u0, ts !! j = Some u0 /\ (finished u0 -> finished u)).
    { intros j u Hj. apply list_lookup_insert_Some in Hj as [(-> & <- & _)|[_ Hj]]; [|by exists u]. exists t. split; [done|]. by apply (finished_step usable s t s'). }
    split; cbn.
    + intros id program argv Hpc j u Hj. destruct (Hkeep j u Hj) as (u0 & Hu0 & Hf). by apply Hf, (Hs id program argv Hpc j).
    + intros j k u v Hj Hk Hne. destruct (Hkeep j u Hj) as (u0 & Hu0 & Hf). destruct (Hkeep k v Hk) as (v0 & Hv0 & Hg).
      destruct (Hone j k u0 v0 Hu0 Hv0 Hne); [left; by apply Hf|right; by apply Hg].
Qed.

Lemma serial_one_at_a_time usable x : serial usable x -> one_at_a_time x.
Proof.
  induction 1 as [|x y _ IH Hstep Hpat]; [split; intros * |by apply (one_at_a_time_step usable x)]; [done|]. cbn. by rewrite lookup_nil.
Qed.

(** Only a thread at its end has reported the end. *)
Lemma opened_not_finished t log rc : opened t log -> MFinished (t_id t) rc ∉ log.
Proof.
  intros (pid & body & _ & -> & Hb) Hin. apply elem_of_cons in Hin as [Hin|Hin]; [done|]. by apply (proj1 (Forall_forall _ _) Hb) in Hin.
Qed.

Lemma finished_closed ps t : pc_ok ps t -> finished t -> closed ps t.
Proof.
  intros Hok [rc Hrc]. unfold pc_ok in Hok.
  assert (Hno : opened t (sent t) -> closed ps t) by (intros Ho; by destruct (opened_not_finished t (sent t) rc Ho)).
  assert (Hnil : sent t = [] -> closed ps t) by (intros Hs; rewrite Hs in Hrc; by apply elem_of_nil in Hrc).
  destruct (t_pc t); try (by auto); try (by destruct Hok; auto).
  destruct Hok as (pre & e & Hpre & Hs & _). rewrite Hs in Hrc. apply elem_of_app in Hrc as [Hrc|Hrc].
  - destruct Hpre as [->|Ho]; [by apply elem_of_nil in Hrc|by destruct (opened_not_finished t pre rc Ho)].
  - apply list_elem_of_singleton in Hrc. done.
Qed.

(** ** Claims *)

(** C35. The helper runs nothing as root but the three installed programs with
    the arguments it means to allow: every child process of a reachable state
    was started with a permitted command line, whatever requests arrived and
    however threads interleaved. *)
Theorem helper_runs_only_permitted (usable : string -> bool) (x : system) (pid : nat) (p : process)
    (Hr : reachable usable x) (Hp : processes (sh x) !! pid = Some p) :
  permitted usable (command p).
Proof. exact (inv_commands _ _ (helper_inv_reachable _ _ Hr) _ _ Hp). Qed.

(** Each accepted request is answered by one complete conversation: once its
    thread is done or has written [finished], it wrote [started], then its
    output, progress and stop results, then [finished] with the child dead, or
    it wrote an error and [finished 127], the child being dead unless the error
    says that stopping it failed; the helper's output holds these messages in
    this order. *)
Theorem helper_reports_each_request (usable : string -> bool) (x : system) (i : nat) (t : thread)
    (Hr : reachable usable x) (Hi : threads x !! i = Some t) (Hend : t_pc t = TDone \/ finished t) :
  closed (processes (sh x)) t /\ finished t /\ sent t `sublist_of` out (sh x).
Proof.
  destruct (inv_threads _ _ (helper_inv_reachable _ _ Hr) _ _ Hi) as (Hok & _ & Hsub).
  assert (closed (processes (sh x)) t) as Hc by (destruct Hend as [Hpc|Hf]; [unfold pc_ok in Hok; by rewrite Hpc in Hok|by apply finished_closed]).
  split; [done|]. split; [|done]. destruct Hc as [(pre & rc & _ & Hs & _)|(pre & _ & Hs)]; [exists rc|exists 127]; rewrite Hs; set_solver.
Qed.

(** C36. With a client that sends a [run] request only after [finished] of the
    one before, two children are never alive together unless a safe stop was
    reported to have failed. *)
Theorem helper_one_writer (usable : string -> bool) (x : system) (p q : nat) (a b : process)
    (Hr : serial usable x) (Hp : processes (sh x) !! p = Some a) (Hq : processes (sh x) !! q = Some b)
    (Hlive : live a = true /\ live b = true) :
  p = q \/ exists i t text stop, threads x !! i = Some t /\ MError (Some (t_id t)) (unsafe_text text stop) ∈ sent t.
Proof.
  destruct (decide (p = q)) as [|Hne]; [by left|right]. destruct (helper_inv_reachable _ _ (serial_reachable _ _ Hr)) as [_ Ho Ht].
  destruct (Ho p a Hp) as (i & t & Hi & Htp). destruct (Ho q b Hq) as (j & u & Hj & Huq).
  assert (Hdone : forall k v r c, threads x !! k = Some v -> t_process v = Some r -> processes (sh x) !! r = Some c -> live c = true -> finished v ->
      exists text stop, MError (Some (t_id v)) (unsafe_text text stop) ∈ sent v).
  { intros k v r c Hk Hv Hc Hl Hf. destruct (Ht k v Hk) as (Hok & _ & _).
    assert (Hd : dead (processes (sh x)) v -> False) by (intros Hd; rewrite (Hd r c Hv Hc) in Hl; done).
    destruct (finished_closed _ _ Hok Hf) as [(pre & rc & _ & _ & Hd')|(pre & (pre' & e & _ & -> & [Hd'|(text & stop & ->)]) & Hs)]; [done..|].
    exists text, stop. rewrite Hs. set_solver. }
  assert (i <> j) as Hij by (intros ->; congruence).
  destruct (serial_one_at_a_time _ _ Hr) as [_ Hone]. destruct (Hone i j t u Hi Hj Hij) as [Hf|Hf].
  - destruct (Hdone i t p a Hi Htp Hp (proj1 Hlive) Hf) as (text & stop & Hin). by exists i, t, text, stop.
  - destruct (Hdone j u q b Hj Huq Hq (proj2 Hlive) Hf) as (text & stop & Hin). by exists j, u, text, stop.
Qed.

(** ** Runs *)

Section runs.
Context (usable : string -> bool).

Definition not_accepting (pc : main_pc) : bool := match pc with MainStart _ _ _ => false | _ => true end.

Lemma serial_main s ts pc s' ts' pc' : serial usable (mkSystem s ts pc) -> main_step s ts pc s' ts' pc' ->
  not_accepting pc' = true -> serial usable (mkSystem s' ts' pc').
Proof. intros Hx Hm Hpc. eapply serial_step; [exact Hx|by apply step_main|]. intros id program argv _ E. cbn in E. by rewrite E in Hpc. Qed.

Lemma serial_accept s ts r s' pc' : serial usable (mkSystem s ts MainLoop) -> receive r s = (s', pc') ->
  (forall i t, ts !! i = Some t -> finished t) -> serial usable (mkSystem s' ts pc').
Proof. intros Hx Hr Hf. eapply serial_step; [exact Hx|by apply step_main, main_receive with r|]. intros id program argv _ _. exact Hf. Qed.

Lemma serial_thread s ts pc i t s' t' : serial usable (mkSystem s ts pc) -> ts !! i = Some t -> thread_step usable s t s' t' ->
  not_accepting pc = true -> pc <> MainExit -> serial usable (mkSystem s' (<[i := t']> ts) pc).
Proof.
  intros Hx Hi Hth Hpc Hne. eapply serial_step; [exact Hx|by apply step_thread with t|]. intros id program argv _ E. cbn in E. by rewrite E in Hpc.
Qed.
End runs.

(** [run i c] takes the step [c] of thread [i]; [accept r] lets the main loop
    receive the request [r] and start its thread. *)
Tactic Notation "run" constr(i) uconstr(c) :=
  match goal with
  | H : serial _ _ |- _ => eapply (serial_thread _ _ _ _ i) in H; [|reflexivity|eapply c; by eauto|reflexivity|discriminate]; cbn in H
  end.

Ltac accept r :=
  match goal with
  | H : serial _ _ |- _ =>
      eapply (serial_accept _ _ _ r) in H;
      [|reflexivity|intros [|[|]] ? E; cbn in E; inversion E; subst; eexists; cbn; repeat (first [apply list_elem_of_here|apply list_elem_of_further])];
      cbn in H; eapply serial_main in H; [|apply main_start|reflexivity]; cbn in H
  end.

Definition installed (_ : string) : bool := true.
Definition compact_request (id : Z) : request := RRun id "operation-engine" (Some ["compact"; "--filesystem"; "ntfs"]).
Definition compact_command : list string := [OPERATION_ENGINE; "compact"; "--filesystem"; "ntfs"].

(** The first child cannot be stopped after an error; the second request is
    started behind its [finished]. *)
Definition abandoned_log : list message :=
  [MStarted 1 0; MError (Some 1) (unsafe_text "broken pipe" "timed out"); MFinished 1 127].

Definition abandoned : system :=
  mkSystem (mkShared None None false false (<[1%nat := mkProcess compact_command true 0]> {[0%nat := mkProcess compact_command true 1]}) (MReady :: abandoned_log))
    [mkThread 1 TDone (Some 0%nat) false abandoned_log; mkThread 2 TSpawned (Some 1%nat) false []] MainLoop.

Lemma abandoned_serial : serial installed abandoned.
Proof.
  assert (H := serial_initial installed). accept (compact_request 1).
  run 0%nat (step_popen installed _ _ _ _ compact_command 0%nat). run 0%nat step_register. run 0%nat step_started.
  run 0%nat (step_raised installed _ _ "broken pipe"). run 0%nat step_interrupt.
  run 0%nat (step_not_stopped installed _ _ "broken pipe" "timed out"). run 0%nat step_gave_up. run 0%nat step_finally.
  accept (compact_request 2). run 1%nat (step_popen installed _ _ _ _ compact_command 1%nat).
  exact H.
Qed.

Lemma helper_runs_only_permitted_witness : permitted installed compact_command.
Proof. apply (helper_runs_only_permitted installed abandoned 1 (mkProcess compact_command true 0)); [apply serial_reachable, abandoned_serial|reflexivity]. Defined.

Lemma helper_reports_each_request_witness :
  exists t, threads abandoned !! 0%nat = Some t /\ closed (processes (sh abandoned)) t /\ finished t /\ sent t `sublist_of` out (sh abandoned).
Proof.
  eexists. split; [reflexivity|].
  apply (helper_reports_each_request installed abandoned 0); [apply serial_reachable, abandoned_serial|reflexivity|by left].
Defined.

Lemma helper_one_writer_witness :
  0%nat = 1%nat \/ exists i t text stop, threads abandoned !! i = Some t /\ MError (Some (t_id t)) (unsafe_text text stop) ∈ sent t.
Proof.
  apply (helper_one_writer installed abandoned 0 1 (mkProcess compact_command true 1) (mkProcess compact_command true 0));
    [apply abandoned_serial|reflexivity|reflexivity|by split].
Defined.

(** ** Races *)

(** The test of [handle_run] does not exclude two writers: [_active_process]
    is set only behind [Popen], so a second [run] request can pass the test
    before, and two engines run as root at the same time. *)
Theorem two_writers_reachable : exists x p q a b,
  reachable installed x /\ p <> q /\ processes (sh x) !! p = Some a /\ processes (sh x) !! q = Some b /\ live a = true /\ live b = true /\
  command a = compact_command /\ command b = compact_command /\ out (sh x) = [MReady].
Proof.
  assert (H := reach_initial installed).
  eapply reach_step in H; [|apply step_main, main_receive with (r := compact_request 1); reflexivity].
  eapply reach_step in H; [|apply step_main, main_start].
  eapply reach_step in H; [|apply step_main, main_receive with (r := compact_request 2); reflexivity].
  eapply reach_step in H; [|apply step_main, main_start].
  eapply reach_step in H; [|eapply (step_thread _ _ _ _ 0); [discriminate|reflexivity|eapply (step_popen installed _ _ _ _ compact_command 0); reflexivity]].
  eapply reach_step in H; [|eapply (step_thread _ _ _ _ 1); [discriminate|reflexivity|eapply (step_popen installed _ _ _ _ compact_command 1); reflexivity]].
  eexists _, 0%nat, 1%nat, _, _. split; [exact H|]. by cbn.
Qed.

(** A stop request can be lost: the [finally] block of a request clears the
    registration whoever made it, so a request that failed can clear that of
    the next one, and a stop request for the running child is then answered "no
    active operation" without a signal, even to a client that waits for
    [finished]. *)
Theorem stop_lost : exists x pid p,
  serial installed x /\ processes (sh x) !! pid = Some p /\ live p = true /\ sigints p = 0%nat /\
  MStarted 2 pid ∈ out (sh x) /\ last (out (sh x)) = Some (MStopResult (Some 3) None false "no active operation").
Proof.
  assert (H := serial_initial installed). accept (RRun 1 "fsck" (Some [])).
  run 0%nat step_refused. run 0%nat step_no_child. run 0%nat step_gave_up.
  accept (compact_request 2). run 1%nat (step_popen installed _ _ _ _ compact_command 0%nat). run 1%nat step_register. run 1%nat step_started.
  run 0%nat step_finally.
  eapply serial_main in H; [|apply main_receive with (r := RStop (Some 3)); reflexivity|reflexivity].
  eapply serial_main in H; [|apply main_stop; by left|reflexivity].
  eexists _, 0%nat, _. split; [exact H|]. cbn. split; [done|]. split; [done|]. split; [done|]. split; [set_solver|done].
Qed.
